(* ===== verification/_CoqProject ===== *)
-Q . S2P
Prelude.v
Slots.v
Checksum.v
Packet.v
Split.v
Fragment.v
Tls.v
Http.v
Text.v
Strategy.v
Flow.v
Discovery.v
Engine.v
Policy.v
Decisions.v
Dns.v
Socket.v
Nft.v
Queue.v
Probe.v
Netprofile.v
Cli.v
Doh.v
Forward.v
Listener.v
Accept.v
Divert.v
Rules.v
Nftsem.v
Platform.v
Windivert.v
Watchdog.v
Pf.v
Macnet.v
Netwatch.v
Relay.v
Session.v
Compat.v
Transport.v
Socks.v
Conn.v
Daemon.v
Stream.v
Logfile.v
Service.v
Server.v
Main.v
Usage.v
