(* ===== verification/Prelude.v ===== *)
(** * A verification of dpi-for-everyone

    The repository is a C program that gets TLS connections past
    deep-packet-inspection middleboxes. It has three modes that share their
    protocol code:

    - [dpi-proxy-packet] ([src/main_packet.c], [src/nfqueue/]): packets taken
      from an nftables queue are re-segmented, fragmented or preceded by
      decoys, per host, according to a configuration, a cache of discovered
      strategies, or nothing;
    - [dpi-proxy] ([src/main.c], [src/socks.c], [src/relay.c]): a SOCKS5 proxy
      that can re-frame the ClientHello it relays;
    - [dpi-proxy --mode transparent] ([src/transparent/]): a daemon that the
      system redirects TCP/443 and DNS to; it tries each connection directly
      and then along a ladder of bypasses, verifies what worked, remembers it
      per network, and answers DNS through trusted resolvers ([src/dns/]).

    ** Files and what they model

    Foundations: [Prelude] (bytes, machine integers, checked buffers, the
    result type [res] with its weakest preconditions, C strings, the [bytes]
    hint and rewrite databases), [Slots] (searches in fixed tables), [Text]
    ([strtol], [printf] and [scanf] of numbers), [Socket] (what [recv] and
    [send] do as lists of events, address literals).

    Packets: [Checksum] ([packet/checksum.c]), [Packet] ([ip.c], [tcp.c]),
    [Split] ([split.c]), [Fragment] ([fragment.c], [fake.c]), [Tls]
    ([tls/sni_extract.c], [tls.c]), [Http] ([http/http.c]).

    Packet mode: [Strategy] ([strategy/strategy.c]), [Flow] ([flow/flow.c]),
    [Discovery] ([discovery/ladder.c], [cache.c]), [Netprofile]
    ([netfingerprint.c]), [Engine] (the packet handler of
    [nfqueue/nfqueue_engine.c]), [Queue] (its queue, sockets and main loop),
    [Nft] ([nft_rules.c]), [Probe] ([discovery/probe_runner.c]), [Cli]
    ([main_packet.c]).

    SOCKS mode: [Relay] ([relay.c]), [Socks] ([socks.c]), [Accept] (the accept
    loops of [socks.c] and [dnsfwd.c]).

    DNS: [Dns] ([dns/dns.c]), [Doh] ([dns_doh.c], [dns_udp.c]), [Forward]
    ([transparent/dnsfwd.c], [quic.c]), [Listener] ([dnsfwd.c]).

    Connections of the program's own: [Session] ([transparent/net.c],
    [upstream.c], [tlsclient.c], the handshake of [verify.c] and [conn_open] of
    [dns_doh.c]), [Transport] (the exchange of [dns_udp.c], the trust store and
    the clean-up of [tlsclient.c] and [dns_doh.c]), [Compat] ([compat.c],
    [platform.c]).

    Systems: [Platform] (the interface of [tp_platform.h] and its Linux
    implementation [platform_linux.c]), [Rules] (the rule texts of [policy.c],
    [pf_rules.c], [platform_linux.c]), [Nftsem] (what the [nft] rules mean: their
    grammar, printing and evaluation), [Netwatch] (the notifications of network
    changes of the three platforms), [Divert] and [Windivert] (the packet path
    and the rest of [platform_windows.c]), [Watchdog], [Pf] and [Macnet] (of
    [platform_macos.c]: the watchdog, running [pfctl], and what the kernel is
    asked about the network), [Service] ([capabilities.c], [svc_windows.c]).

    Transparent mode: [Policy] and [Decisions] ([transparent/policy.c]),
    [Conn] ([conn.c]), [Stream] (its attempts and relay at the level of the
    sockets), [Daemon] ([verify.c] and the shared state), [Logfile]
    (the log and the directories of [transparent.c]), [Server] (the rest of
    [transparent.c]), [Main] ([main.c]), [Usage] (the usage and capability
    texts of both programs).

    ** How the code is translated

    Definitions have the source's names and its order of tests, early returns
    and side effects. A buffer is the list of its bytes and every access to
    one is checked: [fetch], [slice] and [store] give [Fault] outside it, as
    does a loop that runs out of fuel, so that a theorem which says a call
    returns [Ok] or [Err] says that it terminates in bounds. Arrays that the
    C code does not initialise are arguments with arbitrary contents. Casts
    that can lose bits are written out ([u8], [u16], [u32], [u64], [i32]). A
    struct is a [Record] with one field per field; an array with a count is
    the list of its first entries; a pointer into an array is an index. An
    error code is [Err], an option or a number, as in the source.

    What the program asks of the rest of the world is an argument: the DNS
    transport, the prober, what a socket does ([list] of events), what [nft]
    does with a script, what opening, writing and renaming a file does, the
    clock, whether [malloc] and [pthread_create] work. Theorems quantify over
    all of them. Where the source has an interface, so has the model:
    [Platform.platform_layer] is [tp_platform.h], with its laws as the class
    [platform_laws]; the theorems of [Server] are proved against them and
    [Platform], [Pf] and [Windivert] give instances. OpenSSL ([Session]), the
    macOS system ([Pf]) and the notification of network changes
    ([Netwatch.change_watch], with one instance per system) are interfaces of
    the same kind. Threads that share state are relations whose steps are the
    critical sections of the code ([Daemon.daemon_step], [Doh.doh_step],
    [Listener], [Service.WinService.svc_step]), so that every interleaving is
    covered.

    Fuel: every [loop] is given one more than the length of the text or packet
    it walks, and the lemma [wp_loop] with a measure shows that it is enough;
    the server lists of [Doh] take the length of their text. All other
    recursions are structural, on a text, a table, or the events of a socket or
    a thread.

    ** What the theorems show

    - Packets: the packets built are valid, carry the same bytes at the right
      sequence numbers, and reassemble to the original ([Split], [Fragment]);
      parsers stay in bounds on every input and return exactly what a
      declarative description of the format locates ([Tls], [Dns]); of [Http]
      the description has the Host headers and, next to them, the one kind of
      line the code mistakes for one.
    - Tables refine finite maps with their replacement policy ([Flow],
      [Decisions], [Slots]) and keep their invariants under every operation.
    - The engine gives each packet one verdict and drops one only when its
      replacements were built and its flow's chain was carried out; a send that
      fails is not repaired ([Engine]). The queue's main loop hands every
      packet to it, what it opened is closed again on every path, and the rules
      are removed last, if [nft] lets them be ([Queue]).
    - Command line to file to command line: what is probed is shown, what is
      exported is imported, and a probe ends its processes and removes its
      file and its table unless the system refuses ([Cli], [Probe]).
    - A connection: the ClientHello is read whole, the attempts follow the
      documented order and end, each carries the client's own bytes, in
      exactly the form of the step's strategy ([Relay.carries]), to the
      address its step names, the first one answered with TLS is used, and only what an independent handshake verified
      is ever learned, in every interleaving ([Policy], [Conn], [Daemon]). Of
      the sockets of a connection, each is closed before the next is opened
      and all are at its end, and what the client and the server read is a
      prefix of what the other wrote ([Stream]).
    - DNS: responses are accepted only for the question asked, lookups fail
      over in order and charge exactly the servers that gave no answer, the
      forwarder answers every well-formed query, pooled connections are closed
      exactly once and an answer is read from the connection that the query
      was written to ([Dns], [Forward], [Doh]).
    - Streams: the pump and the SOCKS handshake neither lose, invent nor
      reorder bytes however they are cut ([Relay], [Socks]); every connection
      accepted is served or closed, and no slot is lost ([Accept]).
    - TLS: a verification succeeds exactly after a handshake that authenticated
      the name, its time-outs are those of the handshake's fate
      ([Session.hs_run]), and a session carries its bytes in order ([Session]); without a
      trust store there is no client ([Transport]).
    - Platforms: the rule texts are complete in their buffers and exempt the
      same addresses on all systems ([Rules]), the [nft] rules redirect exactly the
      traffic an abstract guard names and stop redirecting when the heartbeat
      stops ([Nftsem]), a change of the network is noticed and repeated
      notices are drained at once ([Netwatch]), sleeping, the clock and waiting
      for descriptors agree between the systems ([Compat]), reflected packets come back to
      the right application ([Divert]), the macOS watchdog removes the rules
      when the daemon dies and each time it hangs ([Watchdog]), the reference to
      PF is taken once and given back unless [pfctl] fails ([Pf]), the Windows
      layer implements the interface and captures all it must ([Windivert]), the
      fingerprints are those of the first route to 0.0.0.0, whose netmask the
      code does not look at ([Macnet], [Netprofile]), and the service manager sees the states in order ([Service]).
    - The daemon as a whole: the redirect never points at a closed socket and
      is gone when the server is, unless the system does not carry a removal
      out; heartbeats come in time for the time-out of the rules, which strikes
      only when one fails to renew them; the decisions survive a restart and no reader sees half a file
      ([Server]); every command line starts with usable ports ([Main]), and the
      options of the usage texts are those the parsers accept ([Usage]).

    A property's comment starts with its number (C1, C2, ...). Lemmas whose
    names end in [_witness] apply a property to a concrete input.

    ** Not modelled

    The wording of log lines; OpenSSL, the packet queue library, WinDivert, and
    the programs [nft] and [pfctl], which are parameters (of the [nft] language,
    [Nftsem] has the part that the rule texts use); installing signal handlers,
    thread attributes, and socket options that have no effect on the bytes
    (marks, keep-alive, buffer sizes); the path of the running executable.
    Multi-threaded memory is sequentially consistent between critical sections.
    What is left of the sources are declarations and wrappers of one library
    call without a decision of their own. *)

From stdpp Require Import base list numbers strings option relations.
From Stdlib Require Import ZArith Lia.

#[global] Open Scope Z_scope.

(** ** Machine integers

    A w-bit unsigned integer is a [Z]; every cast of the source that can
    lose bits is written out with one of the following reductions. *)

Definition u8 (x : Z) : Z := x mod 2 ^ 8.
Definition u16 (x : Z) : Z := x mod 2 ^ 16.
Definition u32 (x : Z) : Z := x mod 2 ^ 32.
Definition u64 (x : Z) : Z := x mod 2 ^ 64.

Definition is_u8 (x : Z) : Prop := 0 <= x < 2 ^ 8.
Definition is_u16 (x : Z) : Prop := 0 <= x < 2 ^ 16.
Definition is_u32 (x : Z) : Prop := 0 <= x < 2 ^ 32.

(** [(hi << 8) | lo], the source's big-endian 16-bit read. *)
Definition be16 (hi lo : Z) : Z := Z.lor (Z.shiftl hi 8) lo.

(** The big-endian 32-bit read ([ntohl] of four bytes in memory). *)
Definition be32 (a b c d : Z) : Z :=
  Z.lor (Z.lor (Z.lor (Z.shiftl a 24) (Z.shiftl b 16)) (Z.shiftl c 8)) d.

(** Two and four bytes in network order ([htons], [htonl], [wr16]). *)
Definition bytes16 (v : Z) : list Z := [u8 (Z.shiftr v 8); u8 v].
Definition bytes32 (v : Z) : list Z :=
  [u8 (Z.shiftr v 24); u8 (Z.shiftr v 16); u8 (Z.shiftr v 8); u8 v].

(** ** Results

    [Ok] is a normal return, [Err] an error code of the source, [Fault] an
    access outside a buffer (undefined behaviour in C) or a loop that ran out
    of fuel. The safety theorems say that [Fault] is never produced. *)

Inductive res (E A : Type) : Type :=
| Ok (a : A)
| Err (e : E)
| Fault.
Arguments Ok {E A} _.
Arguments Err {E A} _.
Arguments Fault {E A}.

#[global] Instance res_ret {E} : MRet (res E) := fun A a => Ok a.
#[global] Instance res_bind {E} : MBind (res E) := fun A B f m =>
  match m with Ok a => f a | Err e => Err e | Fault => Fault end.

(** ** Buffers

    A buffer is the list of the bytes it holds; its C length is [zlen]. *)

Definition zlen {A} (l : list A) : Z := Z.of_nat (length l).

(** The byte at index [i], 0 outside (only used where [i] is in range). *)
Definition bget (b : list Z) (i : Z) : Z := default 0 (b !! Z.to_nat i).

(** [b[i]] with its bounds check. *)
Definition fetch {E} (b : list Z) (i : Z) : res E Z :=
  if (0 <=? i) && (i <? zlen b) then Ok (bget b i) else Fault.

(** [b + off], pointer arithmetic. *)
Definition bfrom (b : list Z) (off : Z) : list Z := drop (Z.to_nat off) b.

(** The [n] bytes at offset [off]. *)
Definition bsub (b : list Z) (off n : Z) : list Z :=
  take (Z.to_nat n) (drop (Z.to_nat off) b).

(** The source side of [memcpy(_, b + off, n)]. *)
Definition slice {E} (b : list Z) (off n : Z) : res E (list Z) :=
  if (0 <=? off) && (0 <=? n) && (off + n <=? zlen b)
  then Ok (bsub b off n) else Fault.

(** The destination side of [memcpy(b + off, src, |src|)]. *)
Definition bput (b : list Z) (off : Z) (src : list Z) : list Z :=
  take (Z.to_nat off) b ++ src ++ drop (Z.to_nat (off + zlen src)) b.
Definition store {E} (b : list Z) (off : Z) (src : list Z) : res E (list Z) :=
  if (0 <=? off) && (off + zlen src <=? zlen b) then Ok (bput b off src)
  else Fault.

Definition fetch16 {E} (b : list Z) (i : Z) : res E Z :=
  hi ← fetch b i; lo ← fetch b (i + 1); Ok (be16 hi lo).
Definition fetch32 {E} (b : list Z) (i : Z) : res E Z :=
  x ← fetch b i; y ← fetch b (i + 1); z ← fetch b (i + 2);
  w ← fetch b (i + 3); Ok (be32 x y z w).

(** The same reads without the bounds check, for specifications. *)
Definition bget16 (b : list Z) (i : Z) : Z := be16 (bget b i) (bget b (i + 1)).
Definition bget32 (b : list Z) (i : Z) : Z :=
  be32 (bget b i) (bget b (i + 1)) (bget b (i + 2)) (bget b (i + 3)).

(** ** Loops

    [loop fuel body s] is [while (1) body]: the body returns the next state
    ([inl]) or leaves the loop with a value ([inr]). *)

Fixpoint loop {E S R} (fuel : nat) (body : S -> res E (S + R)) (s : S)
  : res E R :=
  match fuel with
  | O => Fault
  | Datatypes.S fuel' =>
      match body s with
      | Ok (inl s') => loop fuel' body s'
      | Ok (inr r) => Ok r
      | Err e => Err e
      | Fault => Fault
      end
  end.

(** ** C strings

    A C string is the list of its character codes before the terminating
    NUL. [cstr] is what a reader of a [char] array sees. *)

Fixpoint cstr (b : list Z) : list Z :=
  match b with
  | [] => []
  | c :: b' => if c =? 0 then [] else c :: cstr b'
  end.

Fixpoint str (s : string) : list Z :=
  match s with
  | EmptyString => []
  | String.String a s' => Z.of_N (Ascii.N_of_ascii a) :: str s'
  end.

#[global] Arguments str s%_string_scope.

(** [tolower] in the C locale. *)
Definition tolower (c : Z) : Z :=
  if (65 <=? c) && (c <=? 90) then c + 32 else c.

Definition lower (s : list Z) : list Z := map tolower s.

(** The source's [ieq] ([strategy.c], [cache.c]) and [name_ieq] ([dns.c]):
    walk both strings while the lowered characters agree. *)
Fixpoint ieq (a b : list Z) : bool :=
  match a, b with
  | [], [] => true
  | x :: a', y :: b' => if tolower x =? tolower y then ieq a' b' else false
  | _, _ => false
  end.

(** ** Weakest preconditions *)

Definition wp {E A} (m : res E A) (Q : A -> Prop) (R : E -> Prop) : Prop :=
  match m with Ok a => Q a | Err e => R e | Fault => False end.

Create HintDb bytes discriminated.
#[export] Hint Constants Opaque : bytes.
Create Rewrite HintDb bytes.

#[global] Arguments wp {_ _} _ _ _ : simpl never.
(** Arithmetic and buffer operations are reasoned about by lemmas, never by
    unfolding them under [simpl]. *)
#[global] Arguments u8 _ : simpl never.
#[global] Arguments u16 _ : simpl never.
#[global] Arguments u32 _ : simpl never.
#[global] Arguments u64 _ : simpl never.
#[global] Arguments be16 _ _ : simpl never.
#[global] Arguments be32 _ _ _ _ : simpl never.
#[global] Arguments bget _ _ : simpl never.
#[global] Arguments bget16 _ _ : simpl never.
#[global] Arguments bget32 _ _ : simpl never.
#[global] Arguments bytes16 _ : simpl never.
#[global] Arguments bytes32 _ : simpl never.
#[global] Arguments bput _ _ _ : simpl never.
#[global] Arguments bsub _ _ _ : simpl never.
#[global] Arguments bfrom _ _ : simpl never.
#[global] Arguments zlen {_} _ : simpl never.
#[global] Arguments fetch {_} _ _ : simpl never.
#[global] Arguments fetch16 {_} _ _ : simpl never.
#[global] Arguments fetch32 {_} _ _ : simpl never.
#[global] Arguments slice {_} _ _ _ : simpl never.
#[global] Arguments store {_} _ _ _ : simpl never.
#[global] Arguments loop {_ _ _} _ _ _ : simpl never.
#[global] Arguments Z.shiftl _ _ : simpl never.
#[global] Arguments Z.shiftr _ _ : simpl never.
#[global] Arguments Z.land _ _ : simpl never.
#[global] Arguments Z.lor _ _ : simpl never.
#[global] Arguments Z.pow _ _ : simpl never.
#[global] Arguments Z.modulo _ _ : simpl never.
#[global] Arguments Z.div _ _ : simpl never.
#[global] Arguments Z.of_nat _ : simpl never.
#[global] Arguments Z.to_nat _ : simpl never.

(** ** Lemmas: lengths and lookups *)

Lemma zlen_nonneg {A} (l : list A) : 0 <= zlen l.
Proof. unfold zlen; lia. Qed.

Lemma zlen_nil {A} : zlen (@nil A) = 0.
Proof. done. Qed.

Lemma zlen_cons {A} (x : A) l : zlen (x :: l) = 1 + zlen l.
Proof. unfold zlen; simpl; lia. Qed.

Lemma zlen_app {A} (l k : list A) : zlen (l ++ k) = zlen l + zlen k.
Proof. unfold zlen; rewrite length_app; lia. Qed.

Lemma zlen_bfrom b off : 0 <= off -> zlen (bfrom b off) = Z.max 0 (zlen b - off).
Proof. unfold zlen, bfrom; rewrite length_drop; lia. Qed.

Lemma zlen_bsub b off n :
  0 <= off -> 0 <= n -> off + n <= zlen b -> zlen (bsub b off n) = n.
Proof. unfold zlen, bsub; rewrite length_take, length_drop; lia. Qed.

Lemma zlen_bput b off src :
  0 <= off -> off + zlen src <= zlen b -> zlen (bput b off src) = zlen b.
Proof.
  unfold zlen, bput; rewrite !length_app, length_take, length_drop; unfold zlen; lia.
Qed.

Lemma zlen_bytes16 v : zlen (bytes16 v) = 2.
Proof. done. Qed.

Lemma zlen_pair {A} (x y : A) : zlen [x; y] = 2.
Proof. done. Qed.

Lemma zlen_bytes32 v : zlen (bytes32 v) = 4.
Proof. done. Qed.

#[export] Hint Rewrite @zlen_nil @zlen_cons @zlen_app zlen_bytes16 zlen_bytes32
  : bytes.

Lemma bget_cons_0 x b : bget (x :: b) 0 = x.
Proof. done. Qed.

Lemma bget_cons x b i : 0 < i -> bget (x :: b) i = bget b (i - 1).
Proof.
  intros ?. unfold bget.
  replace (Z.to_nat i) with (S (Z.to_nat (i - 1))) by lia. done.
Qed.

Lemma bget_oob b i : zlen b <= i -> bget b i = 0.
Proof. unfold bget, zlen. intros ?. by rewrite lookup_ge_None_2 by lia. Qed.

Lemma bget_app_l b c i : 0 <= i < zlen b -> bget (b ++ c) i = bget b i.
Proof. unfold bget, zlen. intros ?. by rewrite lookup_app_l by lia. Qed.

Lemma bget_app_r b c i : zlen b <= i -> bget (b ++ c) i = bget c (i - zlen b).
Proof.
  unfold bget, zlen. intros ?. rewrite lookup_app_r by lia.
  do 2 f_equal. lia.
Qed.

Lemma bget_bfrom b off i : 0 <= off -> 0 <= i -> bget (bfrom b off) i = bget b (off + i).
Proof.
  unfold bget, bfrom. intros ??. rewrite lookup_drop. do 2 f_equal. lia.
Qed.

Lemma bget_bsub b off n i :
  0 <= off -> 0 <= i < n -> bget (bsub b off n) i = bget b (off + i).
Proof.
  unfold bget, bsub. intros ??. rewrite lookup_take_lt by lia.
  rewrite lookup_drop. do 2 f_equal. lia.
Qed.

Lemma bget_bput b off src i :
  0 <= off -> off + zlen src <= zlen b -> 0 <= i ->
  bget (bput b off src) i =
    if (off <=? i) && (i <? off + zlen src) then bget src (i - off) else bget b i.
Proof.
  intros. pose proof (zlen_nonneg src).
  assert (Ht : zlen (take (Z.to_nat off) b) = off)
    by (unfold zlen in *; rewrite length_take; lia).
  unfold bput. destruct (Z.leb_spec off i); simpl.
  - rewrite bget_app_r, Ht by lia.
    destruct (Z.ltb_spec i (off + zlen src)).
    + apply bget_app_l. lia.
    + rewrite bget_app_r by lia.
      fold (bfrom b (off + zlen src)). rewrite bget_bfrom by lia. f_equal. lia.
  - rewrite bget_app_l by lia. unfold bget. by rewrite lookup_take_lt by lia.
Qed.

Lemma bget_bput_in b off src i :
  0 <= off -> off + zlen src <= zlen b -> off <= i < off + zlen src ->
  bget (bput b off src) i = bget src (i - off).
Proof.
  intros. rewrite bget_bput by lia.
  by rewrite (proj2 (Z.leb_le _ _)), (proj2 (Z.ltb_lt _ _)) by lia.
Qed.

Lemma bget_bput_out b off src i :
  0 <= off -> off + zlen src <= zlen b -> 0 <= i ->
  i < off \/ off + zlen src <= i ->
  bget (bput b off src) i = bget b i.
Proof.
  intros. rewrite bget_bput by lia.
  destruct (Z.leb_spec off i), (Z.ltb_spec i (off + zlen src)); simpl; done || lia.
Qed.

(** Two buffers with the same length and the same bytes are equal. *)
Lemma bytes_ext (b c : list Z) :
  zlen b = zlen c -> (forall i, 0 <= i < zlen b -> bget b i = bget c i) -> b = c.
Proof.
  intros Hlen Hget. apply list_eq_same_length with (n := length b); try done.
  { unfold zlen in Hlen; lia. }
  intros i x y Hi Hx Hy.
  specialize (Hget (Z.of_nat i)). unfold bget in Hget.
  rewrite Nat2Z.id, Hx, Hy in Hget. simpl in Hget. apply Hget. unfold zlen; lia.
Qed.

Lemma bsub_ge b n : zlen b <= n -> bsub b 0 n = b.
Proof. intros H. unfold bsub. rewrite drop_0. apply take_ge. unfold zlen in H. lia. Qed.

Lemma bsub_all b : bsub b 0 (zlen b) = b.
Proof. unfold bsub, zlen. rewrite Nat2Z.id. apply take_ge. simpl. lia. Qed.

Lemma bsub_app_split b off n m :
  0 <= off -> 0 <= n -> 0 <= m ->
  bsub b off n ++ bsub b (off + n) m = bsub b off (n + m).
Proof.
  intros. unfold bsub.
  rewrite (Z2Nat.inj_add off n), (Z2Nat.inj_add n m) by lia.
  rewrite <- drop_drop. by rewrite take_take_drop.
Qed.

Lemma bsub_bsub b off n off' n' :
  0 <= off -> 0 <= off' -> 0 <= n' -> off' + n' <= n ->
  bsub (bsub b off n) off' n' = bsub b (off + off') n'.
Proof.
  intros. unfold bsub.
  rewrite skipn_firstn_comm, take_take, drop_drop.
  f_equal; [lia|]. f_equal. lia.
Qed.

Lemma bsub_bfrom b off off' n' :
  0 <= off -> 0 <= off' -> bsub (bfrom b off) off' n' = bsub b (off + off') n'.
Proof.
  intros. unfold bsub, bfrom. rewrite drop_drop. do 2 f_equal. lia.
Qed.

Lemma bsub_app_l b c off n :
  0 <= off -> 0 <= n -> off + n <= zlen b -> bsub (b ++ c) off n = bsub b off n.
Proof.
  unfold bsub, zlen. intros. rewrite drop_app_le by lia.
  rewrite take_app_le; [done|]. rewrite length_drop. lia.
Qed.

Lemma bsub_app_r b c off n :
  zlen b <= off -> bsub (b ++ c) off n = bsub c (off - zlen b) n.
Proof.
  unfold bsub, zlen. intros. rewrite drop_app_ge by lia. do 2 f_equal. lia.
Qed.

(** ** Lemmas: bytes and words *)

Definition bytes_ok (b : list Z) : Prop := Forall is_u8 b.

Lemma bytes_ok_get b i : bytes_ok b -> is_u8 (bget b i).
Proof.
  intros Hb. unfold bget. destruct (b !! Z.to_nat i) as [x|] eqn:Hx; simpl.
  - by apply (Forall_lookup_1 _ _ _ _ Hb Hx).
  - unfold is_u8; lia.
Qed.

(** The boolean test, for concrete buffers. *)
Definition bytes_okb (b : list Z) : bool := forallb (fun x => (0 <=? x) && (x <? 256)) b.

Lemma bytes_okb_ok b : bytes_okb b = true -> bytes_ok b.
Proof.
  unfold bytes_okb, bytes_ok. induction b as [|x b IH]; [constructor|].
  cbn [forallb]. intros [Hx Hb]%andb_prop. constructor; [unfold is_u8; lia|auto].
Qed.

Lemma bytes_ok_nil : bytes_ok [].
Proof. constructor. Qed.

Lemma bytes_ok_cons x b : bytes_ok (x :: b) <-> is_u8 x /\ bytes_ok b.
Proof.
  split; [by inversion 1|]. intros [? ?]. by constructor.
Qed.

Lemma bytes_ok_app b c : bytes_ok b -> bytes_ok c -> bytes_ok (b ++ c).
Proof. apply Forall_app_2. Qed.

Lemma bytes_ok_bsub b off n : bytes_ok b -> bytes_ok (bsub b off n).
Proof. intros. by apply Forall_take, Forall_drop. Qed.

Lemma bytes_ok_bfrom b off : bytes_ok b -> bytes_ok (bfrom b off).
Proof. intros. by apply Forall_drop. Qed.

Lemma bytes_ok_bput b off src :
  bytes_ok b -> bytes_ok src -> bytes_ok (bput b off src).
Proof.
  intros. apply Forall_app_2; [by apply Forall_take|].
  apply Forall_app_2; [done|by apply Forall_drop].
Qed.

Lemma bytes_ok_pair x y : is_u8 x -> is_u8 y -> bytes_ok [x; y].
Proof. intros. by repeat (constructor; [done|]). Qed.

Lemma bytes_ok_00 : bytes_ok [0; 0].
Proof. repeat constructor; done. Qed.

Lemma u8_range x : is_u8 (u8 x).
Proof. unfold is_u8, u8. apply Z.mod_pos_bound. lia. Qed.

Lemma u16_range x : is_u16 (u16 x).
Proof. unfold is_u16, u16. apply Z.mod_pos_bound. lia. Qed.

Lemma u32_range x : is_u32 (u32 x).
Proof. unfold is_u32, u32. apply Z.mod_pos_bound. lia. Qed.

Lemma bytes_ok_bytes16 v : bytes_ok (bytes16 v).
Proof. repeat constructor; apply u8_range. Qed.

Lemma bytes_ok_bytes32 v : bytes_ok (bytes32 v).
Proof. repeat constructor; apply u8_range. Qed.

#[export] Hint Resolve bytes_ok_00 bytes_ok_pair bytes_ok_nil bytes_ok_app bytes_ok_bsub bytes_ok_bfrom
  bytes_ok_bput bytes_ok_bytes16 bytes_ok_bytes32 bytes_ok_get u8_range
  u16_range u32_range : bytes.

Lemma u8_small x : 0 <= x < 256 -> u8 x = x.
Proof. intros. unfold u8. apply Z.mod_small. lia. Qed.

Lemma land_255 x : Z.land x 255 = u8 x.
Proof. unfold u8. by rewrite <- (Z.land_ones x 8) by lia. Qed.

Lemma u8_u8 x : u8 (u8 x) = u8 x.
Proof. unfold u8. apply Z.mod_mod. lia. Qed.

Lemma u16_small x : 0 <= x < 65536 -> u16 x = x.
Proof. intros. unfold u16. apply Z.mod_small. lia. Qed.

Lemma u32_small x : 0 <= x < 4294967296 -> u32 x = x.
Proof. intros. unfold u32. apply Z.mod_small. lia. Qed.

(** [a << n | b] is addition when [b] fits below the shift. *)
Lemma lor_shiftl_add a b n :
  0 <= n -> 0 <= b < 2 ^ n -> Z.lor (Z.shiftl a n) b = a * 2 ^ n + b.
Proof.
  intros Hn Hb. rewrite <- Z.add_lor_land, Z.shiftl_mul_pow2 by lia.
  assert (Hz : Z.land (a * 2 ^ n) b = 0).
  { apply Z.bits_inj'. intros k Hk. rewrite Z.land_spec, Z.bits_0.
    destruct (Z.ltb_spec k n).
    - by rewrite Z.mul_pow2_bits_low.
    - destruct (decide (b = 0)) as [->|]; [by rewrite Z.bits_0, andb_false_r|].
      rewrite (Z.bits_above_log2 b k); [apply andb_false_r|lia|].
      assert (Z.log2 b < n) by (apply Z.log2_lt_pow2; lia). lia. }
  lia.
Qed.

Lemma be16_eq hi lo : is_u8 lo -> be16 hi lo = hi * 256 + lo.
Proof. intros. unfold be16. by rewrite lor_shiftl_add by (unfold is_u8 in *; lia). Qed.

Lemma be16_range hi lo : is_u8 hi -> is_u8 lo -> is_u16 (be16 hi lo).
Proof. intros. rewrite be16_eq by done. unfold is_u8, is_u16 in *. lia. Qed.

Lemma be32_eq a b c d :
  is_u8 b -> is_u8 c -> is_u8 d ->
  be32 a b c d = ((a * 256 + b) * 256 + c) * 256 + d.
Proof.
  unfold is_u8. intros. unfold be32.
  replace (Z.shiftl a 24) with (Z.shiftl (Z.shiftl a 8) 16) by by rewrite Z.shiftl_shiftl.
  rewrite <- Z.shiftl_lor, (lor_shiftl_add a b 8) by lia.
  replace (Z.shiftl (a * 2 ^ 8 + b) 16)
    with (Z.shiftl (Z.shiftl (a * 2 ^ 8 + b) 8) 8) by by rewrite Z.shiftl_shiftl.
  rewrite <- Z.shiftl_lor, (lor_shiftl_add _ c 8), (lor_shiftl_add _ d 8) by lia. lia.
Qed.

Lemma be32_range a b c d :
  is_u8 a -> is_u8 b -> is_u8 c -> is_u8 d -> is_u32 (be32 a b c d).
Proof. intros. rewrite be32_eq by done. unfold is_u8, is_u32 in *. lia. Qed.

Lemma bget16_range b i : bytes_ok b -> is_u16 (bget16 b i).
Proof. intros. unfold bget16. apply be16_range; auto with bytes. Qed.

Lemma bget32_range b i : bytes_ok b -> is_u32 (bget32 b i).
Proof. intros. unfold bget32. apply be32_range; auto with bytes. Qed.

Lemma bytes16_be16 v : is_u16 v -> be16 (u8 (Z.shiftr v 8)) (u8 v) = v.
Proof.
  intros Hv. rewrite be16_eq by apply u8_range.
  unfold is_u16, u8 in *. rewrite Z.shiftr_div_pow2 by lia.
  rewrite (Z.mod_small (v / 2 ^ 8)).
  - rewrite (Z.div_mod v (2 ^ 8)) at 3 by lia. lia.
  - split; [apply Z.div_pos; lia|]. apply Z.div_lt_upper_bound; lia.
Qed.

Lemma be16_bytes16 hi lo : is_u8 hi -> is_u8 lo -> bytes16 (be16 hi lo) = [hi; lo].
Proof.
  intros Hhi Hlo. unfold bytes16. rewrite be16_eq by done.
  unfold is_u8 in *. rewrite Z.shiftr_div_pow2 by lia.
  replace (2 ^ 8) with 256 by lia.
  replace ((hi * 256 + lo) / 256) with hi
    by (rewrite Z.div_add_l by lia; rewrite Z.div_small; lia).
  rewrite u8_small by lia. f_equal. f_equal.
  unfold u8. replace (2 ^ 8) with 256 by lia.
  rewrite Z.add_comm, Z.mod_add by lia. apply Z.mod_small. lia.
Qed.

Lemma bytes32_be32 v :
  is_u32 v ->
  be32 (u8 (Z.shiftr v 24)) (u8 (Z.shiftr v 16)) (u8 (Z.shiftr v 8)) (u8 v) = v.
Proof.
  intros Hv. rewrite be32_eq by apply u8_range.
  unfold is_u32, u8 in *. rewrite !Z.shiftr_div_pow2 by lia.
  replace (2 ^ 24) with (2 ^ 8 * 2 ^ 8 * 2 ^ 8) by lia.
  replace (2 ^ 16) with (2 ^ 8 * 2 ^ 8) by lia.
  rewrite <- !Z.div_div by lia.
  pose proof (Z.div_mod v (2 ^ 8)).
  pose proof (Z.div_mod (v / 2 ^ 8) (2 ^ 8)).
  pose proof (Z.div_mod (v / 2 ^ 8 / 2 ^ 8) (2 ^ 8)).
  rewrite (Z.mod_small (v / 2 ^ 8 / 2 ^ 8 / 2 ^ 8) (2 ^ 8)); [lia|].
  rewrite !Z.div_div by lia.
  split; [apply Z.div_pos; lia|]. apply Z.div_lt_upper_bound; lia.
Qed.

(** Reading back a field that was just written, and one that was not. *)
Lemma bget16_bput_eq b off v :
  0 <= off -> off + 2 <= zlen b -> is_u16 v -> bget16 (bput b off (bytes16 v)) off = v.
Proof.
  intros. unfold bget16.
  rewrite !bget_bput_in by (rewrite ?zlen_bytes16; lia).
  replace (off - off) with 0 by lia. replace (off + 1 - off) with 1 by lia.
  by apply bytes16_be16.
Qed.

Lemma bget32_bput_eq b off v :
  0 <= off -> off + 4 <= zlen b -> is_u32 v -> bget32 (bput b off (bytes32 v)) off = v.
Proof.
  intros. unfold bget32.
  rewrite !bget_bput_in by (rewrite ?zlen_bytes32; lia).
  replace (off - off) with 0 by lia. replace (off + 1 - off) with 1 by lia.
  replace (off + 2 - off) with 2 by lia. replace (off + 3 - off) with 3 by lia.
  by apply bytes32_be32.
Qed.

(** ** Lemmas: weakest preconditions *)

Section wp.
Context {E A B : Type}.
Implicit Types (m : res E A) (k : A -> res E B) (R : E -> Prop).

Lemma wp_ok a (Q : A -> Prop) R : Q a -> wp (Ok a) Q R.
Proof. done. Qed.

Lemma wp_err e (Q : A -> Prop) R : R e -> wp (Err e) Q R.
Proof. done. Qed.

Lemma wp_bind m k Q R : wp m (fun a => wp (k a) Q R) R -> wp (mbind k m) Q R.
Proof. by destruct m. Qed.

Lemma wp_mono m (Q Q' : A -> Prop) R R' :
  (forall a, Q a -> Q' a) -> (forall e, R e -> R' e) -> wp m Q R -> wp m Q' R'.
Proof. destruct m; unfold wp; auto. Qed.

Lemma wp_if (b : bool) m m' Q R :
  (b = true -> wp m Q R) -> (b = false -> wp m' Q R) -> wp (if b then m else m') Q R.
Proof. destruct b; auto. Qed.

Lemma wp_no_fault m Q R : wp m Q R -> m <> Fault.
Proof. by destruct m. Qed.

Lemma wp_Ok_inv m Q R a : wp m Q R -> m = Ok a -> Q a.
Proof. by intros H ->. Qed.
End wp.

Lemma wp_fetch {E} b i (Q : Z -> Prop) (R : E -> Prop) :
  0 <= i < zlen b -> Q (bget b i) -> wp (fetch b i) Q R.
Proof.
  intros. unfold fetch.
  by rewrite (proj2 (Z.leb_le _ _)), (proj2 (Z.ltb_lt _ _)) by lia.
Qed.

Lemma fetch_Ok {E} b i : 0 <= i < zlen b -> @fetch E b i = Ok (bget b i).
Proof.
  intros. unfold fetch.
  by rewrite (proj2 (Z.leb_le _ _)), (proj2 (Z.ltb_lt _ _)) by lia.
Qed.

Lemma fetch16_Ok {E} b i : 0 <= i -> i + 1 < zlen b -> @fetch16 E b i = Ok (bget16 b i).
Proof. intros. unfold fetch16. by rewrite !fetch_Ok by lia. Qed.

Lemma fetch32_Ok {E} b i : 0 <= i -> i + 3 < zlen b -> @fetch32 E b i = Ok (bget32 b i).
Proof. intros. unfold fetch32. by rewrite !fetch_Ok by lia. Qed.

Lemma slice_Ok {E} b off n :
  0 <= off -> 0 <= n -> off + n <= zlen b -> @slice E b off n = Ok (bsub b off n).
Proof. intros. unfold slice. by rewrite !(proj2 (Z.leb_le _ _)) by lia. Qed.

Lemma store_Ok {E} b off src :
  0 <= off -> off + zlen src <= zlen b -> @store E b off src = Ok (bput b off src).
Proof. intros. unfold store. by rewrite !(proj2 (Z.leb_le _ _)) by lia. Qed.

Lemma wp_fetch16 {E} b i (Q : Z -> Prop) (R : E -> Prop) :
  0 <= i /\ i + 1 < zlen b -> Q (bget16 b i) -> wp (fetch16 b i) Q R.
Proof. intros. by rewrite fetch16_Ok by lia. Qed.

Lemma wp_fetch32 {E} b i (Q : Z -> Prop) (R : E -> Prop) :
  0 <= i /\ i + 3 < zlen b -> Q (bget32 b i) -> wp (fetch32 b i) Q R.
Proof. intros. by rewrite fetch32_Ok by lia. Qed.

Lemma wp_slice {E} b off n (Q : list Z -> Prop) (R : E -> Prop) :
  0 <= off /\ 0 <= n /\ off + n <= zlen b -> Q (bsub b off n) -> wp (slice b off n) Q R.
Proof. intros. by rewrite slice_Ok by lia. Qed.

Lemma wp_store {E} b off src (Q : list Z -> Prop) (R : E -> Prop) :
  0 <= off /\ off + zlen src <= zlen b -> Q (bput b off src) -> wp (store b off src) Q R.
Proof. intros. by rewrite store_Ok by lia. Qed.

Lemma loop_S {E S R'} (body : S -> res E (S + R')) fuel s :
  loop (Datatypes.S fuel) body s =
    match body s with
    | Ok (inl s') => loop fuel body s'
    | Ok (inr r) => Ok r
    | Err e => Err e
    | Fault => Fault
    end.
Proof. done. Qed.

(** The loop rule: an invariant [I] and a measure [m] that decreases while
    the body asks to go on; the fuel only has to exceed the measure. *)
Lemma wp_loop {E S R'} (I : S -> Prop) (m : S -> nat) (body : S -> res E (S + R'))
    (Q : R' -> Prop) (R : E -> Prop) fuel s :
  (forall s, I s ->
     wp (body s)
       (fun x => match x with inl s' => I s' /\ (m s' < m s)%nat | inr r => Q r end) R) ->
  I s -> (m s < fuel)%nat -> wp (loop fuel body s) Q R.
Proof.
  intros Hbody. revert s. induction fuel as [|fuel IH]; intros s HI Hm; [lia|].
  rewrite loop_S. specialize (Hbody s HI). destruct (body s) as [[s'|r]|e|]; unfold wp in Hbody |- *; try done.
  destruct Hbody as [HI' Hlt]. apply IH; [done|lia].
Qed.

(** More fuel does not change the result of a loop that finished. *)
Lemma loop_fuel_mono {E S R'} (body : S -> res E (S + R')) fuel fuel' s :
  loop fuel body s <> Fault -> (fuel <= fuel')%nat -> loop fuel' body s = loop fuel body s.
Proof.
  revert fuel' s. induction fuel as [|fuel IH]; intros fuel' s Hnf Hle; [done|].
  destruct fuel' as [|fuel']; [lia|]. rewrite !loop_S in *.
  destruct (body s) as [[s'|r]|e|]; try done. apply IH; [done|lia].
Qed.

(** ** Tactics

    [wp_step] peels one read, write, branch or return off a [wp] goal;
    [wp_go] does so as long as the side conditions are linear arithmetic. *)

Ltac zbool :=
  repeat match goal with
  | H : (_ && _) = true |- _ => apply andb_prop in H; destruct H
  | H : (_ || _) = false |- _ => apply orb_false_elim in H; destruct H
  | H : negb _ = true |- _ => apply negb_true_iff in H
  | H : negb _ = false |- _ => apply negb_false_iff in H
  | H : (_ <? _) = true |- _ => apply Z.ltb_lt in H
  | H : (_ <? _) = false |- _ => apply Z.ltb_ge in H
  | H : (_ <=? _) = true |- _ => apply Z.leb_le in H
  | H : (_ <=? _) = false |- _ => apply Z.leb_gt in H
  | H : (_ =? _) = true |- _ => apply Z.eqb_eq in H
  | H : (_ =? _) = false |- _ => apply Z.eqb_neq in H
  end.

Ltac wp_step :=
  match goal with
  | |- wp (mbind _ _) _ _ => apply wp_bind
  | |- wp (Ok _) _ _ => apply wp_ok
  | |- wp (mret _) _ _ => apply wp_ok
  | |- wp (Err _) _ _ => apply wp_err
  | |- wp (fetch _ _) _ _ => apply wp_fetch; [lia|]
  | |- wp (fetch16 _ _) _ _ => apply wp_fetch16; [lia|]
  | |- wp (fetch32 _ _) _ _ => apply wp_fetch32; [lia|]
  | |- wp (slice _ _ _) _ _ => apply wp_slice; [lia|]
  | |- wp (store _ _ _) _ _ => apply wp_store; [lia|]
  | |- wp (if _ then _ else _) _ _ => apply wp_if; intros ?; zbool
  | |- wp (match ?x with pair _ _ => _ end) _ _ => destruct x
  | |- wp (let _ := _ in _) _ _ => cbv zeta
  end.

Ltac wp_go := repeat (wp_step; cbv beta).

(** Ranges of bytes, words and buffers. *)
Ltac solve_bytes :=
  solve [ auto with bytes
        | unfold is_u8, is_u16, is_u32 in *; lia ].

(** ** Updated buffers

    [upd b off src b']: [b'] is [b] after [memcpy(b + off, src, |src|)]. In
    proofs the buffers of a construction are kept as variables related by
    this predicate. *)

Record upd (b : list Z) (off : Z) (src b' : list Z) : Prop := {
  upd_len : zlen b' = zlen b;
  upd_in : forall i, off <= i < off + zlen src -> bget b' i = bget src (i - off);
  upd_out : forall i, 0 <= i -> i < off \/ off + zlen src <= i -> bget b' i = bget b i;
  upd_ok : bytes_ok b -> bytes_ok src -> bytes_ok b'
}.

Lemma wp_store_upd {E} b off src (Q : list Z -> Prop) (R : E -> Prop) :
  0 <= off /\ off + zlen src <= zlen b ->
  (forall b', upd b off src b' -> Q b') -> wp (store b off src) Q R.
Proof.
  intros Hoff HQ. apply wp_store; [done|]. apply HQ. split.
  - apply zlen_bput; lia.
  - intros. apply bget_bput_in; lia.
  - intros. apply bget_bput_out; lia.
  - intros. auto with bytes.
Qed.

Lemma upd_get16 b off v b' :
  upd b off (bytes16 v) b' -> is_u16 v -> bget16 b' off = v.
Proof.
  intros Hu Hv. unfold bget16.
  rewrite !(upd_in _ _ _ _ Hu) by (rewrite zlen_bytes16; lia).
  replace (off - off) with 0 by lia. replace (off + 1 - off) with 1 by lia.
  by apply bytes16_be16.
Qed.

Lemma upd_get32 b off v b' :
  upd b off (bytes32 v) b' -> is_u32 v -> bget32 b' off = v.
Proof.
  intros Hu Hv. unfold bget32.
  rewrite !(upd_in _ _ _ _ Hu) by (rewrite zlen_bytes32; lia).
  replace (off - off) with 0 by lia. replace (off + 1 - off) with 1 by lia.
  replace (off + 2 - off) with 2 by lia. replace (off + 3 - off) with 3 by lia.
  by apply bytes32_be32.
Qed.

(** Equal bytes in a range give equal sub-buffers. *)
Lemma bsub_ext b c off n :
  0 <= off -> 0 <= n -> off + n <= zlen b -> off + n <= zlen c ->
  (forall i, off <= i < off + n -> bget b i = bget c i) -> bsub b off n = bsub c off n.
Proof.
  intros ???? Hget. apply bytes_ext; rewrite !zlen_bsub by lia; [done|].
  intros i Hi. rewrite !bget_bsub by lia. apply Hget. lia.
Qed.

Lemma bget16_ext b c off :
  bget b off = bget c off -> bget b (off + 1) = bget c (off + 1) ->
  bget16 b off = bget16 c off.
Proof. unfold bget16. by intros -> ->. Qed.

Lemma bget16_bsub b off n i :
  0 <= off -> 0 <= i -> i + 1 < n -> bget16 (bsub b off n) i = bget16 b (off + i).
Proof.
  intros. unfold bget16. rewrite !bget_bsub by lia. by rewrite Z.add_assoc.
Qed.

Lemma bget32_bsub b off n i :
  0 <= off -> 0 <= i -> i + 3 < n -> bget32 (bsub b off n) i = bget32 b (off + i).
Proof.
  intros. unfold bget32. rewrite !bget_bsub by lia. by rewrite !Z.add_assoc.
Qed.

Lemma bget16_bfrom b off i :
  0 <= off -> 0 <= i -> bget16 (bfrom b off) i = bget16 b (off + i).
Proof. intros. unfold bget16. rewrite !bget_bfrom by lia. by rewrite Z.add_assoc. Qed.

Lemma bfrom_bsub b off : 0 <= off <= zlen b -> bfrom b off = bsub b off (zlen b - off).
Proof.
  intros. unfold bsub, bfrom, zlen in *. rewrite take_ge; [done|].
  rewrite length_drop. lia.
Qed.

Lemma upd_out16 b off src b' i :
  upd b off src b' -> 0 <= i -> i + 2 <= off \/ off + zlen src <= i ->
  bget16 b' i = bget16 b i.
Proof.
  intros U ??. apply bget16_ext; apply (upd_out _ _ _ _ U); lia.
Qed.

Lemma upd_out32 b off src b' i :
  upd b off src b' -> 0 <= i -> i + 4 <= off \/ off + zlen src <= i ->
  bget32 b' i = bget32 b i.
Proof.
  intros U ??. unfold bget32. by rewrite !(upd_out _ _ _ _ U) by lia.
Qed.

Lemma upd_in32 b off src b' i :
  upd b off src b' -> off <= i -> i + 4 <= off + zlen src ->
  bget32 b' i = bget32 src (i - off).
Proof.
  intros U ??. unfold bget32. rewrite !(upd_in _ _ _ _ U) by lia.
  f_equal; f_equal; lia.
Qed.

(** ** Case-insensitive equality *)

Lemma ieq_true a b : ieq a b = true <-> lower a = lower b.
Proof.
  revert b. induction a as [|x a IH]; intros [|y b]; try done. cbn [ieq].
  change (lower (x :: a)) with (tolower x :: lower a).
  change (lower (y :: b)) with (tolower y :: lower b).
  destruct (Z.eqb_spec (tolower x) (tolower y)) as [E|E].
  - rewrite IH, E. split; [by intros ->|by intros [= ->]].
  - split; [done|]. by intros [= ? ?].
Qed.

Lemma ieq_false a b : ieq a b = false <-> lower a <> lower b.
Proof. rewrite <- ieq_true. by destruct (ieq a b). Qed.

Lemma ieq_refl a : ieq a a = true.
Proof. by apply ieq_true. Qed.

Lemma ieq_sym a b : ieq a b = ieq b a.
Proof.
  destruct (ieq b a) eqn:E.
  - apply ieq_true. symmetry. by apply ieq_true.
  - apply ieq_false. apply not_eq_sym. by apply ieq_false.
Qed.

Lemma ieq_trans a b c : ieq a b = true -> ieq b c = ieq a c.
Proof.
  intros H%ieq_true. destruct (ieq a c) eqn:E.
  - apply ieq_true. apply ieq_true in E. congruence.
  - apply ieq_false. apply ieq_false in E. congruence.
Qed.

Lemma zlen_lower a : zlen (lower a) = zlen a.
Proof. unfold zlen, lower. by rewrite length_map. Qed.

Lemma ieq_zlen a b : ieq a b = true -> zlen a = zlen b.
Proof. intros H%ieq_true. by rewrite <- (zlen_lower a), H, zlen_lower. Qed.

Lemma lower_app a b : lower (a ++ b) = lower a ++ lower b.
Proof. apply map_app. Qed.

(** ** Walks of a deterministic relation *)

Section det_walk.
Context {A : Type} (R : relation A) (Hdet : forall x y z, R x y -> R x z -> y = z).

(** Two walks from the same point are on one line. *)
Lemma rtc_det_line a p q : rtc R a p -> rtc R a q -> rtc R p q \/ rtc R q p.
Proof.
  intros Hp. revert q. induction Hp as [a|a b p Hab Hbp IH]; intros q Hq; [by left|].
  inversion Hq as [|? b' ? Hab' Hq']; subst.
  - right. by apply rtc_l with b.
  - rewrite (Hdet _ _ _ Hab' Hab) in Hq'. by apply IH.
Qed.

(** A point without successor ends every walk through it. *)
Lemma rtc_det_end a p q :
  rtc R a p -> rtc R a q -> (forall r, ~ R p r) -> (forall r, ~ R q r) -> p = q.
Proof.
  intros Hp Hq Ep Eq. destruct (rtc_det_line a p q Hp Hq) as [H|H];
    inversion H; subst; try done; naive_solver.
Qed.
End det_walk.

(** ** Fields at an offset

    [occurs b off s]: the buffer [b] holds [s] at [off]. *)

Record occurs (b : list Z) (off : Z) (s : list Z) : Prop := {
  occurs_lo : 0 <= off;
  occurs_hi : off + zlen s <= zlen b;
  occurs_get : forall i, 0 <= i < zlen s -> bget b (off + i) = bget s i
}.

Lemma occurs_all b : occurs b 0 b.
Proof. split; [done|lia|]. intros i Hi. done. Qed.

Lemma occurs_app b off s t :
  occurs b off (s ++ t) -> occurs b off s /\ occurs b (off + zlen s) t.
Proof.
  intros [Hlo Hhi Hget]. rewrite zlen_app in Hhi.
  pose proof (zlen_nonneg s). pose proof (zlen_nonneg t).
  split; split; try lia; intros i Hi.
  - rewrite Hget by (rewrite zlen_app; lia). apply bget_app_l. lia.
  - rewrite <- Z.add_assoc, Hget by (rewrite zlen_app; lia).
    rewrite bget_app_r by lia. f_equal. lia.
Qed.

Lemma occurs_cons b off x t :
  occurs b off (x :: t) -> bget b off = x /\ occurs b (off + 1) t.
Proof.
  intros H. apply (occurs_app b off [x] t) in H as [[Hlo Hhi Hget] Ht].
  split; [|done]. specialize (Hget 0). rewrite Z.add_0_r in Hget. apply Hget.
  change (zlen [x]) with 1. lia.
Qed.

Lemma occurs_16 b off v t :
  is_u16 v -> occurs b off (bytes16 v ++ t) -> bget16 b off = v /\ occurs b (off + 2) t.
Proof.
  intros Hv H. unfold bytes16 in H. cbn [app] in H.
  apply occurs_cons in H as [H1 H]. apply occurs_cons in H as [H2 H].
  rewrite <- Z.add_assoc in H. split; [|done].
  unfold bget16. rewrite H1, H2. by apply bytes16_be16.
Qed.

Lemma occurs_bsub b off s : occurs b off s -> bsub b off (zlen s) = s.
Proof.
  intros [Hlo Hhi Hget]. pose proof (zlen_nonneg s).
  apply bytes_ext; rewrite !zlen_bsub by lia; [done|].
  intros i Hi. rewrite bget_bsub by lia. auto.
Qed.

(** [memcpy(b, s, n); b[n] = '\0']. *)
Lemma bput_terminated b s :
  zlen s < zlen b ->
  bput (bput b 0 s) (zlen s) [0] = s ++ 0 :: bfrom b (zlen s + 1).
Proof.
  intros Hs. pose proof (zlen_nonneg s). unfold bput. cbn [take app].
  change (Z.to_nat 0) with 0%nat. rewrite take_0, app_nil_l.
  change (zlen [0]) with 1. rewrite take_app_le, take_ge by (unfold zlen; lia).
  do 2 f_equal. unfold bfrom. rewrite drop_app_ge by (unfold zlen; lia).
  rewrite drop_drop. f_equal. unfold zlen. lia.
Qed.

(** A buffer filled from the front: [filled b pre b'] says that [b'] is [b]
    with its first bytes replaced by [pre]. *)
Definition filled (b pre b' : list Z) : Prop :=
  b' = pre ++ bfrom b (zlen pre) /\ zlen pre <= zlen b.

Lemma filled_nil b : filled b [] b.
Proof. split; [done|]. rewrite zlen_nil. apply zlen_nonneg. Qed.

Lemma filled_len b pre b' : filled b pre b' -> zlen b' = zlen b.
Proof.
  intros [-> H]. pose proof (zlen_nonneg pre). rewrite zlen_app, zlen_bfrom by lia. lia.
Qed.

Lemma filled_bput b pre b' src :
  filled b pre b' -> zlen pre + zlen src <= zlen b ->
  filled b (pre ++ src) (bput b' (zlen pre) src).
Proof.
  intros [-> Hp] Hle. pose proof (zlen_nonneg pre). pose proof (zlen_nonneg src).
  split; [|rewrite zlen_app; lia]. unfold bput.
  rewrite take_app_le, take_ge by (unfold zlen; lia).
  rewrite <- !app_assoc. do 2 f_equal. rewrite zlen_app. unfold bfrom.
  rewrite drop_app_ge by (unfold zlen; lia). rewrite drop_drop. f_equal. unfold zlen. lia.
Qed.

Lemma wp_store_filled {E} b pre b' off src (Q : list Z -> Prop) (R : E -> Prop) :
  filled b pre b' -> off = zlen pre /\ zlen pre + zlen src <= zlen b ->
  (forall b'', filled b (pre ++ src) b'' -> Q b'') -> wp (store b' off src) Q R.
Proof.
  intros Hf [-> Hle] HQ. pose proof (filled_len _ _ _ Hf). pose proof (zlen_nonneg pre).
  apply wp_store; [lia|]. by apply HQ, filled_bput.
Qed.

Lemma filled_prefix b pre b' : filled b pre b' -> bsub b' 0 (zlen pre) = pre.
Proof.
  intros [-> _]. pose proof (zlen_nonneg pre). rewrite bsub_app_l by lia. apply bsub_all.
Qed.

(** Writing after the start [pre] of an array. *)
Lemma wp_store_after {E} pre out src n (Q : list Z -> Prop) (R : E -> Prop) :
  pre `prefix_of` out -> zlen out = n -> zlen pre + zlen src <= n ->
  (forall out', (pre ++ src) `prefix_of` out' -> zlen out' = n -> Q out') ->
  wp (store out (zlen pre) src) Q R.
Proof.
  intros [rest ->] Hn Hfit HQ.
  assert (F : filled (pre ++ rest) pre (pre ++ rest)).
  { pose proof (zlen_nonneg rest). split; [|rewrite zlen_app; lia].
    unfold bfrom, zlen. by rewrite Nat2Z.id, drop_app_length. }
  apply (wp_store_filled _ _ _ _ _ _ _ F); [lia|]. intros out' F'.
  apply HQ; [|rewrite (filled_len _ _ _ F'); done]. destruct F' as [-> _]. by eexists.
Qed.

Lemma cstr_clean l r : Forall (fun c => c <> 0) l -> cstr (l ++ r) = l ++ cstr r.
Proof.
  intros H. induction H as [|c l Hc _ IH]; cbn [app cstr]; [done|].
  by rewrite (proj2 (Z.eqb_neq _ _)), IH.
Qed.

(** [upds] rewrites a read of a buffer to a read of the buffer it was built
    from, following the [upd] hypotheses whose range the index misses. *)
Ltac upd_side := rewrite ?zlen_bytes16, ?zlen_bytes32, ?zlen_pair; lia.
Ltac upds :=
  repeat match goal with
  | H : upd ?b ?off ?src ?b' |- context [bget ?b' ?i] =>
      rewrite (upd_out b off src b' H i) by upd_side
  | H : upd ?b ?off ?src ?b' |- context [bget16 ?b' ?i] =>
      rewrite (upd_out16 b off src b' i H) by upd_side
  | H : upd ?b ?off ?src ?b' |- context [bget32 ?b' ?i] =>
      rewrite (upd_out32 b off src b' i H) by upd_side
  end.

(** Reads the bytes of the last update that covers the index. *)
Ltac upd_read :=
  upds;
  match goal with
  | H : upd ?b ?off (bytes16 ?v) ?b' |- context [bget16 ?b' ?off] =>
      rewrite (upd_get16 b off v b' H); [|solve_bytes]
  | H : upd ?b ?off (bytes32 ?v) ?b' |- context [bget32 ?b' ?off] =>
      rewrite (upd_get32 b off v b' H); [|solve_bytes]
  | H : upd ?b ?off ?src ?b' |- context [bget ?b' ?i] =>
      rewrite (upd_in b off src b' H i) by upd_side
  end.

(** Runs a construction: every [store] introduces its result as a variable
    with its [upd] fact, its length and its well-formedness. *)
Ltac wp_store_step :=
  match goal with
  | |- wp (store _ _ _) _ _ =>
      apply wp_store_upd; [upd_side|];
      let b := fresh "b" in let U := fresh "U" in
      intros b U; pose proof (upd_len _ _ _ _ U);
      pose proof (upd_ok _ _ _ _ U ltac:(assumption) ltac:(auto with bytes))
  end.

(** ** Multisets as lists *)

(** The list without the first [x]. *)
Fixpoint remove_one {A} `{EqDecision A} (x : A) (l : list A) : list A :=
  match l with
  | [] => []
  | y :: l => if decide (y = x) then l else y :: remove_one x l
  end.

Lemma remove_one_head {A} `{EqDecision A} (x : A) l : remove_one x (x :: l) = l.
Proof. cbn [remove_one]. by rewrite decide_True. Qed.
