(* ===== verification/Slots.v ===== *)
(** * Scans of fixed arrays

    The searches the program's tables share (the decisions, cooldowns and
    direct-bad marks of [policy.c], the answer cache of [dns.c]): first match,
    first minimum, and the "own slot, else a free or expired one, else the
    oldest" choice of a slot for a key, with what it preserves. *)

From stdpp Require Import base list numbers option.
From Stdlib Require Import ZArith Lia.
From S2P Require Import Prelude.

(** ** Array scans *)

(** The index of the first element that satisfies [f]. *)
Fixpoint find_idx {A} (f : A -> bool) (l : list A) : option nat :=
  match l with
  | [] => None
  | x :: l' => if f x then Some O else S <$> find_idx f l'
  end.

(** The index of the first smallest element ([oldest = 0; i = 1; while ...
    if (e[i].key < e[oldest].key) oldest = i]). *)
Fixpoint scan_min {A} (key : A -> Z) (l : list A) (i best : nat) (best_key : Z) : nat :=
  match l with
  | [] => best
  | x :: l' =>
      if key x <? best_key then scan_min key l' (S i) i (key x)
      else scan_min key l' (S i) best best_key
  end.
Definition first_min {A} (key : A -> Z) (l : list A) : nat :=
  match l with [] => O | x :: l' => scan_min key l' 1 0 (key x) end.

(** ** Their properties *)

Lemma find_idx_Some {A} (f : A -> bool) (l : list A) (i : nat) :
  find_idx f l = Some i ->
  exists x, l !! i = Some x /\ f x = true /\
    forall j y, (j < i)%nat -> l !! j = Some y -> f y = false.
Proof.
  revert i. induction l as [|x l IH]; intros i H; [done|]. cbn in H.
  destruct (f x) eqn:Hx.
  - injection H as <-. exists x. repeat split; [done|]. intros j y Hj. lia.
  - destruct (find_idx f l) as [k|] eqn:E; [|done]. injection H as <-.
    destruct (IH k eq_refl) as (z & Hz & Hf & Hm). exists z. repeat split; [done|done|].
    intros [|j] y Hj Hy; cbn in Hy; [congruence|]. apply (Hm j y); [lia|done].
Qed.

Lemma find_idx_None {A} (f : A -> bool) (l : list A) :
  find_idx f l = None <-> forall i x, l !! i = Some x -> f x = false.
Proof.
  induction l as [|x l IH]; cbn; [split; done|]. destruct (f x) eqn:Hx.
  - split; [done|]. intros H. specialize (H O x eq_refl). congruence.
  - destruct (find_idx f l) as [k|]; cbn.
    + split; [done|]. intros H. exfalso. enough (Some k = None) by done.
      apply IH. intros i y Hy. by apply (H (S i)).
    + split; [|done]. intros _ [|i] y Hy; cbn in Hy; [congruence|].
      by apply (proj1 IH eq_refl i).
Qed.

(** Where at most one element satisfies [f]. *)
Lemma find_idx_unique {A} (f : A -> bool) (l : list A) (i : nat) x :
  (forall j y, l !! j = Some y -> f y = true -> j = i) ->
  l !! i = Some x -> f x = true -> find_idx f l = Some i.
Proof.
  intros Hu Hx Hf. destruct (find_idx f l) as [k|] eqn:E.
  - apply find_idx_Some in E as (y & Hy & Hfy & _). f_equal. by apply (Hu k y).
  - rewrite find_idx_None in E. specialize (E i x Hx). congruence.
Qed.

Lemma scan_min_spec {A} (key : A -> Z) (l pre : list A) (best : nat) b :
  pre !! best = Some b -> (forall x, x ∈ pre -> key b <= key x) ->
  exists m, (pre ++ l) !! scan_min key l (length pre) best (key b) = Some m /\
            forall x, x ∈ pre ++ l -> key m <= key x.
Proof.
  revert pre best b. induction l as [|x l IH]; intros pre best b Hb Hm; cbn [scan_min].
  - rewrite app_nil_r. by exists b.
  - assert (E : pre ++ x :: l = (pre ++ [x]) ++ l) by (rewrite <- app_assoc; done).
    assert (Hl : length (pre ++ [x]) = S (length pre)) by (rewrite length_app; cbn; lia).
    rewrite E, <- Hl. destruct (Z.ltb_spec (key x) (key b)); apply IH.
    + by rewrite lookup_app_r, Nat.sub_diag by lia.
    + intros y [Hy|Hy]%elem_of_app; [specialize (Hm y Hy); lia|].
      apply list_elem_of_singleton in Hy as ->. lia.
    + apply lookup_app_l_Some. done.
    + intros y [Hy|Hy]%elem_of_app; [by apply Hm|].
      apply list_elem_of_singleton in Hy as ->. lia.
Qed.

Lemma first_min_spec {A} (key : A -> Z) (l : list A) :
  l <> [] -> exists m, l !! first_min key l = Some m /\ forall x, x ∈ l -> key m <= key x.
Proof.
  destruct l as [|x l]; [done|]. intros _. apply (scan_min_spec key l [x] 0 x); [done|].
  intros y ->%list_elem_of_singleton. lia.
Qed.

(** ** Tables of expiring slots

    The cooldowns, the direct-bad marks and the DNS cache are one structure: a
    fixed array of slots, free or holding a key and an expiry time. When no
    slot is free or expired the one with the smallest [age] is taken. *)
Section slots.
Context {A K : Type} `{EqDecision K} (key : A -> option K) (until age : A -> Z).

Definition slot_idx (k : K) (l : list A) : option nat :=
  find_idx (fun a => bool_decide (key a = Some k)) l.

Definition slot_pick (k : K) (now : Z) (l : list A) : nat :=
  match slot_idx k l with
  | Some i => i
  | None =>
      match find_idx (fun a => bool_decide (key a = None) || (until a <=? now)) l with
      | Some i => i
      | None => first_min age l
      end
  end.

(** Is the key held by a slot that has not expired at [t]? *)
Definition slot_live (k : K) (t : Z) (l : list A) : bool :=
  match slot_idx k l ≫= fun i => l !! i with
  | Some a => t <? until a
  | None => false
  end.

(** No key is held twice. *)
Definition slots_unique (l : list A) : Prop :=
  forall (i j : nat) a b k, l !! i = Some a -> l !! j = Some b ->
    key a = Some k -> key b = Some k -> i = j.

(** Some slot can be taken without losing a live key. *)
Definition slots_room (k : K) (now : Z) (l : list A) : Prop :=
  exists a, a ∈ l /\ (key a = None \/ key a = Some k \/ until a <= now).

Lemma slot_live_true k t (l : list A) :
  slots_unique l ->
  slot_live k t l = true <-> exists a, a ∈ l /\ key a = Some k /\ t < until a.
Proof.
  intros Hu. unfold slot_live, slot_idx. split.
  - destruct (find_idx _ l) as [i|] eqn:E; cbn; [|done].
    apply find_idx_Some in E as (a & Ha & Hk & _). rewrite Ha.
    apply bool_decide_eq_true in Hk. intros Ht%Z.ltb_lt. exists a.
    split; [by eapply list_elem_of_lookup_2|done].
  - intros (a & Ha & Hk & Ht). apply list_elem_of_lookup in Ha as [i Hi].
    rewrite (find_idx_unique _ l i a); [|  |done|by apply bool_decide_eq_true].
    + cbn. rewrite Hi. by apply Z.ltb_lt.
    + intros j b Hj Hb%bool_decide_eq_true. by eapply Hu.
Qed.

Lemma slot_pick_lookup k now (l : list A) :
  l <> [] ->
  exists a, l !! slot_pick k now l = Some a /\
    (key a = Some k \/
     (Forall (fun b => key b <> Some k) l /\
      (key a = None \/ until a <= now \/
       (~ slots_room k now l /\ forall b, b ∈ l -> age a <= age b)))).
Proof.
  intros Hne. unfold slot_pick, slot_idx.
  destruct (find_idx _ l) as [i|] eqn:E.
  { apply find_idx_Some in E as (a & Ha & Hk & _). apply bool_decide_eq_true in Hk.
    exists a. split; [done|by left]. }
  rewrite find_idx_None in E.
  assert (Hno : Forall (fun b => key b <> Some k) l).
  { apply Forall_lookup. intros i x Hx. specialize (E i x Hx). by apply bool_decide_eq_false in E. }
  destruct (find_idx (fun a => _ || _) l) as [i|] eqn:E2.
  - apply find_idx_Some in E2 as (a & Ha & Hk & _). exists a. split; [done|]. right. split; [done|].
    apply orb_prop in Hk as [Hk|Hk]; [left; by apply bool_decide_eq_true in Hk|].
    right; left. by apply Z.leb_le.
  - destruct (first_min_spec age l Hne) as (a & Ha & Hm). exists a. split; [done|].
    right. split; [done|]. right; right. split; [|done].
    intros (b & Hb & Hkb). apply list_elem_of_lookup in Hb as [j Hj].
    rewrite find_idx_None in E2. specialize (E2 j b Hj).
    apply orb_false_elim in E2 as [N1 N2]. apply bool_decide_eq_false in N1.
    apply Z.leb_gt in N2. rewrite Forall_lookup in Hno. specialize (Hno j b Hj).
    destruct Hkb as [?|[?|?]]; [done|done|lia].
Qed.

(** Taking a slot for [k]: afterwards [k] is held by it alone; other keys are
    as before from [now] on, if there was room. *)
Lemma slot_take k now (l : list A) a' :
  l <> [] -> slots_unique l -> key a' = Some k ->
  let l' := <[slot_pick k now l := a']> l in
  slots_unique l' /\
  (forall t, slot_live k t l' = (t <? until a')) /\
  (forall k' t, k' <> k -> slot_live k' t l' = true -> slot_live k' t l = true) /\
  (forall k' t, k' <> k -> slots_room k now l -> now <= t ->
     slot_live k' t l' = slot_live k' t l).
Proof.
  intros Hne Hu Hk l'. destruct (slot_pick_lookup k now l Hne) as (a & Ha & Hcase).
  set (i := slot_pick k now l) in *.
  assert (Hi : (i < length l)%nat) by (by eapply lookup_lt_Some).
  assert (Hl' : forall j b, l' !! j = Some b ->
            (j = i /\ b = a') \/ (j <> i /\ l !! j = Some b)).
  { intros j b Hj. unfold l' in Hj. apply list_lookup_insert_Some in Hj as [(-> & -> & _)|[? ?]]; auto. }
  assert (Hother : forall j b, l !! j = Some b -> key b = Some k -> j = i).
  { intros j b Hj Hb. destruct Hcase as [Hka|[Hno _]]; [by eapply Hu|].
    rewrite Forall_lookup in Hno. by specialize (Hno j b Hj). }
  assert (Hu' : slots_unique l').
  { intros j1 j2 b1 b2 k0 H1 H2 K1 K2.
    destruct (Hl' _ _ H1) as [[-> ->]|[N1 L1]], (Hl' _ _ H2) as [[-> ->]|[N2 L2]].
    - done.
    - assert (k0 = k) as -> by congruence. by destruct N2; eapply Hother.
    - assert (k0 = k) as -> by congruence. by destruct N1; eapply Hother.
    - by eapply Hu. }
  assert (Hin' : a' ∈ l') by (eapply list_elem_of_lookup_2; by apply list_lookup_insert_eq).
  assert (Hmono : forall k' t, k' <> k -> slot_live k' t l' = true -> slot_live k' t l = true).
  { intros k' t Hk' (b & Hb & Hkb & Ht)%(slot_live_true _ _ _ Hu').
    apply (slot_live_true _ _ _ Hu). exists b. split; [|done].
    apply list_elem_of_lookup in Hb as [j Hj].
    destruct (Hl' _ _ Hj) as [[-> ->]|[_ L]]; [congruence|by eapply list_elem_of_lookup_2]. }
  split; [done|]. split; [|split; [done|]].
  - intros t. apply eq_iff_eq_true. rewrite slot_live_true, Z.ltb_lt by done. split.
    + intros (b & Hb & Hkb & Ht). apply list_elem_of_lookup in Hb as [j Hj].
      destruct (Hl' _ _ Hj) as [[-> ->]|[N L]]; [done|]. by destruct N; eapply Hother.
    + intros Ht. by exists a'.
  - intros k' t Hk' Hroom Hnow. apply eq_iff_eq_true. split; [by apply Hmono|].
    rewrite !slot_live_true by done. intros (b & Hb & Hkb & Ht). exists b. split; [|done].
    apply list_elem_of_lookup in Hb as [j Hj]. apply list_elem_of_lookup. exists j.
    unfold l'. rewrite list_lookup_insert_ne; [done|]. intros <-.
    assert (b = a) as -> by congruence.
    destruct Hcase as [?|[_ [?|[?|[Hr _]]]]]; [congruence|congruence|lia|done].
Qed.
End slots.

Lemma find_idx_ext {A} (f g : A -> bool) (l : list A) :
  (forall x, f x = g x) -> find_idx f l = find_idx g l.
Proof. intros H. induction l as [|x l IH]; cbn; [done|]. by rewrite H, IH. Qed.

(** The code's test for a slot that can be taken. *)
Lemma free_test {B} (h : list Z) (k : B) u now :
  ((zlen h =? 0) || (u <=? now))
  = bool_decide ((if zlen h =? 0 then None else Some k) = None) || (u <=? now).
Proof.
  f_equal. destruct (zlen h =? 0); [by rewrite bool_decide_eq_true_2|].
  by rewrite bool_decide_eq_false_2.
Qed.
