(* ===== verification/Checksum.v ===== *)
(** * Internet checksums ([src/packet/checksum.c])

    The RFC 1071 accumulate/finalize pair and the three checksums built from
    it (IPv4 header, TCP over IPv4, TCP over IPv6). [sum16] and [fold16] are
    the unbounded reference: the sum of the big-endian 16-bit words, and the
    one's-complement representative of that sum. *)

From stdpp Require Import base list numbers.
From Stdlib Require Import ZArith Lia.
From S2P Require Import Prelude.

(** ** The code *)

(** [sum += ((uint32_t)p[0] << 8) | p[1]], two bytes at a time; the odd byte
    at the end is the high half of a word. [sum] is a [uint32_t]. *)
Fixpoint checksum_accumulate (data : list Z) (seed : Z) : Z :=
  match data with
  | p0 :: p1 :: p => checksum_accumulate p (u32 (seed + be16 p0 p1))
  | [p0] => u32 (seed + Z.shiftl p0 8)
  | [] => seed
  end.

(** [while (sum >> 16) sum = (sum & 0xFFFF) + (sum >> 16)]. *)
Fixpoint fold_carries (fuel : nat) (sum : Z) : Z :=
  match fuel with
  | O => sum
  | S fuel' =>
      if Z.shiftr sum 16 =? 0 then sum
      else fold_carries fuel' (u32 (Z.land sum 0xFFFF + Z.shiftr sum 16))
  end.

Definition checksum_finalize (sum : Z) : Z := u16 (Z.lnot (fold_carries 3 sum)).

Definition checksum_ipv4_header {E} (hdr : list Z) (ihl_bytes : Z) : res E Z :=
  first ← slice hdr 0 10;
  let sum := checksum_accumulate first 0 in
  rest ← slice hdr 12 (ihl_bytes - 12);
  let sum := checksum_accumulate rest sum in
  Ok (checksum_finalize sum).

(** [ip] is the IPv4 header (source address at 12, destination at 16),
    [tcp_seg] the bytes from the start of the TCP header on. *)
Definition checksum_tcp_v4 {E} (ip tcp_seg : list Z) (tcp_seg_len : Z) : res E Z :=
  if tcp_seg_len <? 18 then Ok 0
  else
    let pseudo := [0; 6] ++ bytes16 (u16 tcp_seg_len) in
    src ← slice ip 12 4;
    let sum := checksum_accumulate src 0 in
    dst ← slice ip 16 4;
    let sum := checksum_accumulate dst sum in
    let sum := checksum_accumulate pseudo sum in
    head ← slice tcp_seg 0 16;
    let sum := checksum_accumulate head sum in
    tail ← slice tcp_seg 18 (tcp_seg_len - 18);
    let sum := checksum_accumulate tail sum in
    Ok (checksum_finalize sum).

(** [ip] is the IPv6 header (source address at 8, destination at 24). *)
Definition checksum_tcp_v6 {E} (ip tcp_seg : list Z) (tcp_seg_len : Z) : res E Z :=
  if tcp_seg_len <? 18 then Ok 0
  else
    let pseudo := bytes32 (u32 tcp_seg_len) ++ [0; 0; 0; 6] in
    src ← slice ip 8 16;
    let sum := checksum_accumulate src 0 in
    dst ← slice ip 24 16;
    let sum := checksum_accumulate dst sum in
    let sum := checksum_accumulate pseudo sum in
    head ← slice tcp_seg 0 16;
    let sum := checksum_accumulate head sum in
    tail ← slice tcp_seg 18 (tcp_seg_len - 18);
    let sum := checksum_accumulate tail sum in
    Ok (checksum_finalize sum).

(** ** The reference *)

Fixpoint sum16 (data : list Z) : Z :=
  match data with
  | p0 :: p1 :: p => p0 * 256 + p1 + sum16 p
  | [p0] => p0 * 256
  | [] => 0
  end.

Definition fold16 (s : Z) : Z := if s =? 0 then 0 else (s - 1) mod 65535 + 1.

(** What a receiver checks: the one's-complement sum over the covered bytes,
    checksum field included, is all ones. *)
Definition ones_sum_valid (s : Z) : Prop := fold16 s = 65535.

Definition ipv4_header_valid (b : list Z) (ihl : Z) : Prop :=
  ones_sum_valid (sum16 (bsub b 0 ihl)).

Definition pseudo_v4 (ip : list Z) (n : Z) : Z :=
  sum16 (bsub ip 12 8) + 6 + n.
Definition tcp_v4_valid (ip seg : list Z) : Prop :=
  ones_sum_valid (pseudo_v4 ip (zlen seg) + sum16 seg).

Definition pseudo_v6 (ip : list Z) (n : Z) : Z :=
  sum16 (bsub ip 8 32) + 6 + n.
Definition tcp_v6_valid (ip seg : list Z) : Prop :=
  ones_sum_valid (pseudo_v6 ip (zlen seg) + sum16 seg).

(** ** Lemmas *)

(** Induction two bytes at a time, the shape of the accumulate loop. *)
Lemma pair_ind (P : list Z -> Prop) :
  P [] -> (forall x, P [x]) -> (forall x y l, P l -> P (x :: y :: l)) -> forall l, P l.
Proof.
  intros H0 H1 H2 l.
  enough (P l /\ forall x, P (x :: l)) as [? _] by done.
  induction l as [|y l [IH1 IH2]]; split; eauto.
Qed.

Lemma sum16_bounds l : bytes_ok l -> 0 <= sum16 l <= 65535 * ((zlen l + 1) / 2).
Proof.
  revert l. apply (pair_ind (fun l => bytes_ok l -> 0 <= sum16 l <= 65535 * ((zlen l + 1) / 2))).
  - done.
  - intros x Hb. apply bytes_ok_cons in Hb as [Hx _]. unfold is_u8 in Hx.
    change ((zlen [x] + 1) / 2) with 1. simpl sum16. lia.
  - intros x y l IH Hb. apply bytes_ok_cons in Hb as [Hx Hb]. apply bytes_ok_cons in Hb as [Hy Hb].
    specialize (IH Hb). unfold is_u8 in Hx, Hy. rewrite !zlen_cons. simpl sum16.
    replace (1 + (1 + zlen l) + 1) with (zlen l + 1 + 1 * 2) by lia.
    rewrite Z.div_add by lia. lia.
Qed.

Lemma sum16_app l k :
  Z.even (zlen l) = true -> sum16 (l ++ k) = sum16 l + sum16 k.
Proof.
  revert l. apply (pair_ind (fun l => Z.even (zlen l) = true -> sum16 (l ++ k) = sum16 l + sum16 k)).
  - simpl. lia.
  - intros x H. done.
  - intros x y l IH H. simpl. rewrite IH; [lia|].
    rewrite !zlen_cons, Z.add_assoc, Z.even_add in H. by destruct (Z.even (zlen l)).
Qed.

(** The accumulator is the reference sum modulo 2^32. *)
Lemma checksum_accumulate_spec l seed :
  bytes_ok l -> is_u32 seed -> checksum_accumulate l seed = u32 (seed + sum16 l).
Proof.
  revert l seed.
  apply (pair_ind (fun l => forall seed, bytes_ok l -> is_u32 seed ->
            checksum_accumulate l seed = u32 (seed + sum16 l))).
  - intros seed _ Hs. simpl. rewrite u32_small; unfold is_u32 in Hs; lia.
  - intros x seed _ _. simpl. by rewrite Z.shiftl_mul_pow2 by lia.
  - intros x y l IH seed Hb Hs.
    apply bytes_ok_cons in Hb as [Hx Hb]. apply bytes_ok_cons in Hb as [Hy Hb].
    simpl. rewrite IH by auto with bytes. rewrite be16_eq by done.
    unfold u32. rewrite Zplus_mod_idemp_l. f_equal. lia.
Qed.

#[global] Arguments checksum_accumulate _ _ : simpl never.
#[global] Arguments checksum_finalize _ : simpl never.

Lemma fold16_range s : 0 <= s -> 0 <= fold16 s <= 65535.
Proof.
  intros. unfold fold16. destruct (Z.eqb_spec s 0); [lia|].
  pose proof (Z.mod_pos_bound (s - 1) 65535). lia.
Qed.

Lemma fold16_small s : 0 <= s <= 65535 -> fold16 s = s.
Proof.
  intros. unfold fold16. destruct (Z.eqb_spec s 0); [lia|].
  rewrite Z.mod_small; lia.
Qed.

Lemma fold16_congr s : 0 <= s -> exists k, s = 65535 * k + fold16 s.
Proof.
  intros. unfold fold16. destruct (Z.eqb_spec s 0); [exists 0; lia|].
  exists ((s - 1) / 65535). pose proof (Z.div_mod (s - 1) 65535). lia.
Qed.

Lemma fold16_pos s : 0 < s -> 0 < fold16 s.
Proof.
  intros. unfold fold16. destruct (Z.eqb_spec s 0); [lia|].
  pose proof (Z.mod_pos_bound (s - 1) 65535). lia.
Qed.

(** [fold16] is the only value of its class in 1..65535. *)
Lemma fold16_unique s t k : 0 < s -> 0 < t <= 65535 -> s = 65535 * k + t -> fold16 s = t.
Proof.
  intros. destruct (fold16_congr s) as [k' Hk']; [lia|].
  pose proof (fold16_pos s). pose proof (fold16_range s). nia.
Qed.

(** One round of the carry loop keeps the class. *)
Lemma fold_step s :
  0 <= s -> fold16 (Z.land s 0xFFFF + Z.shiftr s 16) = fold16 s.
Proof.
  intros. change 0xFFFF with (Z.ones 16).
  rewrite Z.land_ones, Z.shiftr_div_pow2 by lia.
  pose proof (Z.div_mod s (2 ^ 16)). pose proof (Z.mod_pos_bound s (2 ^ 16)).
  pose proof (Z.div_pos s (2 ^ 16)).
  destruct (Z.eq_dec s 0) as [->|]; [done|].
  destruct (fold16_congr s) as [k Hk]; [lia|].
  apply fold16_unique with (k := k - s / 2 ^ 16); [nia| |nia].
  pose proof (fold16_pos s). pose proof (fold16_range s). lia.
Qed.

(** Three rounds are enough for any 32-bit sum: the loop of
    [checksum_finalize] terminates with its exit condition true. *)
Lemma fold_carries_spec s : is_u32 s -> fold_carries 3 s = fold16 s.
Proof.
  unfold is_u32. intros Hs.
  assert (Hstep : forall b s, 65536 <= b -> 0 <= s < b ->
    0 <= Z.land s 0xFFFF + Z.shiftr s 16 < 65536 + b / 65536).
  { intros b t Hb Ht. change 0xFFFF with (Z.ones 16).
    rewrite Z.land_ones, Z.shiftr_div_pow2 by lia. change (2 ^ 16) with 65536.
    pose proof (Z.mod_pos_bound t 65536). pose proof (Z.div_pos t 65536).
    pose proof (Z.div_le_mono t b 65536). lia. }
  assert (Hexit : forall t, 0 <= t -> (Z.shiftr t 16 =? 0) = true -> fold16 t = t).
  { intros t Ht H%Z.eqb_eq. rewrite Z.shiftr_div_pow2 in H by lia.
    apply fold16_small. pose proof (Z.div_mod t (2 ^ 16)).
    pose proof (Z.mod_pos_bound t (2 ^ 16)). lia. }
  cbn [fold_carries]. destruct (Z.shiftr s 16 =? 0) eqn:E1; [symmetry; apply Hexit; [lia|done]|].
  pose proof (Hstep (2 ^ 32) s ltac:(lia) Hs) as H1. change (2 ^ 32 / 65536) with 65536 in H1.
  rewrite (u32_small (_ + _)) by lia. rewrite <- (fold_step s) by lia.
  set (s1 := Z.land s 0xFFFF + Z.shiftr s 16) in *.
  destruct (Z.shiftr s1 16 =? 0) eqn:E2; [symmetry; apply Hexit; [lia|done]|].
  pose proof (Hstep 131072 s1 ltac:(lia) H1) as H2. change (131072 / 65536) with 2 in H2.
  rewrite (u32_small (_ + _)) by lia. rewrite <- (fold_step s1) by lia.
  assert (H3 : Z.land s1 0xFFFF + Z.shiftr s1 16 < 65536).
  { change 0xFFFF with (Z.ones 16). rewrite Z.land_ones, Z.shiftr_div_pow2 by lia.
    change (2 ^ 16) with 65536. pose proof (Z.div_mod s1 65536).
    pose proof (Z.div_lt_upper_bound s1 65536 2).
    pose proof (Z.mod_pos_bound s1 65536). pose proof (Z.div_pos s1 65536).
    assert (s1 <= 131070).
    { unfold s1. change 0xFFFF with (Z.ones 16). rewrite Z.land_ones, Z.shiftr_div_pow2 by lia.
      pose proof (Z.mod_pos_bound s (2 ^ 16)).
      pose proof (Z.div_lt_upper_bound s (2 ^ 16) (2 ^ 16)). lia. }
    lia. }
  set (s2 := Z.land s1 0xFFFF + Z.shiftr s1 16) in *.
  assert (E3 : (Z.shiftr s2 16 =? 0) = true).
  { apply Z.eqb_eq. rewrite Z.shiftr_div_pow2 by lia. apply Z.div_small. lia. }
  rewrite E3. symmetry. by apply Hexit; [lia|].
Qed.

Lemma checksum_finalize_spec s : is_u32 s -> checksum_finalize s = 65535 - fold16 s.
Proof.
  intros Hs. unfold checksum_finalize. rewrite fold_carries_spec by done.
  pose proof (fold16_range s ltac:(unfold is_u32 in Hs; lia)).
  unfold u16, Z.lnot. rewrite <- (Z.mod_add (Z.pred (- fold16 s)) 1) by lia.
  rewrite Z.mod_small by lia. lia.
Qed.

Lemma checksum_finalize_range s : is_u16 (checksum_finalize s).
Proof. apply u16_range. Qed.

#[export] Hint Resolve checksum_finalize_range : bytes.

(** Adding the checksum of [s] to [s] gives a sum every receiver accepts. *)
Lemma checksum_completes s :
  0 <= s -> ones_sum_valid (s + (65535 - fold16 s)).
Proof.
  intros. unfold ones_sum_valid. destruct (fold16_congr s) as [k Hk]; [done|].
  pose proof (fold16_range s ltac:(lia)).
  destruct (Z.eq_dec s 0) as [->|]; [done|].
  apply fold16_unique with (k := k); lia.
Qed.

(** A checksum field at an even offset contributes its value to the sum. *)
Lemma sum16_cut b off n :
  bytes_ok b -> 0 <= off -> Z.even off = true -> off + 2 <= n -> n <= zlen b ->
  sum16 (bsub b 0 n) =
    sum16 (bsub b 0 off) + bget16 b off + sum16 (bsub b (off + 2) (n - off - 2)).
Proof.
  intros Hb Hoff Hev Hn Hlen.
  replace n with (off + (2 + (n - off - 2))) at 1 by lia.
  rewrite <- (bsub_app_split b 0 off) by lia.
  rewrite sum16_app by (by rewrite zlen_bsub by lia). rewrite Z.add_0_l.
  rewrite <- (bsub_app_split b off 2) by lia.
  rewrite sum16_app by (by rewrite zlen_bsub by lia).
  assert (Htwo : bsub b off 2 = [bget b off; bget b (off + 1)]).
  { apply bytes_ext; rewrite zlen_bsub by lia; [done|].
    intros i Hi. rewrite bget_bsub by lia.
    assert (i = 0 \/ i = 1) as [-> | ->] by lia.
    - by rewrite Z.add_0_r.
    - done. }
  rewrite Htwo. unfold bget16. rewrite be16_eq by auto with bytes. simpl sum16. lia.
Qed.

Lemma sum16_bsub_bounds b off n :
  bytes_ok b -> 0 <= off -> 0 <= n <= 65535 -> off + n <= zlen b ->
  0 <= sum16 (bsub b off n) <= 65535 * 32768.
Proof.
  intros Hb ???. pose proof (sum16_bounds (bsub b off n) (bytes_ok_bsub _ _ _ Hb)) as H'.
  rewrite zlen_bsub in H' by lia.
  pose proof (Z.div_le_mono (n + 1) 65536 2 ltac:(lia) ltac:(lia)) as H2.
  change (65536 / 2) with 32768 in H2. lia.
Qed.

(** What [checksum_ipv4_header] returns, and that it does not read outside
    the header. *)
Lemma checksum_ipv4_header_spec {E} hdr ihl :
  bytes_ok hdr -> 20 <= ihl <= 60 -> ihl <= zlen hdr ->
  @checksum_ipv4_header E hdr ihl =
    Ok (65535 - fold16 (sum16 (bsub hdr 0 10) + sum16 (bsub hdr 12 (ihl - 12)))).
Proof.
  intros Hb Hihl Hlen. unfold checksum_ipv4_header.
  rewrite !slice_Ok by lia. simpl.
  pose proof (sum16_bounds (bsub hdr 0 10) ltac:(auto with bytes)) as B1.
  rewrite zlen_bsub in B1 by lia. change ((10 + 1) / 2) with 5 in B1.
  pose proof (sum16_bsub_bounds hdr 12 (ihl - 12) Hb ltac:(lia) ltac:(lia) ltac:(lia)) as B2.
  rewrite (checksum_accumulate_spec (bsub hdr 0 10) 0) by solve_bytes.
  rewrite Z.add_0_l, (u32_small (sum16 _)) by lia.
  rewrite checksum_accumulate_spec by solve_bytes.
  rewrite u32_small by lia.
  by rewrite checksum_finalize_spec by (unfold is_u32; lia).
Qed.

(** A header whose checksum field holds the value computed over the other
    bytes is accepted by every receiver. *)
Lemma ipv4_header_checksum_valid b ihl :
  bytes_ok b -> 20 <= ihl <= 60 -> ihl <= zlen b ->
  bget16 b 10 = 65535 - fold16 (sum16 (bsub b 0 10) + sum16 (bsub b 12 (ihl - 12))) ->
  ipv4_header_valid b ihl.
Proof.
  intros Hb Hihl Hlen Hc. unfold ipv4_header_valid.
  rewrite (sum16_cut b 10 ihl) by (done || lia).
  replace (ihl - 10 - 2) with (ihl - 12) by lia. change (10 + 2) with 12. rewrite Hc.
  set (s1 := sum16 (bsub b 0 10)) in *. set (s2 := sum16 (bsub b 12 (ihl - 12))) in *.
  replace (s1 + (65535 - fold16 (s1 + s2)) + s2) with (s1 + s2 + (65535 - fold16 (s1 + s2))) by lia.
  apply checksum_completes.
  pose proof (sum16_bsub_bounds b 0 10 Hb). pose proof (sum16_bsub_bounds b 12 (ihl - 12) Hb).
  lia.
Qed.

Lemma sum16_bytes16 n : is_u16 n -> sum16 (bytes16 n) = n.
Proof.
  intros Hn. rewrite <- (bytes16_be16 n) at 2 by done.
  rewrite be16_eq by apply u8_range. unfold bytes16. simpl sum16. lia.
Qed.

Lemma sum16_bytes32 n : 0 <= n < 65536 -> sum16 (bytes32 n) = n.
Proof.
  intros Hn. unfold bytes32. simpl sum16.
  rewrite !Z.shiftr_div_pow2 by lia. rewrite (Z.div_small n (2 ^ 24)), (Z.div_small n (2 ^ 16)) by lia.
  pose proof (sum16_bytes16 n ltac:(unfold is_u16; lia)) as H.
  unfold bytes16 in H. simpl sum16 in H. rewrite Z.shiftr_div_pow2 in H by lia.
  unfold u8 at 1 2. rewrite !Z.mod_0_l by lia. lia.
Qed.

Section tcp_checksum.
Context {E : Type} (ip seg : list Z) (n : Z).
Hypothesis Hip : bytes_ok ip.
Hypothesis Hseg : bytes_ok seg.
Hypothesis Hn : 18 <= n <= 65535.
Hypothesis Hlen : n <= zlen seg.

(** The sum of a segment without its checksum field. *)
Definition seg_rest : Z := sum16 (bsub seg 0 16) + sum16 (bsub seg 18 (n - 18)).

Lemma seg_rest_bounds : 0 <= seg_rest <= 2 * (65535 * 32768).
Proof.
  unfold seg_rest.
  pose proof (sum16_bsub_bounds seg 0 16 Hseg ltac:(lia) ltac:(lia) ltac:(lia)).
  pose proof (sum16_bsub_bounds seg 18 (n - 18) Hseg ltac:(lia) ltac:(lia) ltac:(lia)).
  lia.
Qed.

Lemma seg_cut : sum16 (bsub seg 0 n) = seg_rest + bget16 seg 16.
Proof.
  rewrite (sum16_cut seg 16 n) by (done || lia). unfold seg_rest.
  change (16 + 2) with 18. replace (n - 16 - 2) with (n - 18) by lia. lia.
Qed.

(** The accumulations the two functions share, once the addresses and the
    pseudo-header are summed up to [s]. *)
Lemma tcp_sum_tail (s : Z) :
  0 <= s <= 2000000 ->
  (head ← @slice E seg 0 16;
   tail ← slice seg 18 (n - 18);
   Ok (checksum_finalize
         (checksum_accumulate tail (checksum_accumulate head s)))) =
  Ok (65535 - fold16 (s + seg_rest)).
Proof.
  intros Hs. rewrite !slice_Ok by lia. simpl.
  pose proof seg_rest_bounds. unfold seg_rest in *.
  pose proof (sum16_bounds (bsub seg 0 16) ltac:(auto with bytes)) as B1.
  rewrite zlen_bsub in B1 by lia. change ((16 + 1) / 2) with 8 in B1.
  pose proof (sum16_bsub_bounds seg 18 (n - 18) Hseg ltac:(lia) ltac:(lia) ltac:(lia)).
  rewrite (checksum_accumulate_spec (bsub seg 0 16) s) by solve_bytes.
  rewrite (u32_small (s + _)) by lia.
  rewrite checksum_accumulate_spec by solve_bytes.
  rewrite u32_small by lia.
  rewrite checksum_finalize_spec by (unfold is_u32; lia). do 3 f_equal. lia.
Qed.

Lemma checksum_tcp_v4_spec :
  20 <= zlen ip ->
  @checksum_tcp_v4 E ip seg n = Ok (65535 - fold16 (pseudo_v4 ip n + seg_rest)).
Proof.
  intros Hiplen. unfold checksum_tcp_v4.
  rewrite (proj2 (Z.ltb_ge _ _)) by lia.
  rewrite (slice_Ok ip) by lia. cbn [mbind res_bind]. rewrite (slice_Ok ip) by lia. cbn [mbind res_bind].
  rewrite u16_small by lia.
  pose proof (sum16_bounds (bsub ip 12 4) ltac:(auto with bytes)) as B1.
  pose proof (sum16_bounds (bsub ip 16 4) ltac:(auto with bytes)) as B2.
  rewrite zlen_bsub in B1, B2 by lia. change ((4 + 1) / 2) with 2 in B1, B2.
  rewrite (checksum_accumulate_spec (bsub ip 12 4) 0) by solve_bytes.
  rewrite (u32_small (0 + _)) by lia.
  rewrite (checksum_accumulate_spec (bsub ip 16 4)) by solve_bytes.
  rewrite (u32_small (_ + sum16 _)) by lia.
  rewrite (checksum_accumulate_spec ([0; 6] ++ bytes16 n)).
  2: { apply bytes_ok_app; auto with bytes. repeat constructor; done. }
  2: { unfold is_u32; lia. }
  rewrite sum16_app, sum16_bytes16 by (done || unfold is_u16; lia).
  simpl (sum16 [0; 6]). rewrite (u32_small (_ + (_ + n))) by lia.
  rewrite tcp_sum_tail by lia. do 4 f_equal. unfold pseudo_v4.
  change 8 with (4 + 4). rewrite <- (bsub_app_split ip 12 4 4) by lia.
  rewrite sum16_app by (by rewrite zlen_bsub by lia). change (12 + 4) with 16. lia.
Qed.

Lemma checksum_tcp_v6_spec :
  40 <= zlen ip ->
  @checksum_tcp_v6 E ip seg n = Ok (65535 - fold16 (pseudo_v6 ip n + seg_rest)).
Proof.
  intros Hiplen. unfold checksum_tcp_v6.
  rewrite (proj2 (Z.ltb_ge _ _)) by lia.
  rewrite (slice_Ok ip) by lia. cbn [mbind res_bind]. rewrite (slice_Ok ip) by lia. cbn [mbind res_bind].
  rewrite u32_small by lia.
  pose proof (sum16_bounds (bsub ip 8 16) ltac:(auto with bytes)) as B1.
  pose proof (sum16_bounds (bsub ip 24 16) ltac:(auto with bytes)) as B2.
  rewrite zlen_bsub in B1, B2 by lia. change ((16 + 1) / 2) with 8 in B1, B2.
  rewrite (checksum_accumulate_spec (bsub ip 8 16) 0) by solve_bytes.
  rewrite (u32_small (0 + _)) by lia.
  rewrite (checksum_accumulate_spec (bsub ip 24 16)) by solve_bytes.
  rewrite (u32_small (_ + sum16 _)) by lia.
  rewrite (checksum_accumulate_spec (bytes32 n ++ [0; 0; 0; 6])).
  2: { apply bytes_ok_app; auto with bytes. repeat constructor; done. }
  2: { unfold is_u32; lia. }
  rewrite sum16_app, sum16_bytes32 by (done || lia).
  simpl (sum16 [0; 0; 0; 6]). rewrite (u32_small (_ + (n + _))) by lia.
  rewrite tcp_sum_tail by lia. do 4 f_equal. unfold pseudo_v6.
  change 32 with (16 + 16). rewrite <- (bsub_app_split ip 8 16 16) by lia.
  rewrite sum16_app by (by rewrite zlen_bsub by lia). change (8 + 16) with 24. lia.
Qed.
End tcp_checksum.

(** A segment whose checksum field holds the value computed over the rest is
    accepted: the field completes any pseudo-header sum [p]. *)
Lemma tcp_checksum_valid p seg :
  bytes_ok seg -> 18 <= zlen seg <= 65535 -> 0 <= p ->
  bget16 seg 16 = 65535 - fold16 (p + seg_rest seg (zlen seg)) ->
  ones_sum_valid (p + sum16 seg).
Proof.
  intros Hb Hn Hp Hc. rewrite <- (bsub_all seg) at 1.
  rewrite (seg_cut seg (zlen seg)) by (done || lia). rewrite Hc.
  pose proof (seg_rest_bounds seg (zlen seg) Hb ltac:(lia) ltac:(lia)).
  rewrite Z.add_assoc. apply checksum_completes. lia.
Qed.

Lemma sum16_nonneg l : bytes_ok l -> 0 <= sum16 l.
Proof. intros H. pose proof (sum16_bounds l H). lia. Qed.

Lemma csum_range s : 0 <= s -> is_u16 (65535 - fold16 s).
Proof. intros. pose proof (fold16_range s). unfold is_u16. lia. Qed.

Lemma ip_csum_range b o n o' n' :
  bytes_ok b -> is_u16 (65535 - fold16 (sum16 (bsub b o n) + sum16 (bsub b o' n'))).
Proof.
  intros Hb. apply csum_range.
  pose proof (sum16_nonneg _ (bytes_ok_bsub b o n Hb)).
  pose proof (sum16_nonneg _ (bytes_ok_bsub b o' n' Hb)). lia.
Qed.

Lemma tcp4_csum_range b ihl len :
  bytes_ok b -> 0 <= len ->
  is_u16 (65535 - fold16 (pseudo_v4 b len + seg_rest (bfrom b ihl) len)).
Proof.
  intros Hb ?. apply csum_range. unfold seg_rest, pseudo_v4.
  pose proof (sum16_nonneg _ (bytes_ok_bsub b 12 8 Hb)).
  pose proof (bytes_ok_bfrom b ihl Hb) as Hf.
  pose proof (sum16_nonneg _ (bytes_ok_bsub _ 0 16 Hf)).
  pose proof (sum16_nonneg _ (bytes_ok_bsub _ 18 (len - 18) Hf)). lia.
Qed.

Lemma tcp6_csum_range b ihl len :
  bytes_ok b -> 0 <= len ->
  is_u16 (65535 - fold16 (pseudo_v6 b len + seg_rest (bfrom b ihl) len)).
Proof.
  intros Hb ?. apply csum_range. unfold seg_rest, pseudo_v6.
  pose proof (sum16_nonneg _ (bytes_ok_bsub b 8 32 Hb)).
  pose proof (bytes_ok_bfrom b ihl Hb) as Hf.
  pose proof (sum16_nonneg _ (bytes_ok_bsub _ 0 16 Hf)).
  pose proof (sum16_nonneg _ (bytes_ok_bsub _ 18 (len - 18) Hf)). lia.
Qed.

(** Steps of a packet construction: stores and the checksum calls. *)
Ltac build_step :=
  first
    [ wp_store_step
    | match goal with
      | |- wp (checksum_ipv4_header _ _) _ _ =>
          rewrite checksum_ipv4_header_spec by (assumption || lia)
      | |- wp (checksum_tcp_v4 _ _ _) _ _ =>
          rewrite checksum_tcp_v4_spec
            by first [assumption | apply bytes_ok_bfrom; assumption
                     | rewrite ?zlen_bfrom by lia; lia]
      | |- wp (checksum_tcp_v6 _ _ _) _ _ =>
          rewrite checksum_tcp_v6_spec
            by first [assumption | apply bytes_ok_bfrom; assumption
                     | rewrite ?zlen_bfrom by lia; lia]
      end
    | wp_step ].

Ltac build := repeat (build_step; cbv beta zeta).
