(* ===== verification/Packet.v ===== *)
(** * IPv4, IPv6 and TCP header parsing ([src/packet/ip.c], [src/packet/tcp.c])

    The views are zero-copy in the source; here a view's [header] and
    [payload] pointers are the bytes they point at. Every read goes through
    the checked accessors of the prelude, so that "the parser never reads
    outside its input" is the absence of [Fault]. The views' fields are read
    at the offsets of the packed structs of [include/packet.h]. *)

From stdpp Require Import base list numbers.
From Stdlib Require Import ZArith Lia.
From S2P Require Import Prelude.

(** The failing values of [t_packet_status]; [PACKET_OK] is [Ok]. *)
Inductive packet_err :=
| PACKET_ERR_TRUNCATED
| PACKET_ERR_MALFORMED
| PACKET_ERR_UNSUPPORTED.

#[global] Instance packet_err_eq_dec : EqDecision packet_err.
Proof. solve_decision. Defined.

Abbreviation pres := (res packet_err).

Definition TCP_FLAG_SYN : Z := 0x02.
Definition TCP_FLAG_ACK : Z := 0x10.

Definition sizeof_ipv4_header : Z := 20.
Definition sizeof_ipv6_header : Z := 40.
Definition sizeof_tcp_header : Z := 20.

Record ipv4_view := mk_ipv4_view {
  ip4_header : list Z;
  ip4_ihl_bytes : Z;
  ip4_total_len : Z;
  ip4_protocol : Z;
  ip4_payload : list Z;
  ip4_payload_len : Z
}.

Record ipv6_view := mk_ipv6_view {
  ip6_header : list Z;
  ip6_next_header : Z;
  ip6_payload : list Z;
  ip6_payload_len : Z
}.

Record tcp_view := mk_tcp_view {
  tcp_header : list Z;
  tcp_offset_bytes : Z;
  tcp_seq : Z;
  tcp_ack : Z;
  tcp_flags : Z;
  tcp_payload : list Z;
  tcp_payload_len : Z
}.

(** ** The code *)

Definition packet_parse_ipv4 (data : list Z) : pres ipv4_view :=
  let len := zlen data in
  if len <? sizeof_ipv4_header then Err PACKET_ERR_TRUNCATED else
  ver_ihl ← fetch data 0;
  if negb (Z.shiftr ver_ihl 4 =? 4) then Err PACKET_ERR_MALFORMED else
  let ihl_bytes := u8 (Z.land ver_ihl 0x0F * 4) in
  if (ihl_bytes <? sizeof_ipv4_header) || (len <? ihl_bytes)
  then Err PACKET_ERR_TRUNCATED else
  total_len ← fetch16 data 2;
  if (total_len <? ihl_bytes) || (len <? total_len)
  then Err PACKET_ERR_TRUNCATED else
  flags_frag ← fetch16 data 6;
  if negb (Z.land flags_frag 0x3FFF =? 0) then Err PACKET_ERR_UNSUPPORTED else
  protocol ← fetch data 9;
  Ok (mk_ipv4_view data ihl_bytes total_len protocol
        (bsub data ihl_bytes (total_len - ihl_bytes)) (total_len - ihl_bytes)).

Definition packet_parse_ipv6 (data : list Z) : pres ipv6_view :=
  let len := zlen data in
  if len <? sizeof_ipv6_header then Err PACKET_ERR_TRUNCATED else
  ver_class_flow ← fetch32 data 0;
  if negb (u8 (Z.shiftr ver_class_flow 28) =? 6) then Err PACKET_ERR_MALFORMED else
  payload_len ← fetch16 data 4;
  if len <? payload_len + sizeof_ipv6_header then Err PACKET_ERR_TRUNCATED else
  next_header ← fetch data 6;
  if negb (next_header =? 6) then Err PACKET_ERR_UNSUPPORTED else
  Ok (mk_ipv6_view data next_header
        (bsub data sizeof_ipv6_header payload_len) payload_len).

Definition packet_parse_tcp (data : list Z) : pres tcp_view :=
  let len := zlen data in
  if len <? sizeof_tcp_header then Err PACKET_ERR_TRUNCATED else
  offset_reserved ← fetch data 12;
  let offset_bytes := u8 (Z.shiftr offset_reserved 4 * 4) in
  if (offset_bytes <? sizeof_tcp_header) || (len <? offset_bytes)
  then Err PACKET_ERR_TRUNCATED else
  seq ← fetch32 data 4;
  ack ← fetch32 data 8;
  flags ← fetch data 13;
  Ok (mk_tcp_view data offset_bytes seq ack flags
        (bfrom data offset_bytes) (len - offset_bytes)).

(** ** Specifications *)

(** When the bytes are an unfragmented IPv4 datagram the parser accepts. *)
Definition ipv4_wf (data : list Z) : Prop :=
  20 <= zlen data /\ Z.shiftr (bget data 0) 4 = 4 /\
  20 <= Z.land (bget data 0) 0x0F * 4 <= bget16 data 2 /\
  bget16 data 2 <= zlen data /\ Z.land (bget16 data 6) 0x3FFF = 0.

(** The view of such a datagram. *)
Definition ipv4_view_of (data : list Z) : ipv4_view :=
  let ihl := Z.land (bget data 0) 0x0F * 4 in
  mk_ipv4_view data ihl (bget16 data 2) (bget data 9)
    (bsub data ihl (bget16 data 2 - ihl)) (bget16 data 2 - ihl).

Definition tcp_wf (data : list Z) : Prop :=
  20 <= Z.shiftr (bget data 12) 4 * 4 <= zlen data.

Definition tcp_view_of (data : list Z) : tcp_view :=
  let off := Z.shiftr (bget data 12) 4 * 4 in
  mk_tcp_view data off (bget32 data 4) (bget32 data 8) (bget data 13)
    (bfrom data off) (zlen data - off).

Definition ipv6_wf (data : list Z) : Prop :=
  40 <= zlen data /\ Z.shiftr (bget data 0) 4 = 6 /\
  bget16 data 4 + 40 <= zlen data /\ bget data 6 = 6.

Definition ipv6_view_of (data : list Z) : ipv6_view :=
  mk_ipv6_view data (bget data 6) (bsub data 40 (bget16 data 4)) (bget16 data 4).

(** ** Lemmas *)

Lemma low_nibble_range x : 0 <= Z.land x 0x0F <= 15.
Proof.
  change (Z.land x 0x0F) with (Z.land x (Z.ones 4)). rewrite Z.land_ones by lia.
  pose proof (Z.mod_pos_bound x (2 ^ 4)). lia.
Qed.

Lemma high_nibble_range x : is_u8 x -> 0 <= Z.shiftr x 4 <= 15.
Proof.
  unfold is_u8. intros. rewrite Z.shiftr_div_pow2 by lia.
  split; [apply Z.div_pos; lia|].
  pose proof (Z.div_lt_upper_bound x (2 ^ 4) 16). lia.
Qed.

Lemma ihl_u8 x : u8 (Z.land x 0x0F * 4) = Z.land x 0x0F * 4.
Proof. apply u8_small. pose proof (low_nibble_range x). lia. Qed.

Lemma data_offset_u8 x : is_u8 x -> u8 (Z.shiftr x 4 * 4) = Z.shiftr x 4 * 4.
Proof. intros H. apply u8_small. pose proof (high_nibble_range x H). lia. Qed.

(** The version nibble of the first 32-bit word is that of its first byte. *)
Lemma version_nibble b :
  bytes_ok b -> u8 (Z.shiftr (bget32 b 0) 28) = Z.shiftr (bget b 0) 4.
Proof.
  intros Hb. unfold bget32. rewrite be32_eq by auto with bytes.
  pose proof (bytes_ok_get b 0 Hb). pose proof (bytes_ok_get b (0 + 1) Hb).
  pose proof (bytes_ok_get b (0 + 2) Hb). pose proof (bytes_ok_get b (0 + 3) Hb).
  unfold is_u8 in *. rewrite !Z.shiftr_div_pow2 by lia.
  replace (2 ^ 28) with (2 ^ 24 * 2 ^ 4) by lia.
  rewrite <- Z.div_div by lia.
  replace (((bget b 0 * 256 + bget b (0 + 1)) * 256 + bget b (0 + 2)) * 256 + bget b (0 + 3))
    with (bget b 0 * 2 ^ 24 + (bget b (0 + 1) * 65536 + bget b (0 + 2) * 256 + bget b (0 + 3)))
    by lia.
  rewrite Z.div_add_l by lia.
  rewrite (Z.div_small (_ + _ + _) (2 ^ 24)), Z.add_0_r by lia.
  apply u8_small. split; [apply Z.div_pos; lia|]. apply Z.div_lt_upper_bound; lia.
Qed.

(** What each parser returns on every input: never a fault, and [Ok] exactly
    on well-formed packets, with the fields read at their wire offsets. *)
Lemma packet_parse_ipv4_wp data :
  bytes_ok data ->
  wp (packet_parse_ipv4 data)
     (fun v => ipv4_wf data /\ v = ipv4_view_of data)
     (fun _ => ~ ipv4_wf data).
Proof.
  intros Hb. unfold packet_parse_ipv4, sizeof_ipv4_header, ipv4_wf, ipv4_view_of.
  pose proof (low_nibble_range (bget data 0)).
  cbv zeta. wp_go; rewrite ?ihl_u8 in *; try lia.
  by repeat split; try lia.
Qed.

Lemma packet_parse_ipv6_wp data :
  bytes_ok data ->
  wp (packet_parse_ipv6 data)
     (fun v => ipv6_wf data /\ v = ipv6_view_of data)
     (fun _ => ~ ipv6_wf data).
Proof.
  intros Hb. unfold packet_parse_ipv6, sizeof_ipv6_header, ipv6_wf, ipv6_view_of.
  cbv zeta. wp_go; rewrite ?version_nibble in * by done; try lia.
  by repeat split; try lia.
Qed.

Lemma packet_parse_tcp_wp data :
  bytes_ok data ->
  wp (packet_parse_tcp data)
     (fun v => tcp_wf data /\ v = tcp_view_of data)
     (fun _ => ~ tcp_wf data).
Proof.
  intros Hb. unfold packet_parse_tcp, sizeof_tcp_header, tcp_wf, tcp_view_of.
  cbv zeta. pose proof (bytes_ok_get data 12 Hb).
  wp_go; rewrite ?data_offset_u8 in * by done; try lia.
  by repeat split; try lia.
Qed.
