(* ===== verification/Split.v ===== *)
(** * TCP segmentation ([src/packet/split.c])

    [packet_split_tcp_v4]/[_v6] cut the TCP payload of a captured packet in
    two and build two wire-valid packets in caller-supplied buffers. The
    theorems say that the two packets parse, carry the two halves of the
    payload at the right sequence numbers, keep every other header byte, and
    have checksums a receiver accepts. *)

From stdpp Require Import base list numbers strings.
From Stdlib Require Import ZArith Lia.
From S2P Require Import Prelude Checksum Packet.

(** ** The code

    [out1], [out2] are the output arrays as they are before the call; the
    result holds the arrays after it, with [*out1_len] and [*out2_len]. *)

Definition packet_split_tcp_v4 (inp : list Z) (split_offset : Z)
    (out1 out2 : list Z) : pres ((list Z * Z) * (list Z * Z)) :=
  ip ← packet_parse_ipv4 inp;
  if negb (ip4_protocol ip =? 6) then Err PACKET_ERR_UNSUPPORTED else
  tcp ← packet_parse_tcp (ip4_payload ip);
  if (split_offset =? 0) || (tcp_payload_len tcp <=? split_offset)
  then Err PACKET_ERR_MALFORMED else
  let ihl := ip4_ihl_bytes ip in
  let hdrs_len := ihl + tcp_offset_bytes tcp in
  (* first segment *)
  hdrs ← slice inp 0 hdrs_len;
  out1 ← store out1 0 hdrs;
  part ← slice (tcp_payload tcp) 0 split_offset;
  out1 ← store out1 hdrs_len part;
  let out1_len := hdrs_len + split_offset in
  out1 ← store out1 2 (bytes16 (u16 out1_len));
  out1 ← store out1 10 [0; 0];
  csum ← checksum_ipv4_header out1 ihl;
  out1 ← store out1 10 (bytes16 csum);
  out1 ← store out1 (ihl + 16) [0; 0];
  csum ← checksum_tcp_v4 out1 (bfrom out1 ihl) (tcp_offset_bytes tcp + split_offset);
  out1 ← store out1 (ihl + 16) (bytes16 csum);
  (* second segment *)
  hdrs ← slice inp 0 hdrs_len;
  out2 ← store out2 0 hdrs;
  part ← slice (tcp_payload tcp) split_offset (tcp_payload_len tcp - split_offset);
  out2 ← store out2 hdrs_len part;
  let out2_len := hdrs_len + (tcp_payload_len tcp - split_offset) in
  out2 ← store out2 2 (bytes16 (u16 out2_len));
  out2 ← store out2 10 [0; 0];
  out2 ← store out2 (ihl + 4) (bytes32 (u32 (tcp_seq tcp + u32 split_offset)));
  out2 ← store out2 (ihl + 16) [0; 0];
  csum ← checksum_ipv4_header out2 ihl;
  out2 ← store out2 10 (bytes16 csum);
  csum ← checksum_tcp_v4 out2 (bfrom out2 ihl)
           (tcp_offset_bytes tcp + (tcp_payload_len tcp - split_offset));
  out2 ← store out2 (ihl + 16) (bytes16 csum);
  Ok ((out1, out1_len), (out2, out2_len)).

Definition packet_split_tcp_v6 (inp : list Z) (split_offset : Z)
    (out1 out2 : list Z) : pres ((list Z * Z) * (list Z * Z)) :=
  ip ← packet_parse_ipv6 inp;
  tcp ← packet_parse_tcp (ip6_payload ip);
  if (split_offset =? 0) || (tcp_payload_len tcp <=? split_offset)
  then Err PACKET_ERR_MALFORMED else
  let hdrs_len := sizeof_ipv6_header + tcp_offset_bytes tcp in
  (* first segment *)
  hdrs ← slice inp 0 hdrs_len;
  out1 ← store out1 0 hdrs;
  part ← slice (tcp_payload tcp) 0 split_offset;
  out1 ← store out1 hdrs_len part;
  let out1_len := hdrs_len + split_offset in
  let upper_len := u16 (tcp_offset_bytes tcp + split_offset) in
  out1 ← store out1 4 (bytes16 upper_len);
  out1 ← store out1 (sizeof_ipv6_header + 16) [0; 0];
  csum ← checksum_tcp_v6 out1 (bfrom out1 sizeof_ipv6_header) upper_len;
  out1 ← store out1 (sizeof_ipv6_header + 16) (bytes16 csum);
  (* second segment *)
  hdrs ← slice inp 0 hdrs_len;
  out2 ← store out2 0 hdrs;
  part ← slice (tcp_payload tcp) split_offset (tcp_payload_len tcp - split_offset);
  out2 ← store out2 hdrs_len part;
  let out2_len := hdrs_len + (tcp_payload_len tcp - split_offset) in
  let upper_len := u16 (tcp_offset_bytes tcp + (tcp_payload_len tcp - split_offset)) in
  out2 ← store out2 4 (bytes16 upper_len);
  out2 ← store out2 (sizeof_ipv6_header + 4)
           (bytes32 (u32 (tcp_seq tcp + u32 split_offset)));
  out2 ← store out2 (sizeof_ipv6_header + 16) [0; 0];
  csum ← checksum_tcp_v6 out2 (bfrom out2 sizeof_ipv6_header) upper_len;
  out2 ← store out2 (sizeof_ipv6_header + 16) (bytes16 csum);
  Ok ((out1, out1_len), (out2, out2_len)).

(** ** Specification *)

(** [p] is an IPv4/TCP packet the parsers accept, with the given sequence
    number and payload, checksums a receiver accepts, and every byte of the
    headers of [inp] except the fields a new segment must change (total
    length, header checksum, sequence number, TCP checksum). *)
Definition tcp4_segment_of (inp p : list Z) (seq : Z) (part : list Z) : Prop :=
  exists ip tcp,
    packet_parse_ipv4 p = Ok ip /\ ip4_protocol ip = 6 /\
    ip4_total_len ip = zlen p /\
    packet_parse_tcp (ip4_payload ip) = Ok tcp /\
    tcp_payload tcp = part /\ tcp_seq tcp = seq /\
    ipv4_header_valid p (ip4_ihl_bytes ip) /\
    tcp_v4_valid p (ip4_payload ip) /\
    let ihl := ip4_ihl_bytes ip in
    forall i, 0 <= i < ihl + tcp_offset_bytes tcp ->
      ~ (2 <= i < 4) -> ~ (10 <= i < 12) ->
      ~ (ihl + 4 <= i < ihl + 8) -> ~ (ihl + 16 <= i < ihl + 18) ->
      bget p i = bget inp i.

Definition tcp6_segment_of (inp p : list Z) (seq : Z) (part : list Z) : Prop :=
  exists ip tcp,
    packet_parse_ipv6 p = Ok ip /\ zlen p = 40 + ip6_payload_len ip /\
    packet_parse_tcp (ip6_payload ip) = Ok tcp /\
    tcp_payload tcp = part /\ tcp_seq tcp = seq /\
    tcp_v6_valid p (ip6_payload ip) /\
    forall i, 0 <= i < 40 + tcp_offset_bytes tcp ->
      ~ (4 <= i < 6) -> ~ (44 <= i < 48) -> ~ (56 <= i < 58) ->
      bget p i = bget inp i.

(** The inputs [packet_split_tcp_v4] accepts. *)
Definition splittable_v4 (inp : list Z) (k : Z) : Prop :=
  ipv4_wf inp /\ bget inp 9 = 6 /\ tcp_wf (ip4_payload (ipv4_view_of inp)) /\
  0 < k < tcp_payload_len (tcp_view_of (ip4_payload (ipv4_view_of inp))).

Definition splittable_v6 (inp : list Z) (k : Z) : Prop :=
  ipv6_wf inp /\ tcp_wf (ip6_payload (ipv6_view_of inp)) /\
  0 < k < tcp_payload_len (tcp_view_of (ip6_payload (ipv6_view_of inp))).

(** ** Lemmas *)

(** The byte-level facts the construction establishes about one segment, and
    that they make it a segment of the input. *)
Record seg4_facts (inp : list Z) (ihl off seq : Z) (part p : list Z) : Prop := {
  sf_len : zlen p = ihl + off + zlen part;
  sf_ok : bytes_ok p;
  sf_hdr : forall i, 0 <= i < ihl + off ->
    ~ (2 <= i < 4) -> ~ (10 <= i < 12) ->
    ~ (ihl + 4 <= i < ihl + 8) -> ~ (ihl + 16 <= i < ihl + 18) -> bget p i = bget inp i;
  sf_total : bget16 p 2 = zlen p;
  sf_seq : bget32 p (ihl + 4) = seq;
  sf_ipc : bget16 p 10 =
    65535 - fold16 (sum16 (bsub p 0 10) + sum16 (bsub p 12 (ihl - 12)));
  sf_tcpc : bget16 p (ihl + 16) =
    65535 - fold16 (pseudo_v4 p (off + zlen part) + seg_rest (bfrom p ihl) (off + zlen part));
  sf_part : bsub p (ihl + off) (zlen part) = part
}.

Lemma parse_ipv4_Ok p : bytes_ok p -> ipv4_wf p -> packet_parse_ipv4 p = Ok (ipv4_view_of p).
Proof.
  intros Hb Hwf. pose proof (packet_parse_ipv4_wp p Hb) as H.
  destruct (packet_parse_ipv4 p); unfold wp in H; [|done|done]. f_equal. tauto.
Qed.

Lemma parse_ipv6_Ok p : bytes_ok p -> ipv6_wf p -> packet_parse_ipv6 p = Ok (ipv6_view_of p).
Proof.
  intros Hb Hwf. pose proof (packet_parse_ipv6_wp p Hb) as H.
  destruct (packet_parse_ipv6 p); unfold wp in H; [|done|done]. f_equal. tauto.
Qed.

Lemma parse_tcp_Ok p : bytes_ok p -> tcp_wf p -> packet_parse_tcp p = Ok (tcp_view_of p).
Proof.
  intros Hb Hwf. pose proof (packet_parse_tcp_wp p Hb) as H.
  destruct (packet_parse_tcp p); unfold wp in H; [|done|done]. f_equal. tauto.
Qed.

Lemma pseudo_v4_pos p n : bytes_ok p -> 20 <= zlen p -> 0 <= n -> 0 <= pseudo_v4 p n.
Proof.
  intros. unfold pseudo_v4. pose proof (sum16_bounds (bsub p 12 8) ltac:(auto with bytes)). lia.
Qed.

Lemma seg4_facts_segment inp ihl off seq part p :
  bytes_ok inp -> ipv4_wf inp -> bget inp 9 = 6 ->
  ihl = Z.land (bget inp 0) 0x0F * 4 ->
  off = Z.shiftr (bget inp (ihl + 12)) 4 * 4 -> 20 <= off ->
  zlen p <= 65535 ->
  seg4_facts inp ihl off seq part p -> tcp4_segment_of inp p seq part.
Proof.
  intros Hb (Hlen & Hver & Hihl & Htot & Hfrag) Hproto Eihl Eoff Hoff Hp F.
  pose proof (zlen_nonneg part). pose proof (sf_len _ _ _ _ _ _ F) as Hl.
  pose proof (sf_ok _ _ _ _ _ _ F) as Hok.
  pose proof (low_nibble_range (bget inp 0)).
  assert (Eb0 : bget p 0 = bget inp 0) by (apply (sf_hdr _ _ _ _ _ _ F); lia).
  assert (Eb9 : bget p 9 = 6) by (rewrite <- Hproto; apply (sf_hdr _ _ _ _ _ _ F); lia).
  assert (Eb6 : bget16 p 6 = bget16 inp 6)
    by (apply bget16_ext; apply (sf_hdr _ _ _ _ _ _ F); lia).
  pose proof (sf_total _ _ _ _ _ _ F) as Ht.
  assert (Hwf : ipv4_wf p) by (unfold ipv4_wf; rewrite Eb0, Eb6, Ht; repeat split; lia || done).
  assert (Epay : ip4_payload (ipv4_view_of p) = bfrom p ihl).
  { simpl. rewrite Eb0, Ht, <- Eihl, bfrom_bsub by lia. done. }
  assert (Eb12 : bget (bfrom p ihl) 12 = bget inp (ihl + 12)).
  { rewrite bget_bfrom by lia. apply (sf_hdr _ _ _ _ _ _ F); lia. }
  assert (Hpl : zlen (bfrom p ihl) = off + zlen part) by (rewrite zlen_bfrom; lia).
  assert (Htwf : tcp_wf (bfrom p ihl)) by (unfold tcp_wf; rewrite Eb12, <- Eoff; lia).
  exists (ipv4_view_of p), (tcp_view_of (bfrom p ihl)).
  assert (Eihl' : ip4_ihl_bytes (ipv4_view_of p) = ihl) by (simpl; rewrite Eb0; lia).
  assert (Eoff' : tcp_offset_bytes (tcp_view_of (bfrom p ihl)) = off) by (simpl; rewrite Eb12; lia).
  rewrite Epay, Eihl', Eoff'. cbv zeta. split_and!.
  - by apply parse_ipv4_Ok.
  - done.
  - done.
  - apply parse_tcp_Ok; auto with bytes.
  - simpl. rewrite Eb12, <- Eoff. rewrite <- (sf_part _ _ _ _ _ _ F) at 1.
    rewrite bfrom_bsub, bsub_bfrom by lia. f_equal. lia.
  - simpl. rewrite <- (sf_seq _ _ _ _ _ _ F). unfold bget32.
    rewrite !bget_bfrom by lia. by rewrite !Z.add_assoc.
  - apply ipv4_header_checksum_valid; [done|lia|lia|]. apply (sf_ipc _ _ _ _ _ _ F).
  - unfold tcp_v4_valid. rewrite Hpl. apply tcp_checksum_valid; [auto with bytes|lia| |].
    + apply pseudo_v4_pos; [done|lia|lia].
    + rewrite bget16_bfrom, Hpl by lia. apply (sf_tcpc _ _ _ _ _ _ F).
  - intros. by apply (sf_hdr _ _ _ _ _ _ F).
Qed.

(** The two header sums only depend on bytes outside the checksum fields, so
    that they may be evaluated on any buffer agreeing there. *)
Lemma seg4_facts_intro inp ihl off seq part b bi bt :
  20 <= ihl <= 60 -> 20 <= off -> off + zlen part <= 65515 ->
  ihl + off + zlen part <= zlen b -> zlen bi = zlen b -> zlen bt = zlen b -> bytes_ok b ->
  (forall i, 0 <= i < ihl + off ->
    ~ (2 <= i < 4) -> ~ (10 <= i < 12) ->
    ~ (ihl + 4 <= i < ihl + 8) -> ~ (ihl + 16 <= i < ihl + 18) -> bget b i = bget inp i) ->
  bget16 b 2 = ihl + off + zlen part ->
  bget32 b (ihl + 4) = seq ->
  bget16 b 10 = 65535 - fold16 (sum16 (bsub bi 0 10) + sum16 (bsub bi 12 (ihl - 12))) ->
  (forall i, 0 <= i < ihl -> ~ (10 <= i < 12) -> bget bi i = bget b i) ->
  bget16 b (ihl + 16) =
    65535 - fold16 (pseudo_v4 bt (off + zlen part) + seg_rest (bfrom bt ihl) (off + zlen part)) ->
  (forall i, 0 <= i < ihl + off + zlen part -> ~ (ihl + 16 <= i < ihl + 18) ->
     bget bt i = bget b i) ->
  (forall i, 0 <= i < zlen part -> bget b (ihl + off + i) = bget part i) ->
  seg4_facts inp ihl off seq part (bsub b 0 (ihl + off + zlen part)).
Proof.
  intros Hihl Hoff Hmax Hlen Li Lt Hok Hhdr Htot Hseq Hipc Hbi Htcpc Hbt Hpart.
  pose proof (zlen_nonneg part) as Hp.
  assert (Hl : zlen (bsub b 0 (ihl + off + zlen part)) = ihl + off + zlen part)
    by (apply zlen_bsub; lia).
  split.
  - done.
  - auto with bytes.
  - intros. rewrite bget_bsub by lia. by apply Hhdr.
  - rewrite Hl, bget16_bsub by lia. done.
  - by rewrite bget32_bsub by lia.
  - rewrite bget16_bsub by lia. rewrite !bsub_bsub, !Z.add_0_l, Hipc by lia.
    do 3 f_equal; f_equal; apply bsub_ext; try lia; intros; apply Hbi; lia.
  - rewrite bget16_bsub by lia. rewrite Z.add_0_l, Htcpc.
    unfold pseudo_v4, seg_rest. rewrite !bsub_bfrom by lia. rewrite !bsub_bsub by lia.
    rewrite !Z.add_0_l, !Z.add_0_r.
    rewrite (bsub_ext bt b 12 8) by (try lia; intros; apply Hbt; lia).
    rewrite (bsub_ext bt b ihl 16) by (try lia; intros; apply Hbt; lia).
    rewrite (bsub_ext bt b (ihl + 18)) by (try lia; intros; apply Hbt; lia).
    done.
  - rewrite bsub_bsub by lia. rewrite Z.add_0_l.
    apply bytes_ext; rewrite zlen_bsub by lia; [done|].
    intros i Hi. rewrite bget_bsub by lia. by apply Hpart.
Qed.

(** The sizes in the views of an accepted packet. *)
Lemma view4_sizes inp (ip := ipv4_view_of inp) (tcp := tcp_view_of (ip4_payload ip)) :
  bytes_ok inp -> ipv4_wf inp -> tcp_wf (ip4_payload ip) ->
  20 <= ip4_ihl_bytes ip <= 60 /\ 20 <= tcp_offset_bytes tcp /\
  0 <= tcp_payload_len tcp /\ zlen (tcp_payload tcp) = tcp_payload_len tcp /\
  ip4_ihl_bytes ip + tcp_offset_bytes tcp + tcp_payload_len tcp = bget16 inp 2 /\
  bget16 inp 2 <= 65535 /\ bget16 inp 2 <= zlen inp /\
  tcp_offset_bytes tcp = Z.shiftr (bget inp (ip4_ihl_bytes ip + 12)) 4 * 4 /\
  is_u32 (tcp_seq tcp) /\
  (forall i, 0 <= i -> i + 3 < tcp_offset_bytes tcp ->
     bget32 inp (ip4_ihl_bytes ip + i) = bget32 (ip4_payload ip) i) /\
  bytes_ok (tcp_payload tcp).
Proof.
  intros Hb (Hlen & Hver & Hihl & Htot & Hfrag) Htwf.
  pose proof (low_nibble_range (bget inp 0)). pose proof (bget16_range inp 2 Hb) as Hr.
  unfold is_u16 in Hr. unfold tcp_wf in Htwf.
  assert (Hpl : zlen (ip4_payload ip) = bget16 inp 2 - ip4_ihl_bytes ip)
    by (simpl; rewrite zlen_bsub; lia).
  assert (E12 : bget (ip4_payload ip) 12 = bget inp (ip4_ihl_bytes ip + 12)).
  { rewrite Hpl in Htwf. simpl in *. rewrite bget_bsub by lia. done. }
  split_and!; try (simpl in *; lia).
  - simpl. rewrite zlen_bfrom; simpl in *; lia.
  - simpl in *. by rewrite E12.
  - apply bget32_range. simpl. auto with bytes.
  - intros i Hi Hi'. simpl in *. rewrite bget32_bsub by lia. done.
  - simpl. auto with bytes.
Qed.

(** Discharges the byte equations of [seg4_facts_intro] for a construction
    that ended in the buffers given by its [upd] hypotheses. *)
Ltac same := match goal with |- ?x = ?x => reflexivity end.
Ltac seg_bytes :=
  intros; first
    [ upds; same
    | symmetry; upds; same
    | upd_read; rewrite ?bget_bsub by lia; first [same | f_equal; lia]
    | upd_read; rewrite ?u16_small, ?u32_small by lia; same
    | upds; match goal with
        | H : upd _ _ (bytes16 _) ?b |- context [bget16 ?b _] => rewrite (upd_get16 _ _ _ _ H)
        end;
      [rewrite ?Z.add_assoc; same
      | lazymatch goal with
        | |- context [pseudo_v4] => apply tcp4_csum_range; [assumption|lia]
        | |- context [pseudo_v6] => apply tcp6_csum_range; [assumption|lia]
        | |- _ => apply ip_csum_range; assumption
        end] ].

Section split_v4.
Context (inp : list Z) (k : Z) (out1 out2 : list Z).
Hypothesis Hin : bytes_ok inp.
Hypothesis Hk : 0 <= k.
Hypothesis Hok1 : bytes_ok out1.
Hypothesis Hok2 : bytes_ok out2.
Hypothesis Hout1 : zlen inp <= zlen out1.
Hypothesis Hout2 : zlen inp <= zlen out2.

Let ip := ipv4_view_of inp.
Let tcp := tcp_view_of (ip4_payload ip).

Definition split_v4_post (r : (list Z * Z) * (list Z * Z)) : Prop :=
  let '((o1, l1), (o2, l2)) := r in
  splittable_v4 inp k /\
  l1 <= zlen o1 /\ l2 <= zlen o2 /\
  tcp4_segment_of inp (bsub o1 0 l1) (tcp_seq tcp) (bsub (tcp_payload tcp) 0 k) /\
  tcp4_segment_of inp (bsub o2 0 l2) (u32 (tcp_seq tcp + k)) (bfrom (tcp_payload tcp) k) /\
  bytes_ok o1 /\ bytes_ok o2.

Lemma packet_split_tcp_v4_wp :
  wp (packet_split_tcp_v4 inp k out1 out2) split_v4_post
     (fun _ => ~ splittable_v4 inp k).
Proof.
  unfold packet_split_tcp_v4.
  apply wp_bind. eapply wp_mono; [| |apply packet_parse_ipv4_wp; done]; cbv beta.
  2: { unfold splittable_v4. tauto. }
  intros v [Hwf ->]. fold ip.
  wp_step. { wp_step. unfold splittable_v4. cbn in H. lia. }
  apply wp_bind. eapply wp_mono; [| |apply packet_parse_tcp_wp; unfold ip; simpl; auto with bytes]; cbv beta.
  2: { unfold splittable_v4. fold ip. tauto. }
  intros v [Htwf ->]. fold tcp.
  wp_step. { wp_step. unfold splittable_v4. fold ip tcp. lia. }
  destruct (view4_sizes inp Hin Hwf Htwf)
    as (Hihl & Hoff & Hpl0 & Hpl & Htot & Hmax & Hle & Eoff & Hseq & Hget & Hpok).
  fold ip tcp in Hihl, Hoff, Hpl0, Hpl, Htot, Eoff, Hseq, Hget, Hpok.
  cbv zeta. set (ihl := ip4_ihl_bytes ip) in *. set (off := tcp_offset_bytes tcp) in *.
  assert (Hh : zlen (bsub inp 0 (ihl + off)) = ihl + off) by (apply zlen_bsub; lia).
  assert (Hp1 : zlen (bsub (tcp_payload tcp) 0 k) = k) by (apply zlen_bsub; lia).
  assert (Hp2 : zlen (bsub (tcp_payload tcp) k (tcp_payload_len tcp - k)) = tcp_payload_len tcp - k)
    by (apply zlen_bsub; lia).
  build. split.
  { unfold splittable_v4. fold ip tcp. split_and!; try done; lia. }
  split_and!; [lia|lia| | |assumption|assumption].
  - eapply seg4_facts_segment; try done; [rewrite zlen_bsub; lia|].
    rewrite <- Hp1 at 2.
    apply (seg4_facts_intro inp ihl off _ _ b5 b2 b4);
      rewrite ?Hp1; try first [lia | assumption | seg_bytes].
    upds. rewrite (upd_in32 _ _ _ _ _ U) by lia. rewrite bget32_bsub by lia.
    rewrite Z.sub_0_r, Z.add_0_l, Hget by lia. done.
  - assert (Hk2 : u32 k = k) by (apply u32_small; lia). rewrite Hk2 in *.
    eapply seg4_facts_segment; try done; [rewrite zlen_bsub; lia|].
    rewrite bfrom_bsub, Hpl by lia. rewrite <- Hp2 at 2.
    apply (seg4_facts_intro inp ihl off _ _ b13 b11 b12);
      rewrite ?Hp2; try first [lia | assumption | seg_bytes].
Qed.
End split_v4.

(** ** IPv6 *)

Record seg6_facts (inp : list Z) (off seq : Z) (part p : list Z) : Prop := {
  s6_len : zlen p = 40 + off + zlen part;
  s6_ok : bytes_ok p;
  s6_hdr : forall i, 0 <= i < 40 + off ->
    ~ (4 <= i < 6) -> ~ (44 <= i < 48) -> ~ (56 <= i < 58) -> bget p i = bget inp i;
  s6_plen : bget16 p 4 = off + zlen part;
  s6_seq : bget32 p 44 = seq;
  s6_tcpc : bget16 p 56 =
    65535 - fold16 (pseudo_v6 p (off + zlen part) + seg_rest (bfrom p 40) (off + zlen part));
  s6_part : bsub p (40 + off) (zlen part) = part
}.

Lemma pseudo_v6_pos p n : bytes_ok p -> 0 <= n -> 0 <= pseudo_v6 p n.
Proof.
  intros. unfold pseudo_v6. pose proof (sum16_bounds (bsub p 8 32) ltac:(auto with bytes)). lia.
Qed.

Lemma seg6_facts_segment inp off seq part p :
  bytes_ok inp -> ipv6_wf inp ->
  off = Z.shiftr (bget inp 52) 4 * 4 -> 20 <= off -> off + zlen part <= 65535 ->
  seg6_facts inp off seq part p -> tcp6_segment_of inp p seq part.
Proof.
  intros Hb (Hlen & Hver & Htot & Hnext) Eoff Hoff Hmax F.
  pose proof (zlen_nonneg part). pose proof (s6_len _ _ _ _ _ F) as Hl.
  pose proof (s6_ok _ _ _ _ _ F) as Hok.
  assert (Eb0 : bget p 0 = bget inp 0) by (apply (s6_hdr _ _ _ _ _ F); lia).
  assert (Eb6 : bget p 6 = 6)
    by (etransitivity; [apply (s6_hdr _ _ _ _ _ F); lia|done]).
  pose proof (s6_plen _ _ _ _ _ F) as Ht.
  assert (Hwf : ipv6_wf p) by (unfold ipv6_wf; rewrite Eb0, Ht; split_and!; lia || done).
  assert (Epay : ip6_payload (ipv6_view_of p) = bfrom p 40).
  { simpl. rewrite Ht, bfrom_bsub by lia. f_equal. lia. }
  assert (Eb12 : bget (bfrom p 40) 12 = bget inp 52).
  { rewrite bget_bfrom by lia. apply (s6_hdr _ _ _ _ _ F); lia. }
  assert (Hpl : zlen (bfrom p 40) = off + zlen part) by (rewrite zlen_bfrom; lia).
  assert (Htwf : tcp_wf (bfrom p 40)) by (unfold tcp_wf; rewrite Eb12, <- Eoff; lia).
  exists (ipv6_view_of p), (tcp_view_of (bfrom p 40)).
  assert (Eoff' : tcp_offset_bytes (tcp_view_of (bfrom p 40)) = off) by (simpl; rewrite Eb12; lia).
  rewrite Epay, Eoff'. split_and!.
  - by apply parse_ipv6_Ok.
  - simpl. lia.
  - apply parse_tcp_Ok; auto with bytes.
  - simpl. rewrite Eb12, <- Eoff. rewrite <- (s6_part _ _ _ _ _ F) at 1.
    rewrite bfrom_bsub, bsub_bfrom by lia. f_equal. lia.
  - simpl. rewrite <- (s6_seq _ _ _ _ _ F). unfold bget32. by rewrite !bget_bfrom by lia.
  - unfold tcp_v6_valid. rewrite Hpl. apply tcp_checksum_valid; [auto with bytes|lia| |].
    + apply pseudo_v6_pos; [done|lia].
    + rewrite bget16_bfrom, Hpl by lia. apply (s6_tcpc _ _ _ _ _ F).
  - intros. by apply (s6_hdr _ _ _ _ _ F).
Qed.

Lemma seg6_facts_intro inp off seq part b bt :
  20 <= off -> off + zlen part <= 65535 ->
  40 + off + zlen part <= zlen b -> zlen bt = zlen b -> bytes_ok b ->
  (forall i, 0 <= i < 40 + off ->
    ~ (4 <= i < 6) -> ~ (44 <= i < 48) -> ~ (56 <= i < 58) -> bget b i = bget inp i) ->
  bget16 b 4 = off + zlen part ->
  bget32 b 44 = seq ->
  bget16 b 56 =
    65535 - fold16 (pseudo_v6 bt (off + zlen part) + seg_rest (bfrom bt 40) (off + zlen part)) ->
  (forall i, 0 <= i < 40 + off + zlen part -> ~ (56 <= i < 58) -> bget bt i = bget b i) ->
  (forall i, 0 <= i < zlen part -> bget b (40 + off + i) = bget part i) ->
  seg6_facts inp off seq part (bsub b 0 (40 + off + zlen part)).
Proof.
  intros Hoff Hmax Hlen Lt Hok Hhdr Htot Hseq Htcpc Hbt Hpart.
  pose proof (zlen_nonneg part) as Hp.
  assert (Hl : zlen (bsub b 0 (40 + off + zlen part)) = 40 + off + zlen part)
    by (apply zlen_bsub; lia).
  split.
  - done.
  - auto with bytes.
  - intros. rewrite bget_bsub by lia. by apply Hhdr.
  - by rewrite bget16_bsub by lia.
  - by rewrite bget32_bsub by lia.
  - rewrite bget16_bsub by lia. rewrite Z.add_0_l, Htcpc.
    unfold pseudo_v6, seg_rest. rewrite !bsub_bfrom by lia. rewrite !bsub_bsub by lia.
    rewrite !Z.add_0_l, !Z.add_0_r.
    rewrite (bsub_ext bt b 8 32) by (try lia; intros; apply Hbt; lia).
    rewrite (bsub_ext bt b 40 16) by (try lia; intros; apply Hbt; lia).
    rewrite (bsub_ext bt b (40 + 18)) by (try lia; intros; apply Hbt; lia).
    done.
  - rewrite bsub_bsub by lia. rewrite Z.add_0_l.
    apply bytes_ext; rewrite zlen_bsub by lia; [done|].
    intros i Hi. rewrite bget_bsub by lia. by apply Hpart.
Qed.

Lemma view6_sizes inp (ip := ipv6_view_of inp) (tcp := tcp_view_of (ip6_payload ip)) :
  bytes_ok inp -> ipv6_wf inp -> tcp_wf (ip6_payload ip) ->
  20 <= tcp_offset_bytes tcp /\
  0 <= tcp_payload_len tcp /\ zlen (tcp_payload tcp) = tcp_payload_len tcp /\
  tcp_offset_bytes tcp + tcp_payload_len tcp = bget16 inp 4 /\
  bget16 inp 4 <= 65535 /\ bget16 inp 4 + 40 <= zlen inp /\
  tcp_offset_bytes tcp = Z.shiftr (bget inp 52) 4 * 4 /\
  (forall i, 0 <= i -> i + 3 < tcp_offset_bytes tcp ->
     bget32 inp (40 + i) = bget32 (ip6_payload ip) i) /\
  bytes_ok (tcp_payload tcp).
Proof.
  intros Hb (Hlen & Hver & Htot & Hnext) Htwf.
  pose proof (bget16_range inp 4 Hb) as Hr. unfold is_u16 in Hr. unfold tcp_wf in Htwf.
  assert (Hpl : zlen (ip6_payload ip) = bget16 inp 4) by (simpl; rewrite zlen_bsub; lia).
  assert (E12 : bget (ip6_payload ip) 12 = bget inp 52).
  { rewrite Hpl in Htwf. simpl in *. rewrite bget_bsub by lia. done. }
  split_and!; try (simpl in *; lia).
  - simpl. rewrite zlen_bfrom; simpl in *; lia.
  - simpl in *. by rewrite E12.
  - intros i Hi Hi'. simpl in *. rewrite bget32_bsub by lia. done.
  - simpl. auto with bytes.
Qed.

Section split_v6.
Context (inp : list Z) (k : Z) (out1 out2 : list Z).
Hypothesis Hin : bytes_ok inp.
Hypothesis Hk : 0 <= k.
Hypothesis Hok1 : bytes_ok out1.
Hypothesis Hok2 : bytes_ok out2.
Hypothesis Hout1 : zlen inp <= zlen out1.
Hypothesis Hout2 : zlen inp <= zlen out2.

Let ip := ipv6_view_of inp.
Let tcp := tcp_view_of (ip6_payload ip).

Definition split_v6_post (r : (list Z * Z) * (list Z * Z)) : Prop :=
  let '((o1, l1), (o2, l2)) := r in
  splittable_v6 inp k /\
  l1 <= zlen o1 /\ l2 <= zlen o2 /\
  tcp6_segment_of inp (bsub o1 0 l1) (tcp_seq tcp) (bsub (tcp_payload tcp) 0 k) /\
  tcp6_segment_of inp (bsub o2 0 l2) (u32 (tcp_seq tcp + k)) (bfrom (tcp_payload tcp) k).

Lemma packet_split_tcp_v6_wp :
  wp (packet_split_tcp_v6 inp k out1 out2) split_v6_post
     (fun _ => ~ splittable_v6 inp k).
Proof.
  unfold packet_split_tcp_v6, sizeof_ipv6_header.
  apply wp_bind. eapply wp_mono; [| |apply packet_parse_ipv6_wp; done]; cbv beta.
  2: { unfold splittable_v6. tauto. }
  intros v [Hwf ->]. fold ip.
  apply wp_bind. eapply wp_mono; [| |apply packet_parse_tcp_wp; unfold ip; simpl; auto with bytes]; cbv beta.
  2: { unfold splittable_v6. fold ip. tauto. }
  intros v [Htwf ->]. fold tcp.
  wp_step. { wp_step. unfold splittable_v6. fold ip tcp. lia. }
  destruct (view6_sizes inp Hin Hwf Htwf)
    as (Hoff & Hpl0 & Hpl & Htot & Hmax & Hle & Eoff & Hget & Hpok).
  fold ip tcp in Hoff, Hpl0, Hpl, Htot, Eoff, Hget, Hpok.
  cbv zeta. set (off := tcp_offset_bytes tcp) in *.
  rewrite !(u16_small (off + _)), !(u32_small k) by lia.
  change (40 + 16) with 56. change (40 + 4) with 44.
  assert (Hh : zlen (bsub inp 0 (40 + off)) = 40 + off) by (apply zlen_bsub; lia).
  assert (Hp1 : zlen (bsub (tcp_payload tcp) 0 k) = k) by (apply zlen_bsub; lia).
  assert (Hp2 : zlen (bsub (tcp_payload tcp) k (tcp_payload_len tcp - k)) = tcp_payload_len tcp - k)
    by (apply zlen_bsub; lia).
  build. split.
  { unfold splittable_v6. fold ip tcp. split_and!; try done; lia. }
  split_and!; [lia|lia| |].
  - eapply seg6_facts_segment; try done; [rewrite Hp1; lia|].
    rewrite <- Hp1 at 2.
    apply (seg6_facts_intro inp off _ _ b3 b2); rewrite ?Hp1; try first [lia | assumption | seg_bytes].
    upds. rewrite (upd_in32 _ _ _ _ _ U) by lia. rewrite bget32_bsub by lia.
    rewrite Z.sub_0_r, Z.add_0_l. apply (Hget 4); lia.
  - eapply seg6_facts_segment; try done; [rewrite zlen_bfrom; lia|].
    rewrite bfrom_bsub, Hpl by lia. rewrite <- Hp2 at 2.
    apply (seg6_facts_intro inp off _ _ b9 b8); rewrite ?Hp2; try first [lia | assumption | seg_bytes].
Qed.
End split_v6.

(** ** Properties *)

(** A 52-byte IPv4/TCP packet from 10.0.0.2 to 1.1.1.1:443 with a 12-byte
    payload, used by the witnesses. *)
Definition sample_v4 : list Z :=
  [0x45; 0; 0; 52; 0x12; 0x34; 0x40; 0; 64; 6; 0; 0; 10; 0; 0; 2; 1; 1; 1; 1;
   0xC0; 0; 1; 0xBB; 0xFF; 0xFF; 0xFF; 0xFE; 0; 0; 0; 7; 0x50; 0x18; 0x10; 0; 0; 0; 0; 0]
  ++ str "hello, world".

Definition sample_v6 : list Z :=
  [0x60; 0; 0; 0; 0; 32; 6; 64] ++ replicate 16 0x20 ++ replicate 16 0x30 ++
  [0xC0; 0; 1; 0xBB; 0xFF; 0xFF; 0xFF; 0xFE; 0; 0; 0; 7; 0x50; 0x18; 0x10; 0; 0; 0; 0; 0]
  ++ str "hello, world".

(** C1: For every captured packet, every split offset and output buffers at
    least as long as the packet, [packet_split_tcp_v4] never reads or writes
    outside a buffer. It succeeds exactly when the packet is an unfragmented
    IPv4/TCP packet and the offset lies strictly inside its payload. The two
    packets it builds are accepted by the parsers, carry the two halves of
    the payload at sequence numbers [seq] and [seq + k mod 2^32], keep every
    header byte that is not a length, sequence number or checksum, and have
    valid IPv4 header and TCP checksums. *)
Theorem packet_split_tcp_v4_correct inp k out1 out2 :
  bytes_ok inp -> bytes_ok out1 -> bytes_ok out2 -> 0 <= k ->
  zlen inp <= zlen out1 -> zlen inp <= zlen out2 ->
  let tcp := tcp_view_of (ip4_payload (ipv4_view_of inp)) in
  (splittable_v4 inp k ->
     exists o1 l1 o2 l2 part1 part2,
       packet_split_tcp_v4 inp k out1 out2 = Ok ((o1, l1), (o2, l2)) /\
       l1 <= zlen o1 /\ l2 <= zlen o2 /\
       part1 ++ part2 = tcp_payload tcp /\ zlen part1 = k /\
       tcp4_segment_of inp (bsub o1 0 l1) (tcp_seq tcp) part1 /\
       tcp4_segment_of inp (bsub o2 0 l2) (u32 (tcp_seq tcp + k)) part2) /\
  (~ splittable_v4 inp k -> exists e, packet_split_tcp_v4 inp k out1 out2 = Err e).
Proof.
  intros Hin H1 H2 Hk L1 L2 tcp.
  pose proof (packet_split_tcp_v4_wp inp k out1 out2 Hin Hk H1 H2 L1 L2) as W.
  destruct (packet_split_tcp_v4 inp k out1 out2) as [[[o1 l1] [o2 l2]]|e|];
    unfold wp in W; [|split; [done|by exists e]|done].
  destruct W as (Hs & ? & ? & S1 & S2 & _). split; [|done]. intros _.
  exists o1, l1, o2, l2, (bsub (tcp_payload tcp) 0 k), (bfrom (tcp_payload tcp) k).
  destruct Hs as (Hwf & _ & Htwf & Hlt).
  destruct (view4_sizes inp Hin Hwf Htwf) as (_ & _ & _ & Hpl & _).
  split_and!; try done.
  - apply take_drop.
  - apply zlen_bsub; fold tcp in Hpl, Hlt; lia.
Qed.

Lemma packet_split_tcp_v4_correct_witness :
  splittable_v4 sample_v4 3 /\
  exists o1 l1 o2 l2, packet_split_tcp_v4 sample_v4 3 sample_v4 sample_v4 = Ok ((o1, l1), (o2, l2)).
Proof.
  assert (Hs : splittable_v4 sample_v4 3) by (vm_compute; intuition congruence).
  split; [exact Hs|].
  assert (Hb : bytes_ok sample_v4) by (repeat constructor; vm_compute; congruence).
  destruct (proj1 (packet_split_tcp_v4_correct sample_v4 3 sample_v4 sample_v4 Hb Hb Hb
    ltac:(lia) (Z.le_refl _) (Z.le_refl _)) Hs) as (o1 & l1 & o2 & l2 & _ & _ & E & _).
  exists o1, l1, o2, l2. exact E.
Defined.

(** The same contract for [packet_split_tcp_v6]: success exactly on IPv6
    packets whose next header is TCP and whose payload strictly contains the
    offset; both results are well-formed IPv6/TCP packets carrying the two
    halves with valid TCP checksums. *)
Theorem packet_split_tcp_v6_correct inp k out1 out2 :
  bytes_ok inp -> bytes_ok out1 -> bytes_ok out2 -> 0 <= k ->
  zlen inp <= zlen out1 -> zlen inp <= zlen out2 ->
  let tcp := tcp_view_of (ip6_payload (ipv6_view_of inp)) in
  (splittable_v6 inp k ->
     exists o1 l1 o2 l2 part1 part2,
       packet_split_tcp_v6 inp k out1 out2 = Ok ((o1, l1), (o2, l2)) /\
       l1 <= zlen o1 /\ l2 <= zlen o2 /\
       part1 ++ part2 = tcp_payload tcp /\ zlen part1 = k /\
       tcp6_segment_of inp (bsub o1 0 l1) (tcp_seq tcp) part1 /\
       tcp6_segment_of inp (bsub o2 0 l2) (u32 (tcp_seq tcp + k)) part2) /\
  (~ splittable_v6 inp k -> exists e, packet_split_tcp_v6 inp k out1 out2 = Err e).
Proof.
  intros Hin H1 H2 Hk L1 L2 tcp.
  pose proof (packet_split_tcp_v6_wp inp k out1 out2 Hin Hk H1 H2 L1 L2) as W.
  destruct (packet_split_tcp_v6 inp k out1 out2) as [[[o1 l1] [o2 l2]]|e|];
    unfold wp in W; [|split; [done|by exists e]|done].
  destruct W as (Hs & ? & ? & S1 & S2). split; [|done]. intros _.
  exists o1, l1, o2, l2, (bsub (tcp_payload tcp) 0 k), (bfrom (tcp_payload tcp) k).
  destruct Hs as (Hwf & Htwf & Hlt).
  destruct (view6_sizes inp Hin Hwf Htwf) as (_ & _ & Hpl & _).
  split_and!; try done.
  - apply take_drop.
  - apply zlen_bsub; fold tcp in Hpl, Hlt; lia.
Qed.

Lemma packet_split_tcp_v6_correct_witness :
  splittable_v6 sample_v6 3 /\
  exists o1 l1 o2 l2, packet_split_tcp_v6 sample_v6 3 sample_v6 sample_v6 = Ok ((o1, l1), (o2, l2)).
Proof.
  assert (Hs : splittable_v6 sample_v6 3) by (vm_compute; intuition congruence).
  split; [exact Hs|].
  assert (Hb : bytes_ok sample_v6) by (repeat constructor; vm_compute; congruence).
  destruct (proj1 (packet_split_tcp_v6_correct sample_v6 3 sample_v6 sample_v6 Hb Hb Hb
    ltac:(lia) (Z.le_refl _) (Z.le_refl _)) Hs) as (o1 & l1 & o2 & l2 & _ & _ & E & _).
  exists o1, l1, o2, l2. exact E.
Defined.
