(* ===== verification/Fragment.v ===== *)
(** * IP fragmentation and decoys ([src/packet/fragment.c], [src/packet/fake.c])

    [packet_fragment_ipv4] cuts an IPv4/TCP datagram into two IP fragments;
    its theorem is stated against a receiver's reassembly of them.
    [packet_make_fake_tcp_v4] builds a decoy whose TCP checksum is the bitwise
    complement of the captured one; its theorem says exactly when a receiver
    rejects the decoy. *)

From stdpp Require Import base list numbers strings.
From Stdlib Require Import ZArith Lia.
From S2P Require Import Prelude Checksum Packet Split.

Definition IP_FLAG_DF : Z := 0x4000.
Definition IP_FLAG_MF : Z := 0x2000.
Definition IP_FRAG_UNIT : Z := 8.

(** ** The code *)

Definition packet_fragment_ipv4 (inp : list Z) (tcp_payload_split_offset : Z)
    (out1 out2 : list Z) : pres ((list Z * Z) * (list Z * Z)) :=
  ip ← packet_parse_ipv4 inp;
  if negb (ip4_protocol ip =? 6) then Err PACKET_ERR_UNSUPPORTED else
  tcp ← packet_parse_tcp (ip4_payload ip);
  let raw_offset := tcp_offset_bytes tcp + tcp_payload_split_offset in
  if (tcp_payload_split_offset =? 0)
     || (tcp_payload_len tcp <=? tcp_payload_split_offset)
  then Err PACKET_ERR_MALFORMED else
  let frag_offset := (raw_offset + IP_FRAG_UNIT - 1) / IP_FRAG_UNIT * IP_FRAG_UNIT in
  if (frag_offset <? tcp_offset_bytes tcp) || (ip4_payload_len ip <=? frag_offset)
  then Err PACKET_ERR_MALFORMED else
  let ihl := ip4_ihl_bytes ip in
  (* fragment 1 *)
  hdr ← slice inp 0 ihl;
  out1 ← store out1 0 hdr;
  part ← slice (ip4_payload ip) 0 frag_offset;
  out1 ← store out1 ihl part;
  let out1_len := ihl + frag_offset in
  out1 ← store out1 2 (bytes16 (u16 out1_len));
  old_flags ← fetch16 out1 6;
  let flags_frag := u16 (Z.land old_flags IP_FLAG_DF) in
  let flags_frag := u16 (Z.lor (Z.land flags_frag (Z.lnot IP_FLAG_DF)) IP_FLAG_MF) in
  out1 ← store out1 6 (bytes16 flags_frag);
  out1 ← store out1 10 [0; 0];
  csum ← checksum_ipv4_header out1 ihl;
  out1 ← store out1 10 (bytes16 csum);
  (* fragment 2 *)
  hdr ← slice inp 0 ihl;
  out2 ← store out2 0 hdr;
  part ← slice (ip4_payload ip) frag_offset (ip4_payload_len ip - frag_offset);
  out2 ← store out2 ihl part;
  let out2_len := ihl + (ip4_payload_len ip - frag_offset) in
  out2 ← store out2 2 (bytes16 (u16 out2_len));
  out2 ← store out2 6 (bytes16 (u16 (frag_offset / IP_FRAG_UNIT)));
  out2 ← store out2 10 [0; 0];
  csum ← checksum_ipv4_header out2 ihl;
  out2 ← store out2 10 (bytes16 csum);
  Ok ((out1, out1_len), (out2, out2_len)).

Definition packet_make_fake_tcp_v4 (inp : list Z) (ttl : Z) (out : list Z)
  : pres (list Z * Z) :=
  ip ← packet_parse_ipv4 inp;
  if negb (ip4_protocol ip =? 6) then Err PACKET_ERR_UNSUPPORTED else
  tcp ← packet_parse_tcp (ip4_payload ip);
  if tcp_payload_len tcp =? 0 then Err PACKET_ERR_MALFORMED else
  out ← store out 0 inp;
  let out_len := zlen inp in
  out ← store out 8 [ttl];
  out ← store out 10 [0; 0];
  csum ← checksum_ipv4_header out (ip4_ihl_bytes ip);
  out ← store out 10 (bytes16 csum);
  (* the checksum field is replaced by its complement, byte by byte *)
  c0 ← fetch out (ip4_ihl_bytes ip + 16);
  c1 ← fetch out (ip4_ihl_bytes ip + 16 + 1);
  out ← store out (ip4_ihl_bytes ip + 16) [u8 (Z.lnot c0); u8 (Z.lnot c1)];
  Ok (out, out_len).

(** ** Specification: what a receiver makes of a fragment *)

Definition frag_ihl (p : list Z) : Z := Z.land (bget p 0) 0x0F * 4.
Definition frag_offset_bytes (p : list Z) : Z := Z.land (bget16 p 6) 0x1FFF * 8.
Definition frag_more (p : list Z) : bool := Z.testbit (bget16 p 6) 13.
Definition frag_data (p : list Z) : list Z := bfrom p (frag_ihl p).

(** [p] is an IPv4 packet whose header is that of [inp] but for total length,
    flags/offset and checksum, with a valid checksum and nothing after its
    total length. *)
Definition fragment_of (inp p : list Z) : Prop :=
  bget16 p 2 = zlen p /\ ipv4_header_valid p (frag_ihl p) /\
  Z.testbit (bget16 p 6) 14 = false /\
  forall i, 0 <= i < frag_ihl inp ->
    ~ (2 <= i < 4) -> ~ (6 <= i < 8) -> ~ (10 <= i < 12) -> bget p i = bget inp i.

(** Reassembly of two fragments (RFC 791): the first has offset 0 and MF, the
    second starts where the first ends and is the last. *)
Definition reassemble2 (p q : list Z) : option (list Z) :=
  if (frag_offset_bytes p =? 0) && frag_more p && negb (frag_more q)
     && (frag_offset_bytes q =? zlen (frag_data p))
  then Some (frag_data p ++ frag_data q) else None.

(** The fragment boundary the code computes, and the inputs it accepts. *)
Definition frag_boundary (inp : list Z) (k : Z) : Z :=
  (tcp_offset_bytes (tcp_view_of (ip4_payload (ipv4_view_of inp))) + k + 7) / 8 * 8.

Definition fragmentable (inp : list Z) (k : Z) : Prop :=
  splittable_v4 inp k /\ frag_boundary inp k < ip4_payload_len (ipv4_view_of inp).

(** ** Lemmas *)

Lemma round_up_8 x : 0 <= x -> x <= (x + 7) / 8 * 8 < x + 8.
Proof.
  intros. pose proof (Z.div_mod (x + 7) 8). pose proof (Z.mod_pos_bound (x + 7) 8). lia.
Qed.

Lemma flags_mf x : u16 (Z.lor (Z.land (u16 (Z.land x IP_FLAG_DF)) (Z.lnot IP_FLAG_DF)) IP_FLAG_MF) = IP_FLAG_MF.
Proof.
  assert (E : u16 (Z.land x IP_FLAG_DF) = Z.land (u16 x) IP_FLAG_DF).
  { unfold u16. rewrite <- !Z.land_ones by lia. rewrite <- !Z.land_assoc.
    f_equal. }
  rewrite E, <- Z.land_assoc. change (Z.land IP_FLAG_DF (Z.lnot IP_FLAG_DF)) with 0.
  by rewrite Z.land_0_r.
Qed.

(** From the byte-level facts of one construction to a fragment. *)
Lemma fragment_intro inp ihl n flags b bi :
  ihl = frag_ihl inp -> 20 <= ihl <= 60 -> 0 <= n -> ihl + n <= 65535 ->
  ihl + n <= zlen b -> zlen bi = zlen b -> bytes_ok b ->
  (forall i, 0 <= i < ihl -> ~ (2 <= i < 4) -> ~ (6 <= i < 8) -> ~ (10 <= i < 12) ->
     bget b i = bget inp i) ->
  bget16 b 2 = ihl + n -> bget16 b 6 = flags -> Z.testbit flags 14 = false ->
  bget16 b 10 = 65535 - fold16 (sum16 (bsub bi 0 10) + sum16 (bsub bi 12 (ihl - 12))) ->
  (forall i, 0 <= i < ihl -> ~ (10 <= i < 12) -> bget bi i = bget b i) ->
  let p := bsub b 0 (ihl + n) in
  fragment_of inp p /\ bget16 p 6 = flags /\ frag_data p = bsub b ihl n.
Proof.
  intros Eihl Hihl Hn Hmax Hlen Li Hok Hhdr Htot Hfl Hdf Hipc Hbi p.
  assert (Hl : zlen p = ihl + n) by (apply zlen_bsub; lia).
  assert (Eb0 : bget p 0 = bget inp 0) by (unfold p; rewrite bget_bsub by lia; apply Hhdr; lia).
  assert (Ep : frag_ihl p = ihl) by (unfold frag_ihl; rewrite Eb0; done).
  assert (E6 : bget16 p 6 = flags) by (unfold p; by rewrite bget16_bsub by lia).
  unfold fragment_of. rewrite Ep, E6, Hl. split_and!.
  - unfold p. by rewrite bget16_bsub by lia.
  - apply ipv4_header_checksum_valid; [unfold p; auto with bytes|lia|lia|].
    unfold p. rewrite bget16_bsub, !bsub_bsub, !Z.add_0_l, Hipc by lia.
    do 3 f_equal; f_equal; apply bsub_ext; try lia; intros; apply Hbi; lia.
  - done.
  - intros. unfold p. rewrite bget_bsub by lia. apply Hhdr; lia.
  - done.
  - unfold frag_data. rewrite Ep, bfrom_bsub, Hl by lia. unfold p.
    rewrite bsub_bsub by lia. f_equal; lia.
Qed.

Section fragment.
Context (inp : list Z) (k : Z) (out1 out2 : list Z).
Hypothesis Hin : bytes_ok inp.
Hypothesis Hk : 0 <= k.
Hypothesis Hok1 : bytes_ok out1.
Hypothesis Hok2 : bytes_ok out2.
Hypothesis Hout1 : zlen inp <= zlen out1.
Hypothesis Hout2 : zlen inp <= zlen out2.

Let ip := ipv4_view_of inp.
Let tcp := tcp_view_of (ip4_payload ip).
Let fo := frag_boundary inp k.

Definition fragment_post (r : (list Z * Z) * (list Z * Z)) : Prop :=
  let '((o1, l1), (o2, l2)) := r in
  let p := bsub o1 0 l1 in
  let q := bsub o2 0 l2 in
  fragmentable inp k /\ l1 <= zlen o1 /\ l2 <= zlen o2 /\
  fragment_of inp p /\ fragment_of inp q /\
  bget16 p 6 = IP_FLAG_MF /\ bget16 q 6 = fo / 8 /\
  frag_data p = bsub (ip4_payload ip) 0 fo /\
  frag_data q = bfrom (ip4_payload ip) fo.

Lemma packet_fragment_ipv4_wp :
  wp (packet_fragment_ipv4 inp k out1 out2) fragment_post (fun _ => ~ fragmentable inp k).
Proof.
  unfold packet_fragment_ipv4, fragmentable, splittable_v4, IP_FRAG_UNIT.
  apply wp_bind. eapply wp_mono; [| |apply packet_parse_ipv4_wp; done]; cbv beta; [|tauto].
  intros v [Hwf ->]. fold ip.
  wp_step. { wp_step. cbn in H. lia. }
  apply wp_bind.
  eapply wp_mono; [| |apply packet_parse_tcp_wp; unfold ip; simpl; auto with bytes]; cbv beta; [|tauto].
  intros v [Htwf ->]. fold tcp. cbv zeta.
  wp_step. { wp_step. lia. }
  replace (tcp_offset_bytes tcp + k + 8 - 1) with (tcp_offset_bytes tcp + k + 7) by lia.
  change ((tcp_offset_bytes tcp + k + 7) / 8 * 8) with fo. destruct (view4_sizes inp Hin Hwf Htwf)
    as (Hihl & Hoff & Hpl0 & Hpl & Htot & Hmax & Hle & Eoff & Hseq & Hget & Hpok).
  fold ip tcp in Hihl, Hoff, Hpl0, Hpl, Htot, Eoff, Hseq, Hget, Hpok.
  pose proof (round_up_8 (tcp_offset_bytes tcp + k) ltac:(lia)) as Hfo.
  change ((tcp_offset_bytes tcp + k + 7) / 8 * 8) with fo in Hfo.
  wp_step. { wp_step. fold ip fo. lia. }
  set (ihl := ip4_ihl_bytes ip) in *.
  assert (Hipl : ip4_payload_len ip = bget16 inp 2 - ihl) by done.
  assert (Hpz : zlen (ip4_payload ip) = ip4_payload_len ip) by (simpl; rewrite zlen_bsub; cbn in *; lia).
  assert (Hipok : bytes_ok (ip4_payload ip)) by (simpl; auto with bytes).
  assert (Hh : zlen (bsub inp 0 ihl) = ihl) by (apply zlen_bsub; lia).
  assert (Hp1 : zlen (bsub (ip4_payload ip) 0 fo) = fo) by (apply zlen_bsub; lia).
  assert (Hp2 : zlen (bsub (ip4_payload ip) fo (ip4_payload_len ip - fo)) = ip4_payload_len ip - fo)
    by (apply zlen_bsub; lia).
  build. rewrite flags_mf in *. assert (Hmf : is_u16 IP_FLAG_MF) by done.
  assert (Hq : is_u16 (fo / 8)).
  { unfold is_u16. split; [apply Z.div_pos; lia|]. apply Z.div_lt_upper_bound; lia. }
  rewrite (u16_small (fo / 8)) in * by (unfold is_u16 in Hq; lia).
  destruct (fragment_intro inp ihl fo IP_FLAG_MF b4 b3) as (F1 & F2 & F3);
    try first [ lia | assumption | reflexivity | seg_bytes ].
  destruct (fragment_intro inp ihl (ip4_payload_len ip - fo) (fo / 8) b10 b9) as (G1 & G2 & G3);
    try first [ lia | assumption | reflexivity | seg_bytes ].
  { apply Z.bits_above_log2; [apply Z.div_pos; lia|].
    destruct (decide (fo / 8 = 0)) as [->|]; [done|].
    apply Z.log2_lt_pow2; [pose proof (Z.div_pos fo 8); lia|].
    apply Z.div_lt_upper_bound; lia. }
  split_and!; try done; try lia.
  - unfold fragmentable, splittable_v4. fold ip tcp fo. split_and!; done || lia.
  - rewrite F3. apply bytes_ext; rewrite !zlen_bsub by lia; [done|]. intros i Hi.
    rewrite bget_bsub by lia. seg_bytes.
  - rewrite G3, bfrom_bsub, Hpz by lia. apply bytes_ext; rewrite !zlen_bsub by lia; [done|].
    intros i Hi. rewrite bget_bsub by lia. seg_bytes.
Qed.
End fragment.

(** ** The decoy *)

Lemma u8_lnot x : is_u8 x -> u8 (Z.lnot x) = 255 - x.
Proof.
  unfold is_u8, u8, Z.lnot. intros.
  rewrite <- (Z.mod_add (Z.pred (- x)) 1) by lia. rewrite Z.mod_small by lia. lia.
Qed.

(** The input the decoy builder accepts. *)
Definition fakeable (inp : list Z) : Prop :=
  ipv4_wf inp /\ bget inp 9 = 6 /\ tcp_wf (ip4_payload (ipv4_view_of inp)) /\
  tcp_payload_len (tcp_view_of (ip4_payload (ipv4_view_of inp))) <> 0.

(** The decoy [d] built from [inp]: the same bytes but for TTL, header
    checksum (valid) and TCP checksum (complemented). *)
Definition decoy_of (inp : list Z) (ttl : Z) (d : list Z) : Prop :=
  let ihl := frag_ihl inp in
  zlen d = zlen inp /\ bytes_ok d /\
  bget d 8 = ttl /\ ipv4_header_valid d ihl /\
  bget16 d (ihl + 16) = 65535 - bget16 inp (ihl + 16) /\
  forall i, 0 <= i < zlen inp -> i <> 8 -> ~ (10 <= i < 12) ->
    ~ (ihl + 16 <= i < ihl + 18) -> bget d i = bget inp i.

Section fake.
Context (inp out : list Z) (ttl : Z).
Hypothesis Hin : bytes_ok inp.
Hypothesis Hok : bytes_ok out.
Hypothesis Httl : is_u8 ttl.
Hypothesis Hout : zlen inp <= zlen out.

Let ip := ipv4_view_of inp.
Let tcp := tcp_view_of (ip4_payload ip).

Lemma packet_make_fake_tcp_v4_wp :
  wp (packet_make_fake_tcp_v4 inp ttl out)
     (fun '(o, l) => fakeable inp /\ l = zlen inp /\ l <= zlen o /\
                     decoy_of inp ttl (bsub o 0 l))
     (fun _ => ~ fakeable inp).
Proof.
  unfold packet_make_fake_tcp_v4.
  apply wp_bind. eapply wp_mono; [| |apply packet_parse_ipv4_wp; done]; cbv beta.
  2: { unfold fakeable. tauto. }
  intros v [Hwf ->]. fold ip.
  wp_step. { wp_step. unfold fakeable. cbn in H. lia. }
  apply wp_bind. eapply wp_mono; [| |apply packet_parse_tcp_wp; unfold ip; simpl; auto with bytes]; cbv beta.
  2: { unfold fakeable. fold ip. tauto. }
  intros v [Htwf ->]. fold tcp.
  wp_step. { wp_step. unfold fakeable. fold ip tcp. lia. }
  destruct (view4_sizes inp Hin Hwf Htwf)
    as (Hihl & Hoff & Hpl0 & Hpl & Htot & Hmax & Hle & Eoff & Hseq & Hget & Hpok).
  fold ip tcp in Hihl, Hoff, Hpl0, Hpl, Htot, Eoff, Hseq, Hget, Hpok.
  change (ip4_ihl_bytes ip) with (frag_ihl inp) in *. set (ihl := frag_ihl inp) in *.
  assert (Ht1 : zlen [ttl] = 1) by done.
  assert (Hto : bytes_ok [ttl]) by (apply bytes_ok_cons; auto with bytes).
  cbv zeta. build. cbv iota. refine (conj _ (conj eq_refl (conj _ _))); [|lia|].
  { unfold fakeable. fold ip tcp. split_and!; try done. }
  assert (Hd0 : u8 (Z.lnot (bget b2 (ihl + 16))) = 255 - bget inp (ihl + 16)).
  { rewrite u8_lnot by auto with bytes. f_equal. seg_bytes. }
  assert (Hd1 : u8 (Z.lnot (bget b2 (ihl + 16 + 1))) = 255 - bget inp (ihl + 16 + 1)).
  { rewrite u8_lnot by auto with bytes. f_equal. seg_bytes. }
  assert (Hib : forall i, 0 <= i < zlen inp -> bget (bsub b3 0 (zlen inp)) i = bget b3 i)
    by (intros; by rewrite bget_bsub by lia).
  assert (Hl : zlen (bsub b3 0 (zlen inp)) = zlen inp) by (apply zlen_bsub; lia).
  unfold decoy_of. fold ihl. split_and!; try done.
  - auto with bytes.
  - rewrite Hib by lia. upds. rewrite (upd_in _ _ _ _ U0) by lia. done.
  - apply ipv4_header_checksum_valid; [auto with bytes|lia|lia|].
    rewrite bget16_bsub, !bsub_bsub, !Z.add_0_l by lia. upds.
    rewrite (upd_get16 _ _ _ _ U2) by (apply ip_csum_range; assumption).
    do 3 f_equal; f_equal; apply bsub_ext; try lia; intros; seg_bytes.
  - rewrite bget16_bsub, Z.add_0_l by lia. unfold bget16.
    rewrite !(upd_in _ _ _ _ U3) by (rewrite ?zlen_pair; lia).
    rewrite Z.sub_diag, Z.add_simpl_l, Hd0, Hd1.
    rewrite bget_cons_0, bget_cons, bget_cons_0 by lia.
    pose proof (bytes_ok_get inp (ihl + 16) Hin). pose proof (bytes_ok_get inp (ihl + 16 + 1) Hin).
    rewrite !be16_eq by solve_bytes. lia.
  - intros. rewrite Hib by lia. seg_bytes.
Qed.
End fake.

(** A complemented checksum is rejected unless the field was 0 or 0xFFFF. *)
Lemma complement_valid s c :
  0 < s -> 0 <= c <= 65535 -> ones_sum_valid (s + c) ->
  (ones_sum_valid (s + (65535 - c)) <-> c = 0 \/ c = 65535).
Proof.
  unfold ones_sum_valid. intros Hs Hc Hv.
  destruct (fold16_congr (s + c)) as [j Hj]; [lia|]. rewrite Hv in Hj. split.
  - intros Hv'. destruct (fold16_congr (s + (65535 - c))) as [j' Hj']; [lia|].
    rewrite Hv' in Hj'. lia.
  - intros [-> | ->].
    + apply fold16_unique with (k := j + 1); lia.
    + apply fold16_unique with (k := j - 1); lia.
Qed.

(** The checksum of the decoy's segment, as a receiver sees it. *)
Lemma decoy_tcp_sum inp ttl d :
  bytes_ok inp -> fakeable inp -> decoy_of inp ttl d ->
  let pay := ip4_payload (ipv4_view_of inp) in
  let pay' := ip4_payload (ipv4_view_of d) in
  let c := bget16 inp (frag_ihl inp + 16) in
  exists s, 0 < s /\
    pseudo_v4 inp (zlen pay) + sum16 pay = s + c /\
    pseudo_v4 d (zlen pay') + sum16 pay' = s + (65535 - c).
Proof.
  intros Hin (Hwf & Hproto & Htwf & Hne) (Hl & Hdok & Httl & _ & Hc & Hsame) pay pay' c.
  destruct (view4_sizes inp Hin Hwf Htwf) as (Hihl & Hoff & Hpl0 & Hpl & Htot & Hmax & Hle & _).
  change (ip4_ihl_bytes (ipv4_view_of inp)) with (frag_ihl inp) in *.
  set (ihl := frag_ihl inp) in *. set (n := bget16 inp 2 - ihl) in *.
  assert (E0 : bget d 0 = bget inp 0) by (apply Hsame; lia).
  assert (E2 : bget16 d 2 = bget16 inp 2) by (apply bget16_ext; apply Hsame; lia).
  assert (Epay' : pay' = bsub d ihl n).
  { unfold pay'. simpl. by rewrite E0, E2. }
  assert (Hn : 20 <= n <= 65515) by lia.
  assert (Epay : pay = bsub inp ihl n) by reflexivity.
  assert (Lp : zlen pay = n) by (rewrite Epay; apply zlen_bsub; lia).
  assert (Lp' : zlen pay' = n) by (rewrite Epay'; apply zlen_bsub; lia).
  exists (pseudo_v4 inp n + seg_rest pay n).
  assert (Hpo : bytes_ok pay) by (rewrite Epay; auto with bytes).
  assert (Hpo' : bytes_ok pay') by (rewrite Epay'; auto with bytes).
  assert (Eps : pseudo_v4 d n = pseudo_v4 inp n).
  { unfold pseudo_v4. do 2 f_equal. f_equal. apply bsub_ext; try lia. intros; apply Hsame; lia. }
  assert (Er : seg_rest pay' n = seg_rest pay n).
  { unfold seg_rest. rewrite Epay', Epay. rewrite !bsub_bsub by lia.
    f_equal; f_equal; apply bsub_ext; try lia; intros; apply Hsame; lia. }
  pose proof (seg_rest_bounds pay n Hpo ltac:(lia) ltac:(lia)).
  pose proof (sum16_nonneg _ (bytes_ok_bsub inp 12 8 Hin)).
  assert (C1 : bget16 pay 16 = c) by (rewrite Epay, bget16_bsub by lia; done).
  assert (C2 : bget16 pay' 16 = 65535 - c) by (rewrite Epay', bget16_bsub by lia; done).
  split; [unfold pseudo_v4; lia|]. rewrite Lp, Lp', Eps.
  rewrite <- (bsub_all pay) at 1. rewrite <- (bsub_all pay') at 1. rewrite Lp, Lp'.
  rewrite !seg_cut, Er, C1, C2 by (done || lia). lia.
Qed.

(** ** Properties *)

(** C2: [packet_fragment_ipv4] never reads or writes outside its buffers, and
    succeeds exactly when the datagram is an unfragmented IPv4/TCP packet,
    the offset is strictly inside the payload and the boundary, rounded up
    to a multiple of 8, still leaves bytes for the second fragment. The two
    fragments have valid header checksums, DF cleared, and the header of the
    input elsewhere; the first one holds the whole TCP header and at least
    [k] payload bytes; and a receiver that reassembles them gets exactly the
    IP payload of the input, TCP checksum included. *)
Theorem packet_fragment_ipv4_reassembles inp k out1 out2 :
  bytes_ok inp -> bytes_ok out1 -> bytes_ok out2 -> 0 <= k ->
  zlen inp <= zlen out1 -> zlen inp <= zlen out2 ->
  (fragmentable inp k ->
     exists o1 l1 o2 l2,
       packet_fragment_ipv4 inp k out1 out2 = Ok ((o1, l1), (o2, l2)) /\
       let p := bsub o1 0 l1 in
       let q := bsub o2 0 l2 in
       fragment_of inp p /\ fragment_of inp q /\
       reassemble2 p q = Some (ip4_payload (ipv4_view_of inp)) /\
       tcp_offset_bytes (tcp_view_of (ip4_payload (ipv4_view_of inp))) + k
         <= zlen (frag_data p)) /\
  (~ fragmentable inp k -> exists e, packet_fragment_ipv4 inp k out1 out2 = Err e).
Proof.
  intros Hin H1 H2 Hk L1 L2.
  pose proof (packet_fragment_ipv4_wp inp k out1 out2 Hin Hk H1 H2 L1 L2) as W.
  destruct (packet_fragment_ipv4 inp k out1 out2) as [[[o1 l1] [o2 l2]]|e|];
    unfold wp in W; [|split; [done|by exists e]|done].
  destruct W as (Hf & ? & ? & F1 & F2 & M1 & M2 & D1 & D2). split; [|done]. intros _.
  exists o1, l1, o2, l2. split; [done|].
  destruct Hf as ((Hwf & _ & Htwf & Hlt) & Hb).
  destruct (view4_sizes inp Hin Hwf Htwf) as (Hihl & Hoff & Hpl0 & Hpl & Htot & Hmax & Hle & _).
  set (off := tcp_offset_bytes (tcp_view_of (ip4_payload (ipv4_view_of inp)))) in *.
  assert (Hr : off + k <= frag_boundary inp k < off + k + 8) by (apply round_up_8; lia).
  assert (Hz : zlen (ip4_payload (ipv4_view_of inp)) = ip4_payload_len (ipv4_view_of inp)).
  { simpl. rewrite zlen_bsub; cbn in *; lia. }
  assert (Hd : zlen (bsub (ip4_payload (ipv4_view_of inp)) 0 (frag_boundary inp k)) = frag_boundary inp k)
    by (apply zlen_bsub; lia).
  assert (Hq : 0 <= frag_boundary inp k / 8 < 8192).
  { assert (Hipl : ip4_payload_len (ipv4_view_of inp)
      = bget16 inp 2 - ip4_ihl_bytes (ipv4_view_of inp)) by done.
    split; [apply Z.div_pos; lia|]. apply Z.div_lt_upper_bound; lia. }
  assert (E2 : Z.land (frag_boundary inp k / 8) 0x1FFF * 8 = frag_boundary inp k).
  { change 0x1FFF with (Z.ones 13). rewrite Z.land_ones, Z.mod_small by lia.
    unfold frag_boundary. by rewrite Z.div_mul. }
  refine (conj F1 (conj F2 (conj _ _))); [|rewrite D1, Hd; lia].
  unfold reassemble2, frag_offset_bytes, frag_more. rewrite M1, M2, D1, D2, Hd, E2.
  assert (E3 : Z.testbit (frag_boundary inp k / 8) 13 = false).
  { destruct (decide (frag_boundary inp k / 8 = 0)) as [->|]; [done|].
    apply Z.bits_above_log2; [lia|]. apply Z.log2_lt_pow2; lia. }
  rewrite E3. change (Z.land IP_FLAG_MF 0x1FFF * 8 =? 0) with true.
  change (Z.testbit IP_FLAG_MF 13) with true. cbn [andb negb].
  rewrite Z.eqb_refl. f_equal. apply take_drop.
Qed.

Lemma packet_fragment_ipv4_reassembles_witness :
  fragmentable sample_v4 3 /\
  exists o1 l1 o2 l2, packet_fragment_ipv4 sample_v4 3 sample_v4 sample_v4 = Ok ((o1, l1), (o2, l2)).
Proof.
  assert (Hs : fragmentable sample_v4 3) by (vm_compute; intuition congruence).
  split; [exact Hs|].
  assert (Hb : bytes_ok sample_v4) by (repeat constructor; vm_compute; congruence).
  destruct (proj1 (packet_fragment_ipv4_reassembles sample_v4 3 sample_v4 sample_v4 Hb Hb Hb
    ltac:(lia) (Z.le_refl _) (Z.le_refl _)) Hs) as (o1 & l1 & o2 & l2 & E & _).
  exists o1, l1, o2, l2. exact E.
Defined.

(** The sample packet with the payload bytes that make its correct TCP
    checksum zero. *)
Definition sample_zero_csum : list Z :=
  take 40 sample_v4 ++ [0xFA; 0x14] ++ str "llo, world".

(** C3: From any packet with a TCP payload [packet_make_fake_tcp_v4] builds,
    without touching memory outside its buffers, a decoy of the same length
    that differs only in TTL, IPv4 header checksum (valid) and TCP checksum
    (complemented). Provided the captured packet's own TCP checksum was valid, as
    the source assumes of a captured packet, a receiver rejects the decoy's TCP
    checksum except when the captured checksum field is 0x0000 or 0xFFFF, in
    which case it accepts it: the complement is not always invalid, as the
    comment in [fake.c] has it. Any other packet is refused with an error. *)
Theorem packet_make_fake_tcp_v4_decoy inp ttl out :
  bytes_ok inp -> bytes_ok out -> is_u8 ttl -> zlen inp <= zlen out ->
  (fakeable inp ->
     exists o l,
       packet_make_fake_tcp_v4 inp ttl out = Ok (o, l) /\ l <= zlen o /\
       let d := bsub o 0 l in
       decoy_of inp ttl d /\
       (tcp_v4_valid inp (ip4_payload (ipv4_view_of inp)) ->
          (tcp_v4_valid d (ip4_payload (ipv4_view_of d)) <->
           bget16 inp (frag_ihl inp + 16) = 0 \/ bget16 inp (frag_ihl inp + 16) = 65535))) /\
  (~ fakeable inp -> exists e, packet_make_fake_tcp_v4 inp ttl out = Err e).
Proof.
  intros Hin Ho Httl L.
  pose proof (packet_make_fake_tcp_v4_wp inp out ttl Hin Ho Httl L) as W.
  destruct (packet_make_fake_tcp_v4 inp ttl out) as [[o l]|e|];
    unfold wp in W; [|split; [done|by exists e]|done].
  destruct W as (Hf & -> & Hle & D). split; [|done]. intros _.
  exists o, (zlen inp). split; [done|]. split; [done|]. split; [exact D|]. intros Hv.
  destruct (decoy_tcp_sum inp ttl _ Hin Hf D) as (s & Hs & E1 & E2).
  pose proof (bget16_range inp (frag_ihl inp + 16) Hin) as Hr. unfold is_u16 in Hr.
  unfold tcp_v4_valid in *. rewrite E1 in Hv. rewrite E2.
  apply complement_valid; [done|lia|done].
Qed.

(** The sample packet with its correct TCP checksum. *)
Definition sample_valid : list Z := take 36 sample_v4 ++ [0x91; 0xAF] ++ drop 38 sample_v4.

(** The decoy of this packet is rejected; that of the packet whose
    correct checksum is zero is accepted. *)
Lemma packet_make_fake_tcp_v4_decoy_witness :
  (exists o l, packet_make_fake_tcp_v4 sample_valid 8 sample_v4 = Ok (o, l) /\ bget o 8 = 8 /\
     ~ tcp_v4_valid (bsub o 0 l) (ip4_payload (ipv4_view_of (bsub o 0 l)))) /\
  (exists o l, packet_make_fake_tcp_v4 sample_zero_csum 8 sample_v4 = Ok (o, l) /\
     tcp_v4_valid (bsub o 0 l) (ip4_payload (ipv4_view_of (bsub o 0 l)))).
Proof.
  assert (Hb : bytes_ok sample_v4) by (repeat constructor; vm_compute; congruence).
  assert (Hs : bytes_ok sample_valid) by (repeat constructor; vm_compute; congruence).
  assert (Hz : bytes_ok sample_zero_csum) by (repeat constructor; vm_compute; congruence).
  assert (H8 : is_u8 8) by (unfold is_u8; lia). split.
  - destruct (proj1 (packet_make_fake_tcp_v4_decoy sample_valid 8 sample_v4 Hs Hb H8 ltac:(vm_compute; congruence))
      ltac:(vm_compute; intuition congruence)) as (o & l & E & _ & D & V).
    assert (Hv : tcp_v4_valid sample_valid (ip4_payload (ipv4_view_of sample_valid))) by (vm_compute; reflexivity).
    specialize (V Hv).
    exists o, l. split; [exact E|]. split; [vm_compute in E; injection E as <- <-; reflexivity|].
    intros H. apply V in H. vm_compute in H. destruct H; congruence.
  - destruct (proj1 (packet_make_fake_tcp_v4_decoy sample_zero_csum 8 sample_v4 Hz Hb H8 ltac:(vm_compute; congruence))
      ltac:(vm_compute; intuition congruence)) as (o & l & E & _ & D & V).
    specialize (V ltac:(vm_compute; reflexivity)).
    exists o, l. split; [exact E|]. apply V. left. vm_compute. reflexivity.
Defined.

(** The complemented checksum is not always invalid: there is a packet
    with a valid TCP checksum (its field is 0x0000, the value the code itself
    computes for it) whose decoy, built by [packet_make_fake_tcp_v4], also
    has a TCP checksum a receiver accepts (0xFFFF), because 0x0000 and 0xFFFF
    both represent zero in one's-complement arithmetic. *)
Theorem decoy_checksum_can_stay_valid :
  let inp := sample_zero_csum in
  @checksum_tcp_v4 packet_err inp (ip4_payload (ipv4_view_of inp)) 32 = Ok 0 /\
  bget16 inp (frag_ihl inp + 16) = 0 /\
  tcp_v4_valid inp (ip4_payload (ipv4_view_of inp)) /\
  exists d, packet_make_fake_tcp_v4 inp 8 inp = Ok (d, zlen inp) /\
    bget16 d (frag_ihl d + 16) = 0xFFFF /\
    tcp_v4_valid d (ip4_payload (ipv4_view_of d)).
Proof.
  cbv zeta. split; [vm_compute; reflexivity|]. split; [vm_compute; reflexivity|].
  split; [vm_compute; reflexivity|].
  eexists. split; [vm_compute; reflexivity|]. split; vm_compute; reflexivity.
Qed.
