(* ===== verification/Tls.v ===== *)
(** * TLS ClientHello parsing and re-framing ([src/tls/sni_extract.c], [src/tls.c])

    [tls_parse_client_hello_sni] extracts the SNI hostname;
    [tls_find_sni_split] finds a cut in the middle of it;
    [tls_fragment_first_record] re-frames a record as two and
    [tls_coalesce_handshake_records] merges several records into one. The two
    parsers are specified by one description of a ClientHello ([sni_at]); an
    encoder of ClientHello messages gives the round trip, and the two
    re-framings are inverse to each other. *)

From stdpp Require Import base list numbers strings relations.
From Stdlib Require Import ZArith Lia.
From S2P Require Import Prelude Packet.

Definition TLS_CLIENTHELLO_CAP : Z := 16384.

(** ** The code *)

(** [((uint32_t)a << 16) | ((uint32_t)b << 8) | c]. *)
Definition be24 (a b c : Z) : Z :=
  Z.lor (Z.lor (Z.shiftl a 16) (Z.shiftl b 8)) c.

(** One round of [while (pos + 4 <= end)] of the hostname parser. *)
Definition sni_extension_step (data host_out : list Z) (fin pos : Z)
  : pres (Z + list Z) :=
  if fin <? pos + 4 then Err PACKET_ERR_UNSUPPORTED else
  extension_type ← fetch16 data pos;
  extension_len ← fetch16 data (pos + 2);
  let pos := pos + 4 in
  if fin <? pos + extension_len then Err PACKET_ERR_MALFORMED else
  if extension_type =? 0x0000 then
    if extension_len <? 5 then Err PACKET_ERR_MALFORMED else
    name_type ← fetch data (pos + 2);
    if negb (name_type =? 0x00) then Err PACKET_ERR_MALFORMED else
    name_len ← fetch16 data (pos + 3);
    if extension_len <? 5 + name_len then Err PACKET_ERR_MALFORMED else
    if (name_len =? 0) || (zlen host_out <=? name_len)
    then Err PACKET_ERR_MALFORMED else
    name ← slice data (pos + 5) name_len;
    host_out ← store host_out 0 name;
    host_out ← store host_out name_len [0];
    Ok (inr host_out)
  else Ok (inl (pos + extension_len)).

(** [host_out] is the caller's array; the result is the array after the
    call. Errors leave it untouched. *)
Definition tls_parse_client_hello_sni (data host_out : list Z) : pres (list Z) :=
  let len := zlen data in
  if zlen host_out =? 0 then Err PACKET_ERR_MALFORMED else
  if TLS_CLIENTHELLO_CAP <? len then Err PACKET_ERR_MALFORMED else
  if len <? 5 then Err PACKET_ERR_TRUNCATED else
  record_type ← fetch data 0;
  if negb (record_type =? 0x16) then Err PACKET_ERR_UNSUPPORTED else
  let pos := 5 in
  if len <? pos + 4 then Err PACKET_ERR_TRUNCATED else
  handshake_type ← fetch data pos;
  if negb (handshake_type =? 0x01) then Err PACKET_ERR_UNSUPPORTED else
  h1 ← fetch data (pos + 1);
  h2 ← fetch data (pos + 2);
  h3 ← fetch data (pos + 3);
  let handshake_len := be24 h1 h2 h3 in
  if TLS_CLIENTHELLO_CAP <? handshake_len then Err PACKET_ERR_MALFORMED else
  let pos := pos + 4 in
  if len <? pos + 34 then Err PACKET_ERR_TRUNCATED else
  let pos := pos + 34 in
  if len <? pos + 1 then Err PACKET_ERR_TRUNCATED else
  session_len ← fetch data pos;
  let pos := pos + 1 in
  if len <? pos + session_len then Err PACKET_ERR_TRUNCATED else
  let pos := pos + session_len in
  if len <? pos + 2 then Err PACKET_ERR_TRUNCATED else
  cipher_len ← fetch16 data pos;
  let pos := pos + 2 in
  if len <? pos + cipher_len then Err PACKET_ERR_TRUNCATED else
  let pos := pos + cipher_len in
  if len <? pos + 1 then Err PACKET_ERR_TRUNCATED else
  compression_len ← fetch data pos;
  let pos := pos + 1 in
  if len <? pos + compression_len then Err PACKET_ERR_TRUNCATED else
  let pos := pos + compression_len in
  if len <? pos + 2 then Err PACKET_ERR_TRUNCATED else
  extensions_len ← fetch16 data pos;
  let pos := pos + 2 in
  if TLS_CLIENTHELLO_CAP <? extensions_len then Err PACKET_ERR_MALFORMED else
  if len <? pos + extensions_len then Err PACKET_ERR_TRUNCATED else
  let fin := pos + extensions_len in
  loop (S (length data)) (sni_extension_step data host_out fin) pos.

(** [tls_find_sni_split] returns -1 on any failure: [Err tt]. *)
Definition split_extension_step (data : list Z) (fin pos : Z) : res unit (Z + Z) :=
  if fin <? pos + 4 then Err tt else
  extension_type ← fetch16 data pos;
  extension_len ← fetch16 data (pos + 2);
  let pos := pos + 4 in
  if fin <? pos + extension_len then Err tt else
  if extension_type =? 0x0000 then
    if extension_len <? 5 then Err tt else
    name_type ← fetch data (pos + 2);
    if negb (name_type =? 0x00) then Err tt else
    name_len ← fetch16 data (pos + 3);
    if extension_len <? 5 + name_len then Err tt else
    if name_len <? 2 then Err tt else
    Ok (inr (pos + 5 + name_len / 2))
  else Ok (inl (pos + extension_len)).

Definition tls_find_sni_split (data : list Z) : res unit Z :=
  let length_ := zlen data in
  if length_ <? 5 then Err tt else
  record_type ← fetch data 0;
  if negb (record_type =? 0x16) then Err tt else
  let pos := 5 in
  if length_ <? pos + 4 then Err tt else
  handshake_type ← fetch data pos;
  if negb (handshake_type =? 0x01) then Err tt else
  let pos := pos + 4 in
  if length_ <? pos + 34 then Err tt else
  let pos := pos + 34 in
  if length_ <? pos + 1 then Err tt else
  session_len ← fetch data pos;
  let pos := pos + 1 in
  if length_ <? pos + session_len then Err tt else
  let pos := pos + session_len in
  if length_ <? pos + 2 then Err tt else
  cipher_len ← fetch16 data pos;
  let pos := pos + 2 in
  if length_ <? pos + cipher_len then Err tt else
  let pos := pos + cipher_len in
  if length_ <? pos + 1 then Err tt else
  compression_len ← fetch data pos;
  let pos := pos + 1 in
  if length_ <? pos + compression_len then Err tt else
  let pos := pos + compression_len in
  if length_ <? pos + 2 then Err tt else
  extensions_len ← fetch16 data pos;
  let pos := pos + 2 in
  if length_ <? pos + extensions_len then Err tt else
  let fin := pos + extensions_len in
  loop (S (length data)) (split_extension_step data fin) pos.

(** The return value of the C function: an offset, or -1. *)
Definition tls_find_sni_split_z (data : list Z) : res unit Z :=
  match tls_find_sni_split data with
  | Ok p => Ok p
  | Err _ => Ok (-1)
  | Fault => Fault
  end.

Definition tls_fragment_first_record (data : list Z) (at_ : Z) (out : list Z)
  : res unit (list Z * Z) :=
  let len := zlen data in
  if len <? 6 then Err tt else
  d0 ← fetch data 0;
  if negb (d0 =? 0x16) then Err tt else
  d1 ← fetch data 1;
  if negb (d1 =? 0x03) then Err tt else
  record_len ← fetch16 data 3;
  if (at_ <? 1) || (record_len <=? at_) || (len - 5 <=? at_) || (zlen out <? len + 5)
  then Err tt else
  head ← slice data 0 3;
  out ← store out 0 head;
  out ← store out 3 [u8 (Z.shiftr at_ 8)];
  out ← store out 4 [u8 at_];
  body1 ← slice data 5 at_;
  out ← store out 5 body1;
  out ← store out (5 + at_) head;
  out ← store out (5 + at_ + 3) [u8 (Z.shiftr (record_len - at_) 8)];
  out ← store out (5 + at_ + 4) [u8 (record_len - at_)];
  body2 ← slice data (5 + at_) (len - 5 - at_);
  out ← store out (10 + at_) body2;
  Ok (out, len + 5).

Definition tls_record_split_point (data : list Z) : res unit Z :=
  split ← tls_find_sni_split_z data;
  if 5 <? split then Ok (split - 5) else Ok 1.

(** One round of the record walk of [tls_coalesce_handshake_records]; the
    state is the output array with [pos], [body], [declared], [records]. *)
Record coalesce_state := mk_cs {
  cs_out : list Z; cs_pos : Z; cs_body : Z; cs_declared : Z; cs_records : Z
}.

Definition coalesce_step (inp : list Z) (s : coalesce_state)
  : res unit (coalesce_state + coalesce_state) :=
  let len := zlen inp in
  if len <? cs_pos s + 5 then Ok (inr s) else
  t ← fetch inp (cs_pos s);
  if negb (t =? 0x16) then Ok (inr s) else
  rlen ← fetch16 inp (cs_pos s + 3);
  let avail := len - cs_pos s - 5 in
  let avail := if rlen <? avail then rlen else avail in
  if zlen (cs_out s) <? cs_body s + avail then Err tt else
  chunk ← slice inp (cs_pos s + 5) avail;
  out ← store (cs_out s) (cs_body s) chunk;
  let s' := mk_cs out (cs_pos s + (5 + avail)) (cs_body s + avail)
                  (cs_declared s + rlen) (cs_records s + 1) in
  if avail <? rlen then Ok (inr s') else Ok (inl s').

(** After the walk: the merged record's header and the bytes that follow. *)
Definition coalesce_finish (inp : list Z) (s : coalesce_state)
  : res unit (list Z * Z) :=
  let len := zlen inp in
  if (cs_records s <? 2) || (16384 <? cs_declared s)
     || (zlen (cs_out s) <? cs_body s + (len - cs_pos s))
  then Err tt else
  out ← store (cs_out s) 0 [0x16];
  in1 ← fetch inp 1;
  out ← store out 1 [in1];
  in2 ← fetch inp 2;
  out ← store out 2 [in2];
  out ← store out 3 [u8 (Z.shiftr (cs_declared s) 8)];
  out ← store out 4 [u8 (Z.land (cs_declared s) 0xff)];
  rest ← slice inp (cs_pos s) (len - cs_pos s);
  out ← store out (cs_body s) rest;
  Ok (out, cs_body s + len - cs_pos s).

Definition tls_coalesce_handshake_records (inp out : list Z)
  : res unit (list Z * Z) :=
  let len := zlen inp in
  if len <? 5 then Err tt else
  in0 ← fetch inp 0;
  if negb (in0 =? 0x16) then Err tt else
  s ← loop (S (length inp)) (coalesce_step inp) (mk_cs out 0 5 0 0);
  coalesce_finish inp s.

(** ** Specification: where the hostname of a ClientHello is *)

Section hello.
Context (data : list Z).

Definition ciphers_pos : Z := 44 + bget data 43.
Definition comp_pos : Z := ciphers_pos + 2 + bget16 data ciphers_pos.
Definition exts_pos : Z := comp_pos + 1 + bget data comp_pos.
Definition exts_start : Z := exts_pos + 2.
Definition exts_end : Z := exts_start + bget16 data exts_pos.

(** The fixed part of a ClientHello in a handshake record is all there. *)
Definition hello_wf : Prop :=
  9 <= zlen data /\ bget data 0 = 0x16 /\ bget data 5 = 0x01 /\
  44 <= zlen data /\ ciphers_pos + 2 <= zlen data /\
  comp_pos + 1 <= zlen data /\ exts_start <= zlen data /\ exts_end <= zlen data.

(** From an extension that is not server_name to the next one. *)
Definition ext_next (p q : Z) : Prop :=
  p + 4 <= exts_end /\ bget16 data p <> 0 /\ q = p + 4 + bget16 data (p + 2) /\
  q <= exts_end.

(** The [n]-byte hostname starts at [q]: the first server_name extension is
    reached over complete extensions and holds a host_name entry. *)
Definition sni_at (q n : Z) : Prop :=
  hello_wf /\
  exists p, rtc ext_next exts_start p /\
    p + 4 <= exts_end /\ bget16 data p = 0 /\
    p + 4 + bget16 data (p + 2) <= exts_end /\ 5 <= bget16 data (p + 2) /\
    bget data (p + 6) = 0 /\ n = bget16 data (p + 7) /\
    5 + n <= bget16 data (p + 2) /\ q = p + 9.

(** What the hostname parser requires on top. *)
Definition sni_extractable (host_size q n : Z) : Prop :=
  sni_at q n /\ zlen data <= TLS_CLIENTHELLO_CAP /\
  be24 (bget data 6) (bget data 7) (bget data 8) <= TLS_CLIENTHELLO_CAP /\
  bget16 data exts_pos <= TLS_CLIENTHELLO_CAP /\
  0 < n < host_size.
End hello.

(** ** Lemmas *)

Section hello_lemmas.
Context (data : list Z) (Hok : bytes_ok data).

Lemma ext_next_det p q q' : ext_next data p q -> ext_next data p q' -> q = q'.
Proof. intros (_ & _ & -> & _) (_ & _ & -> & _). done. Qed.

Lemma ext_walk_ge a p : rtc (ext_next data) a p -> a <= p.
Proof.
  induction 1 as [|a b p (_ & _ & -> & _) _ IH]; [lia|].
  pose proof (bget16_range data (a + 2) Hok). unfold is_u16 in *. lia.
Qed.

(** A walk that is stuck at [p] on anything but a valid server_name
    extension excludes every hostname. *)
Lemma sni_at_stuck p q n :
  rtc (ext_next data) (exts_start data) p -> (forall r, ~ ext_next data p r) ->
  sni_at data q n ->
  q = p + 9 /\ p + 4 <= exts_end data /\ bget16 data p = 0 /\
  p + 4 + bget16 data (p + 2) <= exts_end data /\ 5 <= bget16 data (p + 2) /\
  bget data (p + 6) = 0 /\ n = bget16 data (p + 7) /\ 5 + n <= bget16 data (p + 2).
Proof.
  intros Hw Hend (_ & p' & Hw' & H4 & H0 & Hl & H5 & Ht & Hn & H5n & Hq).
  assert (p = p') as <-.
  { apply (rtc_det_end (ext_next data) ext_next_det (exts_start data)); try done.
    intros r (_ & Hne & _). done. }
  done.
Qed.

Lemma hello_bounds :
  0 <= bget data 43 <= 255 /\ 0 <= bget16 data (ciphers_pos data) <= 65535 /\
  0 <= bget data (comp_pos data) <= 255 /\ 0 <= bget16 data (exts_pos data) <= 65535.
Proof.
  pose proof (bytes_ok_get data 43 Hok). pose proof (bytes_ok_get data (comp_pos data) Hok).
  pose proof (bget16_range data (ciphers_pos data) Hok).
  pose proof (bget16_range data (exts_pos data) Hok).
  unfold is_u8, is_u16 in *. lia.
Qed.

(** The parts of a ClientHello follow each other. *)
Lemma hello_order :
  44 <= ciphers_pos data /\ ciphers_pos data + 2 <= comp_pos data /\
  comp_pos data + 1 <= exts_pos data /\ exts_pos data + 1 < exts_start data /\
  exts_start data <= exts_end data.
Proof.
  pose proof hello_bounds as HB. unfold exts_end, exts_start.
  unfold exts_pos at 1. unfold comp_pos at 1. unfold ciphers_pos at 1. lia.
Qed.
End hello_lemmas.

(** Folds the running position of the parsers into the named positions. *)
Ltac fold_hello data :=
  change (5 + 4 + 34 + 1) with 44 in *; change (5 + 4 + 34) with 43 in *;
  change (5 + 4) with 9 in *; change (5 + 1) with 6 in *;
  change (5 + 2) with 7 in *; change (5 + 3) with 8 in *;
  change (44 + bget data 43) with (ciphers_pos data) in *;
  change (ciphers_pos data + 2 + bget16 data (ciphers_pos data)) with (comp_pos data) in *;
  change (comp_pos data + 1 + bget data (comp_pos data)) with (exts_pos data) in *;
  change (exts_pos data + 2) with (exts_start data) in *;
  change (exts_start data + bget16 data (exts_pos data)) with (exts_end data) in *.

(** Refutes a hostname when the fixed part of the ClientHello is broken. *)
Ltac hello_err data :=
  intros ? ? ?;
  repeat match goal with
  | H : sni_extractable _ _ _ _ |- _ => destruct H as (H & ? & ? & ? & ?)
  end;
  match goal with
  | H : sni_at _ _ _ |- _ => destruct H as [(? & ? & ? & ? & ? & ? & ? & ?) _]
  end;
  lia.

Section parsers.
Context (data : list Z) (Hok : bytes_ok data).

(** The state of both extension walks. *)
Definition at_extension (p : Z) : Prop :=
  rtc (ext_next data) (exts_start data) p /\ p <= exts_end data.

Lemma at_extension_step p :
  at_extension p -> p + 4 <= exts_end data -> bget16 data p <> 0 ->
  p + 4 + bget16 data (p + 2) <= exts_end data ->
  at_extension (p + 4 + bget16 data (p + 2)).
Proof.
  intros [Hw _] ???. split; [|done]. eapply rtc_r; [exact Hw|]. by repeat split.
Qed.

(** No extension is reached from [p]. *)
Lemma no_ext_next p :
  exts_end data < p + 4 \/ bget16 data p = 0 \/
  exts_end data < p + 4 + bget16 data (p + 2) ->
  forall r, ~ ext_next data p r.
Proof. intros H r (? & ? & -> & ?). lia. Qed.

Lemma split_extension_step_wp p :
  hello_wf data -> at_extension p ->
  wp (split_extension_step data (exts_end data) p)
    (fun x => match x with
     | inl p' => at_extension p' /\ p < p'
     | inr r => exists q n, sni_at data q n /\ 2 <= n /\ r = q + n / 2
     end)
    (fun _ => forall q n, sni_at data q n -> n < 2).
Proof.
  intros Hwf [Hw Hp]. pose proof Hwf as (_ & _ & _ & _ & _ & _ & Hs & He).
  pose proof (hello_bounds data Hok) as HB.
  pose proof (ext_walk_ge data Hok _ _ Hw).
  pose proof (bget16_range data (p + 2) Hok) as Hl. unfold is_u16 in Hl.
  pose proof (hello_order data Hok).
  assert (Hstuck : (forall r, ~ ext_next data p r) ->
    (exts_end data < p + 4 \/ bget16 data p <> 0 \/
     exts_end data < p + 4 + bget16 data (p + 2) \/ bget16 data (p + 2) < 5 \/
     bget data (p + 6) <> 0 \/ bget16 data (p + 2) < 5 + bget16 data (p + 7) \/
     bget16 data (p + 7) < 2) -> forall q n, sni_at data q n -> n < 2).
  { intros Hend Hor q n Hat.
    pose proof (sni_at_stuck data p q n Hw Hend Hat). lia. }
  unfold split_extension_step. cbv zeta.
  replace (p + 4 + 2) with (p + 6) by lia. replace (p + 4 + 3) with (p + 7) by lia.
  wp_go; try (apply Hstuck; [apply no_ext_next|]; lia).
  - exists (p + 9), (bget16 data (p + 7)).
    refine (conj _ (conj _ _)); [|lia|f_equal; lia].
    split; [done|]. exists p. repeat (refine (conj _ _)); try done; lia.
  - split; [|lia]. by apply at_extension_step.
Qed.

Lemma exts_measure p p' :
  hello_wf data -> at_extension p' -> p < p' ->
  (Z.to_nat (exts_end data - p') < Z.to_nat (exts_end data - p))%nat.
Proof. intros _ [_ ?] ?. lia. Qed.

Lemma exts_fuel :
  hello_wf data -> (Z.to_nat (exts_end data - exts_start data) < S (length data))%nat.
Proof.
  intros (_ & _ & _ & _ & _ & _ & _ & ?). pose proof (hello_order data Hok).
  unfold zlen in *. lia.
Qed.

Lemma at_first_extension : at_extension (exts_start data).
Proof.
  split; [apply rtc_refl|]. pose proof (hello_order data Hok). lia.
Qed.

Lemma tls_find_sni_split_wp :
  wp (tls_find_sni_split data)
    (fun r => exists q n, sni_at data q n /\ 2 <= n /\ r = q + n / 2)
    (fun _ => forall q n, sni_at data q n -> n < 2).
Proof.
  unfold tls_find_sni_split. pose proof (hello_order data Hok) as HO.
  pose proof (hello_bounds data Hok) as HB.
  repeat (wp_step; cbv beta zeta; fold_hello data).
  all: try (hello_err data).
  assert (Hwf : hello_wf data) by (unfold hello_wf; lia).
  eapply (wp_loop at_extension (fun p => Z.to_nat (exts_end data - p))).
  - intros p Hp. eapply wp_mono; [| |by apply split_extension_step_wp]; [|done].
    intros [p'|r]; [|done]. intros [??]. split; [done|]. by apply exts_measure.
  - apply at_first_extension.
  - by apply exts_fuel.
Qed.

Lemma sni_extension_step_wp host_out p :
  hello_wf data -> at_extension p -> bytes_ok host_out ->
  zlen data <= TLS_CLIENTHELLO_CAP ->
  be24 (bget data 6) (bget data 7) (bget data 8) <= TLS_CLIENTHELLO_CAP ->
  bget16 data (exts_pos data) <= TLS_CLIENTHELLO_CAP ->
  wp (sni_extension_step data host_out (exts_end data) p)
    (fun x => match x with
     | inl p' => at_extension p' /\ p < p'
     | inr h => exists q n, sni_extractable data (zlen host_out) q n /\
                  h = bsub data q n ++ 0 :: bfrom host_out (n + 1)
     end)
    (fun _ => forall q n, ~ sni_extractable data (zlen host_out) q n).
Proof.
  intros Hwf [Hw Hp] Hoh Hcap1 Hcap2 Hcap3.
  pose proof Hwf as (_ & _ & _ & _ & _ & _ & Hs & He).
  pose proof (ext_walk_ge data Hok _ _ Hw). pose proof (hello_order data Hok).
  pose proof (bget16_range data (p + 2) Hok) as Hl.
  pose proof (bget16_range data (p + 7) Hok) as Hn. unfold is_u16 in Hl, Hn.
  assert (Hstuck : (forall r, ~ ext_next data p r) ->
    (exts_end data < p + 4 \/ bget16 data p <> 0 \/
     exts_end data < p + 4 + bget16 data (p + 2) \/ bget16 data (p + 2) < 5 \/
     bget data (p + 6) <> 0 \/ bget16 data (p + 2) < 5 + bget16 data (p + 7) \/
     bget16 data (p + 7) = 0 \/ zlen host_out <= bget16 data (p + 7)) ->
    forall q n, ~ sni_extractable data (zlen host_out) q n).
  { intros Hend Hor q n (Hat & _ & _ & _ & ?).
    pose proof (sni_at_stuck data p q n Hw Hend Hat). lia. }
  unfold sni_extension_step. cbv zeta.
  replace (p + 4 + 2) with (p + 6) by lia. replace (p + 4 + 3) with (p + 7) by lia.
  replace (p + 4 + 5) with (p + 9) by lia.
  do 17 (try (wp_step; cbv beta)); try (apply Hstuck; [apply no_ext_next|]; lia).
  - assert (Hz : zlen (bsub data (p + 9) (bget16 data (p + 7))) = bget16 data (p + 7))
      by (apply zlen_bsub; lia).
    apply wp_bind, wp_store; [lia|]. apply wp_bind, wp_store.
    { rewrite zlen_bput by lia. change (zlen [0]) with 1. lia. }
    apply wp_ok. exists (p + 9), (bget16 data (p + 7)). split.
    + refine (conj _ (conj _ (conj _ (conj _ _)))); try done; [|lia].
      split; [done|]. exists p. repeat (refine (conj _ _)); try done; lia.
    + rewrite <- Hz at 2 4. apply bput_terminated. lia.
  - split; [|lia]. by apply at_extension_step.
Qed.

Lemma tls_parse_client_hello_sni_wp host_out :
  bytes_ok host_out ->
  wp (tls_parse_client_hello_sni data host_out)
    (fun h => exists q n, sni_extractable data (zlen host_out) q n /\
                h = bsub data q n ++ 0 :: bfrom host_out (n + 1))
    (fun _ => forall q n, ~ sni_extractable data (zlen host_out) q n).
Proof.
  intros Hoh. unfold tls_parse_client_hello_sni.
  pose proof (hello_order data Hok) as HO. pose proof (hello_bounds data Hok) as HB.
  repeat (wp_step; cbv beta zeta; fold_hello data).
  all: try (hello_err data).
  assert (Hwf : hello_wf data) by (unfold hello_wf; lia).
  eapply (wp_loop at_extension (fun p => Z.to_nat (exts_end data - p))).
  - intros p Hp. eapply wp_mono; [| |by apply sni_extension_step_wp]; [|done].
    intros [p'|r]; [|done]. intros [??]. split; [done|]. by apply exts_measure.
  - apply at_first_extension.
  - by apply exts_fuel.
Qed.
End parsers.

(** Two descriptions of a hostname's place agree. *)
Lemma sni_at_unique data q n q' n' :
  sni_at data q n -> sni_at data q' n' -> q = q' /\ n = n'.
Proof.
  intros (Hwf & p & Hw & ? & H0 & ? & ? & ? & Hn & ? & Hq) Hat.
  pose proof (sni_at_stuck data p q' n' Hw) as Hs.
  destruct Hs as (-> & _ & _ & _ & _ & _ & -> & _); [|done|done].
  by intros r (_ & ? & _).
Qed.

Lemma sni_at_bounds data q n :
  bytes_ok data -> sni_at data q n -> 0 <= q /\ 0 <= n /\ q + n <= zlen data.
Proof.
  intros Hd (Hwf & p & Hw & ? & H0 & ? & ? & ? & -> & ? & ->).
  pose proof (ext_walk_ge data Hd _ _ Hw). pose proof (hello_order data Hd).
  pose proof (bget16_range data (p + 7) Hd). unfold is_u16, hello_wf in *. lia.
Qed.

Lemma sni_at_after data q n : bytes_ok data -> sni_at data q n -> 43 <= q.
Proof.
  intros Hd (Hwf & p & Hw & ? & H0 & ? & ? & ? & -> & ? & ->).
  pose proof (ext_walk_ge data Hd _ _ Hw). pose proof (hello_order data Hd). unfold hello_wf in *. lia.
Qed.

(** ** An encoder of ClientHello messages

    Written from RFC 8446 (section 4.1.2) and RFC 6066, independently of the
    parsers: a handshake record with one ClientHello whose extensions are
    [ch_before], a server_name extension for [ch_name], and [ch_after]. *)

Record client_hello := mk_client_hello {
  ch_random : list Z;     (* legacy_version and random: 34 bytes *)
  ch_session : list Z;
  ch_ciphers : list Z;
  ch_compression : list Z;
  ch_before : list (Z * list Z);
  ch_name : list Z;
  ch_after : list (Z * list Z)
}.

Definition enc_ext (e : Z * list Z) : list Z :=
  bytes16 e.1 ++ bytes16 (zlen e.2) ++ e.2.
Definition enc_exts (l : list (Z * list Z)) : list Z := concat (map enc_ext l).
Definition server_name_body (name : list Z) : list Z :=
  bytes16 (3 + zlen name) ++ 0 :: bytes16 (zlen name) ++ name.
Definition enc_all_exts (c : client_hello) : list Z :=
  enc_exts (ch_before c) ++ enc_ext (0, server_name_body (ch_name c))
  ++ enc_exts (ch_after c).
Definition enc_body (c : client_hello) : list Z :=
  ch_random c ++ zlen (ch_session c) :: ch_session c
  ++ bytes16 (zlen (ch_ciphers c)) ++ ch_ciphers c
  ++ zlen (ch_compression c) :: ch_compression c
  ++ bytes16 (zlen (enc_all_exts c)) ++ enc_all_exts c.
Definition bytes24 (v : Z) : list Z :=
  [u8 (Z.shiftr v 16); u8 (Z.shiftr v 8); u8 v].
Definition enc_client_hello (c : client_hello) : list Z :=
  [0x16; 0x03; 0x01] ++ bytes16 (4 + zlen (enc_body c))
  ++ 0x01 :: bytes24 (zlen (enc_body c)) ++ enc_body c.

Definition ext_ok (e : Z * list Z) : Prop :=
  0 < e.1 < 65536 /\ zlen e.2 < 65536 /\ bytes_ok e.2.

Definition client_hello_ok (c : client_hello) : Prop :=
  zlen (ch_random c) = 34 /\ bytes_ok (ch_random c) /\
  zlen (ch_session c) <= 32 /\ bytes_ok (ch_session c) /\
  bytes_ok (ch_ciphers c) /\
  zlen (ch_compression c) < 256 /\ bytes_ok (ch_compression c) /\
  Forall ext_ok (ch_before c) /\ Forall ext_ok (ch_after c) /\
  bytes_ok (ch_name c) /\ zlen (enc_client_hello c) <= TLS_CLIENTHELLO_CAP.

Lemma zlen_enc_ext e : zlen (enc_ext e) = 4 + zlen e.2.
Proof. unfold enc_ext. rewrite !zlen_app, !zlen_bytes16. lia. Qed.

Lemma enc_exts_cons e l : enc_exts (e :: l) = enc_ext e ++ enc_exts l.
Proof. done. Qed.

Lemma bytes_ok_enc_ext e : bytes_ok e.2 -> bytes_ok (enc_ext e).
Proof. intros. unfold enc_ext. auto with bytes. Qed.

Lemma bytes_ok_enc_exts l : Forall ext_ok l -> bytes_ok (enc_exts l).
Proof.
  induction 1 as [|e l (_ & _ & He) _ IH]; [apply bytes_ok_nil|].
  rewrite enc_exts_cons. apply bytes_ok_app; [by apply bytes_ok_enc_ext|done].
Qed.

(** An encoded extension read back at its offset. *)
Lemma occurs_ext data p e t :
  0 <= e.1 < 65536 -> zlen e.2 < 65536 -> occurs data p (enc_ext e ++ t) ->
  bget16 data p = e.1 /\ bget16 data (p + 2) = zlen e.2 /\
  occurs data (p + 4) e.2 /\ occurs data (p + 4 + zlen e.2) t.
Proof.
  intros Hty Hln H. unfold enc_ext in H. rewrite <- !app_assoc in H.
  pose proof (zlen_nonneg e.2) as Hz.
  apply occurs_16 in H as [H1 H]; [|unfold is_u16; lia].
  apply occurs_16 in H as [H2 H]; [|unfold is_u16; lia].
  rewrite <- Z.add_assoc in H. by apply occurs_app in H as [H3 H].
Qed.

(** The walk crosses encoded extensions. *)
Lemma ext_walk_enc data p l t :
  Forall ext_ok l -> occurs data p (enc_exts l ++ t) ->
  p + zlen (enc_exts l) <= exts_end data ->
  rtc (ext_next data) p (p + zlen (enc_exts l)) /\ occurs data (p + zlen (enc_exts l)) t.
Proof.
  intros Hl. revert p. induction Hl as [|e l (He1 & He2 & He3) Hl IH]; intros p Ho Hend.
  { change (enc_exts []) with (@nil Z) in *. rewrite zlen_nil, Z.add_0_r in *.
    split; [apply rtc_refl|done]. }
  rewrite enc_exts_cons in *. rewrite <- app_assoc in Ho. rewrite zlen_app, zlen_enc_ext in *.
  pose proof (zlen_nonneg (enc_exts l)) as Hz. pose proof (zlen_nonneg e.2) as Hz'.
  apply occurs_ext in Ho as (H1 & H2 & _ & Ho); [|lia|lia].
  destruct (IH _ Ho) as [Hw Ho']; [lia|].
  replace (p + (4 + zlen e.2 + zlen (enc_exts l)))
    with (p + 4 + zlen e.2 + zlen (enc_exts l)) by lia.
  split; [|done]. eapply rtc_l; [|exact Hw]. unfold ext_next. lia.
Qed.

Lemma bytes_ok_server_name name :
  bytes_ok name -> bytes_ok (server_name_body name).
Proof.
  intros. unfold server_name_body. apply bytes_ok_app; [auto with bytes|].
  apply bytes_ok_cons. split; [done|]. auto with bytes.
Qed.

Lemma zlen_server_name name : zlen (server_name_body name) = 5 + zlen name.
Proof.
  unfold server_name_body. rewrite zlen_app, zlen_cons, zlen_app, !zlen_bytes16. lia.
Qed.

Lemma be24_bytes24 v :
  0 <= v < 2 ^ 24 -> be24 (u8 (Z.shiftr v 16)) (u8 (Z.shiftr v 8)) (u8 v) = v.
Proof.
  intros Hv. rewrite <- (bytes32_be32 v) at 4 by (unfold is_u32; lia).
  replace (u8 (Z.shiftr v 24)) with 0; [done|].
  rewrite Z.shiftr_div_pow2, Z.div_small by lia. done.
Qed.

Lemma zlen_enc_body c :
  zlen (enc_body c) =
    zlen (ch_random c) + zlen (ch_session c) + zlen (ch_ciphers c) +
    zlen (ch_compression c) + zlen (enc_all_exts c) + 6.
Proof.
  unfold enc_body. rewrite !zlen_app, !zlen_cons, !zlen_app, !zlen_cons, !zlen_app.
  rewrite !zlen_bytes16. lia.
Qed.

Lemma zlen_enc_all_exts c :
  zlen (enc_all_exts c) =
    zlen (enc_exts (ch_before c)) + (9 + zlen (ch_name c)) + zlen (enc_exts (ch_after c)).
Proof.
  unfold enc_all_exts. rewrite !zlen_app, zlen_enc_ext. cbn [snd].
  rewrite zlen_server_name. lia.
Qed.

Lemma bytes_ok_enc_client_hello c : client_hello_ok c -> bytes_ok (enc_client_hello c).
Proof.
  intros (Hr & Hr' & Hs & Hs' & Hc' & Hcomp & Hcomp' & Hb & Ha & Hn & _).
  pose proof (zlen_nonneg (ch_session c)). pose proof (zlen_nonneg (ch_compression c)).
  assert (bytes_ok (enc_all_exts c)).
  { unfold enc_all_exts. apply bytes_ok_app; [by apply bytes_ok_enc_exts|].
    apply bytes_ok_app; [|by apply bytes_ok_enc_exts].
    by apply bytes_ok_enc_ext, bytes_ok_server_name. }
  assert (bytes_ok (enc_body c)).
  { unfold enc_body. repeat first
      [ assumption | apply bytes_ok_app | apply bytes_ok_bytes16
      | apply bytes_ok_cons; split; [unfold is_u8; lia|] ]. }
  unfold enc_client_hello. apply bytes_ok_app; [by repeat constructor|].
  apply bytes_ok_app; [apply bytes_ok_bytes16|]. apply bytes_ok_cons. split; [done|].
  apply bytes_ok_app; [|done]. repeat constructor; apply u8_range.
Qed.

(** The pieces of an encoded ClientHello at their offsets. *)
Lemma enc_client_hello_layout c :
  client_hello_ok c ->
  let data := enc_client_hello c in
  bytes_ok data /\ bget data 0 = 0x16 /\ bget data 5 = 0x01 /\
  be24 (bget data 6) (bget data 7) (bget data 8) = zlen (enc_body c) /\
  zlen (enc_body c) <= zlen data /\ hello_wf data /\ bget16 data (exts_pos data) = zlen (enc_all_exts c) /\
  occurs data (exts_start data) (enc_all_exts c).
Proof.
  intros Hc data.
  pose proof Hc as (Hr & Hr' & Hs & Hs' & Hc' & Hcomp & Hcomp' & Hb & Ha & Hn & Hcap).
  assert (Hdata : data = enc_client_hello c) by done. clearbody data.
  rewrite <- Hdata in Hcap. pose proof (occurs_all data) as Ho.
  rewrite Hdata in Ho at 2. unfold enc_client_hello in Ho. cbn [app] in Ho.
  apply occurs_cons in Ho as [H0 Ho]. apply occurs_cons in Ho as [H1 Ho].
  apply occurs_cons in Ho as [H2 Ho]. change (0 + 1 + 1 + 1) with 3 in Ho.
  apply occurs_app in Ho as [_ Ho]. rewrite zlen_bytes16 in Ho.
  apply occurs_cons in Ho as [H5 Ho]. unfold bytes24 in Ho. cbn [app] in Ho.
  apply occurs_cons in Ho as [H6 Ho]. apply occurs_cons in Ho as [H7 Ho].
  apply occurs_cons in Ho as [H8 Ho]. change (3 + 2) with 5 in *.
  change (5 + 1 + 1 + 1 + 1) with 9 in *. change (5 + 1) with 6 in *.
  change (6 + 1) with 7 in *. change (7 + 1) with 8 in *.
  pose proof (occurs_hi _ _ _ Ho) as Hhi.
  pose proof (zlen_enc_body c) as Hz. pose proof (zlen_nonneg (ch_session c)).
  pose proof (zlen_nonneg (ch_ciphers c)). pose proof (zlen_nonneg (ch_compression c)).
  pose proof (zlen_nonneg (enc_all_exts c)). unfold TLS_CLIENTHELLO_CAP in Hcap.
  assert (Hlen : be24 (bget data 6) (bget data 7) (bget data 8) = zlen (enc_body c)).
  { rewrite H6, H7, H8. apply be24_bytes24. lia. }
  unfold enc_body in Ho.
  apply occurs_app in Ho as [_ Ho]. rewrite Hr in Ho. change (9 + 34) with 43 in Ho.
  apply occurs_cons in Ho as [Hses Ho]. change (43 + 1) with 44 in Ho.
  apply occurs_app in Ho as [_ Ho]. rewrite <- Hses in Ho.
  change (44 + bget data 43) with (ciphers_pos data) in Ho.
  apply occurs_16 in Ho as [Hcip Ho]; [|unfold is_u16; lia].
  apply occurs_app in Ho as [_ Ho]. rewrite <- Hcip in Ho.
  change (ciphers_pos data + 2 + bget16 data (ciphers_pos data)) with (comp_pos data) in Ho.
  apply occurs_cons in Ho as [Hcmp Ho]. apply occurs_app in Ho as [_ Ho].
  rewrite <- Hcmp in Ho.
  change (comp_pos data + 1 + bget data (comp_pos data)) with (exts_pos data) in Ho.
  apply occurs_16 in Ho as [Hext Ho]; [|unfold is_u16; lia].
  change (exts_pos data + 2) with (exts_start data) in Ho.
  assert (Hok : bytes_ok data) by (rewrite Hdata; by apply bytes_ok_enc_client_hello).
  pose proof (hello_order data Hok) as HO. pose proof (occurs_hi _ _ _ Ho) as Hend.
  rewrite <- Hext in Hend.
  change (exts_start data + bget16 data (exts_pos data)) with (exts_end data) in Hend.
  repeat (refine (conj _ _)); try done; lia.
Qed.

(** The encoder's hostname is where the specification looks for it. *)
Lemma enc_sni_extractable c host_size :
  client_hello_ok c -> 0 < zlen (ch_name c) < host_size ->
  exists q, sni_extractable (enc_client_hello c) host_size q (zlen (ch_name c)) /\
            bsub (enc_client_hello c) q (zlen (ch_name c)) = ch_name c.
Proof.
  intros Hc Hsz. pose proof Hc as (_ & _ & _ & _ & _ & _ & _ & Hb & _ & _ & Hcap).
  destruct (enc_client_hello_layout c Hc) as (Hok & H0 & H5 & Hlen & Hbl & Hwf & Hext & Ho).
  set (data := enc_client_hello c) in *. clearbody data.
  pose proof (occurs_hi _ _ _ Ho) as Hend. pose proof (occurs_lo _ _ _ Ho) as Hlo.
  pose proof (zlen_enc_body c) as Hz. pose proof (zlen_enc_all_exts c) as Hza.
  pose proof (zlen_nonneg (ch_random c)). pose proof (zlen_nonneg (ch_session c)).
  pose proof (zlen_nonneg (ch_ciphers c)). pose proof (zlen_nonneg (ch_compression c)).
  pose proof (zlen_nonneg (enc_exts (ch_before c))).
  pose proof (zlen_nonneg (enc_exts (ch_after c))).
  assert (He : exts_end data = exts_start data + zlen (enc_all_exts c))
    by (unfold exts_end; by rewrite Hext).
  destruct (ext_walk_enc data (exts_start data) (ch_before c)
    (enc_ext (0, server_name_body (ch_name c)) ++ enc_exts (ch_after c)))
    as [Hw Ho']; [done|exact Ho|lia|].
  set (p := exts_start data + zlen (enc_exts (ch_before c))) in *.
  apply occurs_ext in Ho' as (Ht & Hl & Hbody & _); cbn [fst snd] in *;
    rewrite ?zlen_server_name in *; [|lia|unfold TLS_CLIENTHELLO_CAP in *; lia].
  unfold server_name_body in Hbody.
  apply occurs_app in Hbody as [_ Hbody]. rewrite zlen_bytes16 in Hbody.
  apply occurs_cons in Hbody as [Hty Hbody].
  apply occurs_16 in Hbody as [Hnl Hbody];
    [|unfold TLS_CLIENTHELLO_CAP, is_u16 in *; lia].
  replace (p + 4 + 2) with (p + 6) in * by lia. replace (p + 6 + 1) with (p + 7) in * by lia.
  replace (p + 7 + 2) with (p + 9) in * by lia.
  exists (p + 9). split; [|by apply occurs_bsub].
  refine (conj _ (conj _ (conj _ (conj _ _)))); try lia.
  split; [done|]. exists p. rewrite Ht, Hl, Hty, Hnl, He.
  repeat (refine (conj _ _)); try done; lia.
Qed.

(** ** Properties of the parsers *)

(** C4: [tls_parse_client_hello_sni] on any bytes never reads or writes out
    of bounds and always terminates; it returns [PACKET_OK] exactly when the
    ClientHello has a server_name extension with a host_name that fits the
    caller's buffer, and then the buffer holds that name, NUL-terminated,
    with the rest of the buffer unchanged. *)
Theorem tls_parse_client_hello_sni_correct data host_out :
  bytes_ok data -> bytes_ok host_out ->
  match tls_parse_client_hello_sni data host_out with
  | Ok h => exists q n, sni_extractable data (zlen host_out) q n /\
              h = bsub data q n ++ 0 :: bfrom host_out (n + 1)
  | Err _ => forall q n, ~ sni_extractable data (zlen host_out) q n
  | Fault => False
  end.
Proof. intros Hd Hh. exact (tls_parse_client_hello_sni_wp data Hd host_out Hh). Qed.

Definition sample_hello : client_hello :=
  mk_client_hello (0x03 :: 0x03 :: repeat 7 32) [1; 2; 3] [0x13; 0x01] [0]
    [(0x002b, [2; 3; 4])] (str "example.com") [(0x000a, [0; 2; 0; 23])].
Definition sample_host : list Z := repeat 0xaa 16.

Lemma tls_parse_client_hello_sni_correct_witness :
  bytes_ok (enc_client_hello sample_hello) /\ bytes_ok sample_host /\
  tls_parse_client_hello_sni (enc_client_hello sample_hello) sample_host
    = Ok (str "example.com" ++ 0 :: repeat 0xaa 4) /\
  exists q n, sni_extractable (enc_client_hello sample_hello) 16 q n.
Proof.
  assert (H1 : bytes_ok (enc_client_hello sample_hello))
    by (apply bytes_okb_ok; vm_compute; reflexivity).
  assert (H2 : bytes_ok sample_host) by (apply bytes_okb_ok; vm_compute; reflexivity).
  refine (conj H1 (conj H2 (conj eq_refl _))).
  pose proof (tls_parse_client_hello_sni_correct _ _ H1 H2) as H.
  replace (tls_parse_client_hello_sni (enc_client_hello sample_hello) sample_host)
    with (@Ok packet_err _ (str "example.com" ++ 0 :: repeat 0xaa 4)) in H
    by (vm_compute; reflexivity).
  destruct H as (q & n & Hs & _). by exists q, n.
Defined.

(** C5: when the hostname parser extracts a name of at least two bytes, the
    split finder run on the same bytes returns an offset strictly inside
    exactly that name: its middle. *)
Theorem tls_split_cuts_extracted_name data host_out h :
  bytes_ok data -> bytes_ok host_out ->
  tls_parse_client_hello_sni data host_out = Ok h ->
  exists q n,
    0 <= q /\ q + n <= zlen data /\ bsub h 0 n = bsub data q n /\ bget h n = 0 /\
    (n < 2 -> tls_find_sni_split data = Err tt) /\
    (2 <= n -> tls_find_sni_split data = Ok (q + n / 2) /\ q < q + n / 2 < q + n).
Proof.
  intros Hd Hh Heq.
  destruct (wp_Ok_inv _ _ _ _ (tls_parse_client_hello_sni_wp data Hd host_out Hh) Heq)
    as (q & n & (Hat & _ & _ & _ & Hn) & ->).
  pose proof (sni_at_bounds data q n Hd Hat) as Hq.
  exists q, n.
  refine (conj _ (conj _ (conj _ (conj _ (conj _ _))))); try lia.
  - pose proof (zlen_bsub data q n) as Hz. rewrite bsub_app_l by lia.
    rewrite <- Hz at 2 by lia. apply bsub_all.
  - rewrite bget_app_r by (rewrite zlen_bsub; lia).
    rewrite zlen_bsub, Z.sub_diag by lia. done.
  - intros Hlt. pose proof (tls_find_sni_split_wp data Hd) as H.
    destruct (tls_find_sni_split data) as [r|[]|]; [|done|done].
    destruct H as (q' & n' & Hat' & ? & _).
    destruct (sni_at_unique _ _ _ _ _ Hat Hat'). lia.
  - intros Hlt. pose proof (tls_find_sni_split_wp data Hd) as H.
    destruct (tls_find_sni_split data) as [r|[]|]; [| |done].
    + destruct H as (q' & n' & Hat' & ? & ->).
      destruct (sni_at_unique _ _ _ _ _ Hat Hat') as [-> ->]. split; [done|].
      pose proof (Z.div_str_pos n' 2). pose proof (Z.div_lt n' 2). lia.
    + specialize (H q n Hat). lia.
Qed.

Lemma tls_split_cuts_extracted_name_witness :
  exists h, tls_parse_client_hello_sni (enc_client_hello sample_hello) sample_host = Ok h /\
  exists q n, bsub h 0 n = bsub (enc_client_hello sample_hello) q n /\ bget h n = 0.
Proof.
  eexists. split; [vm_compute; reflexivity|].
  destruct (tls_split_cuts_extracted_name (enc_client_hello sample_hello) sample_host
    (str "example.com" ++ 0 :: repeat 0xaa 4)) as (q & n & _ & _ & H1 & H2 & _);
    [by apply bytes_okb_ok|by apply bytes_okb_ok|vm_compute; reflexivity|].
  exists q, n. split; [exact H1|exact H2].
Defined.

(** Round trip: every ClientHello that the RFC encoder produces within
    the 16 KiB cap, whatever extensions surround its server_name, is parsed
    back to exactly its hostname, and the split point lies in that hostname. *)
Theorem client_hello_sni_roundtrip c host_out :
  client_hello_ok c -> bytes_ok host_out -> 2 <= zlen (ch_name c) < zlen host_out ->
  exists q,
    tls_parse_client_hello_sni (enc_client_hello c) host_out
      = Ok (ch_name c ++ 0 :: bfrom host_out (zlen (ch_name c) + 1)) /\
    bsub (enc_client_hello c) q (zlen (ch_name c)) = ch_name c /\
    tls_find_sni_split (enc_client_hello c) = Ok (q + zlen (ch_name c) / 2).
Proof.
  intros Hc Hh Hn. pose proof (bytes_ok_enc_client_hello c Hc) as Hd.
  destruct (enc_sni_extractable c (zlen host_out) Hc) as (q & He & Hb); [lia|].
  exists q. split; [|split; [done|]].
  - pose proof (tls_parse_client_hello_sni_wp _ Hd host_out Hh) as H.
    destruct (tls_parse_client_hello_sni _ _) as [h|e|]; [|by destruct (H _ _ He)|done].
    destruct H as (q' & n' & He' & ->).
    destruct (sni_at_unique _ _ _ _ _ (proj1 He) (proj1 He')) as [<- <-]. by rewrite Hb.
  - pose proof (tls_find_sni_split_wp _ Hd) as H.
    destruct (tls_find_sni_split _) as [r|[]|]; [| |done].
    + destruct H as (q' & n' & Hat' & _ & ->).
      by destruct (sni_at_unique _ _ _ _ _ (proj1 He) Hat') as [<- <-].
    + specialize (H _ _ (proj1 He)). lia.
Qed.

Lemma client_hello_sni_roundtrip_witness :
  client_hello_ok sample_hello /\
  tls_parse_client_hello_sni (enc_client_hello sample_hello) sample_host
    = Ok (str "example.com" ++ 0 :: repeat 0xaa 4).
Proof.
  assert (Hc : client_hello_ok sample_hello).
  { repeat (refine (conj _ _)); try (apply bytes_okb_ok; reflexivity);
      try (vm_compute; congruence);
      (repeat constructor; try (vm_compute; congruence); by apply bytes_okb_ok). }
  split; [exact Hc|].
  destruct (client_hello_sni_roundtrip sample_hello sample_host Hc) as (q & E & _);
    [by apply bytes_okb_ok|vm_compute; split; congruence|].
  rewrite E. vm_compute. reflexivity.
Defined.

(** ** Re-framing records *)

(** The two records [tls_fragment_first_record] makes of the first one. *)
Definition two_records (data : list Z) (at_ : Z) : list Z :=
  bsub data 0 3 ++ bytes16 at_ ++ bsub data 5 at_ ++
  bsub data 0 3 ++ bytes16 (bget16 data 3 - at_) ++
  bsub data (5 + at_) (zlen data - 5 - at_).

Definition fragmentable_record (data : list Z) (at_ : Z) (size : Z) : Prop :=
  6 <= zlen data /\ bget data 0 = 0x16 /\ bget data 1 = 0x03 /\
  1 <= at_ < bget16 data 3 /\ at_ < zlen data - 5 /\ zlen data + 5 <= size.

Ltac filled_step :=
  match goal with
  | F : filled ?b ?pre ?b' |- wp (store ?b' _ _) _ _ =>
      apply (wp_store_filled b pre b' _ _ _ _ F);
      [ repeat first [rewrite zlen_app | rewrite zlen_cons
                     | rewrite zlen_bytes16 | rewrite zlen_bsub by lia];
        change (zlen (@nil Z)) with 0; lia |];
      clear F; intros ? F
  end.

Lemma tls_fragment_first_record_wp data at_ out :
  bytes_ok data ->
  wp (tls_fragment_first_record data at_ out)
    (fun r => fragmentable_record data at_ (zlen out) /\
              r.2 = zlen data + 5 /\ zlen (two_records data at_) = zlen data + 5 /\
              filled out (two_records data at_) r.1)
    (fun _ => ~ fragmentable_record data at_ (zlen out)).
Proof.
  intros Hd. unfold fragmentable_record, tls_fragment_first_record. cbv zeta.
  pose proof (bget16_range data 3 Hd) as Hr. unfold is_u16 in Hr.
  do 14 (try (wp_step; cbv beta)); try lia.
  pose proof (filled_nil out) as F.
  repeat first [filled_step | wp_step]; cbn [fst snd].
  assert (Hz : zlen (two_records data at_) = zlen data + 5).
  { unfold two_records. rewrite !zlen_app, !zlen_bytes16, !zlen_bsub by lia. lia. }
  split; [lia|]. split; [done|]. split; [done|].
  unfold two_records, bytes16. rewrite <- !app_assoc in F. exact F.
Qed.

(** Records as (header, body) pairs, the last body perhaps cut short. *)
Definition hs_record_ok (r : list Z * list Z) : Prop :=
  zlen r.1 = 5 /\ bget r.1 0 = 0x16 /\ zlen r.2 <= bget16 r.1 3.
Definition hs_bytes (rs : list (list Z * list Z)) : list Z :=
  concat (map (fun r => r.1 ++ r.2) rs).
Definition hs_bodies (rs : list (list Z * list Z)) : list Z := concat (map snd rs).
Fixpoint hs_declared (rs : list (list Z * list Z)) : Z :=
  match rs with [] => 0 | r :: rs' => bget16 r.1 3 + hs_declared rs' end.

Lemma hs_bytes_snoc rs r : hs_bytes (rs ++ [r]) = hs_bytes rs ++ r.1 ++ r.2.
Proof. unfold hs_bytes. rewrite map_app, concat_app. cbn. by rewrite app_nil_r. Qed.

Lemma hs_bodies_snoc rs r : hs_bodies (rs ++ [r]) = hs_bodies rs ++ r.2.
Proof. unfold hs_bodies. rewrite map_app, concat_app. cbn. by rewrite app_nil_r. Qed.

Lemma hs_declared_snoc rs r : hs_declared (rs ++ [r]) = hs_declared rs + bget16 r.1 3.
Proof. induction rs as [|x rs IH]; cbn; [lia|]. rewrite IH. lia. Qed.

Section coalesce.
Context (inp out : list Z) (Hin : bytes_ok inp) (Hout : 5 <= zlen out).

(** The records [rs] were copied and [cs_pos] bytes consumed. *)
Definition coalesce_done (rs : list (list Z * list Z)) (s : coalesce_state) : Prop :=
  Forall hs_record_ok rs /\ inp = hs_bytes rs ++ bfrom inp (cs_pos s) /\
  0 <= cs_pos s <= zlen inp /\
  filled out (bsub out 0 5 ++ hs_bodies rs) (cs_out s) /\
  cs_body s = 5 + zlen (hs_bodies rs) /\ cs_declared s = hs_declared rs /\
  cs_records s = zlen rs.

Lemma coalesce_done_nil : coalesce_done [] (mk_cs out 0 5 0 0).
Proof.
  unfold coalesce_done. cbn [cs_out cs_pos cs_body]. pose proof (zlen_nonneg inp).
  refine (conj _ (conj _ (conj _ (conj _ (conj _ (conj _ _)))))); try done.
  unfold hs_bodies. cbn [map concat]. rewrite app_nil_r. split.
  - rewrite zlen_bsub by lia. rewrite bfrom_bsub by lia.
    rewrite bsub_app_split by lia. replace (5 + (zlen out - 5)) with (zlen out) by lia.
    by rewrite bsub_all.
  - rewrite zlen_bsub; lia.
Qed.

Lemma coalesce_done_snoc rs s rlen avail o :
  coalesce_done rs s ->
  cs_pos s + 5 <= zlen inp -> bget inp (cs_pos s) = 0x16 ->
  rlen = bget16 inp (cs_pos s + 3) -> 0 <= avail <= rlen ->
  cs_pos s + 5 + avail <= zlen inp ->
  filled out ((bsub out 0 5 ++ hs_bodies rs) ++ bsub inp (cs_pos s + 5) avail) o ->
  coalesce_done (rs ++ [(bsub inp (cs_pos s) 5, bsub inp (cs_pos s + 5) avail)])
    (mk_cs o (cs_pos s + (5 + avail)) (cs_body s + avail)
           (cs_declared s + rlen) (cs_records s + 1)).
Proof.
  intros (Hrs & Hi & Hp & Hf & Hb & Hd & Hr) Hp5 H16 -> Ha Hav Ho.
  unfold coalesce_done. cbn [cs_out cs_pos cs_body cs_declared cs_records].
  rewrite hs_bytes_snoc, hs_bodies_snoc, hs_declared_snoc, zlen_app. cbn [fst snd].
  rewrite zlen_bsub by lia. rewrite <- app_assoc in Ho.
  refine (conj _ (conj _ (conj _ (conj Ho (conj _ (conj _ _)))))); try lia.
  - apply Forall_app_2; [done|]. constructor; [|constructor].
    unfold hs_record_ok. cbn [fst snd]. rewrite !zlen_bsub by lia.
    rewrite bget_bsub, bget16_bsub, Z.add_0_r by lia. lia.
  - rewrite Hi at 1. rewrite <- app_assoc. f_equal.
    rewrite bsub_app_split, !bfrom_bsub by lia. rewrite bsub_app_split by lia.
    f_equal. lia.
  - rewrite bget16_bsub by lia. lia.
  - rewrite zlen_app. change (zlen [(_, _)]) with 1. lia.
Qed.

(** One more record is copied when there is room for it. *)
Lemma coalesce_step_record rs s rlen avail :
  coalesce_done rs s ->
  cs_pos s + 5 <= zlen inp -> bget inp (cs_pos s) = 0x16 ->
  rlen = bget16 inp (cs_pos s + 3) -> avail = Z.min rlen (zlen inp - cs_pos s - 5) ->
  cs_body s + avail <= zlen out ->
  exists o,
    let s' := mk_cs o (cs_pos s + (5 + avail)) (cs_body s + avail)
                    (cs_declared s + rlen) (cs_records s + 1) in
    coalesce_step inp s = Ok (if avail <? rlen then inr s' else inl s') /\
    coalesce_done (rs ++ [(bsub inp (cs_pos s) 5, bsub inp (cs_pos s + 5) avail)]) s'.
Proof.
  intros Hs Hp5 H16 Hrl Hav Hroom. pose proof Hs as (_ & _ & Hp & Hf & Hb & _ & _).
  pose proof (bget16_range inp (cs_pos s + 3) Hin) as Hl. unfold is_u16 in Hl.
  pose proof (filled_len _ _ _ Hf) as Hfl.
  assert (Hz : zlen (bsub out 0 5 ++ hs_bodies rs) = cs_body s)
    by (rewrite zlen_app, zlen_bsub by lia; lia).
  assert (Hzb : zlen (bsub inp (cs_pos s + 5) avail) = avail) by (apply zlen_bsub; lia).
  exists (bput (cs_out s) (cs_body s) (bsub inp (cs_pos s + 5) avail)). split.
  - unfold coalesce_step. cbv zeta.
    rewrite (proj2 (Z.ltb_ge _ _)), fetch_Ok, fetch16_Ok by lia. cbn [mbind res_bind].
    rewrite H16. cbn [negb Z.eqb Pos.eqb]. rewrite <- Hrl.
    replace (if rlen <? zlen inp - cs_pos s - 5 then rlen else zlen inp - cs_pos s - 5)
      with avail by (destruct (Z.ltb_spec rlen (zlen inp - cs_pos s - 5)); lia).
    rewrite (proj2 (Z.ltb_ge _ _)), slice_Ok by lia. cbn [mbind res_bind].
    rewrite store_Ok by (pose proof (zlen_nonneg (hs_bodies rs)); lia).
    cbn [mbind res_bind]. by destruct (avail <? rlen).
  - apply coalesce_done_snoc; try done; try lia.
    rewrite <- Hz at 1. apply filled_bput; [done|lia].
Qed.

Lemma coalesce_step_wp s :
  (exists rs, coalesce_done rs s /\ hs_declared rs = zlen (hs_bodies rs)) ->
  wp (coalesce_step inp s)
    (fun x => match x with
     | inl s' => (exists rs, coalesce_done rs s' /\ hs_declared rs = zlen (hs_bodies rs)) /\
                 cs_pos s < cs_pos s' <= zlen inp
     | inr s' => exists rs, coalesce_done rs s' /\
                   (hs_declared rs = zlen (hs_bodies rs) \/ cs_pos s' = zlen inp)
     end) (fun _ => True).
Proof.
  intros (rs & Hs & Hcomp). pose proof Hs as (Hrs & Hi & Hp & Hf & Hb & Hd & Hr).
  pose proof (bget16_range inp (cs_pos s + 3) Hin) as Hl. unfold is_u16 in Hl.
  pose proof (filled_len _ _ _ Hf) as Hfl.
  destruct (decide (cs_pos s + 5 <= zlen inp /\ bget inp (cs_pos s) = 0x16 /\
    cs_body s + Z.min (bget16 inp (cs_pos s + 3)) (zlen inp - cs_pos s - 5) <= zlen out))
    as [(H1 & H2 & H3)|Hno].
  - destruct (coalesce_step_record rs s _ _ Hs H1 H2 eq_refl eq_refl H3) as (o & -> & Hs').
    set (rlen := bget16 inp (cs_pos s + 3)) in *.
    set (avail := Z.min rlen (zlen inp - cs_pos s - 5)) in *.
    destruct (Z.ltb_spec avail rlen); apply wp_ok; [|split; [|cbn [cs_pos]; lia]];
      eexists; (split; [exact Hs'|]).
    + right. cbn [cs_pos]. lia.
    + rewrite hs_declared_snoc, hs_bodies_snoc, zlen_app. cbn [fst snd].
      rewrite bget16_bsub, zlen_bsub by lia. fold rlen. lia.
  - unfold coalesce_step. cbv zeta.
    do 8 (try (wp_step; cbv beta)); try done; try (by exists rs; eauto).
    destruct Hno. split; [lia|]. split; [done|]. rewrite <- Hfl.
    destruct (Z.ltb_spec (bget16 inp (cs_pos s + 3)) (zlen inp - cs_pos s - 5)); lia.
Qed.

Lemma coalesce_loop_wp :
  wp (loop (S (length inp)) (coalesce_step inp) (mk_cs out 0 5 0 0))
    (fun s => exists rs, coalesce_done rs s /\
       (hs_declared rs = zlen (hs_bodies rs) \/ cs_pos s = zlen inp)) (fun _ => True).
Proof.
  apply (wp_loop
    (fun s => exists rs, coalesce_done rs s /\ hs_declared rs = zlen (hs_bodies rs))
    (fun s => Z.to_nat (zlen inp - cs_pos s))).
  - intros s Hs. eapply wp_mono; [| |exact (coalesce_step_wp s Hs)]; [|done].
    intros [s'|s']; [|done]. intros [??]. split; [done|lia].
  - exists []. split; [apply coalesce_done_nil|done].
  - unfold zlen. cbn [cs_pos]. lia.
Qed.
End coalesce.

(** The merged record. *)
Definition one_record (inp : list Z) (declared : Z) (bodies rest : list Z) : list Z :=
  [0x16; bget inp 1; bget inp 2] ++ bytes16 declared ++ bodies ++ rest.

Definition coalesced (inp out o : list Z) (l : Z) : Prop :=
  exists rs rest,
    inp = hs_bytes rs ++ rest /\ Forall hs_record_ok rs /\ 2 <= zlen rs /\
    (hs_declared rs = zlen (hs_bodies rs) \/ rest = []) /\
    hs_declared rs <= 16384 /\ l <= zlen out /\
    bsub o 0 l = one_record inp (hs_declared rs) (hs_bodies rs) rest.

(** The five single-byte stores of a record header. *)
Lemma header_bputs h x a b c d e :
  zlen h = 5 ->
  bput (bput (bput (bput (bput (h ++ x) 0 [a]) 1 [b]) 2 [c]) 3 [d]) 4 [e]
    = [a; b; c; d; e] ++ x.
Proof.
  intros Hh. unfold zlen in Hh.
  destruct h as [|h0 [|h1 [|h2 [|h3 [|h4 [|h5 h]]]]]]; cbn [length] in Hh; try lia. done.
Qed.

Ltac store_byte :=
  apply wp_bind, wp_store; [change (zlen [_]) with 1; lia|];
  match goal with |- wp _ _ _ => idtac end;
  match goal with |- context [bput ?b ?o [?x]] =>
    assert (zlen (bput b o [x]) = zlen b)
      by (apply zlen_bput; change (zlen [x]) with 1; lia)
  end.

Lemma coalesce_finish_wp inp out rs s :
  bytes_ok inp -> 5 <= zlen out -> 5 <= zlen inp -> coalesce_done inp out rs s ->
  wp (coalesce_finish inp s)
    (fun r => 2 <= zlen rs /\ hs_declared rs <= 16384 /\
       r.2 = 5 + zlen (hs_bodies rs) + (zlen inp - cs_pos s) /\ r.2 <= zlen out /\
       bsub r.1 0 r.2 = one_record inp (hs_declared rs) (hs_bodies rs) (bfrom inp (cs_pos s)))
    (fun _ => zlen rs < 2 \/ 16384 < hs_declared rs \/
              zlen out < 5 + zlen (hs_bodies rs) + (zlen inp - cs_pos s)).
Proof.
  intros Hin Hout Hi5 (Hrs & Hi & Hp & Hf & Hb & Hd & Hr). unfold coalesce_finish. cbv zeta.
  pose proof (filled_len _ _ _ Hf) as Hfl. pose proof (zlen_nonneg (hs_bodies rs)) as Hbn.
  assert (H5 : zlen (bsub out 0 5) = 5) by (apply zlen_bsub; lia).
  assert (Hz : zlen (bsub out 0 5 ++ hs_bodies rs) = 5 + zlen (hs_bodies rs))
    by (rewrite zlen_app; lia).
  apply wp_if; intros Hc; [apply wp_err; lia|]. zbool.
  destruct Hf as [Ho Hfle]. rewrite Hz in Ho, Hfle.
  store_byte. apply wp_bind, wp_fetch; [lia|]. store_byte. apply wp_bind, wp_fetch; [lia|].
  do 3 store_byte. apply wp_bind, wp_slice; [lia|]. apply wp_bind.
  rewrite Ho, <- app_assoc, header_bputs by done.
  match goal with |- wp (store (?h ++ hs_bodies rs ++ _) _ _) _ _ =>
    assert (F : filled out (h ++ hs_bodies rs)
                  (h ++ hs_bodies rs ++ bfrom out (5 + zlen (hs_bodies rs)))) end.
  { split; rewrite zlen_app; [|done]. by rewrite app_assoc. }
  apply (wp_store_filled _ _ _ _ _ _ _ F).
  { rewrite zlen_app, zlen_bsub by lia. change (zlen [_; _; _; _; _]) with 5. lia. }
  intros o Fo. apply wp_ok. cbn [fst snd].
  refine (conj _ (conj _ (conj _ (conj _ _)))); try lia.
  pose proof (filled_prefix _ _ _ Fo) as Hpre. rewrite !zlen_app in Hpre.
  rewrite zlen_bsub in Hpre by lia. change (zlen [_; _; _; _; _]) with 5 in Hpre.
  rewrite Hb. replace (5 + zlen (hs_bodies rs) + zlen inp - cs_pos s)
    with (5 + zlen (hs_bodies rs) + (zlen inp - cs_pos s)) by lia.
  rewrite Hpre, <- bfrom_bsub, <- app_assoc by lia. unfold one_record, bytes16.
  by rewrite Hd, land_255, u8_u8.
Qed.

Lemma tls_coalesce_handshake_records_wp inp out :
  bytes_ok inp ->
  wp (tls_coalesce_handshake_records inp out)
    (fun r => coalesced inp out r.1 r.2) (fun _ => True).
Proof.
  intros Hin. unfold tls_coalesce_handshake_records. cbv zeta.
  do 5 (try (wp_step; cbv beta)); try done.
  destruct (Z.ltb_spec (zlen out) 5) as [Hsmall|Hout].
  { rewrite loop_S. unfold coalesce_step. cbn [cs_pos cs_out cs_body]. cbv zeta.
    pose proof (bget16_range inp (0 + 3) Hin) as Hl. unfold is_u16 in Hl.
    rewrite (proj2 (Z.ltb_ge _ _)), fetch_Ok, fetch16_Ok by lia. cbn [mbind res_bind].
    rewrite H0. cbn [negb Z.eqb Pos.eqb].
    rewrite (proj2 (Z.ltb_lt _ _)); [done|].
    destruct (Z.ltb_spec (bget16 inp (0 + 3)) (zlen inp - 0 - 5)); lia. }
  eapply wp_mono; [| |exact (coalesce_loop_wp inp out Hin Hout)]; [|done].
  intros s (rs & Hs & Hend).
  eapply wp_mono; [| |exact (coalesce_finish_wp inp out rs s Hin Hout H Hs)]; [|done].
  intros [o l] (Hn & Hdec & _ & Hl & Heq). destruct Hs as (Hrs & Hi & Hp & _).
  exists rs, (bfrom inp (cs_pos s)).
  refine (conj Hi (conj Hrs (conj Hn (conj _ (conj Hdec (conj Hl Heq)))))).
  destruct Hend as [|Hend]; [by left|right]. rewrite bfrom_bsub, Hend by lia.
  unfold bsub. by rewrite Z.sub_diag.
Qed.

(** C6: [tls_coalesce_handshake_records] never leaves its buffers, and when
    it succeeds its output is a single handshake record that carries exactly
    the bodies of the two or more handshake records at the front of the
    input, in order, followed by whatever came after them; its length field
    is the sum of the merged records' length fields, at most 16384. *)
Theorem tls_coalesce_merges_records inp out :
  bytes_ok inp ->
  match tls_coalesce_handshake_records inp out with
  | Ok (o, l) => coalesced inp out o l
  | Err _ => True
  | Fault => False
  end.
Proof.
  intros Hin. pose proof (tls_coalesce_handshake_records_wp inp out Hin) as W.
  by destruct (tls_coalesce_handshake_records inp out) as [[o l]|e|].
Qed.

Definition sample_record : list Z := [0x16; 3; 1; 0; 5; 1; 2; 3; 4; 5].

Lemma tls_coalesce_merges_records_witness :
  bytes_ok (two_records sample_record 2) /\
  exists o l, tls_coalesce_handshake_records (two_records sample_record 2) (repeat 0 20)
                = Ok (o, l) /\
              coalesced (two_records sample_record 2) (repeat 0 20) o l.
Proof.
  assert (H : bytes_ok (two_records sample_record 2))
    by (apply bytes_okb_ok; vm_compute; reflexivity).
  split; [exact H|]. eexists _, _. split; [vm_compute; reflexivity|].
  pose proof (tls_coalesce_merges_records _ (repeat 0 20) H) as T.
  vm_compute tls_coalesce_handshake_records in T. exact T.
Defined.

(** The two records of a fragmented one, read back. *)
Lemma two_records_occurs data at_ size :
  bytes_ok data -> fragmentable_record data at_ size ->
  let inp := two_records data at_ in
  zlen inp = zlen data + 5 /\ bytes_ok inp /\
  bget inp 0 = 0x16 /\ bget inp 1 = bget data 1 /\ bget inp 2 = bget data 2 /\
  bget16 inp 3 = at_ /\ bsub inp 5 at_ = bsub data 5 at_ /\
  bget inp (5 + at_) = 0x16 /\ bget16 inp (5 + at_ + 3) = bget16 data 3 - at_ /\
  bsub inp (10 + at_) (zlen data - 5 - at_) = bsub data (5 + at_) (zlen data - 5 - at_).
Proof.
  intros Hd (Hlen & H0 & H1 & Hat & Hat' & Hsz) inp.
  pose proof (bget16_range data 3 Hd) as Hr. unfold is_u16 in Hr.
  assert (Hok : bytes_ok inp) by (unfold inp, two_records; auto 10 with bytes).
  assert (Hz : zlen inp = zlen data + 5).
  { unfold inp, two_records. rewrite !zlen_app, !zlen_bytes16, !zlen_bsub by lia. lia. }
  pose proof (occurs_all inp) as Ho. unfold inp at 2, two_records in Ho. clearbody inp.
  apply occurs_app in Ho as [Hh Ho]. rewrite zlen_bsub in Ho by lia.
  apply occurs_16 in Ho as [Hl1 Ho]; [|unfold is_u16; lia].
  apply occurs_app in Ho as [Hb1 Ho]. rewrite zlen_bsub in Ho by lia.
  apply occurs_app in Ho as [Hh2 Ho]. rewrite zlen_bsub in Ho by lia.
  apply occurs_16 in Ho as [Hl2 Hb2]; [|unfold is_u16; lia].
  apply occurs_bsub in Hb1, Hb2. rewrite zlen_bsub in Hb1, Hb2 by lia.
  pose proof (occurs_get _ _ _ Hh) as G. pose proof (occurs_get _ _ _ Hh2 0) as G2.
  rewrite zlen_bsub in G, G2 by lia. change (0 + 3 + 2) with 5 in *.
  change (0 + 3) with 3 in *. rewrite Z.add_0_r, bget_bsub in G2 by lia.
  assert (Gi : forall i, 0 <= i < 3 -> bget inp i = bget data i).
  { intros i Hi. rewrite <- (Z.add_0_l i) at 1. rewrite G, bget_bsub by lia. done. }
  replace (5 + at_ + 3 + 2) with (10 + at_) in * by lia.
  rewrite !Gi, G2 by lia. repeat (refine (conj _ _)); done || lia.
Qed.

(** The walk over the two records of a fragmented one. *)
Lemma coalesce_two_records data at_ size inp out2 :
  inp = two_records data at_ -> bytes_ok data -> fragmentable_record data at_ size ->
  zlen data <= 5 + bget16 data 3 -> zlen data <= zlen out2 ->
  exists s,
    loop (S (length inp)) (coalesce_step inp) (mk_cs out2 0 5 0 0) = Ok s /\
    coalesce_done inp out2
      [(bsub inp 0 5, bsub data 5 at_);
       (bsub inp (5 + at_) 5, bsub data (5 + at_) (zlen data - 5 - at_))] s /\
    cs_pos s = zlen inp.
Proof.
  intros Hi Hd Hf Hlast Hsz2.
  destruct (two_records_occurs data at_ size Hd Hf)
    as (Hz & Hok & I0 & I1 & I2 & I3 & Ib1 & I5 & I6 & Ib2).
  destruct Hf as (Hlen & H0 & H1 & Hat & Hat' & Hsz).
  rewrite <- Hi in *. clear Hi.
  assert (Hout2 : 5 <= zlen out2) by lia.
  destruct (coalesce_step_record inp out2 Hok Hout2 [] (mk_cs out2 0 5 0 0) at_ at_)
    as (o1 & E1 & D1); cbn [cs_pos cs_out cs_body cs_declared cs_records] in *;
    [by apply coalesce_done_nil|lia|done|done|lia|lia|].
  rewrite Z.ltb_irrefl in E1. set (s1 := mk_cs o1 _ _ _ _) in E1, D1.
  destruct (coalesce_step_record inp out2 Hok Hout2 _ s1 (bget16 data 3 - at_)
              (zlen data - 5 - at_) D1) as (o2 & E2 & D2);
    cbn [s1 cs_pos cs_out cs_body cs_declared cs_records] in *; rewrite ?Z.add_0_l in *;
    [lia|done|done|lia|lia|].
  set (s2 := mk_cs o2 _ _ _ _) in E2, D2. cbn [app] in D2.
  replace (5 + at_ + 5) with (10 + at_) in D2 by lia. rewrite Ib1, Ib2 in D2.
  exists s2. refine (conj _ (conj D2 _)); [|cbn [s2 cs_pos]; lia].
  assert (Hlen3 : (3 <= length inp)%nat) by (unfold zlen in Hz, Hlen; lia).
  destruct (length inp) as [|[|n]] eqn:En; [lia|lia|].
  rewrite loop_S, E1, loop_S, E2. destruct (Z.ltb_spec (zlen data - 5 - at_) (bget16 data 3 - at_)).
  { done. }
  rewrite loop_S. unfold coalesce_step. cbv zeta. cbn [s2 cs_pos].
  by rewrite (proj2 (Z.ltb_lt _ _)) by lia.
Qed.

Lemma record_rebuild data :
  bytes_ok data -> 5 <= zlen data ->
  [bget data 0; bget data 1; bget data 2] ++ bytes16 (bget16 data 3) ++ bfrom data 5 = data.
Proof.
  intros Hd Hl. unfold bget16. rewrite be16_bytes16 by auto with bytes. unfold zlen in Hl.
  destruct data as [|d0 [|d1 [|d2 [|d3 [|d4 data]]]]]; cbn [length] in Hl; try lia. done.
Qed.

(** Re-framing is lossless: fragmenting a handshake record at any
    allowed cut and coalescing the result gives back the original bytes, for
    a record of at most 16384 bytes that is the last one of its buffer
    (complete or still missing its tail). *)
Theorem fragment_coalesce_roundtrip data at_ out out2 :
  bytes_ok data -> fragmentable_record data at_ (zlen out) ->
  zlen data <= 5 + bget16 data 3 -> bget16 data 3 <= 16384 ->
  zlen data <= zlen out2 ->
  exists o o2,
    tls_fragment_first_record data at_ out = Ok (o, zlen data + 5) /\
    tls_coalesce_handshake_records (bsub o 0 (zlen data + 5)) out2 = Ok (o2, zlen data) /\
    bsub o2 0 (zlen data) = data.
Proof.
  intros Hd Hf Hlast Hmax Hsz2. pose proof (tls_fragment_first_record_wp data at_ out Hd) as W.
  destruct (tls_fragment_first_record data at_ out) as [[o l]|e|]; [|by destruct W|done].
  destruct W as (_ & Hl & Hz & F). cbn [fst snd] in *. subst l. exists o.
  apply filled_prefix in F. rewrite Hz in F. rewrite F. clear F Hz.
  destruct (coalesce_two_records data at_ _ _ out2 eq_refl Hd Hf Hlast Hsz2) as (s & El & Ds & Ep).
  destruct (two_records_occurs data at_ _ Hd Hf)
    as (Hz & Hok & I0 & I1 & I2 & I3 & Ib1 & I5 & I6 & Ib2).
  destruct Hf as (Hlen & H0 & H1 & Hat & Hat' & Hsz).
  set (inp := two_records data at_) in *. clearbody inp.
  pose proof (coalesce_finish_wp inp out2 _ s Hok ltac:(lia) ltac:(lia) Ds) as W.
  assert (Hz1 : zlen (bsub data 5 at_) = at_) by (apply zlen_bsub; lia).
  unfold hs_bodies in W. cbn [map concat snd fst hs_declared] in W.
  rewrite app_nil_r, bsub_app_split, !bget16_bsub, Z.add_0_l in W by lia.
  rewrite I3, I6, Ep, zlen_bsub in W by lia.
  assert (El' : tls_coalesce_handshake_records inp out2 = coalesce_finish inp s).
  { unfold tls_coalesce_handshake_records. cbv zeta.
    rewrite (proj2 (Z.ltb_ge _ _)), fetch_Ok, I0 by lia. cbn [mbind res_bind].
    by rewrite El. }
  rewrite El'. destruct (coalesce_finish inp s) as [[o2 l2]|e|]; [| |done].
  - destruct W as (_ & _ & Hl2 & _ & Heq). cbn [fst snd] in *. exists o2.
    assert (l2 = zlen data) as -> by lia. split; [done|]. split; [done|].
    rewrite Heq. unfold one_record. rewrite I1, I2, <- H0.
    replace (at_ + (bget16 data 3 - at_ + 0)) with (bget16 data 3) by lia.
    replace (at_ + (zlen data - 5 - at_)) with (zlen data - 5) by lia.
    rewrite <- bfrom_bsub by lia. replace (bfrom inp (zlen inp)) with (@nil Z)
      by (unfold bfrom, zlen; by rewrite Nat2Z.id, drop_all).
    rewrite app_nil_r. apply record_rebuild; [done|lia].
  - exfalso. change (zlen [_; _]) with 2 in W. unfold wp in W. lia.
Qed.

Lemma fragment_coalesce_roundtrip_witness :
  fragmentable_record sample_record 2 20 /\
  exists o, tls_fragment_first_record sample_record 2 (repeat 0 20) = Ok (o, 15) /\
  exists o2, tls_coalesce_handshake_records (bsub o 0 15) (repeat 0 10) = Ok (o2, 10) /\
             bsub o2 0 10 = sample_record.
Proof.
  assert (H : fragmentable_record sample_record 2 20)
    by (vm_compute; intuition congruence).
  split; [exact H|].
  destruct (fragment_coalesce_roundtrip sample_record 2 (repeat 0 20) (repeat 0 10))
    as (o & o2 & E1 & E2 & E3);
    [apply bytes_okb_ok; reflexivity|exact H|vm_compute; congruence|vm_compute; congruence
    |vm_compute; congruence|].
  exists o. split; [exact E1|]. exists o2. split; [exact E2|exact E3].
Defined.
