(* ===== verification/Http.v ===== *)
(** * HTTP Host header parsing ([src/http/http.c])

    [http_parse_host] finds the Host header of a plain-text request. Lines
    of the header block are described by the relation [next_line]; the
    parser returns exactly the value of the first line it takes for a Host
    header. These are the Host headers ([host_header]) and, by mistake, lines
    with the control byte 0x1A in the place of the colon ([mistaken_host]). *)

From stdpp Require Import base list numbers strings relations.
From Stdlib Require Import ZArith Lia.
From S2P Require Import Prelude Packet.

Definition HTTP_SCAN_CAP : Z := 8192.

(** ** The code *)

Definition methods : list (list Z) :=
  [str "GET "; str "POST "; str "HEAD "; str "PUT "; str "DELETE ";
   str "OPTIONS "; str "CONNECT "; str "PATCH "; str "TRACE "].

Definition looks_like_request_line (data : list Z) : bool :=
  existsb (fun m => (zlen m <=? zlen data) && bool_decide (bsub data 0 (zlen m) = m))
    methods.

(** [Ok (Some i)] is [*found = 1] with the offset, [Ok None] is [*found = 0]. *)
Definition find_header_end (data : list Z) (scan_len : Z) : pres (option Z) :=
  if scan_len <? 4 then Ok None else
  loop (S (length data))
    (fun i =>
       if scan_len <? i + 4 then Ok (inr None) else
       a ← fetch data i; b ← fetch data (i + 1);
       c ← fetch data (i + 2); d ← fetch data (i + 3);
       if (a =? 13) && (b =? 10) && (c =? 13) && (d =? 10)
       then Ok (inr (Some i)) else Ok (inl (i + 1)))
    0.

(** [starts_with_host_header(headers + off, line_len)]. *)
Definition starts_with_host_header (headers : list Z) (off line_len : Z) : pres bool :=
  if line_len <? 5 then Ok false else
  loop 6
    (fun i =>
       if i <? 5 then
         c ← fetch headers (off + i);
         if negb (Z.lor c 0x20 =? bget (str "host:") i) then Ok (inr false)
         else Ok (inl (i + 1))
       else Ok (inr true))
    0.

Definition skip_spaces (headers : list Z) (value_start i : Z) : pres Z :=
  loop (S (length headers))
    (fun v =>
       if v <? i then
         c ← fetch headers v;
         if c =? 32 then Ok (inl (v + 1)) else Ok (inr v)
       else Ok (inr v))
    value_start.

(** One round of the line splitter; the state is [(line_start, i)]. *)
Definition host_line_step (headers : list Z) (headers_len : Z) (host_out : list Z)
    (s : Z * Z) : pres ((Z * Z) + list Z) :=
  let '(line_start, i) := s in
  if negb (i + 1 <? headers_len) then Err PACKET_ERR_UNSUPPORTED else
  c ← fetch headers i;
  d ← fetch headers (i + 1);
  if (c =? 13) && (d =? 10) then
    is_host ← starts_with_host_header headers line_start (i - line_start);
    if (is_host : bool) then
      value_start ← skip_spaces headers (line_start + 5) i;
      let value_len := i - value_start in
      if (value_len =? 0) || (zlen host_out <=? value_len)
      then Err PACKET_ERR_MALFORMED else
      value ← slice headers value_start value_len;
      host_out ← store host_out 0 value;
      host_out ← store host_out value_len [0];
      Ok (inr host_out)
    else Ok (inl (i + 2, i + 2))
  else Ok (inl (line_start, i + 1)).

Definition extract_host_line (headers : list Z) (headers_len : Z) (host_out : list Z)
  : pres (list Z) :=
  loop (S (length headers)) (host_line_step headers headers_len host_out) (0, 0).

Definition http_parse_host (data host_out : list Z) : pres (list Z) :=
  let len := zlen data in
  if zlen host_out =? 0 then Err PACKET_ERR_MALFORMED else
  if len <? 4 then Err PACKET_ERR_TRUNCATED else
  if negb (looks_like_request_line data) then Err PACKET_ERR_UNSUPPORTED else
  let scan_len := if HTTP_SCAN_CAP <? len then HTTP_SCAN_CAP else len in
  found ← find_header_end data scan_len;
  match found with
  | None => if HTTP_SCAN_CAP <=? len then Err PACKET_ERR_MALFORMED
            else Err PACKET_ERR_TRUNCATED
  | Some header_end => extract_host_line data (header_end + 2) host_out
  end.

(** ** Specification *)

Definition crlf (h : list Z) (i : Z) : Prop := bget h i = 13 /\ bget h (i + 1) = 10.

(** The blank line after the headers is at [e], the first one within [n]. *)
Definition header_end_at (h : list Z) (n e : Z) : Prop :=
  0 <= e /\ e + 4 <= n /\ crlf h e /\ crlf h (e + 2) /\
  forall j, 0 <= j < e -> ~ (crlf h j /\ crlf h (j + 2)).

Section lines.
Context (h : list Z) (n : Z).

(** The line that starts at [ls] ends (before its CRLF) at [le]. *)
Definition line (ls le : Z) : Prop :=
  ls <= le /\ le + 1 < n /\ crlf h le /\ forall j, ls <= j < le -> ~ crlf h j.

(** A Host header: the name in any case, and the colon. *)
Definition host_header (ls le : Z) : Prop :=
  5 <= le - ls /\ lower (bsub h ls 5) = str "host:".

(** The name in any case, followed by the control byte 0x1A. *)
Definition mistaken_host (ls le : Z) : Prop :=
  5 <= le - ls /\ lower (bsub h ls 4) = str "host" /\ bget h (ls + 4) = 0x1A.

(** What the parser takes for a Host header. *)
Definition taken_host (ls le : Z) : Prop := host_header ls le \/ mistaken_host ls le.

(** The walk over the lines that are not [P]. *)
Context (P : Z -> Z -> Prop).

Definition next_line (ls ls' : Z) : Prop :=
  exists le, line ls le /\ ~ P ls le /\ ls' = le + 2.

(** The value of the first line that is [P] is the [m] bytes at [v]. *)
Definition host_value (v m : Z) : Prop :=
  exists ls le, rtc next_line 0 ls /\ line ls le /\ P ls le /\
    ls + 5 <= v <= le /\ (forall j, ls + 5 <= j < v -> bget h j = 32) /\
    (v < le -> bget h v <> 32) /\ m = le - v.
End lines.

(** The request line is known and the blank line is at [e]. *)
Definition http_headers (data : list Z) (e : Z) : Prop :=
  looks_like_request_line data = true /\ 4 <= zlen data /\
  header_end_at data (Z.min (zlen data) HTTP_SCAN_CAP) e.

Definition http_host_at (P : Z -> Z -> Prop) (data : list Z) (host_size v m : Z) : Prop :=
  exists e, http_headers data e /\ host_value data (e + 2) P v m /\ 0 < m < host_size.

(** What an error says of the bytes: more of them are needed, or they are not a
    request with a Host header, or they are and cannot be used. *)
Definition http_refused (P : Z -> Z -> Prop) (data : list Z) (host_size : Z) (err : packet_err) : Prop :=
  let request := looks_like_request_line data = true in
  let endless := forall e, ~ header_end_at data (Z.min (zlen data) HTTP_SCAN_CAP) e in
  match err with
  | PACKET_ERR_TRUNCATED =>
      zlen data < 4 \/ (request /\ endless /\ zlen data < HTTP_SCAN_CAP)
  | PACKET_ERR_UNSUPPORTED =>
      ~ request \/ exists e, http_headers data e /\ forall v m, ~ host_value data (e + 2) P v m
  | PACKET_ERR_MALFORMED =>
      host_size = 0 \/ (request /\ endless /\ HTTP_SCAN_CAP <= zlen data) \/
      exists e v m, http_headers data e /\ host_value data (e + 2) P v m /\ (m = 0 \/ host_size <= m)
  end.

(** ** Lemmas *)

Lemma find_header_end_wp data scan_len :
  scan_len <= zlen data ->
  wp (find_header_end data scan_len)
    (fun r => match r with
     | Some e => header_end_at data scan_len e
     | None => forall e, ~ header_end_at data scan_len e
     end) (fun _ => False).
Proof.
  intros Hs. unfold find_header_end. apply wp_if; intros Hc; zbool.
  { apply wp_ok. intros e (? & ? & _). lia. }
  apply (wp_loop
    (fun i => 0 <= i /\ forall j, 0 <= j < i -> ~ (crlf data j /\ crlf data (j + 2)))
    (fun i => Z.to_nat (scan_len - i))).
  - intros i [Hi Hno]. apply wp_if; intros Hi4; zbool.
    { apply wp_ok. intros e (He & He4 & Hc1 & Hc2 & _). apply (Hno e); [lia|done]. }
    do 8 (wp_step; cbv beta). apply wp_if; intros Hm; apply wp_ok.
    + zbool. unfold header_end_at, crlf. replace (i + 2 + 1) with (i + 3) by lia.
      by repeat (refine (conj _ _)).
    + split; [split; [lia|]|lia]. intros j Hj.
      destruct (decide (j = i)) as [->|]; [|apply Hno; lia].
      unfold crlf. replace (i + 2 + 1) with (i + 3) by lia. lia.
  - split; [lia|]. intros j Hj. lia.
  - unfold zlen in Hs. lia.
Qed.

(** The code's comparison ignores bit 5. *)
Definition host_bits (h : list Z) (ls le : Z) : Prop :=
  5 <= le - ls /\
  forall i, 0 <= i < 5 -> Z.lor (bget h (ls + i)) 0x20 = bget (str "host:") i.

Lemma lor_bit5 c : Z.lor c 0x20 = c \/ Z.lor c 0x20 = c + 32.
Proof.
  pose proof (Z.add_lor_land c 32) as E.
  assert (Z.land c 32 = 32 \/ Z.land c 32 = 0) as [E'|E'] by
    (change 32 with (2 ^ 5); destruct (Z.testbit c 5) eqn:Eb; [left|right];
     apply Z.bits_inj'; intros n Hn; rewrite Z.land_spec, Z.pow2_bits_eqb by lia;
     destruct (Z.eqb_spec 5 n) as [<-|]; rewrite ?Z.bits_0, ?Eb, ?andb_false_r; done); [left|right]; lia.
Qed.

Lemma lor_bit5_letter c k : 97 <= k <= 122 -> Z.lor c 0x20 = k <-> tolower c = k.
Proof.
  intros Hk. assert (Hc : forallb (fun k => (Z.lor k 32 =? k) && (Z.lor (k - 32) 32 =? k)) (seqZ 97 26) = true) by done.
  rewrite forallb_forall in Hc. specialize (Hc k ltac:(apply list_elem_of_In, elem_of_seqZ; lia)).
  apply andb_true_iff in Hc as [H1%Z.eqb_eq H2%Z.eqb_eq].
  unfold tolower. destruct (Z.leb_spec 65 c), (Z.leb_spec c 90); cbn [andb];
    (split; [destruct (lor_bit5 c); lia|]); intros E; subst k; try (exact H1).
  by replace (c + 32 - 32) with c in H2 by lia.
Qed.

Lemma lor_bit5_colon c : Z.lor c 0x20 = 0x3A <-> tolower c = 0x3A \/ c = 0x1A.
Proof.
  unfold tolower. split.
  - intros E. destruct (lor_bit5 c); [left|right; lia]. assert (c = 58) as -> by lia. done.
  - intros [E| ->]; [|done]. destruct (Z.leb_spec 65 c), (Z.leb_spec c 90); cbn [andb] in E; try lia; by subst.
Qed.

Lemma lower_bsub h ls n m :
  0 <= ls -> 0 <= n -> ls + n <= zlen h -> zlen m = n ->
  lower (bsub h ls n) = m <-> forall i, 0 <= i < n -> tolower (bget h (ls + i)) = bget m i.
Proof.
  intros Hl Hn Hh Hm.
  assert (Hz : zlen (bsub h ls n) = n) by (apply zlen_bsub; lia).
  assert (Hg : forall i, 0 <= i < n -> bget (lower (bsub h ls n)) i = tolower (bget h (ls + i))).
  { intros i Hi. rewrite <- (bget_bsub h ls n i) by lia. unfold bget, lower.
    destruct (lookup_lt_is_Some_2 (bsub h ls n) (Z.to_nat i)) as [x Hx]; [unfold zlen in Hz; lia|].
    by rewrite list_lookup_fmap, Hx. }
  split; [intros <- i Hi; by rewrite Hg|]. intros Hall. apply bytes_ext; rewrite zlen_lower, Hz; [done|].
  intros i Hi. rewrite Hg by lia. by apply Hall.
Qed.

(** It takes Host headers and the lines with 0x1A for them, and no others. *)
Lemma host_bits_taken h ls le :
  0 <= ls -> le <= zlen h -> host_bits h ls le <-> taken_host h ls le.
Proof.
  intros Hl Hh. unfold host_bits, taken_host, host_header, mistaken_host.
  assert (H4 : (forall i, 0 <= i < 4 -> Z.lor (bget h (ls + i)) 32 = bget (str "host:") i) <->
               (forall i, 0 <= i < 4 -> tolower (bget h (ls + i)) = bget (str "host:") i)).
  { split; intros H i Hi; specialize (H i Hi);
      (apply lor_bit5_letter in H || (apply lor_bit5_letter; [..|exact H]));
      try exact H; assert (i = 0 \/ i = 1 \/ i = 2 \/ i = 3) as Hc by lia;
      destruct Hc as [-> | [-> | [-> | ->]]]; done. }
  assert (Hsplit : forall Q : Z -> Prop, (forall i, 0 <= i < 5 -> Q i) <-> (forall i, 0 <= i < 4 -> Q i) /\ Q 4).
  { intros Q. split; [intros H; split; [intros i Hi|]; apply H; lia|].
    intros [H H'] i Hi. destruct (decide (i = 4)) as [->|]; [done|apply H; lia]. }
  destruct (decide (5 <= le - ls)) as [H5|]; [|split; [|intros [|]]; tauto].
  rewrite (lower_bsub h ls 5), (lower_bsub h ls 4) by (done || lia).
  change (str "host") with (bsub (str "host:") 0 4).
  rewrite (Hsplit (fun i => Z.lor _ _ = _)), (Hsplit (fun i => tolower _ = _)), H4.
  change (bget (str "host:") 4) with 0x3A. rewrite lor_bit5_colon.
  assert (He : (forall i, 0 <= i < 4 -> tolower (bget h (ls + i)) = bget (bsub (str "host:") 0 4) i) <->
               (forall i, 0 <= i < 4 -> tolower (bget h (ls + i)) = bget (str "host:") i)).
  { split; intros H i Hi; specialize (H i Hi); [rewrite bget_bsub in H by lia|rewrite bget_bsub by lia]; done. }
  rewrite He. tauto.
Qed.

Lemma starts_with_host_header_wp h off line_len :
  0 <= off -> off + line_len <= zlen h ->
  wp (starts_with_host_header h off line_len)
    (fun b => (b : bool) = true <-> taken_host h off (off + line_len)) (fun _ => False).
Proof.
  intros Ho Hl. eapply wp_mono with (R := fun _ => False) (Q := fun b => b = true <-> host_bits h off (off + line_len)); [|intros ? []|].
  { intros b Hb. by rewrite Hb, host_bits_taken by lia. }
  unfold starts_with_host_header, host_bits.
  apply wp_if; intros Hc; zbool; [apply wp_ok; split; [done|lia]|].
  apply (wp_loop
    (fun i => 0 <= i <= 5 /\
       forall j, 0 <= j < i -> Z.lor (bget h (off + j)) 0x20 = bget (str "host:") j)
    (fun i => Z.to_nat (5 - i))).
  - intros i [Hi Hpre]. apply wp_if; intros Hi5; zbool.
    + apply wp_bind, wp_fetch; [lia|]. apply wp_if; intros Hm; zbool; apply wp_ok.
      * split; [done|]. intros [_ Hall]. destruct Hm. apply Hall. lia.
      * split; [split; [lia|]|lia]. intros j Hj.
        destruct (decide (j = i)) as [->|]; [done|]. apply Hpre. lia.
    + apply wp_ok. split; [|done]. intros _. split; [lia|]. intros j Hj. apply Hpre. lia.
  - split; [lia|]. intros j Hj. lia.
  - lia.
Qed.

Lemma skip_spaces_wp h v0 i :
  0 <= v0 <= i -> i <= zlen h ->
  wp (skip_spaces h v0 i)
    (fun v => v0 <= v <= i /\ (forall j, v0 <= j < v -> bget h j = 32) /\
              (v < i -> bget h v <> 32)) (fun _ => False).
Proof.
  intros Hv Hi. unfold skip_spaces.
  apply (wp_loop (fun v => v0 <= v <= i /\ forall j, v0 <= j < v -> bget h j = 32)
    (fun v => Z.to_nat (i - v))).
  - intros v [Hv' Hsp]. apply wp_if; intros Hc; zbool.
    + apply wp_bind, wp_fetch; [lia|]. apply wp_if; intros Hm; zbool; apply wp_ok.
      * split; [split; [lia|]|lia]. intros j Hj.
        destruct (decide (j = v)) as [->|]; [done|]. apply Hsp. lia.
      * by refine (conj Hv' (conj Hsp _)).
    + apply wp_ok. refine (conj _ (conj Hsp _)); lia.
  - split; [lia|]. intros j Hj. lia.
  - unfold zlen in Hi. lia.
Qed.

Section line_lemmas.
Context (h : list Z) (n : Z) (P : Z -> Z -> Prop).

Lemma line_det ls le le' : line h n ls le -> line h n ls le' -> le = le'.
Proof.
  intros (H1 & _ & H2 & H3) (H1' & _ & H2' & H3').
  destruct (Z.lt_trichotomy le le') as [Hlt|[?|Hlt]]; [|done|].
  - destruct (H3' le); [lia|done].
  - destruct (H3 le'); [lia|done].
Qed.

Lemma next_line_det x y z : next_line h n P x y -> next_line h n P x z -> y = z.
Proof.
  intros (le & Hl & _ & ->) (le' & Hl' & _ & ->). by rewrite (line_det _ _ _ Hl Hl').
Qed.

(** When the walk stands at a line without a successor, a Host value can
    only come from that line. *)
Lemma host_value_here ls v m :
  rtc (next_line h n P) 0 ls -> (forall r, ~ next_line h n P ls r) -> host_value h n P v m ->
  exists le, line h n ls le /\ P ls le /\ ls + 5 <= v <= le /\
    (forall j, ls + 5 <= j < v -> bget h j = 32) /\ (v < le -> bget h v <> 32) /\ m = le - v.
Proof.
  intros Hw Hend (ls' & le & Hw' & Hl & Hp & H).
  assert (ls = ls') as <-; [|by exists le].
  apply (rtc_det_end (next_line h n P) next_line_det 0); try done.
  intros r (le' & Hl' & Hnp & _). by rewrite (line_det _ _ _ Hl' Hl) in Hnp.
Qed.

(** The walk state [(line_start, i)] of the splitter. *)
Definition splitting (s : Z * Z) : Prop :=
  rtc (next_line h n P) 0 s.1 /\ 0 <= s.1 <= s.2 /\ forall j, s.1 <= j < s.2 -> ~ crlf h j.

Lemma splitting_next_line ls i :
  splitting (ls, i) -> i + 1 < n -> crlf h i -> ~ P ls i ->
  splitting (i + 2, i + 2).
Proof.
  intros (Hw & Hi & Hno) Hn Hc Hnp. cbn [fst snd] in *.
  split; [|split; [cbn [fst snd]; lia|cbn [fst snd]; lia]].
  eapply rtc_r; [exact Hw|]. exists i. refine (conj (conj _ (conj _ (conj _ _))) (conj _ _)); done || lia.
Qed.
End line_lemmas.

Section parser.
Context (h : list Z) (n : Z) (host_out : list Z).
Context (Hn : n <= zlen h).

Definition host_written (v m : Z) (o : list Z) : Prop :=
  o = bsub h v m ++ 0 :: bfrom host_out (m + 1).

Lemma host_line_step_wp s :
  splitting h n (taken_host h) s ->
  wp (host_line_step h n host_out s)
    (fun x => match x with
     | inl s' => splitting h n (taken_host h) s' /\ s.2 < s'.2
     | inr o => exists v m, host_value h n (taken_host h) v m /\ 0 < m < zlen host_out /\ host_written v m o
     end)
    (fun e => match e with
     | PACKET_ERR_UNSUPPORTED => forall v m, ~ host_value h n (taken_host h) v m
     | PACKET_ERR_MALFORMED => exists v m, host_value h n (taken_host h) v m /\ (m = 0 \/ zlen host_out <= m)
     | PACKET_ERR_TRUNCATED => False
     end).
Proof.
  destruct s as [ls i]. intros Hs. pose proof Hs as (Hw & Hi & Hno). cbn [fst snd] in *.
  unfold host_line_step. apply wp_if; intros Hc; zbool.
  { apply wp_err. intros v m Hv.
    destruct (host_value_here h n (taken_host h) ls v m Hw) as (le & (? & ? & Hcr & _) & _); [|done|].
    - intros r (le & (? & ? & Hcr & _) & _). apply (Hno le); [lia|done].
    - apply (Hno le); [lia|done]. }
  do 4 (wp_step; cbv beta). apply wp_if; intros Hm; zbool.
  2: { apply wp_ok. split; [|cbn; lia]. split; [done|]. split; [cbn; lia|]. cbn [fst snd].
       intros j Hj. destruct (decide (j = i)) as [->|]; [unfold crlf; lia|]. apply Hno. lia. }
  assert (Hcr : crlf h i) by done.
  apply wp_bind. eapply wp_mono; [| |apply starts_with_host_header_wp]; [|done|lia|lia].
  replace (ls + (i - ls)) with i by lia. intros [] Hb.
  2: { apply wp_ok. split; [|cbn; lia]. apply (splitting_next_line h n (taken_host h) ls i); try done.
       intros Hp. apply Hb in Hp. done. }
  destruct Hb as [Hb _]. specialize (Hb eq_refl). assert (H5 : 5 <= i - ls) by (destruct Hb as [[? _]|[? _]]; done).
  assert (Hline : line h n ls i) by (repeat (refine (conj _ _)); done || lia).
  apply wp_bind. eapply wp_mono; [| |apply skip_spaces_wp]; [|done|lia|lia].
  intros v (Hv & Hsp & Hnsp). cbv beta zeta.
  assert (Hval : host_value h n (taken_host h) v (i - v)) by (exists ls, i; done).
  apply wp_if; intros Hlen.
  - apply wp_err. exists v, (i - v). split; [done|]. lia.
  - zbool. assert (Hz : zlen (bsub h v (i - v)) = i - v) by (apply zlen_bsub; lia).
    apply wp_bind, wp_slice; [lia|]. apply wp_bind, wp_store; [lia|].
    apply wp_bind, wp_store.
    { rewrite zlen_bput by lia. change (zlen [0]) with 1. lia. }
    apply wp_ok. exists v, (i - v). refine (conj Hval (conj _ _)); [lia|].
    unfold host_written. rewrite <- Hz at 2 4. apply bput_terminated. lia.
Qed.

Lemma extract_host_line_wp :
  wp (extract_host_line h n host_out)
    (fun o => exists v m, host_value h n (taken_host h) v m /\ 0 < m < zlen host_out /\ host_written v m o)
    (fun e => match e with
     | PACKET_ERR_UNSUPPORTED => forall v m, ~ host_value h n (taken_host h) v m
     | PACKET_ERR_MALFORMED => exists v m, host_value h n (taken_host h) v m /\ (m = 0 \/ zlen host_out <= m)
     | PACKET_ERR_TRUNCATED => False
     end).
Proof.
  apply (wp_loop (splitting h n (taken_host h)) (fun s => Z.to_nat (n - s.2))).
  - intros s Hs. destruct (decide (s.2 < n)) as [Hlt|Hge].
    + eapply wp_mono; [| |exact (host_line_step_wp s Hs)]; [|done].
      intros [s'|o]; [|done]. intros [? ?]. split; [done|lia].
    + pose proof (host_line_step_wp s Hs) as W. destruct s as [ls i].
      unfold host_line_step in *. cbn [snd] in Hge.
      rewrite (proj2 (Z.ltb_ge (i + 1) n)) in * by lia. exact W.
  - split; [apply rtc_refl|]. cbn [fst snd]. split; [lia|]. intros j Hj. lia.
  - cbn [snd]. unfold zlen in Hn. lia.
Qed.
End parser.

Lemma header_end_unique h n e e' :
  header_end_at h n e -> header_end_at h n e' -> e = e'.
Proof.
  intros (H0 & _ & H1 & H2 & H3) (H0' & _ & H1' & H2' & H3').
  destruct (Z.lt_trichotomy e e') as [Hlt|[?|Hlt]]; [|done|].
  - destruct (H3' e); [lia|done].
  - destruct (H3 e'); [lia|done].
Qed.

(** Of a header block there is one Host value. *)
Lemma host_value_unique h n P v m v' m' :
  host_value h n P v m -> host_value h n P v' m' -> v = v' /\ m = m'.
Proof.
  intros (ls & le & Hw & Hl & Hp & Hv & Hs & Hns & ->) Hv'.
  destruct (host_value_here h n P ls v' m' Hw) as (le' & Hl' & _ & Hvr & Hs' & Hns' & ->); [|done|].
  { intros r (le' & Hl' & Hnp & _). by rewrite (line_det h n _ _ _ Hl' Hl) in Hnp. }
  rewrite (line_det h n _ _ _ Hl' Hl) in *.
  destruct (Z.lt_trichotomy v v') as [Hlt|[->|Hlt]]; [|done|].
  - destruct Hns; [lia|apply Hs'; lia].
  - destruct Hns'; [lia|apply Hs; lia].
Qed.

Lemma http_parse_host_wp data host_out :
  wp (http_parse_host data host_out)
    (fun o => exists v m, http_host_at (taken_host data) data (zlen host_out) v m /\ host_written data host_out v m o)
    (http_refused (taken_host data) data (zlen host_out)).
Proof.
  unfold http_parse_host. cbv zeta. pose proof (zlen_nonneg host_out).
  replace (if HTTP_SCAN_CAP <? zlen data then HTTP_SCAN_CAP else zlen data)
    with (Z.min (zlen data) HTTP_SCAN_CAP)
    by (destruct (Z.ltb_spec HTTP_SCAN_CAP (zlen data)); lia).
  apply wp_if; intros H1; zbool; [apply wp_err; by left|].
  apply wp_if; intros H2; zbool; [apply wp_err; by left|].
  apply wp_if; intros H3; zbool; [apply wp_err; left; congruence|].
  apply wp_bind. eapply wp_mono; [| |apply find_header_end_wp]; [|done|lia].
  intros [e|] He.
  - pose proof He as (He0 & He4 & _). assert (Hh : http_headers data e) by done.
    eapply wp_mono; [| |apply (extract_host_line_wp data (e + 2) host_out); lia].
    + intros o (v & m & Hv & Hm & Ho). exists v, m. split; [|done]. by exists e.
    + intros [] Herr; [done|destruct Herr as (v & m & Hv); right; right; by exists e, v, m|right; by exists e].
  - apply wp_if; intros Hc; zbool; apply wp_err; [right; left|right]; done.
Qed.

Lemma http_refused_sound P data host_size err v m :
  0 <= host_size -> http_refused P data host_size err -> ~ http_host_at P data host_size v m.
Proof.
  intros Hs Hr (e & (Hq & H4 & He) & Hv & Hm). destruct err; cbn [http_refused] in Hr.
  - destruct Hr as [Hr|(_ & Hr & _)]; [lia|by apply (Hr e)].
  - destruct Hr as [Hr|[(_ & Hr & _)|(e' & v' & m' & (_ & _ & He') & Hv' & Hr)]]; [lia|by apply (Hr e)|].
    rewrite (header_end_unique _ _ _ _ He' He) in Hv'.
    destruct (host_value_unique _ _ _ _ _ _ _ Hv Hv') as [_ ->]. lia.
  - destruct Hr as [Hr|(e' & (_ & _ & He') & Hr)]; [done|].
    rewrite (header_end_unique _ _ _ _ He' He) in Hr. by apply (Hr v m).
Qed.

(** Only what is a Host line matters. *)
Lemma host_value_ext h n P Q v m :
  (forall ls le, 0 <= ls -> line h n ls le -> P ls le <-> Q ls le) -> host_value h n P v m -> host_value h n Q v m.
Proof.
  intros Hpq (ls & le & Hw & Hl & Hp & H).
  assert (Hr : 0 <= ls /\ rtc (next_line h n Q) 0 ls).
  { revert Hw. clear -Hpq. revert ls. apply (rtc_ind_r (fun ls => 0 <= ls /\ rtc (next_line h n Q) 0 ls)).
    { by split; [lia|]. }
    intros x y Hw (le & Hl & Hn & ->) [IH0 IH].
    pose proof Hl as (? & _). split; [lia|]. eapply rtc_r; [exact IH|]. exists le.
    rewrite <- (Hpq _ _ IH0 Hl). done. }
  destruct Hr as [H0 Hr]. exists ls, le. rewrite <- (Hpq _ _ H0 Hl). done.
Qed.

Lemma taken_host_exact data ls le :
  (forall i, ~ mistaken_host data i (i + 5)) -> taken_host data ls le <-> host_header data ls le.
Proof.
  intros Hno. unfold taken_host. split; [|by left]. intros [|(? & ? & ?)]; [done|].
  destruct (Hno ls). split; [lia|done].
Qed.

(** A request without a Host header, but with a line that is taken for one. *)
Definition mistaken_request : list Z :=
  str "GET / HTTP/1.1" ++ [13; 10] ++ str "Host" ++ [0x1a] ++ str "a.com" ++ [13; 10; 13; 10].

Lemma mistaken_request_hostless ls le : ~ host_header mistaken_request ls le.
Proof.
  intros [_ H].
  assert (Hc : forallb (fun k => bool_decide (lower (take 5 (drop k mistaken_request)) <> str "host:")) (seq 0 31) = true)
    by (vm_compute; reflexivity).
  unfold bsub in H. change (Z.to_nat 5) with 5%nat in H.
  destruct (decide (Z.to_nat ls < 31)%nat) as [Hl|Hl].
  - rewrite forallb_forall in Hc. specialize (Hc (Z.to_nat ls) ltac:(apply in_seq; lia)).
    by apply bool_decide_eq_true in Hc.
  - rewrite drop_ge in H; [done|]. change (length mistaken_request) with 30%nat. lia.
Qed.

(** C7: [http_parse_host] on any bytes never reads or writes out of bounds
    and always terminates. It returns [PACKET_OK] exactly when the bytes start
    with a known method, the blank line lies within the first 8192 bytes, and
    the first line before it that is taken for a Host header has a non-empty
    value (leading spaces dropped) that fits the caller's buffer, which then
    holds that value, NUL-terminated; each error says what [http_parse.h] says
    it does. Taken for a Host header are the lines that start with the name in
    any case and a colon and, although they are no Host headers, those with the
    control byte 0x1A in the place of the colon: on bytes without such a line
    the result is that for the Host headers alone, and there are bytes on which
    it is not: a request without a Host header, of which a host is returned. *)
Theorem http_parse_host_correct data host_out :
  match http_parse_host data host_out with
  | Ok o => exists v m, http_host_at (taken_host data) data (zlen host_out) v m /\
              o = bsub data v m ++ 0 :: bfrom host_out (m + 1)
  | Err err => http_refused (taken_host data) data (zlen host_out) err /\
      forall v m, ~ http_host_at (taken_host data) data (zlen host_out) v m
  | Fault => False
  end /\
  ((forall i, ~ mistaken_host data i (i + 5)) ->
   forall v m, http_host_at (taken_host data) data (zlen host_out) v m <->
               http_host_at (host_header data) data (zlen host_out) v m) /\
  (exists request out, http_parse_host request out = Ok (str "a.com" ++ [0]) /\
     forall ls le, ~ host_header request ls le).
Proof.
  pose proof (http_parse_host_wp data host_out) as W. split; [|split].
  - destruct (http_parse_host data host_out) as [o|err|]; [done| |done]. split; [done|]. intros v m.
    apply (http_refused_sound _ _ _ err); [apply zlen_nonneg|done].
  - intros Hno v m. split; intros (e & He & Hv & Hm); exists e; (split; [done|]; split; [|done]);
      (eapply host_value_ext; [|exact Hv]); intros ls le _ _; by rewrite taken_host_exact.
  - exists mistaken_request, (repeat 7 6). split; [vm_compute; reflexivity|]. apply mistaken_request_hostless.
Qed.

Definition sample_request : list Z :=
  str "GET / HTTP/1.1" ++ [13; 10] ++ str "Accept: x" ++ [13; 10] ++
  str "HOST:  example.com" ++ [13; 10; 13; 10].

Example http_parse_host_sample :
  http_parse_host sample_request (repeat 7 12) = Ok (str "example.com" ++ [0]).
Proof. vm_compute. reflexivity. Qed.

Lemma http_parse_host_correct_witness :
  (forall i, ~ mistaken_host sample_request i (i + 5)) /\
  exists v m, http_host_at (host_header sample_request) sample_request 12 v m /\
    str "example.com" ++ [0] = bsub sample_request v m ++ 0 :: bfrom (repeat 7 12) (m + 1).
Proof.
  assert (Hno : forall i, ~ mistaken_host sample_request i (i + 5)).
  { intros i (_ & _ & H). assert (Hc : forallb (fun x => negb (x =? 0x1a)) sample_request = true) by (vm_compute; reflexivity).
    rewrite forallb_forall in Hc. unfold bget in H.
    destruct (sample_request !! Z.to_nat (i + 4)) as [x|] eqn:Hx; [|discriminate H].
    cbn in H. subst x. specialize (Hc 0x1a (proj1 (list_elem_of_In _ _) (list_elem_of_lookup_2 _ _ _ Hx))). discriminate Hc. }
  split; [exact Hno|].
  pose proof (http_parse_host_correct sample_request (repeat 7 12)) as (H1 & H2 & _).
  rewrite http_parse_host_sample in H1. destruct H1 as (v & m & H & E).
  exists v, m. split; [apply (H2 Hno); exact H|exact E].
Defined.
