(* ===== verification/Text.v ===== *)
(** * Numbers and words as text

    The parts of [strtol], [snprintf] and [sscanf] the program uses to read
    and write its configuration and cache files, with their round trips. *)

From stdpp Require Import base list numbers strings.
From Stdlib Require Import ZArith Lia.
From S2P Require Import Prelude.

(** [strtol(s, &end, 10)] with a 64-bit [long]: the value and the string at
    [end] (the whole of [s] when there is no digit). *)
Definition LONG_MAX : Z := 2 ^ 63 - 1.
Definition LONG_MIN : Z := - 2 ^ 63.

Definition isspace (c : Z) : bool := (c =? 32) || ((9 <=? c) && (c <=? 13)).
Definition isdigit (c : Z) : bool := (48 <=? c) && (c <=? 57).

Fixpoint skip_space (s : list Z) : list Z :=
  match s with
  | c :: s' => if isspace c then skip_space s' else s
  | [] => []
  end.

Fixpoint read_digits (acc : Z) (s : list Z) : Z * list Z :=
  match s with
  | c :: s' => if isdigit c then read_digits (acc * 10 + (c - 48)) s' else (acc, s)
  | [] => (acc, [])
  end.

Definition strtol10 (s : list Z) : Z * list Z :=
  let t := skip_space s in
  let '(neg, t) :=
    match t with
    | c :: t' => if c =? 45 then (true, t') else if c =? 43 then (false, t') else (false, t)
    | [] => (false, [])
    end in
  match t with
  | c :: _ =>
      if isdigit c then
        let '(v, rest) := read_digits 0 t in
        (Z.max LONG_MIN (Z.min LONG_MAX (if (neg : bool) then - v else v)), rest)
      else (0, s)
  | [] => (0, s)
  end.

(** [%lld] for a value that fits 20 digits, and [%016llx]. *)
Fixpoint dec_digits (fuel : nat) (n : Z) : list Z :=
  match fuel with
  | O => []
  | S fuel' => if n <? 10 then [48 + n] else dec_digits fuel' (n / 10) ++ [48 + n mod 10]
  end.
Definition print_dec (n : Z) : list Z :=
  if n <? 0 then 45 :: dec_digits 20 (- n) else dec_digits 20 n.

Definition hex_digit (d : Z) : Z := if d <? 10 then 48 + d else 87 + d.
Fixpoint hex_digits (width : nat) (n : Z) : list Z :=
  match width with
  | O => []
  | S width' => hex_digits width' (n / 16) ++ [hex_digit (n mod 16)]
  end.

(** [sscanf(s, "%lld", &v) == 1] and [sscanf(s, "%llx", &v) == 1]: the value,
    or [None] when no conversion is made. *)
Definition split_sign (s : list Z) : bool * list Z :=
  match s with
  | c :: s' => if c =? 45 then (true, s') else if c =? 43 then (false, s') else (false, s)
  | [] => (false, [])
  end.

Definition scan_dec (s : list Z) : option Z :=
  let '(neg, t) := split_sign (skip_space s) in
  match t with
  | c :: _ =>
      if isdigit c then
        let '(v, _) := read_digits 0 t in
        Some (Z.max LONG_MIN (Z.min LONG_MAX (if neg then - v else v)))
      else None
  | [] => None
  end.

Definition hex_value (c : Z) : option Z :=
  if isdigit c then Some (c - 48)
  else if (97 <=? c) && (c <=? 102) then Some (c - 87)
  else if (65 <=? c) && (c <=? 70) then Some (c - 55)
  else None.

Fixpoint read_hex (acc : Z) (s : list Z) : Z :=
  match s with
  | c :: s' => match hex_value c with Some d => read_hex (acc * 16 + d) s' | None => acc end
  | [] => acc
  end.

Definition scan_hex (s : list Z) : option Z :=
  let '(neg, t) := split_sign (skip_space s) in
  let t := match t with
           | z :: x :: t' => if (z =? 48) && (tolower x =? 120) then t' else t
           | _ => t
           end in
  match t with
  | c :: _ =>
      match hex_value c with
      | Some _ =>
          let v := Z.min (2 ^ 64 - 1) (read_hex 0 t) in
          Some (u64 (if (neg : bool) then - v else v))
      | None => None
      end
  | [] => None
  end.

(** [%<width>s]: skips white space, then takes at most [width] other
    characters; [None] when there is none. *)
Fixpoint take_word (width : nat) (s : list Z) : list Z * list Z :=
  match width, s with
  | S width', c :: s' =>
      if isspace c then ([], s)
      else let '(w, r) := take_word width' s' in (c :: w, r)
  | _, _ => ([], s)
  end.

Definition scan_word (width : nat) (s : list Z) : option (list Z * list Z) :=
  match take_word width (skip_space s) with
  | ([], _) => None
  | (w, r) => Some (w, r)
  end.

(** ** Round trips *)

Lemma read_digits_app acc l r :
  Forall (fun c => isdigit c = true) l ->
  (match r with c :: _ => isdigit c = false | [] => True end) ->
  exists v, read_digits acc (l ++ r) = (v, r) /\ read_digits acc l = (v, []).
Proof.
  revert acc. induction l as [|c l IH]; intros acc Hl Hr.
  - exists acc. destruct r as [|c r]; cbn; [done|]. by rewrite Hr.
  - inversion Hl as [|? ? Hc Hl']; subst. cbn [app read_digits]. rewrite Hc. by apply IH.
Qed.

Lemma read_digits_snoc acc l d v :
  read_digits acc l = (v, []) -> 0 <= d <= 9 ->
  read_digits acc (l ++ [48 + d]) = (v * 10 + d, []).
Proof.
  intros H Hd. revert acc H. induction l as [|c l IH]; intros acc H; cbn in *.
  - injection H as ->. unfold isdigit.
    rewrite (proj2 (Z.leb_le 48 _)), (proj2 (Z.leb_le _ 57)) by lia. cbn [andb].
    f_equal. lia.
  - destruct (isdigit c); [by apply IH|done].
Qed.

Lemma isdigit_48 d : 0 <= d <= 9 -> isdigit (48 + d) = true.
Proof. intros. unfold isdigit. by rewrite !(proj2 (Z.leb_le _ _)) by lia. Qed.

Lemma dec_digits_spec fuel n :
  0 <= n < 10 ^ Z.of_nat fuel ->
  Forall (fun c => isdigit c = true) (dec_digits fuel n) /\
  (fuel <> O -> exists c l, dec_digits fuel n = c :: l) /\
  read_digits 0 (dec_digits fuel n) = (n, []) /\ (length (dec_digits fuel n) <= fuel)%nat.
Proof.
  revert n. induction fuel as [|fuel IH]; intros n Hn.
  { replace n with 0 by (change (10 ^ Z.of_nat 0) with 1 in Hn; lia). by repeat split. }
  rewrite Nat2Z.inj_succ, Z.pow_succ_r in Hn by lia. cbn [dec_digits].
  destruct (Z.ltb_spec n 10) as [Hlt|Hge].
  - pose proof (isdigit_48 n ltac:(lia)) as Hd. refine (conj _ (conj _ (conj _ _))).
    + by constructor.
    + intros _. by eexists _, _.
    + cbn [read_digits]. rewrite Hd. f_equal. lia.
    + cbn. lia.
  - pose proof (Z.div_mod n 10 ltac:(lia)) as Hdm. pose proof (Z.mod_pos_bound n 10 ltac:(lia)).
    destruct (IH (n / 10)) as (H1 & H2 & H3 & H4).
    { split; [apply Z.div_pos; lia|]. apply Z.div_lt_upper_bound; lia. }
    refine (conj _ (conj _ (conj _ _))).
    + apply Forall_app_2; [done|]. constructor; [|constructor]. apply isdigit_48. lia.
    + intros _. destruct (dec_digits fuel (n / 10)); by eexists _, _.
    + rewrite (read_digits_snoc _ _ _ (n / 10)) by (done || lia). f_equal. lia.
    + rewrite length_app. cbn. lia.
Qed.

(** A printed number is a word: no white space, at most 21 characters. *)
Definition is_word (w : list Z) : Prop := Forall (fun c => isspace c = false /\ c <> 0 /\ c <> 10) w.

Lemma digit_word c : isdigit c = true -> isspace c = false /\ c <> 0 /\ c <> 10.
Proof.
  unfold isdigit, isspace. intros H. zbool.
  rewrite (proj2 (Z.eqb_neq _ _)), (proj2 (Z.leb_gt c 13)), andb_false_r by lia. lia.
Qed.

Lemma print_dec_word n :
  LONG_MIN <= n <= LONG_MAX ->
  is_word (print_dec n) /\ 0 < zlen (print_dec n) <= 21 /\ scan_dec (print_dec n) = Some n.
Proof.
  unfold LONG_MIN, LONG_MAX. intros Hn. unfold print_dec.
  assert (Hd : forall m, 0 <= m <= 2 ^ 63 ->
    let l := dec_digits 20 m in
    is_word l /\ 0 < zlen l <= 20 /\ read_digits 0 l = (m, []) /\
    exists c l', l = c :: l' /\ isdigit c = true).
  { intros m Hm l. destruct (dec_digits_spec 20 m) as (H1 & H2 & H3 & H4).
    { change (10 ^ Z.of_nat 20) with 100000000000000000000. lia. }
    destruct H2 as (c & l' & E); [done|]. fold l in H1, H3, H4, E. clearbody l.
    refine (conj _ (conj _ (conj H3 _))).
    - apply (Forall_impl _ _ _ H1). apply digit_word.
    - unfold zlen. rewrite E in *. cbn [length] in *. lia.
    - exists c, l'. split; [done|]. rewrite E in H1. by inversion H1. }
  assert (Hskip : forall c l, isdigit c = true -> split_sign (skip_space (c :: l)) = (false, c :: l)).
  { intros c l Hc. cbn [skip_space]. destruct (digit_word c Hc) as [-> _]. unfold isdigit in Hc.
    zbool. cbn [split_sign]. by rewrite !(proj2 (Z.eqb_neq _ _)) by lia. }
  destruct (Z.ltb_spec n 0).
  - destruct (Hd (- n)) as (H1 & H2 & H3 & c & l' & E & Hc); [lia|].
    set (l := dec_digits 20 (- n)) in *. clearbody l. refine (conj _ (conj _ _)).
    + by constructor.
    + rewrite zlen_cons. lia.
    + change (scan_dec (45 :: l)) with
        (match l with
         | c :: _ => if isdigit c then let '(v, _) := read_digits 0 l in
             Some (Z.max LONG_MIN (Z.min LONG_MAX (- v))) else None
         | [] => None end).
      rewrite E in *. rewrite Hc, H3. unfold LONG_MIN, LONG_MAX. f_equal. lia.
  - destruct (Hd n) as (H1 & H2 & H3 & c & l' & E & Hc); [lia|].
    set (l := dec_digits 20 n) in *. clearbody l. refine (conj H1 (conj _ _)); [lia|].
    unfold scan_dec. rewrite E in *. rewrite Hskip, Hc, H3 by done.
    unfold LONG_MIN, LONG_MAX. f_equal. lia.
Qed.

Lemma hex_digit_value d : 0 <= d < 16 -> hex_value (hex_digit d) = Some d.
Proof.
  intros Hd. unfold hex_digit, hex_value, isdigit.
  destruct (Z.ltb_spec d 10).
  - rewrite !(proj2 (Z.leb_le _ _)) by lia. cbn [andb]. f_equal. lia.
  - rewrite (proj2 (Z.leb_gt (87 + d) 57)), andb_false_r by lia.
    rewrite !(proj2 (Z.leb_le _ _)) by lia. cbn [andb]. f_equal. lia.
Qed.

(** Characters of a printed hexadecimal number. *)
Definition is_hex (c : Z) : Prop :=
  hex_value c <> None /\ isspace c = false /\ c <> 0 /\ c <> 10 /\ tolower c <> 120 /\
  c <> 45 /\ c <> 43.

Lemma hex_digit_is_hex d : 0 <= d < 16 -> is_hex (hex_digit d).
Proof.
  intros Hd. unfold is_hex. rewrite hex_digit_value by done.
  unfold hex_digit, isspace, tolower. destruct (Z.ltb_spec d 10).
  - rewrite (proj2 (Z.leb_gt _ 13)), andb_false_r, (proj2 (Z.eqb_neq _ _)) by lia.
    rewrite (proj2 (Z.leb_gt 65 _)) by lia. cbn [andb orb]. repeat split; done || lia.
  - rewrite (proj2 (Z.leb_gt _ 13)), andb_false_r, (proj2 (Z.eqb_neq _ _)) by lia.
    rewrite (proj2 (Z.leb_gt _ 90)), andb_false_r by lia. cbn [orb]. repeat split; done || lia.
Qed.

Lemma read_hex_snoc acc l d :
  Forall is_hex l -> 0 <= d < 16 ->
  read_hex acc (l ++ [hex_digit d]) = read_hex acc l * 16 + d.
Proof.
  intros Hl Hd. revert acc. induction Hl as [|c l [Hc _] Hl IH]; intros acc; cbn [app read_hex].
  - by rewrite hex_digit_value.
  - destruct (hex_value c); [apply IH|done].
Qed.

Lemma hex_digits_spec w n :
  0 <= n < 16 ^ Z.of_nat w ->
  Forall is_hex (hex_digits w n) /\ length (hex_digits w n) = w /\
  read_hex 0 (hex_digits w n) = n.
Proof.
  revert n. induction w as [|w IH]; intros n Hn.
  { change (16 ^ Z.of_nat 0) with 1 in Hn. repeat split; [constructor|]. cbn. lia. }
  rewrite Nat2Z.inj_succ, Z.pow_succ_r in Hn by lia. cbn [hex_digits].
  pose proof (Z.div_mod n 16 ltac:(lia)). pose proof (Z.mod_pos_bound n 16 ltac:(lia)).
  destruct (IH (n / 16)) as (H1 & H2 & H3).
  { split; [apply Z.div_pos; lia|]. apply Z.div_lt_upper_bound; lia. }
  refine (conj _ (conj _ _)).
  - apply Forall_app_2; [done|]. constructor; [|constructor]. by apply hex_digit_is_hex.
  - rewrite length_app, H2. cbn. lia.
  - rewrite read_hex_snoc, H3 by done. lia.
Qed.

Lemma print_hex_word n :
  0 <= n < 2 ^ 64 ->
  is_word (hex_digits 16 n) /\ zlen (hex_digits 16 n) = 16 /\
  scan_hex (hex_digits 16 n) = Some n.
Proof.
  intros Hn. destruct (hex_digits_spec 16 n) as (H1 & H2 & H3).
  { change (16 ^ Z.of_nat 16) with (2 ^ 64). lia. }
  set (l := hex_digits 16 n) in *. clearbody l. refine (conj _ (conj _ _)).
  - apply (Forall_impl _ _ _ H1). intros c (_ & ? & ? & ? & _). done.
  - unfold zlen. by rewrite H2.
  - destruct l as [|c [|x l]]; [done|done|].
    inversion H1 as [|? ? Hc H1']; subst. inversion H1' as [|? ? Hx _]; subst.
    destruct Hc as (Hv & Hsp & _ & _ & _ & Hm & Hp). destruct Hx as (_ & _ & _ & _ & Hx & _).
    unfold scan_hex. cbn [skip_space]. rewrite Hsp. cbn [split_sign].
    rewrite (proj2 (Z.eqb_neq _ _) Hm), (proj2 (Z.eqb_neq _ _) Hp).
    rewrite (proj2 (Z.eqb_neq _ _) Hx), andb_false_r.
    destruct (hex_value c); [|done]. f_equal. unfold u64.
    rewrite Z.min_r by lia. apply Z.mod_small. lia.
Qed.

(** Reading back one word of a line. *)
Lemma scan_word_length width s w r :
  scan_word width s = Some (w, r) -> (length w <= width)%nat.
Proof.
  unfold scan_word. generalize (skip_space s) as t. intros t H.
  assert (Ht : (length (take_word width t).1 <= width)%nat).
  { clear H. revert t. induction width as [|n IH]; intros t; [done|].
    destruct t as [|c t]; cbn; [lia|]. destruct (isspace c); [cbn; lia|].
    specialize (IH t). destruct (take_word n t) as [w' r']. cbn [fst] in *. cbn. lia. }
  destruct (take_word width t) as [[|c w'] r']; [done|]. injection H as <- <-. exact Ht.
Qed.

Lemma scan_word_app width w c r :
  is_word w -> 0 < zlen w -> (length w <= width)%nat -> isspace c = true ->
  scan_word width (w ++ c :: r) = Some (w, c :: r) /\
  scan_word width (32 :: w ++ c :: r) = Some (w, c :: r).
Proof.
  intros Hw Hl Hlen Hc.
  assert (Ht : forall width w, is_word w -> (length w <= width)%nat ->
            take_word width (w ++ c :: r) = (w, c :: r)).
  { clear - Hc. intros width w Hw. revert width.
    induction Hw as [|x w [Hx _] Hw IH]; intros width Hlen; cbn [app].
    - destruct width; cbn; [done|]. by rewrite Hc.
    - destruct width; cbn [length take_word] in *; [lia|]. rewrite Hx, IH by lia. done. }
  destruct w as [|x w]; [done|].
  pose proof Hw as Hw'. inversion Hw' as [|? ? [Hx _] _]; subst.
  assert (E : skip_space ((x :: w) ++ c :: r) = (x :: w) ++ c :: r)
    by (cbn [app skip_space]; by rewrite Hx).
  unfold scan_word. split.
  - by rewrite E, Ht.
  - change (skip_space (32 :: (x :: w) ++ c :: r)) with (skip_space ((x :: w) ++ c :: r)).
    by rewrite E, Ht.
Qed.

(** The last word of a line. *)
Lemma scan_word_last width w :
  is_word w -> 0 < zlen w -> (length w <= width)%nat ->
  scan_word width (32 :: w) = Some (w, []).
Proof.
  intros Hw Hl Hlen.
  assert (Ht : forall width w, is_word w -> (length w <= width)%nat -> take_word width w = (w, [])).
  { clear. intros width w Hw. revert width.
    induction Hw as [|x w [Hx _] Hw IH]; intros width Hlen; [by destruct width|].
    destruct width; cbn [length take_word] in *; [lia|]. rewrite Hx, IH by lia. done. }
  destruct w as [|x w]; [done|].
  pose proof Hw as Hw'. inversion Hw' as [|? ? [Hx _] _]; subst.
  unfold scan_word. change (skip_space (32 :: x :: w)) with (skip_space (x :: w)).
  cbn [skip_space]. by rewrite Hx, Ht.
Qed.

(** ** Conversions in the middle of a format

    [%lld] and [%llx] that are followed by others: the value and the rest of
    the input. *)

Definition scan_dec_rest (s : list Z) : option (Z * list Z) :=
  let '(neg, t) := split_sign (skip_space s) in
  match t with
  | c :: _ =>
      if isdigit c then
        let '(v, r) := read_digits 0 t in
        Some (Z.max LONG_MIN (Z.min LONG_MAX (if (neg : bool) then - v else v)), r)
      else None
  | [] => None
  end.

(** [%d] stores the low 32 bits of that value. *)
Definition i32 (v : Z) : Z := (v + 2 ^ 31) mod 2 ^ 32 - 2 ^ 31.
Definition scan_int_rest (s : list Z) : option (Z * list Z) :=
  '(v, r) ← scan_dec_rest s; Some (i32 v, r).

Fixpoint read_hex_rest (acc : Z) (s : list Z) : Z * list Z :=
  match s with
  | c :: s' =>
      match hex_value c with Some d => read_hex_rest (acc * 16 + d) s' | None => (acc, s) end
  | [] => (acc, [])
  end.

Definition scan_hex_rest (s : list Z) : option (Z * list Z) :=
  let '(neg, t) := split_sign (skip_space s) in
  let t := match t with
           | z :: x :: t' => if (z =? 48) && (tolower x =? 120) then t' else t
           | _ => t
           end in
  match t with
  | c :: _ =>
      match hex_value c with
      | Some _ =>
          let '(v, r) := read_hex_rest 0 t in
          let v := Z.min (2 ^ 64 - 1) v in
          Some (u64 (if (neg : bool) then - v else v), r)
      | None => None
      end
  | [] => None
  end.

(** What may follow a printed number. *)
Definition breaks (r : list Z) : Prop :=
  match r with c :: _ => isspace c = true | [] => True end.

Lemma isspace_not_hex c : isspace c = true -> hex_value c = None /\ isdigit c = false.
Proof.
  unfold isspace. intros [H|H]%orb_prop.
  - apply Z.eqb_eq in H as ->. done.
  - zbool. unfold hex_value, isdigit. rewrite (proj2 (Z.leb_gt 48 c)), (proj2 (Z.leb_gt 97 c)),
      (proj2 (Z.leb_gt 65 c)) by lia. done.
Qed.

Lemma scan_dec_printed n r :
  LONG_MIN <= n <= LONG_MAX -> breaks r ->
  scan_dec_rest (32 :: print_dec n ++ r) = Some (n, r).
Proof.
  intros Hn Hr. unfold LONG_MIN, LONG_MAX in Hn.
  assert (Hd : forall m, 0 <= m <= 2 ^ 63 -> exists c l, dec_digits 20 m = c :: l /\
            isdigit c = true /\ read_digits 0 (dec_digits 20 m ++ r) = (m, r)).
  { intros m Hm. destruct (dec_digits_spec 20 m) as (H1 & H2 & H3 & _).
    { change (10 ^ Z.of_nat 20) with 100000000000000000000. lia. }
    destruct H2 as (c & l & E); [done|]. exists c, l. split; [done|].
    split; [rewrite E in H1; by inversion H1|].
    destruct (read_digits_app 0 (dec_digits 20 m) r H1) as (v & Ev & Ev').
    { destruct r as [|x r]; [done|]. by apply isspace_not_hex. }
    rewrite H3 in Ev'. by injection Ev' as <-. }
  unfold print_dec, scan_dec_rest.
  change (skip_space (32 :: ?l)) with (skip_space l).
  destruct (Z.ltb_spec n 0).
  - destruct (Hd (- n) ltac:(lia)) as (c & l & E & Hc & Hv). rewrite E in *.
    change (skip_space ((45 :: c :: l) ++ r)) with (45 :: (c :: l) ++ r).
    change (split_sign (45 :: (c :: l) ++ r)) with (true, (c :: l) ++ r). cbv iota.
    rewrite Hv. cbn [app]. rewrite Hc. unfold LONG_MIN, LONG_MAX. do 2 f_equal. lia.
  - destruct (Hd n ltac:(lia)) as (c & l & E & Hc & Hv). rewrite E in *.
    destruct (digit_word c Hc) as (Hsp & _). cbn [app skip_space] in *. rewrite Hsp.
    unfold isdigit in Hc. cbn [split_sign]. zbool.
    rewrite !(proj2 (Z.eqb_neq c _)) by lia. unfold isdigit.
    rewrite !(proj2 (Z.leb_le _ _)) by lia. cbn [andb]. rewrite Hv.
    unfold LONG_MIN, LONG_MAX. do 2 f_equal. lia.
Qed.

Lemma read_hex_rest_app acc l r :
  Forall is_hex l -> breaks r -> read_hex_rest acc (l ++ r) = (read_hex acc l, r).
Proof.
  intros Hl Hr. revert acc. induction Hl as [|c l [Hc _] _ IH]; intros acc; cbn [app].
  - destruct r as [|x r]; [done|]. cbn. by rewrite (proj1 (isspace_not_hex x Hr)).
  - cbn [read_hex_rest read_hex]. destruct (hex_value c); [apply IH|done].
Qed.

Lemma scan_hex_printed n r :
  0 <= n < 2 ^ 64 -> breaks r -> scan_hex_rest (32 :: hex_digits 16 n ++ r) = Some (n, r).
Proof.
  intros Hn Hr. destruct (hex_digits_spec 16 n) as (H1 & H2 & H3).
  { change (16 ^ Z.of_nat 16) with (2 ^ 64). lia. }
  pose proof (read_hex_rest_app 0 _ r H1 Hr) as Hread. rewrite H3 in Hread.
  set (l := hex_digits 16 n) in *. clearbody l.
  destruct l as [|c [|x l]]; [done|done|].
  inversion H1 as [|? ? Hc H1']; subst. inversion H1' as [|? ? Hx _]; subst.
  destruct Hc as (Hv & Hsp & _ & _ & _ & Hm & Hp). destruct Hx as (_ & _ & _ & _ & Hx & _).
  unfold scan_hex_rest. change (skip_space (32 :: ?k)) with (skip_space k).
  cbn [app skip_space] in *. rewrite Hsp. cbn [split_sign].
  rewrite (proj2 (Z.eqb_neq _ _) Hm), (proj2 (Z.eqb_neq _ _) Hp).
  rewrite (proj2 (Z.eqb_neq _ _) Hx), andb_false_r.
  destruct (hex_value c); [|done]. rewrite Hread. f_equal. f_equal. unfold u64.
  rewrite Z.min_r by lia. apply Z.mod_small. lia.
Qed.
