(* ===== verification/Strategy.v ===== *)
(** * Strategy configuration ([src/strategy/strategy.c], [include/strategy.h])

    The bypass actions, chains of actions with their whitelist, the
    configuration file parser and the rule lookup. A [char *] is the list of
    its characters before the NUL; a chain is the list of the first
    [action_count] entries of the C array; the rule table is the list of its
    first [rule_count] entries. *)

From stdpp Require Import base list numbers strings relations.
From Stdlib Require Import ZArith Lia.
From S2P Require Import Prelude Text.

(** ** Data *)

Inductive strategy :=
| STRATEGY_PASS
| STRATEGY_SPLIT
| STRATEGY_DISORDER
| STRATEGY_FAKE
| STRATEGY_FRAGMENT
| STRATEGY_TLSREC
| STRATEGY_TLSREC_SPLIT.

#[global] Instance strategy_eq_dec : EqDecision strategy.
Proof. solve_decision. Defined.

Definition STRATEGY_MAX_DOMAINS : Z := 256.
Definition STRATEGY_DOMAIN_MAX : Z := 256.
Definition STRATEGY_CHAIN_MAX : Z := 2.
Definition STRATEGY_DEFAULT_FAKE_TTL : Z := 8.

Definition strategy_chain : Type := list strategy.

Record strategy_rule := mk_rule {
  rule_domain : list Z;
  rule_chain : strategy_chain
}.

Record strategy_config := mk_config {
  default_strategy : strategy;
  rules : list strategy_rule;
  fake_ttl : Z
}.

(** ** The code *)

Definition strategy_config_init : strategy_config :=
  mk_config STRATEGY_PASS [] STRATEGY_DEFAULT_FAKE_TTL.

Definition strategy_name (s : strategy) : list Z :=
  match s with
  | STRATEGY_PASS => str "pass"
  | STRATEGY_SPLIT => str "split"
  | STRATEGY_DISORDER => str "disorder"
  | STRATEGY_FAKE => str "fake"
  | STRATEGY_FRAGMENT => str "fragment"
  | STRATEGY_TLSREC => str "tlsrec"
  | STRATEGY_TLSREC_SPLIT => str "tlsrec-split"
  end.

Definition suffix_match (domain suffix : list Z) : bool :=
  let dlen := zlen domain in
  let slen := zlen suffix in
  if (slen =? 0) || negb (bget suffix 0 =? 46) || (dlen + 1 <? slen) then false else
  if slen =? dlen + 1 then ieq domain (bfrom suffix 1) else
  let tail_start := dlen - slen in
  ieq (bfrom domain tail_start) suffix.

Definition strategy_from_name (name : list Z) : option strategy :=
  if ieq name (str "pass") then Some STRATEGY_PASS else
  if ieq name (str "split") then Some STRATEGY_SPLIT else
  if ieq name (str "disorder") then Some STRATEGY_DISORDER else
  if ieq name (str "fake") then Some STRATEGY_FAKE else
  if ieq name (str "fragment") then Some STRATEGY_FRAGMENT else
  if ieq name (str "tlsrec") then Some STRATEGY_TLSREC else
  if ieq name (str "tlsrec-split") then Some STRATEGY_TLSREC_SPLIT else
  None.

Fixpoint chain_matches (chain pattern : strategy_chain) : bool :=
  match chain, pattern with
  | [], [] => true
  | a :: chain', p :: pattern' => bool_decide (a = p) && chain_matches chain' pattern'
  | _, _ => false
  end.

Definition strategy_chain_is_safe (chain : strategy_chain) : bool :=
  let action_count := zlen chain in
  if action_count =? 1 then true else
  if action_count =? 2 then
    chain_matches chain [STRATEGY_FAKE; STRATEGY_SPLIT]
    || chain_matches chain [STRATEGY_SPLIT; STRATEGY_FAKE]
  else false.

(** The inner loop: at most [room] characters before a ['+'] or the end. *)
Fixpoint read_token (room : nat) (s : list Z) : list Z * list Z :=
  match room, s with
  | S room', c :: s' =>
      if c =? 43 then ([], s)
      else let '(token, rest) := read_token room' s' in (c :: token, rest)
  | _, _ => ([], s)
  end.

(** One round of the outer loop on the rest of the string. *)
Definition chain_token_step (st : list Z * strategy_chain)
  : res unit ((list Z * strategy_chain) + strategy_chain) :=
  let '(s, actions) := st in
  let '(token, rest) := read_token 63 s in
  if match rest with [] => false | c :: _ => negb (c =? 43) end then Err tt else
  if zlen token =? 0 then Err tt else
  match strategy_from_name token with
  | None => Err tt
  | Some parsed =>
      if STRATEGY_CHAIN_MAX <=? zlen actions then Err tt else
      let actions := actions ++ [parsed] in
      match rest with
      | [] => Ok (inr actions)
      | _ :: s' => Ok (inl (s', actions))
      end
  end.

Definition strategy_chain_from_string (s : list Z) : res unit strategy_chain :=
  chain ← loop (S (length s)) chain_token_step (s, []);
  let chain :=
    if bool_decide (chain = [STRATEGY_SPLIT; STRATEGY_DISORDER])
    then [STRATEGY_DISORDER] else chain in
  if negb (strategy_chain_is_safe chain) then Err tt else Ok chain.

(** The characters written so far; [buf_size] leaves room for the NUL. *)
Fixpoint append_name (buf_size : Z) (buf name : list Z) : list Z :=
  match name with
  | [] => buf
  | c :: name' =>
      if zlen buf + 1 <? buf_size then append_name buf_size (buf ++ [c]) name' else buf
  end.

Fixpoint describe_actions (buf_size i : Z) (buf : list Z) (chain : strategy_chain)
  : list Z :=
  match chain with
  | [] => buf
  | a :: chain' =>
      let buf := if (0 <? i) && (zlen buf + 1 <? buf_size) then buf ++ [43] else buf in
      describe_actions buf_size (i + 1) (append_name buf_size buf (strategy_name a)) chain'
  end.

(** The C string left in [buf]; [None] when nothing is written. *)
Definition strategy_chain_describe (chain : strategy_chain) (buf_size : Z)
  : option (list Z) :=
  if buf_size =? 0 then None else Some (describe_actions buf_size 0 [] chain).

Definition exact_rule (domain : list Z) (r : strategy_rule) : bool :=
  negb (bget (rule_domain r) 0 =? 46) && ieq (rule_domain r) domain.
Definition suffix_rule (domain : list Z) (r : strategy_rule) : bool :=
  (bget (rule_domain r) 0 =? 46) && suffix_match domain (rule_domain r).

Definition strategy_has_explicit_rule (cfg : strategy_config) (domain : list Z)
  : option strategy_chain :=
  match find (exact_rule domain) (rules cfg) with
  | Some r => Some (rule_chain r)
  | None => rule_chain <$> find (suffix_rule domain) (rules cfg)
  end.

Definition strategy_chain_for_domain (cfg : strategy_config) (domain : list Z)
  : strategy_chain :=
  match strategy_has_explicit_rule cfg domain with
  | Some out => out
  | None => [default_strategy cfg]
  end.

(** [chain.actions[0]]. *)
Definition primary (chain : strategy_chain) : strategy :=
  default STRATEGY_PASS (head chain).

Definition strategy_for_domain (cfg : strategy_config) (domain : list Z) : strategy :=
  primary (strategy_chain_for_domain cfg domain).

Definition is_blank (c : Z) : bool := (c =? 32) || (c =? 9).

Fixpoint trim_left (s : list Z) : list Z :=
  match s with
  | c :: s' => if is_blank c then trim_left s' else s
  | [] => []
  end.

(** The [while (len > 0 && ...)] loop: drops blanks and CRs at the end. *)
Fixpoint trim_right (s : list Z) : list Z :=
  match s with
  | [] => []
  | c :: s' =>
      match trim_right s' with
      | [] => if is_blank c || (c =? 13) then [] else [c]
      | t => c :: t
      end
  end.

Definition trim (s : list Z) : list Z := trim_right (trim_left s).

(** [strchr(line, '=')]: the text before and after the first ['=']. *)
Fixpoint split_eq (line : list Z) : option (list Z * list Z) :=
  match line with
  | [] => None
  | c :: line' =>
      if c =? 61 then Some ([], line')
      else match split_eq line' with
           | Some (k, v) => Some (c :: k, v)
           | None => None
           end
  end.

Definition parse_kv (line : list Z) : option (list Z * list Z) :=
  match split_eq line with
  | None => None
  | Some (k, v) =>
      let key := trim k in
      let value := trim v in
      if (zlen key =? 0) || (zlen value =? 0) then None else Some (key, value)
  end.

(** Overwrites the chain of the first rule for [domain], if there is one. *)
Fixpoint update_rule (rs : list strategy_rule) (domain : list Z) (chain : strategy_chain)
  : option (list strategy_rule) :=
  match rs with
  | [] => None
  | r :: rs' =>
      if ieq (rule_domain r) domain then Some (mk_rule (rule_domain r) chain :: rs')
      else cons r <$> update_rule rs' domain chain
  end.

(** [None] is the -1 return (nothing changed). *)
Definition set_domain_rule (cfg : strategy_config) (domain : list Z)
    (chain : strategy_chain) : option strategy_config :=
  match update_rule (rules cfg) domain chain with
  | Some rs => Some (mk_config (default_strategy cfg) rs (fake_ttl cfg))
  | None =>
      if (STRATEGY_MAX_DOMAINS <=? zlen (rules cfg)) || (STRATEGY_DOMAIN_MAX <=? zlen domain)
      then None
      else Some (mk_config (default_strategy cfg)
                   (rules cfg ++ [mk_rule domain chain]) (fake_ttl cfg))
  end.

(** [Ok None] is the 0 return (another key), [Ok (Some cfg)] is 1, [Err] is -1. *)
Definition try_parse_fake_ttl (cfg : strategy_config) (key value : list Z)
  : res unit (option strategy_config) :=
  if negb (ieq key (str "fake_ttl")) then Ok None else
  let '(ttl, rest) := strtol10 value in
  if negb (zlen rest =? 0) || (ttl <? 1) || (255 <? ttl) then Err tt
  else Ok (Some (mk_config (default_strategy cfg) (rules cfg) ttl)).

(** The parser's loop state. *)
Record parse_state := mk_ps {
  ps_cfg : strategy_config;
  ps_in_domains : bool;
  ps_skipped : Z
}.

Definition skip_line (s : parse_state) : parse_state :=
  mk_ps (ps_cfg s) (ps_in_domains s) (ps_skipped s + 1).
Definition with_cfg (s : parse_state) (cfg : strategy_config) : parse_state :=
  mk_ps cfg (ps_in_domains s) (ps_skipped s).

(** The body of the loop on one line, after [trim(line)]. *)
Definition parse_domain_value (s : parse_state) (key value : list Z) : parse_state :=
  match strategy_chain_from_string value with
  | Ok chain =>
      match set_domain_rule (ps_cfg s) key chain with
      | Some cfg => with_cfg s cfg
      | None => skip_line s
      end
  | _ => skip_line s
  end.

Definition parse_top_value (s : parse_state) (key value : list Z) : parse_state :=
  match try_parse_fake_ttl (ps_cfg s) key value with
  | Ok (Some cfg) => with_cfg s cfg
  | Ok None =>
      if ieq key (str "default") then
        match strategy_from_name value with
        | Some parsed =>
            with_cfg s (mk_config parsed (rules (ps_cfg s)) (fake_ttl (ps_cfg s)))
        | None => skip_line s
        end
      else skip_line s
  | _ => skip_line s
  end.

Definition parse_line (s : parse_state) (line : list Z) : parse_state :=
  let c := bget line 0 in
  if (zlen line =? 0) || (c =? 35) || (c =? 59) then s else
  if c =? 91 then
    let in_domains := ieq line (str "[domains]") in
    mk_ps (ps_cfg s) in_domains
      (if in_domains then ps_skipped s else ps_skipped s + 1)
  else
    match parse_kv line with
    | None => skip_line s
    | Some (key, value) =>
        if ps_in_domains s then parse_domain_value s key value
        else parse_top_value s key value
    end.

(** The two inner loops: at most [room] characters up to the newline. *)
Fixpoint read_line (room : nat) (text : list Z) : list Z * list Z :=
  match room, text with
  | S room', c :: text' =>
      if c =? 10 then ([], text)
      else let '(line, rest) := read_line room' text' in (c :: line, rest)
  | _, _ => ([], text)
  end.

Fixpoint skip_to_newline (text : list Z) : list Z :=
  match text with
  | c :: text' => if c =? 10 then text else skip_to_newline text'
  | [] => []
  end.

Definition parse_step (st : parse_state * list Z)
  : res unit ((parse_state * list Z) + parse_state) :=
  let '(s, text) := st in
  match text with
  | [] => Ok (inr s)
  | _ :: _ =>
      let '(line, rest) := read_line 511 text in
      let rest := drop 1 (skip_to_newline rest) in
      Ok (inl (parse_line s (trim (cstr line)), rest))
  end.

Definition strategy_config_parse (cfg : strategy_config) (text : list Z)
  : res unit (strategy_config * Z) :=
  s ← loop (S (length text)) parse_step (mk_ps cfg false 0, text);
  Ok (ps_cfg s, ps_skipped s).

(** ** Invariant and lookup specification *)

Definition rules_unique (rs : list strategy_rule) : Prop :=
  forall i j r r', rs !! i = Some r -> rs !! j = Some r' ->
    ieq (rule_domain r) (rule_domain r') = true -> i = j.

Record config_ok (cfg : strategy_config) : Prop := {
  ok_safe : Forall (fun r => strategy_chain_is_safe (rule_chain r) = true) (rules cfg);
  ok_domains : Forall (fun r => 0 < zlen (rule_domain r) < STRATEGY_DOMAIN_MAX) (rules cfg);
  ok_unique : rules_unique (rules cfg);
  ok_count : zlen (rules cfg) <= STRATEGY_MAX_DOMAINS;
  ok_ttl : 1 <= fake_ttl cfg <= 255
}.

(** ** Chains *)

Lemma read_token_spec room s t r :
  read_token room s = (t, r) -> s = t ++ r /\ Forall (fun c => c <> 43) t /\ (length t <= room)%nat.
Proof.
  revert s t r. induction room as [|room IH]; intros s t r; [by intros [= <- <-]|].
  destruct s as [|c s]; cbn; [intros [= <- <-]; repeat split; auto; cbn; lia|].
  destruct (Z.eqb_spec c 43); [intros [= <- <-]; repeat split; auto; cbn; lia|].
  destruct (read_token room s) as [t' r'] eqn:E. intros [= <- <-].
  destruct (IH _ _ _ E) as (-> & H1 & H2). repeat split; [by constructor|cbn; lia].
Qed.

Lemma chain_token_step_wp st :
  wp (chain_token_step st)
    (fun x => match x with
     | inl st' => (length st'.1 < length st.1)%nat
     | inr _ => True
     end) (fun _ => True).
Proof.
  destruct st as [s actions]. unfold chain_token_step.
  destruct (read_token 63 s) as [token rest] eqn:E.
  apply read_token_spec in E as (-> & _ & _).
  apply wp_if; intros _; [done|]. apply wp_if; intros Ht; [done|].
  destruct (strategy_from_name token); [|done]. apply wp_if; intros _; [done|].
  destruct rest as [|c s']; apply wp_ok; [done|]. cbn [fst]. rewrite length_app. cbn. lia.
Qed.

Lemma strategy_chain_from_string_wp s :
  wp (strategy_chain_from_string s) (fun c => strategy_chain_is_safe c = true) (fun _ => True).
Proof.
  unfold strategy_chain_from_string. apply wp_bind.
  apply (wp_loop (fun _ => True) (fun st => length st.1)).
  - intros st _. eapply wp_mono; [| |apply chain_token_step_wp]; [|done].
    intros [st'|c] H; [done|]. cbv zeta. apply wp_if; intros Hs; [done|].
    apply wp_ok. by apply negb_false_iff in Hs.
  - done.
  - cbn. lia.
Qed.

(** ** Rule tables *)

Lemma update_rule_Some rs d c rs' :
  update_rule rs d c = Some rs' ->
  exists l r k, rs = l ++ r :: k /\ rs' = l ++ mk_rule (rule_domain r) c :: k /\
    ieq (rule_domain r) d = true /\ Forall (fun r => ieq (rule_domain r) d = false) l.
Proof.
  revert rs'. induction rs as [|r rs IH]; intros rs'; cbn; [done|].
  destruct (ieq (rule_domain r) d) eqn:E.
  - intros [= <-]. exists [], r, rs. done.
  - destruct (update_rule rs d c) as [rs1|]; [|done]. intros [= <-].
    destruct (IH rs1 eq_refl) as (l & r' & k & -> & -> & H1 & H2).
    exists (r :: l), r', k. repeat split; try done. by constructor.
Qed.

Lemma update_rule_None rs d c :
  update_rule rs d c = None -> Forall (fun r => ieq (rule_domain r) d = false) rs.
Proof.
  induction rs as [|r rs IH]; cbn; [done|].
  destruct (ieq (rule_domain r) d) eqn:E; [done|].
  destruct (update_rule rs d c); [done|]. intros _. constructor; auto.
Qed.

(** Overwriting a chain keeps the list of domains. *)
Lemma rules_unique_domains rs rs' :
  map rule_domain rs = map rule_domain rs' -> rules_unique rs -> rules_unique rs'.
Proof.
  intros Hm Hu i j r r' Hi Hj He.
  assert (G : forall i r, rs' !! i = Some r ->
              exists r0, rs !! i = Some r0 /\ rule_domain r0 = rule_domain r).
  { intros k x Hx. assert (Hk : map rule_domain rs' !! k = Some (rule_domain x))
      by (by rewrite list_lookup_fmap, Hx).
    rewrite <- Hm, list_lookup_fmap in Hk.
    destruct (rs !! k) as [r0|]; [|done]. exists r0. cbn in Hk. by injection Hk. }
  destruct (G i r Hi) as (r0 & H0 & E0). destruct (G j r' Hj) as (r1 & H1 & E1).
  apply (Hu i j r0 r1 H0 H1). by rewrite E0, E1.
Qed.

Lemma rules_unique_snoc rs d c :
  rules_unique rs -> Forall (fun r => ieq (rule_domain r) d = false) rs ->
  rules_unique (rs ++ [mk_rule d c]).
Proof.
  intros Hu Hn i j r r' Hi Hj He.
  apply lookup_app_Some in Hi, Hj.
  destruct Hi as [Hi|[Li Hi]], Hj as [Hj|[Lj Hj]].
  - by apply (Hu i j r r').
  - apply list_lookup_singleton_Some in Hj as [_ <-].
    pose proof (Forall_lookup_1 _ _ _ _ Hn Hi) as Hf. cbn in *. congruence.
  - apply list_lookup_singleton_Some in Hi as [_ <-]. rewrite ieq_sym in He.
    pose proof (Forall_lookup_1 _ _ _ _ Hn Hj) as Hf. cbn in *. congruence.
  - apply list_lookup_singleton_Some in Hi as [Ei _], Hj as [Ej _]. lia.
Qed.

Lemma set_domain_rule_ok cfg d c cfg' :
  config_ok cfg -> strategy_chain_is_safe c = true -> 0 < zlen d ->
  set_domain_rule cfg d c = Some cfg' -> config_ok cfg'.
Proof.
  intros [Hs Hd Hu Hc Ht] Hsafe Hlen. unfold set_domain_rule.
  destruct (update_rule (rules cfg) d c) as [rs|] eqn:E.
  - intros [= <-]. apply update_rule_Some in E as (l & r & k & E & -> & He & _).
    rewrite E in *. apply Forall_app in Hs as [Hs1 Hs2], Hd as [Hd1 Hd2].
    inversion Hs2; inversion Hd2; subst.
    split; cbn [rules fake_ttl]; try done.
    + apply Forall_app_2; [done|]. by constructor.
    + apply Forall_app_2; [done|]. by constructor.
    + apply (rules_unique_domains (l ++ r :: k)); [|done]. by rewrite !map_app.
    + revert Hc. unfold zlen. rewrite !length_app. done.
  - apply update_rule_None in E. destruct (_ || _) eqn:G; [done|]. zbool. intros [= <-].
    split; cbn [rules fake_ttl]; try done.
    + apply Forall_app_2; [done|]. by constructor.
    + apply Forall_app_2; [done|]. by constructor.
    + by apply rules_unique_snoc.
    + rewrite zlen_app. change (zlen [_]) with 1. lia.
Qed.

(** ** The parser keeps the invariant *)

Lemma parse_kv_nonempty line k v :
  parse_kv line = Some (k, v) -> 0 < zlen k /\ 0 < zlen v.
Proof.
  unfold parse_kv. destruct (split_eq line) as [[k' v']|]; [|done].
  destruct (_ || _) eqn:E; [done|]. intros [= <- <-].
  pose proof (zlen_nonneg (trim k')). pose proof (zlen_nonneg (trim v')). lia.
Qed.

Lemma parse_domain_value_ok s k v :
  config_ok (ps_cfg s) -> 0 < zlen k -> config_ok (ps_cfg (parse_domain_value s k v)).
Proof.
  intros Hok Hk. unfold parse_domain_value.
  pose proof (strategy_chain_from_string_wp v) as W.
  destruct (strategy_chain_from_string v) as [c|e|]; [|done|done].
  destruct (set_domain_rule (ps_cfg s) k c) as [cfg|] eqn:E; [|done].
  by apply (set_domain_rule_ok (ps_cfg s) k c).
Qed.

Lemma parse_top_value_ok s k v :
  config_ok (ps_cfg s) -> config_ok (ps_cfg (parse_top_value s k v)).
Proof.
  intros Hok. pose proof Hok as [? ? ? ? ?]. unfold parse_top_value, try_parse_fake_ttl.
  destruct (negb _).
  - destruct (ieq k (str "default")); [|done]. by destruct (strategy_from_name v).
  - destruct (strtol10 v) as [ttl rest]. destruct (_ || _ || _) eqn:E; [done|].
    zbool. by split.
Qed.

Lemma parse_line_ok s line :
  config_ok (ps_cfg s) -> config_ok (ps_cfg (parse_line s line)).
Proof.
  intros Hok. unfold parse_line. destruct (_ || _); [done|].
  destruct (_ =? 91); [done|]. destruct (parse_kv line) as [[k v]|] eqn:E; [|done].
  apply parse_kv_nonempty in E as [Hk _]. destruct (ps_in_domains s).
  - by apply parse_domain_value_ok.
  - by apply parse_top_value_ok.
Qed.

Lemma skip_to_newline_length text : (length (skip_to_newline text) <= length text)%nat.
Proof.
  induction text as [|c text IH]; cbn; [done|]. destruct (c =? 10); cbn; lia.
Qed.

Lemma read_line_length room text line rest :
  read_line room text = (line, rest) -> text = line ++ rest.
Proof.
  revert text line rest. induction room as [|room IH]; intros text line rest; [by intros [= <- <-]|].
  destruct text as [|c text]; cbn; [by intros [= <- <-]|].
  destruct (c =? 10); [by intros [= <- <-]|].
  destruct (read_line room text) as [l r] eqn:E. intros [= <- <-].
  by rewrite (IH _ _ _ E).
Qed.

(** A round consumes at least one character. *)
Lemma parse_step_shorter c text line rest :
  read_line 511 (c :: text) = (line, rest) ->
  (length (drop 1 (skip_to_newline rest)) < length (c :: text))%nat.
Proof.
  intros E. pose proof (skip_to_newline_length rest). rewrite length_drop.
  rewrite (read_line_length _ _ _ _ E), length_app.
  destruct line as [|x line]; cbn [length]; [|lia].
  apply read_line_length in E. cbn [app] in E. subst rest. cbn [length] in *. lia.
Qed.

(** The loop of [strategy_config_parse] for any per-line invariant. *)
Lemma parse_loop_wp (I : parse_state -> Prop) s text :
  (forall s line, I s -> I (parse_line s line)) -> I s ->
  wp (loop (S (length text)) parse_step (s, text)) I (fun _ => False).
Proof.
  intros HI Hs.
  apply (wp_loop (fun st => I st.1) (fun st => length st.2)); [|done|cbn; lia].
  intros [s' text'] Hs'. cbn [fst snd] in *. unfold parse_step.
  destruct text' as [|c text']; [by apply wp_ok|].
  destruct (read_line 511 (c :: text')) as [line rest] eqn:E.
  apply wp_ok. cbn [fst snd]. split; [by apply HI|]. by apply (parse_step_shorter c text' line).
Qed.

Lemma strategy_config_init_ok : config_ok strategy_config_init.
Proof.
  split; done.
Qed.

Lemma strategy_config_parse_wp cfg text :
  config_ok cfg ->
  wp (strategy_config_parse cfg text) (fun r => config_ok r.1 /\ 0 <= r.2) (fun _ => False).
Proof.
  intros Hok. unfold strategy_config_parse. apply wp_bind.
  eapply (wp_mono _ (fun s => config_ok (ps_cfg s) /\ 0 <= ps_skipped s)); [done| |].
  { intros e He. exact He. }
  apply parse_loop_wp; [|done]. intros s line [H1 H2]. split; [by apply parse_line_ok|].
  unfold parse_line, parse_top_value, parse_domain_value, skip_line, with_cfg.
  repeat case_match; cbn; lia.
Qed.

(** C8: parsing any bytes as a configuration terminates and keeps the table
    safe: starting from a well-formed configuration (the initial one is),
    every rule of the result has a whitelisted chain and a non-empty domain
    of less than 256 characters, no two rules have domains equal up to case,
    there are at most 256 rules and the decoy TTL stays in 1..255. *)
Theorem strategy_config_parse_safe cfg text :
  config_ok cfg ->
  exists cfg' skipped,
    strategy_config_parse cfg text = Ok (cfg', skipped) /\ config_ok cfg' /\ 0 <= skipped.
Proof.
  intros Hok. pose proof (strategy_config_parse_wp cfg text Hok) as W.
  destruct (strategy_config_parse cfg text) as [[cfg' n]|e|]; [|done|done].
  by exists cfg', n.
Qed.

Lemma strategy_config_parse_safe_witness :
  config_ok strategy_config_init /\
  exists cfg' skipped,
    strategy_config_parse strategy_config_init (str "[domains]" ++ [10] ++ str "a.b = split+fake")
      = Ok (cfg', skipped) /\ config_ok cfg'.
Proof.
  split; [exact strategy_config_init_ok|].
  destruct (strategy_config_parse_safe strategy_config_init
    (str "[domains]" ++ [10] ++ str "a.b = split+fake") strategy_config_init_ok)
    as (cfg' & k & E & H & _).
  exists cfg', k. split; [exact E|exact H].
Defined.

(** ** Rule lookup *)

Lemma tolower_dot c : (tolower c =? 46) = (c =? 46).
Proof.
  unfold tolower. destruct (_ && _) eqn:E; [|done]. zbool.
  destruct (Z.eqb_spec (c + 32) 46), (Z.eqb_spec c 46); lia.
Qed.

Lemma ieq_first_dot a b : ieq a b = true -> (bget a 0 =? 46) = (bget b 0 =? 46).
Proof.
  intros H%ieq_true. destruct a as [|x a], b as [|y b]; try done.
  injection H as Hxy _. rewrite !bget_cons_0.
  by rewrite <- (tolower_dot x), <- (tolower_dot y), Hxy.
Qed.

Lemma find_app_None {A} (f : A -> bool) l k :
  Forall (fun x => f x = false) l -> find f (l ++ k) = find f k.
Proof. induction 1 as [|x l Hx _ IH]; cbn; [done|]. by rewrite Hx. Qed.

Lemma find_app_Some {A} (f : A -> bool) l k x :
  find f l = Some x -> find f (l ++ k) = Some x.
Proof. induction l as [|y l IH]; cbn; [done|]. by destruct (f y). Qed.

(** The rule for [d] is not an exact rule for a domain other than [d]. *)
Lemma exact_rule_other r d x :
  ieq (rule_domain r) d = true -> ieq d x = false -> exact_rule x r = false.
Proof.
  intros H1 H2. unfold exact_rule. rewrite ieq_sym in H1.
  rewrite (ieq_trans _ _ _ H1), H2. apply andb_false_r.
Qed.

(** What [set_domain_rule] does to the table: the first rule for [d] (or
    nothing, at the end) becomes one with the new chain. *)
Lemma set_domain_rule_shape cfg d c cfg' :
  set_domain_rule cfg d c = Some cfg' ->
  exists l mid k d',
    rules cfg = l ++ mid ++ k /\ rules cfg' = l ++ mk_rule d' c :: k /\
    Forall (fun r => ieq (rule_domain r) d = false) l /\
    Forall (fun r => ieq (rule_domain r) d = true) mid /\ ieq d' d = true.
Proof.
  unfold set_domain_rule. destruct (update_rule (rules cfg) d c) as [rs|] eqn:E.
  - apply update_rule_Some in E as (l & r & k & E & -> & He & Hl). intros [= <-].
    exists l, [r], k, (rule_domain r). by repeat split; try constructor.
  - apply update_rule_None in E. destruct (_ || _); [done|]. intros [= <-].
    exists (rules cfg), [], [], d. rewrite !app_nil_r. repeat split; try done.
    apply ieq_refl.
Qed.

(** After [set_domain_rule] succeeds for an exact (non-suffix) domain,
    the lookup of every hostname equal to it up to case gives the new chain
    (the last write wins), and the lookup of every other hostname, through
    exact or suffix rules, is unchanged. *)
Theorem set_domain_rule_lookup cfg d c cfg' x :
  set_domain_rule cfg d c = Some cfg' -> bget d 0 <> 46 ->
  strategy_has_explicit_rule cfg' x =
    if ieq d x then Some c else strategy_has_explicit_rule cfg x.
Proof.
  intros (l & mid & k & d' & E & E' & Hl & Hmid & Hd')%set_domain_rule_shape Hdot.
  unfold strategy_has_explicit_rule. rewrite E, E'.
  pose proof (ieq_first_dot _ _ Hd') as Hfd. rewrite (proj2 (Z.eqb_neq _ _) Hdot) in Hfd.
  destruct (ieq d x) eqn:Edx.
  - rewrite find_app_None.
    + cbn [find]. unfold exact_rule. cbn [rule_domain]. rewrite Hfd.
      by rewrite (ieq_trans _ _ _ (eq_trans (ieq_sym d d') Hd')), Edx.
    + eapply Forall_impl; [exact Hl|]. cbv beta. intros r Hr. unfold exact_rule.
      rewrite (ieq_sym (rule_domain r)), (ieq_trans d x) by done.
      rewrite ieq_sym, Hr. apply andb_false_r.
  - assert (Hin : forall f, (f = exact_rule x \/ f = suffix_rule x) ->
      find f (l ++ mk_rule d' c :: k) = find f (l ++ mid ++ k)).
    { intros f Hf.
      assert (Hskip : forall r, ieq (rule_domain r) d = true -> f r = false).
      { intros r Hr. destruct Hf as [->| ->]; [by apply (exact_rule_other r d)|].
        unfold suffix_rule. rewrite (ieq_first_dot _ _ Hr). by rewrite (proj2 (Z.eqb_neq _ _)). }
      clear Hl E E'. induction l as [|y l IH]; cbn [app find]; [|by destruct (f y)].
      rewrite Hskip by done. symmetry. apply find_app_None.
      by apply (Forall_impl _ _ _ Hmid). }
    by rewrite !Hin by auto.
Qed.

Definition sample_cfg : strategy_config :=
  mk_config STRATEGY_PASS
    [mk_rule (str "Example.com") [STRATEGY_SPLIT]; mk_rule (str ".com") [STRATEGY_FAKE]] 8.

Lemma set_domain_rule_lookup_witness :
  exists cfg', set_domain_rule sample_cfg (str "example.COM") [STRATEGY_DISORDER] = Some cfg' /\
    strategy_has_explicit_rule cfg' (str "EXAMPLE.com") = Some [STRATEGY_DISORDER] /\
    strategy_has_explicit_rule cfg' (str "other.com") = Some [STRATEGY_FAKE].
Proof.
  destruct (set_domain_rule sample_cfg (str "example.COM") [STRATEGY_DISORDER])
    as [cfg'|] eqn:E; [|vm_compute in E; discriminate].
  exists cfg'. split; [reflexivity|].
  assert (Hd : bget (str "example.COM") 0 <> 46) by (vm_compute; congruence).
  rewrite !(set_domain_rule_lookup _ _ _ _ _ E Hd). split; reflexivity.
Defined.

(** The lowered tail of a domain. *)
Lemma lower_tail d n t :
  0 <= n <= zlen d ->
  lower (bfrom d n) = lower t <-> exists p, zlen p = n /\ lower d = p ++ lower t.
Proof.
  intros Hn. split.
  - intros H. exists (lower (take (Z.to_nat n) d)).
    rewrite <- H, <- lower_app. unfold bfrom. rewrite take_drop. split; [|done].
    rewrite zlen_lower. unfold zlen in *. rewrite length_take. lia.
  - intros (p & Hp & H).
    assert (Hl : lower (take (Z.to_nat n) d) ++ lower (bfrom d n) = p ++ lower t)
      by (rewrite <- lower_app; unfold bfrom; by rewrite take_drop).
    apply app_inj_1 in Hl; [tauto|].
    unfold lower. rewrite length_map, length_take. unfold zlen in *. lia.
Qed.

(** A suffix rule [".t"] matches on a label boundary only: it matches
    exactly the domains that are [t], or that end in ["." ++ t], up to case
    (so ["notexample.com"] never matches [".example.com"]). *)
Theorem suffix_match_label_boundary d t :
  suffix_match d (46 :: t) = true <->
  lower d = lower t \/ exists p, lower d = p ++ 46 :: lower t.
Proof.
  unfold suffix_match. rewrite zlen_cons, bget_cons_0. pose proof (zlen_nonneg t).
  pose proof (zlen_nonneg d).
  replace ((1 + zlen t =? 0)) with false by (symmetry; apply Z.eqb_neq; lia).
  change (negb (46 =? 46)) with false. cbn [orb].
  assert (Hlen : forall p, lower d = p ++ 46 :: lower t -> zlen d = zlen p + 1 + zlen t).
  { intros p Hp. rewrite <- (zlen_lower d), Hp, zlen_app, zlen_cons, zlen_lower. lia. }
  assert (Heq : lower d = lower t -> zlen d = zlen t).
  { intros E. by rewrite <- (zlen_lower d), E, zlen_lower. }
  destruct (Z.ltb_spec (zlen d + 1) (1 + zlen t)) as [Hlt|Hle].
  { split; [done|]. intros [E|[p E]]; [apply Heq in E; lia|].
    apply Hlen in E. pose proof (zlen_nonneg p). lia. }
  destruct (Z.eqb_spec (1 + zlen t) (zlen d + 1)) as [He|Hne].
  - change (bfrom (46 :: t) 1) with t. rewrite ieq_true. split; [by left|].
    intros [E|[p E]]; [done|]. apply Hlen in E. pose proof (zlen_nonneg p). lia.
  - rewrite ieq_true. rewrite (lower_tail d _ (46 :: t)) by lia.
    change (lower (46 :: t)) with (46 :: lower t). split.
    + intros (p & _ & E). right. by exists p.
    + intros [E|[p E]]; [apply Heq in E; lia|]. exists p. split; [|done].
      apply Hlen in E. lia.
Qed.

(** The first suffix rule in file order wins, not the longest. *)
Example suffix_rule_order :
  strategy_has_explicit_rule
    (mk_config STRATEGY_PASS
       [mk_rule (str ".com") [STRATEGY_PASS]; mk_rule (str ".example.com") [STRATEGY_SPLIT]] 8)
    (str "www.example.com") = Some [STRATEGY_PASS].
Proof. vm_compute. reflexivity. Qed.

(** ** Printing and parsing chains *)

Lemma strategy_chain_is_safe_iff c :
  strategy_chain_is_safe c = true <->
  (exists a, c = [a]) \/ c = [STRATEGY_FAKE; STRATEGY_SPLIT] \/
  c = [STRATEGY_SPLIT; STRATEGY_FAKE].
Proof.
  split.
  - destruct c as [|a [|b [|x c]]]; unfold strategy_chain_is_safe.
    + done.
    + by left; exists a.
    + intros H. right. destruct a, b; try done; by auto.
    + rewrite !zlen_cons. pose proof (zlen_nonneg c).
      rewrite !(proj2 (Z.eqb_neq _ _)) by lia. done.
  - by intros [[a ->]|[-> | ->]].
Qed.

Lemma append_name_room n buf name :
  zlen buf + zlen name < n -> append_name n buf name = buf ++ name.
Proof.
  revert buf. induction name as [|c name IH]; intros buf H; cbn; [by rewrite app_nil_r|].
  rewrite zlen_cons in H. pose proof (zlen_nonneg name).
  rewrite (proj2 (Z.ltb_lt _ _)) by lia. rewrite IH, <- app_assoc; [done|].
  rewrite zlen_app. change (zlen [c]) with 1. lia.
Qed.

Lemma describe_one n a :
  zlen (strategy_name a) < n -> describe_actions n 0 [] [a] = strategy_name a.
Proof. intros H. cbn. by rewrite append_name_room. Qed.

Lemma describe_two n a b :
  zlen (strategy_name a) + 1 + zlen (strategy_name b) < n ->
  describe_actions n 0 [] [a; b] = strategy_name a ++ 43 :: strategy_name b.
Proof.
  intros H. pose proof (zlen_nonneg (strategy_name b)). cbn [describe_actions].
  change (0 <? 0) with false. change (0 <? 0 + 1) with true. cbn [andb].
  rewrite (append_name_room n [] (strategy_name a)) by (change (zlen (@nil Z)) with 0; lia).
  cbn [app]. rewrite (proj2 (Z.ltb_lt _ _)) by lia. rewrite append_name_room.
  - by rewrite <- app_assoc.
  - rewrite zlen_app. change (zlen [43]) with 1. lia.
Qed.

(** Printing and parsing chains are inverse: every whitelisted chain,
    printed by [strategy_chain_describe] into a buffer of at least 13
    bytes, is parsed back to itself by [strategy_chain_from_string]; and
    whatever string [strategy_chain_from_string] accepts gives a whitelisted
    chain (so unsafe combinations are never produced). *)
Theorem strategy_chain_roundtrip :
  (forall c n, strategy_chain_is_safe c = true -> 13 <= n ->
     exists s, strategy_chain_describe c n = Some s /\ strategy_chain_from_string s = Ok c) /\
  (forall s, match strategy_chain_from_string s with
             | Ok c => strategy_chain_is_safe c = true
             | Err _ => True
             | Fault => False
             end).
Proof.
  split; [|intros s; exact (strategy_chain_from_string_wp s)].
  intros c n Hc Hn. unfold strategy_chain_describe.
  rewrite (proj2 (Z.eqb_neq _ _)) by lia. eexists. split; [reflexivity|].
  apply strategy_chain_is_safe_iff in Hc as [[a ->]|[-> | ->]].
  - rewrite describe_one; [by destruct a|]. apply Z.le_lt_trans with 12; [by destruct a|lia].
  - rewrite describe_two; [done|]. change (_ + _) with 10. lia.
  - rewrite describe_two; [done|]. change (_ + _) with 10. lia.
Qed.
