(* ===== verification/Flow.v ===== *)
(** * The flow table ([src/flow/flow.c], [include/flow.h])

    A fixed table of connections with their reassembly buffers. The C array
    [entries] is a list of [FLOW_TABLE_MAX] entries; a pointer to an entry is
    its index. [reasm] holds the first [reasm_len] bytes of the C buffer. *)

From stdpp Require Import base list numbers strings relations.
From Stdlib Require Import ZArith Lia.
From S2P Require Import Prelude Strategy.

(** ** Data *)

Definition FLOW_TABLE_MAX : nat := 4096.
Definition FLOW_DEFAULT_TIMEOUT_SECONDS : Z := 30.
Definition FLOW_REASSEMBLY_CAP : Z := 16384.

Inductive flow_class := FLOW_UNCLASSIFIED | FLOW_HTTP | FLOW_TLS | FLOW_PASSTHROUGH.

#[global] Instance flow_class_eq_dec : EqDecision flow_class.
Proof. solve_decision. Defined.

Record flow_key := mk_key {
  k_family : Z;
  k_src_addr : list Z;
  k_dst_addr : list Z;
  k_src_port : Z;
  k_dst_port : Z
}.

#[global] Instance flow_key_eq_dec : EqDecision flow_key.
Proof. solve_decision. Defined.

Record flow_entry := mk_flow {
  in_use : bool;
  f_key : flow_key;
  class_hint : flow_class;
  reasm : list Z;
  created_at : Z;
  last_seen : Z;
  classification_done : bool;
  f_strategy : strategy;
  f_chain : strategy_chain;
  strategy_decided : bool;
  next_seq : Z;
  seq_initialized : bool
}.

Record flow_table := mk_table { entries : list flow_entry; live_count : Z }.

(** ** The code *)

Definition zero_key : flow_key := mk_key 0 (repeat 0 16) (repeat 0 16) 0 0.

(** [memset(flow, 0, sizeof *flow)]. *)
Definition zero_flow : flow_entry :=
  mk_flow false zero_key FLOW_UNCLASSIFIED [] 0 0 false STRATEGY_PASS [] false 0 false.

Definition flow_table_init : flow_table := mk_table (replicate FLOW_TABLE_MAX zero_flow) 0.

Definition flow_key_equal (a b : flow_key) : bool :=
  if negb (k_family a =? k_family b) then false else
  if negb (k_src_port a =? k_src_port b) || negb (k_dst_port a =? k_dst_port b)
  then false else
  if negb (bool_decide (k_src_addr a = k_src_addr b)) then false else
  if negb (bool_decide (k_dst_addr a = k_dst_addr b)) then false else
  true.

Definition flow_reset (key : flow_key) (now : Z) : flow_entry :=
  mk_flow true key FLOW_UNCLASSIFIED [] now now false STRATEGY_PASS [] false 0 false.

(** The first index whose entry satisfies [p]. *)
Fixpoint find_index (p : flow_entry -> bool) (l : list flow_entry) : option nat :=
  match l with
  | [] => None
  | e :: l' => if p e then Some O else S <$> find_index p l'
  end.

(** The second loop: [oldest] is the best index so far, [seen] its
    [last_seen], [i] the index of the head of [l]. *)
Fixpoint scan_oldest (l : list flow_entry) (i oldest : nat) (seen : Z) : nat :=
  match l with
  | [] => oldest
  | e :: l' =>
      if last_seen e <? seen then scan_oldest l' (S i) i (last_seen e)
      else scan_oldest l' (S i) oldest seen
  end.

Definition find_free_or_oldest (l : list flow_entry) : nat :=
  match find_index (fun e => negb (in_use e)) l with
  | Some i => i
  | None =>
      match l with
      | [] => O
      | e :: l' => scan_oldest l' 1 0 (last_seen e)
      end
  end.

Definition touch (now : Z) (e : flow_entry) : flow_entry :=
  mk_flow (in_use e) (f_key e) (class_hint e) (reasm e) (created_at e) now
    (classification_done e) (f_strategy e) (f_chain e) (strategy_decided e)
    (next_seq e) (seq_initialized e).

(** Returns the table and the index of the flow. *)
Definition flow_lookup_or_create (table : flow_table) (key : flow_key) (now : Z)
  : flow_table * nat :=
  match find_index (fun e => in_use e && flow_key_equal (f_key e) key) (entries table) with
  | Some i => (mk_table (alter (touch now) i (entries table)) (live_count table), i)
  | None =>
      let slot := find_free_or_oldest (entries table) in
      let was_free := negb (default false (in_use <$> entries table !! slot)) in
      let live := if was_free then live_count table + 1 else live_count table in
      (mk_table (<[slot := flow_reset key now]> (entries table)) live, slot)
  end.

Definition expired (now timeout_seconds : Z) (e : flow_entry) : bool :=
  in_use e && (timeout_seconds <? now - last_seen e).

(** One pass over the entries; the count is [evicted]. *)
Fixpoint evict_entries (now timeout_seconds : Z) (l : list flow_entry)
  : list flow_entry * Z :=
  match l with
  | [] => ([], 0)
  | e :: l' =>
      let '(l'', n) := evict_entries now timeout_seconds l' in
      if expired now timeout_seconds e then (zero_flow :: l'', n + 1) else (e :: l'', n)
  end.

(** [live_count--] is done on a [size_t], once per evicted entry. *)
Definition flow_evict_expired (table : flow_table) (now timeout_seconds : Z)
  : flow_table * Z :=
  let '(l, evicted) := evict_entries now timeout_seconds (entries table) in
  (mk_table l (u64 (live_count table - evicted)), evicted).

(** [None] is the -1 return. *)
Definition flow_reasm_append (flow : flow_entry) (data : list Z) : option flow_entry :=
  if FLOW_REASSEMBLY_CAP <? zlen (reasm flow) + zlen data then None else
  Some (mk_flow (in_use flow) (f_key flow) (class_hint flow) (reasm flow ++ data)
          (created_at flow) (last_seen flow) (classification_done flow)
          (f_strategy flow) (f_chain flow) (strategy_decided flow)
          (next_seq flow) (seq_initialized flow)).

Definition with_seq (flow : flow_entry) (seq : Z) : flow_entry :=
  mk_flow (in_use flow) (f_key flow) (class_hint flow) (reasm flow)
    (created_at flow) (last_seen flow) (classification_done flow)
    (f_strategy flow) (f_chain flow) (strategy_decided flow) seq true.

Definition flow_seq_is_next (flow : flow_entry) (seq payload_len : Z)
  : bool * flow_entry :=
  if payload_len =? 0 then (false, flow) else
  if negb (seq_initialized flow)
  then (true, with_seq flow (u32 (seq + u32 payload_len))) else
  if negb (seq =? next_seq flow) then (false, flow) else
  (true, with_seq flow (u32 (next_seq flow + u32 payload_len))).

Definition flow_restart (flow : flow_entry) (now : Z) : flow_entry :=
  flow_reset (f_key flow) now.

Definition clear_decision (e : flow_entry) : flow_entry :=
  mk_flow (in_use e) (f_key e) (class_hint e) (reasm e) (created_at e) (last_seen e)
    (classification_done e) STRATEGY_PASS [STRATEGY_PASS] false
    (next_seq e) (seq_initialized e).

Fixpoint invalidate_entries (l : list flow_entry) : list flow_entry * Z :=
  match l with
  | [] => ([], 0)
  | e :: l' =>
      let '(l'', n) := invalidate_entries l' in
      if in_use e && strategy_decided e then (clear_decision e :: l'', n + 1)
      else (e :: l'', n)
  end.

Definition flow_invalidate_decisions (table : flow_table) : flow_table * Z :=
  let '(l, cleared) := invalidate_entries (entries table) in
  (mk_table l (live_count table), cleared).

(** ** Invariant and abstract view

    Abstractly the table is a partial map from keys to flows:
    [holds t k e] says that the flow of [k] is [e]. *)

Definition flow_ok (e : flow_entry) : Prop :=
  zlen (reasm e) <= FLOW_REASSEMBLY_CAP /\ bytes_ok (reasm e) /\ is_u32 (next_seq e).

Fixpoint count_live (l : list flow_entry) : Z :=
  match l with
  | [] => 0
  | e :: l' => (if in_use e then 1 else 0) + count_live l'
  end.

Definition keys_unique (l : list flow_entry) : Prop :=
  forall i j e e', l !! i = Some e -> l !! j = Some e' ->
    in_use e = true -> in_use e' = true -> f_key e = f_key e' -> i = j.

Record table_ok (t : flow_table) : Prop := {
  tok_size : length (entries t) = FLOW_TABLE_MAX;
  tok_live : live_count t = count_live (entries t);
  tok_keys : keys_unique (entries t);
  tok_flows : Forall flow_ok (entries t)
}.

Definition holds (t : flow_table) (k : flow_key) (e : flow_entry) : Prop :=
  exists i, entries t !! i = Some e /\ in_use e = true /\ f_key e = k.

(** ** Lemmas *)

Lemma flow_key_equal_true a b : flow_key_equal a b = true <-> a = b.
Proof.
  unfold flow_key_equal. destruct a as [f s d sp dp], b as [f' s' d' sp' dp']. cbn.
  split.
  - repeat case_match; try done. intros _. zbool.
    repeat match goal with H : bool_decide _ = true |- _ => apply bool_decide_eq_true in H end.
    congruence.
  - intros [= <- <- <- <- <-]. rewrite !Z.eqb_refl, !bool_decide_eq_true_2 by done. done.
Qed.

Lemma find_index_Some p l i :
  find_index p l = Some i -> exists e, l !! i = Some e /\ p e = true.
Proof.
  revert i. induction l as [|x l IH]; intros i; cbn [find_index]; [done|].
  destruct (p x) eqn:E; [intros [= <-]; by exists x|].
  destruct (find_index p l) as [j|]; [|done]. intros [= <-]. by apply IH.
Qed.

Lemma find_index_None p l :
  find_index p l = None -> forall i e, l !! i = Some e -> p e = false.
Proof.
  induction l as [|x l IH]; cbn [find_index]; [by intros _ i e; rewrite lookup_nil|].
  destruct (p x) eqn:E; [done|]. destruct (find_index p l); [done|]. intros _ [|i] e; cbn.
  - by intros [= <-].
  - by apply IH.
Qed.

Lemma count_live_bounds l : 0 <= count_live l <= zlen l.
Proof.
  induction l as [|e l IH]; cbn [count_live]; [done|].
  rewrite zlen_cons. destruct (in_use e); lia.
Qed.

Lemma count_live_insert (l : list flow_entry) (i : nat) e e' :
  l !! i = Some e ->
  count_live (<[i := e']> l) =
    count_live l - (if in_use e then 1 else 0) + (if in_use e' then 1 else 0).
Proof.
  revert i. induction l as [|x l IH]; intros [|i] H; try done.
  - injection H as ->. change (<[0%nat := e']> (e :: l)) with (e' :: l).
    cbn [count_live]. lia.
  - change (<[S i := e']> (x :: l)) with (x :: <[i := e']> l).
    cbn [count_live]. rewrite (IH i) by done. lia.
Qed.

Lemma count_live_full l :
  (forall i e, l !! i = Some e -> in_use e = true) <-> count_live l = zlen l.
Proof.
  split.
  - induction l as [|e l IH]; intros H; cbn [count_live]; [done|].
    rewrite zlen_cons, (H O e eq_refl), IH; [done|]. intros i x. apply (H (S i)).
  - induction l as [|e l IH]; cbn [count_live]; intros H i x; [by rewrite lookup_nil|].
    rewrite zlen_cons in H. pose proof (count_live_bounds l).
    destruct (in_use e) eqn:E; [|lia]. destruct i as [|i]; cbn; [by intros [= <-]|].
    apply IH. lia.
Qed.

Lemma scan_oldest_spec (l all : list flow_entry) i oldest seen e :
  (forall j, all !! (i + j)%nat = l !! j) -> all !! oldest = Some e -> last_seen e = seen ->
  (forall j x, (j < i)%nat -> all !! j = Some x -> seen <= last_seen x) ->
  exists v, all !! (scan_oldest l i oldest seen) = Some v /\
    forall j x, all !! j = Some x -> last_seen v <= last_seen x.
Proof.
  revert i oldest seen e. induction l as [|y l IH]; intros i oldest seen e Hall Ho Hs Hmin.
  - exists e. split; [done|]. intros j x Hx. rewrite Hs.
    destruct (decide (j < i)%nat) as [Hlt|Hge]; [by apply (Hmin j)|].
    specialize (Hall (j - i)%nat). replace (i + (j - i))%nat with j in Hall by lia.
    rewrite lookup_nil in Hall. congruence.
  - cbn [scan_oldest].
    assert (Hy : all !! i = Some y) by (specialize (Hall O); by rewrite Nat.add_0_r in Hall).
    assert (Hall' : forall j, all !! (S i + j)%nat = l !! j)
      by (intros j; specialize (Hall (S j)); by rewrite Nat.add_succ_r in Hall).
    destruct (Z.ltb_spec (last_seen y) seen) as [Hlt|Hge].
    + apply (IH (S i) i (last_seen y) y); try done.
      intros j x Hj Hx. destruct (decide (j = i)) as [->|]; [rewrite Hy in Hx; injection Hx as ->; lia|].
      specialize (Hmin j x). assert (j < i)%nat by lia. intuition lia.
    + apply (IH (S i) oldest seen e); try done.
      intros j x Hj Hx. destruct (decide (j = i)) as [->|]; [rewrite Hy in Hx; by injection Hx as ->|].
      apply (Hmin j x); [lia|done].
Qed.

(** The slot chosen for a new flow: a free one, else the least recently seen. *)
Lemma find_free_or_oldest_spec l :
  l <> [] ->
  exists v, l !! find_free_or_oldest l = Some v /\
    (in_use v = false \/
     (forall j x, l !! j = Some x -> in_use x = true) /\
     (forall j x, l !! j = Some x -> last_seen v <= last_seen x)).
Proof.
  intros Hl. unfold find_free_or_oldest.
  destruct (find_index _ l) as [i|] eqn:E.
  - apply find_index_Some in E as (e & He & Hf). exists e. split; [done|].
    left. by apply negb_true_iff.
  - destruct l as [|e l]; [done|].
    destruct (scan_oldest_spec l (e :: l) 1 0 (last_seen e) e) as (v & Hv & Hmin); try done.
    { intros [|j] x Hj; [by intros [= <-]|lia]. }
    exists v. split; [done|]. right. split; [|done].
    intros j x Hx. by apply (find_index_None _ _ E), negb_false_iff in Hx.
Qed.

Lemma keys_unique_insert l i e :
  keys_unique l ->
  (forall j x, j <> i -> l !! j = Some x -> in_use x = true -> f_key x <> f_key e) ->
  keys_unique (<[i := e]> l).
Proof.
  intros Hu Hn a b x y Ha Hb Ux Uy Hk.
  apply list_lookup_insert_Some in Ha, Hb.
  destruct Ha as [(<- & <- & _)|[Hia Ha]], Hb as [(<- & <- & _)|[Hib Hb]]; try done.
  - by destruct (Hn b y (not_eq_sym Hib) Hb Uy).
  - by destruct (Hn a x (not_eq_sym Hia) Ha Ux).
  - by apply (Hu a b x y).
Qed.

Lemma alter_insert (f : flow_entry -> flow_entry) (l : list flow_entry) (i : nat) e :
  l !! i = Some e -> alter f i l = <[i := f e]> l.
Proof.
  revert i. induction l as [|x l IH]; intros [|i] H; try done.
  - by injection H as ->.
  - change (x :: alter f i l = x :: <[i := f e]> l). by rewrite (IH i).
Qed.

(** Replacing slot [i] changes only the flows of the old and the new key. *)
Lemma holds_insert (l : list flow_entry) n n' (i : nat) v e k x :
  l !! i = Some v -> keys_unique l -> k <> f_key e ->
  holds (mk_table (<[i := e]> l) n') k x <->
  holds (mk_table l n) k x /\ (in_use v = true -> k <> f_key v).
Proof.
  intros Hv Hu Hk. split.
  - intros (j & Hj & Ux & Kx). cbn [entries] in Hj.
    apply list_lookup_insert_Some in Hj as [(<- & <- & _)|[Hij Hj]]; [done|].
    split; [by exists j|]. intros Uv ->. destruct Hij. by apply (Hu i j v x).
  - intros [(j & Hj & Ux & Kx) Hne]. exists j. split; [|done]. cbn [entries] in *.
    rewrite list_lookup_insert_ne; [done|]. intros <-.
    rewrite Hv in Hj. injection Hj as ->. by destruct (Hne Ux).
Qed.

Lemma flow_reset_ok key now : flow_ok (flow_reset key now).
Proof. repeat split; try done. apply bytes_ok_nil. Qed.

Lemma table_ok_insert t i v e n :
  table_ok t -> entries t !! i = Some v -> in_use e = true -> flow_ok e ->
  (forall j x, j <> i -> entries t !! j = Some x -> in_use x = true -> f_key x <> f_key e) ->
  n = live_count t - (if in_use v then 1 else 0) + 1 ->
  table_ok (mk_table (<[i := e]> (entries t)) n).
Proof.
  intros [Hs Hl Hu Hf] Hv Ue He Hk ->. split; cbn [entries live_count].
  - by rewrite length_insert.
  - rewrite (count_live_insert _ _ _ _ Hv), Ue, Hl. done.
  - by apply keys_unique_insert.
  - by apply Forall_insert.
Qed.

(** The two outcomes of a lookup, from the table before and after it. *)
Definition lookup_hit (t t' : flow_table) (key : flow_key) (now : Z) (e' : flow_entry) : Prop :=
  exists e, holds t key e /\ e' = touch now e /\ live_count t' = live_count t /\
    forall k x, k <> key -> holds t' k x <-> holds t k x.

Definition lookup_miss (t t' : flow_table) (key : flow_key) (now : Z) (e' : flow_entry) : Prop :=
  (forall e, ~ holds t key e) /\ e' = flow_reset key now /\
  ((live_count t' = live_count t + 1 /\
      forall k x, k <> key -> holds t' k x <-> holds t k x) \/
   (live_count t = Z.of_nat FLOW_TABLE_MAX /\ live_count t' = live_count t /\
      exists v, holds t (f_key v) v /\
        (forall k x, holds t k x -> last_seen v <= last_seen x) /\
        forall k x, k <> key -> holds t' k x <-> holds t k x /\ k <> f_key v)).

Lemma flow_lookup_hit t key now i e :
  table_ok t -> entries t !! i = Some e -> in_use e = true -> f_key e = key ->
  let t' := mk_table (<[i := touch now e]> (entries t)) (live_count t) in
  table_ok t' /\ lookup_hit t t' key now (touch now e).
Proof.
  intros Hok He Ue Ke t'. pose proof Hok as [Hs Hl Hu Hf]. split.
  - apply (table_ok_insert t i e (touch now e) _ Hok He Ue);
      [exact (Forall_lookup_1 _ _ _ _ Hf He)| |rewrite Ue; lia].
    intros a x Ha Hx Ux Kx. destruct Ha. by apply (Hu a i x e).
  - exists e. refine (conj _ (conj eq_refl (conj eq_refl _))); [by exists i|].
    intros k x Hk. subst t'. destruct t as [l n]. cbn [entries live_count] in *.
    rewrite (holds_insert l n n i e (touch now e) k x He Hu) by (cbn; congruence).
    rewrite Ke. tauto.
Qed.

Lemma flow_lookup_miss t key now :
  table_ok t -> (forall e, ~ holds t key e) ->
  let slot := find_free_or_oldest (entries t) in
  let was_free := negb (default false (in_use <$> entries t !! slot)) in
  let t' := mk_table (<[slot := flow_reset key now]> (entries t))
              (if was_free then live_count t + 1 else live_count t) in
  table_ok t' /\ (slot < length (entries t))%nat /\
  lookup_miss t t' key now (flow_reset key now).
Proof.
  intros Hok Hno slot was_free. pose proof Hok as [Hs Hl Hu Hf].
  destruct (find_free_or_oldest_spec (entries t)) as (v & Hv & Hcase).
  { intros Hnil. rewrite Hnil in Hs. done. }
  change (find_free_or_oldest (entries t)) with slot in Hv.
  assert (Hw : was_free = negb (in_use v)) by (unfold was_free; by rewrite Hv).
  clearbody slot was_free. intros t'. split; [|split].
  - apply (table_ok_insert t slot v (flow_reset key now) _ Hok Hv eq_refl (flow_reset_ok key now)).
    + intros a x _ Hx Ux Kx. apply (Hno x). by exists a.
    + rewrite Hw. destruct (in_use v); cbn [negb]; lia.
  - by apply lookup_lt_Some in Hv.
  - refine (conj Hno (conj eq_refl _)). subst t' was_free.
    destruct t as [l n]. cbn [entries live_count] in *.
    destruct (in_use v) eqn:Uv; cbn [negb].
    + right. destruct Hcase as [|[Hall Hmin]]; [congruence|].
      apply count_live_full in Hall. unfold zlen in Hall. rewrite Hs in Hall.
      refine (conj _ (conj eq_refl _)); [congruence|].
      exists v. refine (conj _ (conj _ _)); [by exists slot| |].
      { intros k x (a & Ha & _). by apply (Hmin a). }
      intros k x Hk. rewrite (holds_insert l n n slot v (flow_reset key now) k x Hv Hu Hk).
      rewrite Uv. tauto.
    + left. split; [done|]. intros k x Hk.
      rewrite (holds_insert l n (n + 1) slot v (flow_reset key now) k x Hv Hu Hk).
      rewrite Uv. intuition congruence.
Qed.

Lemma flow_lookup_or_create_spec t key now t' i :
  table_ok t -> flow_lookup_or_create t key now = (t', i) ->
  table_ok t' /\
  exists e', entries t' !! i = Some e' /\ in_use e' = true /\ f_key e' = key /\
    last_seen e' = now /\ (lookup_hit t t' key now e' \/ lookup_miss t t' key now e').
Proof.
  intros Hok. unfold flow_lookup_or_create.
  destruct (find_index _ (entries t)) as [j|] eqn:E.
  - apply find_index_Some in E as (e & He & Hp). apply andb_prop in Hp as [Ue Ke].
    apply flow_key_equal_true in Ke. intros [= <- <-]. rewrite (alter_insert _ _ _ _ He).
    destruct (flow_lookup_hit t key now j e Hok He Ue Ke) as [H1 H2]. split; [done|].
    exists (touch now e). refine (conj _ (conj Ue (conj Ke (conj eq_refl (or_introl H2))))).
    apply list_lookup_insert_eq. by apply lookup_lt_Some in He.
  - assert (Hno : forall e, ~ holds t key e).
    { intros e (j & Hj & Ue & Ke). pose proof (find_index_None _ _ E j e Hj) as Hn.
      cbn in Hn. rewrite Ue in Hn. cbn [andb] in Hn. rewrite <- Ke in Hn.
      by rewrite (proj2 (flow_key_equal_true _ _) eq_refl) in Hn. }
    destruct (flow_lookup_miss t key now Hok Hno) as (H1 & H2 & H3). intros [= <- <-].
    split; [done|]. exists (flow_reset key now).
    refine (conj _ (conj eq_refl (conj eq_refl (conj eq_refl (or_intror H3))))).
    by apply list_lookup_insert_eq.
Qed.

(** C9: [flow_lookup_or_create] implements a bounded map with
    least-recently-seen replacement: the table invariant is kept; the
    returned slot holds the flow of the key, seen now; if the key had a flow
    ([lookup_hit]) it is the same flow and no other flow changed; otherwise
    ([lookup_miss]) it is a fresh flow, and either the table had room and no
    other flow changed, or the table was full and exactly one other flow was
    dropped, one that was seen least recently. *)
Theorem flow_lookup_or_create_refines t key now t' i :
  table_ok t -> flow_lookup_or_create t key now = (t', i) ->
  table_ok t' /\
  exists e', entries t' !! i = Some e' /\ in_use e' = true /\ f_key e' = key /\
    last_seen e' = now /\ (lookup_hit t t' key now e' \/ lookup_miss t t' key now e').
Proof. apply flow_lookup_or_create_spec. Qed.

Lemma flow_table_init_ok : table_ok flow_table_init.
Proof.
  split; cbn [flow_table_init entries live_count].
  - apply length_replicate.
  - generalize FLOW_TABLE_MAX. induction n as [|n IH]; [done|]. cbn. exact IH.
  - intros a b x y Ha _ Ux. apply lookup_replicate in Ha as [-> _]. done.
  - apply Forall_replicate. repeat split; try done. apply bytes_ok_nil.
Qed.

Lemma flow_lookup_or_create_refines_witness :
  table_ok flow_table_init /\
  let '(t', i) := flow_lookup_or_create flow_table_init zero_key 7 in
  table_ok t' /\ exists e, entries t' !! i = Some e /\ last_seen e = 7.
Proof.
  split; [exact flow_table_init_ok|].
  destruct (flow_lookup_or_create flow_table_init zero_key 7) as [t' i] eqn:E.
  destruct (flow_lookup_or_create_refines _ _ _ _ _ flow_table_init_ok E)
    as (H & e & He & _ & _ & Hs & _).
  split; [exact H|]. exists e. split; [exact He|exact Hs].
Defined.

(** ** Expiry *)

Lemma evict_entries_map now timeout l :
  (evict_entries now timeout l).1 = map (fun e => if expired now timeout e then zero_flow else e) l.
Proof.
  induction l as [|e l IH]; [done|]. cbn [evict_entries map]. rewrite <- IH.
  destruct (evict_entries now timeout l). by destruct (expired now timeout e).
Qed.

Lemma evict_entries_count now timeout l :
  (evict_entries now timeout l).2 = count_live l - count_live (evict_entries now timeout l).1 /\
  0 <= (evict_entries now timeout l).2.
Proof.
  induction l as [|e l [IH IH']]; [done|]. cbn [evict_entries count_live].
  destruct (evict_entries now timeout l) as [l' n]. cbn [fst snd] in *.
  unfold expired. destruct (in_use e) eqn:U; cbn [andb].
  - destruct (timeout <? now - last_seen e); cbn [fst snd count_live zero_flow in_use].
    + lia.
    + rewrite U. lia.
  - cbn [fst snd count_live]. rewrite U. lia.
Qed.

(** Entries rewritten one by one by [g]: freed, or kept with their key. *)
Lemma keys_unique_map (g : flow_entry -> flow_entry) l :
  (forall e, in_use (g e) = true -> in_use e = true /\ f_key (g e) = f_key e) ->
  keys_unique l -> keys_unique (map g l).
Proof.
  intros Hg Hu i j x y Hx Hy Ux Uy Hk.
  rewrite list_lookup_fmap in Hx, Hy.
  destruct (l !! i) as [x0|] eqn:Ex; [|done]. injection Hx as <-.
  destruct (l !! j) as [y0|] eqn:Ey; [|done]. injection Hy as <-.
  destruct (Hg x0 Ux) as [Ux0 Kx]. destruct (Hg y0 Uy) as [Uy0 Ky].
  apply (Hu i j x0 y0 Ex Ey Ux0 Uy0). congruence.
Qed.

Lemma holds_map (g : flow_entry -> flow_entry) l n' k x :
  holds (mk_table (map g l) n') k x <->
  in_use x = true /\ f_key x = k /\ exists i e, l !! i = Some e /\ x = g e.
Proof.
  unfold holds. cbn [entries]. split.
  - intros (i & Hi & Ux & Kx). rewrite list_lookup_fmap in Hi.
    destruct (l !! i) as [e|] eqn:E; [|done]. injection Hi as <-.
    refine (conj Ux (conj Kx _)). by exists i, e.
  - intros (Ux & Kx & i & e & He & ->). exists i. by rewrite list_lookup_fmap, He.
Qed.

Lemma flow_evict_expired_spec t now timeout t' n :
  table_ok t -> flow_evict_expired t now timeout = (t', n) ->
  table_ok t' /\ live_count t' = live_count t - n /\ 0 <= n /\
  forall k x, holds t' k x <-> holds t k x /\ now - last_seen x <= timeout.
Proof.
  intros [Hs Hl Hu Hf]. unfold flow_evict_expired.
  destruct (evict_entries now timeout (entries t)) as [l m] eqn:E. intros [= <- <-].
  pose proof (evict_entries_map now timeout (entries t)) as Hm.
  pose proof (evict_entries_count now timeout (entries t)) as [Hc Hm0].
  rewrite E in Hm, Hc, Hm0. cbn [fst snd] in *.
  set (g := fun e => if expired now timeout e then zero_flow else e) in *.
  assert (Hg : forall e, in_use (g e) = true -> in_use e = true /\ g e = e).
  { intros e. unfold g. destruct (expired now timeout e) eqn:X; [done|by split]. }
  pose proof (count_live_bounds l) as Hb. pose proof (count_live_bounds (entries t)) as Hb'.
  assert (Hlive : u64 (live_count t - m) = live_count t - m).
  { unfold u64. apply Z.mod_small. unfold zlen in Hb'. rewrite Hs in Hb'.
    unfold FLOW_TABLE_MAX in Hb'. lia. }
  refine (conj _ (conj Hlive (conj Hm0 _))).
  - split; cbn [entries live_count].
    + by rewrite Hm, length_map.
    + lia.
    + rewrite Hm. apply keys_unique_map; [|done].
      intros e Ue. destruct (Hg e Ue) as [? ->]. done.
    + rewrite Hm. apply Forall_map. eapply Forall_impl; [exact Hf|]. cbv beta. intros e He.
      unfold g. destruct (expired now timeout e); [|done].
      repeat split; try done. apply bytes_ok_nil.
  - intros k x. rewrite Hm. rewrite (holds_map g (entries t)). split.
    + intros (Ux & Kx & i & e & He & ->). destruct (Hg e Ux) as [Ue Ge]. rewrite Ge in *.
      split; [by exists i|]. revert Ge. unfold g, expired. rewrite Ue. cbn [andb].
      destruct (Z.ltb_spec timeout (now - last_seen e)); [|done].
      intros <-. done.
    + intros [(i & He & Ux & Kx) Hle]. refine (conj Ux (conj Kx _)). exists i, x.
      split; [done|]. unfold g, expired. by rewrite Ux, (proj2 (Z.ltb_ge _ _)).
Qed.

Lemma flow_evict_expired_lookup t now timeout t' n i e :
  flow_evict_expired t now timeout = (t', n) -> entries t !! i = Some e ->
  expired now timeout e = false -> entries t' !! i = Some e.
Proof.
  unfold flow_evict_expired. pose proof (evict_entries_map now timeout (entries t)) as Hm.
  destruct (evict_entries now timeout (entries t)) as [l m]. cbn [fst] in Hm.
  intros [= <- <-] He Hx. cbn [entries]. rewrite Hm, list_lookup_fmap, He. cbn. by rewrite Hx.
Qed.

(** Expiry after a lookup, as the packet path does it: the table
    invariant is kept, [live_count] drops by the number of evicted flows
    (never below zero), exactly the flows idle for more than the timeout are
    gone, and the slot of the flow that was just looked up is untouched, so
    the pointer the packet path holds stays valid. *)
Theorem evict_after_lookup t key now timeout t1 i t2 n :
  table_ok t -> 0 <= timeout ->
  flow_lookup_or_create t key now = (t1, i) ->
  flow_evict_expired t1 now timeout = (t2, n) ->
  table_ok t2 /\ entries t2 !! i = entries t1 !! i /\
  live_count t2 = live_count t1 - n /\ 0 <= live_count t2 /\
  forall k x, holds t2 k x <-> holds t1 k x /\ now - last_seen x <= timeout.
Proof.
  intros Hok Hto Hl He.
  destruct (flow_lookup_or_create_spec _ _ _ _ _ Hok Hl) as (Hok1 & e & Hi & Ue & Ke & Hs & _).
  destruct (flow_evict_expired_spec _ _ _ _ _ Hok1 He) as (Hok2 & Hn & _ & Hh).
  refine (conj Hok2 (conj _ (conj Hn (conj _ Hh)))).
  - rewrite Hi. apply (flow_evict_expired_lookup _ _ _ _ _ _ _ He Hi).
    unfold expired. rewrite Hs, Z.sub_diag, (proj2 (Z.ltb_ge _ _)) by done. apply andb_false_r.
  - rewrite (tok_live _ Hok2). apply count_live_bounds.
Qed.

Lemma evict_after_lookup_witness :
  table_ok flow_table_init /\ 0 <= 30 /\
  let '(t1, i) := flow_lookup_or_create flow_table_init zero_key 7 in
  let '(t2, n) := flow_evict_expired t1 7 30 in
  table_ok t2 /\ entries t2 !! i = entries t1 !! i.
Proof.
  split; [exact flow_table_init_ok|]. split; [lia|].
  destruct (flow_lookup_or_create flow_table_init zero_key 7) as [t1 i] eqn:E1.
  destruct (flow_evict_expired t1 7 30) as [t2 n] eqn:E2.
  assert (H30 : 0 <= 30) by lia.
  destruct (evict_after_lookup _ _ _ _ _ _ _ _ flow_table_init_ok H30 E1 E2) as (H1 & H2 & _).
  split; [exact H1|exact H2].
Defined.

(** ** Invalidating decisions *)

Lemma invalidate_entries_map l :
  (invalidate_entries l).1 =
    map (fun e => if in_use e && strategy_decided e then clear_decision e else e) l.
Proof.
  induction l as [|e l IH]; [done|]. cbn [invalidate_entries map]. rewrite <- IH.
  destruct (invalidate_entries l). by destruct (in_use e && strategy_decided e).
Qed.

Lemma count_live_map (g : flow_entry -> flow_entry) l :
  (forall e, in_use (g e) = in_use e) -> count_live (map g l) = count_live l.
Proof.
  intros Hg. induction l as [|e l IH]; [done|]. cbn [map count_live]. by rewrite Hg, IH.
Qed.

Lemma flow_invalidate_decisions_spec t t' n :
  table_ok t -> flow_invalidate_decisions t = (t', n) ->
  table_ok t' /\ live_count t' = live_count t /\
  (forall k x, holds t' k x -> strategy_decided x = false) /\
  (forall k e, holds t k e -> exists e', holds t' k e' /\ reasm e' = reasm e /\
     classification_done e' = classification_done e /\ next_seq e' = next_seq e).
Proof.
  intros [Hs Hl Hu Hf]. unfold flow_invalidate_decisions.
  pose proof (invalidate_entries_map (entries t)) as Hm.
  destruct (invalidate_entries (entries t)) as [l m]. cbn [fst] in Hm. intros [= <- <-].
  set (g := fun e => if in_use e && strategy_decided e then clear_decision e else e) in *.
  assert (Hg : forall e, in_use (g e) = in_use e /\ f_key (g e) = f_key e /\
            reasm (g e) = reasm e /\ classification_done (g e) = classification_done e /\
            next_seq (g e) = next_seq e)
    by (intros e; unfold g; by destruct (in_use e && strategy_decided e)).
  refine (conj _ (conj eq_refl (conj _ _))).
  - rewrite Hm. split; cbn [entries live_count].
    + by rewrite length_map.
    + rewrite count_live_map; [done|]. intros e. apply Hg.
    + apply keys_unique_map; [|done]. intros e. destruct (Hg e) as (-> & -> & _). done.
    + apply Forall_map. eapply Forall_impl; [exact Hf|]. cbv beta. intros e (H1 & H2 & H3).
      destruct (Hg e) as (_ & _ & E1 & _ & E2). unfold flow_ok. by rewrite E1, E2.
  - rewrite Hm. intros k x. rewrite holds_map. intros (Ux & _ & i & e & _ & ->).
    destruct (Hg e) as (Ue & _). rewrite Ux in Ue. unfold g in *. rewrite <- Ue.
    cbn [andb]. by destruct (strategy_decided e) eqn:D.
  - rewrite Hm. intros k e (i & He & Ue & Ke). destruct (Hg e) as (G1 & G2 & G3).
    exists (g e). split; [|done]. apply holds_map.
    rewrite G1, G2. refine (conj Ue (conj Ke _)). by exists i, e.
Qed.

(** ** In-order reassembly

    [on_stream s isn e]: the buffered bytes of [e] are a contiguous piece of
    the byte stream [s] whose first byte has sequence number [isn], and the
    next expected sequence number is the one after that piece. *)

Definition on_stream (s : list Z) (isn : Z) (e : flow_entry) : Prop :=
  if seq_initialized e then
    exists off, 0 <= off /\ off + zlen (reasm e) <= zlen s /\
      reasm e = bsub s off (zlen (reasm e)) /\
      next_seq e = u32 (isn + off + zlen (reasm e))
  else reasm e = [].

(** A segment that carries the bytes of the stream at [off]. *)
Definition segment_of (s : list Z) (isn off seq : Z) (payload : list Z) : Prop :=
  0 <= off /\ off + zlen payload <= zlen s /\ payload = bsub s off (zlen payload) /\
  seq = u32 (isn + off).

Lemma u32_inj a b c :
  0 <= a < 2 ^ 32 -> 0 <= b < 2 ^ 32 -> u32 (c + a) = u32 (c + b) -> a = b.
Proof.
  unfold u32. intros Ha Hb H.
  assert (Hd : (a - b) mod 2 ^ 32 = 0).
  { replace (a - b) with ((c + a) - (c + b)) by lia.
    rewrite Zminus_mod, H, Z.sub_diag. done. }
  apply Z.mod_divide in Hd as [k Hk]; [|lia]. assert (k = 0) by nia. lia.
Qed.

Lemma u32_add x y : u32 (u32 x + u32 y) = u32 (x + y).
Proof. unfold u32. by rewrite <- Zplus_mod. Qed.

(** Accepting exactly the next segment extends the piece; anything else is
    refused and leaves the flow alone. *)
Lemma seq_then_append s isn e off seq payload :
  on_stream s isn e -> segment_of s isn off seq payload -> zlen s < 2 ^ 32 ->
  match flow_seq_is_next e seq (zlen payload) with
  | (true, e1) =>
      match flow_reasm_append e1 payload with
      | Some e2 => on_stream s isn e2 /\ reasm e2 = reasm e ++ payload
      | None => True
      end
  | (false, e1) => e1 = e
  end.
Proof.
  intros Hon (Ho & Hle & Hp & ->) Hs. unfold flow_seq_is_next.
  pose proof (zlen_nonneg payload) as Hz.
  destruct (Z.eqb_spec (zlen payload) 0) as [|Hne]; [done|].
  unfold on_stream in Hon. destruct (seq_initialized e) eqn:Si; cbn [negb].
  - destruct Hon as (off0 & Ho0 & Hle0 & Hr & Hn). pose proof (zlen_nonneg (reasm e)).
    destruct (Z.eqb_spec (u32 (isn + off)) (next_seq e)) as [Heq|]; cbn [negb]; [|done].
    assert (Hoff : off = off0 + zlen (reasm e)).
    { apply (u32_inj _ _ isn); [lia|lia|]. by rewrite Heq, Hn, Z.add_assoc. }
    unfold flow_reasm_append. cbn [with_seq reasm]. destruct (_ <? _); [done|].
    split; [|done]. unfold on_stream. cbn [seq_initialized reasm next_seq with_seq].
    exists off0. rewrite zlen_app. refine (conj Ho0 (conj _ (conj _ _))); [lia| |].
    + rewrite <- bsub_app_split by lia. rewrite <- Hr, <- Hoff, <- Hp. done.
    + rewrite Hn, u32_add. f_equal. lia.
  - unfold flow_reasm_append. cbn [with_seq reasm]. rewrite Hon.
    destruct (_ <? _); [done|]. split; [|done].
    unfold on_stream. cbn [seq_initialized reasm next_seq with_seq app].
    exists off. refine (conj Ho (conj Hle (conj Hp _))). by rewrite u32_add.
Qed.
