(* ===== verification/Discovery.v ===== *)
(** * Strategy discovery ([src/discovery/ladder.c], [cache.c], [netfingerprint.c])

    The candidate ladder walk, the per-network cache of discovered
    strategies with its text format, the runtime precedence rule and the
    network fingerprint hash. *)

From stdpp Require Import base list numbers strings relations.
From Stdlib Require Import ZArith Lia.
From S2P Require Import Prelude Text Strategy.

(** ** Data *)

Inductive probe_result :=
| PROBE_SUCCESS | PROBE_REMOTE_REJECTED | PROBE_LOCAL_ERROR | PROBE_TIMEOUT.

#[global] Instance probe_result_eq_dec : EqDecision probe_result.
Proof. solve_decision. Defined.

Definition DISCOVERY_MAX_ATTEMPTS_PER_CANDIDATE : nat := 2.
Definition DISCOVERY_CACHE_MAX : Z := 256.
Definition DISCOVERY_CACHE_DEFAULT_TTL_SECONDS : Z := 24 * 3600.
Definition NETFP_UNKNOWN : Z := 0.

Definition g_discovery_ladder : list strategy_chain :=
  [[STRATEGY_PASS]; [STRATEGY_SPLIT]; [STRATEGY_FAKE]; [STRATEGY_DISORDER];
   [STRATEGY_FRAGMENT]; [STRATEGY_FAKE; STRATEGY_SPLIT]; [STRATEGY_SPLIT; STRATEGY_FAKE]].

(** The calls of the prober so far, with their results. *)
Definition probe_trace : Type := list (strategy_chain * probe_result).

Record cache_entry := mk_entry {
  ce_domain : list Z;
  ce_chain : strategy_chain;
  ce_fingerprint : Z;
  ce_validated_at : Z
}.

(** The first [count] entries of the C array. *)
Definition discovery_cache : Type := list cache_entry.

Inductive strategy_source :=
| STRATEGY_SOURCE_MANUAL | STRATEGY_SOURCE_AUTO | STRATEGY_SOURCE_DEFAULT.

(** ** The ladder walk

    The prober runs real connections; here it is any function of the
    candidate and of everything that was probed before. *)

Section ladder.
Context (prober : probe_trace -> strategy_chain -> probe_result).

(** The inner loop: [inl] is success, [inr] the last result. *)
Fixpoint try_candidate (attempts : nat) (c : strategy_chain) (result : probe_result)
    (trace : probe_trace) : bool * probe_result * probe_trace :=
  match attempts with
  | O => (false, result, trace)
  | S attempts' =>
      let result := prober trace c in
      let trace := trace ++ [(c, result)] in
      match result with
      | PROBE_SUCCESS => (true, result, trace)
      | PROBE_LOCAL_ERROR => (false, result, trace)
      | _ => try_candidate attempts' c result trace
      end
  end.

Fixpoint walk_ladder (ladder : list strategy_chain) (result : probe_result)
    (trace : probe_trace) : option strategy_chain * probe_result * probe_trace :=
  match ladder with
  | [] => (None, result, trace)
  | c :: ladder' =>
      let '(won, result, trace) :=
        try_candidate DISCOVERY_MAX_ATTEMPTS_PER_CANDIDATE c result trace in
      if (won : bool) then (Some c, result, trace) else walk_ladder ladder' result trace
  end.

(** [Some c] is the return value 1 with [*out_chain = c]. *)
Definition discovery_run : option strategy_chain * probe_result * probe_trace :=
  walk_ladder g_discovery_ladder PROBE_LOCAL_ERROR [].
End ladder.

(** [strstr(s, sub) != NULL]. *)
Fixpoint has_prefix (sub s : list Z) : bool :=
  match sub, s with
  | [], _ => true
  | x :: sub', y :: s' => (x =? y) && has_prefix sub' s'
  | _, [] => false
  end.
Fixpoint strstr (s sub : list Z) : bool :=
  has_prefix sub s ||
  match s with
  | [] => false
  | _ :: s' => strstr s' sub
  end.

Definition probe_classify_openssl_output (out : list Z) : probe_result :=
  if negb (strstr out (str "CONNECTED(")) then PROBE_LOCAL_ERROR else
  if negb (strstr out (str "Verify return code:")) then PROBE_REMOTE_REJECTED else
  if negb (strstr out (str "Verify return code: 0 (ok)")) then PROBE_REMOTE_REJECTED else
  PROBE_SUCCESS.

(** ** The cache *)

Definition discovery_cache_init : discovery_cache := [].

Fixpoint update_entry (cache : discovery_cache) (e : cache_entry) : option discovery_cache :=
  match cache with
  | [] => None
  | x :: cache' =>
      if ieq (ce_domain x) (ce_domain e)
      then Some (mk_entry (ce_domain x) (ce_chain e) (ce_fingerprint e) (ce_validated_at e)
                   :: cache')
      else cons x <$> update_entry cache' e
  end.

(** [None] is the -1 return (nothing changed). *)
Definition discovery_cache_set (cache : discovery_cache) (domain : list Z)
    (chain : strategy_chain) (fingerprint now : Z) : option discovery_cache :=
  let e := mk_entry domain chain fingerprint now in
  match update_entry cache e with
  | Some cache' => Some cache'
  | None =>
      if (DISCOVERY_CACHE_MAX <=? zlen cache) || (STRATEGY_DOMAIN_MAX <=? zlen domain)
      then None else Some (cache ++ [e])
  end.

(** The age is the exact difference: with [now] at or after 1970 the [int64_t]
    subtraction could overflow, which C leaves undefined, only for a
    [validated_at] below [now - 2^63], that is only for a cache file edited by
    hand; no time the program itself stores is negative. *)
Definition discovery_cache_lookup (cache : discovery_cache) (domain : list Z)
    (current_fingerprint ttl_seconds now : Z) : option cache_entry :=
  if current_fingerprint =? NETFP_UNKNOWN then None else
  match find (fun e => ieq (ce_domain e) domain) cache with
  | None => None
  | Some e =>
      if negb (ce_fingerprint e =? current_fingerprint) then None else
      if ttl_seconds <? now - ce_validated_at e then None else
      if now <? ce_validated_at e then None else Some e
  end.

(** One line of the text form, as [snprintf] formats it. *)
Definition entry_line (e : cache_entry) : list Z :=
  ce_domain e ++ 32 :: hex_digits 16 (ce_fingerprint e) ++
  32 :: print_dec (ce_validated_at e) ++
  32 :: default [] (strategy_chain_describe (ce_chain e) 64) ++ [10].

(** The bytes written to [out] and the return value: [pos] counts what would
    be written, [snprintf] stops at the end of the buffer. *)
Definition discovery_cache_serialize (cache : discovery_cache) (out_size : Z) : list Z :=
  let text := concat (map entry_line cache) in
  if out_size <=? zlen text then [] else text.

Fixpoint cache_trim (s : list Z) : list Z :=
  match s with
  | [] => []
  | c :: s' =>
      match cache_trim s' with
      | [] => if is_blank c || (c =? 13) || (c =? 10) then [] else [c]
      | t => c :: t
      end
  end.

(** The fields of a line, or [None] when a conversion fails. *)
Definition scan_entry (line : list Z) : option cache_entry :=
  '(domain, r1) ← scan_word 255 line;
  '(fp_hex, r2) ← scan_word 31 r1;
  '(ts_dec, r3) ← scan_word 31 r2;
  '(chain_str, _) ← scan_word 63 r3;
  fp ← scan_hex fp_hex;
  ts ← scan_dec ts_dec;
  match strategy_chain_from_string chain_str with
  | Ok chain => Some (mk_entry domain chain fp ts)
  | _ => None
  end.

Definition cache_parse_line (st : discovery_cache * Z) (line : list Z)
  : discovery_cache * Z :=
  let '(cache, skipped) := st in
  let c := bget line 0 in
  if (zlen line =? 0) || (c =? 35) || (c =? 59) then st else
  match scan_entry line with
  | None => (cache, skipped + 1)
  | Some e =>
      match discovery_cache_set cache (ce_domain e) (ce_chain e) (ce_fingerprint e)
              (ce_validated_at e) with
      | Some cache' => (cache', skipped)
      | None => (cache, skipped + 1)
      end
  end.

Definition cache_parse_step (st : (discovery_cache * Z) * list Z)
  : res unit (((discovery_cache * Z) * list Z) + (discovery_cache * Z)) :=
  let '(s, text) := st in
  match text with
  | [] => Ok (inr s)
  | _ :: _ =>
      let '(line, rest) := read_line 511 text in
      let rest := drop 1 (skip_to_newline rest) in
      Ok (inl (cache_parse_line s (cache_trim (cstr line)), rest))
  end.

Definition discovery_cache_parse (cache : discovery_cache) (text : list Z)
  : res unit (discovery_cache * Z) :=
  loop (S (length text)) cache_parse_step ((cache, 0), text).

Definition strategy_resolve_chain (cfg : strategy_config) (cache : discovery_cache)
    (fingerprint now : Z) (domain : list Z)
  : strategy_source * strategy_chain * option cache_entry :=
  match strategy_has_explicit_rule cfg domain with
  | Some out => (STRATEGY_SOURCE_MANUAL, out, None)
  | None =>
      match discovery_cache_lookup cache domain fingerprint
              DISCOVERY_CACHE_DEFAULT_TTL_SECONDS now with
      | Some e => (STRATEGY_SOURCE_AUTO, ce_chain e, Some e)
      | None => (STRATEGY_SOURCE_DEFAULT, [default_strategy cfg], None)
      end
  end.

(** ** The network fingerprint *)

Inductive link_type := LINK_UNKNOWN | LINK_ETHERNET | LINK_WIFI | LINK_OTHER.
#[global] Instance link_type_eq_dec : EqDecision link_type.
Proof. solve_decision. Defined.

Record net_profile := mk_profile {
  np_iface : list Z;
  np_link_type : link_type;
  np_ssid : list Z;
  np_has_ipv4_default : bool;
  np_has_ipv6_default : bool;
  np_local_addr : list Z
}.

Definition FNV_PRIME : Z := 1099511628211.
Definition FNV_BASIS : Z := 1469598103934665603.

Definition fnv1a_byte (hash b : Z) : Z := u64 (Z.lxor hash b * FNV_PRIME).
Definition fnv1a (hash : Z) (data : list Z) : Z := foldl fnv1a_byte hash data.

(** The bytes of a 4-byte object in memory (little-endian hosts). *)
Definition le32 (v : Z) : list Z :=
  [u8 v; u8 (Z.shiftr v 8); u8 (Z.shiftr v 16); u8 (Z.shiftr v 24)].
Definition link_type_code (t : link_type) : Z :=
  match t with LINK_UNKNOWN => 0 | LINK_ETHERNET => 1 | LINK_WIFI => 2 | LINK_OTHER => 3 end.
Definition bool_code (b : bool) : Z := if b then 1 else 0.

(** [gw_mac] is [None] when [has_gw_mac] is 0. *)
Definition netfingerprint_hash (profile : net_profile) (gw_raw : Z)
    (gw_mac : option (list Z)) : Z :=
  let hash := FNV_BASIS in
  let hash := fnv1a hash (np_iface profile) in
  let hash := fnv1a hash (le32 gw_raw) in
  let hash := match gw_mac with Some mac => fnv1a hash mac | None => hash end in
  let hash := fnv1a hash (le32 (link_type_code (np_link_type profile))) in
  let hash := fnv1a hash (np_ssid profile) in
  let hash := fnv1a hash (le32 (bool_code (np_has_ipv4_default profile))) in
  let hash := fnv1a hash (le32 (bool_code (np_has_ipv6_default profile))) in
  if hash =? NETFP_UNKNOWN then 1 else hash.

(** ** The ladder: specification and proof *)

(** The probes spent on a candidate that did not succeed, and on the one
    that did: a local error is not retried, anything else once. *)
Inductive failed_probes (c : strategy_chain) : probe_trace -> Prop :=
| failed_local : failed_probes c [(c, PROBE_LOCAL_ERROR)]
| failed_twice r r' :
    r <> PROBE_SUCCESS -> r <> PROBE_LOCAL_ERROR -> r' <> PROBE_SUCCESS ->
    failed_probes c [(c, r); (c, r')].

Inductive won_probes (c : strategy_chain) : probe_trace -> Prop :=
| won_first : won_probes c [(c, PROBE_SUCCESS)]
| won_second r :
    r <> PROBE_SUCCESS -> r <> PROBE_LOCAL_ERROR ->
    won_probes c [(c, r); (c, PROBE_SUCCESS)].

Lemma try_candidate_spec prober c result trace :
  let '(won, r, trace') :=
    try_candidate prober DISCOVERY_MAX_ATTEMPTS_PER_CANDIDATE c result trace in
  exists g, trace' = trace ++ g /\ (exists g', g = g' ++ [(c, r)]) /\
    if (won : bool) then won_probes c g else failed_probes c g.
Proof.
  unfold DISCOVERY_MAX_ATTEMPTS_PER_CANDIDATE. cbn [try_candidate].
  destruct (prober trace c) eqn:E1; cbn [try_candidate].
  1: { eexists. split; [done|]. split; [by exists []|constructor]. }
  2: { eexists. split; [done|]. split; [by exists []|constructor]. }
  all: destruct (prober (trace ++ _) c) eqn:E2;
    rewrite <- app_assoc; cbn [app]; eexists; (split; [done|]);
    (split; [by eexists [_]|]); by constructor.
Qed.

(** What a walk over [ladder] leaves: the groups of the failed candidates in
    ladder order, and the group of the winner if there is one. *)
Definition walk_outcome (ladder : list strategy_chain) (out : option strategy_chain)
    (t : probe_trace) : Prop :=
  match out with
  | Some c =>
      exists i gs g, ladder !! i = Some c /\ Forall2 failed_probes (take i ladder) gs /\
        won_probes c g /\ t = concat gs ++ g
  | None => exists gs, Forall2 failed_probes ladder gs /\ t = concat gs
  end.

Lemma walk_ladder_spec prober ladder result trace :
  let '(out, r, trace') := walk_ladder prober ladder result trace in
  exists t, trace' = trace ++ t /\ walk_outcome ladder out t /\
    (t = [] /\ r = result \/ exists t' c, t = t' ++ [(c, r)]).
Proof.
  revert result trace. induction ladder as [|c ladder IH]; intros result trace.
  - exists []. rewrite app_nil_r. refine (conj eq_refl (conj _ _)); [|by left].
    by exists [].
  - cbn [walk_ladder].
    pose proof (try_candidate_spec prober c result trace) as H.
    destruct (try_candidate prober _ c result trace) as [[won r1] trace1].
    destruct H as (g & -> & (g' & Hg') & Hg). destruct won.
    + exists g. refine (conj eq_refl (conj _ _)).
      * exists O, [], g. done.
      * right. by exists g', c.
    + specialize (IH r1 (trace ++ g)).
      destruct (walk_ladder prober ladder r1 (trace ++ g)) as [[out r2] trace2].
      destruct IH as (t & -> & Ht & Hlast). exists (g ++ t). rewrite app_assoc.
      refine (conj eq_refl (conj _ _)).
      * destruct out as [c'|].
        -- destruct Ht as (i & gs & gw & Hi & Hgs & Hw & ->).
           exists (S i), (g :: gs), gw. cbn [concat]. rewrite app_assoc.
           refine (conj Hi (conj _ (conj Hw eq_refl))). by constructor.
        -- destruct Ht as (gs & Hgs & ->). exists (g :: gs). split; [by constructor|done].
      * right. destruct Hlast as [[-> ->]|(t' & c' & ->)].
        -- exists g', c. by rewrite app_nil_r.
        -- exists (g ++ t'), c'. by rewrite app_assoc.
Qed.

Lemma failed_probes_length cs gs :
  Forall2 failed_probes cs gs -> (length (concat gs) <= 2 * length cs)%nat.
Proof.
  induction 1 as [|c g cs gs Hg _ IH]; [done|]. cbn [concat length]. rewrite length_app.
  assert (length g <= 2)%nat by (destruct Hg; cbn; lia). lia.
Qed.

Lemma walk_outcome_length ladder out t :
  walk_outcome ladder out t -> (length t <= 2 * length ladder)%nat.
Proof.
  destruct out as [c|].
  - intros (i & gs & g & Hi & Hgs & Hg & ->). rewrite length_app.
    apply failed_probes_length in Hgs. apply lookup_lt_Some in Hi.
    rewrite length_take in Hgs. assert (length g <= 2)%nat by (destruct Hg; cbn; lia). lia.
  - intros (gs & Hgs & ->). by apply failed_probes_length.
Qed.

(** Whatever the prober answers, [discovery_run] makes at most 14
    probes, in ladder order, at most two per candidate and only one after a
    local error; it returns the first candidate whose probe succeeded, all
    simpler ones having failed, and stops there; it returns 0 only after the
    whole ladder failed; the reported last result is that of the last probe. *)
Theorem discovery_run_correct prober :
  let '(out, last, trace) := discovery_run prober in
  (length trace <= 14)%nat /\ walk_outcome g_discovery_ladder out trace /\
  exists t c, trace = t ++ [(c, last)].
Proof.
  unfold discovery_run.
  pose proof (walk_ladder_spec prober g_discovery_ladder PROBE_LOCAL_ERROR []) as H.
  destruct (walk_ladder prober g_discovery_ladder PROBE_LOCAL_ERROR []) as [[out r] trace].
  destruct H as (t & -> & Ht & Hlast). cbn [app].
  refine (conj _ (conj Ht _)); [by apply (walk_outcome_length g_discovery_ladder out)|].
  destruct Hlast as [[-> ->]|(t' & c & ->)]; [|by exists t', c].
  exfalso. destruct out as [c|].
  - destruct Ht as (i & gs & g & _ & _ & Hg & He). symmetry in He.
    apply app_nil in He as [_ ->]. by inversion Hg.
  - destruct Ht as (gs & Hgs & He). inversion Hgs as [|c g cs gs' Hg _]; subst.
    symmetry in He. apply app_nil in He as [-> _]. by inversion Hg.
Qed.

(** ** The cache: invariant and lookup *)

Record cache_ok (cache : discovery_cache) : Prop := {
  cok_count : zlen cache <= DISCOVERY_CACHE_MAX;
  cok_safe : Forall (fun e => strategy_chain_is_safe (ce_chain e) = true) cache;
  cok_domains : Forall (fun e => zlen (ce_domain e) < STRATEGY_DOMAIN_MAX) cache;
  cok_unique : NoDup (map (fun e => lower (ce_domain e)) cache)
}.

Lemma update_entry_Some cache e cache' :
  update_entry cache e = Some cache' ->
  exists l x k, cache = l ++ x :: k /\
    cache' = l ++ mk_entry (ce_domain x) (ce_chain e) (ce_fingerprint e) (ce_validated_at e) :: k /\
    ieq (ce_domain x) (ce_domain e) = true /\
    Forall (fun y => ieq (ce_domain y) (ce_domain e) = false) l.
Proof.
  revert cache'. induction cache as [|x cache IH]; intros cache'; cbn; [done|].
  destruct (ieq (ce_domain x) (ce_domain e)) eqn:E.
  - intros [= <-]. by exists [], x, cache.
  - destruct (update_entry cache e) as [c1|]; [|done]. intros [= <-].
    destruct (IH c1 eq_refl) as (l & y & k & -> & -> & H1 & H2).
    exists (x :: l), y, k. repeat split; try done. by constructor.
Qed.

Lemma update_entry_None cache e :
  update_entry cache e = None ->
  Forall (fun y => ieq (ce_domain y) (ce_domain e) = false) cache.
Proof.
  induction cache as [|x cache IH]; cbn; [done|].
  destruct (ieq (ce_domain x) (ce_domain e)) eqn:E; [done|].
  destruct (update_entry cache e); [done|]. intros _. constructor; auto.
Qed.

(** The table after a write: the entry of the domain (or the end of the
    table) becomes the new one. *)
Lemma discovery_cache_set_shape cache d c fp now cache' :
  discovery_cache_set cache d c fp now = Some cache' ->
  exists l mid k d', cache = l ++ mid ++ k /\ cache' = l ++ mk_entry d' c fp now :: k /\
    ieq d' d = true /\ Forall (fun e => ieq (ce_domain e) d = false) l /\
    Forall (fun e => ieq (ce_domain e) d = true) mid.
Proof.
  unfold discovery_cache_set.
  destruct (update_entry cache _) as [c1|] eqn:E.
  - apply update_entry_Some in E as (l & x & k & -> & -> & Hx & Hl). intros [= <-].
    exists l, [x], k, (ce_domain x). by repeat split; try constructor.
  - apply update_entry_None in E. destruct (_ || _); [done|]. intros [= <-].
    exists cache, [], [], d. rewrite !app_nil_r. repeat split; try done. apply ieq_refl.
Qed.

(** When an entry answers a lookup on the network [fp'] at time [t]. *)
Definition usable (fp vat fp' ttl t : Z) : bool :=
  negb (fp' =? NETFP_UNKNOWN) && (fp =? fp') && (vat <=? t) && (t - vat <=? ttl).

Lemma lookup_entry_usable e fp' ttl t :
  (if fp' =? NETFP_UNKNOWN then None else
   if negb (ce_fingerprint e =? fp') then None else
   if ttl <? t - ce_validated_at e then None else
   if t <? ce_validated_at e then None else Some e) =
  if usable (ce_fingerprint e) (ce_validated_at e) fp' ttl t then Some e else None.
Proof.
  unfold usable. rewrite (Z.leb_antisym t), (Z.leb_antisym ttl).
  destruct (fp' =? NETFP_UNKNOWN), (ce_fingerprint e =? fp'),
    (ttl <? t - ce_validated_at e), (t <? ce_validated_at e); done.
Qed.

(** After a successful [discovery_cache_set], the lookup of that domain
    (up to case) answers the new chain exactly on the same, known network and
    while it is at most [ttl] seconds old (and not from the future); the
    lookup of every other domain is unchanged. In particular nothing is ever
    answered on an unknown network. *)
Theorem discovery_cache_set_lookup cache d c fp now cache' x fp' ttl t :
  discovery_cache_set cache d c fp now = Some cache' ->
  ce_chain <$> discovery_cache_lookup cache' x fp' ttl t =
    if ieq d x then if usable fp now fp' ttl t then Some c else None
    else ce_chain <$> discovery_cache_lookup cache x fp' ttl t.
Proof.
  intros (l & mid & k & d' & -> & -> & Hd' & Hl & Hmid)%discovery_cache_set_shape.
  unfold discovery_cache_lookup. destruct (ieq d x) eqn:Edx.
  - rewrite find_app_None.
    + cbn [find ce_domain]. rewrite (ieq_trans d d') by (by rewrite ieq_sym). rewrite Edx.
      rewrite (lookup_entry_usable (mk_entry d' c fp now) fp' ttl t).
      cbn [ce_fingerprint ce_validated_at]. by destruct (usable fp now fp' ttl t).
    + eapply Forall_impl; [exact Hl|]. cbv beta. intros e He.
      rewrite ieq_sym, (ieq_trans d x), ieq_sym by done. done.
  - assert (Hfind : find (fun e => ieq (ce_domain e) x) (l ++ mk_entry d' c fp now :: k) =
                    find (fun e => ieq (ce_domain e) x) (l ++ mid ++ k)).
    { assert (Hskip : forall e, ieq (ce_domain e) d = true -> ieq (ce_domain e) x = false).
      { intros e He. rewrite ieq_sym in He. by rewrite (ieq_trans d (ce_domain e)). }
      clear Hl. induction l as [|y l IH]; cbn [app find];
        [|by destruct (ieq (ce_domain y) x)].
      rewrite Hskip by done. symmetry. apply find_app_None.
      by apply (Forall_impl _ _ _ Hmid). }
    by rewrite Hfind.
Qed.

Lemma discovery_cache_set_lookup_witness :
  exists cache', discovery_cache_set [] (str "a.com") [STRATEGY_SPLIT] 5 100 = Some cache' /\
    ce_chain <$> discovery_cache_lookup cache' (str "A.com") 5 60 150 = Some [STRATEGY_SPLIT] /\
    ce_chain <$> discovery_cache_lookup cache' (str "A.com") 5 60 161 = None.
Proof.
  destruct (discovery_cache_set [] (str "a.com") [STRATEGY_SPLIT] 5 100)
    as [cache'|] eqn:E; [|vm_compute in E; discriminate].
  exists cache'. split; [reflexivity|].
  rewrite !(discovery_cache_set_lookup _ _ _ _ _ _ _ _ _ _ E). split; reflexivity.
Defined.

Lemma discovery_cache_set_ok cache d c fp now cache' :
  cache_ok cache -> strategy_chain_is_safe c = true ->
  discovery_cache_set cache d c fp now = Some cache' -> cache_ok cache'.
Proof.
  intros [Hc Hs Hd Hu] Hsafe. unfold discovery_cache_set.
  destruct (update_entry cache _) as [c1|] eqn:E.
  - apply update_entry_Some in E as (l & x & k & -> & -> & _ & _). intros [= <-].
    apply Forall_app in Hs as [Hs1 Hs2], Hd as [Hd1 Hd2].
    inversion Hs2; inversion Hd2; subst. split.
    + revert Hc. unfold zlen. by rewrite !length_app.
    + apply Forall_app_2; [done|]. by constructor.
    + apply Forall_app_2; [done|]. by constructor.
    + by rewrite map_app in *.
  - apply update_entry_None in E. destruct (_ || _) eqn:G; [done|]. zbool. intros [= <-].
    split.
    + rewrite zlen_app. change (zlen [_]) with 1. lia.
    + apply Forall_app_2; [done|]. by constructor.
    + apply Forall_app_2; [done|]. by constructor.
    + rewrite map_app. apply NoDup_app. refine (conj Hu (conj _ _)); [|apply NoDup_singleton].
      intros z Hz Hz'. cbn in Hz'. apply list_elem_of_singleton in Hz' as ->.
      apply list_elem_of_fmap in Hz as (y & Hy & Hin).
      rewrite Forall_forall in E. specialize (E y Hin). apply ieq_false in E. cbn in *. congruence.
Qed.

(** ** Parsing keeps the cache well-formed *)

Lemma scan_entry_safe line e :
  scan_entry line = Some e -> strategy_chain_is_safe (ce_chain e) = true.
Proof.
  unfold scan_entry. intros H.
  repeat match type of H with
  | (mbind ?k ?m = Some _) => destruct m as [?|]; cbn [mbind option_bind] in H; [|done]
  | context [let '(_, _) := ?p in _] => destruct p
  end.
  match type of H with context [strategy_chain_from_string ?s] =>
    pose proof (strategy_chain_from_string_wp s) as W;
    destruct (strategy_chain_from_string s); [|done|done] end.
  by injection H as <-.
Qed.

Lemma cache_parse_line_ok st line :
  cache_ok st.1 -> cache_ok (cache_parse_line st line).1.
Proof.
  destruct st as [cache skipped]. cbn [fst]. intros Hok. unfold cache_parse_line.
  destruct (_ || _); [done|]. destruct (scan_entry line) as [e|] eqn:E; [|done].
  apply scan_entry_safe in E.
  destruct (discovery_cache_set _ _ _ _ _) as [cache'|] eqn:S; [|done].
  by apply (discovery_cache_set_ok _ _ _ _ _ _ Hok E S).
Qed.

Lemma discovery_cache_parse_ok cache text :
  cache_ok cache ->
  wp (discovery_cache_parse cache text) (fun r => cache_ok r.1) (fun _ => False).
Proof.
  intros Hok. unfold discovery_cache_parse.
  apply (wp_loop (fun st => cache_ok st.1.1) (fun st => length st.2)); [|done|cbn; lia].
  intros [s text'] Hs. unfold cache_parse_step.
  destruct text' as [|c text']; [by apply wp_ok|].
  destruct (read_line 511 (c :: text')) as [line rest] eqn:E.
  apply wp_ok. cbn [fst snd] in *. split; [by apply cache_parse_line_ok|].
  by apply (parse_step_shorter c text' line).
Qed.

(** ** Runtime precedence *)

Lemma explicit_rule_safe cfg domain c :
  config_ok cfg -> strategy_has_explicit_rule cfg domain = Some c ->
  strategy_chain_is_safe c = true.
Proof.
  intros [Hs _ _ _ _]. unfold strategy_has_explicit_rule. rewrite Forall_forall in Hs.
  assert (Hf : forall f r, find f (rules cfg) = Some r -> strategy_chain_is_safe (rule_chain r) = true).
  { intros f r Hr. apply List.find_some in Hr as [Hin _]. apply Hs. by apply list_elem_of_In. }
  destruct (find (exact_rule domain) (rules cfg)) as [r|] eqn:E1.
  - intros [= <-]. by apply (Hf _ _ E1).
  - destruct (find (suffix_rule domain) (rules cfg)) as [r|] eqn:E2; [|done].
    intros [= <-]. by apply (Hf _ _ E2).
Qed.

Lemma discovery_cache_lookup_Some cache domain fp ttl now e :
  discovery_cache_lookup cache domain fp ttl now = Some e ->
  e ∈ cache /\ ieq (ce_domain e) domain = true /\
  usable (ce_fingerprint e) (ce_validated_at e) fp ttl now = true.
Proof.
  unfold discovery_cache_lookup.
  destruct (find _ cache) as [x|] eqn:E; [|by destruct (fp =? NETFP_UNKNOWN)].
  rewrite lookup_entry_usable. destruct (usable _ _ _ _ _) eqn:U; [|done]. intros [= <-].
  apply List.find_some in E as [Hin He]. split; [by apply list_elem_of_In|done].
Qed.

Lemma strategy_resolve_chain_safe cfg cache fp now domain :
  config_ok cfg -> cache_ok cache ->
  strategy_chain_is_safe (strategy_resolve_chain cfg cache fp now domain).1.2 = true.
Proof.
  intros Hcfg Hcache. unfold strategy_resolve_chain.
  destruct (strategy_has_explicit_rule cfg domain) as [c|] eqn:E.
  - cbn. by apply (explicit_rule_safe cfg domain).
  - destruct (discovery_cache_lookup _ _ _ _ _) as [e|] eqn:L; [|done]. cbn.
    apply discovery_cache_lookup_Some in L as (Hin & _).
    destruct Hcache as [_ Hs _ _]. rewrite Forall_forall in Hs. by apply Hs.
Qed.

(** The runtime choice for a hostname: an explicit rule always wins;
    otherwise a discovered chain is used only if it was validated on this
    very (known) network within the last 24 hours; otherwise the default
    applies. Whatever files the configuration and the cache were parsed
    from, the chosen chain is in the whitelist. *)
Theorem strategy_resolve_chain_correct conf_text cache_text fp now domain :
  exists cfg skipped cache skipped',
    strategy_config_parse strategy_config_init conf_text = Ok (cfg, skipped) /\
    discovery_cache_parse discovery_cache_init cache_text = Ok (cache, skipped') /\
    let '(source, out, entry) := strategy_resolve_chain cfg cache fp now domain in
    strategy_chain_is_safe out = true /\
    match source with
    | STRATEGY_SOURCE_MANUAL => strategy_has_explicit_rule cfg domain = Some out
    | STRATEGY_SOURCE_AUTO =>
        strategy_has_explicit_rule cfg domain = None /\ fp <> NETFP_UNKNOWN /\
        exists e, entry = Some e /\ e ∈ cache /\ out = ce_chain e /\
          ieq (ce_domain e) domain = true /\ ce_fingerprint e = fp /\
          0 <= now - ce_validated_at e <= 86400
    | STRATEGY_SOURCE_DEFAULT =>
        strategy_has_explicit_rule cfg domain = None /\ out = [default_strategy cfg]
    end.
Proof.
  pose proof (strategy_config_parse_wp strategy_config_init conf_text strategy_config_init_ok) as W.
  destruct (strategy_config_parse strategy_config_init conf_text) as [[cfg sk]|e|]; [|done|done].
  assert (H0 : cache_ok discovery_cache_init) by (split; try done; constructor).
  pose proof (discovery_cache_parse_ok _ cache_text H0) as W'.
  destruct (discovery_cache_parse discovery_cache_init cache_text) as [[cache sk']|e|]; [|done|done].
  exists cfg, sk, cache, sk'. refine (conj eq_refl (conj eq_refl _)). cbn [fst] in *.
  pose proof (strategy_resolve_chain_safe cfg cache fp now domain (proj1 W) W') as Hsafe.
  unfold strategy_resolve_chain in *.
  destruct (strategy_has_explicit_rule cfg domain) as [c|] eqn:E; [by split|].
  destruct (discovery_cache_lookup _ _ _ _ _) as [e|] eqn:L; [|by split].
  split; [done|]. apply discovery_cache_lookup_Some in L as (Hin & He & Hu).
  unfold usable, DISCOVERY_CACHE_DEFAULT_TTL_SECONDS in Hu. zbool.
  refine (conj eq_refl (conj _ _)); [done|]. exists e. repeat split; try done; lia.
Qed.

(** ** Writing and reading the cache file *)

(** Entries the text form can carry: what [discovery_cache_set] is given for
    a hostname found in traffic, on a network with a fingerprint. *)
Record entry_printable (e : cache_entry) : Prop := {
  ep_word : is_word (ce_domain e);
  ep_len : 0 < zlen (ce_domain e) < STRATEGY_DOMAIN_MAX;
  ep_first : bget (ce_domain e) 0 <> 35 /\ bget (ce_domain e) 0 <> 59;
  ep_fp : 0 <= ce_fingerprint e < 2 ^ 64;
  ep_time : LONG_MIN <= ce_validated_at e <= LONG_MAX;
  ep_safe : strategy_chain_is_safe (ce_chain e) = true
}.

(** The printed chain, as a word that parses back. *)
Lemma describe_word c :
  strategy_chain_is_safe c = true ->
  exists s, strategy_chain_describe c 64 = Some s /\ strategy_chain_from_string s = Ok c /\
    is_word s /\ 0 < zlen s <= 12.
Proof.
  intros Hc. apply strategy_chain_is_safe_iff in Hc as [[a ->]|[-> | ->]]; [destruct a|..];
    (eexists; split; [vm_compute; reflexivity|]; split; [vm_compute; reflexivity|];
     split; [repeat constructor; discriminate|split; [reflexivity|discriminate]]).
Qed.

Definition entry_text (e : cache_entry) : list Z :=
  ce_domain e ++ 32 :: hex_digits 16 (ce_fingerprint e) ++
  32 :: print_dec (ce_validated_at e) ++
  32 :: default [] (strategy_chain_describe (ce_chain e) 64).

Lemma entry_line_text e : entry_line e = entry_text e ++ [10].
Proof. unfold entry_line, entry_text. by repeat (rewrite <- app_assoc; cbn [app]). Qed.

Lemma scan_entry_text e : entry_printable e -> scan_entry (entry_text e) = Some e.
Proof.
  intros [Hw Hlen _ Hfp Ht Hs]. unfold scan_entry, entry_text.
  destruct (print_hex_word _ Hfp) as (Hx & Lx & Sx).
  destruct (print_dec_word _ Ht) as (Hd & Ld & Sd).
  destruct (describe_word _ Hs) as (c & -> & Sc & Hcw & Lc). cbn [default from_option id].
  unfold zlen, STRATEGY_DOMAIN_MAX in *.
  rewrite (proj1 (scan_word_app 255 (ce_domain e) 32 _ Hw ltac:(unfold zlen; lia) ltac:(lia) eq_refl)).
  cbn [mbind option_bind].
  rewrite (proj2 (scan_word_app 31 _ 32 _ Hx ltac:(unfold zlen; lia) ltac:(lia) eq_refl)).
  cbn [mbind option_bind].
  rewrite (proj2 (scan_word_app 31 _ 32 _ Hd ltac:(unfold zlen; lia) ltac:(lia) eq_refl)).
  cbn [mbind option_bind].
  rewrite (scan_word_last 63 _ Hcw ltac:(unfold zlen; lia) ltac:(lia)). cbn [mbind option_bind].
  rewrite Sx. cbn [mbind option_bind]. rewrite Sd. cbn [mbind option_bind]. rewrite Sc.
  by destruct e.
Qed.

(** A line that neither contains a newline or NUL nor ends in a blank is
    read back as it is. *)
Lemma read_line_app room l r :
  Forall (fun c => c <> 10) l -> (length l <= room)%nat ->
  read_line room (l ++ 10 :: r) = (l, 10 :: r).
Proof.
  intros Hl. revert room. induction Hl as [|c l Hc Hl IH]; intros room Hlen.
  - by destruct room.
  - destruct room; cbn [length] in Hlen; [lia|]. cbn [app read_line].
    rewrite (proj2 (Z.eqb_neq _ _) Hc), IH by lia. done.
Qed.

Lemma cstr_id l : Forall (fun c => c <> 0) l -> cstr l = l.
Proof.
  induction 1 as [|c l Hc _ IH]; [done|]. cbn [cstr]. by rewrite (proj2 (Z.eqb_neq _ _) Hc), IH.
Qed.

Lemma cache_trim_snoc l c : isspace c = false -> cache_trim (l ++ [c]) = l ++ [c].
Proof.
  intros Hc. induction l as [|x l IH]; cbn [app cache_trim].
  - unfold is_blank. unfold isspace in Hc. zbool.
    rewrite !(proj2 (Z.eqb_neq c _)); [done|..]; intros ->; done.
  - rewrite IH. by destruct l.
Qed.

(** A word ends in a character that is kept. *)
Lemma cache_trim_word l w :
  is_word w -> 0 < zlen w -> cache_trim (l ++ w) = l ++ w.
Proof.
  intros Hw Hl. destruct (exists_last (l := w)) as (w' & c & ->).
  { intros ->. done. }
  rewrite app_assoc. apply cache_trim_snoc. apply Forall_app in Hw as [_ Hw].
  by inversion Hw as [|? ? [? _] _].
Qed.

Lemma entry_text_chars e :
  entry_printable e ->
  Forall (fun c => c <> 0 /\ c <> 10) (entry_text e) /\ 0 < zlen (entry_text e) <= 511 /\
  cache_trim (entry_text e) = entry_text e /\
  bget (entry_text e) 0 = bget (ce_domain e) 0.
Proof.
  intros [Hw Hlen _ Hfp Ht Hs]. unfold entry_text.
  destruct (print_hex_word _ Hfp) as (Hx & Lx & _).
  destruct (print_dec_word _ Ht) as (Hd & Ld & _).
  destruct (describe_word _ Hs) as (c & -> & _ & Hcw & Lc). cbn [default from_option id].
  assert (Hword : forall w, is_word w -> Forall (fun c => c <> 0 /\ c <> 10) w).
  { intros w H. apply (Forall_impl _ _ _ H). tauto. }
  refine (conj _ (conj _ (conj _ _))).
  - repeat first [by apply Hword | apply Forall_cons_2; [lia|] | apply Forall_app_2].
  - rewrite !zlen_app, !zlen_cons, !zlen_app, !zlen_cons, !zlen_app, !zlen_cons.
    unfold STRATEGY_DOMAIN_MAX in Hlen. lia.
  - set (h := hex_digits 16 _). set (d := print_dec _).
    replace (ce_domain e ++ 32 :: h ++ 32 :: d ++ 32 :: c)
      with ((ce_domain e ++ 32 :: h ++ 32 :: d ++ [32]) ++ c)
      by (by repeat (rewrite <- app_assoc; cbn [app])).
    apply cache_trim_word; [done|lia].
  - rewrite bget_app_l by lia. done.
Qed.

(** A new domain is appended while there is room. *)
Lemma discovery_cache_set_new cache e :
  zlen cache < DISCOVERY_CACHE_MAX -> zlen (ce_domain e) < STRATEGY_DOMAIN_MAX ->
  Forall (fun y => ieq (ce_domain y) (ce_domain e) = false) cache ->
  discovery_cache_set cache (ce_domain e) (ce_chain e) (ce_fingerprint e) (ce_validated_at e)
    = Some (cache ++ [e]).
Proof.
  intros H1 H2 H3. unfold discovery_cache_set.
  assert (E : update_entry cache
    (mk_entry (ce_domain e) (ce_chain e) (ce_fingerprint e) (ce_validated_at e)) = None).
  { clear H1. induction H3 as [|y cache Hy _ IH]; [done|]. cbn [update_entry ce_domain].
    by rewrite Hy, IH. }
  rewrite E, !(proj2 (Z.leb_gt _ _)) by done. by destruct e.
Qed.

(** What a line of the text form does to the cache. *)
Definition merge_entry (st : discovery_cache * Z) (e : cache_entry) : discovery_cache * Z :=
  match discovery_cache_set st.1 (ce_domain e) (ce_chain e) (ce_fingerprint e)
          (ce_validated_at e) with
  | Some cache' => (cache', st.2)
  | None => (st.1, st.2 + 1)
  end.

(** One printed line, parsed. *)
Lemma cache_parse_step_entry st e rest :
  entry_printable e ->
  cache_parse_step (st, entry_line e ++ rest) = Ok (inl (merge_entry st e, rest)).
Proof.
  intros He. destruct (entry_text_chars e He) as (Hch & Hlen & Htrim & Hfst).
  unfold cache_parse_step.
  assert (E : entry_line e ++ rest = entry_text e ++ 10 :: rest)
    by (rewrite entry_line_text, <- app_assoc; done).
  rewrite E. destruct (entry_text e ++ 10 :: rest) as [|c0 t0] eqn:Et.
  { by destruct (entry_text e). }
  rewrite <- Et, read_line_app.
  2: { apply (Forall_impl _ _ _ Hch). tauto. }
  2: { unfold zlen in Hlen. lia. }
  cbn [skip_to_newline]. change (10 =? 10) with true. cbn [drop].
  rewrite cstr_id by (apply (Forall_impl _ _ _ Hch); tauto). rewrite Htrim.
  destruct st as [cache skipped].
  unfold cache_parse_line. rewrite Hfst. destruct (ep_first e He) as [F1 F2].
  rewrite (proj2 (Z.eqb_neq (zlen _) 0)), (proj2 (Z.eqb_neq _ _) F1), (proj2 (Z.eqb_neq _ _) F2) by lia.
  cbn [orb]. rewrite scan_entry_text by done. done.
Qed.

(** The whole text: every entry is merged in turn. *)
Lemma cache_parse_entries es st fuel :
  Forall entry_printable es -> (length (concat (map entry_line es)) < fuel)%nat ->
  loop fuel cache_parse_step (st, concat (map entry_line es)) = Ok (foldl merge_entry st es).
Proof.
  intros Hes. revert st fuel. induction Hes as [|e es He Hes IH]; intros st fuel Hfuel.
  - by destruct fuel; [cbn in Hfuel; lia|].
  - cbn [map concat foldl] in *. rewrite length_app in Hfuel. destruct fuel as [|fuel]; [lia|].
    rewrite loop_S, cache_parse_step_entry by done. apply IH.
    assert (Hl : (0 < length (entry_line e))%nat)
      by (rewrite entry_line_text, length_app; cbn; lia). lia.
Qed.

(** Entries of new domains are appended. *)
Lemma merge_new es cache skipped :
  cache_ok (cache ++ es) -> foldl merge_entry (cache, skipped) es = (cache ++ es, skipped).
Proof.
  revert cache. induction es as [|e es IH]; intros cache Hok; [by rewrite app_nil_r|].
  pose proof Hok as [Hc Hs Hd Hu]. rewrite zlen_app, zlen_cons in Hc.
  pose proof (zlen_nonneg es).
  assert (Hnew : Forall (fun y => ieq (ce_domain y) (ce_domain e) = false) cache).
  { apply Forall_forall. intros y Hy. apply ieq_false. intros E.
    rewrite map_app in Hu. apply NoDup_app in Hu as (_ & Hu & _).
    apply (Hu (lower (ce_domain y))); [by apply (list_elem_of_fmap_2 (fun e => lower (ce_domain e)))|].
    rewrite E. cbn. left. }
  apply Forall_app in Hd as [_ Hd]. inversion Hd as [|? ? Hde _]; subst.
  cbn [foldl]. unfold merge_entry at 2. cbn [fst snd].
  rewrite discovery_cache_set_new by (done || lia).
  rewrite IH; by rewrite <- app_assoc.
Qed.

Lemma cache_parse_lines es cache skipped fuel :
  Forall entry_printable es -> cache_ok (cache ++ es) ->
  (length (concat (map entry_line es)) < fuel)%nat ->
  loop fuel cache_parse_step ((cache, skipped), concat (map entry_line es))
    = Ok (cache ++ es, skipped).
Proof. intros. rewrite cache_parse_entries by done. by rewrite merge_new. Qed.

(** Writing and reading the cache file is lossless: a well-formed cache
    of printable entries that fits the output buffer is serialized to a text
    that parses back to the same cache, entry by entry, with no line
    skipped; when it does not fit, nothing is produced (the save fails). *)
Theorem discovery_cache_roundtrip cache out_size :
  cache_ok cache -> Forall entry_printable cache ->
  zlen (concat (map entry_line cache)) < out_size ->
  discovery_cache_parse discovery_cache_init (discovery_cache_serialize cache out_size)
    = Ok (cache, 0).
Proof.
  intros Hok Hes Hfit. unfold discovery_cache_serialize, discovery_cache_parse.
  rewrite (proj2 (Z.leb_gt _ _)) by done. apply (cache_parse_lines cache []); [done|done|lia].
Qed.

Definition sample_cache : discovery_cache :=
  [mk_entry (str "Example.com") [STRATEGY_FAKE; STRATEGY_SPLIT] 0xfedcba9876543210 1700000000;
   mk_entry (str "a.b") [STRATEGY_DISORDER] 7 (-5)].

Lemma discovery_cache_roundtrip_witness :
  cache_ok sample_cache /\ Forall entry_printable sample_cache /\
  discovery_cache_parse discovery_cache_init (discovery_cache_serialize sample_cache 16384)
    = Ok (sample_cache, 0).
Proof.
  assert (H1 : cache_ok sample_cache).
  { split; [vm_compute; congruence|by repeat constructor|by repeat constructor|].
    apply (bool_decide_unpack _). vm_compute. exact I. }
  assert (H2 : Forall entry_printable sample_cache).
  { repeat constructor; vm_compute; congruence. }
  split; [exact H1|]. split; [exact H2|].
  apply (discovery_cache_roundtrip sample_cache 16384 H1 H2). vm_compute. reflexivity.
Defined.

(** ** The fingerprint *)

Definition is_u64 (x : Z) : Prop := 0 <= x < 2 ^ 64.

(** The inverse of the FNV prime modulo 2^64. *)
Definition FNV_PRIME_INV : Z := 14886173955864302971.

Lemma fnv_mul_inj a b :
  is_u64 a -> is_u64 b -> u64 (a * FNV_PRIME) = u64 (b * FNV_PRIME) -> a = b.
Proof.
  unfold is_u64, u64. intros Ha Hb H.
  assert (G : forall x, 0 <= x < 2 ^ 64 ->
            ((x * FNV_PRIME) mod 2 ^ 64 * FNV_PRIME_INV) mod 2 ^ 64 = x).
  { intros x Hx. rewrite Z.mul_mod_idemp_l, <- Z.mul_assoc by done.
    rewrite <- Z.mul_mod_idemp_r by done.
    replace ((FNV_PRIME * FNV_PRIME_INV) mod 2 ^ 64) with 1 by (vm_compute; reflexivity).
    rewrite Z.mul_1_r. by apply Z.mod_small. }
  by rewrite <- (G a), <- (G b), H.
Qed.

Lemma is_u64_lxor h b : is_u64 h -> is_u8 b -> is_u64 (Z.lxor h b).
Proof.
  unfold is_u64, is_u8. intros Hh Hb.
  assert (Hn : 0 <= Z.lxor h b) by (apply Z.lxor_nonneg; lia). split; [done|].
  destruct (decide (Z.lxor h b = 0)) as [->|Hz]; [lia|].
  apply Z.log2_lt_pow2; [lia|]. pose proof (Z.log2_lxor h b ltac:(lia) ltac:(lia)).
  assert (Z.log2 h < 64) by (destruct (decide (h = 0)) as [->|]; [done|apply Z.log2_lt_pow2; lia]).
  assert (Z.log2 b < 64) by (destruct (decide (b = 0)) as [->|]; [done|apply Z.log2_lt_pow2; lia]).
  lia.
Qed.

Lemma lxor_inj_l h h' b : Z.lxor h b = Z.lxor h' b -> h = h'.
Proof.
  intros H. rewrite <- (Z.lxor_0_r h), <- (Z.lxor_0_r h'), <- (Z.lxor_nilpotent b).
  by rewrite <- !Z.lxor_assoc, H.
Qed.

Lemma fnv1a_byte_range h b : is_u64 (fnv1a_byte h b).
Proof. unfold fnv1a_byte, u64, is_u64. apply Z.mod_pos_bound. done. Qed.

(** One step is injective in the state and in the byte. *)
Lemma fnv1a_byte_inj h h' b b' :
  is_u64 h -> is_u64 h' -> is_u8 b -> is_u8 b' ->
  fnv1a_byte h b = fnv1a_byte h' b' -> Z.lxor h b = Z.lxor h' b'.
Proof. intros. apply fnv_mul_inj; auto using is_u64_lxor. Qed.

Lemma fnv1a_range h data : is_u64 h -> is_u64 (fnv1a h data).
Proof.
  revert h. induction data as [|b data IH]; intros h Hh; [done|].
  cbn [fnv1a foldl]. apply IH, fnv1a_byte_range.
Qed.

Lemma fnv1a_inj h h' data :
  is_u64 h -> is_u64 h' -> bytes_ok data -> fnv1a h data = fnv1a h' data -> h = h'.
Proof.
  intros Hh Hh' Hd. revert h h' Hh Hh'.
  induction Hd as [|b data Hb Hd IH]; intros h h' Hh Hh' H; [done|].
  apply IH in H; [|apply fnv1a_byte_range|apply fnv1a_byte_range].
  apply fnv1a_byte_inj in H; try done. by apply lxor_inj_l in H.
Qed.

Lemma fnv1a_app h a b : fnv1a h (a ++ b) = fnv1a (fnv1a h a) b.
Proof. apply foldl_app. Qed.

(** Inputs that differ in a single byte never collide. *)
Lemma fnv1a_one_byte h l b b' r :
  is_u64 h -> is_u8 b -> is_u8 b' -> bytes_ok r ->
  fnv1a h (l ++ b :: r) = fnv1a h (l ++ b' :: r) -> b = b'.
Proof.
  intros Hh Hb Hb' Hr H. rewrite !fnv1a_app in H.
  change (fnv1a (fnv1a_byte (fnv1a h l) b) r = fnv1a (fnv1a_byte (fnv1a h l) b') r) in H.
  apply fnv1a_inj in H; [|apply fnv1a_byte_range|apply fnv1a_byte_range|done].
  apply fnv1a_byte_inj in H; auto using fnv1a_range.
  rewrite !(Z.lxor_comm (fnv1a h l)) in H. by apply lxor_inj_l in H.
Qed.

Lemma bytes_ok_le32 v : bytes_ok (le32 v).
Proof. repeat constructor; apply u8_range. Qed.

(** The hash before the reserved value 0 is avoided. *)
Definition raw_fingerprint (profile : net_profile) (gw_raw : Z) (mac : list Z) : Z :=
  fnv1a FNV_BASIS
    (np_iface profile ++ le32 gw_raw ++ mac ++
     le32 (link_type_code (np_link_type profile)) ++ np_ssid profile ++
     le32 (bool_code (np_has_ipv4_default profile)) ++
     le32 (bool_code (np_has_ipv6_default profile))).

Lemma netfingerprint_hash_raw profile gw_raw gw_mac :
  netfingerprint_hash profile gw_raw gw_mac =
    let h := raw_fingerprint profile gw_raw (default [] gw_mac) in
    if h =? NETFP_UNKNOWN then 1 else h.
Proof.
  unfold netfingerprint_hash, raw_fingerprint. rewrite !fnv1a_app. by destruct gw_mac.
Qed.

(** A computed fingerprint is never [NETFP_UNKNOWN], and two gateways
    that differ in one byte of their MAC address get different fingerprints
    on otherwise identical networks: equal fingerprints are possible only
    for the value 1, which also stands for a raw hash of 0. *)
Lemma netfingerprint_separates_macs profile gw_raw l b b' r :
  bytes_ok (np_ssid profile) -> is_u8 b -> is_u8 b' -> bytes_ok r ->
  netfingerprint_hash profile gw_raw (Some (l ++ b :: r)) <> NETFP_UNKNOWN /\
  (netfingerprint_hash profile gw_raw (Some (l ++ b :: r)) =
   netfingerprint_hash profile gw_raw (Some (l ++ b' :: r)) ->
   b = b' \/ netfingerprint_hash profile gw_raw (Some (l ++ b :: r)) = 1).
Proof.
  intros Hs Hb Hb' Hr. rewrite !netfingerprint_hash_raw. cbv zeta. cbn [default from_option id].
  unfold NETFP_UNKNOWN. split.
  { destruct (Z.eqb_spec (raw_fingerprint profile gw_raw (l ++ b :: r)) 0); done. }
  assert (Hinj : raw_fingerprint profile gw_raw (l ++ b :: r) =
                 raw_fingerprint profile gw_raw (l ++ b' :: r) -> b = b').
  { unfold raw_fingerprint. rewrite <- !app_assoc. cbn [app].
    rewrite !(app_assoc (np_iface profile)), !(app_assoc (_ ++ le32 gw_raw)).
    apply fnv1a_one_byte; [done|done|done|]. auto 10 using bytes_ok_le32 with bytes. }
  destruct (Z.eqb_spec (raw_fingerprint profile gw_raw (l ++ b :: r)) 0),
    (Z.eqb_spec (raw_fingerprint profile gw_raw (l ++ b' :: r)) 0); intros H; auto.
Qed.
