(* ===== verification/Engine.v ===== *)
(** * The packet engine ([src/nfqueue/nfqueue_engine.c])

    One call of [packet_callback] per queued packet: parse, find the flow,
    classify the connection, choose a strategy, and accept the packet or
    replace it. The kernel side (raw socket, verdict) is observed as a list
    of events; whether an injection succeeds is decided by the parameter
    [send], which may depend on everything sent before. Logging is left out.
    The stack buffers [seg1], [seg2], [decoy] and [host] start with arbitrary
    contents, given as parameters. *)

From stdpp Require Import base list numbers strings relations.
From Stdlib Require Import ZArith Lia.
From S2P Require Import Prelude Packet Split Fragment Tls Http Strategy Flow Discovery.

(** ** Data *)

Inductive stat :=
| packets_seen | packets_passed | packets_split | packets_disorder | packets_fragment
| fake_decoys_sent | parse_failures | unsupported_packets | flows_created
| flows_expired | raw_send_failures.

#[global] Instance stat_eq_dec : EqDecision stat.
Proof. solve_decision. Defined.

Definition engine_stats : Type := stat -> Z.
Definition stat_add (s : stat) (n : Z) (st : engine_stats) : engine_stats :=
  fun x => if decide (x = s) then u64 (st x + n) else st x.
Definition bump (s : stat) (st : engine_stats) : engine_stats := stat_add s 1 st.

Record engine_ctx := mk_ctx {
  flows : flow_table;
  strategies : strategy_config;
  discovered : discovery_cache;
  fingerprint : Z;
  fingerprint_checked_at : Z;
  stats : engine_stats
}.

Inductive verdict := NF_ACCEPT | NF_DROP.

Inductive event :=
| Inject (pkt : list Z) (ok : bool)
| Verdict (v : verdict).

(** What a call changes besides the flow table: counters and events. *)
Record io := mk_io { io_stats : engine_stats; io_events : list event }.

Definition io_bump (s : stat) (w : io) : io := mk_io (bump s (io_stats w)) (io_events w).
Definition io_emit (e : event) (w : io) : io := mk_io (io_stats w) (io_events w ++ [e]).

(** ** The code *)

(** [memset(key, 0, ...)] and the address bytes. *)
Definition build_flow_key_v4 (ip : ipv4_view) (tcp : tcp_view) : pres flow_key :=
  src ← slice (ip4_header ip) 12 4;
  dst ← slice (ip4_header ip) 16 4;
  sport ← fetch16 (tcp_header tcp) 0;
  dport ← fetch16 (tcp_header tcp) 2;
  Ok (mk_key 4 (src ++ repeat 0 12) (dst ++ repeat 0 12) sport dport).

Definition build_flow_key_v6 (ip : ipv6_view) (tcp : tcp_view) : pres flow_key :=
  src ← slice (ip6_header ip) 8 16;
  dst ← slice (ip6_header ip) 24 16;
  sport ← fetch16 (tcp_header tcp) 0;
  dport ← fetch16 (tcp_header tcp) 2;
  Ok (mk_key 6 src dst sport dport).

(** [classification_done = 1; class_hint = c]. *)
Definition set_class (c : flow_class) (f : flow_entry) : flow_entry :=
  mk_flow (in_use f) (f_key f) c (reasm f) (created_at f) (last_seen f) true
    (f_strategy f) (f_chain f) (strategy_decided f) (next_seq f) (seq_initialized f).

(** The class, the flow and [host_out] after the call. *)
Definition classify (flow : flow_entry) (payload host_out : list Z)
  : pres (flow_class * flow_entry * list Z) :=
  if classification_done flow || (zlen payload =? 0)
  then Ok (FLOW_UNCLASSIFIED, flow, host_out) else
  match flow_reasm_append flow payload with
  | None => Ok (FLOW_PASSTHROUGH, set_class FLOW_PASSTHROUGH flow, host_out)
  | Some flow =>
      match tls_parse_client_hello_sni (reasm flow) host_out with
      | Fault => Fault
      | Ok h => Ok (FLOW_TLS, set_class FLOW_TLS flow, h)
      | Err PACKET_ERR_TRUNCATED => Ok (FLOW_UNCLASSIFIED, flow, host_out)
      | Err _ =>
          match http_parse_host (reasm flow) host_out with
          | Fault => Fault
          | Ok h => Ok (FLOW_HTTP, set_class FLOW_HTTP flow, h)
          | Err PACKET_ERR_TRUNCATED => Ok (FLOW_UNCLASSIFIED, flow, host_out)
          | Err _ => Ok (FLOW_PASSTHROUGH, set_class FLOW_PASSTHROUGH flow, host_out)
          end
      end
  end.

(** [flow->strategy = ...; flow->chain = chain; flow->strategy_decided = 1]. *)
Definition set_decision (chain : strategy_chain) (f : flow_entry) : flow_entry :=
  mk_flow (in_use f) (f_key f) (class_hint f) (reasm f) (created_at f) (last_seen f)
    (classification_done f) (primary chain) chain true (next_seq f) (seq_initialized f).

Section engine.
Context (send : list event -> list Z -> bool).
Context (stack_seg1 stack_seg2 stack_decoy stack_host : list Z).

(** [inject_ipv4_packet] with its failure count; [true] is the 1 return. *)
Definition inject_or_log (w : io) (pkt : list Z) : bool * io :=
  let ok := send (io_events w) pkt in
  let w := io_emit (Inject pkt ok) w in
  if ok then (true, w) else (false, io_bump raw_send_failures w).

(** [if (inject_or_log(a) && inject_or_log(b)) counter++]. *)
Definition inject_both (w : io) (a b : list Z) (counter : stat) : io :=
  let '(ok, w) := inject_or_log w a in
  if (ok : bool) then
    let '(ok, w) := inject_or_log w b in
    if (ok : bool) then io_bump counter w else w
  else w.

(** [Some decoy] is [*ok = 1]. *)
Definition build_decoy (fake_ttl : Z) (template_pkt : list Z) : pres (option (list Z)) :=
  match packet_make_fake_tcp_v4 template_pkt fake_ttl stack_decoy with
  | Ok (out, out_len) => Ok (Some (bsub out 0 out_len))
  | Err _ => Ok None
  | Fault => Fault
  end.

(** The two packets of a [packet_split_tcp_v4] or [packet_fragment_ipv4] call
    into [seg1] and [seg2]; [None] when it does not return [PACKET_OK]. *)
Definition built_pair (r : pres ((list Z * Z) * (list Z * Z)))
  : pres (option (list Z * list Z)) :=
  match r with
  | Ok ((o1, l1), (o2, l2)) => Ok (Some (bsub o1 0 l1, bsub o2 0 l2))
  | Err _ => Ok None
  | Fault => Fault
  end.

(** Sends the segments of a chain other than plain FAKE or FRAGMENT;
    [false] is the "unrecognized chain shape" fallback. *)
Definition send_segments (fake_ttl : Z) (raw seg1 seg2 : list Z) (chain : strategy_chain)
    (w : io) : pres (bool * io) :=
  let second := default STRATEGY_PASS (chain !! 1%nat) in
  if (zlen chain =? 1) && bool_decide (primary chain = STRATEGY_SPLIT) then
    Ok (true, inject_both w seg1 seg2 packets_split)
  else if (zlen chain =? 1) && bool_decide (primary chain = STRATEGY_DISORDER) then
    Ok (true, inject_both w seg2 seg1 packets_disorder)
  else if (zlen chain =? 2) && bool_decide (primary chain = STRATEGY_FAKE)
          && bool_decide (second = STRATEGY_SPLIT) then
    decoy ← build_decoy fake_ttl raw;
    let w := match decoy with Some d => (inject_or_log w d).2 | None => w end in
    let w := inject_both w seg1 seg2 packets_split in
    Ok (true, match decoy with Some _ => io_bump fake_decoys_sent w | None => w end)
  else if (zlen chain =? 2) && bool_decide (primary chain = STRATEGY_SPLIT)
          && bool_decide (second = STRATEGY_FAKE) then
    decoy ← build_decoy fake_ttl seg2;
    let w := (inject_or_log w seg1).2 in
    let w := match decoy with Some d => (inject_or_log w d).2 | None => w end in
    let '(ok, w) := inject_or_log w seg2 in
    let w := if (ok : bool) then io_bump packets_split w else w in
    Ok (true, match decoy with Some _ => io_bump fake_decoys_sent w | None => w end)
  else Ok (false, w).

(** [true] is the 1 return: the verdict was issued here. *)
Definition try_apply_chain (fake_ttl : Z) (raw : list Z) (tcp : tcp_view)
    (chain : strategy_chain) (w : io) : pres (bool * io) :=
  if (zlen chain =? 1) && bool_decide (primary chain = STRATEGY_FAKE) then
    decoy ← build_decoy fake_ttl raw;
    match decoy with
    | Some d =>
        let '(ok, w) := inject_or_log w d in
        Ok (false, if (ok : bool) then io_bump fake_decoys_sent w else w)
    | None => Ok (false, w)
    end
  else
    match tls_find_sni_split_z (tcp_payload tcp) with
    | Ok split_offset =>
        if (split_offset <=? 0) || (tcp_payload_len tcp <=? split_offset)
        then Ok (false, w) else
        if (zlen chain =? 1) && bool_decide (primary chain = STRATEGY_FRAGMENT) then
          segs ← built_pair (packet_fragment_ipv4 raw split_offset stack_seg1 stack_seg2);
          match segs with
          | None => Ok (false, w)
          | Some (seg1, seg2) =>
              Ok (true, io_emit (Verdict NF_DROP)
                          (inject_both w seg1 seg2 packets_fragment))
          end
        else
          segs ← built_pair (packet_split_tcp_v4 raw split_offset stack_seg1 stack_seg2);
          match segs with
          | None => Ok (false, w)
          | Some (seg1, seg2) =>
              '(handled, w) ← send_segments fake_ttl raw seg1 seg2 chain w;
              if (handled : bool) then Ok (true, io_emit (Verdict NF_DROP) w)
              else Ok (false, w)
          end
    | _ => Fault
    end.

(** The parsed packet: its key, its TCP view and [is_v4]; [inr] is the
    counter bumped when the packet is not for us. *)
Definition parse_packet (raw : list Z) : pres ((flow_key * tcp_view * bool) + stat) :=
  b0 ← fetch raw 0;
  let ip_failure (e : packet_err) :=
    Ok (inr (if bool_decide (e = PACKET_ERR_UNSUPPORTED)
             then unsupported_packets else parse_failures)) in
  if Z.shiftr b0 4 =? 4 then
    match packet_parse_ipv4 raw with
    | Ok ip4 =>
        if negb (ip4_protocol ip4 =? 6) then Ok (inr unsupported_packets) else
        match packet_parse_tcp (ip4_payload ip4) with
        | Ok tcp => key ← build_flow_key_v4 ip4 tcp; Ok (inl (key, tcp, true))
        | Err _ => Ok (inr parse_failures)
        | Fault => Fault
        end
    | Err e => ip_failure e
    | Fault => Fault
    end
  else if Z.shiftr b0 4 =? 6 then
    match packet_parse_ipv6 raw with
    | Ok ip6 =>
        match packet_parse_tcp (ip6_payload ip6) with
        | Ok tcp => key ← build_flow_key_v6 ip6 tcp; Ok (inl (key, tcp, false))
        | Err _ => Ok (inr parse_failures)
        | Fault => Fault
        end
    | Err e => ip_failure e
    | Fault => Fault
    end
  else ip_failure PACKET_ERR_UNSUPPORTED.

(** [flow_seq_is_next] and, if it holds, [classify]. *)
Definition flow_segment (flow : flow_entry) (seq : Z) (payload host : list Z)
  : pres (flow_class * flow_entry * list Z) :=
  let '(is_next, flow) := flow_seq_is_next flow seq (zlen payload) in
  if (is_next : bool) then classify flow payload host
  else Ok (FLOW_UNCLASSIFIED, flow, host).

Definition bare_syn (tcp : tcp_view) : bool :=
  negb (Z.land (tcp_flags tcp) TCP_FLAG_SYN =? 0)
  && (Z.land (tcp_flags tcp) TCP_FLAG_ACK =? 0).

(** The flow of the packet, brought up to date: the table, the flow's slot,
    the class and host of this call, and the counters. *)
Definition track_flow (table : flow_table) (st : engine_stats) (key : flow_key)
    (tcp : tcp_view) (now : Z)
  : pres (flow_table * nat * flow_class * list Z * engine_stats) :=
  let host := bput stack_host 0 [0] in
  let flow_count_before := live_count table in
  let '(table, i) := flow_lookup_or_create table key now in
  let created := negb (live_count table =? flow_count_before) in
  let st := if created then bump flows_created st else st in
  let table :=
    if negb created && bare_syn tcp
    then mk_table (alter (fun f => flow_restart f now) i (entries table)) (live_count table)
    else table in
  match entries table !! i with
  | None => Fault
  | Some flow =>
      '(classified, flow, host) ← flow_segment flow (tcp_seq tcp) (tcp_payload tcp) host;
      Ok (mk_table (<[i := flow]> (entries table)) (live_count table), i, classified, host, st)
  end.

(** The strategy for this packet, and the flow with its cached decision. *)
Definition decide_strategy (ctx : engine_ctx) (flow : flow_entry) (host : list Z) (now : Z)
  : strategy * strategy_chain * flow_entry :=
  if negb (bget host 0 =? 0) then
    let '(_, chain, _) := strategy_resolve_chain (strategies ctx) (discovered ctx)
                            (fingerprint ctx) now (cstr host) in
    (primary chain, chain, set_decision chain flow)
  else if strategy_decided flow then (f_strategy flow, f_chain flow, flow)
  else (STRATEGY_PASS, [STRATEGY_PASS], flow).

Definition packet_callback (ctx : engine_ctx) (raw : list Z) (now : Z)
  : pres (engine_ctx * list event) :=
  let st := bump packets_seen (stats ctx) in
  let with_state (table : flow_table) (st : engine_stats) :=
    mk_ctx table (strategies ctx) (discovered ctx) (fingerprint ctx)
      (fingerprint_checked_at ctx) st in
  let accept (table : flow_table) (w : io) :=
    Ok (with_state table (bump packets_passed (io_stats w)),
        io_events w ++ [Verdict NF_ACCEPT]) in
  if zlen raw <? 1 then accept (flows ctx) (mk_io st []) else
  parsed ← parse_packet raw;
  match parsed with
  | inr counter => accept (flows ctx) (mk_io (bump counter st) [])
  | inl (key, tcp, is_v4) =>
      '(table, i, classified, host, st) ← track_flow (flows ctx) st key tcp now;
      match entries table !! i with
      | None => Fault
      | Some flow =>
          let '(strat, chain, flow) := decide_strategy ctx flow host now in
          let table := mk_table (<[i := flow]> (entries table)) (live_count table) in
          let '(table, evicted) :=
            flow_evict_expired table now FLOW_DEFAULT_TIMEOUT_SECONDS in
          let w := mk_io (stat_add flows_expired evicted st) [] in
          let reasm_len := default 0 ((fun f => zlen (reasm f)) <$> entries table !! i) in
          if is_v4 && bool_decide (classified = FLOW_TLS)
             && bool_decide (strat <> STRATEGY_PASS)
             && (reasm_len =? tcp_payload_len tcp)
          then
            '(handled, w) ← try_apply_chain (fake_ttl (strategies ctx)) raw tcp chain w;
            if (handled : bool) then Ok (with_state table (io_stats w), io_events w)
            else accept table w
          else accept table w
      end
  end.

End engine.

(** The files are what [fopen] and [fread] give ([None] when the file cannot be
    opened, or for the cache when reading it fails). *)
Definition load_strategy_config (cfg : strategy_config) (file : option (list Z)) : res unit strategy_config :=
  match file with
  | None => Ok cfg
  | Some text => '(cfg, _) ← strategy_config_parse cfg (bsub text 0 8191); Ok cfg
  end.

Definition load_discovery_cache (file : option (list Z)) : res unit discovery_cache :=
  match file with
  | None => Ok discovery_cache_init
  | Some text => '(cache, _) ← discovery_cache_parse discovery_cache_init (bsub text 0 16383); Ok cache
  end.

(** [fp] is the network's fingerprint at the time [now]. *)
Definition reload_strategies (ctx : engine_ctx) (conf cache_text : option (list Z))
    (fp now : Z) : res unit engine_ctx :=
  cfg ← load_strategy_config strategy_config_init conf;
  cache ← load_discovery_cache cache_text;
  let '(table, _) := flow_invalidate_decisions (flows ctx) in
  Ok (mk_ctx table cfg cache fp now (stats ctx)).

(** ** Parsing *)

(** The parts of a TCP view the engine reads. *)
Definition tcp_view_ok (tcp : tcp_view) : Prop :=
  bytes_ok (tcp_payload tcp) /\ zlen (tcp_payload tcp) = tcp_payload_len tcp /\
  is_u32 (tcp_seq tcp) /\ 20 <= zlen (tcp_header tcp).

Lemma tcp_view_of_ok data : bytes_ok data -> tcp_wf data -> tcp_view_ok (tcp_view_of data).
Proof.
  intros Hd Hwf. unfold tcp_wf in Hwf. unfold tcp_view_ok.
  cbn [tcp_view_of tcp_payload tcp_payload_len tcp_seq tcp_header].
  refine (conj _ (conj _ (conj _ _))); [auto with bytes| |by apply bget32_range|lia].
  rewrite zlen_bfrom by lia. lia.
Qed.

Lemma parse_packet_wp raw :
  bytes_ok raw -> 1 <= zlen raw ->
  wp (parse_packet raw)
    (fun r => match r with inl (key, tcp, is_v4) => tcp_view_ok tcp | inr _ => True end)
    (fun _ => False).
Proof.
  intros Hr Hl. unfold parse_packet. apply wp_bind, wp_fetch; [lia|].
  apply wp_if; intros _.
  - pose proof (packet_parse_ipv4_wp raw Hr) as W.
    destruct (packet_parse_ipv4 raw) as [ip|e|]; [|done|done]. destruct W as [Hwf ->].
    apply wp_if; intros _; [done|].
    assert (Hp : bytes_ok (ip4_payload (ipv4_view_of raw))) by (cbn; auto with bytes).
    pose proof (packet_parse_tcp_wp _ Hp) as W.
    destruct (packet_parse_tcp _) as [tcp|e|]; [|done|done]. destruct W as [Ht ->].
    pose proof (tcp_view_of_ok _ Hp Ht) as Hok. pose proof Hok as (_ & _ & _ & Hh).
    unfold build_flow_key_v4. destruct Hwf as (H20 & _).
    apply wp_bind. cbn [ip4_header ipv4_view_of].
    repeat (apply wp_bind; first [apply wp_slice; [lia|] | apply wp_fetch16; [lia|]]).
    by apply wp_ok.
  - apply wp_if; intros _; [|done].
    pose proof (packet_parse_ipv6_wp raw Hr) as W.
    destruct (packet_parse_ipv6 raw) as [ip|e|]; [|done|done]. destruct W as [Hwf ->].
    assert (Hp : bytes_ok (ip6_payload (ipv6_view_of raw))) by (cbn; auto with bytes).
    pose proof (packet_parse_tcp_wp _ Hp) as W.
    destruct (packet_parse_tcp _) as [tcp|e|]; [|done|done]. destruct W as [Ht ->].
    pose proof (tcp_view_of_ok _ Hp Ht) as Hok. pose proof Hok as (_ & _ & _ & Hh).
    unfold build_flow_key_v6. destruct Hwf as (H40 & _).
    apply wp_bind. cbn [ip6_header ipv6_view_of].
    repeat (apply wp_bind; first [apply wp_slice; [lia|] | apply wp_fetch16; [lia|]]).
    by apply wp_ok.
Qed.

(** ** Classification *)

(** The host buffer after a parser wrote a name into it. *)
Lemma written_host data host q n :
  bytes_ok data -> bytes_ok host -> 0 <= q -> 0 < n < zlen host -> q + n <= zlen data ->
  bytes_ok (bsub data q n ++ 0 :: bfrom host (n + 1)) /\
  zlen (bsub data q n ++ 0 :: bfrom host (n + 1)) = zlen host.
Proof.
  intros. split.
  - apply bytes_ok_app; [auto with bytes|]. apply bytes_ok_cons. split; [done|auto with bytes].
  - rewrite zlen_app, zlen_cons, zlen_bsub, zlen_bfrom by lia. lia.
Qed.

Lemma tls_host_buffer data host h :
  bytes_ok data -> bytes_ok host -> tls_parse_client_hello_sni data host = Ok h ->
  bytes_ok h /\ zlen h = zlen host.
Proof.
  intros Hd Hh E.
  destruct (wp_Ok_inv _ _ _ _ (tls_parse_client_hello_sni_wp data Hd host Hh) E)
    as (q & n & (Hat & _ & _ & _ & Hn) & ->).
  destruct (sni_at_bounds data q n Hd Hat) as (? & ? & ?). by apply written_host.
Qed.

Lemma http_host_buffer data host h :
  bytes_ok data -> bytes_ok host -> http_parse_host data host = Ok h ->
  bytes_ok h /\ zlen h = zlen host.
Proof.
  intros Hd Hh E.
  destruct (wp_Ok_inv _ _ _ _ (http_parse_host_wp data host) E)
    as (v & m & (e & (_ & _ & He0 & He & _) & (ls & le & Hw & Hl & _ & Hv & _ & _ & ->) & Hm) & ->).
  destruct Hl as (Hl1 & Hl2 & _).
  assert (Hls : 0 <= ls).
  { clear - Hw. induction Hw as [|x y z (le & (Hx & _) & _ & ->) _ IH]; [done|]. lia. }
  apply written_host; try done; lia.
Qed.

Definition same_identity (f f' : flow_entry) : Prop :=
  in_use f' = in_use f /\ f_key f' = f_key f /\ last_seen f' = last_seen f.

Lemma flow_reasm_append_ok flow data flow' :
  flow_ok flow -> bytes_ok data -> flow_reasm_append flow data = Some flow' ->
  flow_ok flow' /\ same_identity flow flow'.
Proof.
  intros (H1 & H2 & H3) Hd. unfold flow_reasm_append.
  destruct (Z.ltb_spec FLOW_REASSEMBLY_CAP (zlen (reasm flow) + zlen data)); [done|].
  intros [= <-]. split; [|done]. refine (conj _ (conj _ H3)); cbn [reasm].
  - rewrite zlen_app. lia.
  - auto with bytes.
Qed.

Lemma classify_wp flow payload host :
  flow_ok flow -> bytes_ok payload -> bytes_ok host ->
  wp (classify flow payload host)
    (fun '(c, f, h) => flow_ok f /\ same_identity flow f /\ bytes_ok h /\ zlen h = zlen host)
    (fun _ => False).
Proof.
  intros Hf Hp Hh. unfold classify. destruct (_ || _); [by apply wp_ok|].
  destruct (flow_reasm_append flow payload) as [f|] eqn:E; [|by apply wp_ok].
  destruct (flow_reasm_append_ok _ _ _ Hf Hp E) as [Hf' Hid].
  pose proof Hf' as (_ & Hr & _).
  pose proof (tls_parse_client_hello_sni_wp (reasm f) Hr host Hh) as Wt.
  destruct (tls_parse_client_hello_sni (reasm f) host) as [h|e|] eqn:Et; [| |done].
  { destruct (tls_host_buffer _ _ _ Hr Hh Et). by apply wp_ok. }
  pose proof (http_parse_host_wp (reasm f) host) as Wh.
  destruct e; [by apply wp_ok|..];
    (destruct (http_parse_host (reasm f) host) as [h|e|] eqn:Ehp; [| |done];
     [destruct (http_host_buffer _ _ _ Hr Hh Ehp); by apply wp_ok|
      destruct e; by apply wp_ok]).
Qed.

Lemma flow_seq_is_next_ok flow seq n :
  flow_ok flow ->
  flow_ok (flow_seq_is_next flow seq n).2 /\ same_identity flow (flow_seq_is_next flow seq n).2 /\
  reasm (flow_seq_is_next flow seq n).2 = reasm flow.
Proof.
  intros (H1 & H2 & H3). unfold flow_seq_is_next.
  destruct (n =? 0); [done|]. destruct (seq_initialized flow); cbn [negb].
  - destruct (seq =? next_seq flow); cbn [negb]; [|done].
    repeat split; try done; apply u32_range.
  - repeat split; try done; apply u32_range.
Qed.

Lemma flow_segment_wp flow seq payload host :
  flow_ok flow -> bytes_ok payload -> bytes_ok host ->
  wp (flow_segment flow seq payload host)
    (fun '(c, f, h) => flow_ok f /\ same_identity flow f /\ bytes_ok h /\ zlen h = zlen host)
    (fun _ => False).
Proof.
  intros Hf Hp Hh. unfold flow_segment.
  destruct (flow_seq_is_next_ok flow seq (zlen payload) Hf) as (Hf' & Hid & _).
  destruct (flow_seq_is_next flow seq (zlen payload)) as [is_next f]. cbn [snd] in *.
  destruct is_next; [|by apply wp_ok].
  eapply wp_mono; [| |exact (classify_wp f payload host Hf' Hp Hh)]; [|done].
  intros [[c f'] h] (H1 & (I1 & I2 & I3) & H2). destruct Hid as (J1 & J2 & J3).
  split; [done|]. split; [|done]. unfold same_identity. by rewrite I1, I2, I3.
Qed.

(** ** The flow of a packet *)

Lemma table_ok_update t i f f' :
  table_ok t -> entries t !! i = Some f -> in_use f = true -> in_use f' = true ->
  f_key f' = f_key f -> flow_ok f' ->
  table_ok (mk_table (<[i := f']> (entries t)) (live_count t)).
Proof.
  intros Hok Hf Uf Uf' Kf Hf'. apply (table_ok_insert t i f f' _ Hok Hf Uf' Hf').
  - intros j x Hj Hx Ux. rewrite Kf. intros Kx. destruct Hj.
    by apply (tok_keys _ Hok j i x f).
  - rewrite Uf. lia.
Qed.

Section engine_proofs.
Context (send : list event -> list Z -> bool).
Context (stack_seg1 stack_seg2 stack_decoy stack_host : list Z).

(** The sizes of the stack buffers. *)
Record stack_ok : Prop := {
  so_seg1 : bytes_ok stack_seg1 /\ zlen stack_seg1 = 65536;
  so_seg2 : bytes_ok stack_seg2 /\ zlen stack_seg2 = 65536;
  so_decoy : bytes_ok stack_decoy /\ zlen stack_decoy = 65536;
  so_host : bytes_ok stack_host /\ zlen stack_host = 256
}.
Context (Hstack : stack_ok).

(** The invariant of the engine between packets. *)
Record engine_ok (ctx : engine_ctx) : Prop := {
  eok_flows : table_ok (flows ctx);
  eok_cfg : config_ok (strategies ctx);
  eok_cache : cache_ok (discovered ctx)
}.

Lemma track_flow_wp table st key tcp now :
  table_ok table -> tcp_view_ok tcp ->
  wp (track_flow stack_host table st key tcp now)
    (fun '(table', i, c, host, st') =>
       table_ok table' /\
       exists f, entries table' !! i = Some f /\ in_use f = true /\ last_seen f = now /\ f_key f = key /\
         flow_ok f /\ bytes_ok host)
    (fun _ => False).
Proof.
  intros Hok (Hp & _ & _ & _). unfold track_flow.
  destruct (flow_lookup_or_create table key now) as [t1 i] eqn:E.
  destruct (flow_lookup_or_create_spec _ _ _ _ _ Hok E) as (Hok1 & e & He & Ue & Ke & Hs & _).
  cbv zeta. set (t2 := if _ : bool then _ else t1).
  assert (Ht2 : table_ok t2 /\ exists f, entries t2 !! i = Some f /\ in_use f = true /\ last_seen f = now /\ f_key f = key).
  { unfold t2. destruct (_ && _); [|by split; [|exists e]].
    rewrite (alter_insert _ _ _ _ He). split.
    - apply (table_ok_update t1 i e); try done. apply flow_reset_ok.
    - exists (flow_restart e now). split; [|done]. apply list_lookup_insert_eq.
      by apply lookup_lt_Some in He. }
  clearbody t2. destruct Ht2 as (Hok2 & f & Hf & Uf & Sf & Kf). rewrite Hf.
  pose proof (Forall_lookup_1 _ _ _ _ (tok_flows _ Hok2) Hf) as Hfok.
  destruct (so_host Hstack) as [Hh Hhl].
  assert (Hhost : bytes_ok (bput stack_host 0 [0]))
    by (apply bytes_ok_bput; [done|apply bytes_ok_cons; split; [done|apply bytes_ok_nil]]).
  apply wp_bind. eapply wp_mono; [| |apply (flow_segment_wp f _ _ _ Hfok Hp Hhost)]; [|done].
  intros [[c f'] h] (Hf' & (I1 & I2 & I3) & Hh' & _). apply wp_ok. split.
  - apply (table_ok_update t2 i f); try done. by rewrite I1.
  - exists f'. cbn [entries]. refine (conj _ (conj _ (conj _ (conj _ (conj Hf' Hh'))))); [|by rewrite I1|by rewrite I3|by rewrite I2].
    apply list_lookup_insert_eq. by apply lookup_lt_Some in Hf.
Qed.

(** ** What is put on the wire *)

(** [b] was sent after [a] unless [a] failed. *)
Definition pair_sent (a b : list Z) (evs : list event) : Prop :=
  evs = [Inject a false] \/ exists ok, evs = [Inject a true; Inject b ok].

(** [a] and [b] are the two TCP segments of [raw]: valid packets that carry
    the two parts of its payload, in order of sequence number. *)
Definition segments_of (raw a b : list Z) : Prop :=
  let tcp := tcp_view_of (ip4_payload (ipv4_view_of raw)) in
  exists k, splittable_v4 raw k /\
    tcp4_segment_of raw a (tcp_seq tcp) (bsub (tcp_payload tcp) 0 k) /\
    tcp4_segment_of raw b (u32 (tcp_seq tcp + k)) (bfrom (tcp_payload tcp) k).

(** [a] and [b] are IP fragments that reassemble to the payload of [raw]. *)
Definition fragments_of (raw a b : list Z) : Prop :=
  fragment_of raw a /\ fragment_of raw b /\
  frag_data a ++ frag_data b = ip4_payload (ipv4_view_of raw).

(** At most one decoy made from [p] (or no decoy when none could be built). *)
Definition decoy_sent (ttl : Z) (p : list Z) (evs : list event) : Prop :=
  evs = [] \/ exists d ok, evs = [Inject d ok] /\ decoy_of p ttl d.

(** What was tried to be sent under [chain] when the original packet is
    dropped: both replacements, in the order and with the decoy the chain says,
    up to the first failed send where the chain cannot do without it. *)
Definition replaced (ttl : Z) (raw : list Z) (chain : strategy_chain) (evs : list event) : Prop :=
  (chain = [STRATEGY_FRAGMENT] /\ exists a b, fragments_of raw a b /\ pair_sent a b evs) \/
  (exists a b, segments_of raw a b /\
     ((chain = [STRATEGY_SPLIT] /\ pair_sent a b evs) \/
      (chain = [STRATEGY_DISORDER] /\ pair_sent b a evs) \/
      (chain = [STRATEGY_FAKE; STRATEGY_SPLIT] /\
       exists ds rest, decoy_sent ttl raw ds /\ pair_sent a b rest /\ evs = ds ++ rest) \/
      (chain = [STRATEGY_SPLIT; STRATEGY_FAKE] /\
       exists ds ok1 ok2, decoy_sent ttl b ds /\ evs = Inject a ok1 :: ds ++ [Inject b ok2]))).

(** No injection failed. *)
Definition all_sent (evs : list event) : bool :=
  forallb (fun e => match e with Inject _ ok => ok | Verdict _ => true end) evs.

(** The whole packet went out, as two fragments or as two segments. *)
Definition sent_whole (raw : list Z) (evs : list event) : Prop :=
  exists a b, (fragments_of raw a b \/ segments_of raw a b) /\
    Inject a true ∈ evs /\ Inject b true ∈ evs.

Lemma pair_sent_whole a b evs :
  pair_sent a b evs -> all_sent evs = true -> Inject a true ∈ evs /\ Inject b true ∈ evs.
Proof.
  intros [-> |[ok ->]]; [done|]. cbn. rewrite andb_true_r. intros ->. split; [left|right; left].
Qed.

Lemma replaced_whole ttl raw chain evs :
  replaced ttl raw chain evs -> all_sent evs = true -> sent_whole raw evs.
Proof.
  intros [(_ & a & b & Hf & Hp)|(a & b & Hs & H)] Ha.
  { exists a, b. split; [by left|]. by apply (pair_sent_whole a b). }
  exists a, b. split; [by right|].
  destruct H as [[_ Hp]|[[_ Hp]|[(_ & ds & rest & _ & Hp & ->)|(_ & ds & ok1 & ok2 & _ & ->)]]].
  - by apply (pair_sent_whole a b).
  - apply and_comm. by apply (pair_sent_whole b a).
  - unfold all_sent in Ha. rewrite forallb_app in Ha. apply andb_true_iff in Ha as [_ Ha].
    destruct (pair_sent_whole a b rest Hp Ha). split; apply elem_of_app; by right.
  - cbn in Ha. rewrite forallb_app in Ha. cbn in Ha.
    destruct ok1, ok2; rewrite ?andb_false_r in Ha; try done. split; [left|].
    right. apply elem_of_app. right. left.
Qed.

Lemma inject_or_log_events w pkt :
  exists ok, (inject_or_log send w pkt).1 = ok /\
    io_events (inject_or_log send w pkt).2 = io_events w ++ [Inject pkt ok].
Proof.
  unfold inject_or_log. destruct (send (io_events w) pkt); [by exists true|by exists false].
Qed.

Lemma inject_both_events w a b c :
  exists evs, pair_sent a b evs /\ io_events (inject_both send w a b c) = io_events w ++ evs.
Proof.
  unfold inject_both. destruct (inject_or_log_events w a) as (ok & E1 & E2).
  destruct (inject_or_log send w a) as [ok' w1]. cbn [fst snd] in *. subst ok'.
  destruct ok; [|exists [Inject a false]; split; [by left|done]].
  destruct (inject_or_log_events w1 b) as (ok & E3 & E4).
  destruct (inject_or_log send w1 b) as [ok' w2]. cbn [fst snd] in *. subst ok'.
  exists [Inject a true; Inject b ok]. split; [right; by exists ok|].
  destruct ok; cbn [io_bump io_events]; rewrite E4, E2, <- app_assoc; done.
Qed.

Lemma build_decoy_wp ttl p :
  is_u8 ttl -> bytes_ok p -> zlen p <= 65536 ->
  wp (build_decoy stack_decoy ttl p)
    (fun r => match r with Some d => decoy_of p ttl d | None => True end) (fun _ => False).
Proof.
  intros Ht Hp Hl. destruct (so_decoy Hstack) as [Hd Hz]. unfold build_decoy.
  pose proof (packet_make_fake_tcp_v4_wp p stack_decoy ttl Hp Hd Ht ltac:(lia)) as W.
  destruct (packet_make_fake_tcp_v4 p ttl stack_decoy) as [[o l]|e|]; [|done|done].
  by destruct W as (_ & _ & _ & W).
Qed.

(** The decoy of a chain, if it could be built, and its event. *)
Lemma decoy_events ttl p decoy w :
  match decoy with Some d => decoy_of p ttl d | None => True end ->
  exists ds, decoy_sent ttl p ds /\
    io_events (match decoy with Some d => (inject_or_log send w d).2 | None => w end)
      = io_events w ++ ds.
Proof.
  destruct decoy as [d|]; intros Hd.
  - destruct (inject_or_log_events w d) as (ok & _ & E). exists [Inject d ok].
    split; [right; by exists d, ok|done].
  - exists []. split; [by left|by rewrite app_nil_r].
Qed.

Lemma chain_one (chain : strategy_chain) x :
  (zlen chain =? 1) && bool_decide (primary chain = x) = true -> chain = [x].
Proof.
  intros [H1%Z.eqb_eq H2%bool_decide_eq_true]%andb_true_iff. unfold zlen in H1.
  destruct chain as [|y [|? ?]]; cbn [length] in H1; [lia| |lia]. by cbn in H2; subst.
Qed.

Lemma chain_two (chain : strategy_chain) x y :
  (zlen chain =? 2) && bool_decide (primary chain = x) &&
    bool_decide (default STRATEGY_PASS (chain !! 1%nat) = y) = true -> chain = [x; y].
Proof.
  intros [[H1%Z.eqb_eq H2%bool_decide_eq_true]%andb_true_iff H3%bool_decide_eq_true]%andb_true_iff. unfold zlen in H1.
  destruct chain as [|? [|? [|? ?]]]; cbn [length] in H1; [lia|lia| |lia]. by cbn in H2, H3; subst.
Qed.

Section apply_chain.
Context (ttl : Z) (raw : list Z).
Context (Httl : is_u8 ttl) (Hraw : bytes_ok raw) (Hlen : zlen raw <= 65536).

Lemma send_segments_wp a b chain w :
  segments_of raw a b -> bytes_ok b -> zlen b <= 65536 ->
  wp (send_segments send stack_decoy ttl raw a b chain w)
    (fun '(handled, w') => exists evs, io_events w' = io_events w ++ evs /\
       if (handled : bool) then replaced ttl raw chain evs else evs = [])
    (fun _ => False).
Proof.
  intros Hseg Hb Hbl. unfold send_segments. cbv zeta.
  apply wp_if; intros Hc0.
  { apply chain_one in Hc0. destruct (inject_both_events w a b packets_split) as (evs & Hp & E).
    apply wp_ok. exists evs. split; [done|]. right. exists a, b. auto 6. }
  apply wp_if; intros Hc1.
  { apply chain_one in Hc1. destruct (inject_both_events w b a packets_disorder) as (evs & Hp & E).
    apply wp_ok. exists evs. split; [done|]. right. exists a, b. auto 6. }
  apply wp_if; intros Hc2.
  { apply chain_two in Hc2. apply wp_bind. eapply wp_mono; [| |apply (build_decoy_wp ttl raw Httl Hraw Hlen)]; [|done].
    intros decoy Hd. apply wp_ok. destruct (decoy_events ttl raw decoy w Hd) as (ds & Hds & Ed).
    set (w1 := match decoy with Some d => _ | None => w end) in *.
    destruct (inject_both_events w1 a b packets_split) as (rest & Hp & E).
    exists (ds ++ rest). split.
    - destruct decoy; cbn [io_bump io_events]; by rewrite E, Ed, app_assoc.
    - right. exists a, b. split; [done|]. right. right. left. split; [done|]. by exists ds, rest. }
  apply wp_if; intros Hc3; [|apply wp_ok; exists []; split; [by rewrite app_nil_r|done]].
  apply chain_two in Hc3.
  apply wp_bind. eapply wp_mono; [| |apply (build_decoy_wp ttl b Httl Hb Hbl)]; [|done].
  intros decoy Hd. destruct (inject_or_log_events w a) as (ok1 & _ & E1).
  set (w1 := (inject_or_log send w a).2) in *.
  destruct (decoy_events ttl b decoy w1 Hd) as (ds & Hds & Ed).
  set (w2 := match decoy with Some d => _ | None => w1 end) in *.
  destruct (inject_or_log_events w2 b) as (ok2 & E2 & E3).
  destruct (inject_or_log send w2 b) as [ok w3]. cbn [fst snd] in *. subst ok. apply wp_ok.
  exists (Inject a ok1 :: ds ++ [Inject b ok2]). split.
  - assert (E : io_events w3 = io_events w ++ Inject a ok1 :: ds ++ [Inject b ok2])
      by (rewrite E3, Ed, E1, <- !app_assoc; done).
    destruct decoy, ok2; done.
  - right. exists a, b. split; [done|]. right. right. right. split; [done|]. by exists ds, ok1, ok2.
Qed.

(** Segments and fragments built into the stack buffers. *)
Lemma built_segments_wp k :
  0 <= k ->
  wp (built_pair (packet_split_tcp_v4 raw k stack_seg1 stack_seg2))
    (fun r => match r with
     | Some (a, b) => segments_of raw a b /\ bytes_ok b /\ zlen b <= 65536
     | None => True end) (fun _ => False).
Proof.
  intros Hk. destruct (so_seg1 Hstack) as [H1 L1], (so_seg2 Hstack) as [H2 L2].
  pose proof (packet_split_tcp_v4_wp raw k stack_seg1 stack_seg2 Hraw Hk H1 H2
                ltac:(lia) ltac:(lia)) as W.
  destruct (packet_split_tcp_v4 raw k stack_seg1 stack_seg2) as [[[o1 l1] [o2 l2]]|e|];
    [|done|done].
  destruct W as (Hs & Hl1 & Hl2 & S1 & S2 & _ & Hb2). apply wp_ok.
  split; [by exists k|]. assert (Hbb : bytes_ok (bsub o2 0 l2)) by auto with bytes.
  split; [done|]. destruct S2 as (ip & tcp & Hip & _ & Ht & _).
  pose proof (packet_parse_ipv4_wp _ Hbb) as Wp. rewrite Hip in Wp. destruct Wp as [_ ->].
  rewrite <- Ht. cbn [ipv4_view_of ip4_total_len].
  pose proof (bget16_range (bsub o2 0 l2) 2 Hbb) as Hr. unfold is_u16 in Hr. lia.
Qed.

Lemma built_fragments_wp k :
  0 <= k ->
  wp (built_pair (packet_fragment_ipv4 raw k stack_seg1 stack_seg2))
    (fun r => match r with Some (a, b) => fragments_of raw a b | None => True end)
    (fun _ => False).
Proof.
  intros Hk. destruct (so_seg1 Hstack) as [H1 L1], (so_seg2 Hstack) as [H2 L2].
  pose proof (packet_fragment_ipv4_wp raw k stack_seg1 stack_seg2 Hraw Hk H1 H2
                ltac:(lia) ltac:(lia)) as W.
  destruct (packet_fragment_ipv4 raw k stack_seg1 stack_seg2) as [[[o1 l1] [o2 l2]]|e|];
    [|done|done].
  destruct W as (_ & _ & _ & F1 & F2 & _ & _ & D1 & D2). apply wp_ok.
  refine (conj F1 (conj F2 _)). rewrite D1, D2. apply take_drop.
Qed.

Lemma try_apply_chain_wp tcp chain w :
  bytes_ok (tcp_payload tcp) ->
  wp (try_apply_chain send stack_seg1 stack_seg2 stack_decoy ttl raw tcp chain w)
    (fun '(handled, w') => exists evs,
       if (handled : bool)
       then io_events w' = io_events w ++ evs ++ [Verdict NF_DROP] /\ replaced ttl raw chain evs
       else io_events w' = io_events w ++ evs /\ decoy_sent ttl raw evs /\ (evs = [] \/ chain = [STRATEGY_FAKE]))
    (fun _ => False).
Proof.
  intros Hp. unfold try_apply_chain.
  assert (Hnone : exists evs, io_events w = io_events w ++ evs /\ decoy_sent ttl raw evs /\ (evs = [] \/ chain = [STRATEGY_FAKE]))
    by (exists []; split; [by rewrite app_nil_r|by split; left]).
  apply wp_if; intros Hc.
  { apply chain_one in Hc. apply wp_bind. eapply wp_mono; [| |apply (build_decoy_wp ttl raw Httl Hraw Hlen)]; [|done].
    intros [d|] Hd; [|by apply wp_ok].
    destruct (inject_or_log_events w d) as (ok & E1 & E2).
    destruct (inject_or_log send w d) as [ok' w1]. cbn [fst snd] in *. apply wp_ok.
    exists [Inject d ok]. split; [by destruct ok'|]. split; [right; by exists d, ok|by right]. }
  pose proof (tls_find_sni_split_wp _ Hp) as Ws. unfold tls_find_sni_split_z.
  destruct (tls_find_sni_split (tcp_payload tcp)) as [k|[]|]; [| |done].
  2: { by apply wp_ok. }
  apply wp_if; intros Hk; zbool; [by apply wp_ok|].
  apply wp_if; intros Hf.
  - apply chain_one in Hf. apply wp_bind. eapply wp_mono; [| |apply (built_fragments_wp k); lia]; [|done].
    intros [[a b]|] Hab; [|by apply wp_ok]. apply wp_ok.
    destruct (inject_both_events w a b packets_fragment) as (evs & Hps & E).
    exists evs. cbn [io_emit io_events]. split; [by rewrite E, app_assoc|].
    left. split; [done|]. by exists a, b.
  - apply wp_bind. eapply wp_mono; [| |apply (built_segments_wp k); lia]; [|done].
    intros [[a b]|] Hab; [|by apply wp_ok]. destruct Hab as (Hs & Hb & Hbl). apply wp_bind.
    eapply wp_mono; [| |apply (send_segments_wp a b chain w Hs Hb Hbl)]; [|done].
    intros [handled w1] (evs & E & Hr). destruct handled; apply wp_ok; exists evs.
    + cbn [io_emit io_events]. split; [by rewrite E, app_assoc|done].
    + split; [done|]. subst evs. by split; left.
Qed.
End apply_chain.

(** A strategy other than PASS is the first of the chain the flow keeps. *)
Lemma decide_strategy_kept ctx flow host now strat chain f :
  decide_strategy ctx flow host now = (strat, chain, f) -> strat <> STRATEGY_PASS ->
  strategy_decided f = true /\ f_chain f = chain.
Proof.
  unfold decide_strategy. destruct (negb _).
  - destruct (strategy_resolve_chain _ _ _ _ _) as [[? c] ?]. by intros [= <- <- <-].
  - destruct (strategy_decided flow) eqn:E; intros [= <- <- <-]; done.
Qed.

Lemma decide_strategy_ok ctx flow host now :
  flow_ok flow ->
  flow_ok (decide_strategy ctx flow host now).2 /\
  same_identity flow (decide_strategy ctx flow host now).2.
Proof.
  intros Hf. unfold decide_strategy. destruct (negb _).
  - destruct (strategy_resolve_chain _ _ _ _ _) as [[? chain] ?]. by split.
  - by destruct (strategy_decided flow).
Qed.

(** What a call may do with a packet: accept it, perhaps with one decoy of it
    besides under a FAKE chain, or drop it after what a chain says was tried;
    when nothing failed the whole packet has been sent in its stead. [P] says
    which chain it is. *)
Definition verdict_by (P : strategy_chain -> Prop) (ttl : Z) (raw : list Z) (evs : list event) : Prop :=
  exists sent,
    (evs = sent ++ [Verdict NF_ACCEPT] /\ decoy_sent ttl raw sent /\ (sent = [] \/ P [STRATEGY_FAKE])) \/
    (evs = sent ++ [Verdict NF_DROP] /\ (exists chain, P chain /\ replaced ttl raw chain sent) /\
     (all_sent sent = true -> sent_whole raw sent)).
Definition verdict_ok : Z -> list Z -> list event -> Prop := verdict_by (fun _ => True).

(** The chain the flow of the packet has been given. *)
Definition flow_chain (ctx : engine_ctx) (raw : list Z) (chain : strategy_chain) : Prop :=
  exists key tcp i f, parse_packet raw = Ok (inl (key, tcp, true)) /\
    entries (flows ctx) !! i = Some f /\ in_use f = true /\ f_key f = key /\
    strategy_decided f = true /\ f_chain f = chain.

Lemma verdict_by_ok P ttl raw evs : verdict_by P ttl raw evs -> verdict_ok ttl raw evs.
Proof.
  intros (sent & [(E & Hd & _)|(E & (chain & _ & Hr) & Hw)]); exists sent; [left; auto|right].
  split; [done|]. split; [by exists chain|done].
Qed.

Lemma accept_ok P ttl raw : verdict_by P ttl raw ([] ++ [Verdict NF_ACCEPT]).
Proof. exists []. left. split; [done|]. split; by left. Qed.

Lemma packet_callback_wp ctx raw now :
  engine_ok ctx -> bytes_ok raw -> zlen raw <= 65536 ->
  wp (packet_callback send stack_seg1 stack_seg2 stack_decoy stack_host ctx raw now)
    (fun '(ctx', evs) => engine_ok ctx' /\ strategies ctx' = strategies ctx /\
       discovered ctx' = discovered ctx /\
       verdict_by (flow_chain ctx' raw) (fake_ttl (strategies ctx)) raw evs)
    (fun _ => False).
Proof.
  intros Hctx Hraw Hlen. pose proof Hctx as [Hfl Hcfg Hcache].
  set (ttl := fake_ttl (strategies ctx)).
  assert (Httl : is_u8 ttl) by (pose proof (ok_ttl _ Hcfg); unfold is_u8, ttl; lia).
  assert (Hstate : forall table st, table_ok table -> engine_ok
    (mk_ctx table (strategies ctx) (discovered ctx) (fingerprint ctx)
       (fingerprint_checked_at ctx) st)) by done.
  unfold packet_callback. cbv zeta.
  apply wp_if; intros H1; zbool.
  { apply wp_ok. refine (conj _ (conj eq_refl (conj eq_refl (accept_ok _ _ _)))). by apply Hstate. }
  pose proof (parse_packet_wp raw Hraw H1) as Wp.
  destruct (parse_packet raw) as [[[[key tcp] is_v4]|counter]| |] eqn:Epp; [..|done|done];
    change (wp (Ok ?x) ?Q ?R) with (Q x) in Wp; cbn [mbind res_bind]; rename Wp into Htcp.
  2: { apply wp_ok. refine (conj _ (conj eq_refl (conj eq_refl (accept_ok _ _ _)))). by apply Hstate. }
  pose proof Htcp as (Hp & _). apply wp_bind.
  eapply wp_mono; [| |apply (track_flow_wp _ _ _ _ _ Hfl Htcp)]; [|done].
  intros [[[[table i] c] host] st] (Hok & f & Hf & Uf & Sf & Kf & Hfok & _). rewrite Hf.
  destruct (decide_strategy_ok ctx f host now Hfok) as (Hf' & I1 & I2 & I3).
  pose proof (fun strat chain f' => decide_strategy_kept ctx f host now strat chain f') as Hkept.
  destruct (decide_strategy ctx f host now) as [[strat chain] f']. specialize (Hkept _ _ _ eq_refl). cbn [snd] in *.
  set (t1 := mk_table (<[i := f']> (entries table)) (live_count table)).
  assert (Hok1 : table_ok t1) by (apply (table_ok_update table i f); try done; by rewrite I1).
  destruct (flow_evict_expired t1 now FLOW_DEFAULT_TIMEOUT_SECONDS) as [t2 ev] eqn:Ev.
  destruct (flow_evict_expired_spec _ _ _ _ _ Hok1 Ev) as (Hok2 & _).
  apply wp_if; intros Hgo.
  2: { apply wp_ok. refine (conj _ (conj eq_refl (conj eq_refl (accept_ok _ _ _)))). by apply Hstate. }
  apply andb_true_iff in Hgo as [[[-> _]%andb_true_iff Hst%bool_decide_eq_true]%andb_true_iff _].
  destruct (Hkept Hst) as [Hdec Hch].
  assert (Hi : entries t2 !! i = Some f').
  { apply (flow_evict_expired_lookup _ _ _ _ _ _ _ Ev); [apply list_lookup_insert_eq; by apply lookup_lt_Some in Hf|].
    unfold expired. rewrite I3, Sf, Z.sub_diag. apply andb_false_r. }
  apply wp_bind.
  eapply wp_mono; [| |apply (try_apply_chain_wp ttl raw Httl Hraw Hlen tcp chain _ Hp)]; [|done].
  intros [handled w] (evs & He).
  assert (Hfc : forall st, flow_chain (mk_ctx t2 (strategies ctx) (discovered ctx) (fingerprint ctx)
      (fingerprint_checked_at ctx) st) raw chain).
  { intros st'. exists key, tcp, i, f'. cbn [flows]. by rewrite I1, I2. }
  destruct handled; [destruct He as [E Hr]|destruct He as (E & Hd & Hc)]; apply wp_ok;
    refine (conj (Hstate _ _ Hok2) (conj eq_refl (conj eq_refl _))); exists evs.
  - right. split; [by rewrite E|]. split; [by exists chain|]. by apply (replaced_whole ttl raw chain).
  - left. split; [by rewrite E|]. split; [done|]. destruct Hc as [-> |Hc]; [by left|right]. rewrite <- Hc. apply Hfc.
Qed.
End engine_proofs.

(** C12: [packet_callback] on any packet the queue delivers: it never reads
    or writes out of bounds, keeps the engine's invariant (flow table,
    configuration, cache), and issues exactly one verdict, as its last
    action. If the verdict is ACCEPT, at most one decoy of that packet was
    sent besides, and that under a FAKE chain. If it is DROP, the replacements
    were built before and the chain decided for the packet's flow was carried
    out: two IP fragments that reassemble to the packet's payload (FRAGMENT), or
    two valid TCP segments that carry its payload at consecutive sequence
    numbers, in order (SPLIT) or reversed (DISORDER), with a decoy before or
    between them where the chain says so. A send that fails is not repaired: the
    packet is dropped all the same and the rest of the pair may not be sent; but
    if no send failed, both replacements went out. *)
Theorem packet_callback_safe send seg1 seg2 decoy host ctx raw now :
  stack_ok seg1 seg2 decoy host -> engine_ok ctx -> bytes_ok raw -> zlen raw <= 65535 ->
  exists ctx' evs,
    packet_callback send seg1 seg2 decoy host ctx raw now = Ok (ctx', evs) /\
    engine_ok ctx' /\ strategies ctx' = strategies ctx /\ discovered ctx' = discovered ctx /\
    verdict_by (flow_chain ctx' raw) (fake_ttl (strategies ctx)) raw evs.
Proof.
  intros Hst Hctx Hraw Hlen.
  pose proof (packet_callback_wp send seg1 seg2 decoy host Hst ctx raw now Hctx Hraw ltac:(lia)) as W.
  destruct (packet_callback send seg1 seg2 decoy host ctx raw now) as [[ctx' evs]|e|];
    [|done|done].
  by exists ctx', evs.
Qed.

Definition init_ctx : engine_ctx :=
  mk_ctx flow_table_init strategy_config_init discovery_cache_init 0 0 (fun _ => 0).

Lemma init_ctx_ok : engine_ok init_ctx.
Proof.
  split; [exact flow_table_init_ok|exact strategy_config_init_ok|].
  split; [done|constructor|constructor|constructor].
Qed.

Lemma stack_ok_zero :
  stack_ok (replicate (Z.to_nat 65536) 0) (replicate (Z.to_nat 65536) 0) (replicate (Z.to_nat 65536) 0) (replicate (Z.to_nat 256) 0).
Proof.
  assert (H : forall n, bytes_ok (replicate n 0)) by (intros n; apply Forall_replicate; done).
  split; (split; [apply H|unfold zlen; rewrite length_replicate; apply Z2Nat.id; lia]).
Qed.

(** A packet with a whole ClientHello, and a configuration that disorders. *)
Definition hello_packet : list Z :=
  let hello := enc_client_hello sample_hello in
  [0x45; 0] ++ bytes16 (40 + zlen hello) ++ bsub sample_v4 4 36 ++ hello.
Definition disorder_ctx : engine_ctx :=
  mk_ctx flow_table_init (mk_config STRATEGY_DISORDER [] 8) discovery_cache_init 0 0 (fun _ => 0).

Lemma packet_callback_safe_witness :
  exists ctx' sent,
    packet_callback (fun _ _ => true) (replicate (Z.to_nat 65536) 0) (replicate (Z.to_nat 65536) 0)
      (replicate (Z.to_nat 65536) 0) (replicate (Z.to_nat 256) 0) disorder_ctx hello_packet 7
      = Ok (ctx', sent ++ [Verdict NF_DROP]) /\
    (exists chain, flow_chain ctx' hello_packet chain) /\ sent_whole hello_packet sent.
Proof.
  assert (Hb : bytes_ok hello_packet) by (apply bytes_okb_ok; vm_compute; reflexivity).
  assert (Hl : zlen hello_packet <= 65535) by (vm_compute; congruence).
  assert (Hc : engine_ok disorder_ctx).
  { destruct init_ctx_ok as [Hf _ Hd]. split; [exact Hf| |exact Hd].
    split; done. }
  destruct (packet_callback_safe (fun _ _ => true) _ _ _ _ disorder_ctx hello_packet 7
    stack_ok_zero Hc Hb Hl) as (ctx' & evs & E & _ & _ & _ & sent & V).
  assert (G : match packet_callback (fun _ _ => true) (replicate (Z.to_nat 65536) 0) (replicate (Z.to_nat 65536) 0)
      (replicate (Z.to_nat 65536) 0) (replicate (Z.to_nat 256) 0) disorder_ctx hello_packet 7 with
    | Ok (_, evs) => last evs = Some (Verdict NF_DROP) /\ all_sent evs = true /\ length evs = 3%nat
    | _ => False end) by (vm_compute; auto).
  rewrite E in G. destruct G as (Glast & Gall & Glen).
  destruct V as [(-> & _)|(-> & (chain & Hch & Hr) & Hw)]; [rewrite last_snoc in Glast; discriminate Glast|].
  exists ctx', sent. split; [exact E|].
  unfold all_sent in Gall. rewrite forallb_app in Gall. apply andb_true_iff in Gall as [Gall _].
  split; [by exists chain|by apply Hw].
Defined.

(** ** In-order reassembly of a connection *)

(** The segments of one connection fed to its flow, in arrival order. *)
Fixpoint feed (flow : flow_entry) (segs : list (Z * list Z)) (host : list Z) : pres flow_entry :=
  match segs with
  | [] => Ok flow
  | (seq, payload) :: segs' =>
      '(_, flow, _) ← flow_segment flow seq payload host;
      feed flow segs' host
  end.

(** The buffer is one contiguous piece of the stream. *)
Definition piece_of (s : list Z) (f : flow_entry) : Prop :=
  exists off, 0 <= off /\ off + zlen (reasm f) <= zlen s /\
    reasm f = bsub s off (zlen (reasm f)).

Lemma on_stream_piece s isn f : on_stream s isn f -> piece_of s f.
Proof.
  unfold on_stream. destruct (seq_initialized f).
  - intros (off & H1 & H2 & H3 & _). by exists off.
  - intros E. exists 0. rewrite E. change (zlen (@nil Z)) with 0.
    pose proof (zlen_nonneg s). done.
Qed.

Definition reassembling (s : list Z) (isn : Z) (f : flow_entry) : Prop :=
  flow_ok f /\ piece_of s f /\ (classification_done f = false -> on_stream s isn f).

(** What [classify] does to the flow. *)
Lemma classify_reasm flow payload host c f h :
  zlen payload <> 0 -> classify flow payload host = Ok (c, f, h) ->
  if classification_done flow then f = flow else
  match flow_reasm_append flow payload with
  | Some f1 => f = f1 \/ exists c', f = set_class c' f1
  | None => f = set_class FLOW_PASSTHROUGH flow
  end.
Proof.
  intros Hz. unfold classify. destruct (classification_done flow); cbn [orb].
  { by intros [= _ <- _]. }
  rewrite (proj2 (Z.eqb_neq _ _) Hz).
  intros H. destruct (flow_reasm_append flow payload) as [f1|]; [|by injection H].
  destruct (tls_parse_client_hello_sni _ _) as [?|[]|]; try done;
    try (injection H as <- <- <-; eauto; fail);
    destruct (http_parse_host _ _) as [?|[]|]; try done; injection H as <- <- <-; eauto.
Qed.

Lemma flow_seq_is_next_done flow seq n :
  classification_done (flow_seq_is_next flow seq n).2 = classification_done flow /\
  ((flow_seq_is_next flow seq n).1 = true -> n <> 0) /\
  ((flow_seq_is_next flow seq n).1 = false -> (flow_seq_is_next flow seq n).2 = flow).
Proof.
  unfold flow_seq_is_next. destruct (Z.eqb_spec n 0); [done|].
  destruct (negb (seq_initialized flow)); [done|]. by destruct (negb (seq =? next_seq flow)).
Qed.

(** [on_stream] and [piece_of] do not look at the classification. *)
Lemma set_class_stream s isn c f :
  (on_stream s isn (set_class c f) <-> on_stream s isn f) /\
  (piece_of s (set_class c f) <-> piece_of s f).
Proof. done. Qed.

Lemma flow_segment_reassembling s isn f off seq payload host :
  reassembling s isn f -> segment_of s isn off seq payload -> zlen s < 2 ^ 32 ->
  bytes_ok payload -> bytes_ok host ->
  wp (flow_segment f seq payload host) (fun '(_, f', _) => reassembling s isn f')
     (fun _ => False).
Proof.
  intros (Hf & Hpc & Hon) Hseg Hs Hp Hh.
  pose proof (flow_segment_wp f seq payload host Hf Hp Hh) as W.
  destruct (flow_segment f seq payload host) as [[[c f'] h]|e|] eqn:E; [|done|done].
  destruct W as (Hf' & _). split; [done|]. unfold flow_segment in E.
  destruct (flow_seq_is_next_ok f seq (zlen payload) Hf) as (_ & _ & Hr).
  destruct (flow_seq_is_next_done f seq (zlen payload)) as (Hd & Hnz & Hsame).
  pose proof (fun H => seq_then_append s isn f off seq payload (Hon H) Hseg Hs) as Happ.
  destruct (flow_seq_is_next f seq (zlen payload)) as [is_next f1]. cbn [fst snd] in *.
  assert (Hpc1 : piece_of s f1) by (unfold piece_of; by rewrite Hr).
  destruct is_next; [|injection E as _ <- _; by rewrite Hsame].
  apply classify_reasm in E; [|by apply Hnz]. rewrite Hd in E.
  destruct (classification_done f) eqn:D; [subst f'; split; [done|]; by rewrite Hd|].
  specialize (Happ eq_refl). destruct (flow_reasm_append f1 payload) as [f2|].
  - destruct Happ as [Hon2 _]. destruct E as [->|[c' ->]].
    + split; [by apply (on_stream_piece s isn)|done].
    + split; [apply (set_class_stream s isn); by apply (on_stream_piece s isn)|done].
  - subst f'. split; [by apply (set_class_stream s isn)|done].
Qed.

(** C14: reassembly never corrupts: feed a flow any segments of one TCP
    stream shorter than 2^32 bytes, in any order, with repetitions and gaps;
    the run never faults, and the buffer the classifier sees is at every
    point one contiguous piece of the stream, at most 16384 bytes long. *)
Theorem feed_reassembles s isn f segs host :
  reassembling s isn f -> zlen s < 2 ^ 32 -> bytes_ok s -> bytes_ok host ->
  Forall (fun '(seq, payload) => exists off, segment_of s isn off seq payload) segs ->
  exists f', feed f segs host = Ok f' /\ piece_of s f' /\ zlen (reasm f') <= FLOW_REASSEMBLY_CAP.
Proof.
  intros Hre Hs Hb Hh Hsegs. revert f Hre.
  induction Hsegs as [|[seq payload] segs [off Hseg] _ IH]; intros f Hre; cbn [feed].
  - exists f. destruct Hre as ((Hcap & _) & Hpc & _). done.
  - assert (Hp : bytes_ok payload)
      by (destruct Hseg as (_ & _ & -> & _); auto with bytes).
    pose proof (flow_segment_reassembling s isn f off seq payload host Hre Hseg Hs Hp Hh) as W.
    destruct (flow_segment f seq payload host) as [[[c f'] h]|e|]; [|done|done].
    by apply IH.
Qed.

Lemma feed_reassembles_witness :
  let s := str "GET / HTTP" in
  exists f', feed (flow_reset zero_key 0)
      [(u32 (2 ^ 32 - 2), str "GET "); (2, str "/ HT"); (u32 (2 ^ 32 - 2), str "GET "); (6, str "TP")]
      (repeat 0 256) = Ok f' /\ piece_of s f'.
Proof.
  intros s.
  assert (Hre : reassembling s (2 ^ 32 - 2) (flow_reset zero_key 0)).
  { split; [apply flow_reset_ok|]. split; [|done].
    apply (on_stream_piece s (2 ^ 32 - 2)). done. }
  assert (Hsegs : Forall (fun '(seq, payload) => exists off, segment_of s (2 ^ 32 - 2) off seq payload)
    [(u32 (2 ^ 32 - 2), str "GET "); (2, str "/ HT"); (u32 (2 ^ 32 - 2), str "GET "); (6, str "TP")]).
  { repeat apply Forall_cons_2; [exists 0|exists 4|exists 0|exists 8|constructor];
      (split; [lia|]; split; [vm_compute; congruence|]; split; vm_compute; reflexivity). }
  assert (Hl : zlen s < 2 ^ 32) by (vm_compute; reflexivity).
  assert (Hb : bytes_ok s) by (apply bytes_okb_ok; reflexivity).
  assert (Hh : bytes_ok (repeat 0 256)) by (apply bytes_okb_ok; reflexivity).
  destruct (feed_reassembles s (2 ^ 32 - 2) (flow_reset zero_key 0) _ (repeat 0 256)
    Hre Hl Hb Hh Hsegs) as (f' & E & P & _).
  exists f'. split; [exact E|exact P].
Defined.

(** ** Packets after the classifying one *)

Lemma holds_unique t k e e' : table_ok t -> holds t k e -> holds t k e' -> e = e'.
Proof.
  intros Hok (i & Hi & Ui & Ki) (j & Hj & Uj & Kj).
  assert (i = j) as <- by (apply (tok_keys _ Hok i j e e'); congruence). congruence.
Qed.

(** A classified flow stays as it is and reports no class. *)
Lemma track_flow_classified stack_host table st key tcp now f :
  table_ok table -> holds table key f -> classification_done f = true ->
  bare_syn tcp = false ->
  exists table' i,
    track_flow stack_host table st key tcp now
      = Ok (table', i, FLOW_UNCLASSIFIED, bput stack_host 0 [0], st) /\
    exists f', entries table' !! i = Some f'.
Proof.
  intros Hok Hf Hd Hsyn. unfold track_flow.
  destruct (flow_lookup_or_create table key now) as [t1 i] eqn:E.
  destruct (flow_lookup_or_create_spec _ _ _ _ _ Hok E)
    as (Hok1 & e & He & _ & _ & _ & [(e0 & He0 & -> & Hlive & _)|(Hno & _)]);
    [|by destruct (Hno f)].
  rewrite (holds_unique _ _ _ _ Hok He0 Hf) in *. clear e0 He0.
  rewrite Hlive, Z.eqb_refl. cbn [negb andb]. rewrite Hsyn, He.
  unfold flow_segment.
  destruct (flow_seq_is_next_done (touch now f) (tcp_seq tcp) (zlen (tcp_payload tcp)))
    as (Hd' & _).
  destruct (flow_seq_is_next (touch now f) (tcp_seq tcp) (zlen (tcp_payload tcp)))
    as [is_next f1]. cbn [snd] in Hd'. change (classification_done (touch now f)) with
    (classification_done f) in Hd'. rewrite Hd in Hd'.
  assert (Hlt : (i < length (entries t1))%nat) by (by apply lookup_lt_Some in He).
  assert (Hc : classify f1 (tcp_payload tcp) (bput stack_host 0 [0]) =
               Ok (FLOW_UNCLASSIFIED, f1, bput stack_host 0 [0]))
    by (unfold classify; by rewrite Hd').
  eexists _, i. split.
  - destruct is_next; cbn [mbind res_bind]; [rewrite Hc|]; reflexivity.
  - exists f1. cbn [entries]. by apply list_lookup_insert_eq.
Qed.

(** Once a connection is classified, every later packet of it is
    accepted untouched: no decoy, no segment is sent, nothing is dropped
    (unless a bare SYN restarts the flow). *)
Theorem classified_flow_untouched send seg1 seg2 decoy host ctx raw now key tcp is_v4 f :
  engine_ok ctx -> 1 <= zlen raw ->
  parse_packet raw = Ok (inl (key, tcp, is_v4)) ->
  holds (flows ctx) key f -> classification_done f = true -> bare_syn tcp = false ->
  exists ctx',
    packet_callback send seg1 seg2 decoy host ctx raw now = Ok (ctx', [Verdict NF_ACCEPT]).
Proof.
  intros Hctx Hlen Hparse Hf Hd Hsyn. unfold packet_callback. cbv zeta.
  rewrite (proj2 (Z.ltb_ge _ _)) by done. rewrite Hparse. cbn [mbind res_bind].
  destruct (track_flow_classified host (flows ctx) (bump packets_seen (stats ctx)) key tcp now f
    (eok_flows _ Hctx) Hf Hd Hsyn) as (t1 & i & -> & f1 & Hf1).
  cbn [mbind res_bind]. rewrite Hf1.
  destruct (decide_strategy ctx f1 (bput host 0 [0]) now) as [[strat chain] f2].
  destruct (flow_evict_expired _ _ _) as [t2 n].
  rewrite (bool_decide_eq_false_2 (FLOW_UNCLASSIFIED = FLOW_TLS)) by done.
  rewrite andb_false_r. cbn [andb io_events io_stats app]. by eexists.
Qed.

Definition sample_key : flow_key :=
  match parse_packet sample_v4 with Ok (inl (k, _, _)) => k | _ => zero_key end.
Definition sample_tcp : tcp_view :=
  match parse_packet sample_v4 with
  | Ok (inl (_, t, _)) => t | _ => mk_tcp_view [] 0 0 0 0 [] 0 end.
Definition sample_flow : flow_entry := set_class FLOW_TLS (flow_reset sample_key 0).
Definition sample_ctx : engine_ctx :=
  mk_ctx (mk_table (<[O := sample_flow]> (entries flow_table_init)) 1)
    strategy_config_init discovery_cache_init 0 0 (fun _ => 0).

Lemma init_slot0 : entries flow_table_init !! O = Some zero_flow.
Proof. apply lookup_replicate. split; [done|]. unfold FLOW_TABLE_MAX. lia. Qed.

Lemma sample_ctx_ok : engine_ok sample_ctx.
Proof.
  destruct init_ctx_ok as [_ Hc Hd]. split; [|exact Hc|exact Hd].
  apply (table_ok_insert flow_table_init O zero_flow sample_flow 1 flow_table_init_ok init_slot0);
    [reflexivity|apply flow_reset_ok| |reflexivity].
  intros j x _ Hx Ux. apply lookup_replicate in Hx as [-> _]. done.
Qed.

Lemma classified_flow_untouched_witness :
  engine_ok sample_ctx /\
  parse_packet sample_v4 = Ok (inl (sample_key, sample_tcp, true)) /\
  exists ctx',
    packet_callback (fun _ _ => true) [] [] [] [] sample_ctx sample_v4 3
      = Ok (ctx', [Verdict NF_ACCEPT]).
Proof.
  split; [exact sample_ctx_ok|].
  assert (Hp : parse_packet sample_v4 = Ok (inl (sample_key, sample_tcp, true)))
    by (vm_compute; reflexivity).
  split; [exact Hp|].
  assert (Hf : holds (flows sample_ctx) sample_key sample_flow).
  { exists O. split; [|split; reflexivity]. apply list_lookup_insert_eq.
    exact (lookup_lt_Some _ _ _ init_slot0). }
  assert (Hl : 1 <= zlen sample_v4) by (vm_compute; congruence).
  assert (Hs : bare_syn sample_tcp = false) by (vm_compute; reflexivity).
  exact (classified_flow_untouched (fun _ _ => true) [] [] [] [] sample_ctx sample_v4 3
    sample_key sample_tcp true sample_flow sample_ctx_ok Hl Hp Hf eq_refl Hs).
Defined.

(** ** Reloading *)

Lemma load_strategy_config_wp cfg file :
  config_ok cfg -> wp (load_strategy_config cfg file) config_ok (fun _ => False).
Proof.
  intros Hc. destruct file as [text|]; [|exact Hc]. cbn [load_strategy_config].
  apply wp_bind. eapply wp_mono; [| |exact (strategy_config_parse_wp _ (bsub text 0 8191) Hc)];
    [|done]. intros [c n] [H _]. exact H.
Qed.

Lemma load_discovery_cache_wp file : wp (load_discovery_cache file) cache_ok (fun _ => False).
Proof.
  assert (H0 : cache_ok discovery_cache_init) by (split; try done; constructor).
  destruct file as [text|]; [|exact H0]. cbn [load_discovery_cache].
  apply wp_bind. eapply wp_mono; [| |exact (discovery_cache_parse_ok _ (bsub text 0 16383) H0)]; [|done].
  intros [cache n] H. exact H.
Qed.

(** A reload from any file contents succeeds and keeps the engine's
    invariant; no live flow keeps a decision made against the old
    configuration, while every flow keeps its reassembly and classification
    state. *)
Theorem reload_strategies_correct ctx conf cache_text fp now :
  engine_ok ctx ->
  exists ctx', reload_strategies ctx conf cache_text fp now = Ok ctx' /\ engine_ok ctx' /\
    fingerprint ctx' = fp /\
    (forall k f, holds (flows ctx') k f -> strategy_decided f = false) /\
    (forall k f, holds (flows ctx) k f -> exists f', holds (flows ctx') k f' /\
       reasm f' = reasm f /\ classification_done f' = classification_done f /\
       next_seq f' = next_seq f).
Proof.
  intros [Hfl _ _]. unfold reload_strategies.
  pose proof (load_strategy_config_wp _ conf strategy_config_init_ok) as Wc.
  pose proof (load_discovery_cache_wp cache_text) as Wd.
  destruct (load_strategy_config _ conf) as [cfg|e|]; [|done|done].
  destruct (load_discovery_cache cache_text) as [cache|e|]; [|done|done].
  cbn [mbind res_bind]. destruct (flow_invalidate_decisions (flows ctx)) as [table n] eqn:E.
  destruct (flow_invalidate_decisions_spec _ _ _ Hfl E) as (Hok & _ & H1 & H2).
  eexists. split; [reflexivity|]. split; [done|]. done.
Qed.

Lemma reload_strategies_correct_witness :
  engine_ok init_ctx /\
  exists ctx', reload_strategies init_ctx (Some (str "default = split")) None 5 9 = Ok ctx' /\
    engine_ok ctx'.
Proof.
  split; [exact init_ctx_ok|].
  destruct (reload_strategies_correct init_ctx (Some (str "default = split")) None 5 9 init_ctx_ok)
    as (ctx' & E & H & _).
  exists ctx'. split; [exact E|exact H].
Defined.
