(* ===== verification/Policy.v ===== *)
(** * The attempt plan of transparent mode ([src/transparent/policy.c])

    Which way a redirected connection is tried next: [tp_plan_next] looks at
    what is known about the host and at the attempts made so far and either
    offers a step (an address and a ClientHello rewrite), asks for the trusted
    resolver's answer, or gives up. The [tried] and [results] arrays are one
    list of pairs, [ntried] its length. A connection is a path of [plan_step]:
    the caller ([run_plan] in [conn.c]) answers each request and records each
    result, whatever the network makes of it. *)

From stdpp Require Import base list numbers strings option relations.
From Stdlib Require Import ZArith Lia.
From S2P Require Import Prelude Strategy.

(** ** Data *)

Inductive tp_target := TP_TARGET_ORIGINAL | TP_TARGET_TRUSTED.

Record tp_step := mk_step {
  target : tp_target;
  step_strategy : strategy
}.

Inductive tp_result :=
| TP_RES_OK
| TP_RES_ALERT
| TP_RES_CONNECT_FAIL
| TP_RES_RESET
| TP_RES_CLOSED
| TP_RES_TIMEOUT
| TP_RES_NOT_TLS
| TP_RES_SKIPPED.

Inductive tp_trust :=
| TP_TRUST_UNKNOWN
| TP_TRUST_NONE
| TP_TRUST_MATCH
| TP_TRUST_MISMATCH.

Inductive tp_source :=
| TP_SRC_NONE
| TP_SRC_MANUAL
| TP_SRC_CACHED
| TP_SRC_LADDER
| TP_SRC_COOLDOWN.

#[global] Instance tp_target_eq_dec : EqDecision tp_target.
Proof. solve_decision. Defined.
#[global] Instance tp_step_eq_dec : EqDecision tp_step.
Proof. solve_decision. Defined.
#[global] Instance tp_result_eq_dec : EqDecision tp_result.
Proof. solve_decision. Defined.
#[global] Instance tp_trust_eq_dec : EqDecision tp_trust.
Proof. solve_decision. Defined.
#[global] Instance tp_source_eq_dec : EqDecision tp_source.
Proof. solve_decision. Defined.

Definition TP_MAX_ATTEMPTS : Z := 4.
Definition TP_REPLY_TIMEOUT_MS : Z := 4000.

(** [has_manual]/[manual] and [has_cached]/[cached] are options. *)
Record tp_plan := mk_plan {
  has_host : bool;
  listed : bool;
  preferred : strategy;
  manual : option strategy;
  cached : option tp_step;
  in_cooldown : bool;
  direct_bad : bool;
  trust : tp_trust;
  tried : list (tp_step * tp_result)
}.

Inductive tp_next :=
| TP_NEXT_ATTEMPT (s : tp_step) (timeout_ms : Z)
| TP_NEXT_NEED_DNS
| TP_NEXT_DONE.

(** ** The code *)

Definition tp_target_name (t : tp_target) : list Z :=
  match t with TP_TARGET_TRUSTED => str "trusted" | TP_TARGET_ORIGINAL => str "original" end.

Definition g_listed : list (list Z) :=
  [str "discord.com"; str "discordapp.com"; str "discordapp.net"; str "discord.gg";
   str "discord.media"; str "discord.dev"; str "discord.new"; str "discord.gift";
   str "discordstatus.com"; str "discordcdn.com"; str "dis.gd";
   str "roblox.com"; str "rbxcdn.com"; str "wattpad.com";
   str "instagram.com"; str "cdninstagram.com";
   str "rutracker.org"; str "nyaa.si"; str "1337x.to"; str "thepiratebay.org"].

(** [while (hlen > 0 && host[hlen - 1] == '.') hlen--] *)
Fixpoint strip_dots (host : list Z) (hlen : nat) : nat :=
  match hlen with
  | O => O
  | S hlen' => if bget host (Z.of_nat hlen') =? 46 then strip_dots host hlen' else hlen
  end.

(** The body of the loop over the list, for one listed domain. *)
Definition listed_as (host : list Z) (hlen : Z) (dom : list Z) : bool :=
  let dlen := zlen dom in
  ((hlen =? dlen) && ieq (bsub host 0 dlen) dom)
  || ((dlen <? hlen) && (bget host (hlen - dlen - 1) =? 46)
      && ieq (bsub host (hlen - dlen) dlen) dom).

Definition tp_host_listed (host : list Z) : bool :=
  let hlen := Z.of_nat (strip_dots host (length host)) in
  existsb (listed_as host hlen) g_listed.

Definition tp_plan_init : tp_plan :=
  mk_plan false false STRATEGY_PASS None None false false TP_TRUST_UNKNOWN [].

Definition stream_strategy (s : strategy) : strategy :=
  match s with
  | STRATEGY_PASS => STRATEGY_PASS
  | STRATEGY_TLSREC_SPLIT => STRATEGY_TLSREC_SPLIT
  | _ => STRATEGY_TLSREC
  end.

Definition first_bypass (p : tp_plan) : strategy :=
  if bool_decide (preferred p = STRATEGY_TLSREC_SPLIT) then STRATEGY_TLSREC_SPLIT
  else STRATEGY_TLSREC.

Definition second_bypass (p : tp_plan) : strategy :=
  if bool_decide (first_bypass p = STRATEGY_TLSREC) then STRATEGY_TLSREC_SPLIT
  else STRATEGY_TLSREC.

Definition normalize (p : tp_plan) (s : tp_step) : tp_step :=
  mk_step
    (if bool_decide (target s = TP_TARGET_TRUSTED)
        && negb (bool_decide (trust p = TP_TRUST_MISMATCH))
     then TP_TARGET_ORIGINAL else target s)
    (stream_strategy (step_strategy s)).

(** The recorded result when the step was tried. *)
Definition was_tried (p : tp_plan) (s : tp_step) : option tp_result :=
  snd <$> find (fun x => bool_decide (fst x = s)) (tried p).

Definition offer (s : tp_step) : tp_next := TP_NEXT_ATTEMPT s TP_REPLY_TIMEOUT_MS.

Definition original_unreachable (p : tp_plan) : bool :=
  existsb (fun x => bool_decide (target (fst x) = TP_TARGET_ORIGINAL)
                    && bool_decide (snd x = TP_RES_CONNECT_FAIL)) (tried p).

(** The step of [*s] when the C function returns 1. *)
Definition next_bypass (p : tp_plan) (t : tp_target) : option tp_step :=
  let s := mk_step t (first_bypass p) in
  if was_tried p s is Some _ then
    let s := mk_step t (second_bypass p) in
    if was_tried p s is Some _ then None else Some s
  else Some s.

Definition DIRECT : tp_step := mk_step TP_TARGET_ORIGINAL STRATEGY_PASS.

(** OK and ALERT end a connection's plan. *)
Definition committed (r : tp_result) : bool :=
  bool_decide (r = TP_RES_OK) || bool_decide (r = TP_RES_ALERT).

Definition last_committed (p : tp_plan) : bool :=
  match last (tried p) with Some (_, r) => committed r | None => false end.

(** From "DIRECT to the application's own address failed" on. *)
Definition plan_after_direct (p : tp_plan) (direct_result : tp_result) : tp_next :=
  match trust p with
  | TP_TRUST_UNKNOWN => TP_NEXT_NEED_DNS
  | TP_TRUST_MISMATCH =>
      let s := mk_step TP_TARGET_TRUSTED STRATEGY_PASS in
      if was_tried p s is Some _ then
        match next_bypass p TP_TARGET_TRUSTED with
        | Some s => offer s
        | None => TP_NEXT_DONE
        end
      else offer s
  | _ =>
      if bool_decide (direct_result = TP_RES_CONNECT_FAIL) || original_unreachable p
      then TP_NEXT_DONE
      else match next_bypass p TP_TARGET_ORIGINAL with
           | Some s => offer s
           | None => TP_NEXT_DONE
           end
  end.

(** From the DIRECT step on. *)
Definition plan_direct (p : tp_plan) : tp_next :=
  if direct_bad p then plan_after_direct p TP_RES_SKIPPED else
  match was_tried p DIRECT with
  | Some r => plan_after_direct p r
  | None =>
      if original_unreachable p then plan_after_direct p TP_RES_CONNECT_FAIL
      else offer DIRECT
  end.

(** From the known-blocked test on. *)
Definition plan_ladder (p : tp_plan) : tp_next :=
  if listed p && negb (original_unreachable p) then
    match next_bypass p TP_TARGET_ORIGINAL with
    | Some s => offer s
    | None => plan_direct p
    end
  else plan_direct p.

Definition plan_cached (p : tp_plan) : tp_next :=
  match cached p with
  | Some c =>
      if bool_decide (target c = TP_TARGET_TRUSTED) && bool_decide (trust p = TP_TRUST_UNKNOWN)
      then TP_NEXT_NEED_DNS else
      let s := normalize p c in
      if was_tried p s is Some _ then plan_ladder p else offer s
  | None => plan_ladder p
  end.

Definition tp_plan_next (p : tp_plan) : tp_next :=
  let ntried := zlen (tried p) in
  if TP_MAX_ATTEMPTS <=? ntried then TP_NEXT_DONE else
  if last_committed p then TP_NEXT_DONE else
  if negb (has_host p)
     || match manual p with
        | Some m => bool_decide (stream_strategy m = STRATEGY_PASS)
        | None => false
        end
  then (if ntried =? 0 then offer DIRECT else TP_NEXT_DONE) else
  if in_cooldown p then
    if 0 <? ntried then TP_NEXT_DONE
    else if listed p then offer (mk_step TP_TARGET_ORIGINAL (first_bypass p))
    else offer DIRECT
  else
  match manual p with
  | Some m =>
      if 0 <? ntried then TP_NEXT_DONE else
      if bool_decide (trust p = TP_TRUST_UNKNOWN) then TP_NEXT_NEED_DNS else
      offer (normalize p (mk_step TP_TARGET_TRUSTED m))
  | None => plan_cached p
  end.

Definition set_tried (p : tp_plan) (l : list (tp_step * tp_result)) : tp_plan :=
  mk_plan (has_host p) (listed p) (preferred p) (manual p) (cached p)
    (in_cooldown p) (direct_bad p) (trust p) l.

Definition set_trust (p : tp_plan) (t : tp_trust) : tp_plan :=
  mk_plan (has_host p) (listed p) (preferred p) (manual p) (cached p)
    (in_cooldown p) (direct_bad p) t (tried p).

Definition tp_plan_record (p : tp_plan) (s : tp_step) (r : tp_result) : tp_plan :=
  if TP_MAX_ATTEMPTS <=? zlen (tried p) then p else set_tried p (tried p ++ [(s, r)]).

Definition tp_plan_source (p : tp_plan) : tp_source :=
  if negb (has_host p) then TP_SRC_NONE else
  match manual p with
  | Some _ => TP_SRC_MANUAL
  | None =>
      if in_cooldown p then TP_SRC_COOLDOWN else
      match cached p with
      | Some _ => if zlen (tried p) <=? 1 then TP_SRC_CACHED else TP_SRC_LADDER
      | None => TP_SRC_LADDER
      end
  end.

(** ** Connections as paths

    What the caller does with an answer: a lookup settles [trust] (never back
    to unknown), an attempt is recorded with whatever result the network gave
    it. An attempt that is made never reports [TP_RES_SKIPPED]. *)
Inductive plan_step (p : tp_plan) : tp_plan -> Prop :=
| step_dns t :
    tp_plan_next p = TP_NEXT_NEED_DNS -> t <> TP_TRUST_UNKNOWN ->
    plan_step p (set_trust p t)
| step_attempt s timeout r :
    tp_plan_next p = TP_NEXT_ATTEMPT s timeout -> r <> TP_RES_SKIPPED ->
    plan_step p (tp_plan_record p s r).

(** A plan as [fill_plan] leaves it: nothing tried, no opinion yet. *)
Definition plan_fresh (p : tp_plan) : Prop :=
  tried p = [] /\ trust p = TP_TRUST_UNKNOWN.

(** ** What an offer guarantees *)

Definition is_stream (s : strategy) : Prop :=
  s = STRATEGY_PASS \/ s = STRATEGY_TLSREC \/ s = STRATEGY_TLSREC_SPLIT.

Lemma stream_strategy_is_stream s : is_stream (stream_strategy s).
Proof. unfold is_stream. destruct s; cbn; auto. Qed.

Lemma first_bypass_is_stream p : is_stream (first_bypass p).
Proof. unfold is_stream, first_bypass. case_bool_decide; auto. Qed.

Lemma second_bypass_is_stream p : is_stream (second_bypass p).
Proof. unfold is_stream, second_bypass. case_bool_decide; auto. Qed.

(** An offered step: one of the three stream strategies, never tried before,
    to the trusted address only under a disagreement. *)
Record offerable (p : tp_plan) (s : tp_step) : Prop := {
  of_new : was_tried p s = None;
  of_stream : is_stream (step_strategy s);
  of_trusted : target s = TP_TARGET_TRUSTED -> trust p = TP_TRUST_MISMATCH
}.

Definition offers_ok (p : tp_plan) (n : tp_next) : Prop :=
  match n with
  | TP_NEXT_ATTEMPT s timeout => offerable p s /\ timeout = TP_REPLY_TIMEOUT_MS
  | TP_NEXT_NEED_DNS => trust p = TP_TRUST_UNKNOWN
  | TP_NEXT_DONE => True
  end.

Lemma offer_ok p s :
  was_tried p s = None -> is_stream (step_strategy s) ->
  (target s = TP_TARGET_TRUSTED -> trust p = TP_TRUST_MISMATCH) -> offers_ok p (offer s).
Proof. by repeat split. Qed.

Lemma was_tried_nil p s : zlen (tried p) = 0 -> was_tried p s = None.
Proof. unfold was_tried. by destruct (tried p). Qed.

Lemma next_bypass_ok p t s :
  next_bypass p t = Some s -> (t = TP_TARGET_TRUSTED -> trust p = TP_TRUST_MISMATCH) ->
  offers_ok p (offer s).
Proof.
  unfold next_bypass. intros H Ht.
  destruct (was_tried p (mk_step t (first_bypass p))) eqn:E1; simplify_eq.
  - destruct (was_tried p (mk_step t (second_bypass p))) eqn:E2; simplify_eq.
    apply offer_ok; [done|apply second_bypass_is_stream|done].
  - apply offer_ok; [done|apply first_bypass_is_stream|done].
Qed.

Lemma plan_after_direct_ok p r : offers_ok p (plan_after_direct p r).
Proof.
  unfold plan_after_direct. destruct (trust p) eqn:Et; [done|..].
  1,2: destruct (_ || _); [done|];
    destruct (next_bypass p TP_TARGET_ORIGINAL) eqn:E; [|done]; by eapply next_bypass_ok.
  destruct (was_tried p _) eqn:E.
  - destruct (next_bypass p TP_TARGET_TRUSTED) eqn:E'; [|done]. by eapply next_bypass_ok.
  - apply offer_ok; [done|by left|done].
Qed.

Lemma plan_direct_ok p : offers_ok p (plan_direct p).
Proof.
  unfold plan_direct. destruct (direct_bad p); [apply plan_after_direct_ok|].
  destruct (was_tried p DIRECT) eqn:E; [apply plan_after_direct_ok|].
  destruct (original_unreachable p); [apply plan_after_direct_ok|].
  apply offer_ok; [done|by left|done].
Qed.

Lemma plan_ladder_ok p : offers_ok p (plan_ladder p).
Proof.
  unfold plan_ladder. destruct (_ && _); [|apply plan_direct_ok].
  destruct (next_bypass p TP_TARGET_ORIGINAL) eqn:E; [|apply plan_direct_ok].
  by eapply next_bypass_ok.
Qed.

Lemma normalize_ok p s :
  was_tried p (normalize p s) = None -> offers_ok p (offer (normalize p s)).
Proof.
  intros. apply offer_ok; [done|apply stream_strategy_is_stream|].
  unfold normalize. cbn [target]. repeat case_bool_decide; done.
Qed.

Lemma plan_cached_ok p : offers_ok p (plan_cached p).
Proof.
  unfold plan_cached. destruct (cached p) as [c|]; [|apply plan_ladder_ok].
  destruct (_ && _) eqn:E.
  - apply andb_prop in E as [_ E]. by apply bool_decide_eq_true in E.
  - destruct (was_tried p (normalize p c)) eqn:Ew; [apply plan_ladder_ok|by apply normalize_ok].
Qed.

Lemma tp_plan_next_ok p :
  offers_ok p (tp_plan_next p) /\
  (tp_plan_next p <> TP_NEXT_DONE ->
   zlen (tried p) < TP_MAX_ATTEMPTS /\ last_committed p = false).
Proof.
  pose proof (zlen_nonneg (tried p)) as Hl. unfold tp_plan_next.
  destruct (Z.leb_spec TP_MAX_ATTEMPTS (zlen (tried p))); [done|].
  destruct (last_committed p) eqn:Hc; [done|]. split; [|done].
  destruct (negb (has_host p) || _).
  { destruct (Z.eqb_spec (zlen (tried p)) 0); [|done].
    apply offer_ok; [by apply was_tried_nil|by left|done]. }
  destruct (in_cooldown p).
  { destruct (Z.ltb_spec 0 (zlen (tried p))); [done|].
    destruct (listed p); (apply offer_ok; [apply was_tried_nil; lia| |done]).
    - apply first_bypass_is_stream.
    - by left. }
  destruct (manual p) as [m|]; [|apply plan_cached_ok].
  destruct (Z.ltb_spec 0 (zlen (tried p))); [done|].
  case_bool_decide as Et; [done|]. apply normalize_ok, was_tried_nil. lia.
Qed.

(** ** The invariant of a connection *)

Record plan_inv (p : tp_plan) : Prop := {
  pi_bound : zlen (tried p) <= TP_MAX_ATTEMPTS;
  pi_nodup : NoDup (map fst (tried p));
  pi_stream : Forall (fun x => is_stream (step_strategy (fst x))) (tried p);
  pi_trusted : Forall (fun x => target (fst x) = TP_TARGET_TRUSTED ->
                                trust p = TP_TRUST_MISMATCH) (tried p);
  (* every attempt but the last failed *)
  pi_failed : forall l x, tried p = l ++ [x] -> Forall (fun y => committed (snd y) = false) l
}.

Lemma plan_fresh_inv p : plan_fresh p -> plan_inv p.
Proof.
  intros [E _]. split; rewrite E; [by vm_compute|constructor..|].
  intros l x H. by destruct l.
Qed.

Lemma was_tried_None p s : was_tried p s = None <-> s ∉ map fst (tried p).
Proof.
  unfold was_tried. induction (tried p) as [|[s' r] l IH]; cbn [find map fst snd].
  - split; [intros _; apply not_elem_of_nil|done].
  - rewrite not_elem_of_cons. case_bool_decide as E; cbn [fmap option_fmap option_map].
    + split; [done|]. intros [? _]. congruence.
    + rewrite IH. split; [|tauto]. intros. split; [congruence|done].
Qed.

Lemma last_committed_snoc l x p :
  tried p = l ++ [x] -> last_committed p = committed (snd x).
Proof. intros E. unfold last_committed. rewrite E, last_snoc. by destruct x. Qed.

Lemma tried_failed p :
  plan_inv p -> last_committed p = false ->
  Forall (fun y => committed (snd y) = false) (tried p).
Proof.
  intros Hp Hc. destruct (tried p) as [|y l0] eqn:E using rev_ind; [constructor|]. clear IHl0.
  rewrite (last_committed_snoc l0 y) in Hc by done.
  apply Forall_app_2; [by apply (pi_failed p Hp l0 y)|by constructor].
Qed.

Lemma tp_plan_record_room p s r :
  zlen (tried p) < TP_MAX_ATTEMPTS -> tp_plan_record p s r = set_tried p (tried p ++ [(s, r)]).
Proof. intros. unfold tp_plan_record. by rewrite (proj2 (Z.leb_gt _ _)). Qed.

Lemma plan_step_inv p q : plan_inv p -> plan_step p q -> plan_inv q.
Proof.
  intros Hp Hs. destruct (tp_plan_next_ok p) as [Hok Hlive].
  destruct Hs as [t E Ht|s timeout r E Hr]; rewrite E in *.
  - destruct Hp as [H1 H2 H3 H4 H5]. split; try done.
    cbn in *. apply (Forall_impl _ _ _ H4). intros x Hx Hx'. rewrite Hok in Hx. by specialize (Hx Hx').
  - destruct Hok as [[Hn Hst Htr] _], Hlive as [Hroom Hfl]; [done|].
    rewrite tp_plan_record_room by done. pose proof (tried_failed p Hp Hfl) as Hall.
    destruct Hp as [H1 H2 H3 H4 H5]. split; cbn [tried set_tried trust].
    + rewrite zlen_app, zlen_cons. change (zlen (@nil (tp_step * tp_result))) with 0. lia.
    + rewrite map_app. apply NoDup_app. split; [done|]. split; [|apply NoDup_singleton].
      intros x Hx. cbn. rewrite list_elem_of_singleton. intros ->. by apply was_tried_None in Hn.
    + apply Forall_app_2; [done|by constructor].
    + apply Forall_app_2; [done|by constructor].
    + intros l x Hlx. apply app_inj_tail in Hlx as [<- _]. done.
Qed.

Lemma plan_reach_inv p q : plan_fresh p -> rtc plan_step p q -> plan_inv q.
Proof.
  intros Hf Hr. apply plan_fresh_inv in Hf. induction Hr as [|p m q Hs _ IH]; [done|].
  apply IH. by eapply plan_step_inv.
Qed.

Lemma plan_reach_host p q : rtc plan_step p q -> has_host q = has_host p.
Proof.
  induction 1 as [|p m q Hs _ IH]; [done|]. rewrite IH. destruct Hs; [done|].
  unfold tp_plan_record. by destruct (_ <=? _).
Qed.

(** Every step uses up one attempt or the one lookup. *)
Definition plan_work (p : tp_plan) : Z :=
  zlen (tried p) + (if bool_decide (trust p = TP_TRUST_UNKNOWN) then 0 else 1).

Lemma plan_step_work p q : plan_step p q -> plan_work q = plan_work p + 1.
Proof.
  intros Hs. destruct (tp_plan_next_ok p) as [Hok Hlive].
  destruct Hs as [t E Ht|s timeout r E Hr]; rewrite E in *; unfold plan_work.
  - cbn [tried set_trust trust]. cbn in Hok. rewrite Hok.
    rewrite (bool_decide_eq_false_2 (t = _)), bool_decide_eq_true_2 by done. lia.
  - destruct Hlive as [Hroom _]; [done|]. rewrite tp_plan_record_room by done.
    cbn [tried set_tried trust]. rewrite zlen_app, zlen_cons.
    change (zlen (@nil (tp_step * tp_result))) with 0. lia.
Qed.

Lemma plan_nsteps_work n p q : nsteps plan_step n p q -> plan_work q = plan_work p + Z.of_nat n.
Proof.
  induction 1 as [p|n p m q Hs _ IH]; [lia|]. apply plan_step_work in Hs. lia.
Qed.

(** C15: every connection's plan terminates and stays within its rules.
    From a plan with nothing tried, after any [n] rounds of
    [tp_plan_next]/answer (the network may do anything), [n] is at most five
    (four attempts and one lookup); no step was attempted twice; every attempt
    used PASS, TLSREC or TLSREC_SPLIT; the trusted address was used only when
    the resolvers disagreed; every attempt before the last had failed; and
    once an attempt got a TLS answer, or after five rounds, the answer is
    DONE. *)
Theorem tp_plan_terminates n p q :
  plan_fresh p -> nsteps plan_step n p q ->
  (n <= 5)%nat /\ plan_inv q /\
  (last_committed q = true \/ n = 5%nat -> tp_plan_next q = TP_NEXT_DONE).
Proof.
  intros Hf Hn. assert (Hq : plan_inv q).
  { apply (plan_reach_inv p); [done|]. apply rtc_nsteps. by exists n. }
  pose proof (plan_nsteps_work _ _ _ Hn) as Hw.
  assert (Hp : plan_work p = 0).
  { destruct Hf as [E1 E2]. unfold plan_work. rewrite E1, E2. done. }
  pose proof (pi_bound q Hq) as Hb. unfold plan_work at 1 in Hw.
  unfold TP_MAX_ATTEMPTS in *. destruct (tp_plan_next_ok q) as [Hok Hlive].
  split; [case_bool_decide; lia|]. split; [done|]. intros Hd.
  assert (Hdec : tp_plan_next q = TP_NEXT_DONE \/ tp_plan_next q <> TP_NEXT_DONE)
    by (destruct (tp_plan_next q); auto).
  destruct Hdec as [|Hne]; [done|].
  destruct (Hlive Hne) as [H1 H2]. unfold TP_MAX_ATTEMPTS in H1.
  destruct Hd as [Hd|Hd]; [congruence|]. case_bool_decide; lia.
Qed.

(** ** The ladder *)

(** A host nothing is known about: no rule, no decision, not listed. *)
Record ordinary (p : tp_plan) : Prop := {
  or_host : has_host p = true;
  or_listed : listed p = false;
  or_manual : manual p = None;
  or_cached : cached p = None;
  or_cooldown : in_cooldown p = false;
  or_bad : direct_bad p = false
}.

(** A known-blocked host, otherwise the same. *)
Record known_blocked (p : tp_plan) : Prop := {
  kb_host : has_host p = true;
  kb_listed : listed p = true;
  kb_manual : manual p = None;
  kb_cached : cached p = None;
  kb_cooldown : in_cooldown p = false;
  kb_bad : direct_bad p = false
}.

Definition bypasses (p : tp_plan) (t : tp_target) : list tp_step :=
  [mk_step t (first_bypass p); mk_step t (second_bypass p)].

(** The documented order for an ordinary host. *)
Definition rungs (p : tp_plan) : list tp_step :=
  match trust p with
  | TP_TRUST_UNKNOWN => [DIRECT]
  | TP_TRUST_MISMATCH =>
      DIRECT :: mk_step TP_TARGET_TRUSTED STRATEGY_PASS :: bypasses p TP_TARGET_TRUSTED
  | _ => DIRECT :: bypasses p TP_TARGET_ORIGINAL
  end.

Lemma tp_plan_next_live p :
  has_host p = true -> manual p = None -> in_cooldown p = false -> cached p = None ->
  zlen (tried p) < TP_MAX_ATTEMPTS -> last_committed p = false ->
  tp_plan_next p = plan_ladder p.
Proof.
  intros H1 H2 H3 H4 H5 H6. unfold tp_plan_next, plan_cached.
  by rewrite (proj2 (Z.leb_gt _ _) H5), H1, H2, H3, H4, H6.
Qed.

Lemma was_tried_match {A} p s (x y : A) :
  (if was_tried p s is Some _ then x else y)
  = if bool_decide (s ∈ map fst (tried p)) then x else y.
Proof.
  destruct (was_tried p s) eqn:E.
  - rewrite bool_decide_eq_true_2; [done|].
    destruct (decide (s ∈ map fst (tried p))) as [|Hn]; [done|].
    apply was_tried_None in Hn. congruence.
  - apply was_tried_None in E. by rewrite bool_decide_eq_false_2.
Qed.

Lemma bypass_distinct p : first_bypass p <> second_bypass p /\
  first_bypass p <> STRATEGY_PASS /\ second_bypass p <> STRATEGY_PASS.
Proof. unfold second_bypass, first_bypass. by destruct (bool_decide _). Qed.

(** The two bypasses to one address are offered in order. *)
Lemma next_bypass_follows q t pre l rest :
  map fst (tried q) = pre ++ l -> bypasses q t = l ++ rest ->
  Forall (fun s => target s <> t \/ step_strategy s = STRATEGY_PASS) pre ->
  match next_bypass q t with
  | Some s => exists rest', rest = s :: rest'
  | None => rest = []
  end.
Proof.
  intros Et Hl Hpre. destruct (bypass_distinct q) as (D1 & D2 & D3).
  unfold next_bypass. rewrite !was_tried_match, Et.
  assert (Hn : forall s, s <> STRATEGY_PASS -> mk_step t s ∉ pre).
  { intros s Hs Hin. rewrite Forall_forall in Hpre.
    destruct (Hpre _ Hin) as [?|?]; cbn in *; congruence. }
  assert (Hin : forall s, s <> STRATEGY_PASS -> mk_step t s ∈ pre ++ l <-> mk_step t s ∈ l).
  { intros s Hs. rewrite elem_of_app. specialize (Hn s Hs). tauto. }
  rewrite (bool_decide_ext _ _ (Hin _ D2)), (bool_decide_ext _ _ (Hin _ D3)).
  unfold bypasses in Hl. destruct l as [|s1 [|s2 l]]; cbn [app] in Hl.
  - rewrite bool_decide_eq_false_2 by apply not_elem_of_nil. subst rest. by eexists.
  - injection Hl as <- <-. rewrite bool_decide_eq_true_2 by apply list_elem_of_here.
    rewrite bool_decide_eq_false_2 by (rewrite list_elem_of_singleton; congruence). by eexists.
  - injection Hl as <- <- Hl. rewrite bool_decide_eq_true_2 by apply list_elem_of_here.
    rewrite bool_decide_eq_true_2 by apply list_elem_of_further, list_elem_of_here.
    by destruct l.
Qed.

(** What the plan's answer means for the sequence [k] of rungs. *)
Definition follows (q : tp_plan) (k : list tp_step) (n : tp_next) : Prop :=
  match n with
  | TP_NEXT_ATTEMPT s _ => exists rest, k = map fst (tried q) ++ s :: rest
  | TP_NEXT_NEED_DNS => trust q = TP_TRUST_UNKNOWN /\ map fst (tried q) = k
  | TP_NEXT_DONE =>
      map fst (tried q) = k \/ (trust q <> TP_TRUST_MISMATCH /\ original_unreachable q = true)
  end.

Lemma next_bypass_offers q t pre l rest :
  map fst (tried q) = pre ++ l -> bypasses q t = l ++ rest ->
  Forall (fun s => target s <> t \/ step_strategy s = STRATEGY_PASS) pre ->
  follows q (pre ++ bypasses q t)
    (match next_bypass q t with Some s => offer s | None => TP_NEXT_DONE end).
Proof.
  intros Et Hl Hpre. pose proof (next_bypass_follows q t pre l rest Et Hl Hpre) as H.
  destruct (next_bypass q t); cbn.
  - destruct H as [rest' ->]. exists rest'. by rewrite Et, Hl, app_assoc.
  - left. by rewrite Et, Hl, H, app_nil_r.
Qed.

Lemma original_unreachable_head q s r l :
  tried q = (s, r) :: l -> target s = TP_TARGET_ORIGINAL -> r = TP_RES_CONNECT_FAIL ->
  original_unreachable q = true.
Proof. unfold original_unreachable. intros -> Hs ->. cbn. by rewrite Hs. Qed.

Lemma plan_after_direct_follows q r l rest :
  tried q = (DIRECT, r) :: l -> rungs q = map fst (tried q) ++ rest ->
  follows q (rungs q) (plan_after_direct q r).
Proof.
  intros Et Hr. unfold plan_after_direct, rungs in *. rewrite Et in Hr.
  assert (Hu : r = TP_RES_CONNECT_FAIL -> original_unreachable q = true)
    by (by apply (original_unreachable_head q DIRECT r l)).
  destruct (trust q) eqn:Ht; cbn [map fst app] in Hr; injection Hr as Hr.
  - destruct l; [|done]. split; [done|]. by rewrite Et.
  - destruct (bool_decide _ || _) eqn:Hx.
    + right. split; [congruence|]. apply orb_prop in Hx as [Hx|Hx]; [|done].
      apply Hu. by apply bool_decide_eq_true in Hx.
    + apply (next_bypass_offers q _ [DIRECT] (map fst l) rest); [by rewrite Et|done|].
      by repeat constructor; right.
  - destruct (bool_decide _ || _) eqn:Hx.
    + right. split; [congruence|]. apply orb_prop in Hx as [Hx|Hx]; [|done].
      apply Hu. by apply bool_decide_eq_true in Hx.
    + apply (next_bypass_offers q _ [DIRECT] (map fst l) rest); [by rewrite Et|done|].
      by repeat constructor; right.
  - rewrite was_tried_match, Et. destruct l as [|[s2 r2] l]; cbn [map fst app] in *.
    + rewrite bool_decide_eq_false_2 by (rewrite list_elem_of_singleton; done).
      exists (bypasses q TP_TARGET_TRUSTED). by rewrite Et.
    + injection Hr as <- Hr.
      rewrite bool_decide_eq_true_2 by apply list_elem_of_further, list_elem_of_here.
      apply (next_bypass_offers q _ [DIRECT; mk_step TP_TARGET_TRUSTED STRATEGY_PASS] (map fst l) rest);
        [by rewrite Et|done|].
      repeat constructor; by right.
Qed.

Lemma ordinary_next q rest :
  ordinary q -> last_committed q = false -> (trust q <> TP_TRUST_UNKNOWN -> tried q <> []) ->
  rungs q = map fst (tried q) ++ rest -> follows q (rungs q) (tp_plan_next q).
Proof.
  intros [H1 H2 H3 H4 H5 H6] Hc Hne Hr.
  destruct (Z.leb_spec TP_MAX_ATTEMPTS (zlen (tried q))) as [Hf|Hf].
  { unfold tp_plan_next. rewrite (proj2 (Z.leb_le _ _) Hf). left.
    assert (Hl : (length rest = 0)%nat); [|destruct rest; [by rewrite app_nil_r in Hr|done]].
    apply (f_equal (@length _)) in Hr. rewrite length_app, length_map in Hr.
    unfold TP_MAX_ATTEMPTS, zlen in Hf. unfold rungs, bypasses in Hr.
    destruct (trust q); cbn [length] in Hr; lia. }
  rewrite tp_plan_next_live by done. unfold plan_ladder. rewrite H2. cbn [andb].
  unfold plan_direct. rewrite H6.
  destruct (tried q) as [|[s1 r1] l] eqn:Et.
  { unfold was_tried, original_unreachable. rewrite Et. cbn. rewrite Et. unfold rungs.
    destruct (trust q); [by eexists|by destruct Hne..]. }
  assert (E1 : s1 = DIRECT).
  { unfold rungs in Hr. destruct (trust q); cbn [map fst app] in Hr; by injection Hr. }
  subst s1. unfold was_tried. rewrite Et. cbn [find fst snd].
  rewrite bool_decide_eq_true_2 by done. cbn [fmap option_fmap option_map snd].
  apply (plan_after_direct_follows q r1 l rest); [done|by rewrite Et].
Qed.

(** One step extends the attempts along [k], or settles [trust]. *)
Lemma follows_attempt q k s timeout r :
  follows q k (tp_plan_next q) -> tp_plan_next q = TP_NEXT_ATTEMPT s timeout ->
  exists rest, k = map fst (tried (tp_plan_record q s r)) ++ rest.
Proof.
  intros Hf E. destruct (tp_plan_next_ok q) as [_ [Hroom _]]; [congruence|].
  rewrite E in Hf. destruct Hf as [rest ->]. exists rest.
  rewrite tp_plan_record_room by done. cbn [tried set_tried]. rewrite map_app, <- app_assoc. done.
Qed.

Lemma record_config q s r :
  zlen (tried q) < TP_MAX_ATTEMPTS ->
  tp_plan_record q s r = set_tried q (tried q ++ [(s, r)]) /\
  trust (tp_plan_record q s r) = trust q /\ tried (tp_plan_record q s r) <> [].
Proof.
  intros H. rewrite tp_plan_record_room by done. split; [done|]. split; [done|].
  cbn [tried set_tried]. by destruct (tried q).
Qed.

Record ordinary_inv (q : tp_plan) : Prop := {
  oi_ordinary : ordinary q;
  oi_lookup : trust q <> TP_TRUST_UNKNOWN ->
              exists r l, tried q = (DIRECT, r) :: l /\ committed r = false;
  oi_rungs : exists rest, rungs q = map fst (tried q) ++ rest
}.

Lemma ordinary_inv_next q :
  ordinary_inv q -> last_committed q = false -> follows q (rungs q) (tp_plan_next q).
Proof.
  intros [Ho Hl [rest Hr]] Hc. apply (ordinary_next q rest); try done.
  intros Ht. destruct (Hl Ht) as (r & l & -> & _). done.
Qed.

Lemma ordinary_step p q : ordinary_inv p -> plan_step p q -> ordinary_inv q.
Proof.
  intros Hp Hs. destruct (tp_plan_next_ok p) as [_ Hlive].
  assert (Hc : tp_plan_next p <> TP_NEXT_DONE) by (destruct Hs; congruence).
  destruct (Hlive Hc) as [Hroom Hcom].
  pose proof (ordinary_inv_next p Hp Hcom) as Hn. destruct Hp as [Ho Hl _].
  destruct Hs as [t E Ht|s timeout r E Hres].
  - rewrite E in Hn. destruct Hn as [Hu Htr]. unfold rungs in Htr. rewrite Hu in Htr.
    split; [by destruct Ho|..].
    + intros _. cbn [tried set_trust]. destruct (tried p) as [|[s r] l] eqn:El; [done|].
      cbn [map fst] in Htr. injection Htr as -> Htr. destruct l; [|done].
      exists r, []. split; [done|]. by rewrite (last_committed_snoc [] (DIRECT, r)) in Hcom.
    + unfold rungs. cbn [trust set_trust tried]. rewrite Htr. destruct t; [done|by eexists..].
  - destruct (record_config p s r Hroom) as (Er & Et & Hne). split.
    + rewrite Er. by destruct Ho.
    + rewrite Et, Er. intros Ht. destruct (Hl Ht) as (r0 & l & El & Hr0).
      exists r0, (l ++ [(s, r)]). cbn [tried set_tried]. by rewrite El.
    + destruct (follows_attempt p _ s timeout r Hn E) as [rest' Hr']. exists rest'.
      rewrite <- Hr', Er. done.
Qed.

(** For a host nothing is known about, the attempts are made in the
    documented order, least invasive first, and nothing is left out. On every
    path the attempts are a prefix of: DIRECT to the application's address;
    then, when the trusted resolver disagrees with that address, DIRECT to the
    trusted address and its two TLS-record bypasses, and otherwise the two
    bypasses to the application's address. The resolver is asked only after
    DIRECT failed; and the plan gives up only after an answer, after the whole
    sequence, or when the (only) address does not even accept a
    connection. *)
Theorem ladder_least_invasive p q :
  ordinary p -> plan_fresh p -> rtc plan_step p q ->
  (exists rest, rungs q = map fst (tried q) ++ rest) /\
  (trust q <> TP_TRUST_UNKNOWN -> exists r l, tried q = (DIRECT, r) :: l /\ committed r = false) /\
  (tp_plan_next q = TP_NEXT_DONE ->
   last_committed q = true \/ map fst (tried q) = rungs q \/
   (trust q <> TP_TRUST_MISMATCH /\ original_unreachable q = true)).
Proof.
  intros Ho Hf Hr. assert (Hi : ordinary_inv q).
  { assert (Hp : ordinary_inv p).
    { destruct Hf as [E1 E2]. split; [done|by rewrite E2|].
      unfold rungs. rewrite E1, E2. by eexists. }
    clear Ho Hf. induction Hr as [|p m q Hs _ IH]; [done|]. apply IH. by eapply ordinary_step. }
  split; [apply Hi|]. split; [apply Hi|]. intros E.
  destruct (last_committed q) eqn:Hc; [by left|right].
  pose proof (ordinary_inv_next q Hi Hc) as Hn. by rewrite E in Hn.
Qed.

Definition plain_plan : tp_plan :=
  mk_plan true false STRATEGY_PASS None None false false TP_TRUST_UNKNOWN [].

(** A poisoned address: DIRECT is reset, the trusted address answers. *)
Definition poisoned_run : tp_plan :=
  mk_plan true false STRATEGY_PASS None None false false TP_TRUST_MISMATCH
    [(DIRECT, TP_RES_RESET); (mk_step TP_TARGET_TRUSTED STRATEGY_PASS, TP_RES_OK)].

Lemma poisoned_run_reached : nsteps plan_step 3 plain_plan poisoned_run.
Proof.
  eapply nsteps_l.
  { eapply (step_attempt _ DIRECT _ TP_RES_RESET); [vm_compute; reflexivity|done]. }
  eapply nsteps_l.
  { apply (step_dns _ TP_TRUST_MISMATCH); [vm_compute; reflexivity|done]. }
  eapply nsteps_l.
  { eapply (step_attempt _ (mk_step TP_TARGET_TRUSTED STRATEGY_PASS) _ TP_RES_OK);
      [vm_compute; reflexivity|done]. }
  apply nsteps_O.
Qed.

Lemma tp_plan_terminates_witness :
  plan_fresh plain_plan /\ (3 <= 5)%nat /\ plan_inv poisoned_run /\
  tp_plan_next poisoned_run = TP_NEXT_DONE.
Proof.
  split; [done|].
  destruct (tp_plan_terminates 3 plain_plan poisoned_run) as (H1 & H2 & H3);
    [done|apply poisoned_run_reached|].
  split; [exact H1|]. split; [exact H2|]. apply H3. by left.
Defined.

Lemma ladder_least_invasive_witness :
  ordinary plain_plan /\
  (exists rest, rungs poisoned_run = map fst (tried poisoned_run) ++ rest) /\
  map fst (tried poisoned_run) = [DIRECT; mk_step TP_TARGET_TRUSTED STRATEGY_PASS].
Proof.
  split; [done|]. split; [|reflexivity].
  apply (ladder_least_invasive plain_plan poisoned_run); [done|done|].
  apply rtc_nsteps. exists 3%nat. apply poisoned_run_reached.
Defined.

(** ** Known-blocked hosts *)

(** The order for a known-blocked host whose address accepts connections. *)
Definition blocked_rungs (p : tp_plan) : list tp_step :=
  bypasses p TP_TARGET_ORIGINAL ++ DIRECT ::
  (if bool_decide (trust p = TP_TRUST_MISMATCH)
   then [mk_step TP_TARGET_TRUSTED STRATEGY_PASS] else []).

Lemma blocked_after_direct q r :
  map fst (tried q) = bypasses q TP_TARGET_ORIGINAL ++ [DIRECT] ->
  original_unreachable q = false ->
  match plan_after_direct q r with
  | TP_NEXT_ATTEMPT s _ => trust q = TP_TRUST_MISMATCH /\ s = mk_step TP_TARGET_TRUSTED STRATEGY_PASS
  | TP_NEXT_NEED_DNS => trust q = TP_TRUST_UNKNOWN
  | TP_NEXT_DONE => trust q <> TP_TRUST_MISMATCH
  end.
Proof.
  intros Et Hu. unfold plan_after_direct.
  assert (Hb : next_bypass q TP_TARGET_ORIGINAL = None).
  { unfold next_bypass. rewrite !was_tried_match, Et. unfold bypasses. cbn [app].
    rewrite bool_decide_eq_true_2 by apply list_elem_of_here.
    by rewrite bool_decide_eq_true_2 by apply list_elem_of_further, list_elem_of_here. }
  rewrite Hb. destruct (trust q); [done|by destruct (_ || _)..|].
  rewrite was_tried_match, Et, bool_decide_eq_false_2; [done|].
  unfold bypasses. cbn [app]. rewrite !not_elem_of_cons.
  repeat split; try apply not_elem_of_nil; done.
Qed.

Lemma blocked_next q rest :
  known_blocked q -> last_committed q = false -> original_unreachable q = false ->
  (trust q <> TP_TRUST_UNKNOWN -> (3 <= length (tried q))%nat) ->
  blocked_rungs q = map fst (tried q) ++ rest ->
  match tp_plan_next q with
  | TP_NEXT_ATTEMPT s _ => exists rest', rest = s :: rest'
  | TP_NEXT_NEED_DNS => trust q = TP_TRUST_UNKNOWN /\ rest = []
  | TP_NEXT_DONE => rest = []
  end.
Proof.
  intros [H1 H2 H3 H4 H5 H6] Hc Hu Hl Hr.
  destruct (bypass_distinct q) as (D1 & D2 & D3).
  destruct (Z.leb_spec TP_MAX_ATTEMPTS (zlen (tried q))) as [Hf|Hf].
  { unfold tp_plan_next. rewrite (proj2 (Z.leb_le _ _) Hf).
    apply (f_equal (@length _)) in Hr. unfold blocked_rungs in Hr.
    rewrite !length_app, length_map in Hr. unfold TP_MAX_ATTEMPTS, zlen in Hf.
    destruct rest; [done|]. destruct (bool_decide _); cbn [length bypasses] in Hr; lia. }
  rewrite tp_plan_next_live by done. unfold plan_ladder. rewrite H2, Hu. cbn [andb negb].
  destruct (tried q) as [|[s1 r1] [|[s2 r2] l]] eqn:Et.
  1,2: cbn [map fst app] in Hr; unfold blocked_rungs, bypasses in Hr; cbn [app] in Hr;
    unfold next_bypass; rewrite !was_tried_match, Et; cbn [map fst].
  - rewrite bool_decide_eq_false_2 by apply not_elem_of_nil. cbn. by eexists.
  - injection Hr as <- Hr. rewrite bool_decide_eq_true_2 by apply list_elem_of_here.
    rewrite bool_decide_eq_false_2 by (rewrite list_elem_of_singleton; congruence).
    cbn. by eexists.
  - assert (Hb : next_bypass q TP_TARGET_ORIGINAL = None).
    { unfold blocked_rungs, bypasses in Hr. cbn [map fst app] in Hr. injection Hr as <- <- Hr.
      unfold next_bypass. rewrite !was_tried_match, Et. cbn [map fst].
      rewrite bool_decide_eq_true_2 by apply list_elem_of_here.
      by rewrite bool_decide_eq_true_2 by apply list_elem_of_further, list_elem_of_here. }
    rewrite Hb. unfold plan_direct. rewrite H6, Hu.
    destruct l as [|[s3 r3] l].
    + unfold blocked_rungs, bypasses in Hr. cbn [map fst app] in Hr. injection Hr as <- <- Hr.
      assert (Hd : was_tried q DIRECT = None).
      { apply was_tried_None. rewrite Et. cbn [map fst]. rewrite !not_elem_of_cons.
        repeat split; try apply not_elem_of_nil; unfold DIRECT; congruence. }
      rewrite Hd. cbn. by eexists.
    + assert (l = []) as -> by (destruct l; [done|];
        cbn in Hf; unfold TP_MAX_ATTEMPTS, zlen in Hf; cbn [length] in Hf; lia).
      assert (Em : map fst (tried q) = bypasses q TP_TARGET_ORIGINAL ++ [DIRECT]).
      { rewrite Et. unfold blocked_rungs, bypasses in Hr. cbn [map fst app] in Hr |- *.
        by injection Hr as <- <- <- Hr. }
      destruct (was_tried q DIRECT) as [r|] eqn:Hd.
      2: { apply was_tried_None in Hd. rewrite Em in Hd. destruct Hd. unfold bypasses. set_solver. }
      unfold blocked_rungs in Hr. rewrite <- Et, Em, <- app_assoc in Hr.
      apply app_inv_head in Hr. injection Hr as Hr.
      pose proof (blocked_after_direct q r Em Hu) as Hn.
      destruct (plan_after_direct q r) as [s ?| |].
      * destruct Hn as [Ht ->]. rewrite bool_decide_eq_true_2 in Hr by done. by eexists.
      * split; [done|]. rewrite bool_decide_eq_false_2 in Hr by congruence. done.
      * by rewrite bool_decide_eq_false_2 in Hr by done.
Qed.

Record blocked_inv (q : tp_plan) : Prop := {
  bi_blocked : known_blocked q;
  bi_lookup : original_unreachable q = false -> trust q <> TP_TRUST_UNKNOWN ->
              (3 <= length (tried q))%nat;
  bi_rungs : original_unreachable q = false ->
             exists rest, blocked_rungs q = map fst (tried q) ++ rest
}.

Lemma original_unreachable_snoc p s r :
  original_unreachable (set_tried p (tried p ++ [(s, r)])) = false ->
  original_unreachable p = false.
Proof.
  unfold original_unreachable. cbn [tried set_tried]. rewrite existsb_app.
  by intros [? _]%orb_false_elim.
Qed.

Lemma blocked_step p q : blocked_inv p -> plan_step p q -> blocked_inv q.
Proof.
  intros [Hb Hl Hr] Hs. destruct (tp_plan_next_ok p) as [_ Hlive].
  assert (Hc : tp_plan_next p <> TP_NEXT_DONE) by (destruct Hs; congruence).
  destruct (Hlive Hc) as [Hroom Hcom].
  pose proof (fun Hu rest => blocked_next p rest Hb Hcom Hu (Hl Hu)) as Hn.
  destruct Hs as [t E Ht|s timeout r E Hres].
  - rewrite E in Hn. split; [by destruct Hb|..].
    + intros Hu _. destruct (Hr Hu) as [rest Hrest].
      destruct (Hn Hu rest Hrest) as [Hu' ->]. apply (f_equal (@length _)) in Hrest.
      unfold blocked_rungs in Hrest. rewrite Hu' in Hrest.
      rewrite app_nil_r, length_app, length_map in Hrest. cbn in *. lia.
    + intros Hu. destruct (Hr Hu) as [rest Hrest].
      destruct (Hn Hu rest Hrest) as [Hu' ->]. unfold blocked_rungs in *.
      rewrite Hu' in Hrest. cbn [trust set_trust tried bypasses first_bypass] in *.
      rewrite app_nil_r in Hrest. eexists. rewrite <- Hrest, <- app_assoc. done.
  - destruct (record_config p s r Hroom) as (Er & Et & _). rewrite Er.
    split; [by destruct Hb|..].
    + intros Hu Ht. apply original_unreachable_snoc in Hu. specialize (Hl Hu Ht).
      cbn [tried set_tried]. rewrite length_app. lia.
    + intros Hu. apply original_unreachable_snoc in Hu. destruct (Hr Hu) as [rest Hrest].
      specialize (Hn Hu rest Hrest). rewrite E in Hn. destruct Hn as [rest' ->].
      exists rest'. cbn [tried set_tried]. rewrite map_app, <- app_assoc. exact Hrest.
Qed.

(** For a known-blocked host whose address accepts connections, the two
    TLS-record bypasses are tried first (the network's preferred one leading),
    then DIRECT, then, when the resolvers disagree, DIRECT to the trusted
    address, in this order; the plan gives up only after an answer or after
    all of them. So the bypasses are never applied to the trusted address: the
    four attempts are used up before. *)
Theorem known_blocked_order p q :
  known_blocked p -> plan_fresh p -> rtc plan_step p q -> original_unreachable q = false ->
  (exists rest, blocked_rungs q = map fst (tried q) ++ rest) /\
  (tp_plan_next q = TP_NEXT_DONE ->
   last_committed q = true \/ map fst (tried q) = blocked_rungs q) /\
  (forall s, s ∈ map fst (tried q) -> target s = TP_TARGET_TRUSTED ->
   step_strategy s = STRATEGY_PASS).
Proof.
  intros Hb Hf Hr Hu. assert (Hi : blocked_inv q).
  { assert (Hp : blocked_inv p).
    { destruct Hf as [E1 E2]. split; [done|by rewrite E2|].
      unfold blocked_rungs. rewrite E1. by eexists. }
    clear Hb Hf Hu. induction Hr as [|p m q Hs _ IH]; [done|]. apply IH. by eapply blocked_step. }
  destruct (bi_rungs q Hi Hu) as [rest Hrest]. split; [by exists rest|]. split.
  - intros E. destruct (last_committed q) eqn:Hc; [by left|right].
    pose proof (blocked_next q rest (bi_blocked q Hi) Hc Hu (bi_lookup q Hi Hu) Hrest) as Hn.
    rewrite E in Hn. by rewrite Hrest, Hn, app_nil_r.
  - intros s Hs Ht. assert (Hin : s ∈ blocked_rungs q) by (rewrite Hrest; apply elem_of_app; by left).
    unfold blocked_rungs, bypasses in Hin. cbn [app] in Hin.
    rewrite !elem_of_cons in Hin. destruct Hin as [->|[->|[->|Hin]]]; try done.
    case_bool_decide; [|by apply not_elem_of_nil in Hin].
    apply list_elem_of_singleton in Hin as ->. done.
Qed.

Definition blocked_plan : tp_plan :=
  mk_plan true true STRATEGY_TLSREC_SPLIT None None false false TP_TRUST_UNKNOWN [].

(** Everything times out: four attempts, no bypass to the trusted address. *)
Definition blocked_run : tp_plan :=
  mk_plan true true STRATEGY_TLSREC_SPLIT None None false false TP_TRUST_MISMATCH
    [(mk_step TP_TARGET_ORIGINAL STRATEGY_TLSREC_SPLIT, TP_RES_TIMEOUT);
     (mk_step TP_TARGET_ORIGINAL STRATEGY_TLSREC, TP_RES_RESET);
     (DIRECT, TP_RES_TIMEOUT);
     (mk_step TP_TARGET_TRUSTED STRATEGY_PASS, TP_RES_TIMEOUT)].

Lemma known_blocked_order_witness :
  known_blocked blocked_plan /\ tp_plan_next blocked_run = TP_NEXT_DONE /\
  map fst (tried blocked_run) = blocked_rungs blocked_run.
Proof.
  split; [done|]. split; [vm_compute; reflexivity|].
  destruct (known_blocked_order blocked_plan blocked_run) as (_ & H & _); [done|done| |done|].
  - eapply rtc_l.
    { eapply (step_attempt _ _ _ TP_RES_TIMEOUT); [vm_compute; reflexivity|done]. }
    eapply rtc_l.
    { eapply (step_attempt _ _ _ TP_RES_RESET); [vm_compute; reflexivity|done]. }
    eapply rtc_l.
    { eapply (step_attempt _ _ _ TP_RES_TIMEOUT); [vm_compute; reflexivity|done]. }
    eapply rtc_l.
    { apply (step_dns _ TP_TRUST_MISMATCH); [vm_compute; reflexivity|done]. }
    eapply rtc_l.
    { eapply (step_attempt _ _ _ TP_RES_TIMEOUT); [vm_compute; reflexivity|done]. }
    apply rtc_refl.
  - destruct H as [H|H]; [vm_compute; reflexivity|discriminate H|exact H].
Defined.

(** ** The known-blocked list *)

(** The host without its trailing dots. *)
Definition undotted (host : list Z) : list Z :=
  take (strip_dots host (length host)) host.

Lemma strip_dots_le host n : (strip_dots host n <= n)%nat.
Proof. induction n as [|n IH]; cbn; [lia|]. destruct (_ =? _); lia. Qed.

Lemma undotted_spec host :
  exists k, host = undotted host ++ replicate k 46 /\ last (undotted host) <> Some 46.
Proof.
  unfold undotted.
  assert (H : forall n, (n <= length host)%nat ->
    exists k, take n host = take (strip_dots host n) host ++ replicate k 46 /\
              last (take (strip_dots host n) host) <> Some 46).
  { induction n as [|n IH]; intros Hn.
    - by exists O.
    - destruct (lookup_lt_is_Some_2 host n ltac:(lia)) as [c Hc].
      cbn [strip_dots]. unfold bget. rewrite Nat2Z.id, Hc. cbn [default from_option id].
      destruct (Z.eqb_spec c 46) as [->|Hne].
      + destruct (IH ltac:(lia)) as (k & Hk & Hl). exists (S k). split; [|done].
        rewrite (take_S_r _ _ 46), Hk, <- app_assoc by done. f_equal.
        rewrite <- replicate_cons_app. done.
      + exists O. rewrite app_nil_r. split; [done|].
        rewrite (take_S_r _ _ c), last_snoc by done. congruence. }
  destruct (H (length host)) as (k & Hk & Hl); [done|]. exists k. split; [|done].
  rewrite <- Hk. by rewrite take_ge.
Qed.

Lemma zlen_undotted host : zlen (undotted host) = Z.of_nat (strip_dots host (length host)).
Proof.
  unfold zlen, undotted. rewrite length_take. pose proof (strip_dots_le host (length host)). lia.
Qed.

Lemma bsub_undotted host off n :
  0 <= off -> 0 <= n -> off + n <= zlen (undotted host) ->
  bsub host off n = bsub (undotted host) off n.
Proof.
  intros. destruct (undotted_spec host) as (k & Hk & _). rewrite Hk at 1. by apply bsub_app_l.
Qed.

Lemma listed_as_spec host dom :
  listed_as host (zlen (undotted host)) dom = true <->
  lower (undotted host) = lower dom \/
  exists sub, lower (undotted host) = sub ++ 46 :: lower dom.
Proof.
  set (u := undotted host). pose proof (zlen_nonneg dom).
  assert (Heq : lower u = lower dom -> zlen u = zlen dom).
  { intros E. by rewrite <- (zlen_lower u), E, zlen_lower. }
  assert (Hlen : forall p, lower u = p ++ 46 :: lower dom -> zlen u = zlen p + 1 + zlen dom).
  { intros p Hp. rewrite <- (zlen_lower u), Hp, zlen_app, zlen_cons, zlen_lower. lia. }
  unfold listed_as. rewrite orb_true_iff, !andb_true_iff, !Z.eqb_eq, Z.ltb_lt.
  destruct (Z.lt_total (zlen u) (zlen dom)) as [Hlt|[He|Hgt]].
  - split; [lia|]. intros [E|[p E]]; [apply Heq in E; lia|].
    apply Hlen in E. pose proof (zlen_nonneg p). lia.
  - rewrite bsub_undotted by (fold u; lia). fold u. rewrite <- He, bsub_all, ieq_true.
    split; [intros [[_ ?]|?]; [by left|lia]|]. intros [E|[p E]]; [by left|].
    apply Hlen in E. pose proof (zlen_nonneg p). lia.
  - set (k := zlen u - zlen dom).
    assert (Hget : bget host (k - 1) = bget u (k - 1)).
    { destruct (undotted_spec host) as (n & Hn & _). rewrite Hn at 1. fold u.
      apply bget_app_l. unfold k. lia. }
    rewrite (bsub_undotted host k) by (fold u; unfold k; lia). fold u. rewrite Hget.
    replace (bsub u k (zlen dom)) with (bfrom u k)
      by (rewrite bfrom_bsub by (unfold k; lia); f_equal; unfold k; lia).
    assert (Hsplit : bfrom u (k - 1) = bget u (k - 1) :: bfrom u k).
    { apply bytes_ext.
      - rewrite zlen_cons, !zlen_bfrom by (unfold k; lia). unfold k. lia.
      - intros i Hi. rewrite zlen_bfrom in Hi by (unfold k; lia).
        rewrite bget_bfrom by (unfold k; lia). destruct (decide (i = 0)) as [->|Hi0].
        + rewrite bget_cons_0. f_equal. lia.
        + rewrite bget_cons, bget_bfrom by (unfold k; lia). f_equal. lia. }
    rewrite !ieq_true.
    assert (Htail : (bget u (k - 1) = 46 /\ lower (bfrom u k) = lower dom) <->
                    lower (bfrom u (k - 1)) = lower (46 :: dom)).
    { rewrite Hsplit. change (lower (?x :: ?l)) with (tolower x :: lower l).
      change (tolower 46) with 46. pose proof (tolower_dot (bget u (k - 1))) as Hd.
      split; [by intros [-> ->]|]. intros E. injection E as E1 E2. split; [|done].
      rewrite E1 in Hd. by apply Z.eqb_eq. }
    rewrite (lower_tail u (k - 1) (46 :: dom)) in Htail by (unfold k; lia).
    change (lower (46 :: dom)) with (46 :: lower dom) in Htail. split.
    + intros [?|[[_ E1] E2]]; [unfold k in *; lia|]. right.
      destruct (proj1 Htail (conj E1 E2)) as (p & _ & E). by exists p.
    + intros [E|[p E]]; [apply Heq in E; lia|]. right. pose proof (Hlen p E).
      destruct (proj2 Htail) as [E1 E2].
      * exists p. split; [unfold k; lia|done].
      * tauto.
Qed.

(** The known-blocked list matches whole names only: with its trailing
    dots removed, the host must be a listed domain or end in a dot and a
    listed domain, up to case ("notdiscord.com" and "discord.com.evil" are
    ordinary hosts). *)
Theorem tp_host_listed_label_boundary host :
  exists u k, host = u ++ replicate k 46 /\ last u <> Some 46 /\
  (tp_host_listed host = true <->
   exists dom, dom ∈ g_listed /\
     (lower u = lower dom \/ exists sub, lower u = sub ++ 46 :: lower dom)).
Proof.
  destruct (undotted_spec host) as (k & Hk & Hl). exists (undotted host), k.
  split; [done|]. split; [done|]. unfold tp_host_listed. rewrite <- zlen_undotted, existsb_exists.
  split; intros (dom & Hin & H); exists dom.
  - split; [by apply list_elem_of_In|by apply listed_as_spec].
  - split; [by apply list_elem_of_In|by apply listed_as_spec].
Qed.
