(* ===== verification/Decisions.v ===== *)
(** * Per-host decisions of transparent mode ([src/transparent/policy.c])

    What is remembered about a host: the step that worked for it on a network
    (a growing array, persisted), the cooldown after every attempt failed, and
    the marks that say DIRECT gives a bad certificate (fixed arrays, in memory
    only). The array of decisions is the list of its first [count] entries and
    its capacity; [realloc] may fail, so the operations that grow the array
    take its outcome as the argument [grow]. A slot of a fixed array is free
    when its host is the empty string. Times are seconds in an [int64_t]; the
    differences the code takes are exact for times within 2^62 of zero. *)

From stdpp Require Import base list numbers strings option gmap.
From Stdlib Require Import ZArith Lia.
From S2P Require Import Prelude Slots Text Strategy Discovery Policy.

(** ** Data *)

Definition TP_COOLDOWN_SECONDS : Z := 60.
Definition TP_COOLDOWN_MAX : nat := 64.
Definition TP_DECISION_TTL_SECONDS : Z := 24 * 3600.
Definition TP_DECISIONS_MAX : Z := 2048.
Definition TP_DIRECT_BAD_MAX : nat := 128.
Definition TP_DIRECT_BAD_TTL_SECONDS : Z := 3600.

Record tp_decision := mk_decision {
  dec_host : list Z;
  dec_fingerprint : Z;
  dec_family : Z;
  dec_step : tp_step;
  dec_validated_at : Z;
  dec_quic_blocked_at : Z
}.

Record tp_cooldown := mk_cooldown {
  cd_host : list Z;
  cd_until : Z
}.

Record tp_mark := mk_mark {
  mark_host : list Z;
  mark_fingerprint : Z;
  mark_family : Z;
  mark_until : Z
}.

Record tp_decisions := mk_decisions {
  entries : list tp_decision;
  cap : Z;
  cooldown : list tp_cooldown;
  bad_marks : list tp_mark;
  dirty : bool
}.

Definition set_entries (d : tp_decisions) (es : list tp_decision) (dirty : bool) : tp_decisions :=
  mk_decisions es (cap d) (cooldown d) (bad_marks d) dirty.
Definition set_cap (d : tp_decisions) (c : Z) : tp_decisions :=
  mk_decisions (entries d) c (cooldown d) (bad_marks d) (dirty d).
Definition set_cooldown (d : tp_decisions) (l : list tp_cooldown) : tp_decisions :=
  mk_decisions (entries d) (cap d) l (bad_marks d) (dirty d).
Definition set_marks (d : tp_decisions) (l : list tp_mark) : tp_decisions :=
  mk_decisions (entries d) (cap d) (cooldown d) l (dirty d).

(** ** The code: decisions *)

Definition zero_decision : tp_decision := mk_decision [] 0 0 (mk_step TP_TARGET_ORIGINAL STRATEGY_PASS) 0 0.
Definition zero_cooldown : tp_cooldown := mk_cooldown [] 0.
Definition zero_mark : tp_mark := mk_mark [] 0 0 0.

Definition tp_decisions_init : tp_decisions :=
  mk_decisions [] 0 (replicate TP_COOLDOWN_MAX zero_cooldown)
    (replicate TP_DIRECT_BAD_MAX zero_mark) false.

Definition fresh (e : tp_decision) (fp now : Z) : bool :=
  negb (fp =? NETFP_UNKNOWN) && (dec_fingerprint e =? fp)
  && (dec_validated_at e <=? now)
  && (now - dec_validated_at e <? TP_DECISION_TTL_SECONDS).

(** The index stands for the returned pointer. *)
Definition decision_find (d : tp_decisions) (host : list Z) (fp family : Z) : option nat :=
  find_idx (fun e => (dec_fingerprint e =? fp) && (dec_family e =? family)
                     && ieq (dec_host e) host) (entries d).

Definition tp_decision_lookup (d : tp_decisions) (host : list Z) (fp family now : Z)
  : option tp_decision :=
  match decision_find d host fp family with
  | None => None
  | Some i =>
      match entries d !! i with
      | Some e => if fresh e fp now then Some e else None
      | None => None
      end
  end.

(** [*e = d->entries[d->count - 1]; d->count--; d->dirty = 1] *)
Definition remove_entry (d : tp_decisions) (i : nat) : tp_decisions :=
  let n := (length (entries d) - 1)%nat in
  match entries d !! n with
  | Some e => set_entries d (take n (<[i := e]> (entries d))) true
  | None => d
  end.

(** The slot and the state it is in; a slot past the old count holds whatever
    the caller then writes over it. [None] is the NULL return. *)
Definition new_slot (grow : bool) (d : tp_decisions) : option (nat * tp_decisions) :=
  let count := length (entries d) in
  let add d := Some (count, set_entries d (entries d ++ [zero_decision]) (dirty d)) in
  let evict := Some (first_min dec_validated_at (entries d), d) in
  if Z.of_nat count <? cap d then add d else
  if cap d <? TP_DECISIONS_MAX then
    let c := if cap d =? 0 then 16 else cap d * 2 in
    let c := if TP_DECISIONS_MAX <? c then TP_DECISIONS_MAX else c in
    if grow then add (set_cap d c) else
    if (count =? 0)%nat then None else evict
  else evict.

Definition host_is (host : list Z) (h : list Z) : bool := negb (zlen h =? 0) && ieq h host.

Definition cooldown_find (d : tp_decisions) (host : list Z) : option nat :=
  find_idx (fun c => host_is host (cd_host c)) (cooldown d).

(** [cd->host[0] = '\0'] *)
Definition clear_cooldown (d : tp_decisions) (host : list Z) : tp_decisions :=
  match cooldown_find d host with
  | Some i => set_cooldown d (alter (fun c => mk_cooldown [] (cd_until c)) i (cooldown d))
  | None => d
  end.

(** The end of [tp_decision_success] and [parse_line]: a new entry is zeroed
    and keyed, then [step] and [validated_at] are written. *)
Definition store_decision (grow : bool) (d : tp_decisions) (host : list Z) (fp family : Z)
    (step : tp_step) (validated : Z) : option tp_decisions :=
  match decision_find d host fp family with
  | Some i =>
      e ← entries d !! i;
      let e := mk_decision (dec_host e) (dec_fingerprint e) (dec_family e) step validated
                 (dec_quic_blocked_at e) in
      Some (set_entries d (<[i := e]> (entries d)) (dirty d))
  | None =>
      match new_slot grow d with
      | None => None
      | Some (i, d) =>
          Some (set_entries d (<[i := mk_decision host fp family step validated 0]> (entries d))
                  (dirty d))
      end
  end.

Definition tp_decision_success (grow : bool) (d : tp_decisions) (host : list Z)
    (fp family now : Z) (step : tp_step) : tp_decisions :=
  let d := clear_cooldown d host in
  if (fp =? NETFP_UNKNOWN) || (STRATEGY_DOMAIN_MAX <=? zlen host) then d else
  let e := decision_find d host fp family in
  if bool_decide (step = DIRECT) then
    match e with Some i => remove_entry d i | None => d end
  else
  if match e ≫= fun i => entries d !! i with
     | Some e => fresh e fp now && bool_decide (dec_step e = step)
                 && (now - dec_validated_at e <? TP_DECISION_TTL_SECONDS / 2)
     | None => false
     end
  then d else
  match store_decision grow d host fp family step now with
  | Some d => set_entries d (entries d) true
  | None => d
  end.

(** The search of [tp_decision_failure]: the host's slot, else a free or
    expired one, else the one that expires first. *)
Definition cooldown_slot (d : tp_decisions) (host : list Z) (now : Z) : nat :=
  match cooldown_find d host with
  | Some i => i
  | None =>
      match find_idx (fun c => (zlen (cd_host c) =? 0) || (cd_until c <=? now)) (cooldown d) with
      | Some i => i
      | None => first_min cd_until (cooldown d)
      end
  end.

Definition tp_decision_failure (d : tp_decisions) (host : list Z) (fp family now : Z)
  : tp_decisions :=
  let i := cooldown_slot d host now in
  let d :=
    if zlen host <? STRATEGY_DOMAIN_MAX
    then set_cooldown d (<[i := mk_cooldown host (now + TP_COOLDOWN_SECONDS)]> (cooldown d))
    else d in
  match decision_find d host fp family with
  | Some i => remove_entry d i
  | None => d
  end.

Definition tp_in_cooldown (d : tp_decisions) (host : list Z) (now : Z) : bool :=
  match cooldown_find d host ≫= fun i => cooldown d !! i with
  | Some c => now <? cd_until c
  | None => false
  end.

(** ** The code: direct-bad marks *)

Definition mark_find (d : tp_decisions) (host : list Z) (fp family : Z) : option nat :=
  find_idx (fun m => negb (zlen (mark_host m) =? 0) && (mark_fingerprint m =? fp)
                     && (mark_family m =? family) && ieq (mark_host m) host) (bad_marks d).

Definition mark_slot (d : tp_decisions) (host : list Z) (fp family now : Z) : nat :=
  match mark_find d host fp family with
  | Some i => i
  | None =>
      match find_idx (fun m => (zlen (mark_host m) =? 0) || (mark_until m <=? now)) (bad_marks d) with
      | Some i => i
      | None => first_min mark_until (bad_marks d)
      end
  end.

Definition tp_direct_bad_mark (d : tp_decisions) (host : list Z) (fp family now : Z)
  : tp_decisions :=
  if (fp =? NETFP_UNKNOWN) || (STRATEGY_DOMAIN_MAX <=? zlen host) then d else
  let i := mark_slot d host fp family now in
  set_marks d (<[i := mk_mark host fp family (now + TP_DIRECT_BAD_TTL_SECONDS)]> (bad_marks d)).

Definition tp_direct_bad (d : tp_decisions) (host : list Z) (fp family now : Z) : bool :=
  if fp =? NETFP_UNKNOWN then false else
  match mark_find d host fp family ≫= fun i => bad_marks d !! i with
  | Some m => now <? mark_until m
  | None => false
  end.

Definition tp_decisions_network_changed (d : tp_decisions) : tp_decisions :=
  mk_decisions (entries d) (cap d) (replicate TP_COOLDOWN_MAX zero_cooldown)
    (replicate TP_DIRECT_BAD_MAX zero_mark) (dirty d).

(** ** The code: the decisions file *)

(** [sscanf(line, "%255s %llx %d %31s %31s %lld", ...) == 6] *)
Definition scan_decision (line : list Z)
  : option (list Z * Z * Z * list Z * list Z * Z) :=
  '(host, r) ← scan_word 255 line;
  '(fp, r) ← scan_hex_rest r;
  '(family, r) ← scan_int_rest r;
  '(strat, r) ← scan_word 31 r;
  '(tgt, r) ← scan_word 31 r;
  '(validated, _) ← scan_dec_rest r;
  Some (host, fp, family, strat, tgt, validated).

(** [None] is the -1 return (nothing stored). *)
Definition tp_parse_line (grow : bool) (d : tp_decisions) (line : list Z) : option tp_decisions :=
  match scan_decision line with
  | None => None
  | Some (host, fp, family, strat, tgt, validated) =>
      if (negb (family =? 4) && negb (family =? 6)) || (fp =? NETFP_UNKNOWN) then None else
      match strategy_from_name strat with
      | None => None
      | Some s =>
          if negb (bool_decide (s = STRATEGY_PASS)) && negb (bool_decide (s = STRATEGY_TLSREC))
             && negb (bool_decide (s = STRATEGY_TLSREC_SPLIT)) then None else
          let t :=
            if bool_decide (tgt = str "original") then Some TP_TARGET_ORIGINAL
            else if bool_decide (tgt = str "trusted") then Some TP_TARGET_TRUSTED
            else None in
          match t with
          | None => None
          | Some t =>
              if bool_decide (mk_step t s = DIRECT) then None
              else store_decision grow d host fp family (mk_step t s) validated
          end
      end
  end.

(** [while (line[i] == ' ' || line[i] == '\t' || line[i] == '\r') i++] *)
Fixpoint skip_lead (line : list Z) : list Z :=
  match line with
  | c :: line' => if (c =? 32) || (c =? 9) || (c =? 13) then skip_lead line' else line
  | [] => []
  end.

(** One round of the loop over the text; [grow] says whether [realloc]
    succeeds in a given state. *)
Definition decisions_parse_step (grow : tp_decisions -> bool) (st : (tp_decisions * Z) * list Z)
  : res unit (((tp_decisions * Z) * list Z) + (tp_decisions * Z)) :=
  let '((d, skipped), text) := st in
  match text with
  | [] => Ok (inr (d, skipped))
  | _ =>
      let '(line, rest) := read_line 511 text in
      let rest := drop 1 (skip_to_newline rest) in
      let line := skip_lead (cstr line) in
      if (zlen line =? 0) || (bget line 0 =? 35) then Ok (inl ((d, skipped), rest)) else
      match tp_parse_line (grow d) d line with
      | Some d => Ok (inl ((d, skipped), rest))
      | None => Ok (inl ((d, skipped + 1), rest))
      end
  end.

Definition tp_decisions_parse (grow : tp_decisions -> bool) (d : tp_decisions) (text : list Z)
  : res unit (tp_decisions * Z) :=
  '(d, skipped) ← loop (S (length text)) (decisions_parse_step grow) ((d, 0), text);
  Ok (set_entries d (entries d) false, skipped).

Definition decisions_header : list Z :=
  str "# dpi-proxyd decisions: host fingerprint family strategy target validated_at" ++ [10].

Definition decision_line (e : tp_decision) : list Z :=
  dec_host e ++ 32 :: hex_digits 16 (dec_fingerprint e) ++ 32 :: print_dec (dec_family e) ++
  32 :: strategy_name (step_strategy (dec_step e)) ++
  32 :: tp_target_name (target (dec_step e)) ++ 32 :: print_dec (dec_validated_at e) ++ [10].

(** What is written so far; the empty text is the 0 return. *)
Fixpoint serialize_entries (out_size : Z) (used : list Z) (es : list tp_decision) : list Z :=
  match es with
  | [] => used
  | e :: es' =>
      let line := decision_line e in
      if out_size - zlen used <=? zlen line then []
      else serialize_entries out_size (used ++ line) es'
  end.

Definition tp_decisions_serialize (d : tp_decisions) (out_size : Z) : list Z :=
  if out_size <=? zlen decisions_header then []
  else serialize_entries out_size decisions_header (entries d).

(** ** Keys *)

Definition cd_key (c : tp_cooldown) : option (list Z) :=
  if zlen (cd_host c) =? 0 then None else Some (lower (cd_host c)).

Definition host_key (h : list Z) (fp family : Z) : list Z * Z * Z := (lower h, fp, family).

Definition mark_key (m : tp_mark) : option (list Z * Z * Z) :=
  if zlen (mark_host m) =? 0 then None
  else Some (host_key (mark_host m) (mark_fingerprint m) (mark_family m)).

Definition dec_key (e : tp_decision) : list Z * Z * Z :=
  host_key (dec_host e) (dec_fingerprint e) (dec_family e).

(** The code's tests are tests on these keys. *)
Lemma key_test h fp family h' fp' family' :
  (fp =? fp') && (family =? family') && ieq h h'
  = bool_decide (host_key h fp family = host_key h' fp' family').
Proof.
  apply eq_iff_eq_true. rewrite bool_decide_eq_true, !andb_true_iff, !Z.eqb_eq, ieq_true.
  unfold host_key. split; [by intros [[-> ->] ->]|]. intros E. by injection E.
Qed.

Lemma cooldown_find_slot d h : cooldown_find d h = slot_idx cd_key (lower h) (cooldown d).
Proof.
  apply find_idx_ext. intros c. unfold host_is, cd_key. destruct (Z.eqb_spec (zlen (cd_host c)) 0).
  - by rewrite bool_decide_eq_false_2.
  - cbn. apply eq_iff_eq_true. rewrite bool_decide_eq_true, ieq_true. split; congruence.
Qed.

Lemma mark_find_slot d h fp family :
  mark_find d h fp family = slot_idx mark_key (host_key h fp family) (bad_marks d).
Proof.
  apply find_idx_ext. intros m. unfold mark_key. destruct (Z.eqb_spec (zlen (mark_host m)) 0).
  - by rewrite bool_decide_eq_false_2.
  - cbn. rewrite key_test. apply bool_decide_ext. split; congruence.
Qed.

Lemma cooldown_slot_pick d h now :
  cooldown_slot d h now = slot_pick cd_key cd_until cd_until (lower h) now (cooldown d).
Proof.
  unfold cooldown_slot, slot_pick. rewrite cooldown_find_slot.
  by rewrite (find_idx_ext _ _ _ (fun c => free_test (cd_host c) (lower (cd_host c)) (cd_until c) now)).
Qed.

Lemma mark_slot_pick d h fp family now :
  mark_slot d h fp family now
  = slot_pick mark_key mark_until mark_until (host_key h fp family) now (bad_marks d).
Proof.
  unfold mark_slot, slot_pick. rewrite mark_find_slot.
  by rewrite (find_idx_ext _ _ _ (fun m => free_test (mark_host m)
    (host_key (mark_host m) (mark_fingerprint m) (mark_family m)) (mark_until m) now)).
Qed.

Lemma tp_in_cooldown_live d h now :
  tp_in_cooldown d h now = slot_live cd_key cd_until (lower h) now (cooldown d).
Proof. unfold tp_in_cooldown, slot_live. by rewrite cooldown_find_slot. Qed.

Lemma tp_direct_bad_live d h fp family now :
  fp <> NETFP_UNKNOWN ->
  tp_direct_bad d h fp family now
  = slot_live mark_key mark_until (host_key h fp family) now (bad_marks d).
Proof.
  intros H. unfold tp_direct_bad, slot_live. rewrite mark_find_slot.
  by rewrite (proj2 (Z.eqb_neq _ _) H).
Qed.

(** ** The invariant and the abstract map *)

Definition stored_ok (e : tp_decision) : Prop :=
  dec_fingerprint e <> NETFP_UNKNOWN /\ dec_step e <> DIRECT /\
  zlen (dec_host e) < STRATEGY_DOMAIN_MAX.

Record decisions_ok (d : tp_decisions) : Prop := {
  do_count : zlen (entries d) <= cap d;
  do_cap : cap d <= TP_DECISIONS_MAX;
  do_keys : NoDup (map dec_key (entries d));
  do_stored : Forall stored_ok (entries d);
  do_cd_len : length (cooldown d) = TP_COOLDOWN_MAX;
  do_cd : slots_unique cd_key (cooldown d);
  do_marks_len : length (bad_marks d) = TP_DIRECT_BAD_MAX;
  do_marks : slots_unique mark_key (bad_marks d)
}.

(** What a table of decisions means: for a host (up to case), a network and
    an address family, the step that worked and when. *)
Definition decision_val (e : tp_decision) : tp_step * Z := (dec_step e, dec_validated_at e).

Definition decision_map (es : list tp_decision) : gmap (list Z * Z * Z) (tp_step * Z) :=
  list_to_map (map (fun e => (dec_key e, decision_val e)) es).

Lemma decision_map_fst es : (map (fun e => (dec_key e, decision_val e)) es).*1 = map dec_key es.
Proof. induction es as [|e es IH]; cbn; [done|]. by f_equal. Qed.

Lemma decision_map_cons e es :
  decision_map (e :: es) = <[dec_key e := decision_val e]> (decision_map es).
Proof. done. Qed.

Lemma decision_map_perm es es' :
  NoDup (map dec_key es) -> es ≡ₚ es' -> decision_map es = decision_map es'.
Proof.
  intros Hn Hp. apply list_to_map_proper; [by rewrite decision_map_fst|]. by rewrite Hp.
Qed.

Lemma decision_map_None es k : decision_map es !! k = None <-> k ∉ map dec_key es.
Proof. unfold decision_map. rewrite <- not_elem_of_list_to_map, decision_map_fst. done. Qed.

Lemma decision_map_Some es e :
  NoDup (map dec_key es) -> e ∈ es -> decision_map es !! dec_key e = Some (decision_val e).
Proof.
  intros Hn He. apply elem_of_list_to_map_1; [by rewrite decision_map_fst|].
  by apply (list_elem_of_fmap_2 (fun e => (dec_key e, decision_val e))).
Qed.

Lemma decision_map_inv es k v :
  decision_map es !! k = Some v -> exists e, e ∈ es /\ k = dec_key e /\ v = decision_val e.
Proof.
  intros H%elem_of_list_to_map_2. apply list_elem_of_fmap in H as (e & E & He).
  injection E as -> ->. by exists e.
Qed.

(** Taking the [i]-th entry out, and putting another in its place. *)
Lemma list_middle {A} (l : list A) (i : nat) x :
  l !! i = Some x ->
  exists rest, l ≡ₚ x :: rest /\ forall y, <[i := y]> l ≡ₚ y :: rest.
Proof.
  intros Hx. exists (take i l ++ drop (S i) l). split.
  - rewrite <- (take_drop_middle l i x Hx) at 1. by rewrite Permutation_middle.
  - intros y. rewrite insert_take_drop by (by eapply lookup_lt_Some).
    by rewrite Permutation_middle.
Qed.

Lemma swap_remove_perm {A} (l : list A) (i : nat) x z :
  l !! i = Some x -> l !! (length l - 1)%nat = Some z ->
  l ≡ₚ x :: take (length l - 1) (<[i := z]> l).
Proof.
  intros Hx Hz. destruct (list_middle l i x Hx) as (rest & H1 & H2).
  assert (Hl : length (<[i := z]> l) = length l) by apply length_insert.
  assert (Hlast : <[i := z]> l !! (length l - 1)%nat = Some z).
  { apply lookup_lt_Some in Hx. destruct (decide (i = length l - 1)%nat) as [->|Hne].
    - by apply list_lookup_insert_eq.
    - by rewrite list_lookup_insert_ne. }
  set (m := <[i := z]> l) in *.
  assert (Hm : m = take (length l - 1) m ++ [z]).
  { rewrite <- (take_S_r _ _ z) by done. apply lookup_lt_Some in Hx.
    replace (S (length l - 1)) with (length m) by lia. by rewrite firstn_all. }
  etransitivity; [exact H1|]. apply Permutation_skip. specialize (H2 z). fold m in H2. rewrite Hm in H2.
  rewrite Permutation_app_comm in H2. cbn [app] in H2.
  apply Permutation_cons_inv in H2. by symmetry.
Qed.

(** ** The operations on the map *)

Lemma decision_find_spec d h fp family :
  match decision_find d h fp family with
  | Some i => exists e, entries d !! i = Some e /\ dec_key e = host_key h fp family
  | None => host_key h fp family ∉ map dec_key (entries d)
  end.
Proof.
  unfold decision_find.
  rewrite (find_idx_ext _ _ _ (fun e => key_test (dec_host e) (dec_fingerprint e) (dec_family e) h fp family)).
  destruct (find_idx _ _) as [i|] eqn:E.
  - apply find_idx_Some in E as (e & He & Hk & _). apply bool_decide_eq_true in Hk. by exists e.
  - rewrite find_idx_None in E. intros (e & Hk & He)%list_elem_of_fmap.
    apply list_elem_of_lookup in He as [i Hi]. specialize (E i e Hi).
    apply bool_decide_eq_false in E. by destruct E.
Qed.

Lemma tp_decision_lookup_map d h fp family now :
  NoDup (map dec_key (entries d)) ->
  decision_val <$> tp_decision_lookup d h fp family now =
  match decision_map (entries d) !! host_key h fp family with
  | Some (s, v) =>
      if negb (fp =? NETFP_UNKNOWN) && (v <=? now) && (now - v <? TP_DECISION_TTL_SECONDS)
      then Some (s, v) else None
  | None => None
  end.
Proof.
  intros Hn. unfold tp_decision_lookup. pose proof (decision_find_spec d h fp family) as Hf.
  destruct (decision_find d h fp family) as [i|].
  - destruct Hf as (e & Hi & Hk). rewrite Hi, <- Hk.
    rewrite decision_map_Some by (done || by eapply list_elem_of_lookup_2).
    unfold decision_val at 2, fresh. injection Hk as _ Hfp _. rewrite Hfp, Z.eqb_refl, andb_true_r.
    by destruct (_ && _).
  - apply decision_map_None in Hf. by rewrite Hf.
Qed.

(** Only the entries change. *)
Lemma decisions_ok_entries d es dirty :
  decisions_ok d -> zlen es <= cap d -> NoDup (map dec_key es) -> Forall stored_ok es ->
  decisions_ok (set_entries d es dirty).
Proof. intros []. by split. Qed.

Lemma decision_map_delete e es :
  NoDup (map dec_key (e :: es)) ->
  decision_map es = delete (dec_key e) (decision_map (e :: es)).
Proof.
  intros [Hn _]%NoDup_cons. rewrite decision_map_cons, delete_insert_id; [done|].
  by apply decision_map_None.
Qed.

Lemma remove_entry_ok d (i : nat) e :
  decisions_ok d -> entries d !! i = Some e ->
  decisions_ok (remove_entry d i) /\
  cooldown (remove_entry d i) = cooldown d /\ bad_marks (remove_entry d i) = bad_marks d /\
  decision_map (entries (remove_entry d i)) = delete (dec_key e) (decision_map (entries d)).
Proof.
  intros Hd Hi. unfold remove_entry. pose proof (lookup_lt_Some _ _ _ Hi) as Hlt.
  destruct (lookup_lt_is_Some_2 (entries d) (length (entries d) - 1)) as [z Hz]; [lia|].
  rewrite Hz. pose proof (swap_remove_perm _ _ _ _ Hi Hz) as Hp.
  set (es := take _ _) in *. pose proof (do_keys d Hd) as Hn.
  assert (Hn' : NoDup (map dec_key (e :: es))) by (by rewrite <- Hp).
  pose proof (do_stored d Hd) as Hs. rewrite Hp in Hs.
  refine (conj _ (conj eq_refl (conj eq_refl _))).
  - apply decisions_ok_entries; [done| |by apply NoDup_cons in Hn' as [_ ?]|by inversion Hs].
    pose proof (do_count d Hd). apply Permutation_length in Hp. unfold zlen in *.
    cbn [length] in Hp. lia.
  - cbn [entries set_entries]. rewrite (decision_map_delete e es Hn').
    f_equal. by apply decision_map_perm.
Qed.

(** A new decision: the array grows, or the entry validated longest ago goes,
    or (no entry and no memory) nothing happens. *)
Lemma new_slot_spec grow d :
  zlen (entries d) <= cap d ->
  match new_slot grow d with
  | None => grow = false /\ entries d = []
  | Some (i, d') =>
      cooldown d' = cooldown d /\ bad_marks d' = bad_marks d /\
      ((exists c, d' = set_entries (set_cap d c) (entries d ++ [zero_decision]) (dirty d) /\
         i = length (entries d) /\ zlen (entries d) < c /\
         (cap d <= TP_DECISIONS_MAX -> c <= TP_DECISIONS_MAX)) \/
       (d' = d /\ (grow = false \/ TP_DECISIONS_MAX <= zlen (entries d)) /\
        exists e, entries d !! i = Some e /\
          forall x, x ∈ entries d -> dec_validated_at e <= dec_validated_at x))
  end.
Proof.
  intros Hc. unfold new_slot, TP_DECISIONS_MAX. fold (zlen (entries d)).
  pose proof (zlen_nonneg (entries d)) as H0.
  assert (Hevict : entries d <> [] -> exists e, entries d !! first_min dec_validated_at (entries d) = Some e
            /\ forall x, x ∈ entries d -> dec_validated_at e <= dec_validated_at x)
    by apply first_min_spec.
  destruct (Z.ltb_spec (zlen (entries d)) (cap d)).
  { split; [done|]. split; [done|]. left. exists (cap d). by destruct d. }
  destruct (Z.ltb_spec (cap d) 2048).
  - destruct grow.
    + refine (conj eq_refl (conj eq_refl (or_introl _))). eexists. split; [reflexivity|].
      split; [done|]. destruct (Z.eqb_spec (cap d) 0) as [E|E].
      * change (2048 <? 16) with false. cbv iota. lia.
      * destruct (Z.ltb_spec 2048 (cap d * 2)); lia.
    + destruct (entries d) as [|e0 es] eqn:E; cbn [length Nat.eqb]; [done|].
      rewrite <- E. refine (conj eq_refl (conj eq_refl (or_intror _))).
      split; [done|]. split; [by left|]. rewrite E. by apply Hevict.
  - refine (conj eq_refl (conj eq_refl (or_intror _))). split; [done|].
    split; [right; lia|]. apply Hevict. intros E. rewrite E in *.
    change (zlen (@nil tp_decision)) with 0 in *. lia.
Qed.

(** The specification of storing [v] under [k]. *)
Inductive stored (grow : bool) (k : list Z * Z * Z) (v : tp_step * Z)
    (m : gmap (list Z * Z * Z) (tp_step * Z)) : gmap (list Z * Z * Z) (tp_step * Z) -> Prop :=
| stored_update :
    is_Some (m !! k) -> stored grow k v m (<[k := v]> m)
| stored_insert :
    m !! k = None -> Z.of_nat (size m) < TP_DECISIONS_MAX -> stored grow k v m (<[k := v]> m)
| stored_evict k' v' :
    m !! k = None -> m !! k' = Some v' ->
    (forall k'' v'', m !! k'' = Some v'' -> v'.2 <= v''.2) ->
    grow = false \/ Z.of_nat (size m) = TP_DECISIONS_MAX ->
    stored grow k v m (<[k := v]> (delete k' m))
| stored_no_memory :
    grow = false -> m = ∅ -> stored grow k v m m.

Lemma decision_map_size es :
  NoDup (map dec_key es) -> Z.of_nat (size (decision_map es)) = zlen es.
Proof.
  intros Hn. unfold zlen. f_equal. induction es as [|e es IH]; [done|].
  rewrite decision_map_cons. cbn [map] in Hn. apply NoDup_cons in Hn as [Hn1 Hn2].
  rewrite map_size_insert_None by (by apply decision_map_None). cbn [length]. by rewrite IH.
Qed.

Lemma replace_entry_ok d (i : nat) e e' b :
  decisions_ok d -> entries d !! i = Some e -> stored_ok e' ->
  dec_key e' = dec_key e \/ dec_key e' ∉ map dec_key (entries d) ->
  decisions_ok (set_entries d (<[i := e']> (entries d)) b) /\
  decision_map (<[i := e']> (entries d))
    = <[dec_key e' := decision_val e']> (delete (dec_key e) (decision_map (entries d))).
Proof.
  intros Hd Hi He' Hk. destruct (list_middle _ _ _ Hi) as (rest & Hp & Hp'). specialize (Hp' e').
  pose proof (do_keys d Hd) as Hn. rewrite Hp in Hn. pose proof (do_stored d Hd) as Hs.
  rewrite Hp in Hs. inversion Hs as [|? ? _ Hs']; subst.
  assert (Hnr : dec_key e' ∉ map dec_key rest).
  { cbn [map] in Hn. destruct Hk as [->|Hk]; [by apply NoDup_cons in Hn as [? _]|].
    intros Hin. apply Hk. rewrite Hp. cbn [map]. by right. }
  assert (Hn' : NoDup (map dec_key (e' :: rest))).
  { cbn [map] in *. apply NoDup_cons in Hn as [_ ?]. by apply NoDup_cons. }
  assert (Hmap : decision_map (entries d) = decision_map (e :: rest)).
  { apply decision_map_perm; [apply Hd|done]. }
  split.
  - apply decisions_ok_entries; [done| | |].
    + unfold zlen. rewrite length_insert. apply Hd.
    + by rewrite Hp'.
    + rewrite Hp'. by constructor.
  - rewrite (decision_map_perm _ (e' :: rest)) by (done || by rewrite Hp').
    by rewrite decision_map_cons, Hmap, <- decision_map_delete.
Qed.

Lemma store_decision_ok grow d h fp family step v d' :
  decisions_ok d -> fp <> NETFP_UNKNOWN -> zlen h < STRATEGY_DOMAIN_MAX -> step <> DIRECT ->
  store_decision grow d h fp family step v = Some d' ->
  decisions_ok d' /\ cooldown d' = cooldown d /\ bad_marks d' = bad_marks d /\
  stored grow (host_key h fp family) (step, v) (decision_map (entries d)) (decision_map (entries d')).
Proof.
  intros Hd Hfp Hh Hst. unfold store_decision. pose proof (decision_find_spec d h fp family) as Hf.
  pose proof (do_keys d Hd) as Hn. pose proof (do_stored d Hd) as Hs. pose proof (do_count d Hd) as Hc.
  set (e' := mk_decision h fp family step v 0).
  assert (He' : stored_ok e') by done.
  destruct (decision_find d h fp family) as [i|].
  - destruct Hf as (e & Hi & Hk). rewrite Hi. cbn [mbind option_bind]. intros [= <-].
    assert (He : e ∈ entries d) by (by eapply list_elem_of_lookup_2).
    destruct (replace_entry_ok d i e (mk_decision (dec_host e) (dec_fingerprint e) (dec_family e)
      step v (dec_quic_blocked_at e)) (dirty d)) as [H1 H2]; [done|done| |by left|].
    { rewrite Forall_forall in Hs. destruct (Hs e He) as (? & _ & ?). done. }
    refine (conj H1 (conj eq_refl (conj eq_refl _))). cbn [entries set_entries].
    change (dec_key (mk_decision _ _ _ _ _ _)) with (dec_key e) in H2.
    rewrite H2, insert_delete_eq, Hk. apply stored_update. exists (decision_val e).
    rewrite <- Hk. by apply decision_map_Some.
  - pose proof (new_slot_spec grow d Hc) as Hns. destruct (new_slot grow d) as [[i d0]|]; [|done].
    intros [= <-]. destruct Hns as (Hcd & Hmk & [(c & -> & -> & Hroom & Hcap)|(-> & Hfull & e & Hi & Hold)]).
    + cbn [entries set_entries set_cap cooldown bad_marks dirty].
      assert (E : <[length (entries d) := e']> (entries d ++ [zero_decision]) = entries d ++ [e']).
      { rewrite insert_app_r_alt by lia. by rewrite Nat.sub_diag. }
      fold e'. rewrite E. assert (Hp : entries d ++ [e'] ≡ₚ e' :: entries d)
        by (rewrite Permutation_app_comm; done).
      assert (Hn' : NoDup (map dec_key (e' :: entries d))) by (cbn [map]; by apply NoDup_cons).
      refine (conj _ (conj eq_refl (conj eq_refl _))).
      * destruct Hd as [? Hcapd ? ? ? ? ? ?]. specialize (Hcap Hcapd). split; try done.
        -- cbn [entries cap set_entries set_cap]. rewrite zlen_app, zlen_cons. change (zlen (@nil tp_decision)) with 0. lia.
        -- cbn [entries set_entries]. by rewrite Hp.
        -- cbn [entries set_entries]. rewrite Hp. by constructor.
      * rewrite (decision_map_perm (entries d ++ [e']) (e' :: entries d)) by (done || by rewrite Hp).
        apply stored_insert; [by apply decision_map_None|].
        rewrite decision_map_size by done. specialize (Hcap (do_cap d Hd)). lia.
    + fold e'. destruct (replace_entry_ok d i e e' (dirty d)) as [H1 H2]; [done|done|done|by right|].
      refine (conj H1 (conj eq_refl (conj eq_refl _))). cbn [entries set_entries].
      rewrite H2. apply (stored_evict _ _ _ _ _ (decision_val e)).
      * by apply decision_map_None.
      * apply decision_map_Some; [done|]. by eapply list_elem_of_lookup_2.
      * intros k'' v'' (x & Hx & -> & ->)%decision_map_inv. by apply Hold.
      * destruct Hfull as [?|?]; [by left|right]. rewrite decision_map_size by done.
        pose proof (do_cap d Hd). lia.
Qed.

(** Clearing a host's cooldown touches nothing else. *)
Lemma clear_cooldown_ok d h :
  decisions_ok d ->
  decisions_ok (clear_cooldown d h) /\ entries (clear_cooldown d h) = entries d /\
  bad_marks (clear_cooldown d h) = bad_marks d /\
  forall x t, tp_in_cooldown (clear_cooldown d h) x t
              = if ieq h x then false else tp_in_cooldown d x t.
Proof.
  intros Hd. unfold clear_cooldown. rewrite cooldown_find_slot. unfold slot_idx.
  destruct (find_idx _ (cooldown d)) as [i|] eqn:E.
  - apply find_idx_Some in E as (c & Hc & Hk & _). apply bool_decide_eq_true in Hk.
    set (f := fun c => mk_cooldown [] (cd_until c)).
    assert (Hl : forall j b, alter f i (cooldown d) !! j = Some b ->
              (j = i /\ cd_key b = None) \/ (j <> i /\ cooldown d !! j = Some b)).
    { intros j b Hj. destruct (decide (i = j)) as [<-|Hne].
      - left. rewrite list_lookup_alter_eq, Hc in Hj. cbn in Hj. by injection Hj as <-.
      - right. rewrite list_lookup_alter_ne in Hj by done. done. }
    assert (Hu : slots_unique cd_key (alter f i (cooldown d))).
    { intros j1 j2 b1 b2 k H1 H2 K1 K2.
      destruct (Hl _ _ H1) as [[-> ?]|[N1 L1]], (Hl _ _ H2) as [[-> ?]|[N2 L2]]; try congruence.
      by eapply (do_cd d Hd). }
    split; [|split; [done|split; [done|]]].
    + destruct Hd as [? ? ? ? Hcd ? ? ?]. split; try done. cbn [cooldown set_cooldown].
      by rewrite length_alter.
    + intros x t. rewrite !tp_in_cooldown_live. cbn [cooldown set_cooldown].
      apply eq_iff_eq_true. rewrite slot_live_true by done.
      destruct (ieq h x) eqn:Ex.
      * apply ieq_true in Ex. split; [|done]. intros (b & Hb & Hkb & _).
        apply list_elem_of_lookup in Hb as [j Hj]. destruct (Hl _ _ Hj) as [[_ ?]|[N L]]; [congruence|].
        destruct N. rewrite <- Ex in Hkb. by eapply (do_cd d Hd).
      * apply ieq_false in Ex. rewrite slot_live_true by apply Hd.
        split; intros (b & Hb & Hkb & Ht); exists b; (split; [|done]);
          apply list_elem_of_lookup in Hb as [j Hj]; apply list_elem_of_lookup; exists j.
        -- destruct (Hl _ _ Hj) as [[_ ?]|[N L]]; [congruence|done].
        -- rewrite list_lookup_alter_ne; [done|]. intros <-. congruence.
  - rewrite find_idx_None in E. split; [done|]. split; [done|]. split; [done|].
    intros x t. destruct (ieq h x) eqn:Ex; [|done]. apply ieq_true in Ex.
    rewrite tp_in_cooldown_live. apply not_true_iff_false.
    rewrite slot_live_true by apply Hd. intros (b & Hb & Hkb & _).
    apply list_elem_of_lookup in Hb as [j Hj]. specialize (E j b Hj).
    apply bool_decide_eq_false in E. congruence.
Qed.

Lemma tp_decision_success_spec grow d h fp family now step :
  decisions_ok d ->
  let d' := tp_decision_success grow d h fp family now step in
  let k := host_key h fp family in
  let m := decision_map (entries d) in
  let m' := decision_map (entries d') in
  decisions_ok d' /\ bad_marks d' = bad_marks d /\
  (forall x t, tp_in_cooldown d' x t = if ieq h x then false else tp_in_cooldown d x t) /\
  if (fp =? NETFP_UNKNOWN) || (STRATEGY_DOMAIN_MAX <=? zlen h) then m' = m
  else if bool_decide (step = DIRECT) then m' = delete k m
  else (exists v, m !! k = Some (step, v) /\ v <= now < v + TP_DECISION_TTL_SECONDS / 2 /\ m' = m)
       \/ stored grow k (step, now) m m'.
Proof.
  intros Hd0. destruct (clear_cooldown_ok d h Hd0) as (Hd & He & Hb & Hcd).
  cbv zeta. unfold tp_decision_success. rewrite <- He, <- Hb.
  set (d1 := clear_cooldown d h) in *. clearbody d1.
  assert (Hkeep : forall d', cooldown d' = cooldown d1 ->
    forall x t, tp_in_cooldown d' x t = if ieq h x then false else tp_in_cooldown d x t).
  { intros d' E x t. rewrite <- Hcd, !tp_in_cooldown_live. by rewrite E. }
  destruct (_ || _) eqn:Hskip; [done|].
  apply orb_false_elim in Hskip as [Hfp Hlen]. apply Z.eqb_neq in Hfp. apply Z.leb_gt in Hlen.
  pose proof (decision_find_spec d1 h fp family) as Hf. pose proof (do_keys d1 Hd) as Hn.
  case_bool_decide as Hdir.
  { destruct (decision_find d1 h fp family) as [i|].
    - destruct Hf as (e & Hi & Hk). destruct (remove_entry_ok d1 i e Hd Hi) as (H1 & H2 & H3 & H4).
      split; [done|]. split; [done|]. split; [by apply Hkeep|]. by rewrite H4, Hk.
    - split; [done|]. split; [done|]. split; [by apply Hkeep|].
      apply decision_map_None in Hf. by rewrite delete_id. }
  destruct (match decision_find d1 h fp family ≫= _ with Some e => _ | None => false end) eqn:Hrec.
  { destruct (decision_find d1 h fp family) as [i|]; [|done]. destruct Hf as (e & Hi & Hk).
    cbn [mbind option_bind] in Hrec. rewrite Hi in Hrec. unfold fresh in Hrec.
    apply andb_prop in Hrec as [[Hfr Hst%bool_decide_eq_true]%andb_prop Hhalf]. zbool.
    split; [done|]. split; [done|]. split; [by apply Hkeep|]. left. exists (dec_validated_at e).
    split; [|split; [lia|done]]. rewrite <- Hk, decision_map_Some; [|done|by eapply list_elem_of_lookup_2].
    unfold decision_val. congruence. }
  destruct (store_decision grow d1 h fp family step now) as [d'|] eqn:Es.
  - destruct (store_decision_ok _ _ _ _ _ _ _ _ Hd Hfp Hlen Hdir Es) as (H1 & H2 & H3 & H4).
    split; [by destruct H1|]. split; [done|]. split; [by apply Hkeep|]. by right.
  - split; [done|]. split; [done|]. split; [by apply Hkeep|]. right.
    unfold store_decision in Es. destruct (decision_find d1 h fp family) as [i|].
    { destruct Hf as (e & Hi & _). by rewrite Hi in Es. }
    pose proof (new_slot_spec grow d1 (do_count d1 Hd)) as Hns.
    destruct (new_slot grow d1) as [[i d']|]; [done|]. destruct Hns as [-> E].
    apply stored_no_memory; [done|]. by rewrite E.
Qed.

(** C16: recording that a step worked refines an update of a finite map from
    (host up to case, network, family) to (step, time). Under an unknown
    network or for an over-long name nothing is stored; DIRECT removes the
    decision; the same step confirmed less than half its lifetime ago changes
    nothing; any other step is stored, replacing the host's decision, or in
    free room, or in place of the entry validated longest ago when the table
    holds 2048 (or memory ran out). The host's cooldown, and no other, is
    cleared, and the table stays well-formed: at most 2048 entries, no key
    twice, never DIRECT, never under an unknown network. *)
Theorem tp_decision_success_refines grow d h fp family now step :
  decisions_ok d ->
  let d' := tp_decision_success grow d h fp family now step in
  let k := host_key h fp family in
  let m := decision_map (entries d) in
  let m' := decision_map (entries d') in
  decisions_ok d' /\ bad_marks d' = bad_marks d /\
  (forall x t, tp_in_cooldown d' x t = if ieq h x then false else tp_in_cooldown d x t) /\
  if (fp =? NETFP_UNKNOWN) || (STRATEGY_DOMAIN_MAX <=? zlen h) then m' = m
  else if bool_decide (step = DIRECT) then m' = delete k m
  else (exists v, m !! k = Some (step, v) /\ v <= now < v + TP_DECISION_TTL_SECONDS / 2 /\ m' = m)
       \/ stored grow k (step, now) m m'.
Proof. exact (tp_decision_success_spec grow d h fp family now step). Qed.

(** ** Cooldowns and marks *)

Lemma tp_decisions_init_ok : decisions_ok tp_decisions_init.
Proof.
  split; try done; try (by constructor);
    intros i j a b k Ha%lookup_replicate Hb%lookup_replicate; by destruct Ha as [-> _].
Qed.

Lemma cd_key_host h u : 0 < zlen h -> cd_key (mk_cooldown h u) = Some (lower h).
Proof. intros. unfold cd_key. cbn [cd_host]. by rewrite (proj2 (Z.eqb_neq _ _)) by lia. Qed.

Lemma mark_key_host h fp family u :
  0 < zlen h -> mark_key (mk_mark h fp family u) = Some (host_key h fp family).
Proof. intros. unfold mark_key. cbn. by rewrite (proj2 (Z.eqb_neq _ _)) by lia. Qed.

Lemma decisions_ok_cooldown d l :
  decisions_ok d -> length l = TP_COOLDOWN_MAX -> slots_unique cd_key l ->
  decisions_ok (set_cooldown d l).
Proof. intros []. by split. Qed.

Lemma decisions_ok_marks d l :
  decisions_ok d -> length l = TP_DIRECT_BAD_MAX -> slots_unique mark_key l ->
  decisions_ok (set_marks d l).
Proof. intros []. by split. Qed.

Lemma nonempty_length {A} (l : list A) n : length l = S n -> l <> [].
Proof. by destruct l. Qed.

(** Whatever the host, a failure only deletes. *)
Lemma tp_decision_failure_map d h fp family now :
  decisions_ok d -> 0 < zlen h ->
  decisions_ok (tp_decision_failure d h fp family now) /\
  decision_map (entries (tp_decision_failure d h fp family now))
    = delete (host_key h fp family) (decision_map (entries d)).
Proof.
  intros Hd Hh. unfold tp_decision_failure.
  set (d1 := if zlen h <? STRATEGY_DOMAIN_MAX then _ else d).
  assert (Hd1 : decisions_ok d1 /\ entries d1 = entries d).
  { unfold d1. destruct (zlen h <? STRATEGY_DOMAIN_MAX); [|done]. split; [|done].
    rewrite cooldown_slot_pick.
    destruct (slot_take cd_key cd_until cd_until (lower h) now (cooldown d)
      (mk_cooldown h (now + TP_COOLDOWN_SECONDS)) (nonempty_length _ _ (do_cd_len d Hd)) (do_cd d Hd)
      (cd_key_host _ _ Hh)) as (Hu & _).
    apply decisions_ok_cooldown; [done| |done]. rewrite length_insert. apply Hd. }
  destruct Hd1 as [Hd1 He]. rewrite <- He. clearbody d1.
  pose proof (decision_find_spec d1 h fp family) as Hf.
  destruct (decision_find d1 h fp family) as [i|].
  - destruct Hf as (e & Hi & <-). by destruct (remove_entry_ok d1 i e Hd1 Hi) as (? & _ & _ & ?).
  - split; [done|]. apply decision_map_None in Hf. by rewrite delete_id.
Qed.

(** When every attempt for a host failed, its decision for this network
    and family is dropped, and the host (up to case) is in cooldown for
    exactly the next 60 seconds. No other host enters cooldown; from [now] on
    every other host's cooldown is as before, unless all 64 slots hold live
    cooldowns of other hosts. The table stays well-formed. *)
Theorem tp_decision_failure_cooldown d h fp family now :
  decisions_ok d -> 0 < zlen h < STRATEGY_DOMAIN_MAX ->
  let d' := tp_decision_failure d h fp family now in
  decisions_ok d' /\ bad_marks d' = bad_marks d /\
  decision_map (entries d') = delete (host_key h fp family) (decision_map (entries d)) /\
  (forall x t, ieq h x = true -> tp_in_cooldown d' x t = (t <? now + TP_COOLDOWN_SECONDS)) /\
  (forall x t, ieq h x = false -> tp_in_cooldown d' x t = true -> tp_in_cooldown d x t = true) /\
  (forall x t, ieq h x = false -> now <= t ->
     slots_room cd_key cd_until (lower h) now (cooldown d) ->
     tp_in_cooldown d' x t = tp_in_cooldown d x t).
Proof.
  intros Hd Hh. cbv zeta. unfold tp_decision_failure.
  rewrite (proj2 (Z.ltb_lt _ _)) by lia. rewrite cooldown_slot_pick.
  pose proof (slot_take cd_key cd_until cd_until (lower h) now (cooldown d)
    (mk_cooldown h (now + TP_COOLDOWN_SECONDS)) (nonempty_length _ _ (do_cd_len d Hd)) (do_cd d Hd)
    (cd_key_host _ _ (proj1 Hh))) as (Hu & Hk & Hmono & Hsame).
  set (l := <[slot_pick _ _ _ _ _ _ := _]> (cooldown d)) in *.
  assert (Hd1 : decisions_ok (set_cooldown d l)).
  { apply decisions_ok_cooldown; [done| |done]. unfold l. rewrite length_insert. apply Hd. }
  pose proof (decision_find_spec (set_cooldown d l) h fp family) as Hf.
  set (d' := match decision_find (set_cooldown d l) h fp family with Some i => _ | None => _ end).
  assert (Hd' : decisions_ok d' /\ cooldown d' = l /\ bad_marks d' = bad_marks d /\
    decision_map (entries d') = delete (host_key h fp family) (decision_map (entries d))).
  { unfold d'. destruct (decision_find (set_cooldown d l) h fp family) as [i|].
    - destruct Hf as (e & Hi & <-). destruct (remove_entry_ok _ i e Hd1 Hi) as (? & ? & ? & ?). done.
    - apply decision_map_None in Hf. rewrite delete_id by done. done. }
  clearbody d'. destruct Hd' as (H1 & H2 & H3 & H4).
  split; [done|]. split; [done|]. split; [done|].
  refine (conj _ (conj _ _)); intros x t Hx; rewrite !tp_in_cooldown_live, H2.
  - apply ieq_true in Hx. rewrite <- Hx. apply Hk.
  - apply Hmono. apply ieq_false in Hx. congruence.
  - intros Ht Hroom. apply Hsame; [|done|done]. apply ieq_false in Hx. congruence.
Qed.

Lemma tp_direct_bad_mark_ok d h fp family now :
  decisions_ok d -> 0 < zlen h ->
  decisions_ok (tp_direct_bad_mark d h fp family now) /\
  entries (tp_direct_bad_mark d h fp family now) = entries d.
Proof.
  intros Hd Hh. unfold tp_direct_bad_mark. destruct (_ || _); [done|]. split; [|done].
  rewrite mark_slot_pick.
  destruct (slot_take mark_key mark_until mark_until (host_key h fp family) now (bad_marks d)
    (mk_mark h fp family (now + TP_DIRECT_BAD_TTL_SECONDS))
    (nonempty_length _ _ (do_marks_len d Hd)) (do_marks d Hd) (mark_key_host _ _ _ _ Hh)) as (Hu & _).
  apply decisions_ok_marks; [done| |done]. rewrite length_insert. apply Hd.
Qed.

(** A mark that DIRECT is bad holds for exactly the host (up to case),
    network and family it was set for, for the next hour; under an unknown
    network nothing is marked or reported. No other key becomes marked, and
    from [now] on the other marks are as before, unless all 128 slots hold
    live marks of other keys. *)
Theorem tp_direct_bad_mark_holds d h fp family now :
  decisions_ok d -> 0 < zlen h < STRATEGY_DOMAIN_MAX -> fp <> NETFP_UNKNOWN ->
  let d' := tp_direct_bad_mark d h fp family now in
  let k := host_key h fp family in
  decisions_ok d' /\ entries d' = entries d /\ cooldown d' = cooldown d /\
  (forall x t, tp_direct_bad d' x NETFP_UNKNOWN family t = false) /\
  (forall x t, ieq h x = true ->
     tp_direct_bad d' x fp family t = (t <? now + TP_DIRECT_BAD_TTL_SECONDS)) /\
  (forall x fp' family' t, host_key x fp' family' <> k -> tp_direct_bad d' x fp' family' t = true ->
     tp_direct_bad d x fp' family' t = true) /\
  (forall x fp' family' t, host_key x fp' family' <> k -> now <= t ->
     slots_room mark_key mark_until k now (bad_marks d) ->
     tp_direct_bad d' x fp' family' t = tp_direct_bad d x fp' family' t).
Proof.
  intros Hd Hh Hfp. cbv zeta. unfold tp_direct_bad_mark.
  rewrite (proj2 (Z.eqb_neq _ _) Hfp), (proj2 (Z.leb_gt _ _)) by lia. cbn [orb].
  rewrite mark_slot_pick.
  pose proof (slot_take mark_key mark_until mark_until (host_key h fp family) now (bad_marks d)
    (mk_mark h fp family (now + TP_DIRECT_BAD_TTL_SECONDS))
    (nonempty_length _ _ (do_marks_len d Hd)) (do_marks d Hd)
    (mark_key_host _ _ _ _ (proj1 Hh))) as (Hu & Hk & Hmono & Hsame).
  set (l := <[slot_pick _ _ _ _ _ _ := _]> (bad_marks d)) in *.
  assert (Hz : forall d x family t, tp_direct_bad d x NETFP_UNKNOWN family t = false) by done.
  split.
  { apply decisions_ok_marks; [done| |done]. unfold l. rewrite length_insert. apply Hd. }
  split; [done|]. split; [done|]. split; [done|]. refine (conj _ (conj _ _)).
  - intros x t Hx. rewrite tp_direct_bad_live by done. apply ieq_true in Hx.
    unfold host_key in *. rewrite <- Hx. apply Hk.
  - intros x fp' family' t Hx. destruct (decide (fp' = NETFP_UNKNOWN)) as [->|Hn]; [done|].
    rewrite !tp_direct_bad_live by done. by apply Hmono.
  - intros x fp' family' t Hx Ht Hroom. destruct (decide (fp' = NETFP_UNKNOWN)) as [->|Hn]; [done|].
    rewrite !tp_direct_bad_live by done. by apply Hsame.
Qed.

Definition sample_decisions : tp_decisions :=
  mk_decisions
    [mk_decision (str "discord.com") 77 4 (mk_step TP_TARGET_ORIGINAL STRATEGY_TLSREC) 1000 0;
     mk_decision (str "example.org") 77 6 (mk_step TP_TARGET_TRUSTED STRATEGY_PASS) 2000 5] 16
    (replicate TP_COOLDOWN_MAX zero_cooldown) (replicate TP_DIRECT_BAD_MAX zero_mark) false.

Lemma sample_decisions_ok : decisions_ok sample_decisions.
Proof.
  destruct tp_decisions_init_ok as [_ _ _ _ H1 H2 H3 H4]. split; try done.
  - apply (bool_decide_unpack _). vm_compute. exact I.
  - repeat constructor; done.
Qed.

Lemma tp_decision_success_refines_witness :
  decisions_ok sample_decisions /\
  decision_map (entries (tp_decision_success true sample_decisions (str "Discord.com") 77 4 5000 DIRECT))
  = delete (str "discord.com", 77, 4) (decision_map (entries sample_decisions)).
Proof.
  split; [apply sample_decisions_ok|].
  destruct (tp_decision_success_refines true sample_decisions (str "Discord.com") 77 4 5000 DIRECT
              sample_decisions_ok) as (_ & _ & _ & H). exact H.
Defined.

Lemma tp_decision_failure_cooldown_witness :
  tp_in_cooldown (tp_decision_failure sample_decisions (str "example.org") 77 6 100)
    (str "EXAMPLE.ORG") 159 = true /\
  tp_in_cooldown (tp_decision_failure sample_decisions (str "example.org") 77 6 100)
    (str "EXAMPLE.ORG") 160 = false.
Proof.
  destruct (tp_decision_failure_cooldown sample_decisions (str "example.org") 77 6 100
    sample_decisions_ok) as (_ & _ & _ & H & _); [by vm_compute|].
  rewrite !H by reflexivity. split; reflexivity.
Defined.

Lemma tp_direct_bad_mark_holds_witness :
  tp_direct_bad (tp_direct_bad_mark sample_decisions (str "example.org") 77 6 100)
    (str "Example.ORG") 77 6 3699 = true.
Proof.
  destruct (tp_direct_bad_mark_holds sample_decisions (str "example.org") 77 6 100
    sample_decisions_ok) as (_ & _ & _ & _ & H & _); [by vm_compute|done|].
  rewrite H by reflexivity. reflexivity.
Defined.

(** ** Writing and reading the decisions file *)

(** Entries as the verifier stores them: a host name that can stand in a line
    of the file, a network, a 4 or 6, a stream step that is not DIRECT. *)
Record decision_printable (e : tp_decision) : Prop := {
  dp_word : is_word (dec_host e);
  dp_len : 0 < zlen (dec_host e);
  dp_first : bget (dec_host e) 0 <> 35;
  dp_fp : 0 <= dec_fingerprint e < 2 ^ 64;
  dp_family : dec_family e = 4 \/ dec_family e = 6;
  dp_stream : is_stream (step_strategy (dec_step e));
  dp_time : LONG_MIN <= dec_validated_at e <= LONG_MAX
}.

(** The runtime-only field is not persisted. *)
Definition persisted (e : tp_decision) : tp_decision :=
  mk_decision (dec_host e) (dec_fingerprint e) (dec_family e) (dec_step e) (dec_validated_at e) 0.

Definition decision_text (e : tp_decision) : list Z :=
  dec_host e ++ 32 :: hex_digits 16 (dec_fingerprint e) ++ 32 :: print_dec (dec_family e) ++
  32 :: strategy_name (step_strategy (dec_step e)) ++
  32 :: tp_target_name (target (dec_step e)) ++ 32 :: print_dec (dec_validated_at e).

Lemma decision_line_text e : decision_line e = decision_text e ++ [10].
Proof. unfold decision_line, decision_text. by repeat (rewrite <- app_assoc; cbn [app]). Qed.

Lemma strategy_name_word s :
  is_word (strategy_name s) /\ 0 < zlen (strategy_name s) <= 12 /\
  strategy_from_name (strategy_name s) = Some s.
Proof. destruct s; (split; [repeat constructor; discriminate|]; by vm_compute). Qed.

Lemma tp_target_name_word t :
  is_word (tp_target_name t) /\ 0 < zlen (tp_target_name t) <= 8.
Proof. destruct t; (split; [repeat constructor; discriminate|]; by vm_compute). Qed.

Lemma scan_decision_text e :
  decision_printable e -> zlen (dec_host e) < STRATEGY_DOMAIN_MAX ->
  scan_decision (decision_text e) =
    Some (dec_host e, dec_fingerprint e, dec_family e, strategy_name (step_strategy (dec_step e)),
          tp_target_name (target (dec_step e)), dec_validated_at e).
Proof.
  intros [Hw Hl _ Hfp Hfam _ Ht] Hlen. unfold scan_decision, decision_text.
  destruct (strategy_name_word (step_strategy (dec_step e))) as (Sw & Sl & _).
  destruct (tp_target_name_word (target (dec_step e))) as (Tw & Tl).
  unfold STRATEGY_DOMAIN_MAX in *.
  rewrite (proj1 (scan_word_app 255 (dec_host e) 32 _ Hw Hl ltac:(unfold zlen in *; lia) eq_refl)).
  cbn [mbind option_bind]. rewrite scan_hex_printed by done. cbn [mbind option_bind].
  unfold scan_int_rest.
  rewrite scan_dec_printed by (done || unfold LONG_MIN, LONG_MAX; lia).
  cbn [mbind option_bind].
  replace (i32 (dec_family e)) with (dec_family e) by (by destruct Hfam as [-> | ->]).
  rewrite (proj2 (scan_word_app 31 _ 32 _ Sw ltac:(lia) ltac:(unfold zlen in *; lia) eq_refl)).
  cbn [mbind option_bind].
  rewrite (proj2 (scan_word_app 31 _ 32 _ Tw ltac:(lia) ltac:(unfold zlen in *; lia) eq_refl)).
  cbn [mbind option_bind].
  pose proof (scan_dec_printed _ [] Ht I) as Hs. rewrite app_nil_r in Hs. by rewrite Hs.
Qed.

(** A new key is appended while there is room and memory. *)
Lemma store_decision_new d e :
  decisions_ok d -> zlen (entries d) < TP_DECISIONS_MAX ->
  dec_key e ∉ map dec_key (entries d) -> stored_ok e ->
  exists d', store_decision true d (dec_host e) (dec_fingerprint e) (dec_family e) (dec_step e)
               (dec_validated_at e) = Some d' /\
    decisions_ok d' /\ entries d' = entries d ++ [persisted e].
Proof.
  intros Hd Hroom Hk (H1 & H2 & H3).
  destruct (store_decision true d (dec_host e) (dec_fingerprint e) (dec_family e) (dec_step e)
    (dec_validated_at e)) as [d'|] eqn:Es.
  - exists d'. split; [done|].
    split; [by destruct (store_decision_ok _ _ _ _ _ _ _ _ Hd H1 H3 H2 Es)|].
    unfold store_decision in Es. pose proof (decision_find_spec d (dec_host e) (dec_fingerprint e)
      (dec_family e)) as Hf.
    destruct (decision_find _ _ _ _) as [i|].
    { destruct Hf as (x & Hx & E). destruct Hk. change (dec_key e) with
        (host_key (dec_host e) (dec_fingerprint e) (dec_family e)). rewrite <- E.
      apply list_elem_of_fmap_2. by eapply list_elem_of_lookup_2. }
    pose proof (new_slot_spec true d (do_count d Hd)) as Hns.
    destruct (new_slot true d) as [[i d0]|]; [|done].
    destruct Hns as (_ & _ & [(c & -> & -> & _)|(_ & [?|?] & _)]); [|done|lia].
    injection Es as <-. cbn [entries set_entries set_cap].
    rewrite insert_app_r_alt, Nat.sub_diag by lia. done.
  - exfalso. unfold store_decision in Es.
    pose proof (decision_find_spec d (dec_host e) (dec_fingerprint e) (dec_family e)) as Hf.
    destruct (decision_find _ _ _ _) as [i|].
    { destruct Hf as (x & Hx & _). by rewrite Hx in Es. }
    pose proof (new_slot_spec true d (do_count d Hd)) as Hns.
    by destruct (new_slot true d) as [[i d0]|], Hns.
Qed.

Lemma tp_parse_line_text d e :
  decision_printable e -> stored_ok e ->
  tp_parse_line true d (decision_text e) =
    store_decision true d (dec_host e) (dec_fingerprint e) (dec_family e) (dec_step e)
      (dec_validated_at e).
Proof.
  intros Hp (Hfp & Hdir & Hlen). unfold tp_parse_line. rewrite scan_decision_text by done.
  destruct Hp as [_ _ _ _ Hfam Hst _].
  assert (Ef : (negb (dec_family e =? 4) && negb (dec_family e =? 6)) || (dec_fingerprint e =? NETFP_UNKNOWN) = false).
  { rewrite (proj2 (Z.eqb_neq _ _) Hfp). by destruct Hfam as [-> | ->]. }
  rewrite Ef. destruct (strategy_name_word (step_strategy (dec_step e))) as (_ & _ & ->).
  assert (Es : forall s, is_stream s -> negb (bool_decide (s = STRATEGY_PASS))
    && negb (bool_decide (s = STRATEGY_TLSREC)) && negb (bool_decide (s = STRATEGY_TLSREC_SPLIT)) = false).
  { by intros s [-> |[-> | ->]]. }
  rewrite Es by done. cbv zeta.
  replace (if bool_decide (tp_target_name _ = str "original") then _ else _)
    with (Some (target (dec_step e))) by (by destruct (target (dec_step e))).
  replace (mk_step (target (dec_step e)) (step_strategy (dec_step e))) with (dec_step e)
    by (by destruct (dec_step e)).
  by rewrite bool_decide_eq_false_2.
Qed.

Lemma decision_text_chars e :
  decision_printable e -> zlen (dec_host e) < STRATEGY_DOMAIN_MAX ->
  Forall (fun c => c <> 0 /\ c <> 10) (decision_text e) /\ 0 < zlen (decision_text e) <= 511 /\
  bget (decision_text e) 0 = bget (dec_host e) 0 /\ skip_lead (decision_text e) = decision_text e.
Proof.
  intros [Hw Hl _ Hfp Hfam _ Ht] Hlen. unfold decision_text.
  destruct (strategy_name_word (step_strategy (dec_step e))) as (Sw & Sl & _).
  destruct (tp_target_name_word (target (dec_step e))) as (Tw & Tl).
  destruct (print_hex_word _ Hfp) as (Hx & Lx & _).
  destruct (print_dec_word _ Ht) as (Hd & Ld & _).
  destruct (print_dec_word (dec_family e)) as (Hf & Lf & _); [unfold LONG_MIN, LONG_MAX; lia|].
  assert (Hword : forall w, is_word w -> Forall (fun c => c <> 0 /\ c <> 10) w).
  { intros w H. apply (Forall_impl _ _ _ H). tauto. }
  refine (conj _ (conj _ (conj _ _))).
  - repeat first [by apply Hword | apply Forall_cons_2; [lia|] | apply Forall_app_2].
  - repeat (rewrite zlen_app || rewrite zlen_cons). unfold STRATEGY_DOMAIN_MAX in Hlen. lia.
  - rewrite bget_app_l by lia. done.
  - destruct (dec_host e) as [|c h]; [done|]. cbn [app skip_lead].
    inversion Hw as [|? ? [Hc _] _]; subst. unfold isspace in Hc. zbool.
    rewrite !(proj2 (Z.eqb_neq c _)); [done|..]; intros ->; done.
Qed.

Lemma decisions_parse_line d skipped e rest :
  decision_printable e -> stored_ok e -> decisions_ok d -> zlen (entries d) < TP_DECISIONS_MAX ->
  dec_key e ∉ map dec_key (entries d) ->
  exists d', decisions_parse_step (fun _ => true) ((d, skipped), decision_line e ++ rest)
               = Ok (inl ((d', skipped), rest)) /\
    decisions_ok d' /\ entries d' = entries d ++ [persisted e].
Proof.
  intros He Hs Hd Hroom Hk.
  destruct (store_decision_new d e Hd Hroom Hk Hs) as (d' & Es & Hd' & Hes). exists d'.
  split; [|done]. destruct (decision_text_chars e He (proj2 (proj2 Hs))) as (Hch & Hlen & Hfst & Hskip).
  unfold decisions_parse_step. rewrite decision_line_text, <- app_assoc. cbn [app].
  destruct (decision_text e ++ 10 :: rest) as [|c0 t0] eqn:Et.
  { by destruct (decision_text e). }
  rewrite <- Et, read_line_app.
  2: { apply (Forall_impl _ _ _ Hch). tauto. }
  2: { unfold zlen in Hlen. lia. }
  cbn [skip_to_newline]. change (10 =? 10) with true. cbn [drop].
  rewrite cstr_id by (apply (Forall_impl _ _ _ Hch); tauto).
  rewrite Hskip, Hfst, (proj2 (Z.eqb_neq (zlen _) 0)), (proj2 (Z.eqb_neq _ _) (dp_first e He)) by lia.
  cbn [orb]. by rewrite tp_parse_line_text, Es.
Qed.

Lemma decisions_parse_lines es d skipped fuel :
  Forall decision_printable es -> Forall stored_ok es -> decisions_ok d ->
  zlen (entries d ++ es) <= TP_DECISIONS_MAX -> NoDup (map dec_key (entries d ++ es)) ->
  (length (concat (map decision_line es)) < fuel)%nat ->
  exists d', loop fuel (decisions_parse_step (fun _ => true)) ((d, skipped), concat (map decision_line es))
               = Ok (d', skipped) /\
    decisions_ok d' /\ entries d' = entries d ++ map persisted es.
Proof.
  intros Hes. revert d fuel. induction Hes as [|e es He Hes IH]; intros d fuel Hs Hd Hroom Hn Hfuel.
  - exists d. destruct fuel; [lia|]. cbn [map concat]. rewrite app_nil_r. done.
  - cbn [map concat] in *. rewrite length_app in Hfuel. destruct fuel as [|fuel]; [lia|].
    inversion Hs as [|? ? Hse Hs']; subst. rewrite zlen_app, zlen_cons in Hroom.
    pose proof (zlen_nonneg es).
    assert (Hk : dec_key e ∉ map dec_key (entries d)).
    { rewrite map_app in Hn. apply NoDup_app in Hn as (_ & Hn & _). intros Hin.
      apply (Hn _ Hin). cbn [map]. by left. }
    destruct (decisions_parse_line d skipped e (concat (map decision_line es))) as (d' & Es & Hd' & Hes');
      [done..|lia|done|].
    rewrite loop_S, Es. destruct (IH d' fuel) as (d2 & E2 & Hd2 & Hes2); try done.
    + rewrite Hes', !zlen_app, zlen_cons. change (zlen (@nil tp_decision)) with 0. lia.
    + rewrite Hes', <- app_assoc. cbn [app]. rewrite map_app in *. exact Hn.
    + assert (Hl : (0 < length (decision_line e))%nat)
        by (rewrite decision_line_text, length_app; cbn; lia). lia.
    + exists d2. split; [done|]. split; [done|]. by rewrite Hes2, Hes', <- app_assoc.
Qed.

Lemma serialize_entries_spec out_size used es :
  zlen used < out_size ->
  serialize_entries out_size used es =
    if out_size <=? zlen used + zlen (concat (map decision_line es)) then []
    else used ++ concat (map decision_line es).
Proof.
  revert used. induction es as [|e es IH]; intros used Hu; cbn [serialize_entries map concat].
  - change (zlen (@nil Z)) with 0. rewrite Z.add_0_r, app_nil_r.
    by rewrite (proj2 (Z.leb_gt _ _)).
  - rewrite zlen_app. pose proof (zlen_nonneg (concat (map decision_line es))).
    destruct (Z.leb_spec (out_size - zlen used) (zlen (decision_line e))) as [Hf|Hf].
    + by rewrite (proj2 (Z.leb_le _ _)) by lia.
    + rewrite IH by (rewrite zlen_app; lia). rewrite zlen_app, Z.add_assoc, app_assoc. done.
Qed.

(** The comment line at the top is skipped. *)
Lemma decisions_parse_header d rest :
  decisions_parse_step (fun _ => true) ((d, 0), decisions_header ++ rest) = Ok (inl ((d, 0), rest)).
Proof. vm_compute. reflexivity. Qed.

(** The decisions file is lossless: a well-formed table of printable
    decisions that fits the output buffer is written as a text that, read
    into an empty table with memory available, gives back the same decisions
    in the same order (less the runtime-only QUIC time), no line skipped, in a
    well-formed clean table; a table that does not fit is not written at
    all. *)
Theorem tp_decisions_roundtrip d out_size :
  decisions_ok d -> Forall decision_printable (entries d) ->
  (out_size <= zlen decisions_header + zlen (concat (map decision_line (entries d))) ->
   tp_decisions_serialize d out_size = []) /\
  (zlen decisions_header + zlen (concat (map decision_line (entries d))) < out_size ->
   exists d', tp_decisions_parse (fun _ => true) tp_decisions_init (tp_decisions_serialize d out_size)
                = Ok (d', 0) /\
     decisions_ok d' /\ entries d' = map persisted (entries d) /\ dirty d' = false).
Proof.
  intros Hd Hp. unfold tp_decisions_serialize.
  pose proof (zlen_nonneg (concat (map decision_line (entries d)))).
  destruct (Z.leb_spec out_size (zlen decisions_header)) as [Hh|Hh]; [split; [done|lia]|].
  rewrite serialize_entries_spec by done. split; intros Hfit.
  { by rewrite (proj2 (Z.leb_le _ _)). }
  rewrite (proj2 (Z.leb_gt _ _)) by done. unfold tp_decisions_parse.
  rewrite loop_S, decisions_parse_header.
  destruct (decisions_parse_lines (entries d) tp_decisions_init 0
    (length (decisions_header ++ concat (map decision_line (entries d)))))
    as (d' & E & Hd' & Hes); try done.
  - apply Hd.
  - apply tp_decisions_init_ok.
  - pose proof (do_count d Hd). pose proof (do_cap d Hd). cbn [entries tp_decisions_init app]. lia.
  - apply Hd.
  - rewrite length_app. assert (0 < length decisions_header)%nat by (vm_compute; lia). lia.
  - rewrite E. cbn [mbind res_bind]. eexists. split; [reflexivity|].
    split; [by destruct Hd'|]. by split.
Qed.

Lemma tp_decisions_roundtrip_witness :
  decisions_ok sample_decisions /\
  exists d', tp_decisions_parse (fun _ => true) tp_decisions_init
               (tp_decisions_serialize sample_decisions 4096) = Ok (d', 0) /\
    decisions_ok d' /\ entries d' = map persisted (entries sample_decisions) /\ dirty d' = false.
Proof.
  split; [apply sample_decisions_ok|].
  apply (tp_decisions_roundtrip sample_decisions 4096 sample_decisions_ok).
  - repeat apply Forall_cons_2; [..|apply Forall_nil_2];
      (split; [repeat constructor; discriminate|reflexivity|discriminate|by vm_compute| | |by vm_compute]);
      unfold is_stream; auto.
  - vm_compute. reflexivity.
Defined.

(** ** Any decisions file *)

Lemma scan_decision_host line host fp family strat tgt v :
  scan_decision line = Some (host, fp, family, strat, tgt, v) -> zlen host < STRATEGY_DOMAIN_MAX.
Proof.
  unfold scan_decision. destruct (scan_word 255 line) as [[h r]|] eqn:E; [|done].
  apply scan_word_length in E. cbn [mbind option_bind]. intros H.
  repeat match type of H with
  | (mbind ?k ?m = Some _) => destruct m as [[? ?]|]; cbn [mbind option_bind] in H; [|done]
  end.
  injection H as -> _ _ _ _ _. unfold STRATEGY_DOMAIN_MAX, zlen. lia.
Qed.

Lemma tp_parse_line_ok grow d line d' :
  decisions_ok d -> tp_parse_line grow d line = Some d' -> decisions_ok d'.
Proof.
  intros Hd. unfold tp_parse_line.
  destruct (scan_decision line) as [[[[[[host fp] family] strat] tgt] v]|] eqn:Es; [|done].
  apply scan_decision_host in Es. destruct (_ || _) eqn:Ec; [done|]. zbool.
  destruct (strategy_from_name strat) as [s|]; [|done]. cbv zeta.
  match goal with |- (if ?b then _ else _) = _ -> _ => destruct b; [done|] end.
  match goal with |- match ?x with _ => _ end = _ -> _ => destruct x as [t|]; [|done] end.
  case_bool_decide as Hdir; [done|]. intros Hst. by eapply store_decision_ok.
Qed.

(** Loading any text into a well-formed table ends and leaves one. *)
Lemma tp_decisions_parse_ok grow d text :
  decisions_ok d ->
  wp (tp_decisions_parse grow d text) (fun r => decisions_ok r.1 /\ dirty r.1 = false)
    (fun _ => False).
Proof.
  intros Hd. unfold tp_decisions_parse. apply wp_bind.
  apply (wp_loop (fun st => decisions_ok st.1.1) (fun st => length st.2)); [|done|cbn; lia].
  intros [[d1 sk] text1] H1. cbn [fst snd] in *. unfold decisions_parse_step.
  destruct text1 as [|c text1]; [apply wp_ok, wp_ok; split; [by destruct H1|done]|].
  destruct (read_line 511 (c :: text1)) as [line rest] eqn:E. cbv zeta.
  pose proof (parse_step_shorter c text1 line rest) as Hs.
  apply wp_if; intros _; [apply wp_ok; split; [done|by apply Hs]|].
  destruct (tp_parse_line (grow d1) d1 _) as [d2|] eqn:Ep; apply wp_ok; (split; [|by apply Hs]); cbn [fst].
  - by eapply tp_parse_line_ok.
  - done.
Qed.
