(* ===== verification/Dns.v ===== *)
(** * The trusted resolver ([src/dns/dns.c], [include/dns.h])

    Building and checking DNS messages, the answer cache, server health and
    failover, and the raw forwarding used by the local DNS forwarder. Packets
    are byte lists with bounds-checked reads. The transport is a function
    pointer of the resolver (UDP or DNS-over-HTTPS): here each call takes it
    as an argument, a function from the server and the query to what came
    back; one call asks a server at most once. The optional lock is not
    modelled: an operation is one sequential step. *)

From stdpp Require Import base list numbers strings option relations.
From Stdlib Require Import ZArith Lia.
From S2P Require Import Prelude Slots Text.

(** ** Data *)

Definition DNS_NAME_MAX : Z := 254.
Definition DNS_MAX_ADDRS : Z := 8.
Definition DNS_MAX_SERVERS : nat := 12.
Definition DNS_CACHE_SIZE : nat := 256.
Definition DNS_QTYPE_A : Z := 1.
Definition DNS_QTYPE_AAAA : Z := 28.
Definition DNS_TTL_MIN : Z := 30.
Definition DNS_TTL_MAX : Z := 3600.
Definition DNS_NEGATIVE_TTL : Z := 30.
Definition DNS_SERVER_FAIL_LIMIT : Z := 3.
Definition DNS_SERVER_BACKOFF_SECONDS : Z := 60.

Record dns_addr := mk_addr {
  addr_family : Z;
  addr_bytes : list Z
}.

(** [count] is the length of [addrs]. *)
Record dns_answer := mk_answer {
  addrs : list dns_addr;
  ans_ttl : Z
}.

Inductive dns_status :=
| DNS_OK
| DNS_NODATA
| DNS_NXDOMAIN
| DNS_ERR_TIMEOUT
| DNS_ERR_MALFORMED
| DNS_ERR_SERVFAIL
| DNS_ERR_ALL_FAILED.

#[global] Instance dns_status_eq_dec : EqDecision dns_status.
Proof. solve_decision. Defined.

(** What a transport returns: a negative value, 0, or a reply. *)
Inductive transport_result :=
| TR_ERROR
| TR_TIMEOUT
| TR_REPLY (reply : list Z).

Definition dns_transport : Type := nat -> list Z -> transport_result.

Record dns_server_health := mk_health {
  consecutive_failures : Z;
  skip_until : Z;
  queries : Z;
  failures : Z
}.

Record dns_cache_entry := mk_cache {
  cache_name : list Z;
  cache_qtype : Z;
  cache_status : dns_status;
  cache_answer : dns_answer;
  expires_at : Z;
  last_used : Z
}.

(** [server_count] is the length of [health]. *)
Record dns_resolver := mk_resolver {
  health : list dns_server_health;
  cache : list dns_cache_entry;
  next_id : Z;
  cache_hits : Z;
  cache_misses : Z
}.

Definition set_health (r : dns_resolver) (h : list dns_server_health) : dns_resolver :=
  mk_resolver h (cache r) (next_id r) (cache_hits r) (cache_misses r).
Definition set_cache (r : dns_resolver) (c : list dns_cache_entry) : dns_resolver :=
  mk_resolver (health r) c (next_id r) (cache_hits r) (cache_misses r).

(** ** The code: messages *)

(** The characters before the next dot. *)
Fixpoint span_label (s : list Z) : list Z * list Z :=
  match s with
  | [] => ([], [])
  | c :: s' =>
      if c =? 46 then ([], s)
      else let '(label, rest) := span_label s' in (c :: label, rest)
  end.

(** One round of the label loop on the rest of the name. *)
Definition encode_step (st : list Z * list Z) : res unit ((list Z * list Z) + list Z) :=
  let '(rest, out) := st in
  match rest with
  | [] => Ok (inr (out ++ [0]))
  | _ =>
      let '(label, rest) := span_label rest in
      if (zlen label =? 0) || (63 <? zlen label) then Err tt else
      Ok (inl (drop 1 rest, out ++ u8 (zlen label) :: label))
  end.

(** [strlen(name)] less one trailing dot. *)
Definition name_len (name : list Z) : Z :=
  let len := zlen name in
  if (0 <? len) && (bget name (len - 1) =? 46) then len - 1 else len.

(** The bytes written; [Err] is the 0 return. *)
Definition encode_name (name : list Z) (out_size : Z) : res unit (list Z) :=
  let len := name_len name in
  if (len =? 0) || (253 <? len) || (out_size <? len + 2) then Err tt else
  loop (S (length name)) encode_step (bsub name 0 len, []).

Definition dns_build_query (id : Z) (name : list Z) (qtype out_size : Z) : res unit (list Z) :=
  if out_size <? 12 + 4 then Err tt else
  enc ← encode_name name (out_size - 12 - 4);
  Ok (bytes16 id ++ [1; 0] ++ bytes16 1 ++ replicate 6 0 ++ enc ++ bytes16 qtype ++ bytes16 1).

(** The position after the name; [Err] is the -1 return. The guard counts
    down from 128. *)
Fixpoint skip_name (guard : nat) (pkt : list Z) (pos : Z) : res unit Z :=
  if zlen pkt <=? pos then Err tt else
  match guard with
  | O => Err tt
  | S guard' =>
      b ← fetch pkt pos;
      if b =? 0 then Ok (pos + 1) else
      if Z.land b 192 =? 192 then
        if zlen pkt <? pos + 2 then Err tt else Ok (pos + 2)
      else
      if negb (Z.land b 192 =? 0) then Err tt else
      skip_name guard' pkt (pos + 1 + b)
  end.

(** The position after the question; [Err] is the 0 return. *)
Definition question_matches (pkt : list Z) (pos : Z) (name : list Z) (qtype : Z) : res unit Z :=
  enc ← encode_name name (DNS_NAME_MAX + 2);
  let enc_len := zlen enc in
  if zlen pkt <? pos + enc_len + 4 then Err tt else
  q ← slice pkt pos enc_len;
  if negb (ieq q enc) then Err tt else
  t ← fetch16 pkt (pos + enc_len);
  c ← fetch16 pkt (pos + enc_len + 2);
  if negb (t =? qtype) || negb (c =? 1) then Err tt else
  Ok (pos + enc_len + 4).

(** A helper's failure is this status here. *)
Definition or_status {A} (st : dns_status) (m : res unit A) : res dns_status A :=
  match m with Ok a => Ok a | Err _ => Err st | Fault => Fault end.

(** [memset] and [memcpy] of one address. *)
Definition mk_dns_addr (qtype : Z) (rdata : list Z) : dns_addr :=
  mk_addr (if qtype =? DNS_QTYPE_A then 4 else 6) (take 16 (rdata ++ replicate 16 0)).

Definition usable_record (qtype rtype rdlen count : Z) : bool :=
  (rtype =? qtype) && (count <? DNS_MAX_ADDRS)
  && (((qtype =? DNS_QTYPE_A) && (rdlen =? 4)) || ((qtype =? DNS_QTYPE_AAAA) && (rdlen =? 16))).

(** [while (ancount-- > 0)] *)
Fixpoint parse_records (ancount : nat) (pkt : list Z) (qtype pos : Z) (out : dns_answer)
  : res dns_status dns_answer :=
  match ancount with
  | O => Ok out
  | S ancount' =>
      pos ← or_status DNS_ERR_MALFORMED (skip_name 128 pkt pos);
      if zlen pkt <? pos + 10 then Err DNS_ERR_MALFORMED else
      rtype ← fetch16 pkt pos;
      ttl ← fetch32 pkt (pos + 4);
      rdlen ← fetch16 pkt (pos + 8);
      let pos := pos + 10 in
      if zlen pkt <? pos + rdlen then Err DNS_ERR_MALFORMED else
      out ← (if usable_record qtype rtype rdlen (zlen (addrs out)) then
               rdata ← slice pkt pos rdlen;
               Ok (mk_answer (addrs out ++ [mk_dns_addr qtype rdata])
                     (if ttl <? ans_ttl out then ttl else ans_ttl out))
             else Ok out);
      parse_records ancount' pkt qtype (pos + rdlen) out
  end.

Definition empty_answer : dns_answer := mk_answer [] DNS_TTL_MAX.

(** The answers OK, NODATA and NXDOMAIN come with [*out]; after any other
    status no caller reads it. *)
Definition dns_parse_response (pkt : list Z) (id : Z) (name : list Z) (qtype : Z)
  : res dns_status (dns_status * dns_answer) :=
  if zlen pkt <? 12 then Err DNS_ERR_MALFORMED else
  pid ← fetch16 pkt 0;
  flags ← fetch pkt 2;
  qdcount ← fetch16 pkt 4;
  if negb (pid =? id) || (Z.land flags 128 =? 0) || negb (Z.land flags 2 =? 0)
     || negb (qdcount =? 1) then Err DNS_ERR_MALFORMED else
  pos ← or_status DNS_ERR_MALFORMED (question_matches pkt 12 name qtype);
  b3 ← fetch pkt 3;
  let rcode := Z.land b3 15 in
  if rcode =? 3 then Ok (DNS_NXDOMAIN, empty_answer) else
  if negb (rcode =? 0) then Err DNS_ERR_SERVFAIL else
  ancount ← fetch16 pkt 6;
  out ← parse_records (Z.to_nat ancount) pkt qtype pos empty_answer;
  Ok (if zlen (addrs out) =? 0 then DNS_NODATA else DNS_OK, out).

(** ** The code: cache, health and lookups *)

Definition zero_cache : dns_cache_entry := mk_cache [] 0 DNS_OK (mk_answer [] 0) 0 0.
Definition zero_health : dns_server_health := mk_health 0 0 0 0.

Definition dns_resolver_init (server_count : nat) (id_seed : Z) : dns_resolver :=
  mk_resolver (replicate (Nat.min server_count DNS_MAX_SERVERS) zero_health)
    (replicate DNS_CACHE_SIZE zero_cache) id_seed 0 0.

Definition dns_cache_flush (r : dns_resolver) : dns_resolver :=
  set_cache r (replicate DNS_CACHE_SIZE zero_cache).

Definition dns_resolver_healthy (r : dns_resolver) (now : Z) : bool :=
  existsb (fun h => skip_until h <=? now) (health r).

Definition cache_find (r : dns_resolver) (name : list Z) (qtype : Z) : option nat :=
  find_idx (fun e => negb (zlen (cache_name e) =? 0) && (cache_qtype e =? qtype)
                     && ieq (cache_name e) name) (cache r).

Definition cache_slot (r : dns_resolver) (name : list Z) (qtype now : Z) : nat :=
  match cache_find r name qtype with
  | Some i => i
  | None =>
      match find_idx (fun e => (zlen (cache_name e) =? 0) || (expires_at e <=? now)) (cache r) with
      | Some i => i
      | None => first_min last_used (cache r)
      end
  end.

Definition clamp_ttl (ttl : Z) : Z :=
  let ttl := if ttl <? DNS_TTL_MIN then DNS_TTL_MIN else ttl in
  if DNS_TTL_MAX <? ttl then DNS_TTL_MAX else ttl.

Definition cache_store (r : dns_resolver) (name : list Z) (qtype : Z) (status : dns_status)
    (answer : dns_answer) (now : Z) : dns_resolver :=
  if DNS_NAME_MAX <=? zlen name then r else
  let slot := cache_slot r name qtype now in
  let ttl := clamp_ttl (if bool_decide (status = DNS_OK) then ans_ttl answer else DNS_NEGATIVE_TTL) in
  set_cache r (<[slot := mk_cache name qtype status (mk_answer (addrs answer) ttl) (now + ttl) now]>
                 (cache r)).

Definition server_result_of (h : dns_server_health) (ok : bool) (now : Z) : dns_server_health :=
  if ok then mk_health 0 0 (queries h + 1) (failures h) else
  let cf := consecutive_failures h + 1 in
  mk_health cf
    (if DNS_SERVER_FAIL_LIMIT <=? cf then now + DNS_SERVER_BACKOFF_SECONDS else skip_until h)
    (queries h + 1) (failures h + 1).

Definition server_result (r : dns_resolver) (idx : nat) (ok : bool) (now : Z) : dns_resolver :=
  set_health r (alter (fun h => server_result_of h ok now) idx (health r)).

Definition query_server (transport : dns_transport) (idx : nat) (id : Z) (name : list Z) (qtype : Z)
  : res dns_status (dns_status * dns_answer) :=
  query ← or_status DNS_ERR_MALFORMED (dns_build_query id name qtype 512);
  match transport idx query with
  | TR_TIMEOUT => Err DNS_ERR_TIMEOUT
  | TR_ERROR => Err DNS_ERR_SERVFAIL
  | TR_REPLY reply => dns_parse_response reply id name qtype
  end.

(** One pass over the servers: those backed off, or those not. *)
Definition servers_where (backed_off : bool) (now : Z) (hs : list dns_server_health) : list nat :=
  omap (fun '(i, h) => if Bool.eqb (now <? skip_until h) backed_off then Some i else None)
    (imap pair hs).

Definition server_order (r : dns_resolver) (now : Z) : list nat :=
  servers_where false now (health r) ++ servers_where true now (health r).

(** The loop over [order]: the status and answer of the first server with a
    definitive reply. *)
Fixpoint ask_servers (transport : dns_transport) (r : dns_resolver) (order : list nat) (id : Z)
    (name : list Z) (qtype now : Z) : res unit (dns_status * dns_answer * dns_resolver) :=
  match order with
  | [] => Ok (DNS_ERR_ALL_FAILED, mk_answer [] 0, r)
  | idx :: order' =>
      match query_server transport idx (u16 id) name qtype with
      | Ok (st, out) =>
          let r := server_result r idx true now in
          Ok (st, out, cache_store r name qtype st out now)
      | Err _ =>
          let r := server_result r idx false now in
          ask_servers transport r order' (id + 1) name qtype now
      | Fault => Fault
      end
  end.

(** The part after the cache lookup. *)
Definition resolve_miss (transport : dns_transport) (r : dns_resolver) (name : list Z)
    (qtype now : Z) : res unit (dns_status * dns_answer * dns_resolver) :=
  ask_servers transport
    (mk_resolver (health r) (cache r) (u16 (next_id r + zlen (health r)))
       (cache_hits r) (cache_misses r + 1))
    (server_order r now) (next_id r) name qtype now.

Definition dns_resolve (transport : dns_transport) (r : dns_resolver) (name : list Z)
    (qtype now : Z) : res unit (dns_status * dns_answer * dns_resolver) :=
  match cache_find r name qtype ≫= fun i => (fun e => (i, e)) <$> cache r !! i with
  | Some (i, hit) =>
      if now <? expires_at hit then
        let hit' := mk_cache (cache_name hit) (cache_qtype hit) (cache_status hit)
                      (cache_answer hit) (expires_at hit) now in
        Ok (cache_status hit, cache_answer hit,
            mk_resolver (health r) (<[i := hit']> (cache r)) (next_id r)
              (cache_hits r + 1) (cache_misses r))
      else resolve_miss transport r name qtype now
  | None => resolve_miss transport r name qtype now
  end.

(** ** The code: raw forwarding *)

(** One round of the label loop of [dns_query_info]: the position and the
    name so far. *)
Definition query_name_step (pkt : list Z) (name_size : Z) (st : Z * list Z)
  : res unit ((Z * list Z) + (Z * list Z)) :=
  let '(pos, name) := st in
  if zlen pkt <=? pos then Ok (inr (pos, name)) else
  lab ← fetch pkt pos;
  if lab =? 0 then Ok (inr (pos, name)) else
  let n := zlen name in
  if negb (Z.land lab 192 =? 0) || (zlen pkt <? pos + 1 + lab) || (name_size <? n + lab + 2)
  then Err tt else
  label ← slice pkt (pos + 1) lab;
  Ok (inl (pos + 1 + lab, (if 0 <? n then name ++ [46] else name) ++ lower label)).

(** Name, type and the client's UDP payload size; [Err] is the -1 return. *)
Definition dns_query_info (pkt : list Z) (name_size : Z) : res unit (list Z * Z * Z) :=
  if zlen pkt <? 12 then Err tt else
  b2 ← fetch pkt 2;
  qdcount ← fetch16 pkt 4;
  if negb (Z.land b2 128 =? 0) || negb (Z.land b2 120 =? 0) || negb (qdcount =? 1)
     || (name_size <? 2) then Err tt else
  '(pos, name) ← loop (S (length pkt)) (query_name_step pkt name_size) (12, []);
  if zlen pkt <? pos + 5 then Err tt else
  qtype ← fetch16 pkt (pos + 1);
  let pos := pos + 5 in
  ancount ← fetch16 pkt 6;
  nscount ← fetch16 pkt 8;
  arcount ← fetch16 pkt 10;
  if negb ((ancount =? 0) && (nscount =? 0) && (1 <=? arcount) && (pos + 11 <=? zlen pkt))
  then Ok (name, qtype, 512) else
  root ← fetch pkt pos;
  rtype ← fetch16 pkt (pos + 1);
  size ← fetch16 pkt (pos + 3);
  Ok (name, qtype, if (root =? 0) && (rtype =? 41) && (512 <? size) then size else 512).

Definition question_len_step (pkt : list Z) (pos : Z) : res unit (Z + Z) :=
  if zlen pkt <=? pos then Ok (inr pos) else
  b ← fetch pkt pos;
  if b =? 0 then Ok (inr pos) else
  if negb (Z.land b 192 =? 0) then Err tt else
  Ok (inl (pos + 1 + b)).

(** [Err] is the 0 return. *)
Definition question_len (pkt : list Z) : res unit Z :=
  pos ← loop (S (length pkt)) (question_len_step pkt) 12;
  if zlen pkt <? pos + 5 then Err tt else Ok (pos + 5 - 12).

(** [Err] is the 0 return. *)
Definition reply_matches (query reply : list Z) : res unit unit :=
  ql ← question_len query;
  if zlen reply <? 12 + ql then Err tt else
  rid ← fetch16 reply 0;
  qid ← fetch16 query 0;
  flags ← fetch reply 2;
  qdcount ← fetch16 reply 4;
  if negb (rid =? qid) || (Z.land flags 128 =? 0) || negb (qdcount =? 1) then Err tt else
  rq ← slice reply 12 ql;
  qq ← slice query 12 ql;
  if negb (ieq rq qq) then Err tt else Ok tt.

(** Is [got] an answer to [query] that ends the walk? *)
Definition acceptable (query reply : list Z) : res unit bool :=
  match reply_matches query reply with
  | Ok _ => b3 ← fetch reply 3; Ok (negb ((Z.land b3 15 =? 2) || (Z.land b3 15 =? 5)))
  | Err _ => Ok false
  | Fault => Fault
  end.

Fixpoint exchange_servers (transport : dns_transport) (r : dns_resolver) (order : list nat)
    (query : list Z) (now : Z) : res unit (option (list Z) * dns_resolver) :=
  match order with
  | [] => Ok (None, r)
  | idx :: order' =>
      let got := transport idx query in
      ok ← match got with
           | TR_REPLY reply => if 0 <? zlen reply then acceptable query reply else Ok false
           | _ => Ok false
           end;
      let r := server_result r idx ok now in
      match got with
      | TR_REPLY reply =>
          if (ok : bool) then Ok (Some reply, r) else exchange_servers transport r order' query now
      | _ => exchange_servers transport r order' query now
      end
  end.

(** [None] is the -1 return. *)
Definition dns_exchange (transport : dns_transport) (r : dns_resolver) (query : list Z) (now : Z)
  : res unit (option (list Z) * dns_resolver) :=
  if zlen query <? 12 then Ok (None, r) else
  match question_len query with
  | Err _ => Ok (None, r)
  | Fault => Fault
  | Ok _ => exchange_servers transport r (server_order r now) query now
  end.

(** The reply; [Err] is the 0 return. *)
Definition dns_truncated_reply (query : list Z) (out_size : Z) : res unit (list Z) :=
  ql ← question_len query;
  if out_size <? 12 + ql then Err tt else
  out ← slice query 0 (12 + ql);
  b2 ← fetch query 2;
  out ← store out 2 [Z.lor (Z.lor (Z.land b2 121) 128) 2];
  out ← store out 3 [128];
  out ← store out 6 [0; 0];
  out ← store out 8 [0; 0];
  store out 10 [0; 0].

Definition dns_servfail_reply (query : list Z) (out_size : Z) : res unit (list Z) :=
  out ← dns_truncated_reply query out_size;
  b2 ← fetch out 2;
  out ← store out 2 [Z.land b2 253];
  store out 3 [Z.lor 128 2].

(** [None] is the -1 return. *)
Definition dns_reply_rcode (pkt : list Z) : res unit (option Z) :=
  if zlen pkt <? 12 then Ok None else
  b2 ← fetch pkt 2;
  if Z.land b2 128 =? 0 then Ok None else
  b3 ← fetch pkt 3;
  Ok (Some (Z.land b3 15)).

Definition dns_reply_answer_count (pkt : list Z) : res unit Z :=
  if zlen pkt <? 12 then Ok 0 else fetch16 pkt 6.

Definition in_zone (name zone : list Z) : bool :=
  let n := zlen name in
  let z := zlen zone in
  if n =? z then bool_decide (name = zone)
  else (z <? n) && (bget name (n - z - 1) =? 46) && bool_decide (bfrom name (n - z) = zone).

Definition local_zones : list (list Z) :=
  [str "local"; str "localhost"; str "localdomain"; str "lan"; str "home"; str "home.arpa";
   str "internal"; str "intranet"; str "corp";
   str "10.in-addr.arpa"; str "168.192.in-addr.arpa"; str "254.169.in-addr.arpa";
   str "c.f.ip6.arpa"; str "d.f.ip6.arpa"; str "8.e.f.ip6.arpa"; str "9.e.f.ip6.arpa";
   str "a.e.f.ip6.arpa"; str "b.e.f.ip6.arpa"].

(** [for octet = first .. first + n - 1: snprintf("%d<suffix>")] *)
Definition octet_zones (first : Z) (n : nat) (suffix : list Z) : list (list Z) :=
  map (fun k => print_dec (first + Z.of_nat k) ++ suffix) (seq 0 n).

Definition dns_name_is_local (name : list Z) : bool :=
  if zlen name =? 0 then false else
  if negb (existsb (fun c => c =? 46) name) then true else
  existsb (in_zone name)
    (local_zones ++ octet_zones 16 16 (str ".172.in-addr.arpa")
       ++ octet_zones 64 64 (str ".100.in-addr.arpa")).

(** ** Names *)

Definition label_ok (l : list Z) : Prop := 0 < zlen l <= 63 /\ Forall (fun c => c <> 46) l.

Definition enc_label (l : list Z) : list Z := zlen l :: l.
Definition enc_labels (ls : list (list Z)) : list Z := concat (map enc_label ls) ++ [0].
(** Every label followed by a dot. *)
Definition dotted (ls : list (list Z)) : list Z := concat (map (fun l => l ++ [46]) ls).

Lemma zlen_enc_labels ls : zlen (enc_labels ls) = zlen (dotted ls) + 1.
Proof.
  unfold enc_labels, dotted. rewrite zlen_app. change (zlen [0]) with 1.
  induction ls as [|l ls IH]; cbn [map concat]; [done|].
  unfold enc_label at 1. rewrite !zlen_app, zlen_cons. change (zlen [46]) with 1. lia.
Qed.

Lemma span_label_spec s l r :
  span_label s = (l, r) ->
  s = l ++ r /\ Forall (fun c => c <> 46) l /\ (r = [] \/ exists r', r = 46 :: r').
Proof.
  revert l r. induction s as [|c s IH]; intros l r H; cbn in H.
  - injection H as <- <-. auto.
  - destruct (Z.eqb_spec c 46) as [->|Hc].
    + injection H as <- <-. repeat split; [constructor|]. right. by eexists.
    + destruct (span_label s) as [l' r'] eqn:E. injection H as <- <-.
      destruct (IH l' r' eq_refl) as (-> & Hl & Hr). repeat split; [by constructor|done].
Qed.

(** What [encode_name] accepts, and what it writes. *)
Record encodes (whole enc : list Z) (ls : list (list Z)) : Prop := {
  en_enc : enc = enc_labels ls;
  en_ok : Forall label_ok ls;
  en_name : whole ++ [46] = dotted ls \/ whole = dotted ls
}.

Lemma encode_loop_wp whole fuel :
  (length whole < fuel)%nat ->
  wp (loop fuel encode_step (whole, [])) (fun enc => exists ls, encodes whole enc ls) (fun _ => True).
Proof.
  intros Hf.
  apply (wp_loop (fun '(rest, out) => exists ls, out = concat (map enc_label ls) /\
    Forall label_ok ls /\ (whole = dotted ls ++ rest \/ (rest = [] /\ whole ++ [46] = dotted ls)))
    (fun st => length (fst st))); [|exists []; auto|done].
  intros [rest out] (ls & -> & Hls & Hw). unfold encode_step.
  destruct rest as [|c rest].
  { apply wp_ok. exists ls. split; [done|done|]. rewrite app_nil_r in Hw. destruct Hw as [->|[_ Hw]]; auto. }
  destruct (span_label (c :: rest)) as [l r] eqn:E. apply span_label_spec in E as (E & Hl & Hr).
  apply wp_if; intros Hz; zbool; [by apply wp_err|]. pose proof (zlen_nonneg l) as Hl0.
  apply wp_ok. destruct Hw as [Hw|[? _]]; [|done].
  assert (Hlok : label_ok l) by (split; [lia|done]).
  split.
  - exists (ls ++ [l]). split.
    { rewrite map_app, concat_app. cbn [map concat]. rewrite app_nil_r. unfold enc_label at 3.
      rewrite u8_small by lia. done. }
    split; [apply Forall_app_2; [done|by constructor]|].
    assert (Hd : dotted (ls ++ [l]) = dotted ls ++ l ++ [46]).
    { unfold dotted. rewrite map_app, concat_app. cbn [map concat]. by rewrite app_nil_r. }
    rewrite Hd, Hw, E. destruct Hr as [->|[r' ->]]; cbn [drop].
    + right. split; [done|]. rewrite app_nil_r, <- !app_assoc. done.
    + left. rewrite <- !app_assoc. done.
  - apply (f_equal (@length Z)) in E. rewrite length_app in E. cbn [fst]. rewrite length_drop.
    unfold zlen in *. cbn [length] in *. lia.
Qed.

Lemma encode_name_wp name size :
  wp (encode_name name size)
    (fun enc => (exists ls, encodes (bsub name 0 (name_len name)) enc ls) /\
       0 < name_len name <= 253 /\ zlen enc <= name_len name + 2 /\ name_len name + 2 <= size)
    (fun _ => True).
Proof.
  assert (Hn : 0 <= name_len name <= zlen name).
  { unfold name_len. pose proof (zlen_nonneg name).
    destruct ((0 <? zlen name) && _) eqn:E; [|lia]. apply andb_prop in E as [E _]. zbool. lia. }
  unfold encode_name. apply wp_if; intros Hc; zbool; [by apply wp_err|].
  assert (Hl : zlen (bsub name 0 (name_len name)) = name_len name) by (apply zlen_bsub; lia).
  eapply wp_mono; [| |apply encode_loop_wp; unfold zlen in Hl, Hn; lia]; [|done].
  intros enc (ls & He). split; [by exists ls|]. split; [lia|]. split; [|lia].
  destruct He as [-> _ Hw]. rewrite zlen_enc_labels.
  destruct Hw as [<-|<-]; rewrite ?zlen_app, Hl; [change (zlen [46]) with 1|]; lia.
Qed.

(** ** Reading a query's name back *)

Definition add_label (name l : list Z) : list Z :=
  (if 0 <? zlen name then name ++ [46] else name) ++ lower l.

Lemma bytes_land_192 n : 0 <= n <= 63 -> Z.land n 192 = 0.
Proof.
  intros Hn. apply Z.bits_inj'. intros k Hk. rewrite Z.land_spec, Z.bits_0.
  destruct (Z.testbit n k) eqn:E; [|done]. cbn [andb].
  assert (k < 6).
  { destruct (Z.ltb_spec k 6); [done|]. rewrite Z.bits_above_log2 in E; [done|lia|].
    destruct (decide (n = 0)) as [->|]; [cbn; lia|].
    apply Z.log2_lt_pow2; [lia|]. apply Z.lt_le_trans with (2 ^ 6); [lia|].
    apply Z.pow_le_mono_r; lia. }
  assert (k = 0 \/ k = 1 \/ k = 2 \/ k = 3 \/ k = 4 \/ k = 5) as Hc by lia.
  by destruct Hc as [->|[->|[->|[->|[->| ->]]]]].
Qed.

Lemma query_name_loop pkt size ls pos name fuel :
  Forall label_ok ls -> occurs pkt pos (enc_labels ls) ->
  zlen name + zlen (dotted ls) + (if 0 <? zlen name then 1 else 0) <= size -> 65 <= size ->
  (Z.to_nat (zlen pkt - pos) < fuel)%nat ->
  loop fuel (query_name_step pkt size) (pos, name)
    = Ok (pos + zlen (enc_labels ls) - 1, foldl add_label name ls).
Proof.
  intros Hls. revert pos name fuel. induction Hls as [|l ls [Hl Hd] Hls IH]; intros pos name fuel Hocc Hsz H65 Hf.
  - destruct fuel as [|fuel]; [lia|]. rewrite loop_S. unfold query_name_step, enc_labels in *.
    cbn [map concat app foldl] in *. destruct Hocc as [H1 H2 H3]. change (zlen [0]) with 1 in *.
    rewrite (proj2 (Z.leb_gt _ _)), fetch_Ok by lia. cbn [mbind res_bind].
    specialize (H3 0 ltac:(lia)). rewrite Z.add_0_r in H3. rewrite H3. change (bget [0] 0 =? 0) with true.
    cbv iota. f_equal. f_equal. lia.
  - destruct fuel as [|fuel]; [lia|]. rewrite loop_S.
    pose proof (occurs_lo _ _ _ Hocc) as Hp0.
    unfold enc_labels in Hocc. cbn [map concat] in Hocc. rewrite <- app_assoc in Hocc.
    fold (enc_labels ls) in Hocc. unfold enc_label in Hocc. cbn [app] in Hocc.
    apply occurs_cons in Hocc as [Hb Hocc]. apply occurs_app in Hocc as [Hol Hocc].
    pose proof (zlen_nonneg (dotted ls)) as Hdn. pose proof (zlen_nonneg name) as Hnn.
    pose proof Hocc as [Hlo Hhi _]. rewrite zlen_enc_labels in Hhi.
    unfold dotted in Hsz. cbn [map concat] in Hsz. fold (dotted ls) in Hsz.
    rewrite !zlen_app in Hsz. change (zlen [46]) with 1 in Hsz.
    unfold query_name_step at 1. rewrite (proj2 (Z.leb_gt _ _)), fetch_Ok by lia.
    cbn [mbind res_bind]. rewrite Hb, (proj2 (Z.eqb_neq _ _)) by lia.
    rewrite bytes_land_192 by lia. change (negb (0 =? 0)) with false. cbn [orb].
    rewrite (proj2 (Z.ltb_ge (zlen pkt) _)) by lia.
    rewrite (proj2 (Z.ltb_ge size _)) by (destruct (Z.ltb_spec 0 (zlen name)); lia). cbn [orb].
    rewrite slice_Ok by lia. cbn [mbind res_bind]. rewrite (occurs_bsub _ _ _ Hol).
    fold (add_label name l). rewrite IH.
    + cbn [foldl]. f_equal. f_equal. rewrite !zlen_enc_labels. unfold dotted. cbn [map concat].
      rewrite !zlen_app. change (zlen [46]) with 1. lia.
    + by replace (pos + 1 + zlen l) with (pos + 1 + zlen l) by done.
    + unfold add_label. rewrite zlen_app, zlen_lower.
      destruct (Z.ltb_spec 0 (zlen name)); rewrite ?zlen_app; change (zlen [46]) with 1;
        (rewrite (proj2 (Z.ltb_lt _ _)); lia).
    + done.
    + lia.
Qed.

Lemma foldl_add_label ls name :
  Forall label_ok ls -> 0 < zlen name ->
  foldl add_label name ls ++ [46] = name ++ [46] ++ lower (dotted ls).
Proof.
  intros Hls. revert name. induction Hls as [|l ls [Hl _] _ IH]; intros name Hn; [done|].
  cbn [foldl]. rewrite IH.
  - unfold add_label. rewrite (proj2 (Z.ltb_lt _ _)) by lia. unfold dotted. cbn [map concat].
    rewrite !lower_app, <- !app_assoc. done.
  - unfold add_label. rewrite zlen_app, zlen_lower. pose proof (zlen_nonneg name).
    destruct (0 <? zlen name); rewrite ?zlen_app; change (zlen [46]) with 1; lia.
Qed.

Lemma labels_name ls :
  Forall label_ok ls -> ls <> [] -> foldl add_label [] ls ++ [46] = lower (dotted ls).
Proof.
  intros Hls Hne. destruct Hls as [|l ls [Hl Hd] Hls]; [done|]. cbn [foldl].
  change (add_label [] l) with (lower l). rewrite foldl_add_label by (done || rewrite zlen_lower; lia).
  unfold dotted. cbn [map concat]. rewrite !lower_app, <- !app_assoc. done.
Qed.

Lemma last_bget (l : list Z) : 0 < zlen l -> last l = Some (bget l (zlen l - 1)).
Proof.
  intros H. destruct l as [|x l] using rev_ind; [done|]. clear IHl.
  rewrite last_snoc. f_equal. unfold zlen. rewrite length_app. cbn [length].
  rewrite bget_app_r by (unfold zlen; lia). unfold zlen.
  replace (Z.of_nat (length l + 1) - 1 - Z.of_nat (length l)) with 0 by lia. done.
Qed.

(** A name without a trailing dot is its labels joined by dots. *)
Lemma encode_name_labels name size enc :
  last name <> Some 46 -> encode_name name size = Ok enc ->
  exists ls, enc = enc_labels ls /\ Forall label_ok ls /\ ls <> [] /\
    name ++ [46] = dotted ls /\ 0 < zlen name <= 253 /\ zlen name + 2 <= size.
Proof.
  intros Hl He. pose proof (encode_name_wp name size) as Hw. rewrite He in Hw.
  destruct Hw as ([ls [Henc Hok Hname]] & Hlen & _ & Hsz).
  assert (Hn : name_len name = zlen name).
  { unfold name_len in *. destruct (Z.ltb_spec 0 (zlen name)) as [Hp|]; [|done]. cbn [andb].
    destruct (Z.eqb_spec (bget name (zlen name - 1)) 46) as [E|]; [|done].
    rewrite last_bget in Hl by done. congruence. }
  rewrite Hn, bsub_all in Hname. rewrite Hn in Hlen, Hsz. exists ls. split; [done|]. split; [done|].
  destruct ls as [|l ls] using rev_ind.
  - exfalso. unfold dotted in Hname. cbn in Hname. destruct Hname as [Hx|Hx].
    + by destruct name.
    + rewrite Hx in Hlen. change (zlen (@nil Z)) with 0 in Hlen. lia.
  - clear IHls. split; [by destruct ls|]. destruct Hname as [Hx|Hx]; [done|]. exfalso. apply Hl.
    rewrite Hx. unfold dotted. rewrite map_app, concat_app. cbn [map concat].
    rewrite app_nil_r, app_assoc. apply last_snoc.
Qed.

(** Reading a query built from a name's labels. *)
Lemma dns_query_info_built id qtype ls :
  is_u16 id -> is_u16 qtype -> Forall label_ok ls -> zlen (dotted ls) <= DNS_NAME_MAX ->
  let query := bytes16 id ++ [1; 0] ++ bytes16 1 ++ replicate 6 0 ++ enc_labels ls
                 ++ bytes16 qtype ++ bytes16 1 in
  dns_query_info query DNS_NAME_MAX = Ok (foldl add_label [] ls, qtype, 512).
Proof.
  intros Hid Hqt Hls Hlen query. pose proof (occurs_all query) as Ho. unfold query in Ho at 2.
  apply occurs_16 in Ho as [_ Ho]; [|done]. cbn [app] in Ho.
  apply occurs_cons in Ho as [H2 Ho]. apply occurs_cons in Ho as [H3 Ho].
  change (0 + 2 + 1 + 1) with 4 in Ho. change (0 + 2) with 2 in H2.
  apply occurs_16 in Ho as [H4 Ho]; [|by vm_compute].
  change (replicate 6 0) with [0; 0; 0; 0; 0; 0] in Ho. cbn [app] in Ho. change (4 + 2) with 6 in Ho.
  apply occurs_cons in Ho as [H6 Ho]. apply occurs_cons in Ho as [H7 Ho].
  apply occurs_cons in Ho as [H8 Ho]. apply occurs_cons in Ho as [H9 Ho].
  apply occurs_cons in Ho as [H10 Ho]. apply occurs_cons in Ho as [H11 Ho].
  change (6 + 1) with 7 in *. change (7 + 1) with 8 in *. change (8 + 1) with 9 in *.
  change (9 + 1) with 10 in *. change (10 + 1) with 11 in *. change (11 + 1) with 12 in *.
  apply occurs_app in Ho as [Hn Ho].
  assert (Hq : zlen query = 12 + zlen (enc_labels ls) + 4).
  { unfold query. rewrite !zlen_app. change (zlen (replicate 6 0)) with 6.
    change (zlen [1; 0]) with 2. rewrite !zlen_bytes16. lia. }
  pose proof (zlen_enc_labels ls) as He. pose proof (zlen_nonneg (dotted ls)) as Hd.
  apply occurs_16 in Ho as [Hty _]; [|done].
  assert (E6 : bget16 query 6 = 0) by (unfold bget16; change (6 + 1) with 7; by rewrite H6, H7).
  assert (E8 : bget16 query 8 = 0) by (unfold bget16; change (8 + 1) with 9; by rewrite H8, H9).
  assert (E10 : bget16 query 10 = 0) by (unfold bget16; change (10 + 1) with 11; by rewrite H10, H11).
  unfold DNS_NAME_MAX in *. unfold dns_query_info. clearbody query.
  rewrite (proj2 (Z.ltb_ge _ _)), fetch_Ok by lia. cbn [mbind res_bind].
  rewrite (fetch16_Ok query 4), (fetch16_Ok query 6), (fetch16_Ok query 8), (fetch16_Ok query 10) by lia.
  cbn [mbind res_bind]. rewrite H2, H4, E6, E8, E10. change (negb (Z.land 1 128 =? 0) || negb (Z.land 1 120 =? 0)
    || negb (1 =? 1) || (254 <? 2)) with false. cbv iota.
  rewrite (query_name_loop query 254 ls 12 []); [|done|done| |lia|unfold zlen in *; lia].
  2: { change (zlen (@nil Z)) with 0. change (0 <? 0) with false. cbv iota. lia. }
  cbn [mbind res_bind]. rewrite (proj2 (Z.ltb_ge _ _)) by lia.
  replace (12 + zlen (enc_labels ls) - 1 + 1) with (12 + zlen (enc_labels ls)) by lia.
  rewrite (fetch16_Ok query (12 + zlen (enc_labels ls))) by lia. cbn [mbind res_bind].
  by rewrite Hty.
Qed.

(** A query built for a name says exactly what was asked: for every name
    the builder accepts (written without a final dot), the query's id is the
    given one, its length is the name's plus 18 (within the 512-byte buffer),
    and the forwarder's own reader finds in it the lowered name, the type and
    the default payload size. *)
Theorem dns_query_roundtrip id name qtype query :
  is_u16 id -> is_u16 qtype -> last name <> Some 46 ->
  dns_build_query id name qtype 512 = Ok query ->
  dns_query_info query DNS_NAME_MAX = Ok (lower name, qtype, 512) /\
  bget16 query 0 = id /\ zlen query = zlen name + 18 /\ zlen query <= 512.
Proof.
  intros Hid Hqt Hl Hb. unfold dns_build_query in Hb. change (512 <? 12 + 4) with false in Hb.
  cbv iota in Hb. destruct (encode_name name (512 - 12 - 4)) as [enc| |] eqn:E; [|done|done].
  cbn [mbind res_bind] in Hb.
  match type of Hb with Ok ?x = _ => assert (Eq : query = x) by congruence end.
  clear Hb. subst query.
  destruct (encode_name_labels _ _ _ Hl E) as (ls & -> & Hok & Hne & Hd & Hlen & Hsz).
  assert (Hz : zlen (dotted ls) = zlen name + 1).
  { rewrite <- Hd, zlen_app. done. }
  refine (conj _ (conj _ _)).
  - rewrite (dns_query_info_built id qtype ls Hid Hqt Hok) by (unfold DNS_NAME_MAX; lia).
    do 3 f_equal. pose proof (labels_name ls Hok Hne) as Hj. rewrite <- Hd, lower_app in Hj.
    by apply app_inj_tail in Hj as [-> _].
  - by destruct (occurs_16 _ 0 id _ Hid (occurs_all (bytes16 id ++
      [1; 0] ++ bytes16 1 ++ replicate 6 0 ++ enc_labels ls ++ bytes16 qtype ++ bytes16 1))) as [-> _].
  - rewrite !zlen_app, zlen_enc_labels, !zlen_bytes16. change (zlen (replicate 6 0)) with 6.
    change (zlen [1; 0]) with 2. lia.
Qed.

Lemma dns_query_roundtrip_witness :
  exists query, dns_build_query 4660 (str "Www.Example.com") DNS_QTYPE_AAAA 512 = Ok query /\
    dns_query_info query DNS_NAME_MAX = Ok (str "www.example.com", 28, 512).
Proof.
  eexists. split; [vm_compute; reflexivity|].
  apply (dns_query_roundtrip 4660 (str "Www.Example.com") DNS_QTYPE_AAAA);
    [by vm_compute|by vm_compute|discriminate|vm_compute; reflexivity].
Defined.

(** ** Responses *)

Lemma wp_or_status {A} st (m : res unit A) Q :
  wp m Q (fun _ => True) -> wp (or_status st m) Q (fun e => e = st).
Proof. destruct m; unfold wp; cbn; auto. Qed.

Lemma skip_name_wp guard pkt pos :
  bytes_ok pkt -> 0 <= pos ->
  wp (skip_name guard pkt pos) (fun p => pos < p <= zlen pkt) (fun _ => True).
Proof.
  intros Hb. revert pos. induction guard as [|guard IH]; intros pos Hp; cbn [skip_name].
  - apply wp_if; intros; by apply wp_err.
  - apply wp_if; intros Hl; zbool; [by apply wp_err|]. apply wp_bind, wp_fetch; [lia|].
    pose proof (bytes_ok_get pkt pos Hb) as Hr. unfold is_u8 in Hr.
    apply wp_if; intros Hz; zbool; [apply wp_ok; lia|].
    apply wp_if; intros Hc.
    { apply wp_if; intros; zbool; [by apply wp_err|apply wp_ok; lia]. }
    apply wp_if; intros; [by apply wp_err|].
    eapply wp_mono; [| |apply IH; lia]; [|done]. cbn. lia.
Qed.

(** The packet's question is the one asked. *)
Record asks (pkt : list Z) (pos : Z) (name : list Z) (qtype p : Z) : Prop := {
  ak_enc : exists enc, encode_name name (DNS_NAME_MAX + 2) = Ok enc /\
             p = pos + zlen enc + 4 /\ ieq (bsub pkt pos (zlen enc)) enc = true /\
             bget16 pkt (pos + zlen enc) = qtype /\ bget16 pkt (pos + zlen enc + 2) = 1;
  ak_bound : pos + 4 <= p <= zlen pkt
}.

Lemma question_matches_wp pkt pos name qtype :
  0 <= pos ->
  wp (question_matches pkt pos name qtype) (asks pkt pos name qtype) (fun _ => True).
Proof.
  intros Hp. unfold question_matches. pose proof (encode_name_wp name (DNS_NAME_MAX + 2)) as He.
  destruct (encode_name name (DNS_NAME_MAX + 2)) as [enc| |] eqn:E; [|done|done].
  cbn [mbind res_bind]. pose proof (zlen_nonneg enc).
  wp_step; [by apply wp_err|]. wp_step. wp_step. wp_step; [by apply wp_err|].
  apply wp_bind, wp_fetch16; [lia|]. apply wp_bind, wp_fetch16; [lia|].
  wp_step; [by apply wp_err|]. apply wp_ok. split; [|lia]. exists enc.
  repeat split; congruence || done.
Qed.

(** An address that is the data of a record of the asked type. *)
Definition from_record (pkt : list Z) (qtype : Z) (a : dns_addr) : Prop :=
  exists pos n, 12 <= pos /\ pos + 10 + n <= zlen pkt /\ bget16 pkt pos = qtype /\
    bget16 pkt (pos + 8) = n /\
    ((qtype = DNS_QTYPE_A /\ n = 4 /\ addr_family a = 4) \/
     (qtype = DNS_QTYPE_AAAA /\ n = 16 /\ addr_family a = 6)) /\
    addr_bytes a = take 16 (bsub pkt (pos + 10) n ++ replicate 16 0).

Record answer_ok (pkt : list Z) (qtype : Z) (out : dns_answer) : Prop := {
  ao_from : Forall (from_record pkt qtype) (addrs out);
  ao_count : zlen (addrs out) <= DNS_MAX_ADDRS;
  ao_ttl : 0 <= ans_ttl out <= DNS_TTL_MAX
}.

Lemma parse_records_wp n pkt qtype pos out :
  bytes_ok pkt -> 12 <= pos -> answer_ok pkt qtype out ->
  wp (parse_records n pkt qtype pos out) (answer_ok pkt qtype) (fun e => e = DNS_ERR_MALFORMED).
Proof.
  intros Hb. revert pos out. induction n as [|n IH]; intros pos out Hp Ho; cbn [parse_records].
  { by apply wp_ok. }
  apply wp_bind. eapply wp_mono; [| |apply wp_or_status, (skip_name_wp 128 pkt pos Hb); lia]; [|done].
  intros p Hpos. cbv beta in Hpos. wp_step; [by apply wp_err|].
  apply wp_bind, wp_fetch16; [lia|]. apply wp_bind, wp_fetch32; [lia|].
  apply wp_bind, wp_fetch16; [lia|]. cbv zeta.
  pose proof (bget16_range pkt (p + 8) Hb) as Hrd. unfold is_u16 in Hrd.
  pose proof (bget32_range pkt (p + 4) Hb) as Httl. unfold is_u32 in Httl.
  wp_step; [by apply wp_err|]. apply wp_bind.
  apply wp_if; intros Hu.
  - apply wp_bind, wp_slice; [lia|]. apply wp_ok. apply IH; [lia|].
    unfold usable_record in Hu. apply andb_prop in Hu as [Hu Hsz].
    apply andb_prop in Hu as [Hrt Hcnt]. zbool. destruct Ho as [H1 H2 H3].
    split; cbn [addrs ans_ttl].
    + apply Forall_app_2; [done|]. constructor; [|constructor].
      exists p, (bget16 pkt (p + 8)). split; [lia|]. split; [lia|]. split; [done|]. split; [done|].
      split; [|done]. unfold mk_dns_addr. cbn [addr_family].
      apply orb_prop in Hsz as [Hsz|Hsz]; zbool; [left|right]; (split; [done|]; split; [done|]).
      * by rewrite (proj2 (Z.eqb_eq _ _)).
      * rewrite (proj2 (Z.eqb_neq _ _)); [done|]. unfold DNS_QTYPE_A, DNS_QTYPE_AAAA in *. lia.
    + rewrite zlen_app. change (zlen [_]) with 1. lia.
    + destruct (Z.ltb_spec (bget32 pkt (p + 4)) (ans_ttl out)); lia.
  - apply wp_ok. apply IH; [lia|done].
Qed.

(** What an accepted response guarantees. *)
Record response_ok (pkt : list Z) (id : Z) (name : list Z) (qtype : Z)
    (st : dns_status) (out : dns_answer) : Prop := {
  ro_id : bget16 pkt 0 = id;
  ro_reply : Z.land (bget pkt 2) 128 <> 0;
  ro_whole : Z.land (bget pkt 2) 2 = 0;
  ro_asks : exists p, asks pkt 12 name qtype p;
  ro_answer : answer_ok pkt qtype out;
  ro_status :
    match st with
    | DNS_OK => 0 < zlen (addrs out) /\ Z.land (bget pkt 3) 15 = 0
    | DNS_NODATA => addrs out = [] /\ Z.land (bget pkt 3) 15 = 0
    | DNS_NXDOMAIN => addrs out = [] /\ Z.land (bget pkt 3) 15 = 3
    | _ => False
    end
}.

Lemma dns_parse_response_wp pkt id name qtype :
  bytes_ok pkt ->
  wp (dns_parse_response pkt id name qtype)
    (fun '(st, out) => response_ok pkt id name qtype st out)
    (fun e => e = DNS_ERR_MALFORMED \/ e = DNS_ERR_SERVFAIL).
Proof.
  intros Hb. assert (He : answer_ok pkt qtype empty_answer).
  { split; [constructor|by vm_compute|by vm_compute]. }
  unfold dns_parse_response. wp_step; [apply wp_err; auto|].
  apply wp_bind, wp_fetch16; [lia|]. apply wp_bind, wp_fetch; [lia|].
  apply wp_bind, wp_fetch16; [lia|]. wp_step; [apply wp_err; auto|].
  apply wp_bind. eapply wp_mono; [| |apply wp_or_status, question_matches_wp; lia].
  2: { intros e ->. auto. }
  intros p Hq. pose proof (ak_bound _ _ _ _ _ Hq).
  apply wp_bind, wp_fetch; [lia|]. cbv zeta. wp_step.
  { apply wp_ok. split; try done. by exists p. }
  wp_step; [apply wp_err; auto|]. apply wp_bind, wp_fetch16; [lia|].
  apply wp_bind. eapply wp_mono; [| |apply (parse_records_wp _ pkt qtype p empty_answer Hb); [lia|done]].
  2: { intros e ->. auto. }
  intros out Hout. apply wp_ok. pose proof (zlen_nonneg (addrs out)) as Hl.
  destruct (Z.eqb_spec (zlen (addrs out)) 0) as [Hz|Hz]; (split; try done; [by exists p|]).
  - split; [|done]. by apply nil_length_inv, Nat2Z.inj.
  - split; [lia|done].
Qed.

(** C23: parsing a response never reads outside the packet, and an accepted
    response answers exactly the question asked: it carries our id, is a
    complete (not truncated) reply, repeats our name (up to case) and type,
    and has the matching response code; each of its at most eight addresses
    is the data of a record of the asked type and size inside the packet, and
    its lifetime is at most an hour. *)
Theorem dns_parse_response_sound pkt id name qtype :
  bytes_ok pkt ->
  dns_parse_response pkt id name qtype <> Fault /\
  forall st out, dns_parse_response pkt id name qtype = Ok (st, out) ->
    response_ok pkt id name qtype st out.
Proof.
  intros Hb. pose proof (dns_parse_response_wp pkt id name qtype Hb) as Hw.
  split; [by eapply wp_no_fault|]. intros st out E. by rewrite E in Hw.
Qed.

Definition sample_reply : list Z :=
  [18; 52; 129; 128; 0; 1; 0; 1; 0; 0; 0; 0; 1; 65; 2; 105; 111; 0; 0; 1; 0; 1;
   192; 12; 0; 1; 0; 1; 0; 0; 0; 60; 0; 4; 93; 184; 216; 34].

Lemma dns_parse_response_sound_witness :
  bytes_ok sample_reply /\
  dns_parse_response sample_reply 4660 (str "a.IO") DNS_QTYPE_A
    = Ok (DNS_OK, mk_answer [mk_addr 4 [93; 184; 216; 34; 0; 0; 0; 0; 0; 0; 0; 0; 0; 0; 0; 0]] 60) /\
  response_ok sample_reply 4660 (str "a.IO") DNS_QTYPE_A DNS_OK
    (mk_answer [mk_addr 4 [93; 184; 216; 34; 0; 0; 0; 0; 0; 0; 0; 0; 0; 0; 0; 0]] 60).
Proof.
  assert (Hb : bytes_ok sample_reply) by (apply bytes_okb_ok; vm_compute; reflexivity).
  assert (E : dns_parse_response sample_reply 4660 (str "a.IO") DNS_QTYPE_A
    = Ok (DNS_OK, mk_answer [mk_addr 4 [93; 184; 216; 34; 0; 0; 0; 0; 0; 0; 0; 0; 0; 0; 0; 0]] 60))
    by (vm_compute; reflexivity).
  split; [exact Hb|]. split; [exact E|].
  apply (dns_parse_response_sound sample_reply 4660 (str "a.IO") DNS_QTYPE_A Hb). exact E.
Defined.

(** ** Lookups *)

Definition cache_key (e : dns_cache_entry) : option (list Z * Z) :=
  if zlen (cache_name e) =? 0 then None else Some (lower (cache_name e), cache_qtype e).

Record resolver_ok (r : dns_resolver) : Prop := {
  rs_cache_len : length (cache r) = DNS_CACHE_SIZE;
  rs_cache : slots_unique cache_key (cache r);
  rs_servers : (length (health r) <= DNS_MAX_SERVERS)%nat
}.

Lemma dns_resolver_init_ok n id : resolver_ok (dns_resolver_init n id).
Proof.
  split.
  - done.
  - intros i j a b k Ha%lookup_replicate Hb%lookup_replicate. by destruct Ha as [-> _].
  - unfold dns_resolver_init. cbn [health]. rewrite length_replicate. lia.
Qed.

Lemma cache_find_slot r name qtype :
  cache_find r name qtype = slot_idx cache_key (lower name, qtype) (cache r).
Proof.
  apply find_idx_ext. intros e. unfold cache_key. destruct (Z.eqb_spec (zlen (cache_name e)) 0).
  - by rewrite bool_decide_eq_false_2.
  - cbn [negb andb]. apply eq_iff_eq_true.
    rewrite bool_decide_eq_true, andb_true_iff, Z.eqb_eq, ieq_true.
    split; [by intros [-> ->]|]. intros E. by injection E.
Qed.

Lemma cache_slot_pick r name qtype now :
  cache_slot r name qtype now
  = slot_pick cache_key expires_at last_used (lower name, qtype) now (cache r).
Proof.
  unfold cache_slot, slot_pick. rewrite cache_find_slot.
  by rewrite (find_idx_ext _ _ _ (fun e => free_test (cache_name e)
    (lower (cache_name e), cache_qtype e) (expires_at e) now)).
Qed.

(** Every server once, those not backed off first. *)
Lemma server_order_perm r now : server_order r now ≡ₚ seq 0 (length (health r)).
Proof.
  unfold server_order, servers_where. generalize (health r). intros hs.
  assert (H : forall k, omap (fun '(i, h) => if Bool.eqb (now <? skip_until h) false then Some i else None)
                (imap (fun i h => ((k + i)%nat, h)) hs)
              ++ omap (fun '(i, h) => if Bool.eqb (now <? skip_until h) true then Some i else None)
                (imap (fun i h => ((k + i)%nat, h)) hs) ≡ₚ seq k (length hs)).
  { induction hs as [|h hs IH]; intros k; [done|]. cbn [imap length seq].
    assert (E : imap ((fun i h => ((k + i)%nat, h)) ∘ S) hs = imap (fun i h => ((S k + i)%nat, h)) hs).
    { apply imap_ext. intros i x _. cbn. f_equal. lia. }
    rewrite E. cbn [omap list_omap]. rewrite Nat.add_0_r. specialize (IH (S k)).
    destruct (now <? skip_until h); cbn [Bool.eqb].
    - rewrite <- Permutation_middle. by apply Permutation_skip.
    - cbn [app]. by apply Permutation_skip. }
  exact (H O).
Qed.

(** A transport fills at most the reply array it is given. *)
Definition message_ok (m : list Z) : Prop := bytes_ok m /\ zlen m <= 65535.
Definition bytes_transport (transport : dns_transport) : Prop :=
  forall idx q reply, transport idx q = TR_REPLY reply -> message_ok reply.

Lemma query_server_wp transport idx id name qtype :
  bytes_transport transport ->
  wp (query_server transport idx id name qtype)
    (fun '(st, out) => exists reply, response_ok reply id name qtype st out) (fun _ => True).
Proof.
  intros Ht. unfold query_server, dns_build_query. change (512 <? 12 + 4) with false. cbv iota.
  apply wp_bind. pose proof (encode_name_wp name (512 - 12 - 4)) as He.
  destruct (encode_name name (512 - 12 - 4)) as [enc| |]; [|done|done].
  apply wp_ok. destruct (transport idx _) as [| |reply] eqn:E; [by apply wp_err..|].
  eapply wp_mono; [| |apply dns_parse_response_wp; by eapply Ht]; [|done].
  intros [st out] H. by exists reply.
Qed.

(** What a server that answered sent. *)
Lemma query_server_answer transport idx id name qtype st out :
  bytes_transport transport -> query_server transport idx id name qtype = Ok (st, out) ->
  exists query reply, dns_build_query id name qtype 512 = Ok query /\ transport idx query = TR_REPLY reply /\
    response_ok reply id name qtype st out.
Proof.
  intros Ht. unfold query_server. destruct (dns_build_query id name qtype 512) as [q| |] eqn:Eq; [|done|done].
  cbn [or_status mbind res_bind]. destruct (transport idx q) as [| |reply] eqn:E; [done|done|]. intros H.
  exists q, reply. split; [done|]. split; [done|].
  pose proof (dns_parse_response_wp reply id name qtype) as W. rewrite H in W. apply W. by eapply Ht.
Qed.

(** A server gave no definitive answer: it did not reply, or not with a usable
    reply to the query; or the name cannot be encoded and it was not asked. *)
Definition no_answer (transport : dns_transport) (idx : nat) (id : Z) (name : list Z) (qtype : Z) : Prop :=
  match dns_build_query id name qtype 512 with
  | Ok query =>
      match transport idx query with
      | TR_REPLY reply => exists e, dns_parse_response reply id name qtype = Err e
      | _ => True
      end
  | _ => True
  end.

(** The servers asked before the one that answered have all failed. *)
Definition failed_at (transport : dns_transport) (id : Z) (name : list Z) (qtype : Z)
    (asked : list nat) : Prop :=
  forall j x, asked !! j = Some x -> no_answer transport x (u16 (id + Z.of_nat j)) name qtype.

Lemma query_server_failed transport idx id name qtype e :
  query_server transport idx id name qtype = Err e -> no_answer transport idx id name qtype.
Proof.
  unfold query_server, no_answer. destruct (dns_build_query id name qtype 512) as [q| |]; [|done|done].
  cbn [or_status mbind res_bind]. destruct (transport idx q); [done|done|]. intros ->. by eexists.
Qed.

Lemma failed_at_cons transport id name qtype x asked :
  no_answer transport x (u16 id) name qtype ->
  failed_at transport (id + 1) name qtype asked -> failed_at transport id name qtype (x :: asked).
Proof.
  intros Hx H [|j] y Hy; cbn in Hy.
  - injection Hy as <-. by rewrite Z.add_0_r.
  - specialize (H j y Hy). replace (id + Z.of_nat (S j)) with (id + 1 + Z.of_nat j) by lia. exact H.
Qed.

Lemma foldl_alter_lookup {A} (f : A -> A) (idxs : list nat) (l : list A) (i : nat) :
  NoDup idxs ->
  foldl (fun l x => alter f x l) l idxs !! i
  = (if bool_decide (i ∈ idxs) then f else id) <$> l !! i.
Proof.
  intros Hn. revert l. induction Hn as [|x idxs Hx Hn IH]; intros l; cbn [foldl].
  - rewrite bool_decide_eq_false_2 by apply not_elem_of_nil. by destruct (l !! i).
  - rewrite IH. destruct (decide (i = x)) as [->|Hne].
    + rewrite bool_decide_eq_false_2, bool_decide_eq_true_2 by (done || apply list_elem_of_here).
      rewrite list_lookup_alter_eq. by destruct (l !! x).
    + rewrite list_lookup_alter_ne by done.
      rewrite (bool_decide_ext (i ∈ idxs) (i ∈ x :: idxs)); [done|].
      rewrite elem_of_cons. split; [by right|]. by intros [?|?].
Qed.

(** The health of the servers after those in [asked] failed. *)
Definition after_failures (now : Z) (asked : list nat) (hs : list dns_server_health) : list dns_server_health :=
  foldl (fun hs x => alter (fun h => server_result_of h false now) x hs) hs asked.

Lemma ask_servers_spec transport r order id name qtype now :
  bytes_transport transport ->
  exists st out r', ask_servers transport r order id name qtype now = Ok (st, out, r') /\
  ((exists asked idx rest, order = asked ++ idx :: rest /\
      failed_at transport id name qtype asked /\
      query_server transport idx (u16 (id + zlen asked)) name qtype = Ok (st, out) /\
      r' = cache_store (set_health r (alter (fun h => server_result_of h true now) idx (after_failures now asked (health r))))
             name qtype st out now) \/
   (st = DNS_ERR_ALL_FAILED /\ addrs out = [] /\ failed_at transport id name qtype order /\
    r' = set_health r (after_failures now order (health r)))).
Proof.
  intros Ht. revert r id. induction order as [|x order IH]; intros r id; cbn [ask_servers].
  { eexists _, _, _. split; [done|]. right. split; [done|]. split; [done|]. split; [done|]. by destruct r. }
  pose proof (query_server_wp transport x (u16 id) name qtype Ht) as Hw.
  destruct (query_server transport x (u16 id) name qtype) as [[st out]|e|] eqn:E; [| |done].
  - eexists _, _, _. split; [done|]. left. exists [], x, order.
    split; [done|]. split; [done|]. split; [by rewrite Z.add_0_r|done].
  - destruct (IH (server_result r x false now) (id + 1)) as (st & out & r' & Es & Hc). apply query_server_failed in E.
    rewrite Es. eexists _, _, _. split; [done|]. destruct Hc as [Hc|Hc].
    + left. destruct Hc as (asked & idx & rest & -> & Hf & Hq & ->).
      exists (x :: asked), idx, rest. split; [done|]. split; [by eapply failed_at_cons|].
      split; [|done]. rewrite <- Hq. do 2 f_equal. rewrite zlen_cons. lia.
    + right. destruct Hc as (-> & Ho & Hf & ->).
      split; [done|]. split; [done|]. split; [by eapply failed_at_cons|done].
Qed.

(** The counters of each server: one more failure for those that failed (three
    in a row send it to the back for a minute), a clean slate for the one that
    answered, nothing for the others. *)
Definition charged (now : Z) (failed : list nat) (answered : option nat) (hs hs' : list dns_server_health) : Prop :=
  length hs' = length hs /\
  forall i h, hs !! i = Some h -> exists h', hs' !! i = Some h' /\
    (i ∈ failed -> queries h' = queries h + 1 /\ failures h' = failures h + 1 /\
       consecutive_failures h' = consecutive_failures h + 1 /\
       (consecutive_failures h' < 3 -> skip_until h' = skip_until h) /\
       (3 <= consecutive_failures h' -> skip_until h' = now + 60)) /\
    (answered = Some i -> h' = mk_health 0 0 (queries h + 1) (failures h)) /\
    (i ∉ failed -> answered <> Some i -> h' = h).

Lemma charged_failed now h :
  let h' := server_result_of h false now in
  queries h' = queries h + 1 /\ failures h' = failures h + 1 /\
  consecutive_failures h' = consecutive_failures h + 1 /\
  (consecutive_failures h' < 3 -> skip_until h' = skip_until h) /\
  (3 <= consecutive_failures h' -> skip_until h' = now + 60).
Proof.
  cbv zeta. unfold server_result_of, DNS_SERVER_FAIL_LIMIT, DNS_SERVER_BACKOFF_SECONDS.
  cbn [queries failures consecutive_failures skip_until]. repeat split; intros; case_match; lia.
Qed.

Lemma after_failures_charged now asked hs :
  NoDup asked -> charged now asked None hs (after_failures now asked hs).
Proof.
  intros Hn. unfold after_failures. split.
  { clear Hn. revert hs. induction asked as [|x asked IH]; intros hs; [done|]. cbn [foldl]. by rewrite IH, length_alter. }
  intros i h Hi. rewrite foldl_alter_lookup, Hi by done. eexists. split; [reflexivity|].
  case_bool_decide as E; (split; [|split; [done|]]).
  - intros _. apply charged_failed.
  - done.
  - done.
  - done.
Qed.

Lemma answered_charged now asked idx hs :
  NoDup (asked ++ [idx]) ->
  charged now asked (Some idx) hs (alter (fun h => server_result_of h true now) idx (after_failures now asked hs)).
Proof.
  intros Hn. apply NoDup_app in Hn as (Hn & Hx & _). specialize (fun H => Hx idx H ltac:(left)) as Hni.
  destruct (after_failures_charged now asked hs Hn) as [Hl H]. split; [by rewrite length_alter|].
  intros i h Hi. destruct (H i h Hi) as (h' & E & Hf & _ & Ho). destruct (decide (i = idx)) as [->|Hne].
  - rewrite list_lookup_alter_eq, E. eexists. split; [reflexivity|]. rewrite (Ho Hni ltac:(done)).
    split; [by intros ?%Hni|]. by split.
  - rewrite list_lookup_alter_ne, E by done. exists h'. split; [done|]. split; [exact Hf|].
    split; [intros [= <-]; done|]. intros Hi' _. by apply Ho.
Qed.

Lemma cache_store_ok r name qtype st out now :
  resolver_ok r -> 0 < zlen name ->
  let r' := cache_store r name qtype st out now in
  resolver_ok r' /\
  (zlen name < DNS_NAME_MAX -> forall x, ieq name x = true ->
     exists i, cache_find r' x qtype = Some i /\
       let ttl := clamp_ttl (if bool_decide (st = DNS_OK) then ans_ttl out else DNS_NEGATIVE_TTL) in
       cache r' !! i = Some (mk_cache name qtype st (mk_answer (addrs out) ttl) (now + ttl) now)).
Proof.
  intros [H1 H2 H3] Hn. cbv zeta. unfold cache_store.
  destruct (Z.leb_spec DNS_NAME_MAX (zlen name)) as [Hl|Hl]; [split; [done|lia]|].
  set (ttl := clamp_ttl _). set (e := mk_cache _ _ _ _ _ _).
  rewrite cache_slot_pick. set (k := (lower name, qtype)).
  assert (Hk : cache_key e = Some k).
  { unfold cache_key, e. cbn [cache_name cache_qtype]. by rewrite (proj2 (Z.eqb_neq _ _)) by lia. }
  assert (Hne : cache r <> []) by (by destruct (cache r)).
  destruct (slot_take cache_key expires_at last_used k now (cache r) e Hne H2 Hk) as (Hu & _).
  destruct (slot_pick_lookup cache_key expires_at last_used k now (cache r) Hne) as (a & Ha & _).
  set (i := slot_pick _ _ _ _ _ _) in *.
  assert (Hi : <[i := e]> (cache r) !! i = Some e).
  { apply list_lookup_insert_eq. by eapply lookup_lt_Some. }
  split.
  - split; [|done|done]. cbn [cache set_cache]. by rewrite length_insert.
  - intros _ x Hx. exists i. split; [|done]. rewrite cache_find_slot. cbn [cache set_cache].
    apply ieq_true in Hx. rewrite <- Hx. fold k. unfold slot_idx.
    apply (find_idx_unique _ _ i e); [|done|by apply bool_decide_eq_true].
    intros j y Hj Hy%bool_decide_eq_true. by apply (Hu j i y e k).
Qed.

(** Refreshing [last_used] keeps the table well-formed. *)
Lemma slots_unique_insert (l : list dns_cache_entry) (i : nat) e e' :
  slots_unique cache_key l -> l !! i = Some e -> cache_key e' = cache_key e ->
  slots_unique cache_key (<[i := e']> l).
Proof.
  intros Hu Hi Hk. assert (H : forall j b, <[i := e']> l !! j = Some b ->
    exists b', l !! j = Some b' /\ cache_key b' = cache_key b).
  { intros j b Hj. apply list_lookup_insert_Some in Hj as [(<- & <- & _)|[_ Hj]]; eauto. }
  intros j1 j2 b1 b2 k H1 H2 K1 K2.
  destruct (H _ _ H1) as (c1 & L1 & E1), (H _ _ H2) as (c2 & L2 & E2).
  apply (Hu j1 j2 c1 c2 k); congruence.
Qed.

Lemma clamp_ttl_range t : DNS_TTL_MIN <= clamp_ttl t <= DNS_TTL_MAX.
Proof.
  unfold clamp_ttl, DNS_TTL_MIN, DNS_TTL_MAX.
  destruct (Z.ltb_spec t 30); [change (3600 <? 30) with false; lia|].
  destruct (Z.ltb_spec 3600 t); lia.
Qed.

Lemma resolve_miss_ok transport r name qtype now :
  resolver_ok r -> bytes_transport transport -> 0 < zlen name ->
  exists st out r', resolve_miss transport r name qtype now = Ok (st, out, r') /\ resolver_ok r' /\
  ((exists asked idx rest, server_order r now = asked ++ idx :: rest /\
      failed_at transport (next_id r) name qtype asked /\
      query_server transport idx (u16 (next_id r + zlen asked)) name qtype = Ok (st, out) /\
      charged now asked (Some idx) (health r) (health r') /\
      (zlen name < DNS_NAME_MAX -> forall x, ieq name x = true ->
         exists i, cache_find r' x qtype = Some i /\
           let ttl := clamp_ttl (if bool_decide (st = DNS_OK) then ans_ttl out else DNS_NEGATIVE_TTL) in
           cache r' !! i = Some (mk_cache name qtype st (mk_answer (addrs out) ttl) (now + ttl) now))) \/
   (st = DNS_ERR_ALL_FAILED /\ addrs out = [] /\
    failed_at transport (next_id r) name qtype (server_order r now) /\
    charged now (server_order r now) None (health r) (health r'))).
Proof.
  intros [H1 H2 H3] Ht Hn. unfold resolve_miss. set (r0 := mk_resolver _ _ _ _ _).
  assert (Hset : forall h, length h = length (health r0) -> resolver_ok (set_health r0 h)).
  { intros h Hh. split; [done|done|]. cbn [health set_health]. rewrite Hh. done. }
  destruct (ask_servers_spec transport r0 (server_order r now) (next_id r) name qtype now Ht)
    as (st & out & r' & E & Hc). rewrite E. exists st, out, r'. split; [done|].
  assert (Hnd : NoDup (server_order r now)).
  { rewrite server_order_perm. apply NoDup_ListNoDup, seq_NoDup. }
  destruct Hc as [(asked & idx & rest & Ho & Hf & Hq & ->)|(-> & Ho & Hf & ->)].
  - set (h := alter _ _ _).
    assert (Hh : charged now asked (Some idx) (health r) h).
    { apply answered_charged. rewrite Ho in Hnd. change (idx :: rest) with ([idx] ++ rest) in Hnd.
      rewrite app_assoc in Hnd. by apply NoDup_app in Hnd as [? _]. }
    destruct (cache_store_ok (set_health r0 h) name qtype st out now (Hset h (proj1 Hh)) Hn) as [Hok Hfind].
    split; [done|]. left. exists asked, idx, rest. split; [done|]. split; [done|]. split; [done|]. split; [|done].
    unfold cache_store. by destruct (DNS_NAME_MAX <=? zlen name).
  - assert (Hh : charged now (server_order r now) None (health r) (after_failures now (server_order r now) (health r)))
      by (by apply after_failures_charged).
    split; [apply Hset, Hh|]. by right.
Qed.

(** Charging every server once. *)
Lemma charge_all {A} (f : A -> A) (idxs : list nat) (l : list A) :
  idxs ≡ₚ seq 0 (length l) -> foldl (fun l x => alter f x l) l idxs = map f l.
Proof.
  intros Hp. apply list_eq. intros i.
  rewrite foldl_alter_lookup by (rewrite Hp; apply NoDup_ListNoDup, seq_NoDup).
  rewrite (list_lookup_fmap f l i : map f l !! i = _).
  destruct (l !! i) as [x|] eqn:E; [|done]. cbn. rewrite bool_decide_eq_true_2; [done|].
  rewrite Hp. apply elem_of_seq. apply lookup_lt_Some in E. lia.
Qed.

Lemma ask_servers_bad transport r order id name qtype now :
  (forall enc, encode_name name 496 <> Ok enc) ->
  ask_servers transport r order id name qtype now
  = Ok (DNS_ERR_ALL_FAILED, mk_answer [] 0,
        set_health r (foldl (fun hs x => alter (fun h => server_result_of h false now) x hs)
                        (health r) order)).
Proof.
  intros Hbad. revert r id. induction order as [|x order IH]; intros r id; cbn [ask_servers foldl].
  { by destruct r. }
  assert (E : query_server transport x (u16 id) name qtype = Err DNS_ERR_MALFORMED).
  { unfold query_server, dns_build_query. change (512 <? 12 + 4) with false. cbv iota.
    pose proof (encode_name_wp name (512 - 12 - 4)) as Hw. change (512 - 12 - 4) with 496 in *.
    destruct (encode_name name 496) as [enc| |]; [by destruct (Hbad enc)|done|done]. }
  rewrite E, IH. by destruct r.
Qed.

Lemma dns_resolve_bad transport r name qtype now :
  (forall enc, encode_name name 496 <> Ok enc) -> cache_find r name qtype = None ->
  exists id misses,
  dns_resolve transport r name qtype now
  = Ok (DNS_ERR_ALL_FAILED, mk_answer [] 0,
        mk_resolver (map (fun h => server_result_of h false now) (health r)) (cache r)
          id (cache_hits r) misses) /\
  id = u16 (next_id r + zlen (health r)) /\ misses = cache_misses r + 1.
Proof.
  intros Hbad Hc. eexists _, _. split; [|done]. unfold dns_resolve. rewrite Hc.
  cbn [mbind option_bind]. unfold resolve_miss. rewrite ask_servers_bad by done.
  cbn [health set_health cache next_id cache_hits cache_misses].
  rewrite charge_all; [done|]. apply server_order_perm.
Qed.


(** C24: a lookup always returns. A live cached answer is returned without
    asking anyone; otherwise the servers are asked in order (every server
    once, those in backoff last) and the first definitive answer is returned:
    what the server sent to the query for the name passed all checks of the
    response parser. It is cached: until its lifetime, clamped to 30..3600
    seconds, is over, every lookup of the name (up to case) returns it,
    whatever the servers would say. Only when every server gave none is the
    lookup reported as failed. A failure is charged to each server that gave no
    answer, the one that answered gets a clean slate, and the counters of the
    others do not change. A name that cannot be encoded is charged to every
    server although none is asked. *)
Theorem dns_resolve_correct transport r name qtype now :
  resolver_ok r -> bytes_transport transport -> 0 < zlen name ->
  exists st out r',
    dns_resolve transport r name qtype now = Ok (st, out, r') /\ resolver_ok r' /\
    server_order r now ≡ₚ seq 0 (length (health r)) /\
    ((exists i hit, cache_find r name qtype = Some i /\ cache r !! i = Some hit /\
        now < expires_at hit /\ st = cache_status hit /\ out = cache_answer hit /\ health r' = health r /\
        forall transport', dns_resolve transport' r name qtype now = Ok (st, out, r')) \/
     (exists asked idx rest query reply, server_order r now = asked ++ idx :: rest /\
        failed_at transport (next_id r) name qtype asked /\
        dns_build_query (u16 (next_id r + zlen asked)) name qtype 512 = Ok query /\
        transport idx query = TR_REPLY reply /\
        response_ok reply (u16 (next_id r + zlen asked)) name qtype st out /\
        charged now asked (Some idx) (health r) (health r') /\
        (zlen name < DNS_NAME_MAX ->
         let ttl := clamp_ttl (if bool_decide (st = DNS_OK) then ans_ttl out else DNS_NEGATIVE_TTL) in
         forall transport' x t, ieq name x = true -> t < now + ttl ->
           exists r'', dns_resolve transport' r' x qtype t = Ok (st, mk_answer (addrs out) ttl, r''))) \/
     (st = DNS_ERR_ALL_FAILED /\ addrs out = [] /\
      failed_at transport (next_id r) name qtype (server_order r now) /\
      charged now (server_order r now) None (health r) (health r'))) /\
    ((forall enc, encode_name name 496 <> Ok enc) -> cache_find r name qtype = None ->
     st = DNS_ERR_ALL_FAILED /\ charged now (server_order r now) None (health r) (health r') /\
     forall transport', dns_resolve transport' r name qtype now = Ok (st, out, r')).
Proof.
  intros Hr Ht Hn.
  assert (Hbad : forall st out r', dns_resolve transport r name qtype now = Ok (st, out, r') ->
    (forall enc, encode_name name 496 <> Ok enc) -> cache_find r name qtype = None ->
    st = DNS_ERR_ALL_FAILED /\ charged now (server_order r now) None (health r) (health r') /\
    forall transport', dns_resolve transport' r name qtype now = Ok (st, out, r')).
  { intros st out r' E Henc Hc. destruct (dns_resolve_bad transport r name qtype now Henc Hc) as (id & ms & E' & -> & ->).
    rewrite E in E'. injection E' as -> -> ->. split; [done|]. split.
    - rewrite <- (charge_all _ (server_order r now) (health r)) by apply server_order_perm. apply after_failures_charged.
      rewrite server_order_perm. apply NoDup_ListNoDup, seq_NoDup.
    - intros transport'. by destruct (dns_resolve_bad transport' r name qtype now Henc Hc) as (? & ? & -> & -> & ->). }
  destruct (resolve_miss_ok transport r name qtype now Hr Ht Hn) as (st & out & r' & Em & Hr' & Hm).
  assert (Hmiss : dns_resolve transport r name qtype now = resolve_miss transport r name qtype now \/
    exists i hit, cache_find r name qtype = Some i /\ cache r !! i = Some hit /\ now < expires_at hit).
  { unfold dns_resolve. destruct (cache_find r name qtype) as [i|]; cbn [mbind option_bind]; [|by left].
    destruct (cache r !! i) as [hit|] eqn:Eh; cbn [fmap option_fmap option_map]; [|by left].
    destruct (Z.ltb_spec now (expires_at hit)); [|by left]. right. by exists i, hit. }
  pose proof (server_order_perm r now) as Hperm. destruct Hmiss as [Hmiss|(i & hit & Hf & Hi & Hx)].
  - exists st, out, r'. rewrite Hmiss in *. split; [done|]. split; [done|]. split; [done|]. split; [|by apply Hbad].
    right. destruct Hm as [(asked & idx & rest & Ho & Hfail & Hq & Hch & Hfind)|Hm]; [left|by right].
    destruct (query_server_answer _ _ _ _ _ _ _ Ht Hq) as (query & reply & Hb & Hrep & Hreply).
    exists asked, idx, rest, query, reply.
    split; [done|]. split; [done|]. split; [done|]. split; [done|]. split; [done|]. split; [done|]. intros Hlen ttl transport' x t Hieq Hlt.
    destruct (Hfind Hlen x Hieq) as (i & Hc & He). unfold dns_resolve. rewrite Hc.
    cbn [mbind option_bind]. rewrite He. cbn [fmap option_fmap option_map expires_at].
    fold ttl. rewrite (proj2 (Z.ltb_lt _ _)) by done. by eexists.
  - assert (E : forall transport', dns_resolve transport' r name qtype now =
      Ok (cache_status hit, cache_answer hit, mk_resolver (health r)
        (<[i := mk_cache (cache_name hit) (cache_qtype hit) (cache_status hit) (cache_answer hit)
                  (expires_at hit) now]> (cache r)) (next_id r) (cache_hits r + 1) (cache_misses r))).
    { intros transport'. unfold dns_resolve. rewrite Hf. cbn [mbind option_bind]. rewrite Hi.
      cbn [fmap option_fmap option_map]. by rewrite (proj2 (Z.ltb_lt _ _)). }
    eexists _, _, _. split; [apply E|]. split; [|split; [done|split; [left|by apply Hbad]]].
    + destruct Hr as [H1 H2 H3]. split; [|by apply (slots_unique_insert _ _ hit)|done].
      cbn [cache]. by rewrite length_insert.
    + exists i, hit. by repeat split.
Qed.

(** The second server answers. *)
Definition sample_transport (idx : nat) (query : list Z) : transport_result :=
  if (idx =? 0)%nat then TR_TIMEOUT else TR_REPLY (bput sample_reply 0 (bytes16 4661)).

Lemma sample_transport_bytes : bytes_transport sample_transport.
Proof.
  intros idx q reply H. unfold sample_transport in H. destruct (idx =? 0)%nat; [done|].
  injection H as <-. split; [apply bytes_okb_ok; vm_compute; reflexivity|done].
Qed.

Lemma dns_resolve_correct_witness :
  exists st out r',
    dns_resolve sample_transport (dns_resolver_init 2 4660) (str "a.io") DNS_QTYPE_A 1000
      = Ok (st, out, r') /\ resolver_ok r' /\ st = DNS_OK /\ map failures (health r') = [1; 0].
Proof.
  destruct (dns_resolve_correct sample_transport (dns_resolver_init 2 4660) (str "a.io") DNS_QTYPE_A 1000)
    as (st & out & r' & E & Hr & _).
  - apply dns_resolver_init_ok.
  - apply sample_transport_bytes.
  - reflexivity.
  - exists st, out, r'. split; [exact E|]. split; [exact Hr|].
    assert (Hs : (dns_resolve sample_transport (dns_resolver_init 2 4660) (str "a.io") DNS_QTYPE_A 1000
             ≫= fun x => Ok (fst (fst x), map failures (health (snd x)))) = Ok (DNS_OK, [1; 0])) by (vm_compute; reflexivity).
    rewrite E in Hs. cbn [mbind res_bind fst snd] in Hs. injection Hs as -> Hh. split; [reflexivity|exact Hh].
Defined.

(** ** Names that cannot be asked *)

(** A name that cannot be encoded (an empty or over-long label) is
    charged to the servers: a lookup of it asks nobody, fails, and counts as a
    failure of every server. After three such lookups every server is in
    backoff for a minute and the resolver calls itself unhealthy, although
    no query was ever sent. *)
Theorem bad_name_backs_off_every_server name qtype now n id :
  (forall enc, encode_name name 496 <> Ok enc) -> 0 < zlen name ->
  exists r3,
    (forall transport1 transport2 transport3,
       ('(_, _, r1) ← dns_resolve transport1 (dns_resolver_init n id) name qtype now;
        '(_, _, r2) ← dns_resolve transport2 r1 name qtype now;
        dns_resolve transport3 r2 name qtype now)
       = Ok (DNS_ERR_ALL_FAILED, mk_answer [] 0, r3)) /\
    forall t, t < now + DNS_SERVER_BACKOFF_SECONDS -> dns_resolver_healthy r3 t = false.
Proof.
  intros Hbad Hn. set (r0 := dns_resolver_init n id).
  assert (Hnone : forall r, cache r = cache r0 -> cache_find r name qtype = None).
  { intros r E. unfold cache_find. rewrite E. apply find_idx_None. intros i x Hx.
    apply lookup_replicate in Hx as [-> _]. done. }
  set (step := fun r => mk_resolver (map (fun h => server_result_of h false now) (health r)) (cache r)
    (u16 (next_id r + zlen (health r))) (cache_hits r) (cache_misses r + 1)).
  assert (Hstep : forall transport r, cache r = cache r0 ->
    dns_resolve transport r name qtype now = Ok (DNS_ERR_ALL_FAILED, mk_answer [] 0, step r)).
  { intros transport r E.
    by destruct (dns_resolve_bad transport r name qtype now Hbad (Hnone r E)) as (? & ? & -> & -> & ->). }
  exists (step (step (step r0))). split.
  - intros t1 t2 t3. rewrite Hstep by done. cbn [mbind res_bind]. rewrite Hstep by done.
    cbn [mbind res_bind]. by rewrite Hstep.
  - intros t Ht. unfold dns_resolver_healthy. cbn [health step]. unfold r0, dns_resolver_init.
    cbn [health]. generalize (n `min` DNS_MAX_SERVERS)%nat. intros k.
    induction k as [|k IH]; [done|]. cbn [replicate map existsb].
    rewrite IH. unfold server_result_of, zero_health. cbn [consecutive_failures skip_until].
    change (DNS_SERVER_FAIL_LIMIT <=? 0 + 1 + 1 + 1) with true. cbv iota. cbn [skip_until].
    by rewrite (proj2 (Z.leb_gt _ _)).
Qed.

Lemma bad_name_backs_off_every_server_witness :
  exists r3,
    (forall transport1 transport2 transport3,
       ('(_, _, r1) ← dns_resolve transport1 (dns_resolver_init 5 7) (str "a..b") DNS_QTYPE_A 1000;
        '(_, _, r2) ← dns_resolve transport2 r1 (str "a..b") DNS_QTYPE_A 1000;
        dns_resolve transport3 r2 (str "a..b") DNS_QTYPE_A 1000)
       = Ok (DNS_ERR_ALL_FAILED, mk_answer [] 0, r3)) /\
    forall t, t < 1000 + DNS_SERVER_BACKOFF_SECONDS -> dns_resolver_healthy r3 t = false.
Proof.
  apply (bad_name_backs_off_every_server (str "a..b") DNS_QTYPE_A 1000 5 7); [|reflexivity].
  intros enc. vm_compute. discriminate.
Defined.

(** ** Raw forwarding *)

(** The two walks over the question agree, and a name that fits bounds the
    question. *)
Lemma query_name_walk pkt size fuel pos name p nm :
  bytes_ok pkt -> 0 <= pos ->
  zlen name < size ->
  loop fuel (query_name_step pkt size) (pos, name) = Ok (p, nm) ->
  loop fuel (question_len_step pkt) pos = Ok p /\ pos <= p /\ zlen nm < size /\
  p - pos <= zlen nm - zlen name + (if 0 <? zlen name then 0 else 1).
Proof.
  intros Hb. revert pos name. induction fuel as [|fuel IH]; intros pos name Hp Hn H; [done|].
  revert H. rewrite !loop_S. unfold query_name_step at 1, question_len_step at 1.
  destruct (Z.leb_spec (zlen pkt) pos) as [Hl|Hl].
  { intros [= <- <-]. split; [done|]. destruct (0 <? zlen name); lia. }
  rewrite fetch_Ok by lia. cbn [mbind res_bind].
  pose proof (bytes_ok_get pkt pos Hb) as Hr. unfold is_u8 in Hr.
  destruct (Z.eqb_spec (bget pkt pos) 0) as [Hz|Hz].
  { intros [= <- <-]. split; [done|]. destruct (0 <? zlen name); lia. }
  destruct (negb (Z.land (bget pkt pos) 192 =? 0)); [done|]. cbn [orb].
  destruct (Z.ltb_spec (zlen pkt) (pos + 1 + bget pkt pos)) as [|Hlab]; [done|].
  destruct (Z.ltb_spec size (zlen name + bget pkt pos + 2)) as [|Hsz]; [done|].
  cbn [orb]. rewrite slice_Ok by lia. cbn [mbind res_bind]. intros H.
  assert (Hlen : zlen ((if 0 <? zlen name then name ++ [46] else name)
            ++ lower (bsub pkt (pos + 1) (bget pkt pos)))
          = zlen name + (if 0 <? zlen name then 1 else 0) + bget pkt pos).
  { rewrite zlen_app, zlen_lower, zlen_bsub by lia.
    destruct (0 <? zlen name); rewrite ?zlen_app; change (zlen [46]) with 1; lia. }
  pose proof (zlen_nonneg name). apply IH in H; [|lia|rewrite Hlen; destruct (0 <? zlen name); lia].
  destruct H as (H1 & H2 & H3 & H4). rewrite Hlen in H4. split; [done|]. split; [lia|].
  split; [done|]. destruct (Z.ltb_spec 0 (zlen name)); rewrite (proj2 (Z.ltb_lt _ _)) in H4 by lia; lia.
Qed.

Lemma query_name_loop_wp pkt size :
  bytes_ok pkt ->
  wp (loop (S (length pkt)) (query_name_step pkt size) (12, [])) (fun '(p, _) => 12 <= p) (fun _ => True).
Proof.
  intros Hb. apply (wp_loop (fun '(p, _) => 12 <= p) (fun st => Z.to_nat (zlen pkt - fst st)));
    [|done|unfold zlen; cbn; lia].
  intros [p name] Hp. unfold query_name_step. wp_step; [by apply wp_ok|].
  apply wp_bind, wp_fetch; [lia|]. pose proof (bytes_ok_get pkt p Hb) as Hr. unfold is_u8 in Hr.
  wp_step; [by apply wp_ok|]. cbv zeta. wp_step; [by apply wp_err|].
  apply wp_bind, wp_slice; [lia|]. apply wp_ok. cbn [fst]. lia.
Qed.

Lemma question_len_wp pkt :
  bytes_ok pkt ->
  wp (question_len pkt) (fun ql => 5 <= ql /\ 12 + ql <= zlen pkt) (fun _ => True).
Proof.
  intros Hb. unfold question_len. apply wp_bind.
  apply (wp_loop (fun p => 12 <= p) (fun p => Z.to_nat (zlen pkt - p)));
    [|done|unfold zlen; lia].
  intros p Hp. assert (Hend : wp (if zlen pkt <? p + 5 then Err tt else Ok (p + 5 - 12))
    (fun ql => 5 <= ql /\ 12 + ql <= zlen pkt) (fun _ => True)).
  { wp_step; [by apply wp_err|apply wp_ok; lia]. }
  unfold question_len_step. wp_step; [by apply wp_ok|].
  apply wp_bind, wp_fetch; [lia|]. pose proof (bytes_ok_get pkt p Hb) as Hr. unfold is_u8 in Hr.
  wp_step; [by apply wp_ok|]. wp_step; [by apply wp_err|]. apply wp_ok. lia.
Qed.

(** A query the reader accepts has a question of at most 259 bytes. *)
Lemma dns_query_info_wp pkt :
  bytes_ok pkt ->
  wp (dns_query_info pkt DNS_NAME_MAX)
    (fun '(name, qtype, size) => 512 <= size /\
       exists ql, question_len pkt = Ok ql /\ 5 <= ql <= 259 /\ 12 + ql <= zlen pkt)
    (fun _ => True).
Proof.
  intros Hb. unfold dns_query_info. wp_step; [by apply wp_err|].
  apply wp_bind, wp_fetch; [lia|]. apply wp_bind, wp_fetch16; [lia|].
  wp_step; [by apply wp_err|]. apply wp_bind.
  pose proof (query_name_loop_wp pkt DNS_NAME_MAX Hb) as Hw.
  pose proof (query_name_walk pkt DNS_NAME_MAX (S (length pkt)) 12 []) as Hwalk.
  destruct (loop (S (length pkt)) (query_name_step pkt DNS_NAME_MAX) (12, [])) as [[p nm]| |]; [|done|done].
  destruct (Hwalk p nm Hb) as (W1 & W2 & W3 & W4); [lia|by vm_compute|done|].
  unfold DNS_NAME_MAX in *. change (zlen (@nil Z)) with 0 in *.
  change (0 <? 0) with false in W4. cbv iota in W4.
  apply wp_ok. wp_step; [by apply wp_err|].
  assert (Hq : exists ql, question_len pkt = Ok ql /\ 5 <= ql <= 259 /\ 12 + ql <= zlen pkt).
  { exists (p + 5 - 12). split; [|lia]. unfold question_len. rewrite W1. cbn [mbind res_bind].
    by rewrite (proj2 (Z.ltb_ge _ _)) by lia. }
  apply wp_bind, wp_fetch16; [lia|]. cbv zeta.
  do 3 (apply wp_bind, wp_fetch16; [lia|]).
  wp_step; [apply wp_ok; split; [lia|done]|].
  apply wp_bind, wp_fetch; [lia|]. do 2 (apply wp_bind, wp_fetch16; [lia|]).
  apply wp_ok. split; [|done]. destruct (_ && (512 <? _)) eqn:E; [|lia].
  apply andb_prop in E as [_ E]. zbool. lia.
Qed.

(** Replies with the client's own header and question. *)
Definition echoes (query out : list Z) (ql : Z) : Prop :=
  zlen out = 12 + ql /\ bytes_ok out /\ bget16 out 0 = bget16 query 0 /\
  bsub out 12 ql = bsub query 12 ql /\ Z.land (bget out 2) 128 <> 0.

Lemma header_flag_bits b :
  is_u8 b ->
  is_u8 (Z.lor (Z.lor (Z.land b 121) 128) 2) /\
  Z.land (Z.lor (Z.lor (Z.land b 121) 128) 2) 128 <> 0 /\
  Z.land (Z.lor (Z.lor (Z.land b 121) 128) 2) 2 <> 0 /\
  is_u8 (Z.land (Z.lor (Z.lor (Z.land b 121) 128) 2) 253) /\
  Z.land (Z.land (Z.lor (Z.lor (Z.land b 121) 128) 2) 253) 128 <> 0.
Proof.
  intros Hb. unfold is_u8 in *.
  assert (H : forallb (fun b => let x := Z.lor (Z.lor (Z.land b 121) 128) 2 in
    (0 <=? x) && (x <? 256) && negb (Z.land x 128 =? 0) && negb (Z.land x 2 =? 0)
    && (0 <=? Z.land x 253) && (Z.land x 253 <? 256) && negb (Z.land (Z.land x 253) 128 =? 0))
    (map Z.of_nat (seq 0 256)) = true) by (vm_compute; reflexivity).
  rewrite forallb_forall in H. specialize (H b). cbv zeta in H.
  assert (Hin : In b (map Z.of_nat (seq 0 256))).
  { rewrite in_map_iff. exists (Z.to_nat b). split; [lia|]. apply in_seq. lia. }
  specialize (H Hin). zbool. repeat split; lia || done.
Qed.

(** One byte of a header. *)
Lemma wp_store_byte {E} b off x (Q : list Z -> Prop) (R : E -> Prop) :
  0 <= off < zlen b -> bytes_ok b -> is_u8 x ->
  (forall b', zlen b' = zlen b -> bytes_ok b' -> bget b' off = x ->
     (forall i, 0 <= i -> i <> off -> bget b' i = bget b i) -> Q b') ->
  wp (store b off [x]) Q R.
Proof.
  intros Hoff Hb Hx HQ. change (zlen [x]) with 1 in *.
  apply wp_store_upd; [change (zlen [x]) with 1; lia|]. intros b' [U1 U2 U3 U4].
  change (zlen [x]) with 1 in *. apply HQ; [done|by apply U4; [|by constructor]| |].
  - rewrite U2 by lia. by rewrite Z.sub_diag.
  - intros i Hi Hne. apply U3; lia.
Qed.

Lemma dns_truncated_reply_wp query ql out_size :
  bytes_ok query -> question_len query = Ok ql -> 12 + ql <= zlen query -> 5 <= ql ->
  12 + ql <= out_size ->
  wp (dns_truncated_reply query out_size)
    (fun out => echoes query out ql /\ Z.land (bget out 2) 2 <> 0 /\
       bget out 2 = Z.lor (Z.lor (Z.land (bget query 2) 121) 128) 2)
    (fun _ => False).
Proof.
  intros Hb Hq Hl H5 Hs. unfold dns_truncated_reply. rewrite Hq. cbn [mbind res_bind].
  rewrite (proj2 (Z.ltb_ge _ _)) by lia. rewrite slice_Ok by lia. cbn [mbind res_bind].
  destruct (header_flag_bits (bget query 2) (bytes_ok_get _ _ Hb)) as (F1 & F2 & F3 & _).
  set (out0 := bsub query 0 (12 + ql)).
  assert (Hl0 : zlen out0 = 12 + ql) by (apply zlen_bsub; lia).
  assert (Hb0 : bytes_ok out0) by (by apply bytes_ok_bsub).
  assert (Hg0 : forall i, 0 <= i < 12 + ql -> bget out0 i = bget query i).
  { intros i Hi. unfold out0. rewrite bget_bsub by lia. done. }
  clearbody out0.
  apply wp_bind, wp_fetch; [lia|].
  apply wp_bind, wp_store_byte; [lia|done|done|]. intros o1 L1 B1 G1 K1.
  apply wp_bind, wp_store_byte; [lia|done|by vm_compute|]. intros o2 L2 B2 G2 K2.
  apply wp_bind, wp_store_upd; [change (zlen [0; 0]) with 2; lia|]. intros o3 [L3 _ K3 B3].
  apply wp_bind, wp_store_upd; [change (zlen [0; 0]) with 2; lia|]. intros o4 [L4 _ K4 B4].
  apply wp_store_upd; [change (zlen [0; 0]) with 2; lia|]. intros o5 [L5 _ K5 B5].
  change (zlen [0; 0]) with 2 in *. pose proof bytes_ok_00 as B0.
  assert (Hk : forall i, 0 <= i < 12 + ql -> i < 2 \/ 12 <= i -> bget o5 i = bget query i).
  { intros i Hi Hc. rewrite K5, K4, K3, K2, K1, Hg0 by lia. done. }
  assert (E2 : bget o5 2 = Z.lor (Z.lor (Z.land (bget query 2) 121) 128) 2).
  { rewrite K5, K4, K3, K2 by lia. done. }
  split; [|by rewrite E2]. split; [lia|]. split; [auto|].
  split; [apply bget16_ext; apply Hk; lia|]. split; [|by rewrite E2].
  apply bsub_ext; try lia. intros i Hi. apply Hk; lia.
Qed.

Lemma dns_servfail_reply_wp query ql out_size :
  bytes_ok query -> question_len query = Ok ql -> 12 + ql <= zlen query -> 5 <= ql ->
  12 + ql <= out_size ->
  wp (dns_servfail_reply query out_size)
    (fun out => echoes query out ql /\ bget out 3 = 130) (fun _ => False).
Proof.
  intros Hb Hq Hl H5 Hs. unfold dns_servfail_reply. apply wp_bind.
  eapply wp_mono; [| |apply (dns_truncated_reply_wp query ql out_size); done]; [|done].
  intros o ((Lo & Bo & G0 & Gq & _) & _ & E2).
  destruct (header_flag_bits (bget query 2) (bytes_ok_get _ _ Hb)) as (_ & _ & _ & F4 & F5).
  rewrite <- E2 in F4, F5. apply wp_bind, wp_fetch; [lia|].
  apply wp_bind, wp_store_byte; [lia|done|done|]. intros o1 L1 B1 G1 K1.
  apply wp_store_byte; [lia|done|by vm_compute|]. intros o2 L2 B2 G2 K2.
  assert (Hk : forall i, 0 <= i < 12 + ql -> i < 2 \/ 12 <= i -> bget o2 i = bget o i).
  { intros i Hi Hc. by rewrite K2, K1 by lia. }
  split; [|done]. split; [lia|]. split; [done|].
  split; [rewrite <- G0; apply bget16_ext; apply Hk; lia|]. split.
  - rewrite <- Gq. apply bsub_ext; try lia. intros i Hi. apply Hk; lia.
  - by rewrite K2, G1 by lia.
Qed.

(** What an accepted raw reply is. *)
Definition replies_to (query reply : list Z) : Prop :=
  12 <= zlen reply <= 65535 /\ bytes_ok reply /\ bget16 reply 0 = bget16 query 0 /\
  Z.land (bget reply 2) 128 <> 0.

(** And it repeats the question, up to case. *)
Definition same_question (query reply : list Z) : Prop :=
  exists ql, question_len query = Ok ql /\ ieq (bsub reply 12 ql) (bsub query 12 ql) = true.
(** A reply that ends the walk over the trusted servers: a response with the
    query's id and its question, and neither SERVFAIL nor REFUSED. *)
Definition useful (query reply : list Z) : Prop :=
  exists ql, question_len query = Ok ql /\ 12 + ql <= zlen reply /\ bget16 reply 0 = bget16 query 0 /\
    Z.land (bget reply 2) 128 <> 0 /\ bget16 reply 4 = 1 /\ ieq (bsub reply 12 ql) (bsub query 12 ql) = true /\
    Z.land (bget reply 3) 15 <> 2 /\ Z.land (bget reply 3) 15 <> 5.
(** What one of the trusted servers sent to the query. *)
Definition from_trusted (transport : dns_transport) (query reply : list Z) : Prop :=
  (exists idx, transport idx query = TR_REPLY reply) /\ same_question query reply.

(** None of the servers sent a useful reply. *)
Definition unanswered (transport : dns_transport) (query : list Z) (servers : list nat) : Prop :=
  forall x reply, x ∈ servers -> transport x query = TR_REPLY reply -> ~ useful query reply.

Lemma acceptable_wp query reply :
  bytes_ok query -> message_ok reply ->
  wp (acceptable query reply)
    (fun ok => (ok = true -> replies_to query reply /\ same_question query reply) /\ (ok = false -> ~ useful query reply))
    (fun _ => True).
Proof.
  intros Hq [Hr Hmax]. unfold acceptable.
  assert (Hm : wp (reply_matches query reply) (fun _ => replies_to query reply /\
    exists ql, question_len query = Ok ql /\ ieq (bsub reply 12 ql) (bsub query 12 ql) = true)
    (fun _ => ~ useful query reply)).
  { unfold reply_matches. pose proof (question_len_wp query Hq) as Hw. unfold useful.
    destruct (question_len query) as [ql| |]; [|by intros (? & ? & _)|done]. destruct Hw as [H5 Hl].
    cbn [mbind res_bind]. wp_step; [apply wp_err; intros (? & [= <-] & ? & _); lia|].
    do 2 (apply wp_bind, wp_fetch16; [lia|]). apply wp_bind, wp_fetch; [lia|].
    apply wp_bind, wp_fetch16; [lia|]. wp_step.
    { apply wp_err. intros (? & [= <-] & _ & ? & ? & ? & _). zbool. lia. }
    do 2 (apply wp_bind, wp_slice; [lia|]). wp_step.
    { apply wp_err. intros (? & [= <-] & _ & _ & _ & _ & ? & _). zbool. congruence. }
    apply wp_ok. split; [|by exists ql]. split; [lia|]. done. }
  destruct (reply_matches query reply) as [[]| |]; [|by apply wp_ok|done].
  destruct Hm as [Hrep Hql]. destruct Hrep as (H12 & Hrest).
  apply wp_bind, wp_fetch; [lia|]. apply wp_ok. split; [done|].
  intros E (? & _ & _ & _ & _ & _ & _ & H2 & H5). zbool. lia.
Qed.

Lemma exchange_servers_wp transport r order query now :
  bytes_ok query -> bytes_transport transport ->
  wp (exchange_servers transport r order query now)
    (fun '(n, r') => (forall reply, n = Some reply -> replies_to query reply /\ from_trusted transport query reply) /\
       (n = None -> unanswered transport query order) /\ cache r' = cache r /\ length (health r') = length (health r))
    (fun _ => False).
Proof.
  intros Hq Ht. revert r. induction order as [|x order IH]; intros r; cbn [exchange_servers].
  { apply wp_ok. split; [done|]. split; [|done]. intros _ x reply Hx. by apply not_elem_of_nil in Hx. }
  cbv zeta. apply wp_bind.
  set (ok := match transport x query with TR_REPLY reply => _ | _ => _ end).
  assert (Hok : wp ok (fun b => (b = true -> exists reply, transport x query = TR_REPLY reply /\
                         replies_to query reply /\ same_question query reply) /\
                       (b = false -> unanswered transport query [x])) (fun _ => False)).
  { assert (Hone : (forall reply, transport x query = TR_REPLY reply -> ~ useful query reply) -> unanswered transport query [x])
      by (intros H y reply Hy%list_elem_of_singleton; subst y; apply H).
    unfold ok. destruct (transport x query) as [| |reply] eqn:E; [apply wp_ok; split; [done|]; intros _; by apply Hone..|].
    wp_step.
    2: { apply wp_ok. split; [done|]. intros _. apply Hone. intros ? [= <-] (ql & Eq & Hl & _).
         pose proof (question_len_wp query Hq) as Hw. rewrite Eq in Hw. destruct Hw. lia. }
    pose proof (acceptable_wp query reply Hq (Ht _ _ _ E)) as Hw.
    assert (He : forall e, acceptable query reply <> Err e).
    { intros e Ee. unfold acceptable in Ee. destruct (reply_matches query reply); [|done|done].
      unfold fetch in Ee. destruct (_ && _) in Ee; done. }
    destruct (acceptable query reply) as [b|e|]; [|by destruct (He e)|done].
    destruct Hw as [Hw1 Hw2]. split; [intros ->; exists reply; split; [done|by apply Hw1]|].
    intros Hf. apply Hone. intros ? [= <-]. by apply Hw2. }
  destruct ok as [b| |]; [|done|done]. apply wp_ok. cbn in Hok. destruct Hok as [Hok Hno].
  assert (Hlen : length (health (server_result r x b now)) = length (health r)).
  { unfold server_result, set_health. cbn [health]. by rewrite length_alter. }
  assert (Hrec : wp (exchange_servers transport (server_result r x b now) order query now)
    (fun '(n, r') => (forall reply, n = Some reply -> replies_to query reply /\ from_trusted transport query reply) /\
       (n = None -> unanswered transport query order) /\ cache r' = cache r /\ length (health r') = length (health r)) (fun _ => False)).
  { eapply wp_mono; [| |apply IH]; [|done]. intros [n r'] (H1 & H2 & H3 & H4).
    split; [done|]. split; [done|]. split; [done|congruence]. }
  assert (Hall : b = false -> wp (exchange_servers transport (server_result r x b now) order query now)
    (fun '(n, r') => (forall reply, n = Some reply -> replies_to query reply /\ from_trusted transport query reply) /\
       (n = None -> unanswered transport query (x :: order)) /\ cache r' = cache r /\ length (health r') = length (health r)) (fun _ => False)).
  { intros Hf. eapply wp_mono; [| |exact Hrec]; [|done]. intros [n r'] (H1 & H2 & H3). split; [done|]. split; [|done].
    intros En y reply [-> |Hy]%elem_of_cons; [apply (Hno Hf); by apply list_elem_of_singleton|by apply H2]. }
  destruct (transport x query) as [| |reply] eqn:E.
  1, 2: destruct b; [by destruct (Hok eq_refl) as (? & ? & _)|by apply Hall].
  destruct b; [|by apply Hall]. apply wp_ok. destruct (Hok eq_refl) as (reply' & [= <-] & Hrep & Hsame).
  split; [|done]. intros ? [= <-]. split; [done|]. split; [by exists x|done].
Qed.

Lemma dns_exchange_wp transport r query now :
  bytes_ok query -> bytes_transport transport ->
  wp (dns_exchange transport r query now)
    (fun '(n, r') => (forall reply, n = Some reply -> replies_to query reply /\ from_trusted transport query reply) /\
       (n = None -> unanswered transport query (server_order r now)) /\ cache r' = cache r /\ length (health r') = length (health r))
    (fun _ => False).
Proof.
  intros Hq Ht. unfold dns_exchange. pose proof (question_len_wp query Hq) as Hw.
  assert (Hu : forall e, question_len query = Err e -> forall l, unanswered transport query l)
    by (intros e E l x reply _ _ (ql & E' & _); congruence).
  wp_step.
  { apply wp_ok. split; [done|]. split; [|done]. intros _ x reply _ _ (ql & E & _). rewrite E in Hw. destruct Hw. lia. }
  destruct (question_len query) as [ql|e|]; [by apply exchange_servers_wp| |done].
  apply wp_ok. split; [done|]. split; [|done]. intros _. by eapply Hu.
Qed.
