(* ===== verification/Socket.v ===== *)
(** * Stream sockets as the program sees them

    What successive [recv] and [send] calls on a connected socket do is a list
    of events, any list: the peer, the kernel and the scheduler decide it. The
    loops the program wraps around these calls ([recv_exact] of [socks.c],
    [read_full] and [write_full] of [dnsfwd.c], [relay_send_all] of [relay.c])
    are recursions over the events; their lemmas say that how the stream is cut
    makes no difference. [inet_ntop] is glibc's. *)

From stdpp Require Import base list numbers strings.
From Stdlib Require Import ZArith Lia.
From S2P Require Import Prelude Text.

(** ** Receiving *)

(** One [recv]: bytes that are there (none: the peer has closed), an
    interrupted call, or an error. Past the end of the list the peer has
    closed. *)
Inductive rx_event :=
| RX_DATA (d : list Z)
| RX_INTR
| RX_ERROR.

Inductive rx_end := RX_CLOSED | RX_FAILED.

(** The bytes of a stream up to its end. *)
Fixpoint rx_bytes (s : list rx_event) : list Z :=
  match s with
  | [] | RX_DATA [] :: _ | RX_ERROR :: _ => []
  | RX_DATA d :: s' => d ++ rx_bytes s'
  | RX_INTR :: s' => rx_bytes s'
  end.

(** How it ends. *)
Fixpoint rx_how (s : list rx_event) : rx_end :=
  match s with
  | [] | RX_DATA [] :: _ => RX_CLOSED
  | RX_ERROR :: _ => RX_FAILED
  | RX_DATA _ :: s' | RX_INTR :: s' => rx_how s'
  end.

(** [recv_exact]: exactly [need] bytes and the stream after them, or how the
    stream ended first ([Err RX_CLOSED] is the 0 return). *)
Fixpoint recv_exact (s : list rx_event) (need : Z) (got : list Z)
  : res rx_end (list Z * list rx_event) :=
  if need <=? zlen got then Ok (got, s) else
  match s with
  | [] | RX_DATA [] :: _ => Err RX_CLOSED
  | RX_ERROR :: _ => Err RX_FAILED
  | RX_INTR :: s' => recv_exact s' need got
  | RX_DATA d :: s' =>
      let left := need - zlen got in
      if zlen d <=? left then recv_exact s' need (got ++ d)
      else Ok (got ++ bsub d 0 left, RX_DATA (bfrom d left) :: s')
  end.

Lemma bsub_bfrom_split (d : list Z) n : bsub d 0 n ++ bfrom d n = d.
Proof. unfold bsub, bfrom. change (Z.to_nat 0) with 0%nat. rewrite drop_0. apply take_drop. Qed.

Lemma zlen_eq0 {A} (l : list A) : zlen l <= 0 -> l = [].
Proof. unfold zlen. destruct l; cbn [length]; [done|lia]. Qed.

(** It reads the next [need] bytes of the stream, however they arrive, and
    leaves the rest; it fails exactly when the stream is too short. *)
Lemma recv_exact_spec s need got :
  zlen got <= need ->
  match recv_exact s need got with
  | Ok (b, s') => zlen b = need /\ got ++ rx_bytes s = b ++ rx_bytes s' /\ rx_how s' = rx_how s
  | Err e => zlen got + zlen (rx_bytes s) < need /\ e = rx_how s
  | Fault => False
  end.
Proof.
  revert got. induction s as [|ev s IH]; intros got Hg; cbn [recv_exact].
  - destruct (Z.leb_spec need (zlen got)); cbn [rx_bytes]; [split; [lia|done]|].
    change (zlen (@nil Z)) with 0. split; [lia|done].
  - destruct (Z.leb_spec need (zlen got)); [split; [lia|done]|].
    destruct ev as [[|x d]| |]; cbn [rx_bytes rx_how].
    + change (zlen (@nil Z)) with 0. split; [lia|done].
    + set (data := x :: d). destruct (Z.leb_spec (zlen data) (need - zlen got)) as [Hle|Hgt].
      * specialize (IH (got ++ data)). rewrite zlen_app in IH. specialize (IH ltac:(lia)).
        destruct (recv_exact s need (got ++ data)) as [[b s']|e|]; [| |done].
        -- by rewrite <- app_assoc in IH.
        -- rewrite zlen_app. destruct IH. split; [lia|done].
      * rewrite zlen_app, zlen_bsub by lia. split; [lia|].
        assert (Hne : bfrom data (need - zlen got) <> []).
        { intros E. pose proof (zlen_bfrom data (need - zlen got)) as Hz. rewrite E in Hz.
          change (zlen (@nil Z)) with 0 in Hz. lia. }
        destruct (bfrom data (need - zlen got)) as [|y r] eqn:E; [done|]. split; [|done].
        cbn [rx_bytes]. rewrite <- E, <- app_assoc, (app_assoc (bsub _ _ _)), bsub_bfrom_split. done.
    + by apply IH.
    + change (zlen (@nil Z)) with 0. split; [lia|done].
Qed.

(** ** Sending *)

Inductive tx_event :=
| TX_SENT (n : Z)
| TX_INTR
| TX_ERROR.

(** [relay_send_all]: did everything go out, and what did. A call past the
    end of the list fails. *)
Fixpoint relay_send_all (evs : list tx_event) (buffer : list Z) : bool * list Z :=
  match buffer with
  | [] => (true, [])
  | _ =>
      match evs with
      | [] | TX_ERROR :: _ => (false, [])
      | TX_INTR :: evs' => relay_send_all evs' buffer
      | TX_SENT n :: evs' =>
          if n <=? 0 then (false, []) else
          let '(ok, out) := relay_send_all evs' (bfrom buffer n) in
          (ok, bsub buffer 0 n ++ out)
      end
  end.

(** What goes out is a prefix of the buffer, the whole of it on success. *)
Lemma relay_send_all_spec evs buffer :
  let '(ok, out) := relay_send_all evs buffer in
  out `prefix_of` buffer /\ (ok = true -> out = buffer).
Proof.
  revert buffer. induction evs as [|ev evs IH]; intros buffer.
  - destruct buffer as [|x b]; cbn [relay_send_all]; [done|]. split; [apply prefix_nil|done].
  - destruct buffer as [|x b]; [done|]. cbn [relay_send_all].
    destruct ev as [n| |]; [|by apply IH|by split; [apply prefix_nil|]].
    destruct (Z.leb_spec n 0); [by split; [apply prefix_nil|]|].
    specialize (IH (bfrom (x :: b) n)).
    destruct (relay_send_all evs (bfrom (x :: b) n)) as [ok out]. destruct IH as [Hp Ho].
    split; [|intros Hok; rewrite (Ho Hok); apply bsub_bfrom_split].
    pose proof (bsub_bfrom_split (x :: b) n) as E. rewrite <- E at 2. by apply prefix_app.
Qed.

(** ** Addresses as text *)

(** [inet_ntop(AF_INET, a, ...)] *)
Definition inet_ntop4 (a : list Z) : list Z :=
  print_dec (bget a 0) ++ 46 :: print_dec (bget a 1) ++ 46 :: print_dec (bget a 2)
  ++ 46 :: print_dec (bget a 3).

(** The longest run of zero groups, the first of the longest: [(start, length)]
    scanning from group [i] with the current run [cur]. *)
Fixpoint zero_run (groups : list Z) (i : Z) (cur best : Z * Z) : Z * Z :=
  let better := if snd best <? snd cur then cur else best in
  match groups with
  | [] => better
  | g :: groups' =>
      if g =? 0
      then zero_run groups' (i + 1) (if snd cur =? 0 then (i, 1) else (fst cur, snd cur + 1)) best
      else zero_run groups' (i + 1) (i + 1, 0) better
  end.

(** [%x] *)
Fixpoint trim_zeros (l : list Z) : list Z :=
  match l with
  | c :: ((_ :: _) as l') => if c =? 48 then trim_zeros l' else l
  | _ => l
  end.
Definition print_hex16 (n : Z) : list Z := trim_zeros (hex_digits 4 n).

(** The groups from [i] on; the run [best] (of at least two) is "::". *)
Fixpoint ntop6_groups (groups : list Z) (i : Z) (best : Z * Z) : list Z :=
  match groups with
  | [] => if (2 <=? snd best) && (fst best + snd best =? 8) then [58] else []
  | g :: groups' =>
      if (2 <=? snd best) && (fst best <=? i) && (i <? fst best + snd best)
      then (if i =? fst best then [58] else []) ++ ntop6_groups groups' (i + 1) best
      else (if i =? 0 then [] else [58]) ++ print_hex16 g ++ ntop6_groups groups' (i + 1) best
  end.

(** [inet_ntop(AF_INET6, a, ...)]: an address whose first six groups are the
    run of zeros, or five and then ffff, ends in dotted decimal. *)
Definition inet_ntop6 (a : list Z) : list Z :=
  let groups := map (fun k => bget16 a (2 * Z.of_nat k)) (seq 0 8) in
  let best := zero_run groups 0 (0, 0) (0, 0) in
  if (fst best =? 0)
     && ((snd best =? 6) || ((snd best =? 5) && (bget16 a 10 =? 65535)))
  then ntop6_groups (take 6 groups) 0 best ++ 58 :: inet_ntop4 (bfrom a 12)
  else ntop6_groups groups 0 best.

Example ntop6_loopback : inet_ntop6 (replicate 15 0 ++ [1]) = str "::1".
Proof. vm_compute. reflexivity. Qed.
Example ntop6_any : inet_ntop6 (replicate 16 0) = str "::".
Proof. vm_compute. reflexivity. Qed.
Example ntop6_mapped : inet_ntop6 (replicate 10 0 ++ [255; 255; 1; 2; 3; 4]) = str "::ffff:1.2.3.4".
Proof. vm_compute. reflexivity. Qed.
Example ntop6_middle :
  inet_ntop6 [32; 1; 13; 184; 0; 0; 0; 0; 0; 1; 0; 0; 0; 0; 0; 1] = str "2001:db8::1:0:0:1".
Proof. vm_compute. reflexivity. Qed.

(** *** Lengths *)

Lemma dec_digits_length fuel n : (length (dec_digits fuel n) <= fuel)%nat.
Proof.
  revert n. induction fuel as [|fuel IH]; intros n; [done|]. cbn [dec_digits].
  destruct (n <? 10); [cbn; lia|]. rewrite length_app. specialize (IH (n / 10)). cbn. lia.
Qed.

Lemma zlen_print_dec n : 0 <= n -> zlen (print_dec n) <= 20.
Proof.
  intros H. unfold print_dec. rewrite (proj2 (Z.ltb_ge _ _)) by done.
  pose proof (dec_digits_length 20 n). unfold zlen. lia.
Qed.

Lemma zlen_print_byte n : is_u8 n -> zlen (print_dec n) <= 3.
Proof.
  intros Hn.
  assert (H : forallb (fun k => zlen (print_dec (Z.of_nat k)) <=? 3) (seq 0 256) = true)
    by (vm_compute; reflexivity).
  rewrite forallb_forall in H. specialize (H (Z.to_nat n)). unfold is_u8 in Hn.
  rewrite Z2Nat.id in H by lia. apply Z.leb_le, H, in_seq. lia.
Qed.

Lemma zlen_inet_ntop4 a : bytes_ok a -> zlen (inet_ntop4 a) <= 15.
Proof.
  intros Ha. unfold inet_ntop4.
  assert (H : forall i, zlen (print_dec (bget a i)) <= 3)
    by (intros i; by apply zlen_print_byte, bytes_ok_get).
  rewrite zlen_app, zlen_cons, zlen_app, zlen_cons, zlen_app, zlen_cons.
  pose proof (H 0). pose proof (H 1). pose proof (H 2). pose proof (H 3). lia.
Qed.

Lemma zlen_print_hex16 n : zlen (print_hex16 n) <= 4.
Proof.
  assert (Ht : forall l, zlen (trim_zeros l) <= zlen l).
  { induction l as [|c l IH]; [done|]. cbn [trim_zeros]. destruct l as [|c' l]; [done|].
    destruct (c =? 48); [|done]. rewrite (zlen_cons c). lia. }
  unfold print_hex16. etrans; [apply Ht|]. cbn [hex_digits app]. done.
Qed.

Lemma zlen_ntop6_groups gs i best : zlen (ntop6_groups gs i best) <= 5 * zlen gs + 1.
Proof.
  revert i. induction gs as [|g gs IH]; intros i; cbn [ntop6_groups].
  - by destruct (_ && _).
  - specialize (IH (i + 1)). pose proof (zlen_print_hex16 g). pose proof (zlen_nonneg (print_hex16 g)).
    rewrite zlen_cons. destruct (_ && _ && _); [destruct (i =? fst best)|destruct (i =? 0)];
      rewrite ?zlen_app; change (zlen [58]) with 1; change (zlen (@nil Z)) with 0; lia.
Qed.

Lemma zlen_inet_ntop6 a : bytes_ok a -> zlen (inet_ntop6 a) <= 47.
Proof.
  intros Ha. unfold inet_ntop6. cbv zeta. set (gs := map _ (seq 0 8)). set (best := zero_run _ _ _ _).
  pose proof (zlen_inet_ntop4 (bfrom a 12) (bytes_ok_bfrom a 12 Ha)).
  destruct (_ && _).
  - rewrite zlen_app, zlen_cons. pose proof (zlen_ntop6_groups (take 6 gs) 0 best).
    change (zlen (take 6 gs)) with 6 in *. lia.
  - pose proof (zlen_ntop6_groups gs 0 best). change (zlen gs) with 8 in *. lia.
Qed.
