(* ===== verification/Nft.v ===== *)
(** * The engine's nftables table ([src/nfqueue/nft_rules.c])

    The ruleset text and the way it is handed to the [nft] command. The
    command itself is a parameter: what it does with a text to the tables of
    the machine ([tables], any type) and its exit status. *)

From stdpp Require Import base list numbers strings relations.
From Stdlib Require Import ZArith Lia.
From S2P Require Import Prelude Text Socket.

Definition NFT_TABLE_NAME : list Z := str "dpi_proxy".
Definition NFT_CHAIN_NAME : list Z := str "output".
Definition NFT_ANTILOOP_MARK : Z := 0x2a4b.

Definition tab : list Z := [9].
Definition line (s : list Z) : list Z := s ++ [10].

(** [%x] for a number below 2^16. *)
Definition print_x (n : Z) : list Z := print_hex16 n.

Definition create_text (queue_num : Z) : list Z :=
  line (str "table inet " ++ NFT_TABLE_NAME ++ str " {") ++
  line (tab ++ str "chain " ++ NFT_CHAIN_NAME ++ str " {") ++
  line (tab ++ tab ++ str "type filter hook output priority filter; policy accept;") ++
  line (tab ++ tab ++ str "tcp dport { 80, 443 } meta mark != 0x" ++ print_x NFT_ANTILOOP_MARK ++
        str " counter queue num " ++ print_dec queue_num ++ str " bypass") ++
  line (tab ++ str "}") ++
  line (str "}").

(** The text; empty stands for the return value 0. *)
Definition nft_rules_generate_create (out_size queue_num : Z) : list Z :=
  let text := create_text queue_num in
  if out_size <=? zlen text then [] else text.

Definition delete_text : list Z := line (str "delete table inet " ++ NFT_TABLE_NAME).

(** What the system does for one run of the command. *)
Record nft_run := mk_nft_run {
  nr_pipe : bool;
  nr_fork : bool;
  nr_writes : list tx_event;
  nr_wait : bool
}.

Section nft.
Context {tables : Type}.
(** What the command does with a ruleset, and its exit status ([None] when
    it is killed). *)
Context (nft : list Z -> tables -> tables * option Z).

(** What the write loop writes; interrupted writes are repeated, a failed one
    ends the text. *)
Fixpoint write_pipe (evs : list tx_event) (data : list Z) : list Z :=
  match data, evs with
  | _ :: _, TX_SENT n :: evs' => bsub data 0 n ++ write_pipe evs' (bfrom data n)
  | _ :: _, TX_INTR :: evs' => write_pipe evs' data
  | _, _ => []
  end.

Definition run_nft_with_stdin (r : nft_run) (data : list Z) (t : tables) : tables * Z :=
  if negb (nr_pipe r) then (t, -1) else
  if negb (nr_fork r) then (t, -1) else
  let '(t, status) := nft (write_pipe (nr_writes r) data) t in
  if negb (nr_wait r) then (t, -1) else
  match status with
  | Some code => if code =? 0 then (t, 0) else (t, -1)
  | None => (t, -1)
  end.

Definition nft_rules_remove (r : nft_run) (t : tables) : tables * Z :=
  let ruleset := bsub delete_text 0 127 in
  let '(t, _) := run_nft_with_stdin r ruleset t in (t, 0).

Definition nft_rules_apply (r1 r2 : nft_run) (queue_num : Z) (t : tables) : tables * Z :=
  let '(t, _) := nft_rules_remove r1 t in
  let ruleset := nft_rules_generate_create 512 queue_num in
  if zlen ruleset =? 0 then (t, -1) else run_nft_with_stdin r2 ruleset t.

(** ** Correctness *)

(** The command could be run and took the whole text. *)
Record nft_runs (r : nft_run) (data : list Z) : Prop := {
  nrs_pipe : nr_pipe r = true;
  nrs_fork : nr_fork r = true;
  nrs_writes : write_pipe (nr_writes r) data = data;
  nrs_wait : nr_wait r = true
}.

(** The command was started and got the whole text. *)
Record nft_started (r : nft_run) (data : list Z) : Prop := {
  nsd_pipe : nr_pipe r = true;
  nsd_fork : nr_fork r = true;
  nsd_writes : write_pipe (nr_writes r) data = data
}.

(** What the manual of [nft] says: a script is applied as a whole or, with an
    error status, not at all; a table that was deleted is gone. *)
Record nft_laws (present : tables -> bool) : Prop := {
  nl_atomic : forall text t c, (nft text t).2 = Some c -> c <> 0 -> (nft text t).1 = t;
  nl_delete : forall t, (nft delete_text t).2 = Some 0 -> present (nft delete_text t).1 = false
}.

(** What a removal does, whether or not the command can be run and succeeds:
    the table is gone when it reports success; when it cannot be started, or
    reports an error, nothing has changed. *)
Record removal (present : tables -> bool) (r : nft_run) (t t' : tables) : Prop := {
  rm_gone : nft_started r delete_text -> (nft delete_text t).2 = Some 0 -> present t' = false;
  rm_error : forall c, nft_started r delete_text -> (nft delete_text t).2 = Some c -> c <> 0 -> t' = t;
  rm_unstarted : nr_pipe r = false \/ nr_fork r = false -> t' = t
}.

Lemma nft_rules_remove_removal present r t :
  nft_laws present -> removal present r t (nft_rules_remove r t).1.
Proof.
  intros [Ha Hd]. unfold nft_rules_remove. change (bsub delete_text 0 127) with delete_text.
  assert (E : nft_started r delete_text -> (run_nft_with_stdin r delete_text t).1 = (nft delete_text t).1).
  { intros [Hp Hf Hw]. unfold run_nft_with_stdin. rewrite Hp, Hf, Hw. cbn [negb].
    destruct (nft delete_text t) as [t' [c|]], (nr_wait r); try done. cbn [negb]. by destruct (c =? 0). }
  destruct (run_nft_with_stdin r delete_text t) as [t' x] eqn:Er. cbn [fst] in *. split.
  - intros Hs H. rewrite (E Hs). by apply Hd.
  - intros c Hs H Hc. rewrite (E Hs). by apply (Ha _ _ c).
  - intros H. revert Er. unfold run_nft_with_stdin. destruct H as [-> | ->]; cbn [negb]; [|destruct (nr_pipe r); cbn [negb]];
      by intros [= <- <-].
Qed.

(** When the rules could not be applied and the command's end was seen, no more
    has happened than the removal of old ones. *)
Lemma nft_rules_apply_failed present r1 r2 q t :
  nft_laws present -> (nft_rules_apply r1 r2 q t).2 <> 0 -> nr_wait r2 = true ->
  (forall text t, (nft text t).2 <> None) ->
  (nft_rules_apply r1 r2 q t).1 = (nft_rules_remove r1 t).1.
Proof.
  intros [Ha _] Hrc Hw Hk. unfold nft_rules_apply in *. destruct (nft_rules_remove r1 t) as [t0 x]. cbn [fst].
  destruct (_ =? 0); [done|]. unfold run_nft_with_stdin in *. rewrite Hw in *.
  destruct (nr_pipe r2); [|done]. destruct (nr_fork r2); [|done]. cbn [negb] in *.
  match goal with |- context [nft ?x t0] => set (text := x) in * end.
  specialize (Ha text t0). specialize (Hk text t0).
  destruct (nft text t0) as [t' [c|]]; [|done]. cbn [fst snd] in *.
  destruct (Z.eqb_spec c 0) as [-> |Hc]; [done|]. by apply (Ha c).
Qed.

Lemma run_nft_whole r data t :
  nft_runs r data -> run_nft_with_stdin r data t =
    ((nft data t).1, if bool_decide ((nft data t).2 = Some 0) then 0 else -1).
Proof.
  intros [Hp Hf Hw Hwt]. unfold run_nft_with_stdin. rewrite Hp, Hf, Hwt, Hw. cbn [negb].
  destruct (nft data t) as [t' [code|]]; cbn [fst snd]; [|done].
  destruct (Z.eqb_spec code 0) as [-> |Hc]; [done|]. rewrite bool_decide_eq_false_2; congruence.
Qed.
End nft.

(** The text for any queue number fits the buffer. *)
Lemma create_text_fits q : LONG_MIN <= q <= LONG_MAX -> 0 < zlen (create_text q) < 512.
Proof.
  intros Hq. destruct (print_dec_word q Hq) as (_ & Hl & _). unfold create_text.
  set (d := print_dec q) in *. clearbody d. unfold line. rewrite !zlen_app.
  repeat match goal with |- context [zlen ?l] =>
    lazymatch l with d => fail | _ => let n := eval vm_compute in (zlen l) in change (zlen l) with n end
  end. lia.
Qed.

(** Applying the rules runs the command twice: it first deletes the
    program's own table, ignoring the outcome, then creates it; the return
    value is 0 exactly when the second run succeeded. *)
Lemma nft_rules_apply_correct {tables} (nft : list Z -> tables -> tables * option Z) r1 r2 q t :
  LONG_MIN <= q <= LONG_MAX ->
  nft_runs r1 delete_text -> nft_runs r2 (create_text q) ->
  nft_rules_apply nft r1 r2 q t =
    let t1 := (nft delete_text t).1 in
    ((nft (create_text q) t1).1,
     if bool_decide ((nft (create_text q) t1).2 = Some 0) then 0 else -1).
Proof.
  intros Hq H1 H2. unfold nft_rules_apply, nft_rules_remove.
  change (bsub delete_text 0 127) with delete_text. rewrite run_nft_whole by done.
  unfold nft_rules_generate_create. pose proof (create_text_fits q Hq).
  rewrite (proj2 (Z.leb_gt _ _)), (proj2 (Z.eqb_neq _ _)) by lia. by apply run_nft_whole.
Qed.
