(* ===== verification/Queue.v ===== *)
(** * Running the packet engine ([src/nfqueue/nfqueue_engine.c])

    [nfqueue_engine_run]: the start (configuration, nftables rules, queue), the
    receive loop with reloads and the retry of an unknown network fingerprint,
    and the shutdown; the raw socket that injections go through. The callback
    itself is in [Engine], the nft command in [Nft]. libnetfilter_queue is
    observed: a message handed to [nfq_handle_packet] is the list of packets it
    calls [packet_callback] with. *)

From stdpp Require Import base list numbers strings relations.
From Stdlib Require Import ZArith Lia.
From S2P Require Import Prelude Text Packet Strategy Flow Discovery Engine Socket Nft.

(** ** Log levels *)

Inductive log_level := LOG_ERROR | LOG_WARN | LOG_INFO | LOG_DEBUG.

(** From [DPI_PROXY_DEBUG] and [DPI_PROXY_LOG_LEVEL]. *)
Definition log_level_from_env (debug level : option (list Z)) : log_level :=
  match debug, level with
  | Some _, _ => LOG_DEBUG
  | None, None => LOG_WARN
  | None, Some env =>
      if bool_decide (env = str "error") then LOG_ERROR
      else if bool_decide (env = str "warn") then LOG_WARN
      else if bool_decide (env = str "info") then LOG_INFO
      else if bool_decide (env = str "debug") then LOG_DEBUG
      else LOG_WARN
  end.

(** ** The raw socket *)

(** Its options, once it exists. *)
Record raw_sock := mk_raw { rs_hdrincl : bool; rs_mark : Z }.

(** What the system does when a packet is to be injected: whether [socket] and
    the two [setsockopt] work, and the value of [sendto]. *)
Record raw_try := mk_try { rt_socket : bool; rt_hdrincl : bool; rt_mark : bool; rt_sent : Z }.

Inductive raw_act :=
| RAW_OPEN
| RAW_CLOSE
| RAW_SEND (s : raw_sock) (dst pkt : list Z).

Definition ensure_raw_v4_socket (t : raw_try) (fd : option raw_sock) : option raw_sock * list raw_act * Z :=
  match fd with
  | Some _ => (fd, [], 0)
  | None =>
      if negb (rt_socket t) then (None, [], -1) else
      if negb (rt_hdrincl t) then (None, [RAW_OPEN; RAW_CLOSE], -1) else
      if negb (rt_mark t) then (None, [RAW_OPEN; RAW_CLOSE], -1) else
      (Some (mk_raw true NFT_ANTILOOP_MARK), [RAW_OPEN], 0)
  end.

Definition inject_ipv4_packet (t : raw_try) (fd : option raw_sock) (pkt : list Z)
  : option raw_sock * list raw_act * bool :=
  let '(fd, acts, rc) := ensure_raw_v4_socket t fd in
  match fd with
  | Some s =>
      if rc <? 0 then (fd, acts, false)
      else (fd, acts ++ [RAW_SEND s (bsub pkt 16 4) pkt], rt_sent t =? zlen pkt)
  | None => (fd, acts, false)
  end.

(** The injections of one callback in order; [last] is the value of the last. *)
Fixpoint inject_all (tries : nat -> raw_try) (fd : option raw_sock) (last : bool) (pkts : list (list Z))
  : option raw_sock * list raw_act * bool :=
  match pkts with
  | [] => (fd, [], last)
  | pkt :: pkts =>
      let '(fd, acts, ok) := inject_ipv4_packet (tries O) fd pkt in
      let '(fd, acts', ok) := inject_all (fun n => tries (S n)) fd ok pkts in
      (fd, acts ++ acts', ok)
  end.

Definition injected (evs : list event) : list (list Z) :=
  omap (fun e => match e with Inject pkt _ => Some pkt | Verdict _ => None end) evs.

(** What [inject_ipv4_packet] returns to the callback. *)
Definition raw_send (tries : nat -> raw_try) (fd : option raw_sock) (evs : list event) (pkt : list Z) : bool :=
  (inject_all tries fd false (injected evs ++ [pkt])).2.

(** ** State *)

(** The files and the fingerprint a (re)load sees. *)
Record files := mk_files { fl_conf : option (list Z); fl_cache : option (list Z); fl_fp : Z; fl_now : Z }.

(** A packet given to the callback: its bytes, the time, how its injections
    go, and the contents of the callback's stack buffers. *)
Record pkt_in := mk_pkt {
  pi_raw : list Z;
  pi_now : Z;
  pi_tries : nat -> raw_try;
  pi_seg1 : list Z; pi_seg2 : list Z; pi_decoy : list Z; pi_host : list Z
}.

Inductive recv_result :=
| RECV_MSG (pkts : list pkt_in)
| RECV_INTR
| RECV_ERROR.

(** One turn of the receive loop: [g_stop] and [g_reload] as the turn finds
    them, the files if it reloads, the clock and the fingerprint, and [recv]. *)
Record turn := mk_turn {
  tn_stop : bool;
  tn_reload : bool;
  tn_files : files;
  tn_now : Z;
  tn_fp : Z;
  tn_recv : recv_result
}.

Inductive act :=
| RULES_APPLY (rc : Z)
| QUEUE_OPEN (ok : bool)
| QUEUE_CREATE (ok : bool)
| LOADED (f : files)
| CHECKED (fp now : Z)
| PACKET (raw : list Z) (evs : list event)
| RAW (a : raw_act)
| QUEUE_DESTROY
| QUEUE_CLOSE
| RULES_REMOVE.

Record engine := mk_engine { e_ctx : engine_ctx; e_raw : option raw_sock; e_acts : list act }.

Definition did (acts : list act) (e : engine) : engine := mk_engine (e_ctx e) (e_raw e) (e_acts e ++ acts).

(** ** The loop *)

Definition FINGERPRINT_RETRY_SECONDS : Z := 30.

Definition with_fingerprint (ctx : engine_ctx) (fp now : Z) : engine_ctx :=
  mk_ctx (flows ctx) (strategies ctx) (discovered ctx) fp now (stats ctx).

Definition maybe_refresh_unknown_fingerprint (now fp : Z) (e : engine) : engine :=
  if negb (fingerprint (e_ctx e) =? NETFP_UNKNOWN) then e else
  if now - fingerprint_checked_at (e_ctx e) <? FINGERPRINT_RETRY_SECONDS then e else
  mk_engine (with_fingerprint (e_ctx e) fp now) (e_raw e) (e_acts e ++ [CHECKED fp now]).

Definition reload (f : files) (e : engine) : res unit engine :=
  ctx ← reload_strategies (e_ctx e) (fl_conf f) (fl_cache f) (fl_fp f) (fl_now f);
  Ok (mk_engine ctx (e_raw e) (e_acts e ++ [LOADED f])).

(** [packet_callback] with the raw socket. *)
Definition handle_packet (p : pkt_in) (e : engine) : res unit engine :=
  match packet_callback (raw_send (pi_tries p) (e_raw e)) (pi_seg1 p) (pi_seg2 p) (pi_decoy p) (pi_host p)
          (e_ctx e) (pi_raw p) (pi_now p) with
  | Ok (ctx, evs) =>
      let '(fd, acts, _) := inject_all (pi_tries p) (e_raw e) false (injected evs) in
      Ok (mk_engine ctx fd (e_acts e ++ map RAW acts ++ [PACKET (pi_raw p) evs]))
  | _ => Fault
  end.

Fixpoint handle_packets (ps : list pkt_in) (e : engine) : res unit engine :=
  match ps with
  | [] => Ok e
  | p :: ps => e ← handle_packet p e; handle_packets ps e
  end.

(** [Some rc] when the loop has ended; [None] while it waits in [recv]. *)
Fixpoint receive_loop (turns : list turn) (e : engine) : res unit (engine * option Z) :=
  match turns with
  | [] => Ok (e, None)
  | t :: turns =>
      if tn_stop t then Ok (e, Some 0) else
      e ← if tn_reload t then reload (tn_files t) e else Ok e;
      let e := maybe_refresh_unknown_fingerprint (tn_now t) (tn_fp t) e in
      match tn_recv t with
      | RECV_INTR => receive_loop turns e
      | RECV_ERROR => Ok (e, Some (-1))
      | RECV_MSG ps => e ← handle_packets ps e; receive_loop turns e
      end
  end.

(** ** The whole run *)

(** What the system does outside the loop. *)
Record start := mk_start {
  st_calloc : bool;
  st_files : files;
  st_apply1 : nft_run;
  st_apply2 : nft_run;
  st_open : bool;
  st_create : bool;
  st_remove : nft_run
}.

Section run.
Context {tables : Type} (nft : list Z -> tables -> tables * option Z).

(** [load_strategy_config] and [load_discovery_cache] on a zeroed context. *)
Definition init_engine (f : files) : res unit engine :=
  cfg ← load_strategy_config strategy_config_init (fl_conf f);
  cache ← load_discovery_cache (fl_cache f);
  Ok (mk_engine (mk_ctx flow_table_init cfg cache (fl_fp f) (fl_now f) (fun _ => 0)) None [LOADED f]).

Definition close_raw (e : engine) : engine :=
  match e_raw e with
  | Some _ => mk_engine (e_ctx e) None (e_acts e ++ [RAW RAW_CLOSE])
  | None => e
  end.

(** The return value ([None]: still running), the engine and the tables. *)
Definition nfqueue_engine_run (s : start) (queue_num : Z) (turns : list turn) (t : tables)
  : res unit (option Z * option engine * tables) :=
  if negb (st_calloc s) then Ok (Some (-1), None, t) else
  e ← init_engine (st_files s);
  let '(t, rc) := nft_rules_apply nft (st_apply1 s) (st_apply2 s) queue_num t in
  let e := did [RULES_APPLY rc] e in
  if negb (rc =? 0) then Ok (Some (-1), Some e, t) else
  let remove t := (nft_rules_remove nft (st_remove s) t).1 in
  let e := did [QUEUE_OPEN (st_open s)] e in
  if negb (st_open s) then Ok (Some (-1), Some (did [RULES_REMOVE] e), remove t) else
  let e := did [QUEUE_CREATE (st_create s)] e in
  if negb (st_create s) then Ok (Some (-1), Some (did [QUEUE_CLOSE; RULES_REMOVE] e), remove t) else
  '(e, rc) ← receive_loop turns e;
  match rc with
  | None => Ok (None, Some e, t)
  | Some rc => Ok (Some rc, Some (close_raw (did [QUEUE_DESTROY; QUEUE_CLOSE; RULES_REMOVE] e)), remove t)
  end.
End run.

(** ** What the callback was told about its injections *)

Section consistent.
Context (send : list event -> list Z -> bool).

(** The flags of a list of events are the values of [send]. *)
Inductive consistent : list event -> Prop :=
| consistent_nil : consistent []
| consistent_inject evs pkt : consistent evs -> consistent (evs ++ [Inject pkt (send evs pkt)])
| consistent_verdict evs v : consistent evs -> consistent (evs ++ [Verdict v]).

Definition io_consistent (w : io) : Prop := consistent (io_events w).
(** Every value a computation can return. *)
Definition returns {E A} (r : res E A) (P : A -> Prop) : Prop := match r with Ok x => P x | _ => True end.

Lemma returns_bind {E A B} (r : res E A) (f : A -> res E B) P :
  returns r (fun x => returns (f x) P) -> returns (r ≫= f) P.
Proof. by destruct r. Qed.

Lemma inject_or_log_consistent w pkt : io_consistent w -> io_consistent (inject_or_log send w pkt).2.
Proof.
  intros H. unfold inject_or_log. cbv zeta. apply (consistent_inject _ pkt) in H.
  by destruct (send (io_events w) pkt).
Qed.

Lemma inject_both_consistent w a b c : io_consistent w -> io_consistent (inject_both send w a b c).
Proof.
  intros H. unfold inject_both. pose proof (inject_or_log_consistent w a H) as H1.
  destruct (inject_or_log send w a) as [[|] w1]; [|exact H1]. cbn [snd] in H1.
  pose proof (inject_or_log_consistent w1 b H1) as H2.
  by destruct (inject_or_log send w1 b) as [[|] w2].
Qed.

Lemma decoy_consistent (decoy : option (list Z)) w :
  io_consistent w -> io_consistent (match decoy with Some d => (inject_or_log send w d).2 | None => w end).
Proof. intros H. destruct decoy; [by apply inject_or_log_consistent|done]. Qed.

Lemma send_segments_consistent st_decoy ttl raw a b chain w :
  io_consistent w ->
  returns (send_segments send st_decoy ttl raw a b chain w) (fun r => io_consistent r.2).
Proof.
  intros H. unfold send_segments. cbv zeta.
  destruct (_ && _); [by apply inject_both_consistent|].
  destruct (_ && _); [by apply inject_both_consistent|].
  destruct (_ && _ && _).
  - apply returns_bind. destruct (build_decoy _ _ _) as [decoy| |]; [|done|done]. cbn [returns snd].
    pose proof (inject_both_consistent _ a b packets_split (decoy_consistent decoy w H)) as H1.
    by destruct decoy.
  - destruct (_ && _ && _); [|done].
    apply returns_bind. destruct (build_decoy _ _ _) as [decoy| |]; [|done|done]. cbn [returns snd].
    pose proof (inject_or_log_consistent _ b (decoy_consistent decoy _ (inject_or_log_consistent w a H))) as H1.
    destruct (inject_or_log send _ b) as [ok w3]. by destruct decoy, ok.
Qed.

Lemma try_apply_chain_consistent seg1 seg2 st_decoy ttl raw tcp chain w :
  io_consistent w ->
  returns (try_apply_chain send seg1 seg2 st_decoy ttl raw tcp chain w) (fun r => io_consistent r.2).
Proof.
  intros H. unfold try_apply_chain. destruct (_ && _).
  - apply returns_bind. destruct (build_decoy _ _ _) as [[d|]| |]; [|done..]. cbn [returns].
    pose proof (inject_or_log_consistent w d H) as H1. by destruct (inject_or_log send w d) as [[|] w1].
  - destruct (Tls.tls_find_sni_split_z _) as [k| |]; [|done|done]. destruct (_ || _); [done|].
    destruct (_ && _); apply returns_bind; destruct (built_pair _) as [[[a b]|]| |]; try done; cbn [returns].
    + apply consistent_verdict. by apply inject_both_consistent.
    + apply returns_bind. pose proof (send_segments_consistent st_decoy ttl raw a b chain w H) as H1.
      destruct (send_segments _ _ _ _ _ _ _ _) as [[[|] w1]| |]; try done. cbn [returns snd] in *.
      by apply consistent_verdict.
Qed.

Lemma packet_callback_consistent seg1 seg2 st_decoy host ctx raw now :
  returns (packet_callback send seg1 seg2 st_decoy host ctx raw now) (fun r => consistent r.2).
Proof.
  assert (Ha : consistent [Verdict NF_ACCEPT]) by apply (consistent_verdict []), consistent_nil.
  unfold packet_callback. cbv zeta. destruct (_ <? 1); [exact Ha|].
  apply returns_bind. destruct (parse_packet raw) as [[[[key tcp] v4]|c]| |]; [|exact Ha|done|done]. cbn [returns].
  apply returns_bind. destruct (track_flow _ _ _ _ _ _) as [[[[[table i] c] h] st]| |]; [|done|done]. cbn [returns].
  destruct (entries table !! i) as [flow|]; [|done]. destruct (decide_strategy _ _ _ _) as [[strat chain] f].
  destruct (flow_evict_expired _ _ _) as [t2 ev]. destruct (_ && _ && _ && _); [|exact Ha].
  apply returns_bind.
  match goal with |- context [try_apply_chain ?a ?b ?c ?d ?e ?f ?g ?h ?w] =>
    pose proof (try_apply_chain_consistent b c d e f g h w consistent_nil) as H1;
    destruct (try_apply_chain a b c d e f g h w) as [[[|] w1]| |] end; try done.
  cbn [returns snd] in *. by apply consistent_verdict.
Qed.
End consistent.

(** ** The raw socket *)

(** Headers included and the mark the nftables rules let pass. *)
Definition marked : raw_sock := mk_raw true NFT_ANTILOOP_MARK.
Definition fd_ok (fd : option raw_sock) : Prop := fd = None \/ fd = Some marked.
Definition is_open (fd : option raw_sock) : Z := match fd with Some _ => 1 | None => 0 end.

Definition balance (acts : list raw_act) : Z :=
  foldr (fun a n => match a with RAW_OPEN => n + 1 | RAW_CLOSE => n - 1 | RAW_SEND _ _ _ => n end) 0 acts.
Definition sends (acts : list raw_act) : list (list Z) :=
  omap (fun a => match a with RAW_SEND _ _ pkt => Some pkt | _ => None end) acts.
(** Sent through a marked socket to the packet's own destination. *)
Definition raw_act_ok (a : raw_act) : Prop :=
  match a with RAW_SEND s dst pkt => s = marked /\ dst = bsub pkt 16 4 | _ => True end.
(** The packets an injection of which was reported as done. *)
Definition claimed (evs : list event) : list (list Z) :=
  omap (fun e => match e with Inject pkt true => Some pkt | _ => None end) evs.

Lemma balance_app a b : balance (a ++ b) = balance a + balance b.
Proof. unfold balance. induction a as [|[| |? ? ?] acts IH]; cbn [app foldr]; rewrite ?IH; lia. Qed.
Lemma sends_app a b : sends (a ++ b) = sends a ++ sends b.
Proof. apply omap_app. Qed.
Lemma injected_app a b : injected (a ++ b) = injected a ++ injected b.
Proof. apply omap_app. Qed.
Lemma claimed_app a b : claimed (a ++ b) = claimed a ++ claimed b.
Proof. apply omap_app. Qed.

Lemma inject_ipv4_packet_spec t fd pkt :
  fd_ok fd -> let '(fd', acts, ok) := inject_ipv4_packet t fd pkt in
  fd_ok fd' /\ Forall raw_act_ok acts /\ balance acts = is_open fd' - is_open fd /\
  (sends acts = [pkt] \/ (sends acts = [] /\ ok = false)).
Proof.
  intros Hfd. unfold inject_ipv4_packet, ensure_raw_v4_socket.
  destruct Hfd as [-> | ->].
  - destruct (rt_socket t); cbn [negb].
    2: { split_and!; [by left|by constructor|done|by right]. }
    destruct (rt_hdrincl t); cbn [negb].
    2: { split_and!; [by left|by repeat constructor|done|by right]. }
    destruct (rt_mark t); cbn [negb].
    2: { split_and!; [by left|by repeat constructor|done|by right]. }
    split_and!; [by right|by repeat constructor|done|by left].
  - split_and!; [by right|by repeat constructor|done|by left].
Qed.

Lemma inject_all_snoc tries fd l pkts pkt :
  inject_all tries fd l (pkts ++ [pkt]) =
    let '(fd1, acts1, _) := inject_all tries fd l pkts in
    let '(fd2, acts2, ok) := inject_ipv4_packet (tries (length pkts)) fd1 pkt in
    (fd2, acts1 ++ acts2, ok).
Proof.
  revert tries fd l. induction pkts as [|p pkts IH]; intros tries fd l; cbn [app inject_all length].
  - destruct (inject_ipv4_packet _ _ _) as [[fd2 acts2] ok]. by rewrite app_nil_r.
  - destruct (inject_ipv4_packet _ _ p) as [[fd1 acts1] ok1]. rewrite IH.
    destruct (inject_all _ fd1 ok1 pkts) as [[fd2 acts2] ok2].
    destruct (inject_ipv4_packet _ fd2 pkt) as [[fd3 acts3] ok3]. by rewrite app_assoc.
Qed.

(** After the injections of a callback: what was reported as sent was sent, in
    this order, and nothing else than what was to be injected. *)
Lemma inject_all_spec tries fd evs :
  fd_ok fd -> consistent (raw_send tries fd) evs ->
  let '(fd', acts, _) := inject_all tries fd false (injected evs) in
  fd_ok fd' /\ Forall raw_act_ok acts /\ balance acts = is_open fd' - is_open fd /\
  sublist (claimed evs) (sends acts) /\ sublist (sends acts) (injected evs).
Proof.
  intros Hfd. induction 1 as [|evs pkt _ IH|evs v _ IH].
  - cbn. split_and!; [done|by constructor|lia|done|done].
  - rewrite injected_app, claimed_app. unfold raw_send. cbn [injected omap list_omap claimed].
    rewrite inject_all_snoc. destruct (inject_all tries fd false (injected evs)) as [[fd1 acts1] ok1].
    destruct IH as (H1 & H2 & H3 & H4 & H5).
    pose proof (inject_ipv4_packet_spec (tries (length (injected evs))) fd1 pkt H1) as Hs.
    destruct (inject_ipv4_packet _ fd1 pkt) as [[fd2 acts2] ok]. destruct Hs as (K1 & K2 & K3 & K4).
    rewrite balance_app, sends_app. split_and!; [done|by apply Forall_app_2|lia|..]; cbn [snd].
    + apply sublist_app; [done|]. destruct K4 as [-> |[-> ->]]; [|done]. destruct ok; [done|apply sublist_nil_l].
    + apply sublist_app; [done|]. destruct K4 as [-> |[-> _]]; [done|apply sublist_nil_l].
  - rewrite injected_app, claimed_app. cbn [injected omap list_omap claimed]. by rewrite !app_nil_r.
Qed.

(** ** The run *)

Definition raws (acts : list act) : list raw_act :=
  omap (fun a => match a with RAW r => Some r | _ => None end) acts.
Definition packets (acts : list act) : list (list Z) :=
  omap (fun a => match a with PACKET raw _ => Some raw | _ => None end) acts.
(** The events of all callbacks, in order. *)
Definition events (acts : list act) : list event :=
  concat (omap (fun a => match a with PACKET _ evs => Some evs | _ => None end) acts).
(** The actions on the queue and the rules. *)
Definition is_queue_act (a : act) : bool :=
  match a with LOADED _ | CHECKED _ _ | PACKET _ _ | RAW _ => false | _ => true end.
Definition queue_acts (acts : list act) : list act := List.filter is_queue_act acts.

Lemma raws_app a b : raws (a ++ b) = raws a ++ raws b.
Proof. apply omap_app. Qed.
Lemma packets_app a b : packets (a ++ b) = packets a ++ packets b.
Proof. apply omap_app. Qed.
Lemma events_app a b : events (a ++ b) = events a ++ events b.
Proof. unfold events. by rewrite omap_app, concat_app. Qed.
Lemma queue_acts_app a b : queue_acts (a ++ b) = queue_acts a ++ queue_acts b.
Proof. apply List.filter_app. Qed.

Lemma raw_only acts :
  raws (map RAW acts) = acts /\ packets (map RAW acts) = [] /\ events (map RAW acts) = [] /\
  queue_acts (map RAW acts) = [].
Proof.
  unfold events. induction acts as [|a acts (E1 & E2 & E3 & E4)]; [done|].
  cbn [map raws packets queue_acts omap list_omap List.filter is_queue_act].
  split_and!; [by f_equal|exact E2|exact E3|exact E4].
Qed.

(** One verdict per packet, right for it. *)
Definition act_ok (a : act) : Prop :=
  match a with PACKET raw evs => exists ttl, 1 <= ttl <= 255 /\ verdict_ok ttl raw evs | _ => True end.

Record run_ok (e : engine) : Prop := {
  ro_engine : engine_ok (e_ctx e);
  ro_fd : fd_ok (e_raw e);
  ro_balance : balance (raws (e_acts e)) = is_open (e_raw e);
  ro_raw : Forall raw_act_ok (raws (e_acts e));
  ro_claimed : sublist (claimed (events (e_acts e))) (sends (raws (e_acts e)));
  ro_sent : sublist (sends (raws (e_acts e))) (injected (events (e_acts e)));
  ro_acts : Forall act_ok (e_acts e)
}.

(** What [recv] may deliver. *)
Record pkt_ok (p : pkt_in) : Prop := {
  pk_bytes : bytes_ok (pi_raw p);
  pk_len : zlen (pi_raw p) <= 65535;
  pk_stack : stack_ok (pi_seg1 p) (pi_seg2 p) (pi_decoy p) (pi_host p)
}.
Definition turn_ok (t : turn) : Prop :=
  match tn_recv t with RECV_MSG ps => Forall pkt_ok ps | _ => True end.

(** An engine that went on: its invariant, and the packets it has handled. *)
Definition went_on (e : engine) (pkts : list (list Z)) (e' : engine) : Prop :=
  run_ok e' /\ packets (e_acts e') = packets (e_acts e) ++ pkts /\ queue_acts (e_acts e') = queue_acts (e_acts e).

Lemma went_on_trans e1 p1 e2 p2 e3 : went_on e1 p1 e2 -> went_on e2 p2 e3 -> went_on e1 (p1 ++ p2) e3.
Proof. intros (_ & E1 & Q1) (H & E2 & Q2). split; [done|]. by rewrite E2, E1, Q2, Q1, app_assoc. Qed.

(** Actions that are about the engine's own state only. *)
Lemma did_ok ctx e acts :
  run_ok e -> engine_ok ctx -> raws acts = [] -> packets acts = [] -> events acts = [] ->
  Forall act_ok acts -> let e' := mk_engine ctx (e_raw e) (e_acts e ++ acts) in
  run_ok e' /\ packets (e_acts e') = packets (e_acts e).
Proof.
  intros [? ? ? ? ? ? ?] Hc E1 E2 E3 Ha. cbv zeta. cbn [e_acts]. rewrite packets_app, E2, app_nil_r.
  split; [|done]. split; cbn [e_ctx e_raw e_acts]; rewrite ?raws_app, ?events_app, ?E1, ?E3, ?app_nil_r; try done.
  by apply Forall_app_2.
Qed.

Lemma handle_packet_ok p e :
  pkt_ok p -> run_ok e -> exists e', handle_packet p e = Ok e' /\ went_on e [pi_raw p] e'.
Proof.
  intros [Hb Hl Hst] [Hc Hfd Hbal Hraw Hcl Hs Ha]. unfold handle_packet.
  pose proof (packet_callback_wp (raw_send (pi_tries p) (e_raw e)) _ _ _ _ Hst (e_ctx e) (pi_raw p) (pi_now p)
    Hc Hb ltac:(lia)) as W.
  pose proof (packet_callback_consistent (raw_send (pi_tries p) (e_raw e)) (pi_seg1 p) (pi_seg2 p) (pi_decoy p)
    (pi_host p) (e_ctx e) (pi_raw p) (pi_now p)) as C.
  destruct (packet_callback _ _ _ _ _ _ _ _) as [[ctx evs]| |]; [|done|done].
  destruct W as (Hok & _ & _ & Hv%verdict_by_ok). cbn [returns snd] in C.
  pose proof (inject_all_spec _ _ evs Hfd C) as I.
  destruct (inject_all _ _ _ _) as [[fd acts] ok]. destruct I as (I1 & I2 & I3 & I4 & I5).
  eexists. split; [reflexivity|].
  destruct (raw_only acts) as (R1 & R2 & R3 & R4).
  split; [split|]; cbn [e_ctx e_raw e_acts];
    rewrite ?raws_app, ?events_app, ?packets_app, ?queue_acts_app, ?R1, ?R2, ?R3, ?R4, ?app_nil_l;
    cbn [raws packets queue_acts omap list_omap List.filter is_queue_act]; rewrite ?app_nil_r; try done.
  - rewrite balance_app, I3. lia.
  - by apply Forall_app_2.
  - unfold events at 2. cbn [omap list_omap concat]. rewrite app_nil_r, claimed_app, sends_app. by apply sublist_app.
  - unfold events at 2. cbn [omap list_omap concat]. rewrite app_nil_r, injected_app, sends_app. by apply sublist_app.
  - apply Forall_app_2; [done|]. apply Forall_app_2; [by apply Forall_map, Forall_true|].
    apply Forall_cons_2; [|by constructor]. exists (fake_ttl (strategies (e_ctx e))). split; [|done].
    apply (ok_ttl _ (eok_cfg _ Hc)).
Qed.

Lemma handle_packets_ok ps e :
  Forall pkt_ok ps -> run_ok e -> exists e', handle_packets ps e = Ok e' /\ went_on e (map pi_raw ps) e'.
Proof.
  revert e. induction ps as [|p ps IH]; intros e Hps He; cbn [handle_packets map].
  - exists e. split; [done|]. split; [done|]. by rewrite app_nil_r.
  - apply Forall_cons in Hps as [Hp Hps]. destruct (handle_packet_ok p e Hp He) as (e1 & -> & H1).
    destruct (IH e1 Hps (proj1 H1)) as (e2 & E2 & H2). exists e2. split; [exact E2|].
    by apply (went_on_trans e [pi_raw p] e1).
Qed.

Lemma reload_ok f e : run_ok e -> exists e', reload f e = Ok e' /\ went_on e [] e'.
Proof.
  intros H. unfold reload, reload_strategies. pose proof (load_strategy_config_wp _ (fl_conf f) strategy_config_init_ok) as Wc.
  pose proof (load_discovery_cache_wp (fl_cache f)) as Wd.
  destruct (load_strategy_config _ _) as [cfg| |]; [|done|done].
  destruct (load_discovery_cache _) as [cache| |]; [|done|done]. cbn [mbind res_bind].
  destruct (flow_invalidate_decisions _) as [table n] eqn:E.
  destruct (flow_invalidate_decisions_spec _ _ _ (eok_flows _ (ro_engine _ H)) E) as (Hok & _).
  eexists. split; [reflexivity|]. cbn [wp] in *.
  destruct (did_ok (mk_ctx table cfg cache (fl_fp f) (fl_now f) (stats (e_ctx e))) e [LOADED f] H) as [H1 H2]; try done.
  { by repeat constructor. }
  split; [exact H1|]. cbn [e_acts] in *. rewrite H2, queue_acts_app. cbn. by rewrite !app_nil_r.
Qed.

Lemma refresh_ok now fp e : run_ok e -> went_on e [] (maybe_refresh_unknown_fingerprint now fp e).
Proof.
  intros H. assert (Hs : went_on e [] e) by (split; [done|by rewrite app_nil_r]).
  unfold maybe_refresh_unknown_fingerprint. destruct (negb _); [exact Hs|]. destruct (_ <? _); [exact Hs|].
  destruct (did_ok (with_fingerprint (e_ctx e) fp now) e [CHECKED fp now] H) as [H1 H2]; try done.
  { by destruct (ro_engine _ H). }
  { by repeat constructor. }
  split; [exact H1|]. cbn [e_acts] in *. rewrite H2, queue_acts_app. cbn. by rewrite !app_nil_r.
Qed.

(** How the loop ends and which packets it gets, from the turns alone. *)
Fixpoint outcome (turns : list turn) : option Z :=
  match turns with
  | [] => None
  | t :: turns =>
      if tn_stop t then Some 0 else match tn_recv t with RECV_ERROR => Some (-1) | _ => outcome turns end
  end.
Fixpoint delivered (turns : list turn) : list (list Z) :=
  match turns with
  | [] => []
  | t :: turns =>
      if tn_stop t then [] else
      match tn_recv t with
      | RECV_ERROR => []
      | RECV_INTR => delivered turns
      | RECV_MSG ps => map pi_raw ps ++ delivered turns
      end
  end.

Lemma receive_loop_ok turns e :
  Forall turn_ok turns -> run_ok e ->
  exists e', receive_loop turns e = Ok (e', outcome turns) /\ went_on e (delivered turns) e'.
Proof.
  revert e. induction turns as [|t turns IH]; intros e Ht He; cbn [receive_loop outcome delivered].
  { exists e. split; [done|]. split; [done|]. by rewrite app_nil_r. }
  apply Forall_cons in Ht as [Ht Hts]. destruct (tn_stop t).
  { exists e. split; [done|]. split; [done|]. by rewrite app_nil_r. }
  assert (H1 : exists e1, (if tn_reload t then reload (tn_files t) e else Ok e) = Ok e1 /\ went_on e [] e1).
  { destruct (tn_reload t); [by apply reload_ok|]. exists e. split; [done|]. split; [done|]. by rewrite app_nil_r. }
  destruct H1 as (e1 & -> & H1). cbn [mbind res_bind].
  pose proof (went_on_trans _ _ _ _ _ H1 (refresh_ok (tn_now t) (tn_fp t) e1 (proj1 H1))) as H2.
  set (e2 := maybe_refresh_unknown_fingerprint _ _ _) in *. clearbody e2. unfold turn_ok in Ht.
  destruct (tn_recv t) as [ps| |].
  - destruct (handle_packets_ok ps e2 Ht (proj1 H2)) as (e3 & -> & H3). cbn [mbind res_bind].
    destruct (IH e3 Hts (proj1 H3)) as (e4 & -> & H4). exists e4. split; [done|].
    exact (went_on_trans _ _ _ _ _ (went_on_trans _ _ _ _ _ H2 H3) H4).
  - destruct (IH e2 Hts (proj1 H2)) as (e4 & -> & H4). exists e4. split; [done|].
    exact (went_on_trans _ _ _ _ _ H2 H4).
  - by exists e2.
Qed.

Lemma init_engine_ok f : exists e, init_engine f = Ok e /\ run_ok e /\ e_raw e = None /\ e_acts e = [LOADED f].
Proof.
  unfold init_engine. pose proof (load_strategy_config_wp _ (fl_conf f) strategy_config_init_ok) as Wc.
  pose proof (load_discovery_cache_wp (fl_cache f)) as Wd.
  destruct (load_strategy_config _ _) as [cfg| |]; [|done|done].
  destruct (load_discovery_cache _) as [cache| |]; [|done|done]. cbn [mbind res_bind wp] in *.
  eexists. split; [reflexivity|]. split; [|done]. split; cbn; try done.
  - split; [apply (eok_flows _ init_ctx_ok)|done..].
  - by left.
  - by repeat constructor.
Qed.

(** Steps on the queue and the rules leave the rest of the invariant alone. *)
Lemma did_queue e acts :
  run_ok e -> Forall (fun a => is_queue_act a = true) acts ->
  run_ok (did acts e) /\ packets (e_acts (did acts e)) = packets (e_acts e) /\
  queue_acts (e_acts (did acts e)) = queue_acts (e_acts e) ++ acts.
Proof.
  intros He Hq. assert (H : raws acts = [] /\ packets acts = [] /\ events acts = [] /\ Forall act_ok acts /\ queue_acts acts = acts).
  { unfold events. induction Hq as [|a acts Ha _ (E1 & E2 & E3 & E4 & E5)]; [done|].
    destruct a; try done; cbn [raws packets queue_acts omap list_omap List.filter is_queue_act];
      (split_and!; [done..|by apply Forall_cons_2|by f_equal]). }
  destruct H as (E1 & E2 & E3 & E4 & E5).
  destruct (did_ok (e_ctx e) e acts He (ro_engine _ He) E1 E2 E3 E4) as [H1 H2].
  split; [exact H1|]. split; [exact H2|]. unfold did. cbn [e_acts]. by rewrite queue_acts_app, E5.
Qed.

Lemma close_raw_ok e :
  run_ok e -> run_ok (close_raw e) /\ e_raw (close_raw e) = None /\
  packets (e_acts (close_raw e)) = packets (e_acts e) /\ queue_acts (e_acts (close_raw e)) = queue_acts (e_acts e).
Proof.
  intros He. unfold close_raw. destruct (e_raw e) as [s|] eqn:E; [|done].
  destruct He as [H1 H2 H3 H4 H5 H6 H7]. rewrite E in H3. cbn [e_raw e_acts].
  rewrite packets_app, queue_acts_app. cbn [packets queue_acts omap list_omap List.filter is_queue_act].
  rewrite !app_nil_r. split; [|done].
  split; cbn [e_ctx e_raw e_acts]; rewrite ?raws_app, ?events_app; cbn [raws omap list_omap];
    [done|by left|rewrite balance_app, H3; cbn; lia|by apply Forall_app_2; [|repeat constructor]|..].
  - unfold events at 2. cbn. by rewrite sends_app, !app_nil_r.
  - unfold events at 2. cbn. by rewrite sends_app, !app_nil_r.
  - apply Forall_app_2; [done|by repeat constructor].
Qed.

Section correct.
Context {tables : Type} (nft : list Z -> tables -> tables * option Z) (present : tables -> bool).
Context (laws : nft_laws nft present).

Definition UP : list act := [RULES_APPLY 0; QUEUE_OPEN true; QUEUE_CREATE true].

Definition queue_created (acts : list act) : bool :=
  existsb (fun a => match a with QUEUE_CREATE true => true | _ => false end) acts.

End correct.

(** A machine with one table, a run that handles a packet and is told to stop. *)
Definition one_table (text : list Z) (t : bool) : bool * option Z :=
  if bool_decide (text = delete_text) then (false, Some 0) else (true, Some 0).

Definition whole_run : nft_run := mk_nft_run true true [TX_SENT 4096] true.
Definition sample_turns : list turn :=
  let fl := mk_files None None 7 100 in
  [mk_turn false false fl 100 7 (RECV_MSG [mk_pkt [0x45; 0] 100 (fun _ => mk_try true true true 0)
     (replicate (Z.to_nat 65536) 0) (replicate (Z.to_nat 65536) 0) (replicate (Z.to_nat 65536) 0)
     (replicate (Z.to_nat 256) 0)]);
   mk_turn false true fl 101 7 RECV_INTR;
   mk_turn true false fl 102 7 RECV_INTR].
Definition sample_start : start :=
  mk_start true (mk_files None None 7 100) whole_run whole_run true true whole_run.

