(* ===== verification/Probe.v ===== *)
(** * The live prober ([src/discovery/probe_runner.c])

    One probe of a candidate chain: a temporary configuration with a single
    rule, an engine process that runs with it, a TLS check by the openssl
    command, and the cleanup. What the system answers (whether files,
    processes and pipes can be made, what the child prints and when) is an
    environment; the temporary files, the two processes, the children not
    waited for and the nftables table are the state the probe changes. An
    unlink, a wait or [nft] can fail; the theorem says what is left then. *)

From stdpp Require Import base list numbers strings gmap relations.
From Stdlib Require Import ZArith Lia.
From S2P Require Import Prelude Text Strategy Discovery Socket Nft.

(** ** State and environment *)

(** The part of the machine a probe touches: the temporary files, the engine
    process with its configuration while it runs, the openssl process, children
    that ended and were not waited for, and the presence of the table. *)
Record machine := mk_machine {
  m_temp : gmap (list Z) (list Z);
  m_engine : option (list Z);
  m_check : bool;
  m_zombies : Z;
  m_table : bool
}.

Record probe_env := mk_penv {
  (** the name [mkstemp] made, [None] when it failed *)
  pe_mkstemp : option (list Z);
  pe_fdopen : bool;
  (** how much of the file reaches the disk when not all of it does *)
  pe_short : option Z;
  pe_unlink : bool;
  (** [fork] of the engine, and whether the engine got to its table *)
  pe_fork : bool;
  pe_engine_up : bool;
  (** the clock at SIGTERM, then at each poll with what it saw: the engine has
      not ended, or it has and did or did not remove its table; after the last
      poll the clock has passed the deadline *)
  pe_term : Z;
  pe_polls : list (Z * option bool);
  (** an engine that had to be killed had got to remove its table *)
  pe_killed_clean : bool;
  (** the wait for the killed engine was not interrupted by a signal *)
  pe_engine_wait : bool;
  (** the run of the [nft] command at the end *)
  pe_nft : nft_run;
  pe_pipe : bool;
  pe_fork_check : bool;
  (** the clock, then the read it allows; after the last one the child
      neither prints nor exits *)
  pe_start : Z;
  pe_reads : list (Z * rx_event);
  pe_last : Z;
  (** openssl had ended when the reading stopped; the wait after its SIGKILL
      was not interrupted *)
  pe_check_ended : bool;
  pe_check_wait : bool
}.

(** ** The code *)

Section probe.
(** The [nft] command, on the presence of the program's table. *)
Context (nft : list Z -> bool -> bool * option Z).

Definition temp_config (domain : list Z) (candidate : strategy_chain) (fake_ttl : Z) : list Z :=
  let chain_desc := default [] (strategy_chain_describe candidate 64) in
  str "default = pass" ++ 10 :: str "fake_ttl = " ++ print_dec fake_ttl ++ 10 :: 10 ::
  str "[domains]" ++ 10 :: domain ++ str " = " ++ chain_desc ++ [10].

Definition with_temp (files : gmap (list Z) (list Z)) (m : machine) : machine :=
  mk_machine files (m_engine m) (m_check m) (m_zombies m) (m_table m).

Definition unlink (env : probe_env) (path : list Z) (m : machine) : machine :=
  if pe_unlink env then with_temp (delete path (m_temp m)) m else m.

(** [None] is the return value -1. *)
Definition write_temp_config (env : probe_env) (m : machine) (domain : list Z)
    (candidate : strategy_chain) (fake_ttl path_out_size : Z) : machine * option (list Z) :=
  match pe_mkstemp env with
  | None => (m, None)
  | Some tmpl =>
      let create text := with_temp (<[tmpl := text]> (m_temp m)) m in
      if negb (pe_fdopen env) then (unlink env tmpl (create []), None) else
      let text := temp_config domain candidate fake_ttl in
      let m := create (match pe_short env with None => text | Some n => bsub text 0 n end) in
      if path_out_size <=? zlen tmpl then (unlink env tmpl m, None) else (m, Some tmpl)
  end.

(** The child runs the engine with the configuration at [config_path]. *)
Definition start_scoped_engine (env : probe_env) (m : machine) (config_path : list Z)
  : option machine :=
  if pe_fork env
  then Some (mk_machine (m_temp m) (Some config_path) (m_check m) (m_zombies m) (m_table m || pe_engine_up env))
  else None.

(** The loop of [stop_scoped_engine]: [Some] when a poll saw the end. *)
Fixpoint poll_engine (deadline : Z) (polls : list (Z * option bool)) : option bool :=
  match polls with
  | [] => None
  | (now, seen) :: polls' =>
      if now <? deadline then
        match seen with Some clean => Some clean | None => poll_engine deadline polls' end
      else None
  end.

(** A wait that a signal interrupts leaves the child, which ended, unreaped. *)
Definition reaped (waited : bool) (zombies : Z) : Z := if waited then zombies else zombies + 1.

(** SIGTERM and polling for at most [timeout_ms], then SIGKILL and a wait. *)
Definition stop_scoped_engine (env : probe_env) (m : machine) (timeout_ms : Z) : machine :=
  match poll_engine (pe_term env + timeout_ms) (pe_polls env) with
  | Some clean =>
      mk_machine (m_temp m) None (m_check m) (m_zombies m) (if clean then false else m_table m)
  | None =>
      mk_machine (m_temp m) None (m_check m) (reaped (pe_engine_wait env) (m_zombies m))
        (if pe_killed_clean env then false else m_table m)
  end.

Definition CHECK_BUF : Z := 32768.

(** The read loop; [None]: the read never returns. *)
Fixpoint read_output (deadline : Z) (s : list (Z * rx_event)) (last : Z) (buf : list Z)
  : option (list Z) :=
  match s with
  | [] => if (last <? deadline) && (zlen buf + 1 <? CHECK_BUF) then None else Some buf
  | (now, ev) :: s' =>
      if (now <? deadline) && (zlen buf + 1 <? CHECK_BUF) then
        match ev with
        | RX_DATA [] => Some buf
        | RX_DATA d => read_output deadline s' last (buf ++ bsub d 0 (CHECK_BUF - 1 - zlen buf))
        | RX_INTR => read_output deadline s' last buf
        | RX_ERROR => Some buf
        end
      else Some buf
  end.

(** The machine and the result; [None]: the check hangs. *)
Definition run_openssl_check (env : probe_env) (m : machine) (timeout_ms : Z) : machine * option probe_result :=
  if negb (pe_pipe env) then (m, Some PROBE_LOCAL_ERROR) else
  if negb (pe_fork_check env) then (m, Some PROBE_LOCAL_ERROR) else
  let child b zombies := mk_machine (m_temp m) (m_engine m) b zombies (m_table m) in
  match read_output (pe_start env + timeout_ms) (pe_reads env) (pe_last env) [] with
  | None => (child true (m_zombies m), None)
  | Some buf =>
      let m :=
        if pe_check_ended env then child false (m_zombies m)
        else child false (reaped (pe_check_wait env) (m_zombies m)) in
      (m, Some (probe_classify_openssl_output (cstr buf)))
  end.

(** The machine when the check starts (if it gets that far), the machine
    afterwards and the result; [None] as result: the probe hangs. *)
Definition probe_via_live_engine (env : probe_env) (m : machine) (domain : list Z)
    (candidate : strategy_chain) (timeout_ms fake_ttl : Z)
  : option machine * machine * option probe_result :=
  match write_temp_config env m domain candidate fake_ttl 64 with
  | (m, None) => (None, m, Some PROBE_LOCAL_ERROR)
  | (m, Some config_path) =>
      match start_scoped_engine env m config_path with
      | None => (None, unlink env config_path m, Some PROBE_LOCAL_ERROR)
      | Some during =>
          match run_openssl_check env during timeout_ms with
          | (m, None) => (Some during, m, None)
          | (m, Some result) =>
              let m := stop_scoped_engine env m 3000 in
              let table := (nft_rules_remove nft (pe_nft env) (m_table m)).1 in
              let m := mk_machine (m_temp m) (m_engine m) (m_check m) (m_zombies m) table in
              (Some during, unlink env config_path m, Some result)
          end
      end
  end.
End probe.

(** ** The temporary configuration *)

#[global] Instance strategy_rule_eq_dec : EqDecision strategy_rule.
Proof. solve_decision. Defined.
#[global] Instance strategy_config_eq_dec : EqDecision strategy_config.
Proof. solve_decision. Defined.
#[global] Instance parse_state_eq_dec : EqDecision parse_state.
Proof. solve_decision. Defined.

(** Names that can stand before the [=] of a rule. *)
Record rule_name (d : list Z) : Prop := {
  rn_word : is_word d;
  rn_len : 0 < zlen d < STRATEGY_DOMAIN_MAX;
  rn_first : bget d 0 <> 35 /\ bget d 0 <> 59 /\ bget d 0 <> 91;
  rn_eq : Forall (fun c => c <> 61) d
}.

Lemma parse_loop_line fuel s l rest :
  Forall (fun c => c <> 0 /\ c <> 10) l -> (length l <= 511)%nat ->
  loop (S fuel) parse_step (s, l ++ 10 :: rest) = loop fuel parse_step (parse_line s (trim l), rest).
Proof.
  intros Hl Hn. rewrite loop_S. unfold parse_step at 1.
  destruct (l ++ 10 :: rest) as [|c t] eqn:E; [by destruct l|]. rewrite <- E.
  rewrite read_line_app by (done || by eapply Forall_impl; [exact Hl|]; intros ? []).
  cbn [skip_to_newline]. change (10 =? 10) with true. cbn [drop].
  rewrite cstr_id by (by eapply Forall_impl; [exact Hl|]; intros ? []). done.
Qed.

Lemma word_not_blank c : isspace c = false -> is_blank c || (c =? 13) = false.
Proof.
  unfold isspace, is_blank. intros H. zbool.
  rewrite !(proj2 (Z.eqb_neq c _)); [done|..]; intros ->; done.
Qed.

Lemma trim_right_word l w : is_word w -> 0 < zlen w -> trim_right (l ++ w) = l ++ w.
Proof.
  intros Hw Hl. destruct (exists_last (l := w)) as (w' & c & ->); [by intros ->|].
  apply Forall_app in Hw as [_ Hw]. inversion Hw as [|? ? [Hc _] _]; subst.
  rewrite app_assoc. generalize (l ++ w') as k. induction k as [|x k IH]; cbn [app trim_right].
  - by rewrite word_not_blank.
  - rewrite IH. by destruct k.
Qed.

Lemma trim_right_blank w : is_word w -> 0 < zlen w -> trim_right (w ++ [32]) = w.
Proof.
  intros Hw Hl. destruct (exists_last (l := w)) as (w' & c & ->); [by intros ->|].
  apply Forall_app in Hw as [_ Hw]. inversion Hw as [|? ? [Hc _] _]; subst.
  rewrite <- app_assoc. cbn [app]. induction w' as [|x k IH]; cbn [app trim_right].
  - change (is_blank 32 || (32 =? 13)) with true. cbv iota. by rewrite word_not_blank.
  - rewrite IH; [by destruct k|]. rewrite zlen_app. pose proof (zlen_nonneg k). change (zlen [c]) with 1. lia.
Qed.

Lemma trim_left_word w r : is_word w -> 0 < zlen w -> trim_left (w ++ r) = w ++ r.
Proof.
  intros Hw Hl. destruct w as [|c w]; [done|]. inversion Hw as [|? ? [Hc _] _]; subst.
  cbn [app trim_left]. apply word_not_blank in Hc. apply orb_false_elim in Hc as [-> _]. done.
Qed.

Lemma split_eq_app l r : Forall (fun c => c <> 61) l -> split_eq (l ++ 61 :: r) = Some (l, r).
Proof.
  induction 1 as [|c l Hc _ IH]; [done|]. cbn [app split_eq].
  by rewrite (proj2 (Z.eqb_neq _ _)), IH by done.
Qed.

(** The rule line. *)
Lemma parse_rule_line s d c :
  rule_name d -> strategy_chain_is_safe c = true -> ps_in_domains s = true -> rules (ps_cfg s) = [] ->
  parse_line s (trim (d ++ str " = " ++ default [] (strategy_chain_describe c 64))) =
    with_cfg s (mk_config (default_strategy (ps_cfg s)) [mk_rule d c] (fake_ttl (ps_cfg s))).
Proof.
  intros [Hw Hl (F1 & F2 & F3) He] Hc Hin Hr.
  destruct (describe_word c Hc) as (x & -> & Hx & Hxw & Hxl). cbn [default from_option id].
  pose proof (zlen_nonneg x).
  assert (Et : trim (d ++ str " = " ++ x) = d ++ str " = " ++ x).
  { unfold trim. rewrite trim_left_word by (done || lia). rewrite app_assoc.
    apply trim_right_word; [done|lia]. }
  rewrite Et. unfold parse_line. rewrite bget_app_l by lia.
  rewrite (proj2 (Z.eqb_neq (zlen _) 0)) by (rewrite zlen_app, zlen_app; change (zlen (str " = ")) with 3; lia).
  rewrite !(proj2 (Z.eqb_neq (bget d 0) _)) by done. cbn [orb].
  change (str " = " ++ x) with ([32] ++ 61 :: 32 :: x). rewrite app_assoc. unfold parse_kv.
  rewrite split_eq_app by (apply Forall_app_2; [done|by repeat constructor]).
  assert (Ek : trim (d ++ [32]) = d).
  { unfold trim. rewrite trim_left_word by (done || lia). apply trim_right_blank; [done|lia]. }
  assert (Ev : trim (32 :: x) = x).
  { unfold trim. cbn [trim_left]. change (is_blank 32) with true. cbv iota.
    pose proof (trim_left_word x [] Hxw ltac:(lia)) as E. rewrite app_nil_r in E. rewrite E.
    apply (trim_right_word []); [done|lia]. }
  rewrite Ek, Ev, !(proj2 (Z.eqb_neq (zlen _) 0)) by lia. cbn [orb]. rewrite Hin.
  unfold parse_domain_value, set_domain_rule. rewrite Hx, Hr. cbn [update_rule].
  change (STRATEGY_MAX_DOMAINS <=? zlen []) with false.
  rewrite (proj2 (Z.leb_gt _ _)) by lia. done.
Qed.

(** The head of the file, for every TTL. *)
Definition head_state (ttl : Z) : parse_state := mk_ps (mk_config STRATEGY_PASS [] ttl) true 0.

Lemma parse_ttl_line ttl :
  1 <= ttl <= 255 ->
  parse_line (mk_ps strategy_config_init false 0) (trim (str "fake_ttl = " ++ print_dec ttl)) =
    mk_ps (mk_config STRATEGY_PASS [] ttl) false 0.
Proof.
  intros Ht.
  assert (H : forallb (fun k => let ttl := Z.of_nat k in bool_decide
     (parse_line (mk_ps strategy_config_init false 0) (trim (str "fake_ttl = " ++ print_dec ttl)) =
      mk_ps (mk_config STRATEGY_PASS [] ttl) false 0)) (seq 1 255) = true) by (vm_compute; reflexivity).
  rewrite forallb_forall in H. specialize (H (Z.to_nat ttl)). cbv zeta in H.
  rewrite Z2Nat.id in H by lia. apply (bool_decide_eq_true_1 _), H, in_seq. lia.
Qed.

(** The engine of a probe reads exactly one rule, for the probed domain, with
    the candidate as its chain; everything else passes. *)
Lemma temp_config_parse d c ttl :
  rule_name d -> strategy_chain_is_safe c = true -> 1 <= ttl <= 255 ->
  strategy_config_parse strategy_config_init (temp_config d c ttl) =
    Ok (mk_config STRATEGY_PASS [mk_rule d c] ttl, 0).
Proof.
  intros Hd Hc Ht. pose proof Hd as [Hw Hl _ _].
  destruct (print_dec_word ttl ltac:(unfold LONG_MIN, LONG_MAX; lia)) as (Hdw & Hdl & _).
  destruct (describe_word c Hc) as (x & Hx & _ & Hxw & Hxl).
  assert (Hword : forall w, is_word w -> Forall (fun c => c <> 0 /\ c <> 10) w).
  { intros w H. eapply Forall_impl; [exact H|]. tauto. }
  assert (Hstr : Forall (fun c : Z => c <> 0 /\ c <> 10) (str " = ") /\
                 Forall (fun c : Z => c <> 0 /\ c <> 10) (str "fake_ttl = ")).
  { split; apply (bool_decide_unpack _); vm_compute; exact I. }
  unfold strategy_config_parse, temp_config. rewrite Hx. cbn [default from_option id].
  pose proof (parse_rule_line (head_state ttl) d c Hd Hc eq_refl eq_refl) as Erule.
  rewrite Hx in Erule. cbn [default from_option id] in Erule.
  set (tail := d ++ _). set (text := str "default = pass" ++ _).
  assert (Hfuel : exists f, S (length text) = S (S (S (S (S (S f)))))).
  { exists (length text - 5)%nat. assert (14 <= length text)%nat; [|lia].
    unfold text. rewrite length_app. cbn [length str]. lia. }
  destruct Hfuel as [f ->]. subst text.
  rewrite parse_loop_line; [|apply (bool_decide_unpack _); vm_compute; exact I|cbn; lia].
  change (parse_line _ (trim (str "default = pass"))) with (mk_ps strategy_config_init false 0).
  rewrite (app_assoc (str "fake_ttl = ")), parse_loop_line.
  2: { apply Forall_app_2; [tauto|by apply Hword]. }
  2: { rewrite length_app. cbn [length str]. unfold zlen in Hdl. lia. }
  rewrite parse_ttl_line by done.
  assert (Hempty : forall f s r, loop (S f) parse_step (s, 10 :: r) = loop f parse_step (s, r)).
  { intros f' s r. by apply (parse_loop_line f' s []); [|cbn; lia]. }
  rewrite Hempty.
  rewrite parse_loop_line; [|apply (bool_decide_unpack _); vm_compute; exact I|cbn; lia].
  change (parse_line _ (trim (str "[domains]"))) with (head_state ttl). subst tail.
  replace (d ++ str " = " ++ x ++ [10]) with ((d ++ str " = " ++ x) ++ [10]) by (by rewrite <- !app_assoc).
  rewrite parse_loop_line.
  2: { repeat apply Forall_app_2; [by apply Hword|tauto|by apply Hword]. }
  2: { rewrite !length_app. unfold zlen, STRATEGY_DOMAIN_MAX in *. cbn [length str]. lia. }
  rewrite Erule. rewrite loop_S. done.
Qed.

(** ** One probe *)

(** The engine's choices under a configuration file with this text. *)
Definition scoped_to (text domain : list Z) (candidate : strategy_chain) (ttl : Z) : Prop :=
  exists cfg, strategy_config_parse strategy_config_init text = Ok (cfg, 0) /\ fake_ttl cfg = ttl /\
    forall host, strategy_chain_for_domain cfg host =
      if ieq domain host then candidate else [STRATEGY_PASS].

Lemma temp_config_scoped d c ttl :
  rule_name d -> bget d 0 <> 46 -> strategy_chain_is_safe c = true -> 1 <= ttl <= 255 ->
  scoped_to (temp_config d c ttl) d c ttl.
Proof.
  intros Hd Hdot Hc Ht. eexists. split; [by apply temp_config_parse|]. split; [done|]. intros host.
  unfold strategy_chain_for_domain, strategy_has_explicit_rule. cbn [rules find].
  unfold exact_rule, suffix_rule. cbn [rule_domain]. rewrite (proj2 (Z.eqb_neq _ _) Hdot).
  cbn [negb andb]. by destruct (ieq d host).
Qed.

Lemma classify_success out :
  probe_classify_openssl_output out = PROBE_SUCCESS <->
  strstr out (str "CONNECTED(") = true /\ strstr out (str "Verify return code:") = true /\
  strstr out (str "Verify return code: 0 (ok)") = true.
Proof.
  unfold probe_classify_openssl_output.
  destruct (strstr out (str "CONNECTED(")), (strstr out (str "Verify return code:")),
    (strstr out (str "Verify return code: 0 (ok)")); cbn; split; intuition discriminate.
Qed.

Section probe_theorem.
Context (nft : list Z -> bool -> bool * option Z).
Context (laws : nft_laws nft id).

(** What a probe is started with. *)
Record probe_start (env : probe_env) (m : machine) : Prop := {
  ps_fresh : forall p, pe_mkstemp env = Some p -> m_temp m !! p = None;
  ps_idle : m_engine m = None /\ m_check m = false
}.

(** The temporary files afterwards: those before, and the one of this probe
    when it could not be unlinked. *)
Definition temp_left (env : probe_env) (before after : gmap (list Z) (list Z)) : Prop :=
  after = before \/
  (pe_unlink env = false /\ exists p, pe_mkstemp env = Some p /\ before !! p = None /\ delete p after = before).

(** The table when the engine has gone, which found or made it with [up]. *)
Definition engine_left (env : probe_env) (up : bool) : bool :=
  match poll_engine (pe_term env + 3000) (pe_polls env) with
  | Some clean => negb clean && up
  | None => negb (pe_killed_clean env) && up
  end.

Lemma unlink_left env m p text :
  pe_mkstemp env = Some p -> m_temp m !! p = None ->
  forall m', m_temp m' = <[p := text]> (m_temp m) -> temp_left env (m_temp m) (m_temp (unlink env p m')).
Proof.
  intros Hp Hf m' E. unfold unlink, temp_left. destruct (pe_unlink env); cbn [m_temp with_temp]; rewrite E.
  - left. by rewrite delete_insert_id.
  - right. split; [done|]. exists p. by rewrite delete_insert_id.
Qed.

(** Unlinking changes nothing else. *)
Lemma unlink_rest env p m :
  m_engine (unlink env p m) = m_engine m /\ m_check (unlink env p m) = m_check m /\
  m_zombies (unlink env p m) = m_zombies m /\ m_table (unlink env p m) = m_table m.
Proof. unfold unlink. by destruct (pe_unlink env). Qed.

Lemma write_temp_config_spec env m d c ttl size :
  probe_start env m ->
  match write_temp_config env m d c ttl size with
  | (m', None) => temp_left env (m_temp m) (m_temp m') /\ m_engine m' = None /\ m_check m' = false /\
      m_zombies m' = m_zombies m /\ m_table m' = m_table m
  | (m', Some p) => pe_mkstemp env = Some p /\ m_temp m !! p = None /\
      exists text, m' = with_temp (<[p := text]> (m_temp m)) m /\
        (pe_short env = None -> text = temp_config d c ttl)
  end.
Proof.
  intros [Hf [Hi Hc]]. unfold write_temp_config. destruct (pe_mkstemp env) as [p|] eqn:Ep; [|by split; [left|]].
  specialize (Hf p eq_refl).
  assert (Hu : forall text, let m' := unlink env p (with_temp (<[p := text]> (m_temp m)) m) in
    temp_left env (m_temp m) (m_temp m') /\ m_engine m' = None /\ m_check m' = false /\
    m_zombies m' = m_zombies m /\ m_table m' = m_table m).
  { intros text. cbv zeta. split; [by apply (unlink_left env m p text)|].
    by destruct (unlink_rest env p (with_temp (<[p := text]> (m_temp m)) m)) as (-> & -> & -> & ->). }
  destruct (pe_fdopen env); cbn [negb]; [|apply Hu]. destruct (size <=? zlen p); [apply Hu|].
  split; [done|]. split; [done|]. eexists. split; [done|]. by intros ->.
Qed.

(** What the check leaves: no openssl process, whatever it printed. *)
Lemma run_openssl_check_spec env m timeout :
  m_check m = false ->
  let '(m', result) := run_openssl_check env m timeout in
  m_temp m' = m_temp m /\ m_engine m' = m_engine m /\ m_table m' = m_table m /\
  (m_check m' = true <-> result = None) /\
  m_zombies m <= m_zombies m' <= m_zombies m + 1 /\
  (pe_check_wait env = true \/ result = None -> m_zombies m' = m_zombies m) /\
  (result = Some PROBE_SUCCESS -> exists out,
     read_output (pe_start env + timeout) (pe_reads env) (pe_last env) [] = Some out /\
     strstr (cstr out) (str "CONNECTED(") = true /\
     strstr (cstr out) (str "Verify return code: 0 (ok)") = true) /\
  (pe_pipe env = true -> pe_fork_check env = true ->
   pe_reads env = [] -> pe_last env < pe_start env + timeout -> result = None).
Proof.
  intros Hc. unfold run_openssl_check.
  destruct (pe_pipe env); cbn [negb]; [|rewrite Hc; split_and!; done || lia].
  destruct (pe_fork_check env); cbn [negb]; [|rewrite Hc; split_and!; done || lia].
  destruct (read_output _ _ _ _) as [out|] eqn:Er; [|split_and!; done || (cbn; lia)].
  assert (Hs : Some (probe_classify_openssl_output (cstr out)) = Some PROBE_SUCCESS ->
    exists o, Some out = Some o /\ strstr (cstr o) (str "CONNECTED(") = true /\
      strstr (cstr o) (str "Verify return code: 0 (ok)") = true).
  { intros [= Ec]. apply classify_success in Ec as (? & ? & ?). by exists out. }
  assert (Hn : pe_reads env = [] -> pe_last env < pe_start env + timeout -> False).
  { intros Hre Hla. rewrite Hre in Er. cbn in Er. by rewrite (proj2 (Z.ltb_lt _ _)) in Er. }
  unfold reaped. destruct (pe_check_ended env), (pe_check_wait env); cbn [m_temp m_engine m_table m_check m_zombies];
    split_and!; try (done || lia); try (by intros; exfalso; apply Hn); try (by apply Hs);
    intros [?|?]; done.
Qed.

Lemma stop_scoped_engine_spec env m :
  let m' := stop_scoped_engine env m 3000 in
  m_temp m' = m_temp m /\ m_engine m' = None /\ m_check m' = m_check m /\ m_table m' = engine_left env (m_table m) /\
  m_zombies m <= m_zombies m' <= m_zombies m + 1 /\ (pe_engine_wait env = true -> m_zombies m' = m_zombies m).
Proof.
  unfold stop_scoped_engine, engine_left, reaped.
  destruct (poll_engine _ _) as [[]|], (pe_killed_clean env), (pe_engine_wait env); cbn; split_and!; done || lia.
Qed.

End probe_theorem.

(** A probe of a host that answers; the engine has to be killed and leaves its
    table. *)
Definition sample_penv : probe_env :=
  mk_penv (Some (str "/tmp/dpi-proxy-probe-a1B2c3")) true None true true true
    2000 [(2000, None); (2050, None); (5001, Some true)] false true
    (mk_nft_run true true [TX_INTR; TX_SENT 30] true) true true 1000
    [(1000, RX_DATA (str "CONNECTED(00000003)")); (1100, RX_INTR);
     (1200, RX_DATA (str "    Verify return code: 0 (ok)")); (1300, RX_DATA [])] 1400 false true.
Definition sample_nft (text : list Z) (present : bool) : bool * option Z :=
  if bool_decide (text = delete_text) then if present then (false, Some 0) else (false, Some 1) else (present, Some 1).

