(* ===== verification/Netprofile.v ===== *)
(** * The network profile ([src/discovery/netfingerprint.c])

    Which network the machine is on, from what the kernel and NetworkManager
    say: the files of [/proc/net] as text read with [fgets] and [sscanf], the
    existence of files under [/sys/class/net], the output of [nmcli] and the
    interface address. What the system answers is an environment, any
    environment; the theorem at the end is about environments whose files have
    the kernel's format. *)

From stdpp Require Import base list numbers strings option.
From Stdlib Require Import ZArith Lia.
From S2P Require Import Prelude Text Discovery Socket.

(** ** Reading lines *)

(** [fgets(line, n + 1, f)]: a line with its newline, or its first [n]
    characters. *)
Fixpoint get_line (n : nat) (s : list Z) : list Z * list Z :=
  match n, s with
  | S n', c :: s' =>
      if c =? 10 then ([c], s') else let '(l, r) := get_line n' s' in (c :: l, r)
  | _, _ => ([], s)
  end.

(** The buffers successive calls fill, as C strings, to the end of the file. *)
Fixpoint fgets_all (fuel : nat) (s : list Z) : list (list Z) :=
  match fuel, s with
  | S fuel', _ :: _ => let '(l, r) := get_line 255 s in cstr l :: fgets_all fuel' r
  | _, _ => []
  end.
Definition file_lines (text : list Z) : list (list Z) := fgets_all (length text) text.

(** ** The routing tables *)

Definition strtoul16 (s : list Z) : Z := default 0 (fst <$> scan_hex_rest s).

(** The loop body of [find_default_route_v4]: [None] is a [continue]. *)
Definition route_line_v4 (line : list Z) : option (list Z * Z) :=
  '(iface_field, r) ← scan_word 63 line;
  '(dest_field, r) ← scan_word 31 r;
  '(gw_field, _) ← scan_word 31 r;
  if bool_decide (dest_field = str "00000000") then Some (iface_field, u32 (strtoul16 gw_field))
  else None.

(** The first line for which [f] gives a result. *)
Fixpoint first_line {A} (f : list Z -> option A) (lines : list (list Z)) : option A :=
  match lines with
  | [] => None
  | l :: lines' => match f l with Some a => Some a | None => first_line f lines' end
  end.

(** A file that cannot be opened is [None]; the first line is a header. *)
Definition find_default_route_v4 (file : option (list Z)) : option (list Z * Z) :=
  text ← file;
  match file_lines text with
  | [] => None
  | _ :: lines => first_line route_line_v4 lines
  end.

Definition route_line_v6 (line : list Z) : option unit :=
  '(dest_field, r) ← scan_word 63 line;
  '(prefixlen_field, _) ← scan_word 7 r;
  if bool_decide (prefixlen_field = str "00") && forallb (fun c => c =? 48) dest_field
  then Some tt else None.

Definition has_default_route_v6 (file : option (list Z)) : bool :=
  match file with
  | None => false
  | Some text => bool_decide (first_line route_line_v6 (file_lines text) = Some tt)
  end.

(** ** The gateway's hardware address *)

(** [sscanf(s, "%x:%x:...")] for [n] numbers. *)
Fixpoint scan_mac (n : nat) (s : list Z) : option (list Z) :=
  match n with
  | O => Some []
  | S n' =>
      '(b, r) ← scan_hex_rest s;
      match n' with
      | O => Some [u32 b]
      | _ =>
          match r with
          | c :: r' => if c =? 58 then bs ← scan_mac n' r'; Some (u32 b :: bs) else None
          | [] => None
          end
      end
  end.

Definition arp_line (gw_ip : list Z) (line : list Z) : option (list Z) :=
  '(ip_field, r) ← scan_word 63 line;
  '(_, r) ← scan_word (length r) r;
  '(_, r) ← scan_word 15 r;
  '(hwaddr_field, _) ← scan_word 31 r;
  if negb (bool_decide (ip_field = gw_ip)) then None else
  b ← scan_mac 6 hwaddr_field;
  if forallb (fun x => x =? 0) b then None else Some (map u8 b).

Definition gateway_mac_v4 (file : option (list Z)) (gw_ip : list Z) : option (list Z) :=
  text ← file;
  match file_lines text with
  | [] => None
  | _ :: lines => first_line (arp_line gw_ip) lines
  end.

(** ** The profile *)

(** What the system answers. [env_nmcli]: the reads from nmcli's output,
    [None] when it could not be started; [env_addr]: the interface address
    [SIOCGIFADDR] gives for a name. *)
Record net_env := mk_env {
  env_route : option (list Z);
  env_route6 : option (list Z);
  env_arp : option (list Z);
  env_access : list Z -> bool;
  env_nmcli : option (list rx_event);
  env_addr : list Z -> option (list Z)
}.

Definition detect_link_type (access : list Z -> bool) (iface : list Z) : link_type :=
  if bool_decide (iface = []) then LINK_UNKNOWN else
  if access (bsub (str "/sys/class/net/" ++ iface ++ str "/wireless") 0 127) then LINK_WIFI else
  if access (bsub (str "/sys/class/net/" ++ iface) 0 127) then LINK_ETHERNET else LINK_OTHER.

(** The read loop: what fits in [room] bytes, up to the end or an error. *)
Fixpoint read_pipe (s : list rx_event) (room : Z) : list Z :=
  if room <=? 0 then [] else
  match s with
  | [] | RX_DATA [] :: _ | RX_ERROR :: _ => []
  | RX_INTR :: s' => read_pipe s' room
  | RX_DATA d :: s' => bsub d 0 room ++ read_pipe s' (room - zlen d)
  end.

(** The tokens of [strtok_r(buf, "\n", ...)]; [cur] is the one being read. *)
Fixpoint tokens (s cur : list Z) : list (list Z) :=
  match s with
  | [] => if bool_decide (cur = []) then [] else [cur]
  | c :: s' =>
      if c =? 10 then (if bool_decide (cur = []) then [] else [cur]) ++ tokens s' []
      else tokens s' (cur ++ [c])
  end.

Definition ssid_token (line : list Z) : option (list Z) :=
  if bool_decide (bsub line 0 4 = str "yes:") then Some (bsub (bfrom line 4) 0 63) else None.

Definition get_active_ssid (nmcli : option (list rx_event)) : list Z :=
  match nmcli with
  | None => []
  | Some s => default [] (first_line ssid_token (tokens (cstr (read_pipe s 511)) []))
  end.

(** [ifr_name] holds 15 characters. *)
Definition get_iface_local_addr (addr : list Z -> option (list Z)) (iface : list Z) : list Z :=
  if bool_decide (iface = []) then [] else default [] (inet_ntop4 <$> addr (bsub iface 0 15)).

Definition netprofile_gather (env : net_env) : net_profile :=
  let iface := default [] (fst <$> find_default_route_v4 (env_route env)) in
  let link := detect_link_type (env_access env) iface in
  mk_profile iface link
    (if bool_decide (link = LINK_WIFI) then get_active_ssid (env_nmcli env) else [])
    (negb (bool_decide (iface = [])))
    (has_default_route_v6 (env_route6 env))
    (get_iface_local_addr (env_addr env) iface).

(** [route]: what [/proc/net/route] held when it was read first; the profile
    reads it again. *)
Definition netfingerprint_current (route : option (list Z)) (env : net_env) : Z :=
  match find_default_route_v4 route with
  | None => NETFP_UNKNOWN
  | Some (_, gw_raw) =>
      netfingerprint_hash (netprofile_gather env) gw_raw
        (gateway_mac_v4 (env_arp env) (inet_ntop4 (le32 gw_raw)))
  end.

(** ** The kernel's formats *)

Definition hex_upper (c : Z) : Z := if 97 <=? c then c - 32 else c.
(** [%08X] *)
Definition HEX8 (n : Z) : list Z := map hex_upper (hex_digits 8 n).

(** A line of [/proc/net/route]: [rt_flags] is what stands between the gateway
    and the netmask (flags, reference count, use, metric), [rt_rest] what
    follows the netmask. *)
Record route := mk_route {
  rt_iface : list Z; rt_dest : Z; rt_gw : Z; rt_flags : list Z; rt_mask : Z; rt_rest : list Z
}.
Definition route_tail (r : route) : list Z := rt_flags r ++ 9 :: HEX8 (rt_mask r) ++ 9 :: rt_rest r.
Definition print_route (r : route) : list Z :=
  rt_iface r ++ 9 :: HEX8 (rt_dest r) ++ 9 :: HEX8 (rt_gw r) ++ 9 :: route_tail r ++ [10].

(** A line of [/proc/net/ipv6_route]. *)
Record route6 := mk_route6 { r6_dest : Z; r6_plen : Z; r6_rest : list Z }.
Definition print_route6 (r : route6) : list Z :=
  hex_digits 32 (r6_dest r) ++ 32 :: hex_digits 2 (r6_plen r) ++ 32 :: r6_rest r ++ [10].

(** A line of [/proc/net/arp]; [ar_hw] and [ar_flags] with their 0x. *)
Record arp := mk_arp {
  ar_ip : list Z; ar_hw : list Z; ar_flags : list Z; ar_mac : list Z; ar_dev : list Z
}.
Definition pad (w : nat) (s : list Z) : list Z := s ++ repeat 32 (w - length s).
Definition colons (l : list (list Z)) : list Z :=
  match l with
  | [] => []
  | x :: l' => x ++ concat (map (fun y => 58 :: y) l')
  end.
Definition print_mac (m : list Z) : list Z := colons (map (hex_digits 2) m).
Definition print_arp (a : arp) : list Z :=
  pad 16 (inet_ntop4 (ar_ip a)) ++ 32 :: pad 12 (ar_hw a) ++ pad 12 (ar_flags a)
  ++ pad 17 (print_mac (ar_mac a)) ++ str "     *        " ++ ar_dev a ++ [10].

(** What a file line may hold besides its newline. *)
Definition line_ok (l : list Z) : Prop :=
  Forall (fun c => c <> 0 /\ c <> 10) l /\ (length l <= 254)%nat.

Record route_ok (r : route) : Prop := {
  rk_iface : is_word (rt_iface r) /\ (0 < length (rt_iface r) <= 63)%nat;
  rk_addrs : is_u32 (rt_dest r) /\ is_u32 (rt_gw r) /\ is_u32 (rt_mask r);
  rk_flags : Forall (fun c => c <> 0 /\ c <> 10) (rt_flags r) /\ (length (rt_flags r) <= 80)%nat;
  rk_rest : Forall (fun c => c <> 0 /\ c <> 10) (rt_rest r) /\ (length (rt_rest r) <= 80)%nat
}.
Record route6_ok (r : route6) : Prop := {
  r6k_addrs : 0 <= r6_dest r < 2 ^ 128 /\ is_u8 (r6_plen r);
  r6k_rest : Forall (fun c => c <> 0 /\ c <> 10) (r6_rest r) /\ (length (r6_rest r) <= 200)%nat
}.
Record arp_ok (a : arp) : Prop := {
  ak_ip : length (ar_ip a) = 4%nat /\ bytes_ok (ar_ip a);
  ak_hw : is_word (ar_hw a) /\ (0 < length (ar_hw a) < 12)%nat;
  ak_flags : is_word (ar_flags a) /\ (0 < length (ar_flags a) < 12)%nat;
  ak_mac : length (ar_mac a) = 6%nat /\ bytes_ok (ar_mac a);
  ak_dev : Forall (fun c => c <> 0 /\ c <> 10) (ar_dev a) /\ (length (ar_dev a) <= 64)%nat
}.

(** ** What they mean *)

(** The default route is 0.0.0.0/0. *)
Definition default_route (rs : list route) : option route :=
  head (filter (fun r => rt_dest r = 0 /\ rt_mask r = 0) rs).
(** The first route to 0.0.0.0, whatever its netmask: 0.0.0.0/1 is one too. *)
Definition zero_route (rs : list route) : option route := head (filter (fun r => rt_dest r = 0) rs).
Definition default_route6 (rs : list route6) : bool :=
  existsb (fun r => (r6_dest r =? 0) && (r6_plen r =? 0)) rs.
(** The first complete entry for the address. *)
Definition arp_mac (ip : list Z) (l : list arp) : option (list Z) :=
  ar_mac <$> head (filter (fun a => ar_ip a = ip /\ ar_mac a <> replicate 6 0) l).

(** ** Lines *)

Lemma get_line_one n l r :
  Forall (fun c => c <> 10) l -> (length l < n)%nat -> get_line n (l ++ 10 :: r) = (l ++ [10], r).
Proof.
  intros H. revert n. induction H as [|c l Hc _ IH]; intros n Hn; (destruct n; [cbn in *; lia|]).
  - done.
  - cbn [app get_line]. rewrite (proj2 (Z.eqb_neq _ _)), IH by (done || cbn in Hn; lia). done.
Qed.

Lemma fgets_all_lines ls fuel :
  Forall line_ok ls -> (length (concat (map (fun l => l ++ [10%Z]) ls)) <= fuel)%nat ->
  fgets_all fuel (concat (map (fun l => l ++ [10]) ls)) = map (fun l => l ++ [10]) ls.
Proof.
  intros H. revert fuel. induction H as [|l ls [Hc Hl] _ IH]; intros fuel Hf; [by destruct fuel|].
  cbn [map concat] in *. rewrite <- app_assoc in *. cbn [app] in *. rewrite length_app in Hf. cbn in Hf.
  destruct fuel as [|fuel]; [lia|].
  assert (Hg : get_line 255 (l ++ 10 :: concat (map (fun l => l ++ [10]) ls)) =
    (l ++ [10], concat (map (fun l => l ++ [10]) ls))).
  { apply get_line_one; [|lia]. by eapply Forall_impl; [|exact Hc]; intros ? []. }
  cbn [fgets_all]. rewrite Hg, IH by lia.
  rewrite cstr_clean by (by eapply Forall_impl; [|exact Hc]; intros ? []). by destruct l.
Qed.

(** Files of such lines are read line by line. *)
Lemma file_lines_printed ls :
  Forall line_ok ls -> file_lines (concat (map (fun l => l ++ [10]) ls)) = map (fun l => l ++ [10]) ls.
Proof. intros H. by apply fgets_all_lines. Qed.

(** ** Fields *)

Lemma scan_word_skip width c s : isspace c = true -> scan_word width (c :: s) = scan_word width s.
Proof. intros H. unfold scan_word. cbn [skip_space]. by rewrite H. Qed.

Lemma scan_word_blanks width k s : scan_word width (repeat 32 k ++ s) = scan_word width s.
Proof. induction k as [|k IH]; [done|]. cbn [repeat app]. by rewrite scan_word_skip, IH. Qed.

Lemma scan_word_here width w c r :
  is_word w -> (0 < length w <= width)%nat -> isspace c = true ->
  scan_word width (w ++ c :: r) = Some (w, c :: r).
Proof. intros H Hl Hc. apply scan_word_app; [done|unfold zlen; lia|lia|done]. Qed.

Lemma is_hex_word l : Forall is_hex l -> is_word l.
Proof. intros H. eapply Forall_impl; [|exact H]. intros c (_ & ? & ? & ? & _). done. Qed.

Lemma hex_upper_value c : is_hex c -> is_hex (hex_upper c) /\ hex_value (hex_upper c) = hex_value c.
Proof.
  intros Hc. unfold hex_upper. destruct (Z.leb_spec 97 c) as [H|]; [|done].
  destruct Hc as (Hv & _). unfold hex_value, isdigit in Hv.
  assert (Hr : 97 <= c <= 102).
  { rewrite (proj2 (Z.leb_gt c 57)), andb_false_r in Hv by lia.
    destruct (Z.leb_spec c 102); [lia|]. rewrite andb_false_r in Hv.
    destruct (Z.leb_spec c 70); [lia|]. by rewrite andb_false_r in Hv. }
  clear Hv. assert (H' : c = 97 \/ c = 98 \/ c = 99 \/ c = 100 \/ c = 101 \/ c = 102) by lia.
  by destruct H' as [->|[->|[->|[->|[->| ->]]]]].
Qed.

Lemma read_hex_upper l acc : Forall is_hex l -> read_hex acc (map hex_upper l) = read_hex acc l.
Proof.
  intros H. revert acc. induction H as [|c l Hc _ IH]; intros acc; [done|]. cbn [map read_hex].
  rewrite (proj2 (hex_upper_value c Hc)). by destruct (hex_value c).
Qed.

Lemma HEX8_spec n :
  is_u32 n -> Forall is_hex (HEX8 n) /\ length (HEX8 n) = 8%nat /\ read_hex 0 (HEX8 n) = n.
Proof.
  intros Hn. destruct (hex_digits_spec 8 n) as (H1 & H2 & H3); [exact Hn|].
  unfold HEX8. rewrite length_map, read_hex_upper by done. split; [|done].
  clear - H1. induction H1; cbn [map]; constructor; [by apply hex_upper_value|done].
Qed.

(** A hexadecimal number in a text, before something that is not part of it. *)
Definition hex_stops (r : list Z) : Prop :=
  match r with c :: _ => hex_value c = None /\ tolower c <> 120 | [] => True end.

Lemma read_hex_stops acc l r :
  Forall is_hex l -> hex_stops r -> read_hex_rest acc (l ++ r) = (read_hex acc l, r).
Proof.
  intros Hl Hr. revert acc. induction Hl as [|c l [Hc _] _ IH]; intros acc; cbn [app].
  - destruct r as [|x r]; [done|]. cbn. by rewrite (proj1 Hr).
  - cbn [read_hex_rest read_hex]. destruct (hex_value c); [apply IH|done].
Qed.

Lemma scan_hex_here l r :
  Forall is_hex l -> (0 < length l)%nat -> hex_stops r -> 0 <= read_hex 0 l < 2 ^ 64 ->
  scan_hex_rest (l ++ r) = Some (read_hex 0 l, r).
Proof.
  intros Hl Hn Hr Hv. pose proof (read_hex_stops 0 l r Hl Hr) as Hread.
  destruct l as [|c l]; [cbn in Hn; lia|]. inversion Hl as [|? ? Hc Hl']; subst.
  destruct Hc as (Hcv & Hsp & _ & _ & _ & Hm & Hp).
  assert (Hx : match l ++ r with x :: _ => tolower x <> 120 | [] => True end).
  { destruct l as [|x l]; [by destruct r; [|apply Hr]|]. inversion Hl' as [|? ? Hx _]; subst. apply Hx. }
  unfold scan_hex_rest. cbn [app skip_space] in *. rewrite Hsp. cbn [split_sign].
  rewrite (proj2 (Z.eqb_neq _ _) Hm), (proj2 (Z.eqb_neq _ _) Hp).
  assert (E : match c :: l ++ r with
    | z :: x :: t' => if (z =? 48) && (tolower x =? 120) then t' else c :: l ++ r
    | _ => c :: l ++ r end = c :: l ++ r).
  { destruct (l ++ r) as [|x t]; [done|]. by rewrite (proj2 (Z.eqb_neq _ _) Hx), andb_false_r. }
  rewrite E. destruct (hex_value c); [|done]. rewrite Hread. f_equal. f_equal. unfold u64.
  rewrite Z.min_r by lia. apply Z.mod_small. lia.
Qed.

(** ** The files *)

Lemma first_line_map {A B} (f : list Z -> option B) (g : A -> list Z) (P : A -> Prop)
    `{!forall a, Decision (P a)} (k : A -> B) l :
  Forall (fun a => f (g a) = if bool_decide (P a) then Some (k a) else None) l ->
  first_line f (map g l) = k <$> head (filter P l).
Proof.
  intros Hl. induction Hl as [|a l Ha _ IH]; [done|]. cbn [map first_line].
  rewrite Ha, filter_cons. case_bool_decide; rewrite ?decide_True, ?decide_False by done; [done|exact IH].
Qed.

(** A file of printed lines, with a header line or without. *)
Lemma file_lines_map {A} (g : A -> list Z) (body : A -> list Z) l :
  (forall a, g a = body a ++ [10]) -> Forall (fun a => line_ok (body a)) l ->
  file_lines (concat (map g l)) = map g l.
Proof.
  intros Hg Hl. assert (E : map g l = map (fun x => x ++ [10]) (map body l)).
  { rewrite map_map. by apply map_ext. }
  rewrite E. apply file_lines_printed. by apply Forall_map.
Qed.

Lemma route_line_printed r :
  route_ok r ->
  route_line_v4 (print_route r) = if bool_decide (rt_dest r = 0) then Some (rt_iface r, rt_gw r) else None.
Proof.
  intros [[Hi Hil] [Hd [Hg _]] _ _]. destruct (HEX8_spec _ Hd) as (D1 & D2 & D3).
  destruct (HEX8_spec _ Hg) as (G1 & G2 & G3). unfold route_line_v4, print_route.
  rewrite scan_word_here by done. cbn [mbind option_bind].
  rewrite scan_word_skip, scan_word_here by (done || rewrite ?D2; lia || by apply is_hex_word).
  cbn [mbind option_bind].
  rewrite scan_word_skip, scan_word_here by (done || rewrite ?G2; lia || by apply is_hex_word).
  cbn [mbind option_bind].
  assert (Hz : HEX8 (rt_dest r) = str "00000000" <-> rt_dest r = 0).
  { split; [|by intros ->]. intros E. by rewrite <- D3, E. }
  destruct (bool_decide_reflect (rt_dest r = 0)) as [E|E].
  - rewrite bool_decide_eq_true_2 by tauto. unfold strtoul16.
    rewrite <- (app_nil_r (HEX8 (rt_gw r))), scan_hex_here by (done || rewrite ?G2, ?G3; unfold is_u32 in *; lia).
    cbn [fmap option_fmap option_map default from_option fst id]. rewrite G3, u32_small by done. done.
  - rewrite bool_decide_eq_false_2 by tauto. done.
Qed.

Lemma length_HEX8 n : length (HEX8 n) = 8%nat.
Proof. unfold HEX8. by rewrite length_map. Qed.

Lemma is_word_line w : is_word w -> Forall (fun c => c <> 0 /\ c <> 10) w.
Proof. intros H. eapply Forall_impl; [|exact H]. by intros c (_ & ? & ?). Qed.

Ltac line_chars :=
  repeat first [assumption | by apply is_word_line | by apply is_word_line, is_hex_word
               | apply Forall_app_2 | apply Forall_cons_2]; try lia.

(** A header line in front. *)
Lemma file_lines_header {A} (hdr : list Z) (g body : A -> list Z) l :
  line_ok hdr -> (forall a, g a = body a ++ [10]) -> Forall (fun a => line_ok (body a)) l ->
  file_lines (hdr ++ 10 :: concat (map g l)) = (hdr ++ [10]) :: map g l.
Proof.
  intros Hh Hg Hl. assert (E : map g l = map (fun x => x ++ [10]) (map body l)).
  { rewrite map_map. by apply map_ext. }
  rewrite E. change (10 :: ?x) with ([10] ++ x). rewrite app_assoc.
  apply (file_lines_printed (hdr :: map body l)). constructor; [done|]. by apply Forall_map.
Qed.

Lemma find_default_route_printed hdr rs :
  line_ok hdr -> Forall route_ok rs ->
  find_default_route_v4 (Some (hdr ++ 10 :: concat (map print_route rs))) =
    (fun r => (rt_iface r, rt_gw r)) <$> zero_route rs.
Proof.
  intros Hh Hr. unfold find_default_route_v4. cbn [mbind option_bind].
  rewrite (file_lines_header hdr print_route
    (fun r => rt_iface r ++ 9 :: HEX8 (rt_dest r) ++ 9 :: HEX8 (rt_gw r) ++ 9 :: route_tail r)).
  - apply first_line_map. eapply Forall_impl; [|exact Hr]. apply route_line_printed.
  - done.
  - intros r. unfold print_route. by rewrite <- !app_assoc; cbn [app]; rewrite <- !app_assoc; cbn [app]; rewrite <- !app_assoc.
  - eapply Forall_impl; [|exact Hr]. intros r [[Hi Hil] [Hd [Hg Hm]] [Hf Hfl] [Hx Hxl]].
    destruct (HEX8_spec _ Hd) as (D1 & _). destruct (HEX8_spec _ Hg) as (G1 & _). destruct (HEX8_spec _ Hm) as (M1 & _).
    unfold route_tail. split.
    + line_chars.
    + repeat (rewrite length_app || cbn [length]). rewrite !length_HEX8. lia.
Qed.

Lemma read_hex_zeros l : Forall is_hex l -> forallb (fun c => c =? 48) l = true <-> read_hex 0 l = 0.
Proof.
  assert (Hacc : forall l acc, Forall is_hex l -> 0 <= acc ->
    acc <= read_hex acc l /\ (read_hex acc l = 0 -> acc = 0 /\ forallb (fun c => c =? 48) l = true)).
  { clear l. intros l acc H. revert acc. induction H as [|c l Hc _ IH]; intros acc Ha; cbn [read_hex forallb].
    { split; [lia|done]. }
    destruct Hc as (Hv & _). destruct (hex_value c) as [d|] eqn:E; [|done].
    assert (Hd : 0 <= d /\ (d = 0 -> c = 48)).
    { unfold hex_value, isdigit in E. destruct (Z.leb_spec 48 c), (Z.leb_spec c 57); cbn [andb] in E;
        try (injection E as <-; lia);
        destruct (Z.leb_spec 97 c), (Z.leb_spec c 102); cbn [andb] in E; try (injection E as <-; lia);
        destruct (Z.leb_spec 65 c), (Z.leb_spec c 70); cbn [andb] in E; try done; injection E as <-; lia. }
    destruct (IH (acc * 16 + d)) as [H1 H2]; [lia|]. split; [lia|].
    intros H. destruct (H2 H) as [H3 ->]. assert (d = 0) by lia. rewrite (proj2 (Z.eqb_eq c 48)) by tauto.
    split; [lia|done]. }
  intros H. split; [|intros E; by apply (Hacc l 0)].
  clear Hacc. induction H as [|c l Hc _ IH]; [done|]. cbn [forallb read_hex].
  intros [H1%Z.eqb_eq H2]%andb_prop. subst c. by apply IH.
Qed.

Lemma route_line6_printed r :
  route6_ok r ->
  route_line_v6 (print_route6 r) = if bool_decide (r6_dest r = 0 /\ r6_plen r = 0) then Some tt else None.
Proof.
  intros [[Hd Hp] [Hr _]]. destruct (hex_digits_spec 32 (r6_dest r)) as (D1 & D2 & D3); [exact Hd|].
  destruct (hex_digits_spec 2 (r6_plen r)) as (P1 & P2 & P3); [exact Hp|].
  unfold route_line_v6, print_route6.
  rewrite scan_word_here by (done || rewrite ?D2; lia || by apply is_hex_word). cbn [mbind option_bind].
  rewrite scan_word_skip, scan_word_here by (done || rewrite ?P2; lia || by apply is_hex_word).
  cbn [mbind option_bind].
  pose proof (read_hex_zeros _ D1) as Hz. rewrite D3 in Hz.
  assert (Hp0 : hex_digits 2 (r6_plen r) = str "00" <-> r6_plen r = 0).
  { split; [|by intros ->]. intros E. by rewrite <- P3, E. }
  case_bool_decide as E1; case_bool_decide as E2; cbn [andb]; try tauto.
  - by rewrite (proj2 Hz) by apply E2.
  - destruct (forallb _ _) eqn:E; [|done]. tauto.
Qed.

Lemma has_default_route6_printed rs :
  Forall route6_ok rs -> has_default_route_v6 (Some (concat (map print_route6 rs))) = default_route6 rs.
Proof.
  intros Hr. unfold has_default_route_v6.
  rewrite (file_lines_map print_route6
    (fun r => hex_digits 32 (r6_dest r) ++ 32 :: hex_digits 2 (r6_plen r) ++ 32 :: r6_rest r)).
  - rewrite (first_line_map _ _ (fun r => r6_dest r = 0 /\ r6_plen r = 0) (fun _ => tt))
      by (eapply Forall_impl; [|exact Hr]; apply route_line6_printed).
    unfold default_route6. clear Hr. induction rs as [|r rs IH]; [done|]. rewrite filter_cons. cbn [existsb].
    destruct (decide (r6_dest r = 0 /\ r6_plen r = 0)) as [[E1 E2]|E].
    + by rewrite E1, E2.
    + rewrite IH. destruct (Z.eqb_spec (r6_dest r) 0), (Z.eqb_spec (r6_plen r) 0); tauto || done.
  - intros r. unfold print_route6. by rewrite <- !app_assoc; cbn [app]; rewrite <- !app_assoc.
  - eapply Forall_impl; [|exact Hr]. intros r [[Hd Hp] [Hx Hxl]].
    destruct (hex_digits_spec 32 (r6_dest r)) as (D1 & D2 & _); [exact Hd|].
    destruct (hex_digits_spec 2 (r6_plen r)) as (P1 & P2 & _); [exact Hp|]. split.
    + line_chars.
    + repeat (rewrite length_app || cbn [length]). rewrite D2, P2. lia.
Qed.

(** Dotted decimal names one address. *)
Lemma read_print_dec x r :
  is_u8 x -> match r with c :: _ => isdigit c = false | [] => True end ->
  read_digits 0 (print_dec x ++ r) = (x, r).
Proof.
  intros Hx Hr. unfold is_u8 in Hx. unfold print_dec. rewrite (proj2 (Z.ltb_ge _ _)) by lia.
  destruct (dec_digits_spec 20 x) as (H1 & _ & H3 & _).
  { change (10 ^ Z.of_nat 20) with 100000000000000000000. lia. }
  destruct (read_digits_app 0 _ r H1 Hr) as (v & -> & E). rewrite H3 in E. by injection E as <-.
Qed.

Lemma print_dec_dot_inj x y r r' :
  is_u8 x -> is_u8 y -> print_dec x ++ 46 :: r = print_dec y ++ 46 :: r' -> x = y /\ r = r'.
Proof.
  intros Hx Hy E. apply (f_equal (read_digits 0)) in E. rewrite !read_print_dec in E by done.
  by injection E as -> ->.
Qed.

Lemma inet_ntop4_inj a b :
  length a = 4%nat -> length b = 4%nat -> bytes_ok a -> bytes_ok b ->
  inet_ntop4 a = inet_ntop4 b -> a = b.
Proof.
  intros Ha Hb Oa Ob. unfold inet_ntop4.
  pose proof (fun i => bytes_ok_get a i Oa) as Ga. pose proof (fun i => bytes_ok_get b i Ob) as Gb.
  intros E. apply print_dec_dot_inj in E as [E0 E]; [|done..].
  apply print_dec_dot_inj in E as [E1 E]; [|done..]. apply print_dec_dot_inj in E as [E2 E]; [|done..].
  apply (f_equal (fun l => read_digits 0 (l ++ []))) in E. rewrite !read_print_dec in E by done.
  injection E as E3. apply bytes_ext; unfold zlen; rewrite Ha; [by rewrite Hb|].
  intros i Hi. assert (H : i = 0 \/ i = 1 \/ i = 2 \/ i = 3) by lia.
  by destruct H as [->|[->|[->| ->]]].
Qed.

Lemma print_dec_byte x : is_u8 x -> is_word (print_dec x) /\ (1 <= length (print_dec x) <= 3)%nat.
Proof.
  intros Hx. unfold is_u8 in Hx. split.
  { apply print_dec_word. unfold LONG_MIN, LONG_MAX. lia. }
  unfold print_dec. rewrite (proj2 (Z.ltb_ge _ _)) by lia. cbn [dec_digits].
  destruct (Z.ltb_spec x 10); [cbn; lia|]. rewrite length_app.
  destruct (Z.ltb_spec (x / 10) 10); [cbn; lia|]. rewrite length_app.
  rewrite (proj2 (Z.ltb_lt (x / 10 / 10) 10)); [cbn; lia|].
  do 2 (apply Z.div_lt_upper_bound; [lia|]). lia.
Qed.

Lemma inet_ntop4_word a :
  bytes_ok a -> is_word (inet_ntop4 a) /\ (7 <= length (inet_ntop4 a) <= 15)%nat.
Proof.
  intros Ha. unfold inet_ntop4.
  assert (H : forall i, is_word (print_dec (bget a i)) /\ (1 <= length (print_dec (bget a i)) <= 3)%nat)
    by (intros i; by apply print_dec_byte, bytes_ok_get).
  destruct (H 0), (H 1), (H 2), (H 3). split.
  - repeat first [assumption | apply Forall_app_2 | apply Forall_cons_2]; done.
  - repeat (rewrite length_app || cbn [length]). lia.
Qed.

(** *** Hardware addresses *)

Lemma hex2_spec x : is_u8 x ->
  Forall is_hex (hex_digits 2 x) /\ length (hex_digits 2 x) = 2%nat /\ read_hex 0 (hex_digits 2 x) = x.
Proof. intros H. by apply hex_digits_spec. Qed.

Lemma print_mac_cons x y m : print_mac (x :: y :: m) = hex_digits 2 x ++ 58 :: print_mac (y :: m).
Proof. done. Qed.
Lemma print_mac_one x : print_mac [x] = hex_digits 2 x ++ [].
Proof. done. Qed.

Lemma print_mac_scan m :
  bytes_ok m -> scan_mac (length m) (print_mac m) = Some m.
Proof.
  intros Hm. induction m as [|x m IH]; [done|]. apply bytes_ok_cons in Hm as [Hx Hm].
  destruct (hex2_spec x Hx) as (H1 & H2 & H3). unfold is_u8 in Hx. specialize (IH Hm).
  assert (Hs : forall r, hex_stops r -> scan_hex_rest (hex_digits 2 x ++ r) = Some (x, r)).
  { intros r Hr. rewrite <- H3 at 2. apply scan_hex_here; [done|rewrite H2; lia|done|rewrite H3; lia]. }
  destruct m as [|y m].
  - rewrite print_mac_one. cbn [length scan_mac]. rewrite Hs by done. cbn [mbind option_bind].
    rewrite u32_small by lia. done.
  - rewrite print_mac_cons. cbn [length] in *. set (n := S (length m)) in *. cbn [scan_mac].
    rewrite Hs by done. cbn [mbind option_bind]. unfold n at 1. cbn match. rewrite Z.eqb_refl, IH.
    cbn [mbind option_bind]. rewrite u32_small by lia. done.
Qed.

Lemma print_mac_word m :
  bytes_ok m -> is_word (print_mac m) /\ (length (print_mac m) <= 3 * length m)%nat /\
  (m <> [] -> 0 < length (print_mac m))%nat.
Proof.
  intros Hm. induction m as [|x m IH]; [split; [constructor|split; [cbn; lia|done]]|].
  apply bytes_ok_cons in Hm as [Hx Hm]. destruct (hex2_spec x Hx) as (H1 & H2 & _). destruct (IH Hm) as (I1 & I2 & I3).
  destruct m as [|y m].
  - rewrite print_mac_one, app_nil_r, H2. split; [by apply is_hex_word|]. cbn. lia.
  - rewrite print_mac_cons. rewrite length_app, H2. cbn [length] in *. split; [|lia].
    apply Forall_app_2; [by apply is_hex_word|]. by apply Forall_cons_2.
Qed.

(** *** The neighbour table *)

Lemma scan_word_breaks width w r :
  is_word w -> (0 < length w <= width)%nat -> breaks r -> scan_word width (w ++ r) = Some (w, r).
Proof.
  intros Hw Hl Hr. destruct r as [|c r]; [|by apply scan_word_here].
  rewrite app_nil_r, <- (scan_word_skip width 32 w) by done. apply scan_word_last; [done| |lia]. unfold zlen. lia.
Qed.

Lemma scan_word_pad width n w r :
  is_word w -> (0 < length w <= width)%nat -> (length w < n)%nat \/ breaks r ->
  scan_word width (pad n w ++ r) = Some (w, repeat 32 (n - length w) ++ r).
Proof.
  intros Hw Hl Hb. unfold pad. rewrite <- app_assoc. apply scan_word_breaks; [done|done|].
  destruct (n - length w)%nat eqn:E; [|done]. destruct Hb; [lia|done].
Qed.

Lemma zero_mac m : length m = 6%nat -> forallb (fun x => x =? 0) m = bool_decide (m = replicate 6 0).
Proof.
  intros Hm. case_bool_decide as E; [by rewrite E|]. apply not_true_iff_false. intros H. apply E.
  do 6 (destruct m as [|? m]; [done|]). destruct m; [|done]. cbn in H.
  repeat match goal with H : (_ && _) = true |- _ => apply andb_prop in H as [?%Z.eqb_eq H] end. by subst.
Qed.

Lemma map_u8_bytes m : bytes_ok m -> map u8 m = m.
Proof. intros H. induction H as [|x m Hx _ IH]; [done|]. cbn [map]. by rewrite IH, u8_small. Qed.

Lemma arp_line_printed ip a :
  length ip = 4%nat -> bytes_ok ip -> arp_ok a ->
  arp_line (inet_ntop4 ip) (print_arp a) =
    if bool_decide (ar_ip a = ip /\ ar_mac a <> replicate 6 0) then Some (ar_mac a) else None.
Proof.
  intros Hil Hip [[Hal Ha] [Hh Hhl] [Hf Hfl] [Hml Hm] _]. unfold arp_line, print_arp.
  destruct (inet_ntop4_word _ Ha) as [W1 L1]. destruct (print_mac_word _ Hm) as (W2 & L2 & L3).
  assert (Hmne : ar_mac a <> []) by (intros E; by rewrite E in Hml). specialize (L3 Hmne). rewrite Hml in L2.
  rewrite scan_word_pad by (done || lia || by left; lia). cbn [mbind option_bind].
  rewrite scan_word_blanks, scan_word_skip by done.
  rewrite scan_word_pad; [|done| |left; lia].
  2: { unfold pad. repeat (rewrite length_app || cbn [length]). lia. }
  cbn [mbind option_bind]. rewrite scan_word_blanks, scan_word_pad by (done || lia || by left; lia).
  cbn [mbind option_bind]. rewrite scan_word_blanks, scan_word_pad by (done || lia || by right).
  cbn [mbind option_bind]. rewrite <- Hml at 1. rewrite print_mac_scan by done. cbn [mbind option_bind].
  rewrite zero_mac, map_u8_bytes by done.
  assert (Hinj : inet_ntop4 (ar_ip a) = inet_ntop4 ip <-> ar_ip a = ip)
    by (split; [by apply inet_ntop4_inj|by intros ->]).
  repeat case_bool_decide; cbn [negb]; tauto.
Qed.

Lemma gateway_mac_printed hdr l ip :
  line_ok hdr -> Forall arp_ok l -> length ip = 4%nat -> bytes_ok ip ->
  gateway_mac_v4 (Some (hdr ++ 10 :: concat (map print_arp l))) (inet_ntop4 ip) = arp_mac ip l.
Proof.
  intros Hh Hl Hil Hip. unfold gateway_mac_v4. cbn [mbind option_bind].
  rewrite (file_lines_header hdr print_arp (fun a =>
    pad 16 (inet_ntop4 (ar_ip a)) ++ 32 :: pad 12 (ar_hw a) ++ pad 12 (ar_flags a)
    ++ pad 17 (print_mac (ar_mac a)) ++ str "     *        " ++ ar_dev a)).
  - apply first_line_map. eapply Forall_impl; [|exact Hl]. intros a Ha. by apply arp_line_printed.
  - done.
  - intros a. unfold print_arp. by rewrite <- !app_assoc; cbn [app]; rewrite <- !app_assoc.
  - eapply Forall_impl; [|exact Hl]. intros a [[Hal Ha] [Hw Hhl] [Hf Hfl] [Hml Hm] [Hd Hdl]].
    destruct (inet_ntop4_word _ Ha) as [W1 L1]. destruct (print_mac_word _ Hm) as (W2 & L2 & _).
    assert (Hp : forall n w, is_word w -> Forall (fun c => c <> 0 /\ c <> 10) (pad n w)).
    { intros n w Hx. apply Forall_app_2; [by apply is_word_line|].
      clear. induction (n - length w)%nat; cbn [repeat]; constructor; done. }
    split.
    + repeat first [assumption | by apply Hp | apply Forall_app_2 | apply Forall_cons_2 | done].
    + rewrite Hml in L2. unfold pad. repeat (rewrite length_app || cbn [length]). rewrite !repeat_length.
      change (length (str "     *        ")) with 14%nat. lia.
Qed.

(** ** NetworkManager's answer *)

(** How the output is cut into reads makes no difference. *)
Lemma read_pipe_spec s room : read_pipe s room = bsub (rx_bytes s) 0 room.
Proof.
  assert (Hz : forall l n, n <= 0 -> bsub l 0 n = []).
  { intros l n Hn. unfold bsub. rewrite Z2Nat.nonpos by done. apply take_0. }
  assert (Hnil : forall n, bsub [] 0 n = []) by (intros n; unfold bsub; by rewrite drop_nil, take_nil).
  revert room. induction s as [|ev s IH]; intros room; cbn [read_pipe rx_bytes];
    destruct (Z.leb_spec room 0); rewrite ?Hz, ?Hnil by done; try done.
  destruct ev as [[|x d]| |]; rewrite ?Hnil; try done.
  rewrite IH. unfold bsub. cbn [Z.to_nat]. rewrite !drop_0, take_app. f_equal. f_equal.
  unfold zlen. cbn [length]. lia.
Qed.

(** [nmcli -t -f active,ssid dev wifi]: one line per network, with a backslash
    before the colons and backslashes of its name. *)
Definition nm_escape (ssid : list Z) : list Z :=
  concat (map (fun c => if (c =? 58) || (c =? 92) then [92; c] else [c]) ssid).
Definition nm_line (n : bool * list Z) : list Z := (if n.1 then str "yes:" else str "no:") ++ nm_escape n.2.
Definition print_nm (l : list (bool * list Z)) : list Z := concat (map (fun n => nm_line n ++ [10]) l).
Definition nm_ok (l : list (bool * list Z)) : Prop :=
  Forall (fun n : bool * list Z => bytes_ok n.2 /\ Forall (fun c => c <> 0 /\ c <> 10) n.2) l /\
  zlen (print_nm l) <= 511.
(** The name of the first active network as it is printed, 63 bytes of it. *)
Definition active_ssid (l : list (bool * list Z)) : list Z :=
  default [] ((fun n => bsub (nm_escape n.2) 0 63) <$> head (filter (fun n : bool * list Z => n.1 = true) l)).

Lemma nm_escape_Forall (P : Z -> Prop) s : P 92 -> Forall P s -> Forall P (nm_escape s).
Proof.
  intros H92 H. induction H as [|c s Hc _ IH]; [constructor|]. unfold nm_escape. cbn [map concat].
  apply Forall_app_2; [|exact IH]. destruct (_ || _); repeat constructor; done.
Qed.

Lemma tokens_line l cur r :
  Forall (fun c => c <> 10) l -> cur ++ l <> [] -> tokens (l ++ 10 :: r) cur = (cur ++ l) :: tokens r [].
Proof.
  intros Hl. revert cur. induction Hl as [|c l Hc _ IH]; intros cur Hne.
  - rewrite app_nil_r in *. cbn [app tokens]. rewrite Z.eqb_refl, bool_decide_eq_false_2 by done. done.
  - cbn [app tokens]. rewrite (proj2 (Z.eqb_neq _ _)) by done. rewrite IH; rewrite <- app_assoc; done.
Qed.

Lemma get_active_ssid_printed l s :
  nm_ok l -> rx_bytes s = print_nm l -> get_active_ssid (Some s) = active_ssid l.
Proof.
  intros [Hl Hn] Hs. unfold get_active_ssid. rewrite read_pipe_spec, Hs.
  assert (Hall : bsub (print_nm l) 0 511 = print_nm l).
  { unfold bsub. change (Z.to_nat 0) with 0%nat. rewrite drop_0, take_ge; [done|]. unfold zlen in Hn. lia. }
  assert (Hclean : forall n, Forall (fun c => c <> 0 /\ c <> 10) n.2 -> Forall (fun c => c <> 0 /\ c <> 10) (nm_line n)).
  { intros [b n] H. apply Forall_app_2; [|by apply nm_escape_Forall]. by destruct b; repeat constructor. }
  assert (Hc : cstr (print_nm l) = print_nm l).
  { rewrite <- (app_nil_r (print_nm l)) at 1. rewrite cstr_clean; [by rewrite app_nil_r|].
    clear - Hl Hclean. induction Hl as [|n l [_ Hn] _ IH]; [constructor|]. unfold print_nm. cbn [map concat].
    apply Forall_app_2; [apply Forall_app_2; [|by constructor]|exact IH].
    eapply Forall_impl; [|by apply Hclean]. by intros ? []. }
  rewrite Hall, Hc. assert (Ht : tokens (print_nm l) [] = map nm_line l).
  { clear - Hl Hclean. induction Hl as [|n l [_ Hn] _ IH]; [done|]. unfold print_nm in *. cbn [map concat].
    rewrite <- app_assoc. cbn [app]. rewrite tokens_line.
    - by rewrite IH.
    - eapply Forall_impl; [|by apply Hclean]. by intros ? [].
    - by destruct n as [[] ?]. }
  rewrite Ht. unfold active_ssid. f_equal.
  rewrite (first_line_map _ _ (fun n : bool * list Z => n.1 = true) (fun n => bsub (nm_escape n.2) 0 63)); [done|].
  apply Forall_forall. by intros [[] n] _.
Qed.

(** ** The whole *)

(** The environment shows these routes, neighbours and networks. *)
Record described (env : net_env) (rs : list route) (r6s : list route6) (arps : list arp)
    (nm : list (bool * list Z)) : Prop := {
  ds_route : exists hdr, line_ok hdr /\
    env_route env = Some (hdr ++ 10 :: concat (map print_route rs));
  ds_routes : Forall route_ok rs;
  ds_route6 : (env_route6 env = None /\ r6s = []) \/
    env_route6 env = Some (concat (map print_route6 r6s));
  ds_routes6 : Forall route6_ok r6s;
  ds_arp : exists hdr, line_ok hdr /\ env_arp env = Some (hdr ++ 10 :: concat (map print_arp arps));
  ds_arps : Forall arp_ok arps;
  ds_nmcli : (env_nmcli env = None /\ nm = []) \/
    exists s, env_nmcli env = Some s /\ rx_bytes s = print_nm nm;
  ds_nm : nm_ok nm
}.

(** The profile of such a network with the route [r]. *)
Definition profile_of (env : net_env) (r : route) (r6s : list route6) (nm : list (bool * list Z))
  : net_profile :=
  let link := detect_link_type (env_access env) (rt_iface r) in
  mk_profile (rt_iface r) link (if bool_decide (link = LINK_WIFI) then active_ssid nm else [])
    true (default_route6 r6s) (get_iface_local_addr (env_addr env) (rt_iface r)).

Lemma zero_route_ok rs r : Forall route_ok rs -> zero_route rs = Some r -> route_ok r.
Proof.
  intros H Hd. unfold zero_route in Hd. rewrite Forall_forall in H. apply H.
  by apply head_Some_elem_of, list_elem_of_filter in Hd as [_ Hd%list_elem_of_In].
Qed.

Lemma arp_mac_ok ip arps m : Forall arp_ok arps -> arp_mac ip arps = Some m -> bytes_ok m.
Proof.
  intros H (a & Ha & ->)%fmap_Some. rewrite Forall_forall in H.
  apply head_Some_elem_of, list_elem_of_filter in Ha as [_ Ha%list_elem_of_In]. apply (H a Ha).
Qed.

Lemma active_ssid_ok nm : nm_ok nm -> bytes_ok (active_ssid nm).
Proof.
  intros [H _]. unfold active_ssid. destruct (head _) as [n|] eqn:E; [|constructor]. rewrite Forall_forall in H.
  apply head_Some_elem_of, list_elem_of_filter in E as [_ E%list_elem_of_In]. apply bytes_ok_bsub, nm_escape_Forall; [done|]. apply (H n E).
Qed.

Lemma gather_described env rs r6s arps nm r :
  described env rs r6s arps nm -> zero_route rs = Some r ->
  netprofile_gather env = profile_of env r r6s nm.
Proof.
  intros [(hdr & Hh & Er) Hrs E6 H6s _ _ En Hnm] Hd. unfold netprofile_gather, profile_of.
  rewrite Er, find_default_route_printed, Hd by done.
  cbn [fmap option_fmap option_map default from_option fst id].
  assert (Hne : rt_iface r <> []).
  { intros E. pose proof (rk_iface _ (zero_route_ok _ _ Hrs Hd)) as [_ H]. rewrite E in H. cbn in H. lia. }
  rewrite (bool_decide_eq_false_2 (rt_iface r = [])) by done. cbn [negb]. f_equal.
  - destruct En as [[-> ->]|(s & -> & Es)]; [by case_bool_decide|]. by rewrite (get_active_ssid_printed nm).
  - destruct E6 as [[-> ->]| ->]; [done|]. by apply has_default_route6_printed.
Qed.

Lemma current_described env rs r6s arps nm :
  described env rs r6s arps nm ->
  netfingerprint_current (env_route env) env =
    match zero_route rs with
    | None => NETFP_UNKNOWN
    | Some r => netfingerprint_hash (profile_of env r r6s nm) (rt_gw r) (arp_mac (le32 (rt_gw r)) arps)
    end.
Proof.
  intros D. pose proof D as [(hdr & Hh & Er) Hrs _ _ (hdr' & Hh' & Ea) Has _ _].
  unfold netfingerprint_current. rewrite Er, find_default_route_printed by done.
  destruct (zero_route rs) as [r|] eqn:Hd; [|done].
  cbn [fmap option_fmap option_map]. rewrite (gather_described _ _ _ _ _ _ D Hd), Ea.
  rewrite gateway_mac_printed; auto using bytes_ok_le32.
Qed.

(** Without a 0.0.0.0/n route the two are the same. *)
Lemma zero_route_default rs :
  Forall (fun r => rt_dest r = 0 -> rt_mask r = 0) rs -> zero_route rs = default_route rs.
Proof.
  unfold zero_route, default_route. induction 1 as [|r rs Hr _ IH]; [done|]. rewrite !filter_cons.
  destruct (decide (rt_dest r = 0)) as [E|E].
  - by rewrite decide_True by auto.
  - rewrite decide_False by (by intros []). exact IH.
Qed.

Definition sample_routes (mask : Z) : list route :=
  [mk_route (str "eth0") 43200 0 (str "0001 0 0 0") 16777215 (str "0 0 0");
   mk_route (str "eth0") 0 16885952 (str "0003 0 0 100") mask (str "0 0 0")].
Definition sample_arps (mac6 : Z) : list arp :=
  [mk_arp [192; 168; 1; 9] (str "0x1") (str "0x0") (replicate 6 0) (str "eth0");
   mk_arp [192; 168; 1; 1] (str "0x1") (str "0x2") [2; 0; 0; 0; 0; mac6] (str "eth0")].
Definition sample_net (mask mac6 : Z) : net_env :=
  mk_env
    (Some (str "Iface Destination Gateway" ++ 10 :: concat (map print_route (sample_routes mask))))
    None
    (Some (str "IP address" ++ 10 :: concat (map print_arp (sample_arps mac6))))
    (fun _ => true) (Some [RX_DATA (str "no:guest"); RX_INTR; RX_DATA (10 :: str "yes:caf\:1"); RX_DATA [10]]) (fun _ => None).
Definition sample_env (mac6 : Z) : net_env := sample_net 0 mac6.
(** One of the networks is called guest, the active one caf:1. *)
Definition sample_nm : list (bool * list Z) := [(false, str "guest"); (true, str "caf:1")].

Lemma sample_described mask m :
  is_u32 mask -> is_u8 m -> described (sample_net mask m) (sample_routes mask) [] (sample_arps m) sample_nm.
Proof.
  intros Hk Hm.
  assert (Hw : forall l, forallb (fun c => negb (isspace c) && negb (c =? 0) && negb (c =? 10)) l = true -> is_word l).
  { intros l H. apply Forall_forall. intros c Hc. rewrite forallb_forall in H. specialize (H c Hc).
    apply andb_prop in H as [[H1%negb_true_iff H2%negb_true_iff]%andb_prop H3%negb_true_iff]. split; [done|lia]. }
  assert (Hc : forall l, forallb (fun c => negb (c =? 0) && negb (c =? 10)) l = true ->
    Forall (fun c => c <> 0 /\ c <> 10) l).
  { intros l H. apply Forall_forall. intros c Hc. rewrite forallb_forall in H. specialize (H c Hc).
    apply andb_prop in H as [H1%negb_true_iff H2%negb_true_iff]. lia. }
  split.
  - exists (str "Iface Destination Gateway"). split; [|done]. split; [by apply Hc|cbn; lia].
  - repeat apply Forall_cons_2; [split..|constructor]; cbn; repeat split; try lia; first [by apply Hw | by apply Hc | apply Hk].
  - by left.
  - constructor.
  - exists (str "IP address"). split; [|done]. split; [by apply Hc|cbn; lia].
  - assert (Hb : bytes_ok [2; 0; 0; 0; 0; m]).
    { repeat (apply bytes_ok_cons; split; [done|]). constructor. }
    constructor; [|constructor; [|constructor]]; split; cbn; split;
      first [done | lia | by apply Hw | by apply Hc | by apply bytes_okb_ok].
  - right. eexists. split; [reflexivity|]. by vm_compute.
  - split; [|by vm_compute]. repeat apply Forall_cons_2; [| |constructor]; (split; [by apply bytes_okb_ok|by apply Hc]).
Qed.


