(* ===== verification/Cli.v ===== *)
(** * The packet-mode command line ([src/main_packet.c])

    The commands of [dpi-proxy-packet] that read and write the configuration
    and the discovery cache: showing the strategy of a domain, probing,
    status, export and import, with the texts they print, and the argument
    parser. Files, environment variables, the clock and the network are a
    [system]; a command returns the system it leaves, its output and its exit
    status. The file half of [src/discovery/cache.c] is here too. *)

From stdpp Require Import base list numbers strings gmap relations.
From Stdlib Require Import ZArith Lia.
From S2P Require Import Prelude Text Strategy Discovery Netprofile.

(** ** Escaping *)

Definition BACKSLASH : Z := 92.
Definition QUOTE : Z := 34.

(** ["\\u%04x"] *)
Definition u_escape (c : Z) : list Z := [BACKSLASH; 117] ++ hex_digits 4 c.

(** The loop: [out] is the whole array, [pos] may run past its end. *)
Fixpoint json_escape_loop (inp out : list Z) (pos : Z) : res unit (list Z * Z) :=
  match inp with
  | [] => Ok (out, pos)
  | c :: inp' =>
      if negb (pos + 2 <? zlen out) then Ok (out, pos) else
      if (c =? QUOTE) || (c =? BACKSLASH) then
        out ← store out pos [BACKSLASH];
        out ← store out (pos + 1) [c];
        json_escape_loop inp' out (pos + 2)
      else if c <? 32 then
        out ← store out pos (bsub (u_escape c) 0 (zlen out - pos - 1) ++ [0]);
        json_escape_loop inp' out (pos + zlen (u_escape c))
      else
        out ← store out pos [c];
        json_escape_loop inp' out (pos + 1)
  end.

(** The string left in [out]. *)
Definition json_escape (inp out : list Z) : res unit (list Z) :=
  '(out, pos) ← json_escape_loop inp out 0;
  out ← store out pos [0];
  Ok (cstr out).

(** An array of [n] characters; what it holds before the call does not
    matter. *)
Definition array (n : nat) : list Z := replicate n 0.

(** ** Files and environment *)

Record system := mk_sys {
  sys_files : gmap (list Z) (list Z);
  (** reading the file fails after so many bytes *)
  sys_read_error : list Z -> option Z;
  (** [fopen(path, "w")] succeeds *)
  sys_creatable : list Z -> bool;
  (** writing the file stops after so many bytes *)
  sys_short_write : list Z -> option Z;
  sys_env : gmap (list Z) (list Z);
  sys_net : net_env;
  sys_now : Z
}.

Definition with_files (sys : system) (files : gmap (list Z) (list Z)) : system :=
  mk_sys files (sys_read_error sys) (sys_creatable sys) (sys_short_write sys) (sys_env sys)
    (sys_net sys) (sys_now sys).

(** [fopen(path, "r")] and [fread] of [room] bytes: the bytes and [ferror];
    [None] when there is no such file. *)
Definition read_file (sys : system) (path : list Z) (room : Z) : option (list Z * bool) :=
  text ← sys_files sys !! path;
  match sys_read_error sys path with
  | None => Some (bsub text 0 room, false)
  | Some n => Some (bsub text 0 (Z.min n room), n <? room)
  end.

(** [fopen(path, "w")], [fwrite], [fclose]: [None] when the file cannot be
    opened, otherwise whether everything was written. *)
Definition write_file (sys : system) (path text : list Z) : system * option bool :=
  if negb (sys_creatable sys path) then (sys, None) else
  match sys_short_write sys path with
  | None => (with_files sys (<[path := text]> (sys_files sys)), Some true)
  | Some n => (with_files sys (<[path := bsub text 0 n]> (sys_files sys)), Some false)
  end.

Definition getenv (sys : system) (name : list Z) : option (list Z) := sys_env sys !! name.

Definition ENV_CONF : list Z := str "DPI_PROXY_STRATEGY_CONF".
Definition ENV_CACHE : list Z := str "DPI_PROXY_DISCOVERY_CACHE".
Definition ENV_LOG : list Z := str "DPI_PROXY_LOG_LEVEL".

Definition strategy_conf_path (sys : system) : list Z :=
  default (str "strategy.conf") (getenv sys ENV_CONF).
Definition discovery_cache_path (sys : system) : list Z :=
  default (str "discovery-cache.conf") (getenv sys ENV_CACHE).

Definition load_strategy_config_from_disk (sys : system) : res unit strategy_config :=
  match read_file sys (strategy_conf_path sys) 8191 with
  | None => Ok strategy_config_init
  | Some (buf, _) =>
      '(cfg, _) ← strategy_config_parse strategy_config_init buf; Ok cfg
  end.

(** The cache and the return value (0 or -1). *)
Definition discovery_cache_load_file (sys : system) (path : list Z)
  : res unit (discovery_cache * Z) :=
  match read_file sys path 16383 with
  | None => Ok (discovery_cache_init, 0)
  | Some (buf, ferror) =>
      if (ferror : bool) then Ok (discovery_cache_init, -1) else
      '(cache, _) ← discovery_cache_parse discovery_cache_init buf; Ok (cache, 0)
  end.

Definition discovery_cache_save_file (sys : system) (cache : discovery_cache) (path : list Z)
  : system * Z :=
  let buf := discovery_cache_serialize cache 16384 in
  if (zlen buf =? 0) && (0 <? zlen cache) then (sys, -1) else
  match write_file sys path buf with
  | (sys, Some true) => (sys, 0)
  | (sys, _) => (sys, -1)
  end.

(** The cache and what goes to standard error. *)
Definition load_discovery_cache_from_disk (sys : system) : res unit (discovery_cache * list Z) :=
  '(cache, rc) ← discovery_cache_load_file sys (discovery_cache_path sys);
  Ok (cache, if rc <? 0
             then str "warning: could not read discovery cache " ++ discovery_cache_path sys ++ [10]
             else []).

Definition save_discovery_cache_to_disk (sys : system) (cache : discovery_cache) : system * Z :=
  discovery_cache_save_file sys cache (discovery_cache_path sys).

(** ** Commands *)

Record run := mk_run { r_sys : system; r_out : list Z; r_err : list Z; r_code : Z }.

Definition quoted (s : list Z) : list Z := QUOTE :: s ++ [QUOTE].
(** ["name":] *)
Definition field (name : list Z) : list Z := quoted name ++ str ":".

Definition describe64 (c : strategy_chain) : list Z := default [] (strategy_chain_describe c 64).

Definition strategy_source_name (s : strategy_source) : list Z :=
  match s with
  | STRATEGY_SOURCE_MANUAL => str "manual"
  | STRATEGY_SOURCE_AUTO => str "auto-discovery"
  | STRATEGY_SOURCE_DEFAULT => str "default"
  end.

Definition print_show_strategy_json (domain chain source : list Z) (validated_ago_seconds : Z)
  : res unit (list Z) :=
  domain_esc ← json_escape domain (array 320);
  chain_esc ← json_escape chain (array 128);
  Ok (str "{" ++ field (str "domain") ++ quoted domain_esc ++ str "," ++
      field (str "chain") ++ quoted chain_esc ++ str "," ++
      field (str "source") ++ quoted source ++
      (if 0 <=? validated_ago_seconds
       then str "," ++ field (str "validated_ago_seconds") ++ print_dec validated_ago_seconds
       else []) ++
      str "}" ++ [10]).

Definition current_fingerprint (sys : system) : Z :=
  netfingerprint_current (env_route (sys_net sys)) (sys_net sys).

Definition show_strategy_text (domain desc : list Z) (source : strategy_source)
    (entry : option cache_entry) (now : Z) : list Z :=
  match source, entry with
  | STRATEGY_SOURCE_MANUAL, _ =>
      domain ++ str ": " ++ desc ++ str " (source: manual, strategy.conf)" ++ [10]
  | STRATEGY_SOURCE_AUTO, Some e =>
      domain ++ str ": " ++ desc ++ str " (source: auto-discovery, validated " ++
      print_dec (now - ce_validated_at e) ++ str "s ago on this network)" ++ [10]
  | _, _ =>
      domain ++ str ": " ++ desc ++
      str " (source: default — no manual rule and no fresh cached discovery for this network; run " ++
      quoted (str "--probe " ++ domain) ++ str " to auto-discover one)" ++ [10]
  end.

Definition cmd_show_strategy (sys : system) (json_output : bool) (domain : list Z)
  : res unit run :=
  cfg ← load_strategy_config_from_disk sys;
  '(cache, err) ← load_discovery_cache_from_disk sys;
  let now := sys_now sys in
  let '(source, chain, entry) :=
    strategy_resolve_chain cfg cache (current_fingerprint sys) now domain in
  let desc := describe64 chain in
  if (json_output : bool) then
    out ← print_show_strategy_json domain desc (strategy_source_name source)
            (match entry with Some e => now - ce_validated_at e | None => -1 end);
    Ok (mk_run sys out err 0)
  else Ok (mk_run sys (show_strategy_text domain desc source entry now) err 0).

Definition probe_result_name (r : probe_result) : list Z :=
  match r with
  | PROBE_SUCCESS => str "success"
  | PROBE_REMOTE_REJECTED => str "remote_rejected"
  | PROBE_LOCAL_ERROR => str "local_error"
  | PROBE_TIMEOUT => str "timeout"
  end.

Section commands.
(** The prober [discovery_run] is given, for a domain and a TTL. *)
Context (prober : list Z -> Z -> probe_trace -> strategy_chain -> probe_result).

Definition probe_intro (domain : list Z) : list Z :=
  str "Probing " ++ domain ++
  str " — this applies real, temporary packet manipulation to a test connection and needs the same CAP_NET_ADMIN/CAP_NET_RAW the engine normally needs (see --capabilities)." ++ [10].

Definition cmd_probe (sys : system) (domain : list Z) (force : bool) : res unit run :=
  cfg ← load_strategy_config_from_disk sys;
  match strategy_has_explicit_rule cfg domain with
  | Some manual_chain =>
      Ok (mk_run sys
            (domain ++ str ": manual override already set in strategy.conf (" ++
             quoted (describe64 manual_chain) ++
             str ") — auto-discovery never overrides an explicit rule; remove it there first if you want discovery to choose instead." ++ [10])
            [] 1)
  | None =>
      '(cache, err) ← load_discovery_cache_from_disk sys;
      let fp := current_fingerprint sys in
      let now := sys_now sys in
      match (if force then None else
             discovery_cache_lookup cache domain fp DISCOVERY_CACHE_DEFAULT_TTL_SECONDS now) with
      | Some entry =>
          Ok (mk_run sys
                (domain ++ str ": already have a fresh cached result (" ++
                 quoted (describe64 (ce_chain entry)) ++ str ", validated " ++
                 print_dec (now - ce_validated_at entry) ++
                 str "s ago on this network) — use --reprobe to force a new probe." ++ [10])
                err 0)
      | None =>
          let '(found, last, _) := discovery_run (prober domain (fake_ttl cfg)) in
          match found with
          | Some found_chain =>
              (* the result of [discovery_cache_set] is not looked at *)
              let cache := default cache (discovery_cache_set cache domain found_chain fp now) in
              let '(sys, rc) := save_discovery_cache_to_disk sys cache in
              let err := err ++
                if rc <? 0
                then str "warning: could not save discovery cache to " ++
                     discovery_cache_path sys ++ [10]
                else [] in
              Ok (mk_run sys
                    (probe_intro domain ++ domain ++ str ": selected " ++
                     quoted (describe64 found_chain) ++ str " (cached for this network in " ++
                     discovery_cache_path sys ++ str ")" ++ [10]) err 0)
          | None =>
              Ok (mk_run sys
                    (probe_intro domain ++ domain ++
                     str ": no candidate strategy succeeded (last result: " ++
                     probe_result_name last ++
                     str ") — nothing cached. Either this domain isn't reachable at all right now, or every strategy this project implements was rejected; nothing was left applied to your traffic." ++ [10])
                    err 1)
          end
      end
  end.

(** *** Status *)

Definition link_type_name (t : link_type) : list Z :=
  match t with
  | LINK_ETHERNET => str "ethernet"
  | LINK_WIFI => str "wifi"
  | LINK_OTHER => str "other"
  | LINK_UNKNOWN => str "unknown"
  end.

Definition or_none (s : list Z) : list Z := if bool_decide (s = []) then str "(none)" else s.
Definition yes_no (b : bool) : list Z := if b then str "yes" else str "no".
Definition true_false (b : bool) : list Z := if b then str "true" else str "false".

Definition netprofile_describe (p : net_profile) (buf_size : Z) : list Z :=
  bsub (str "iface=" ++ or_none (np_iface p) ++ str " link=" ++ link_type_name (np_link_type p) ++
        str " ssid=" ++ quoted (np_ssid p) ++ str " ipv4=" ++ yes_no (np_has_ipv4_default p) ++
        str " ipv6=" ++ yes_no (np_has_ipv6_default p) ++ str " local_addr=" ++
        or_none (np_local_addr p)) 0 (buf_size - 1).

(** The cache loop of both formats: every entry is looked up by its domain. *)
Definition fresh_entries (cache : discovery_cache) (fp now : Z) : list cache_entry :=
  omap (fun e => discovery_cache_lookup cache (ce_domain e) fp
                   DISCOVERY_CACHE_DEFAULT_TTL_SECONDS now) cache.

(** The elements of a JSON array. *)
Fixpoint json_list (items : list (res unit (list Z))) (first : bool) : res unit (list Z) :=
  match items with
  | [] => Ok []
  | item :: items' =>
      x ← item;
      rest ← json_list items' false;
      Ok ((if first then [] else str ",") ++ x ++ rest)
  end.

Definition json_rule (r : strategy_rule) : res unit (list Z) :=
  esc ← json_escape (rule_domain r) (array 320);
  Ok (str "{" ++ field (str "domain") ++ quoted esc ++ str "," ++
      field (str "chain") ++ quoted (describe64 (rule_chain r)) ++ str "}").

Definition json_entry (now : Z) (e : cache_entry) : res unit (list Z) :=
  esc ← json_escape (ce_domain e) (array 320);
  Ok (str "{" ++ field (str "domain") ++ quoted esc ++ str "," ++
      field (str "chain") ++ quoted (describe64 (ce_chain e)) ++ str "," ++
      field (str "validated_ago_seconds") ++ print_dec (now - ce_validated_at e) ++ str "}").

Definition print_status_json (profile : net_profile) (fp : Z) (cfg : strategy_config)
    (cache : discovery_cache) (now : Z) : res unit (list Z) :=
  esc ← json_escape (np_ssid profile) (array 320);
  overrides ← json_list (map json_rule (rules cfg)) true;
  cached ← json_list (map (json_entry now) (fresh_entries cache fp now)) true;
  Ok (str "{" ++ field (str "network") ++ str "{" ++
      field (str "iface") ++ quoted (np_iface profile) ++ str "," ++
      field (str "link_type") ++ quoted (link_type_name (np_link_type profile)) ++ str "," ++
      field (str "ssid") ++ quoted esc ++ str "," ++
      field (str "ipv4") ++ true_false (np_has_ipv4_default profile) ++ str "," ++
      field (str "ipv6") ++ true_false (np_has_ipv6_default profile) ++ str "," ++
      field (str "local_addr") ++ quoted (np_local_addr profile) ++ str "}," ++ [10] ++
      str " " ++ field (str "profile") ++
      (if fp =? NETFP_UNKNOWN then str "null" else quoted (hex_digits 16 fp)) ++ str "," ++ [10] ++
      str " " ++ field (str "default_strategy") ++ quoted (strategy_name (default_strategy cfg)) ++
      str "," ++ [10] ++
      str " " ++ field (str "manual_overrides") ++ str "[" ++ overrides ++ str "]," ++ [10] ++
      str " " ++ field (str "cached_strategies") ++ str "[" ++ cached ++ str "]}" ++ [10]).

Definition status_rules (cfg : strategy_config) : list Z :=
  match rules cfg with
  | [] =>
      str "  (none — everything defaults to " ++ quoted (strategy_name (default_strategy cfg)) ++
      str ")" ++ [10]
  | rs =>
      concat (map (fun r => str "  " ++ pad 40 (rule_domain r) ++ str " " ++
                            describe64 (rule_chain r) ++ [10]) rs) ++
      str "  (everything else defaults to " ++ quoted (strategy_name (default_strategy cfg)) ++
      str ")" ++ [10]
  end.

Definition status_entries (cache : discovery_cache) (fp now : Z) : list Z :=
  match fresh_entries cache fp now with
  | [] => str "  (none yet for this network — run " ++ quoted (str "--probe DOMAIN") ++ str ")" ++ [10]
  | es =>
      concat (map (fun e => str "  " ++ pad 40 (ce_domain e) ++ str " " ++
                            describe64 (ce_chain e) ++ str " (validated " ++
                            print_dec (now - ce_validated_at e) ++ str "s ago)" ++ [10]) es)
  end.

Definition cmd_status (sys : system) (json_output : bool) : res unit run :=
  let profile := netprofile_gather (sys_net sys) in
  let desc := netprofile_describe profile 256 in
  let fp := current_fingerprint sys in
  let now := sys_now sys in
  cfg ← load_strategy_config_from_disk sys;
  '(cache, err) ← load_discovery_cache_from_disk sys;
  if (json_output : bool) then
    out ← print_status_json profile fp cfg cache now;
    Ok (mk_run sys out err 0)
  else
    Ok (mk_run sys
          (str "Network: " ++ desc ++ [10] ++
           (if fp =? NETFP_UNKNOWN
            then str "Profile: unknown (no default route detected — discovery cache lookups will always miss)" ++ [10]
            else str "Profile: " ++ hex_digits 16 fp ++ [10]) ++
           [10] ++ str "Manual overrides (" ++ strategy_conf_path sys ++ str "):" ++ [10] ++
           status_rules cfg ++
           [10] ++ str "Auto-discovered strategies fresh for this network (" ++
           discovery_cache_path sys ++ str "):" ++ [10] ++
           status_entries cache fp now) err 0).

(** *** Export and import *)

(** The results of [fwrite] and [fclose] are not looked at. *)
Definition cmd_export_profile (sys : system) (path : list Z) : res unit run :=
  '(cache, err) ← load_discovery_cache_from_disk sys;
  let buf := discovery_cache_serialize cache 16384 in
  match write_file sys path buf with
  | (sys, None) =>
      Ok (mk_run sys [] (err ++ str "could not open " ++ path ++ str " for writing" ++ [10]) 1)
  | (sys, Some _) =>
      Ok (mk_run sys (str "Exported " ++ print_dec (zlen cache) ++ str " cached strategy(ies) to " ++
                      path ++ [10]) err 0)
  end.

Definition cmd_import_profile (sys : system) (path : list Z) : res unit run :=
  '(cache, err) ← load_discovery_cache_from_disk sys;
  match read_file sys path 16383 with
  | None =>
      Ok (mk_run sys [] (err ++ str "could not open " ++ path ++ str " for reading" ++ [10]) 1)
  | Some (buf, _) =>
      '(cache, skipped) ← discovery_cache_parse cache buf;
      let '(sys, rc) := save_discovery_cache_to_disk sys cache in
      if rc <? 0 then
        Ok (mk_run sys [] (err ++ str "could not save merged cache to " ++
                           discovery_cache_path sys ++ [10]) 1)
      else
        Ok (mk_run sys
              (str "Imported from " ++ path ++ str ": " ++ print_dec (zlen cache) ++
               str " strategy(ies) now cached for this machine (" ++ print_dec skipped ++
               str " line(s) skipped as malformed). Entries only take effect on a network whose fingerprint matches — run --status to see what's actually fresh right now." ++ [10])
              err 0)
  end.
End commands.

(** ** Arguments *)

Inductive deferred_action :=
| ACTION_NONE | ACTION_SHOW_STRATEGY | ACTION_PROBE | ACTION_REPROBE | ACTION_STATUS
| ACTION_EXPORT_PROFILE | ACTION_IMPORT_PROFILE.

(** What the loop over [argv] keeps. *)
Record options := mk_options {
  o_action : deferred_action;
  o_domain : option (list Z);
  o_json : bool;
  o_env : gmap (list Z) (list Z)
}.

(** Ends before anything is run, with the exit status. *)
Inductive early_exit :=
| EXIT_USAGE | EXIT_VERSION | EXIT_CAPABILITIES
| EXIT_BAD_LOG_LEVEL (level : list Z) | EXIT_BAD_MODE | EXIT_UNKNOWN_OPTION (arg : list Z).
Definition exit_status (e : early_exit) : Z :=
  match e with EXIT_USAGE | EXIT_VERSION | EXIT_CAPABILITIES => 0 | _ => 1 end.

Definition set_action (o : options) (a : deferred_action) (d : list Z) : options :=
  mk_options a (Some d) (o_json o) (o_env o).
Definition setenv (o : options) (name value : list Z) : options :=
  mk_options (o_action o) (o_domain o) (o_json o) (<[name := value]> (o_env o)).

Definition is_arg (a : list Z) (name : string) : bool := bool_decide (a = str name).

Definition log_level_ok (l : list Z) : bool :=
  is_arg l "error" || is_arg l "warn" || is_arg l "info" || is_arg l "debug".

(** The loop over [argv + 1]; an option that takes an argument is unknown at
    the end of the line. *)
Fixpoint parse_args (args : list (list Z)) (o : options) : early_exit + options :=
  match args with
  | [] => inr o
  | a :: rest =>
      if is_arg a "--help" || is_arg a "-h" then inl EXIT_USAGE else
      if is_arg a "--version" then inl EXIT_VERSION else
      if is_arg a "--capabilities" then inl EXIT_CAPABILITIES else
      if is_arg a "--status" then
        parse_args rest (mk_options ACTION_STATUS (o_domain o) (o_json o) (o_env o)) else
      if is_arg a "--json" then
        parse_args rest (mk_options (o_action o) (o_domain o) true (o_env o)) else
      match rest with
      | [] => inl (EXIT_UNKNOWN_OPTION a)
      | v :: rest' =>
          if is_arg a "--show-strategy" then parse_args rest' (set_action o ACTION_SHOW_STRATEGY v) else
          if is_arg a "--probe" then parse_args rest' (set_action o ACTION_PROBE v) else
          if is_arg a "--reprobe" then parse_args rest' (set_action o ACTION_REPROBE v) else
          if is_arg a "--export-profile" then
            parse_args rest' (set_action o ACTION_EXPORT_PROFILE v) else
          if is_arg a "--import-profile" then
            parse_args rest' (set_action o ACTION_IMPORT_PROFILE v) else
          if is_arg a "--config" then parse_args rest' (setenv o ENV_CONF v) else
          if is_arg a "--discovery-cache" then parse_args rest' (setenv o ENV_CACHE v) else
          if is_arg a "--log-level" then
            if log_level_ok v then parse_args rest' (setenv o ENV_LOG v)
            else inl (EXIT_BAD_LOG_LEVEL v) else
          if is_arg a "--mode" then
            if is_arg v "packet" then parse_args rest' o else inl EXIT_BAD_MODE else
          inl (EXIT_UNKNOWN_OPTION a)
      end
  end.

Definition with_env (sys : system) (env : gmap (list Z) (list Z)) : system :=
  mk_sys (sys_files sys) (sys_read_error sys) (sys_creatable sys) (sys_short_write sys) env
    (sys_net sys) (sys_now sys).

(** How [main] goes on: it prints and ends, has run a command, or starts the
    engine. *)
Inductive outcome :=
| ENDED (e : early_exit)
| COMMAND (r : run)
| ENGINE (sys : system).

Definition main (prober : list Z -> Z -> probe_trace -> strategy_chain -> probe_result)
    (sys : system) (args : list (list Z)) : res unit outcome :=
  match parse_args args (mk_options ACTION_NONE None false (sys_env sys)) with
  | inl e => Ok (ENDED e)
  | inr o =>
      let sys := with_env sys (o_env o) in
      let domain := default [] (o_domain o) in
      match o_action o with
      | ACTION_SHOW_STRATEGY => r ← cmd_show_strategy sys (o_json o) domain; Ok (COMMAND r)
      | ACTION_STATUS => r ← cmd_status sys (o_json o); Ok (COMMAND r)
      | ACTION_EXPORT_PROFILE => r ← cmd_export_profile sys domain; Ok (COMMAND r)
      | ACTION_IMPORT_PROFILE => r ← cmd_import_profile sys domain; Ok (COMMAND r)
      | ACTION_PROBE => r ← cmd_probe prober sys domain false; Ok (COMMAND r)
      | ACTION_REPROBE => r ← cmd_probe prober sys domain true; Ok (COMMAND r)
      | ACTION_NONE => Ok (ENGINE sys)
      end
  end.

(** ** Escaping: specification and proof *)

Definition json_char (c : Z) : list Z :=
  if (c =? QUOTE) || (c =? BACKSLASH) then [BACKSLASH; c] else
  if c <? 32 then u_escape c else [c].
Definition json_text (s : list Z) : list Z := concat (map json_char s).

(** Reading a JSON string body, for the escapes used here. *)
Fixpoint json_unescape (s : list Z) : list Z :=
  match s with
  | [] => []
  | c :: s' =>
      if c =? BACKSLASH then
        match s' with
        | x :: s'' =>
            if x =? 117 then
              match s'' with
              | a :: b :: d :: e :: r => read_hex 0 [a; b; d; e] :: json_unescape r
              | _ => []
              end
            else x :: json_unescape s''
        | [] => []
        end
      else c :: json_unescape s'
  end.

Lemma json_text_snoc s c : json_text (s ++ [c]) = json_text s ++ json_char c.
Proof. unfold json_text. rewrite map_app, concat_app. cbn. by rewrite app_nil_r. Qed.

Lemma zlen_u_escape c : zlen (u_escape c) = 6.
Proof. done. Qed.

Lemma zlen_json_char c : 1 <= zlen (json_char c) <= 6.
Proof.
  unfold json_char. destruct (_ || _); [done|]. destruct (c <? 32); [|done]. by rewrite zlen_u_escape.
Qed.

Lemma unescape_char c r : 0 < c -> json_unescape (json_char c ++ r) = c :: json_unescape r.
Proof.
  intros Hc. unfold json_char.
  destruct (_ || _) eqn:E.
  - apply orb_true_iff in E. cbn [app json_unescape]. change (BACKSLASH =? BACKSLASH) with true.
    destruct (Z.eqb_spec c 117) as [-> |]; [by destruct E|done].
  - apply orb_false_elim in E as [E1 E2]. destruct (Z.ltb_spec c 32) as [H|H].
    + destruct (hex_digits_spec 4 c) as (_ & _ & Hv).
      { change (16 ^ Z.of_nat 4) with 65536. lia. }
      unfold u_escape. cbn [app json_unescape hex_digits] in *.
      change (BACKSLASH =? BACKSLASH) with true. change (117 =? 117) with true. cbv iota.
      by rewrite Hv.
    + cbn [app json_unescape]. by rewrite E2.
Qed.

Lemma json_unescape_text s : Forall (fun c => 0 < c) s -> json_unescape (json_text s) = s.
Proof.
  induction 1 as [|c s Hc _ IH]; [done|].
  change (json_text (c :: s)) with (json_char c ++ json_text s). by rewrite unescape_char, IH.
Qed.

(** One round of the loop, when the escape and its NUL fit. *)
Lemma escape_step n esc out c inp (Q : list Z * Z -> Prop) (R : unit -> Prop) :
  esc `prefix_of` out -> zlen out = n -> zlen esc + 2 < n ->
  ((c <? 32) = true -> zlen esc + 6 < n) ->
  (forall out', (esc ++ json_char c) `prefix_of` out' -> zlen out' = n ->
     wp (json_escape_loop inp out' (zlen (esc ++ json_char c))) Q R) ->
  wp (json_escape_loop (c :: inp) out (zlen esc)) Q R.
Proof.
  intros Hp Hn Hroom Hctl HQ. pose proof (zlen_nonneg esc).
  cbn [json_escape_loop]. rewrite Hn, (proj2 (Z.ltb_lt _ _)) by lia. cbn [negb].
  unfold json_char in HQ. destruct (_ || _).
  - apply wp_bind, (wp_store_after esc out _ n); [done|done|change (zlen [BACKSLASH]) with 1; lia|].
    intros out1 F1 N1. apply wp_bind. replace (zlen esc + 1) with (zlen (esc ++ [BACKSLASH])) by (by rewrite zlen_app).
    apply (wp_store_after (esc ++ [BACKSLASH]) out1 _ n); [done|done|
      rewrite zlen_app; change (zlen [BACKSLASH]) with 1; change (zlen [c]) with 1; lia|].
    intros out2 F2 N2. rewrite <- app_assoc in F2. specialize (HQ out2 F2 N2).
    by rewrite zlen_app in HQ.
  - destruct (c <? 32).
    + specialize (Hctl eq_refl). apply wp_bind. rewrite <- zlen_app.
      assert (E : bsub (u_escape c) 0 (n - zlen esc - 1) = u_escape c).
      { unfold bsub. change (Z.to_nat 0) with 0%nat. rewrite drop_0. apply take_ge.
        change (length (u_escape c)) with 6%nat. lia. }
      rewrite E. apply (wp_store_after esc out _ n); [done|done|rewrite zlen_app, zlen_u_escape;
        change (zlen [0]) with 1; lia|].
      intros out1 F1 N1. apply HQ; [|done]. rewrite app_assoc in F1. etrans; [|done].
      by apply prefix_app_r.
    + apply wp_bind, (wp_store_after esc out _ n); [done|done|change (zlen [c]) with 1; lia|].
      intros out1 F1 N1. replace (zlen esc + 1) with (zlen (esc ++ [c])) by (by rewrite zlen_app). by apply HQ.
Qed.

(** Closing the string. *)
Lemma escape_close esc out (Q : list Z -> Prop) (R : unit -> Prop) :
  esc `prefix_of` out -> zlen esc < zlen out -> Forall (fun c => c <> 0) esc -> Q esc ->
  wp (out ← store out (zlen esc) [0]; Ok (cstr out)) Q R.
Proof.
  intros Hp Hl H0 HQ. apply wp_bind, (wp_store_after esc out _ (zlen out)); [done|done|
    change (zlen [0]) with 1; lia|].
  intros out' [rest ->] _. apply wp_ok. rewrite <- app_assoc, cstr_clean by done. cbn.
  by rewrite app_nil_r.
Qed.

Lemma json_char_nonzero c : 0 < c -> Forall (fun x => x <> 0) (json_char c).
Proof.
  intros Hc. unfold json_char.
  destruct (_ || _); [apply Forall_cons_2; [done|]; apply Forall_singleton; lia|].
  destruct (Z.ltb_spec c 32) as [H|]; [|apply Forall_singleton; lia].
  destruct (hex_digits_spec 4 c) as (Hh & _).
  { change (16 ^ Z.of_nat 4) with 65536. lia. }
  unfold u_escape. apply Forall_app_2; [by apply Forall_cons_2; [|apply Forall_singleton]|].
  eapply Forall_impl; [exact Hh|]. intros x (_ & _ & ? & _). done.
Qed.

Lemma json_text_nonzero s : Forall (fun c => 0 < c) s -> Forall (fun x => x <> 0) (json_text s).
Proof.
  induction 1 as [|c s Hc _ IH]; [constructor|].
  change (json_text (c :: s)) with (json_char c ++ json_text s).
  apply Forall_app_2; [by apply json_char_nonzero|done].
Qed.

Lemma zlen_json_text_app a b : zlen (json_text (a ++ b)) = zlen (json_text a) + zlen (json_text b).
Proof. unfold json_text. by rewrite map_app, concat_app, zlen_app. Qed.
Lemma zlen_json_text_cons c b : zlen (json_text (c :: b)) = zlen (json_char c) + zlen (json_text b).
Proof. unfold json_text. cbn [map concat]. by rewrite zlen_app. Qed.

(** The loop from any point of the input. *)
Lemma escape_loop_spec n s1 s2 out :
  (json_text s1) `prefix_of` out -> zlen out = n -> zlen (json_text s1) < n ->
  (zlen (json_text (s1 ++ s2)) + 2 <= n \/ Forall (fun c => 32 <= c) s2) ->
  wp (json_escape_loop s2 out (zlen (json_text s1)))
    (fun '(out', pos) => exists p, p `prefix_of` (s1 ++ s2) /\ (json_text p) `prefix_of` out' /\
       zlen out' = n /\ pos = zlen (json_text p) /\ pos < n /\ (p = s1 ++ s2 \/ n <= pos + 2))
    (fun _ => False).
Proof.
  revert s1 out. induction s2 as [|c s2 IH]; intros s1 out Hp Hn Hl Hcase.
  - apply wp_ok. exists s1. rewrite app_nil_r. repeat split; auto.
  - destruct (Z.ltb_spec (zlen (json_text s1) + 2) n) as [Hroom|Hfull].
    2: { cbn [json_escape_loop]. rewrite Hn, (proj2 (Z.ltb_ge _ _)) by lia. cbn [negb]. apply wp_ok.
         exists s1. split; [by apply prefix_app_r|]. repeat split; auto. }
    assert (Hc : (c <? 32) = true -> zlen (json_text s1) + 6 < n).
    { intros Hc%Z.ltb_lt. destruct Hcase as [Hfit|Hno]; [|inversion Hno; lia].
      rewrite zlen_json_text_app, zlen_json_text_cons in Hfit.
      assert (E : zlen (json_char c) = 6 \/ c = QUOTE \/ c = BACKSLASH).
      { unfold json_char. destruct (Z.eqb_spec c QUOTE); [by auto|].
        destruct (Z.eqb_spec c BACKSLASH); [by auto|]. cbn [orb]. rewrite (proj2 (Z.ltb_lt _ _)) by done. by left. }
      pose proof (zlen_nonneg (json_text s2)). destruct E as [E|[->| ->]]; [lia|done|done]. }
    apply (escape_step n); [done|done|done|done|]. intros out' Hp' Hn'.
    rewrite <- json_text_snoc in *. replace (s1 ++ c :: s2) with ((s1 ++ [c]) ++ s2) in * by (by rewrite <- app_assoc).
    apply IH; [done|done| |].
    + rewrite json_text_snoc, zlen_app. destruct (Z.ltb_spec c 32) as [H|H].
      * specialize (Hc eq_refl). pose proof (zlen_json_char c). lia.
      * assert (zlen (json_char c) <= 2).
        { unfold json_char. destruct (_ || _); [done|]. by rewrite (proj2 (Z.ltb_ge _ _)). }
        lia.
    + destruct Hcase as [?|Hno]; [by left|right]. by inversion Hno.
Qed.

(** The code that overflows: the guard leaves room for two characters, an
    escaped control character takes six. *)
Lemma escape_overflow n c s :
  3 <= n -> 0 < c < 32 ->
  json_escape (replicate (Z.to_nat (n - 3)) 97 ++ c :: s) (array (Z.to_nat n)) = Fault.
Proof.
  intros Hn Hc. unfold json_escape.
  assert (H : forall k pre out, (zlen pre + Z.of_nat k = n - 3) -> pre `prefix_of` out -> zlen out = n ->
    exists out', json_escape_loop (replicate k 97 ++ c :: s) out (zlen pre) = Ok (out', n + 3) /\ zlen out' = n).
  { induction k as [|k IH]; intros pre out Hk Hp Ho; cbn [replicate app json_escape_loop].
    - rewrite Ho, (proj2 (Z.ltb_lt _ _)) by lia. cbn [negb]. unfold QUOTE, BACKSLASH.
      rewrite !(proj2 (Z.eqb_neq _ _)), (proj2 (Z.ltb_lt _ _)) by lia. cbn [orb]. rewrite zlen_u_escape.
      assert (El : zlen (bsub (u_escape c) 0 (n - zlen pre - 1) ++ [0]) = 3).
      { replace (n - zlen pre - 1) with 2 by lia. done. }
      assert (Hs : wp (store (E := unit) out (zlen pre) (bsub (u_escape c) 0 (n - zlen pre - 1) ++ [0]))
                     (fun o => zlen o = n) (fun _ => False)).
      { apply (wp_store_after pre out _ n); [done|done|lia|done]. }
      destruct (store out (zlen pre) _) as [o|e|]; [|done|done]. cbn [mbind res_bind].
      exists o. split; [|done]. destruct s as [|d s']; cbn [json_escape_loop].
      { do 2 f_equal. lia. }
      rewrite Hs, (proj2 (Z.ltb_ge _ _)) by lia. cbn [negb]. do 2 f_equal. lia.
    - rewrite Ho, (proj2 (Z.ltb_lt _ _)) by lia. cbn [negb].
      change ((97 =? QUOTE) || (97 =? BACKSLASH)) with false. change (97 <? 32) with false. cbv iota.
      assert (Hs : wp (store (E := unit) out (zlen pre) [97])
                     (fun o => (pre ++ [97]) `prefix_of` o /\ zlen o = n) (fun _ => False)).
      { apply (wp_store_after pre out _ n); [done|done|change (zlen [97]) with 1; lia|done]. }
      destruct (store out (zlen pre) [97]) as [o|e|]; [|done|done]. cbn [mbind res_bind].
      replace (zlen pre + 1) with (zlen (pre ++ [97])) by (by rewrite zlen_app).
      apply IH; [|by apply Hs|by apply Hs]. rewrite zlen_app. change (zlen [97]) with 1. lia. }
  destruct (H (Z.to_nat (n - 3)) [] (array (Z.to_nat n))) as (out' & E & Hl).
  { change (zlen []) with 0. lia. }
  { apply prefix_nil. }
  { unfold array, zlen. rewrite length_replicate. lia. }
  change (zlen []) with 0 in E. rewrite E. cbn [mbind res_bind]. unfold store.
  rewrite Hl, (proj2 (Z.leb_gt (n + 3 + _) n)), andb_false_r by (change (zlen [0]) with 1; lia). done.
Qed.

(** All of it. *)
Lemma escape_all s out :
  Forall (fun c => 0 < c) s -> 0 < zlen out ->
  (zlen (json_text s) + 2 <= zlen out \/ Forall (fun c => 32 <= c) s) ->
  exists p, p `prefix_of` s /\ json_escape s out = Ok (json_text p) /\
    zlen (json_text p) < zlen out /\ (p = s \/ zlen out <= zlen (json_text p) + 2).
Proof.
  intros H0 Hpos Hcase.
  pose proof (escape_loop_spec (zlen out) [] s out (prefix_nil _) eq_refl Hpos Hcase) as W.
  change (zlen (json_text [])) with 0 in W. unfold json_escape.
  destruct (json_escape_loop s out 0) as [[out' pos]|e|]; [|done|done].
  destruct W as (p & Hp & Ho & Hn & -> & Hlt & Hend). exists p. split; [done|]. cbn [mbind res_bind].
  split; [|done].
  assert (Hnz : Forall (fun x => x <> 0) (json_text p)).
  { apply json_text_nonzero. cbn [app] in Hp. destruct Hp as [k ->]. by apply Forall_app in H0 as [? _]. }
  pose proof (escape_close (json_text p) out' (eq (json_text p)) (fun _ => False) Ho ltac:(lia) Hnz eq_refl) as W.
  by destruct (mbind _ (store out' _ _)) as [x|e|]; [rewrite W|done|done].
Qed.

(** [json_escape] on an array of any size. A text whose escaped form and
    two more bytes fit is escaped completely, and a JSON reader gets the text
    back; a text without control characters is cut to what fits, never in the
    middle of an escape, and nothing is written outside the array; but a
    control character that comes when three bytes are left makes the code
    write past the end. *)
Theorem json_escape_correct s out :
  Forall (fun c => 0 < c) s ->
  (zlen (json_text s) + 2 <= zlen out ->
   json_escape s out = Ok (json_text s) /\ json_unescape (json_text s) = s) /\
  (Forall (fun c => 32 <= c) s -> 0 < zlen out ->
   exists p, p `prefix_of` s /\ json_escape s out = Ok (json_text p) /\
     json_unescape (json_text p) = p /\ zlen (json_text p) < zlen out /\
     (p = s \/ zlen out <= zlen (json_text p) + 2)) /\
  (forall n c, 3 <= n -> 0 < c < 32 ->
   json_escape (replicate (Z.to_nat (n - 3)) 97 ++ c :: s) (array (Z.to_nat n)) = Fault).
Proof.
  intros H0. split; [|split; [|intros; by apply escape_overflow]].
  - intros Hfit. split; [|by apply json_unescape_text].
    pose proof (zlen_nonneg (json_text s)).
    destruct (escape_all s out H0) as (p & [k Hk] & -> & Hl & Hend); [lia|by left|].
    subst s. rewrite zlen_json_text_app in Hfit. pose proof (zlen_nonneg (json_text k)).
    destruct k as [|c k]; [by rewrite app_nil_r|].
    rewrite zlen_json_text_cons in *. pose proof (zlen_json_char c). pose proof (zlen_nonneg (json_text k)).
    destruct Hend as [Hend|Hend]; [by rewrite <- Hend|lia].
  - intros Hno Hpos. destruct (escape_all s out H0 Hpos) as (p & Hp & E & Hl & Hend); [by right|].
    exists p. split; [done|]. split; [done|]. split; [|done]. apply json_unescape_text.
    destruct Hp as [k ->]. by apply Forall_app in H0 as [? _].
Qed.

Lemma json_escape_correct_witness :
  json_escape (str "a" ++ [BACKSLASH; QUOTE; 10; 200]) (array 20) =
    Ok (str "a" ++ [BACKSLASH; BACKSLASH; BACKSLASH; QUOTE; BACKSLASH] ++ str "u000a" ++ [200]) /\
  json_escape (replicate 317 97 ++ [1]) (array 320) = Fault.
Proof.
  split.
  - destruct (json_escape_correct (str "a" ++ [BACKSLASH; QUOTE; 10; 200]) (array 20)) as (H & _).
    { apply (bool_decide_unpack _). vm_compute. exact I. }
    destruct H as [H _]; [vm_compute; discriminate|]. rewrite H. reflexivity.
  - destruct (json_escape_correct [] []) as (_ & _ & H); [constructor|].
    exact (H 320 1 ltac:(lia) ltac:(lia)).
Defined.

(** ** The cache file *)

(** The text form of a cache. *)
Definition cache_text (cache : discovery_cache) : list Z := concat (map entry_line cache).

(** Caches the file can hold. *)
Record storable (cache : discovery_cache) : Prop := {
  sb_ok : cache_ok cache;
  sb_printable : Forall entry_printable cache;
  sb_fits : zlen (cache_text cache) < 16384
}.

(** The file at [path] holds [cache], or is missing and [cache] is empty. *)
Record stored (sys : system) (path : list Z) (cache : discovery_cache) : Prop := {
  st_cache : storable cache;
  st_file : sys_files sys !! path = Some (cache_text cache) \/
            sys_files sys !! path = None /\ cache = [];
  st_readable : sys_read_error sys path = None
}.

Definition writable (sys : system) (path : list Z) : Prop :=
  sys_creatable sys path = true /\ sys_short_write sys path = None.

Lemma serialize_fits cache : storable cache -> discovery_cache_serialize cache 16384 = cache_text cache.
Proof.
  intros [_ _ Hf]. unfold discovery_cache_serialize. by rewrite (proj2 (Z.leb_gt _ _)).
Qed.

Lemma read_stored sys path cache :
  stored sys path cache -> sys_files sys !! path = Some (cache_text cache) ->
  read_file sys path 16383 = Some (cache_text cache, false).
Proof.
  intros [[_ _ Hf] _ Hr] E. unfold read_file. rewrite E, Hr. cbn [mbind option_bind].
  do 2 f_equal. unfold bsub. change (Z.to_nat 0) with 0%nat. rewrite drop_0.
  apply take_ge. unfold zlen in Hf. lia.
Qed.

Lemma load_stored sys path cache :
  stored sys path cache -> discovery_cache_load_file sys path = Ok (cache, 0).
Proof.
  intros H. pose proof H as [[Hok Hp Hf] [E|[E ->]] Hr]; unfold discovery_cache_load_file.
  - rewrite (read_stored _ _ _ H E). unfold discovery_cache_parse.
    by rewrite (cache_parse_lines cache []) by (done || unfold cache_text; lia).
  - unfold read_file. by rewrite E.
Qed.

Lemma load_from_disk sys cache :
  stored sys (discovery_cache_path sys) cache ->
  load_discovery_cache_from_disk sys = Ok (cache, []).
Proof. intros H. unfold load_discovery_cache_from_disk. by rewrite (load_stored _ _ _ H). Qed.

Lemma cache_text_empty cache : zlen (cache_text cache) = 0 -> cache = [].
Proof.
  destruct cache as [|e cache]; [done|]. unfold cache_text. cbn [map concat].
  rewrite zlen_app, entry_line_text, zlen_app. pose proof (zlen_nonneg (entry_text e)).
  pose proof (zlen_nonneg (concat (map entry_line cache))). change (zlen [10]) with 1. lia.
Qed.

Lemma save_stored sys path cache :
  storable cache -> writable sys path -> sys_read_error sys path = None ->
  exists sys', discovery_cache_save_file sys cache path = (sys', 0) /\ stored sys' path cache /\
    sys' = with_files sys (<[path := cache_text cache]> (sys_files sys)).
Proof.
  intros Hs [Hc Hw] Hr. unfold discovery_cache_save_file. rewrite serialize_fits by done.
  assert (E : (zlen (cache_text cache) =? 0) && (0 <? zlen cache) = false).
  { destruct (Z.eqb_spec (zlen (cache_text cache)) 0) as [H|H]; [|done].
    by apply cache_text_empty in H as ->. }
  rewrite E. unfold write_file. rewrite Hc, Hw. cbn [negb]. eexists. split; [done|]. split; [|done].
  split; [done| |done]. left. cbn. apply lookup_insert_eq.
Qed.

(** An entry set by a probe keeps the cache printable. *)
Lemma set_printable cache d c fp now cache' :
  Forall entry_printable cache -> entry_printable (mk_entry d c fp now) ->
  discovery_cache_set cache d c fp now = Some cache' -> Forall entry_printable cache'.
Proof.
  intros Hp He. unfold discovery_cache_set.
  destruct (update_entry cache _) as [c1|] eqn:E.
  - apply update_entry_Some in E as (l & x & k & -> & -> & _ & _). intros [= <-].
    apply Forall_app in Hp as [Hl Hk]. inversion Hk as [|? ? Hx Hk']; subst.
    apply Forall_app_2; [done|]. constructor; [|done]. destruct Hx, He. by split.
  - destruct (_ || _); [done|]. intros [= <-]. apply Forall_app_2; [done|]. by constructor.
Qed.

(** ** Probing and then showing *)

Lemma ladder_safe prober c last trace :
  discovery_run prober = (Some c, last, trace) -> strategy_chain_is_safe c = true.
Proof.
  unfold discovery_run. intros H.
  pose proof (walk_ladder_spec prober g_discovery_ladder PROBE_LOCAL_ERROR []) as W.
  rewrite H in W. destruct W as (t & _ & (i & gs & g & Hi & _) & _).
  assert (F : Forall (fun c => strategy_chain_is_safe c = true) g_discovery_ladder)
    by (by repeat constructor).
  by apply (Forall_lookup_1 _ _ _ _ F Hi).
Qed.

Lemma current_fingerprint_range sys : 0 <= current_fingerprint sys < 2 ^ 64.
Proof.
  unfold current_fingerprint, netfingerprint_current.
  destruct (find_default_route_v4 _) as [[i gw]|]; [|done].
  rewrite netfingerprint_hash_raw. cbv zeta.
  destruct (_ =? NETFP_UNKNOWN); [done|]. unfold raw_fingerprint. by apply fnv1a_range.
Qed.

(** The same system later. *)
Definition at_time (sys : system) (t : Z) : system :=
  mk_sys (sys_files sys) (sys_read_error sys) (sys_creatable sys) (sys_short_write sys)
    (sys_env sys) (sys_net sys) t.

Lemma stored_at_time sys t path cache : stored sys path cache -> stored (at_time sys t) path cache.
Proof. by intros [? ? ?]. Qed.

(** What is reported for a domain, as text or as JSON. *)
Definition report (sys : system) (json_output : bool) (domain : list Z) (chain : strategy_chain)
    (source : strategy_source) (entry : option cache_entry) : res unit run :=
  out ← (if json_output
         then print_show_strategy_json domain (describe64 chain) (strategy_source_name source)
                (match entry with Some e => sys_now sys - ce_validated_at e | None => -1 end)
         else Ok (show_strategy_text domain (describe64 chain) source entry (sys_now sys)));
  Ok (mk_run sys out [] 0).

Lemma show_stored sys json_output domain cfg cache :
  load_strategy_config_from_disk sys = Ok cfg -> stored sys (discovery_cache_path sys) cache ->
  cmd_show_strategy sys json_output domain =
    let '(source, chain, entry) :=
      strategy_resolve_chain cfg cache (current_fingerprint sys) (sys_now sys) domain in
    report sys json_output domain chain source entry.
Proof.
  intros Hcfg Hst. unfold cmd_show_strategy, report. rewrite Hcfg, (load_from_disk _ _ Hst).
  cbn [mbind res_bind]. destruct (strategy_resolve_chain _ _ _ _ _) as [[source chain] entry].
  by destruct json_output.
Qed.

(** The entry a probe leaves, seen by a later lookup. *)
Lemma lookup_after_set cache d c fp now cache' t :
  discovery_cache_set cache d c fp now = Some cache' -> fp <> NETFP_UNKNOWN ->
  match discovery_cache_lookup cache' d fp DISCOVERY_CACHE_DEFAULT_TTL_SECONDS t with
  | Some e => ce_chain e = c /\ ce_validated_at e = now /\ now <= t <= now + 86400
  | None => t < now \/ now + 86400 < t
  end.
Proof.
  intros (l & mid & k & d' & -> & -> & Hd' & Hl & Hmid)%discovery_cache_set_shape Hfp.
  unfold discovery_cache_lookup. rewrite (proj2 (Z.eqb_neq _ _) Hfp).
  rewrite find_app_None by done. cbn [find ce_domain]. rewrite Hd'. cbn [ce_fingerprint ce_validated_at].
  rewrite Z.eqb_refl. cbn [negb]. unfold DISCOVERY_CACHE_DEFAULT_TTL_SECONDS.
  destruct (Z.ltb_spec (24 * 3600) (t - now)); [right; lia|].
  destruct (Z.ltb_spec t now); [left; lia|]. cbn. repeat split; lia.
Qed.

Section probe_show.
Context (prober : list Z -> Z -> probe_trace -> strategy_chain -> probe_result).
Context (sys : system) (cfg : strategy_config) (cache : discovery_cache) (domain : list Z).
Let path := discovery_cache_path sys.
Let fp := current_fingerprint sys.
Let now := sys_now sys.

(** What the user starts from: a readable cache file that can be written,
    next to the configuration file, no rule for the domain, a name the file
    can carry and a clock in range. *)
Record probe_ready : Prop := {
  pr_stored : stored sys path cache;
  pr_writable : writable sys path;
  pr_paths : strategy_conf_path sys <> path;
  pr_cfg : load_strategy_config_from_disk sys = Ok cfg;
  pr_rule : strategy_has_explicit_rule cfg domain = None;
  pr_word : is_word domain;
  pr_len : 0 < zlen domain < STRATEGY_DOMAIN_MAX;
  pr_first : bget domain 0 <> 35 /\ bget domain 0 <> 59;
  pr_now : LONG_MIN <= now <= LONG_MAX
}.

Lemma probe_entry_printable c :
  probe_ready -> strategy_chain_is_safe c = true -> entry_printable (mk_entry domain c fp now).
Proof. intros H Hc. split; cbn; try apply H; [apply current_fingerprint_range|done]. Qed.

(** The cache after a successful probe is stored. *)
Lemma probe_saves c cache' :
  probe_ready -> strategy_chain_is_safe c = true ->
  discovery_cache_set cache domain c fp now = Some cache' -> zlen (cache_text cache') < 16384 ->
  exists sys', save_discovery_cache_to_disk sys cache' = (sys', 0) /\
    stored sys' path cache' /\ sys' = with_files sys (<[path := cache_text cache']> (sys_files sys)).
Proof.
  intros H Hc Hset Hfit. pose proof (pr_stored H) as [[Hok Hp _] _ Hr].
  apply save_stored; [|apply H|done]. split; [|by eapply set_printable; [exact Hp|by apply probe_entry_printable|]|done].
  by eapply discovery_cache_set_ok.
Qed.

Lemma load_config_other files :
  sys_files sys !! strategy_conf_path sys = files !! strategy_conf_path sys ->
  load_strategy_config_from_disk (with_files sys files) = load_strategy_config_from_disk sys.
Proof. intros E. unfold load_strategy_config_from_disk, read_file.
  change (strategy_conf_path (with_files sys files)) with (strategy_conf_path sys).
  cbn [sys_files sys_read_error with_files]. by rewrite E.
Qed.

(** What [cmd_probe] prints for a found chain. *)
Definition selected_text (c : strategy_chain) : list Z :=
  probe_intro domain ++ domain ++ str ": selected " ++ quoted (describe64 c) ++
  str " (cached for this network in " ++ path ++ str ")" ++ [10].

(** A probe that gets to the end of the ladder walk. *)
Lemma cmd_probe_run force found last trace :
  probe_ready ->
  force = true \/ discovery_cache_lookup cache domain fp DISCOVERY_CACHE_DEFAULT_TTL_SECONDS now = None ->
  discovery_run (prober domain (fake_ttl cfg)) = (found, last, trace) ->
  match found with
  | None => exists out, cmd_probe prober sys domain force = Ok (mk_run sys out [] 1)
  | Some c =>
      let cache' := default cache (discovery_cache_set cache domain c fp now) in
      forall sys', save_discovery_cache_to_disk sys cache' = (sys', 0) ->
      discovery_cache_path sys' = path ->
      cmd_probe prober sys domain force = Ok (mk_run sys' (selected_text c) [] 0)
  end.
Proof.
  intros H Hforce Hrun. unfold cmd_probe. rewrite (pr_cfg H), (load_from_disk _ _ (pr_stored H)).
  cbn [mbind res_bind]. rewrite (pr_rule H). fold fp now.
  assert (E : (if force then None else
     discovery_cache_lookup cache domain fp DISCOVERY_CACHE_DEFAULT_TTL_SECONDS now) = None).
  { by destruct Hforce as [-> | ->]; [|destruct force]. }
  rewrite E, Hrun. destruct found as [c|]; [|by eexists]. cbv zeta. intros sys' -> Hp.
  change (0 <? 0) with false. cbv iota. rewrite Hp. done.
Qed.

(** C11: the whole way from a probe to its use, through the files. A probe
    whose ladder walk finds nothing changes nothing and fails. One that finds
    a chain stores it: from then on, and for 24 hours, showing the strategy of
    the domain on this network reports that chain as discovered, with the
    time since the probe, and afterwards the default again; this holds on any
    network with a fingerprint. When the cache has no room for the domain the
    file keeps its entries, yet the probe prints the same success message. *)
Theorem probe_then_show force :
  probe_ready ->
  force = true \/ discovery_cache_lookup cache domain fp DISCOVERY_CACHE_DEFAULT_TTL_SECONDS now = None ->
  match (discovery_run (prober domain (fake_ttl cfg))).1.1 with
  | None => exists out, cmd_probe prober sys domain force = Ok (mk_run sys out [] 1)
  | Some c =>
      match discovery_cache_set cache domain c fp now with
      | Some cache' =>
          zlen (cache_text cache') < 16384 ->
          exists sys', cmd_probe prober sys domain force = Ok (mk_run sys' (selected_text c) [] 0) /\
            stored sys' path cache' /\
            (fp <> NETFP_UNKNOWN -> forall t json_output, exists e,
               ce_validated_at e = now /\
               cmd_show_strategy (at_time sys' t) json_output domain =
               if (now <=? t) && (t <=? now + 86400)
               then report (at_time sys' t) json_output domain c STRATEGY_SOURCE_AUTO (Some e)
               else report (at_time sys' t) json_output domain [default_strategy cfg]
                      STRATEGY_SOURCE_DEFAULT None)
      | None =>
          exists sys', cmd_probe prober sys domain force = Ok (mk_run sys' (selected_text c) [] 0) /\
            stored sys' path cache
      end
  end.
Proof.
  intros H Hforce. destruct (discovery_run (prober domain (fake_ttl cfg))) as [[found last] trace] eqn:Hrun.
  pose proof (cmd_probe_run force found last trace H Hforce Hrun) as Hcmd. cbn [fst].
  destruct found as [c|]; [|done]. pose proof (ladder_safe _ _ _ _ Hrun) as Hsafe.
  destruct (discovery_cache_set cache domain c fp now) as [cache'|] eqn:Hset; cbn [default from_option id] in Hcmd.
  2: { pose proof (pr_stored H) as [Hsb _ Hr].
       destruct (save_stored sys path cache Hsb (pr_writable H) Hr) as (sys' & Hs & Hst & ->).
       eexists. split; [|exact Hst]. by apply Hcmd. }
  intros Hfit. destruct (probe_saves c cache' H Hsafe Hset Hfit) as (sys' & Hs & Hst & E).
  exists sys'. split; [by apply Hcmd; [|rewrite E]|]. split; [done|]. intros Hfp t json_output.
  assert (Hcfg : load_strategy_config_from_disk (at_time sys' t) = Ok cfg).
  { rewrite <- (pr_cfg H), E. apply load_config_other. rewrite lookup_insert_ne; [done|].
    apply not_eq_sym, H. }
  assert (Hst' : stored (at_time sys' t) (discovery_cache_path (at_time sys' t)) cache').
  { rewrite E in *. by apply stored_at_time. }
  pose proof (lookup_after_set _ _ _ _ _ _ t Hset Hfp) as L.
  rewrite (show_stored _ json_output domain _ _ Hcfg Hst').
  replace (current_fingerprint (at_time sys' t)) with fp by (by rewrite E).
  change (sys_now (at_time sys' t)) with t. unfold strategy_resolve_chain. rewrite (pr_rule H).
  destruct (discovery_cache_lookup cache' domain fp _ t) as [e|].
  - destruct L as (Hc & He & Hr). exists e. rewrite !(proj2 (Z.leb_le _ _)) by lia. cbn [andb].
    by rewrite Hc.
  - exists (mk_entry [] [] 0 now). split; [done|].
    assert (E' : (now <=? t) && (t <=? now + 86400) = false); [|by rewrite E'].
    destruct L as [L|L]; [by rewrite (proj2 (Z.leb_gt _ _))|].
    by rewrite (proj2 (Z.leb_gt t _)), andb_false_r.
Qed.
End probe_show.

(** A machine with no files on a known network. *)
Definition sample_sys : system :=
  mk_sys ∅ (fun _ => None) (fun _ => true) (fun _ => None) ∅ (sample_env 1) 1000.
Definition sample_prober (_ : list Z) (_ : Z) (_ : probe_trace) (c : strategy_chain) : probe_result :=
  if bool_decide (c = [STRATEGY_SPLIT]) then PROBE_SUCCESS else PROBE_REMOTE_REJECTED.
Definition sample_domain : list Z := str "example.com".

Lemma probe_then_show_witness :
  exists sys' e,
    cmd_probe sample_prober sample_sys sample_domain false =
      Ok (mk_run sys' (selected_text sample_sys sample_domain [STRATEGY_SPLIT]) [] 0) /\
    ce_validated_at e = 1000 /\
    cmd_show_strategy (at_time sys' 1005) true sample_domain =
      report (at_time sys' 1005) true sample_domain [STRATEGY_SPLIT] STRATEGY_SOURCE_AUTO (Some e).
Proof.
  assert (H : probe_ready sample_sys strategy_config_init [] sample_domain).
  { split.
    - split; [|by right|done]. split; [|constructor|reflexivity].
      by split; [vm_compute; discriminate|constructor|constructor|constructor].
    - done.
    - vm_compute. discriminate.
    - reflexivity.
    - reflexivity.
    - apply (bool_decide_unpack _). vm_compute. exact I.
    - vm_compute. split; reflexivity.
    - vm_compute. split; discriminate.
    - vm_compute. split; discriminate. }
  pose proof (probe_then_show sample_prober sample_sys strategy_config_init [] sample_domain false H
                (or_intror (eq_refl (A := option cache_entry)))) as P.
  change ((discovery_run (sample_prober sample_domain (fake_ttl strategy_config_init))).1.1)
    with (Some [STRATEGY_SPLIT]) in P. cbv iota in P.
  change (discovery_cache_set [] sample_domain [STRATEGY_SPLIT] (current_fingerprint sample_sys) (sys_now sample_sys))
    with (Some [mk_entry sample_domain [STRATEGY_SPLIT] (current_fingerprint sample_sys) 1000]) in P.
  cbv iota in P. destruct P as (sys' & H1 & _ & H2); [vm_compute; reflexivity|].
  destruct (H2 ltac:(vm_compute; discriminate) 1005 true) as (e & He & Hs).
  exists sys', e. split; [exact H1|]. split; [exact He|]. exact Hs.
Defined.

(** ** Export and import *)

Definition knows (es : discovery_cache) (x : list Z) : bool :=
  existsb (fun e => ieq (ce_domain e) x) es.

Lemma knows_find es x :
  knows es x = false <-> find (fun e => ieq (ce_domain e) x) es = None.
Proof.
  unfold knows. induction es as [|e es IH]; [done|]. cbn [existsb find].
  by destruct (ieq (ce_domain e) x).
Qed.

Lemma lookup_app_known es k x fp ttl t :
  knows es x = true -> discovery_cache_lookup (es ++ k) x fp ttl t = discovery_cache_lookup es x fp ttl t.
Proof.
  intros H. unfold discovery_cache_lookup.
  destruct (find _ es) as [e|] eqn:E; [by rewrite (find_app_Some _ _ _ e)|].
  apply knows_find in E. congruence.
Qed.

Lemma lookup_app_new es e x fp ttl t :
  knows es x = false -> ieq (ce_domain e) x = true ->
  ce_chain <$> discovery_cache_lookup (es ++ [e]) x fp ttl t =
    if usable (ce_fingerprint e) (ce_validated_at e) fp ttl t then Some (ce_chain e) else None.
Proof.
  intros H He. apply knows_find in H. unfold discovery_cache_lookup.
  assert (E : find (fun e => ieq (ce_domain e) x) (es ++ [e]) = Some e).
  { clear -H He. induction es as [|y es IH]; cbn [app find] in *; [by rewrite He|].
    destruct (ieq (ce_domain y) x); [done|auto]. }
  rewrite E, lookup_entry_usable. by destruct (usable _ _ _ _ _).
Qed.

(** What an import does to the cache. *)
Record merged_into (cache es cache' : discovery_cache) : Prop := {
  mi_ok : cache_ok cache';
  mi_printable : Forall entry_printable cache';
  mi_count : zlen cache' <= zlen cache + zlen es;
  mi_lookup : forall x fp ttl t,
    ce_chain <$> discovery_cache_lookup cache' x fp ttl t =
    ce_chain <$> discovery_cache_lookup (if knows es x then es else cache) x fp ttl t
}.

Lemma set_count cache d c fp now cache' :
  discovery_cache_set cache d c fp now = Some cache' -> zlen cache' <= zlen cache + 1.
Proof.
  unfold discovery_cache_set. destruct (update_entry cache _) as [c1|] eqn:E.
  - apply update_entry_Some in E as (l & x & k & -> & -> & _). intros [= <-].
    rewrite !zlen_app, !zlen_cons. lia.
  - destruct (_ || _); [done|]. intros [= <-]. rewrite zlen_app. done.
Qed.

Lemma set_succeeds cache e :
  zlen cache < DISCOVERY_CACHE_MAX -> entry_printable e ->
  exists cache', discovery_cache_set cache (ce_domain e) (ce_chain e) (ce_fingerprint e)
    (ce_validated_at e) = Some cache'.
Proof.
  intros Hc He. unfold discovery_cache_set. destruct (update_entry cache _); [by eexists|].
  pose proof (ep_len _ He). rewrite !(proj2 (Z.leb_gt _ _)) by lia. by eexists.
Qed.

Lemma merge_spec cache es skipped :
  cache_ok cache -> Forall entry_printable cache ->
  Forall entry_printable es -> NoDup (map (fun e => lower (ce_domain e)) es) ->
  zlen cache + zlen es <= DISCOVERY_CACHE_MAX ->
  exists cache', foldl merge_entry (cache, skipped) es = (cache', skipped) /\
    merged_into cache es cache'.
Proof.
  intros Hok Hp. induction es as [|e es IH] using rev_ind; intros Hes Hnd Hroom.
  { exists cache. split; [done|]. split; try done. rewrite zlen_nil. lia. }
  apply Forall_app in Hes as [Hes He]. inversion He as [|? ? He' _]; subst.
  rewrite map_app in Hnd. apply NoDup_app in Hnd as (Hnd & Hnew & _).
  rewrite zlen_app in Hroom. change (zlen [e]) with 1 in Hroom.
  destruct (IH Hes Hnd) as (c1 & E1 & [M1 M2 M3 M4]); [lia|].
  destruct (set_succeeds c1 e ltac:(lia) He') as (c2 & E2).
  exists c2. rewrite foldl_app, E1. cbn [foldl]. unfold merge_entry. cbn [fst snd]. rewrite E2.
  split; [done|]. split.
  - by eapply discovery_cache_set_ok; [exact M1|apply He'|exact E2].
  - eapply set_printable; [exact M2| |exact E2]. by destruct e.
  - apply set_count in E2. rewrite zlen_app. change (zlen [e]) with 1. lia.
  - intros x fp ttl t. rewrite (discovery_cache_set_lookup _ _ _ _ _ _ x fp ttl t E2), M4.
    unfold knows. rewrite existsb_app. cbn [existsb]. rewrite orb_false_r. fold (knows es x).
    destruct (ieq (ce_domain e) x) eqn:Ex.
    + rewrite orb_true_r, lookup_app_new; [done| |done].
      apply not_true_iff_false. intros Hk. unfold knows in Hk. apply existsb_exists in Hk as (y & Hy & Hyx).
      apply (Hnew (lower (ce_domain y))).
      { apply list_elem_of_In in Hy. by apply (list_elem_of_fmap_2 (fun e => lower (ce_domain e))). }
      cbn. apply list_elem_of_singleton. apply ieq_true in Hyx, Ex. congruence.
    + rewrite orb_false_r. destruct (knows es x) eqn:K; [by rewrite lookup_app_known|done].
Qed.

Lemma parse_exported cache es :
  Forall entry_printable es ->
  discovery_cache_parse cache (cache_text es) = Ok (foldl merge_entry (cache, 0) es).
Proof. intros H. unfold discovery_cache_parse, cache_text. by apply cache_parse_entries; [|lia]. Qed.

Definition exported_text (n : Z) (path : list Z) : list Z :=
  str "Exported " ++ print_dec n ++ str " cached strategy(ies) to " ++ path ++ [10].

(** A profile exported on one machine and imported on another. The export
    writes the whole cache; the import merges it into the other machine's:
    every domain of the profile resolves as it did on the first machine, all
    others as before, the result is stored and nothing is skipped; when the
    merged cache does not fit the file, the import fails and the old file
    stays. But the export of a cache that does not fit (a hand-written file
    can hold one) writes an empty file and reports success. *)
Theorem export_then_import sysA cacheA sysB cacheB path :
  stored sysA (discovery_cache_path sysA) cacheA -> writable sysA path ->
  stored sysB (discovery_cache_path sysB) cacheB -> writable sysB (discovery_cache_path sysB) ->
  sys_read_error sysB path = None -> zlen cacheB + zlen cacheA <= DISCOVERY_CACHE_MAX ->
  (exists sysA', cmd_export_profile sysA path =
      Ok (mk_run sysA' (exported_text (zlen cacheA) path) [] 0) /\
    forall carried, sys_files sysA' !! path = Some carried ->
      sys_files sysB !! path = Some carried ->
      exists merged, merged_into cacheB cacheA merged /\
        (zlen (cache_text merged) < 16384 ->
         exists sysB' out, cmd_import_profile sysB path = Ok (mk_run sysB' out [] 0) /\
           stored sysB' (discovery_cache_path sysB) merged) /\
        (16384 <= zlen (cache_text merged) ->
         exists err, cmd_import_profile sysB path = Ok (mk_run sysB [] err 1))) /\
  (forall sys cache, load_discovery_cache_from_disk sys = Ok (cache, []) ->
    writable sys path -> 16384 <= zlen (cache_text cache) ->
    cmd_export_profile sys path =
      Ok (mk_run (with_files sys (<[path := []]> (sys_files sys)))
            (exported_text (zlen cache) path) [] 0)).
Proof.
  intros HA WA HB WB Hr Hroom. split.
  - unfold cmd_export_profile at 1. rewrite (load_from_disk _ _ HA). cbn [mbind res_bind].
    rewrite serialize_fits by apply HA. unfold write_file at 1. destruct WA as [-> ->]. cbn [negb].
    eexists. split; [done|]. intros carried. cbn [sys_files with_files]. rewrite lookup_insert_eq.
    intros [= <-] Hcar. pose proof (st_cache _ _ _ HA) as [[_ _ _ Hu] HpA HfA].
    pose proof (st_cache _ _ _ HB) as [HokB HpB _].
    destruct (merge_spec cacheB cacheA 0 HokB HpB HpA Hu Hroom) as (merged & Em & Hm).
    exists merged. split; [done|]. unfold cmd_import_profile. rewrite (load_from_disk _ _ HB).
    cbn [mbind res_bind].
    assert (Hread : read_file sysB path 16383 = Some (cache_text cacheA, false)).
    { apply read_stored; [|done]. split; [by destruct (st_cache _ _ _ HA)|by left|done]. }
    rewrite Hread, parse_exported, Em by done. cbn [mbind res_bind]. split; intros Hfit.
    + destruct (save_stored sysB (discovery_cache_path sysB) merged) as (sysB' & Hs & Hst & _);
        [by split; destruct Hm|done|by destruct HB|].
      unfold save_discovery_cache_to_disk. rewrite Hs. change (0 <? 0) with false. by eexists _, _.
    + unfold save_discovery_cache_to_disk, discovery_cache_save_file, discovery_cache_serialize.
      fold (cache_text merged). rewrite (proj2 (Z.leb_le _ _)) by done.
      destruct merged as [|e merged]; [done|]. rewrite zlen_cons. pose proof (zlen_nonneg merged).
      rewrite (proj2 (Z.ltb_lt 0 _)) by lia. by eexists.
  - intros sys cache Hload [Hc Hw] Hbig. unfold cmd_export_profile. rewrite Hload. cbn [mbind res_bind].
    unfold discovery_cache_serialize. fold (cache_text cache). rewrite (proj2 (Z.leb_le _ _)) by done.
    unfold write_file. rewrite Hc, Hw. done.
Qed.

Definition profile_sys (files : gmap (list Z) (list Z)) : system :=
  mk_sys files (fun _ => None) (fun _ => true) (fun _ => None) ∅ (sample_env 1) 1000.
Definition sample_profile : list Z := str "profile.txt".
Definition sysA : system :=
  profile_sys {[ str "discovery-cache.conf" := cache_text sample_cache ]}.
Definition sysB : system := profile_sys {[ sample_profile := cache_text sample_cache ]}.

Lemma sample_cache_storable : storable sample_cache.
Proof.
  split; [|repeat constructor; vm_compute; congruence|vm_compute; reflexivity].
  split; [vm_compute; congruence|by repeat constructor|by repeat constructor|].
  apply (bool_decide_unpack _). vm_compute. exact I.
Qed.

Lemma export_then_import_witness :
  exists sysA', cmd_export_profile sysA sample_profile =
    Ok (mk_run sysA' (exported_text 2 sample_profile) [] 0).
Proof.
  assert (E : storable []).
  { split; [|constructor|reflexivity]. by split; [vm_compute; discriminate|constructor|constructor|constructor]. }
  destruct (export_then_import sysA sample_cache sysB [] sample_profile) as ((sysA' & H & _) & _).
  - split; [exact sample_cache_storable|left; vm_compute; reflexivity|reflexivity].
  - split; reflexivity.
  - split; [exact E|right; split; vm_compute; reflexivity|reflexivity].
  - split; reflexivity.
  - reflexivity.
  - vm_compute. discriminate.
  - exists sysA'. exact H.
Defined.

(** A file of 256 short lines whose entries do not fit once they are printed
    with 16-digit fingerprints. *)
Definition short_line (k : nat) : list Z :=
  replicate 37 97 ++ print_dec (100 + Z.of_nat k) ++ str " 1 1 pass" ++ [10].
Definition full_sys : system :=
  profile_sys {[ str "discovery-cache.conf" := concat (map short_line (seq 0 256)) ]}.

Example export_loses_cache :
  match load_discovery_cache_from_disk full_sys with
  | Ok (cache, err) => (zlen cache =? 256) && (16384 <=? zlen (cache_text cache)) && (zlen err =? 0)
  | _ => false
  end = true.
Proof. vm_compute. reflexivity. Qed.

(** ** The order of options *)

(** A well-formed command line, option by option. *)
Inductive arg :=
| A_SHOW (v : list Z) | A_PROBE (v : list Z) | A_REPROBE (v : list Z) | A_STATUS
| A_EXPORT (v : list Z) | A_IMPORT (v : list Z)
| A_JSON | A_CONFIG (v : list Z) | A_CACHE (v : list Z) | A_LOG (v : list Z) | A_MODE.

Definition render (a : arg) : list (list Z) :=
  match a with
  | A_SHOW v => [str "--show-strategy"; v]
  | A_PROBE v => [str "--probe"; v]
  | A_REPROBE v => [str "--reprobe"; v]
  | A_STATUS => [str "--status"]
  | A_EXPORT v => [str "--export-profile"; v]
  | A_IMPORT v => [str "--import-profile"; v]
  | A_JSON => [str "--json"]
  | A_CONFIG v => [str "--config"; v]
  | A_CACHE v => [str "--discovery-cache"; v]
  | A_LOG v => [str "--log-level"; v]
  | A_MODE => [str "--mode"; str "packet"]
  end.
Definition command_line (args : list arg) : list (list Z) := concat (map render args).

Definition arg_ok (a : arg) : Prop :=
  match a with A_LOG v => log_level_ok v = true | _ => True end.

Definition is_action (a : arg) : Prop :=
  match a with
  | A_SHOW _ | A_PROBE _ | A_REPROBE _ | A_STATUS | A_EXPORT _ | A_IMPORT _ => True
  | _ => False
  end.
#[global] Instance is_action_dec a : Decision (is_action a).
Proof. destruct a; apply _. Defined.

Definition apply_arg (o : options) (a : arg) : options :=
  match a with
  | A_SHOW v => set_action o ACTION_SHOW_STRATEGY v
  | A_PROBE v => set_action o ACTION_PROBE v
  | A_REPROBE v => set_action o ACTION_REPROBE v
  | A_STATUS => mk_options ACTION_STATUS (o_domain o) (o_json o) (o_env o)
  | A_EXPORT v => set_action o ACTION_EXPORT_PROFILE v
  | A_IMPORT v => set_action o ACTION_IMPORT_PROFILE v
  | A_JSON => mk_options (o_action o) (o_domain o) true (o_env o)
  | A_CONFIG v => setenv o ENV_CONF v
  | A_CACHE v => setenv o ENV_CACHE v
  | A_LOG v => setenv o ENV_LOG v
  | A_MODE => o
  end.

Lemma parse_args_render args o :
  Forall arg_ok args -> parse_args (command_line args) o = inr (foldl apply_arg o args).
Proof.
  intros H. revert o. induction H as [|a args Ha _ IH]; intros o; [done|].
  unfold command_line. cbn [map concat foldl]. fold (command_line args).
  rewrite <- IH. destruct a; try done.
  cbn [arg_ok] in Ha. cbn [render app parse_args].
  repeat match goal with |- context [is_arg (str ?x) ?y] =>
    let b := eval vm_compute in (is_arg (str x) y) in change (is_arg (str x) y) with b end.
  cbn [orb]. by rewrite Ha.
Qed.

(** The action and its argument depend on the action options only, the rest
    on the others. *)
Lemma actions_apart args o o' :
  o_action o = o_action o' -> o_domain o = o_domain o' ->
  o_action (foldl apply_arg o args) = o_action (foldl apply_arg o' (filter is_action args)) /\
  o_domain (foldl apply_arg o args) = o_domain (foldl apply_arg o' (filter is_action args)).
Proof.
  revert o o'. induction args as [|a args IH]; intros o o' Ha Hd; [done|].
  rewrite filter_cons. destruct a; cbn [decide is_action_dec foldl apply_arg]; by apply IH.
Qed.

Lemma settings_apart args o o' :
  o_json o = o_json o' -> o_env o = o_env o' ->
  o_json (foldl apply_arg o args) = o_json (foldl apply_arg o' (filter (fun a => ~ is_action a) args)) /\
  o_env (foldl apply_arg o args) = o_env (foldl apply_arg o' (filter (fun a => ~ is_action a) args)).
Proof.
  revert o o'. induction args as [|a args IH]; intros o o' Hj He; [done|].
  rewrite filter_cons. destruct a; cbn; apply IH; cbn; congruence.
Qed.

(** Options may come in any order around the action: two command lines
    with the same action options in the same order and the same other options
    in the same order do the same thing, files included, so [--config] and
    [--discovery-cache] take effect on either side of the action. The last
    action given is the one run. *)
Theorem options_order prober sys args args' :
  Forall arg_ok args -> Forall arg_ok args' ->
  filter is_action args = filter is_action args' ->
  filter (fun a => ~ is_action a) args = filter (fun a => ~ is_action a) args' ->
  main prober sys (command_line args) = main prober sys (command_line args') /\
  forall o, exists o', parse_args (command_line args) o = inr o' /\
    forall a, last (filter is_action args) = Some a ->
      o_action o' = o_action (apply_arg o a) /\
      (a <> A_STATUS -> o_domain o' = o_domain (apply_arg o a)).
Proof.
  intros H H' Ea Es. split.
  - unfold main. rewrite !parse_args_render by done. set (o := mk_options _ _ _ _).
    destruct (actions_apart args o o eq_refl eq_refl) as [-> ->].
    destruct (settings_apart args o o eq_refl eq_refl) as [-> ->].
    destruct (actions_apart args' o o eq_refl eq_refl) as [-> ->].
    destruct (settings_apart args' o o eq_refl eq_refl) as [-> ->]. by rewrite Ea, Es.
  - intros o. eexists. split; [by apply parse_args_render|]. intros a Ha.
    destruct (actions_apart args o o eq_refl eq_refl) as [-> ->].
    assert (Hact : is_action a).
    { apply last_Some_elem_of in Ha. by apply list_elem_of_filter in Ha as [? _]. }
    apply last_Some in Ha as [l ->]. rewrite foldl_app. by destruct a.
Qed.

Lemma options_order_witness :
  main sample_prober sample_sys
    (command_line [A_SHOW sample_domain; A_JSON; A_CONFIG (str "a.conf")]) =
  main sample_prober sample_sys
    (command_line [A_JSON; A_CONFIG (str "a.conf"); A_SHOW sample_domain]).
Proof.
  apply (options_order sample_prober sample_sys
           [A_SHOW sample_domain; A_JSON; A_CONFIG (str "a.conf")]
           [A_JSON; A_CONFIG (str "a.conf"); A_SHOW sample_domain]);
    first [reflexivity | repeat constructor].
Defined.
