(* ===== verification/Doh.v ===== *)
(** * DNS transports ([src/dns/dns_doh.c], [src/dns/dns_udp.c])

    The server lists of both transports, the HTTP exchange of DNS-over-HTTPS
    and its connection pool. A TLS session is what [tlsclient.h] promises of
    it: a stream that is read in pieces of any size and written until it
    breaks. [inet_pton] is glibc's. *)

From stdpp Require Import base list numbers strings option relations.
From Stdlib Require Import ZArith Lia.
From S2P Require Import Prelude Text Socket Netprofile Dns.

(** ** Addresses from text *)

(** [inet_pton4]: [cur] is the octet being read (with whether a digit of it
    was seen), [done] the finished ones. *)
Fixpoint pton4_loop (s done : list Z) (cur : option Z) : option (list Z) :=
  match s with
  | [] =>
      match cur with
      | Some v => if zlen done =? 3 then Some (done ++ [v]) else None
      | None => None
      end
  | ch :: s' =>
      if isdigit ch then
        match cur with
        | None =>
            if 4 <=? zlen done then None else pton4_loop s' done (Some (ch - 48))
        | Some v =>
            let new := v * 10 + (ch - 48) in
            if v =? 0 then None else if 255 <? new then None else pton4_loop s' done (Some new)
        end
      else
        match cur with
        | Some v =>
            if ch =? 46 then if zlen done =? 3 then None else pton4_loop s' (done ++ [v]) None
            else None
        | None => None
        end
  end.
Definition inet_pton4 (s : list Z) : option (list Z) := pton4_loop s [] None.

(** [inet_pton6]: [tmp] holds the bytes stored, [colonp] where "::" stands,
    [val] and [xdigits] the group being read, [curtok] its text. *)
Fixpoint pton6_loop (s curtok tmp : list Z) (colonp : option Z) (val xdigits : Z)
  : option (list Z * option Z * Z * Z) :=
  match s with
  | [] => Some (tmp, colonp, val, xdigits)
  | ch :: s' =>
      match hex_value ch with
      | Some d =>
          if xdigits =? 4 then None
          else pton6_loop s' curtok tmp colonp (Z.lor (Z.shiftl val 4) d) (xdigits + 1)
      | None =>
          if ch =? 58 then
            if xdigits =? 0 then
              match colonp with
              | Some _ => None
              | None => pton6_loop s' s' tmp (Some (zlen tmp)) val xdigits
              end
            else if bool_decide (s' = []) then None
            else if 16 <? zlen tmp + 2 then None
            else pton6_loop s' s' (tmp ++ bytes16 val) colonp 0 0
          else if (ch =? 46) && (zlen tmp + 4 <=? 16) then
            match inet_pton4 curtok with
            | Some a => Some (tmp ++ a, colonp, val, 0)
            | None => None
            end
          else None
      end
  end.

Definition inet_pton6 (s : list Z) : option (list Z) :=
  let start :=
    match s with
    | [] => None
    | c :: s' =>
        if c =? 58 then match s' with c' :: _ => if c' =? 58 then Some s' else None | [] => None end
        else Some s
    end in
  s ← start;
  '(tmp, colonp, val, xdigits) ← pton6_loop s s [] None 0 0;
  tmp ← (if 0 <? xdigits then if 16 <? zlen tmp + 2 then None else Some (tmp ++ bytes16 val)
         else Some tmp);
  match colonp with
  | Some p =>
      if zlen tmp =? 16 then None
      else Some (bsub tmp 0 p ++ replicate (16 - length tmp) 0 ++ bfrom tmp p)
  | None => if zlen tmp =? 16 then Some tmp else None
  end.

Example pton6_samples :
  inet_pton6 (str "2001:db8::1") = Some [32; 1; 13; 184; 0; 0; 0; 0; 0; 0; 0; 0; 0; 0; 0; 1] /\
  inet_pton6 (str "::ffff:1.2.3.4") = Some (replicate 10 0 ++ [255; 255; 1; 2; 3; 4]) /\
  inet_pton6 (str "::") = Some (replicate 16 0) /\
  inet_pton6 (str "1:2:3:4:5:6:7::8") = None /\ inet_pton6 (str "1::2::3") = None /\
  inet_pton6 (str ":1") = None /\ inet_pton6 (str "12345::") = None.
Proof. vm_compute. done. Qed.

Example pton4_samples :
  inet_pton4 (str "192.168.1.254") = Some [192; 168; 1; 254] /\ inet_pton4 (str "1.2.3") = None /\
  inet_pton4 (str "1.2.3.256") = None /\ inet_pton4 (str "1.2.3.04") = None /\
  inet_pton4 (str "1.2.3.4.") = None.
Proof. vm_compute. done. Qed.

(** The address of a literal: IPv4 first, then IPv6. *)
Definition pton (text : list Z) : option dns_addr :=
  match inet_pton4 text with
  | Some a => Some (mk_addr 4 a)
  | None => match inet_pton6 text with Some a => Some (mk_addr 6 a) | None => None end
  end.

(** ** Server lists *)

Definition is_sep (c : Z) : bool := (c =? 32) || (c =? 44).

Fixpoint skip_seps (l : list Z) : list Z :=
  match l with c :: l' => if is_sep c then skip_seps l' else l | [] => [] end.

(** At most [n] characters up to a separator. *)
Fixpoint take_item (n : nat) (l : list Z) : list Z * list Z :=
  match n, l with
  | S n', c :: l' =>
      if is_sep c then ([], l) else let '(item, r) := take_item n' l' in (c :: item, r)
  | _, _ => ([], l)
  end.

Fixpoint skip_to_comma (l : list Z) : list Z :=
  match l with c :: l' => if c =? 44 then l else skip_to_comma l' | [] => [] end.

(** The loop both transports run over their list; [size] is the item array's,
    and what [parse] refuses is skipped. *)
Fixpoint parse_list {A} (fuel : nat) (size : nat) (parse : list Z -> option A) (l : list Z)
    (acc : list A) : list A :=
  match fuel with
  | O => acc
  | S fuel' =>
      if bool_decide (l = []) || (DNS_MAX_SERVERS <=? length acc)%nat then acc else
      let '(item, r) := take_item (size - 1) (skip_seps l) in
      let r := skip_to_comma r in
      let acc := match item with
                 | [] => acc
                 | _ => match parse item with Some a => acc ++ [a] | None => acc end
                 end in
      parse_list fuel' size parse r acc
  end.

(** [dns_udp_servers_parse]: port 53. *)
Definition dns_udp_servers_parse (l : list Z) : list dns_addr :=
  parse_list (S (length l)) 64 pton l [].

Record doh_target := mk_target {
  t_addr : dns_addr;
  t_host : list Z;
  t_label : list Z
}.

(** [strchr(item, '/')]: what is before and after it. *)
Fixpoint cut_slash (item : list Z) : option (list Z * list Z) :=
  match item with
  | [] => None
  | c :: item' =>
      if c =? 47 then Some ([], item') else
      match cut_slash item' with Some (a, b) => Some (c :: a, b) | None => None end
  end.

Definition parse_server (item : list Z) : option doh_target :=
  '(ip, host) ← cut_slash item;
  if bool_decide (ip = []) || bool_decide (host = []) then None else
  if (64 <=? zlen ip) || (128 <=? zlen host) then None else
  a ← pton ip;
  Some (mk_target a host (bsub (host ++ 64 :: ip) 0 255)).

(** The servers of [dns_doh_new] (port 443); with none it fails. *)
Definition dns_doh_servers (l : list Z) : list doh_target :=
  parse_list (S (length l)) 256 parse_server l [].

(** *** What a list names *)

(** The pieces between commas. *)
Fixpoint segments (l : list Z) : list (list Z) :=
  match l with
  | [] => [[]]
  | c :: l' =>
      if c =? 44 then [] :: segments l' else
      match segments l' with s :: ss => (c :: s) :: ss | [] => [[c]] end
  end.
(** The first word of each piece, at most [n] characters of it. *)
Definition first_word (n : nat) (seg : list Z) : list Z := (take_item n (skip_seps seg)).1.
Definition items (n : nat) (l : list Z) : list (list Z) :=
  filter (fun w => w <> []) (map (first_word n) (segments l)).

Lemma segments_cons l : exists s ss, segments l = s :: ss.
Proof.
  destruct l as [|c l]; cbn [segments]; [by eexists _, _|].
  destruct (c =? 44); [by eexists _, _|]. destruct (segments l); by eexists _, _.
Qed.

Lemma items_cons n s ss :
  filter (fun w => w <> []) (map (first_word n) (s :: ss)) =
  match first_word n s with [] => [] | w => [w] end ++ filter (fun w => w <> []) (map (first_word n) ss).
Proof.
  cbn [map]. rewrite filter_cons. destruct (first_word n s) eqn:E.
  - by rewrite decide_False by tauto.
  - by rewrite decide_True by done.
Qed.

Lemma items_sep n c l : is_sep c = true -> items n (c :: l) = items n l.
Proof.
  intros Hc. unfold items. cbn [segments]. destruct (Z.eqb_spec c 44) as [->|Hn].
  - rewrite items_cons. by destruct n.
  - destruct (segments_cons l) as (s & ss & ->). rewrite !items_cons. unfold first_word.
    cbn [skip_seps]. by rewrite Hc.
Qed.

Lemma items_skip n l : items n (skip_seps l) = items n l.
Proof.
  induction l as [|c l IH]; [done|]. cbn [skip_seps]. destruct (is_sep c) eqn:E; [|done].
  by rewrite items_sep.
Qed.

Lemma take_item_segment n l s ss :
  segments l = s :: ss -> (take_item n s).1 = (take_item n l).1.
Proof.
  revert n s ss. induction l as [|c l IH]; intros n s ss E; cbn [segments] in E; [by injection E as <- _|].
  destruct (Z.eqb_spec c 44) as [->|Hn]; [injection E as <- _; by destruct n|].
  destruct (segments_cons l) as (s' & ss' & E'). rewrite E' in E. injection E as <- _.
  destruct n as [|n]; [done|]. cbn [take_item]. destruct (is_sep c); [done|].
  specialize (IH n s' ss' E'). destruct (take_item n s'), (take_item n l). cbn [fst] in *. by rewrite IH.
Qed.

Lemma skip_to_comma_item n l : skip_to_comma (take_item n l).2 = skip_to_comma l.
Proof.
  revert n. induction l as [|c l IH]; intros n; (destruct n as [|n]; [done|]); [done|].
  cbn [take_item]. destruct (is_sep c) eqn:E; [done|]. specialize (IH n). destruct (take_item n l) as [i r].
  cbn [snd skip_to_comma] in *. unfold is_sep in E. apply orb_false_elim in E as [_ ->]. done.
Qed.

Lemma items_rest n l s ss :
  segments l = s :: ss -> items n (skip_to_comma l) = filter (fun w => w <> []) (map (first_word n) ss).
Proof.
  revert s ss. induction l as [|c l IH]; intros s ss E; cbn [segments] in E.
  - injection E as <- <-. by destruct n.
  - cbn [skip_to_comma]. destruct (Z.eqb_spec c 44) as [->|Hn].
    + injection E as <- <-. by rewrite items_sep.
    + destruct (segments_cons l) as (s' & ss' & E'). rewrite E' in E. injection E as <- <-. by eapply IH.
Qed.

(** The first item of a list that does not start with a separator. *)
Lemma items_step n c l :
  is_sep c = false ->
  items (S n) (c :: l) =
    (take_item (S n) (c :: l)).1 :: items (S n) (skip_to_comma (take_item (S n) (c :: l)).2).
Proof.
  intros Hc. rewrite skip_to_comma_item. unfold items at 1.
  destruct (segments_cons (c :: l)) as (s & ss & E). rewrite E, items_cons, <- (items_rest _ _ _ _ E).
  assert (Hs : skip_seps s = s).
  { cbn [segments] in E. unfold is_sep in Hc. apply orb_false_elim in Hc as [Hc1 Hc2]. rewrite Hc2 in E.
    destruct (segments_cons l) as (s' & ss' & E'). rewrite E' in E. injection E as <- _.
    cbn [skip_seps]. unfold is_sep. by rewrite Hc1, Hc2. }
  unfold first_word. rewrite Hs, (take_item_segment _ _ _ _ E).
  cbn [take_item]. rewrite Hc. by destruct (take_item n l).
Qed.

Lemma skip_seps_head l : match skip_seps l with c :: _ => is_sep c = false | [] => True end.
Proof. induction l as [|c l IH]; [done|]. cbn [skip_seps]. by destruct (is_sep c) eqn:E. Qed.

Lemma skip_seps_length l : (length (skip_seps l) <= length l)%nat.
Proof. induction l as [|c l IH]; [done|]. cbn [skip_seps]. destruct (is_sep c); cbn; lia. Qed.

Lemma skip_to_comma_length l : (length (skip_to_comma l) <= length l)%nat.
Proof. induction l as [|c l IH]; [done|]. cbn [skip_to_comma]. destruct (c =? 44); cbn; lia. Qed.

Lemma take_item_length n c l :
  is_sep c = false -> (length (take_item (S n) (c :: l)).2 <= length l)%nat.
Proof.
  intros Hc. cbn [take_item]. rewrite Hc. assert (H : forall n l, (length (take_item n l).2 <= length l)%nat).
  { clear. intros n l. revert n. induction l as [|c l IH]; intros n; (destruct n as [|n]; [done|]); [done|].
    cbn [take_item]. destruct (is_sep c); [done|]. specialize (IH n). destruct (take_item n l).
    cbn in *. lia. }
  specialize (H n l). by destruct (take_item n l).
Qed.

(** The loop reads exactly those items, as many as the array holds. *)
Lemma parse_list_spec {A} (parse : list Z -> option A) n fuel l acc :
  (length l < fuel)%nat -> (length acc <= DNS_MAX_SERVERS)%nat ->
  parse_list fuel (S (S n)) parse l acc = take DNS_MAX_SERVERS (acc ++ omap parse (items (S n) l)).
Proof.
  revert l acc. induction fuel as [|fuel IH]; intros l acc Hf Ha; [lia|]. cbn [parse_list].
  case_bool_decide as Hl; cbn [orb].
  { subst l. cbn. rewrite app_nil_r, take_ge; [done|]. exact Ha. }
  destruct (Nat.leb_spec DNS_MAX_SERVERS (length acc)) as [Hfull|Hroom].
  { rewrite take_app_le, take_ge by lia. done. }
  replace (S (S n) - 1)%nat with (S n) by lia.
  rewrite <- (items_skip _ l). pose proof (skip_seps_head l) as Hh. pose proof (skip_seps_length l) as Hlen.
  destruct (skip_seps l) as [|c k].
  - cbn [take_item skip_to_comma]. rewrite IH; [done| |done]. destruct l; [done|]. cbn in *. lia.
  - rewrite items_step by done. pose proof (take_item_length n c k Hh) as Ht.
    destruct (take_item (S n) (c :: k)) as [item r] eqn:E. cbn [fst snd] in *.
    assert (Hi : item <> []).
    { cbn [take_item] in E. rewrite Hh in E. destruct (take_item n k). by injection E as <- _. }
    destruct item as [|i0 item]; [done|]. cbn [omap list_omap].
    pose proof (skip_to_comma_length r). cbn [length] in Hlen.
    destruct (parse (i0 :: item)) as [a|]; rewrite IH.
    + by rewrite <- app_assoc.
    + lia.
    + rewrite length_app. cbn. lia.
    + done.
    + lia.
    + done.
Qed.

(** A printed IPv4 address is read back. *)
Lemma print_dec_digits x :
  is_u8 x ->
  print_dec x =
    if x <? 10 then [48 + x]
    else if x <? 100 then [48 + x / 10; 48 + x mod 10]
    else [48 + x / 10 / 10; 48 + x / 10 mod 10; 48 + x mod 10].
Proof.
  unfold is_u8. intros Hx. unfold print_dec. rewrite (proj2 (Z.ltb_ge x 0)) by lia. cbn [dec_digits].
  destruct (Z.ltb_spec x 10); [done|]. pose proof (Z.div_mod x 10 ltac:(lia)).
  pose proof (Z.mod_pos_bound x 10 ltac:(lia)).
  destruct (Z.ltb_spec x 100).
  - by rewrite (proj2 (Z.ltb_lt (x / 10) 10)) by lia.
  - rewrite (proj2 (Z.ltb_ge (x / 10) 10)) by lia.
    rewrite (proj2 (Z.ltb_lt (x / 10 / 10) 10)); [done|].
    do 2 (apply Z.div_lt_upper_bound; [lia|]). lia.
Qed.

Lemma pton4_octet x r acc :
  is_u8 x -> zlen acc <= 3 -> pton4_loop (print_dec x ++ r) acc None = pton4_loop r acc (Some x).
Proof.
  intros Hx Ha. rewrite print_dec_digits by done. unfold is_u8 in Hx.
  assert (Hd : forall d, 0 <= d <= 9 -> isdigit (48 + d) = true) by apply isdigit_48.
  assert (Hn : (4 <=? zlen acc) = false) by lia.
  assert (Hm : forall d, 48 + d - 48 = d) by (intros; lia).
  pose proof (Z.div_mod x 10 ltac:(lia)). pose proof (Z.mod_pos_bound x 10 ltac:(lia)).
  destruct (Z.ltb_spec x 10); [|destruct (Z.ltb_spec x 100)]; cbn [app pton4_loop].
  - rewrite Hd, Hn, Hm by lia. done.
  - rewrite Hd, Hn, Hm by lia. rewrite Hd, Hm by lia.
    rewrite (proj2 (Z.eqb_neq (x / 10) 0)), (proj2 (Z.ltb_ge 255 _)) by lia. do 2 f_equal. lia.
  - pose proof (Z.div_mod (x / 10) 10 ltac:(lia)). pose proof (Z.mod_pos_bound (x / 10) 10 ltac:(lia)).
    rewrite Hd, Hn, Hm by lia. rewrite Hd, Hm by lia.
    rewrite (proj2 (Z.eqb_neq (x / 10 / 10) 0)), (proj2 (Z.ltb_ge 255 _)) by lia. rewrite Hd, Hm by lia.
    rewrite (proj2 (Z.eqb_neq _ 0)), (proj2 (Z.ltb_ge 255 _)) by lia. do 2 f_equal. lia.
Qed.

Lemma inet_pton4_ntop4 a :
  length a = 4%nat -> bytes_ok a -> inet_pton4 (inet_ntop4 a) = Some a.
Proof.
  intros Hl Ha. pose proof (fun i => bytes_ok_get a i Ha) as G. unfold inet_pton4, inet_ntop4.
  do 3 (rewrite pton4_octet by (done || unfold zlen; cbn; lia); cbn [pton4_loop];
    change (isdigit 46) with false; cbv iota; change (46 =? 46) with true; cbv iota; cbn [zlen length app];
    change (Z.of_nat 0 =? 3) with false; change (Z.of_nat 1 =? 3) with false;
    change (Z.of_nat 2 =? 3) with false; cbv iota).
  rewrite <- (app_nil_r (print_dec (bget a 3))), pton4_octet by (done || unfold zlen; cbn; lia).
  cbn. do 4 (destruct a as [|? a]; [done|]). by destruct a.
Qed.

Lemma cut_slash_app ip host :
  Forall (fun c => c <> 47) ip -> cut_slash (ip ++ 47 :: host) = Some (ip, host).
Proof.
  intros H. induction H as [|c ip Hc _ IH]; [done|]. cbn [app cut_slash].
  by rewrite (proj2 (Z.eqb_neq _ _)), IH.
Qed.

Lemma inet_ntop4_no_slash a : bytes_ok a -> Forall (fun c => c <> 47) (inet_ntop4 a).
Proof.
  intros Ha. assert (H : forall i, Forall (fun c => c <> 47) (print_dec (bget a i))).
  { intros i. pose proof (bytes_ok_get a i Ha) as Hb. rewrite print_dec_digits by done. unfold is_u8 in Hb.
    pose proof (Z.mod_pos_bound (bget a i) 10 ltac:(lia)).
    pose proof (Z.mod_pos_bound (bget a i / 10) 10 ltac:(lia)).
    pose proof (Z.div_pos (bget a i) 10). pose proof (Z.div_pos (bget a i / 10) 10).
    destruct (_ <? 10); [|destruct (_ <? 100)]; repeat (apply Forall_cons_2; [lia|]); constructor. }
  unfold inet_ntop4. repeat first [apply H | apply Forall_app_2 | apply Forall_cons_2; [done|]].
Qed.

Lemma parse_server_printed a host :
  length a = 4%nat -> bytes_ok a -> 0 < zlen host < 128 ->
  parse_server (inet_ntop4 a ++ 47 :: host) =
    Some (mk_target (mk_addr 4 a) host (host ++ 64 :: inet_ntop4 a)).
Proof.
  intros Hl Ha Hh. unfold parse_server. destruct (inet_ntop4_word a Ha) as [_ Hlen].
  rewrite cut_slash_app by (by apply inet_ntop4_no_slash). cbn [mbind option_bind].
  rewrite (bool_decide_eq_false_2 (inet_ntop4 a = [])) by (intros E; rewrite E in Hlen; cbn in Hlen; lia).
  rewrite (bool_decide_eq_false_2 (host = [])) by (intros ->; change (zlen (@nil Z)) with 0 in Hh; lia).
  cbn [orb]. rewrite !(proj2 (Z.leb_gt _ _)) by (unfold zlen in *; lia). cbn [orb]. unfold pton.
  rewrite inet_pton4_ntop4 by done. cbn [mbind option_bind]. do 2 f_equal. unfold bsub.
  change (Z.to_nat 0) with 0%nat. rewrite drop_0, take_ge; [done|]. unfold zlen in Hh.
  rewrite length_app. cbn [length]. lia.
Qed.

(** The configured servers are the ones used. Both transports read from
    their comma separated list exactly the first word of every piece that is
    a server they can use, in order, the first [DNS_MAX_SERVERS] of them; text
    longer than the item array is cut and everything else skipped. An IPv4
    address as [inet_ntop] prints it is read back as itself, so an entry
    "address/host" names that address and host. *)
Theorem server_lists_correct l :
  dns_udp_servers_parse l = take DNS_MAX_SERVERS (omap pton (items 63 l)) /\
  dns_doh_servers l = take DNS_MAX_SERVERS (omap parse_server (items 255 l)) /\
  forall a host, length a = 4%nat -> bytes_ok a -> 0 < zlen host < 128 ->
    pton (inet_ntop4 a) = Some (mk_addr 4 a) /\
    parse_server (inet_ntop4 a ++ 47 :: host) =
      Some (mk_target (mk_addr 4 a) host (host ++ 64 :: inet_ntop4 a)).
Proof.
  unfold dns_udp_servers_parse, dns_doh_servers. split; [rewrite parse_list_spec; [done|lia|apply Nat.le_0_l]|].
  split; [rewrite parse_list_spec; [done|lia|apply Nat.le_0_l]|]. intros a host Hl Ha Hh.
  split; [|by apply parse_server_printed]. unfold pton. by rewrite inet_pton4_ntop4.
Qed.

(** [DNS_DOH_DEFAULT_SERVERS] *)
Example doh_default_servers :
  map (fun t => (addr_bytes (t_addr t), t_host t))
    (dns_doh_servers (str "1.1.1.1/cloudflare-dns.com,1.0.0.1/cloudflare-dns.com,8.8.8.8/dns.google,8.8.4.4/dns.google")) =
  [([1; 1; 1; 1], str "cloudflare-dns.com"); ([1; 0; 0; 1], str "cloudflare-dns.com");
   ([8; 8; 8; 8], str "dns.google"); ([8; 8; 4; 4], str "dns.google")].
Proof. vm_compute. reflexivity. Qed.

(** ** One request *)

Definition DOH_POOL : nat := 4.
Definition DOH_IDLE_MAX_S : Z := 50.
Definition DOH_HTTP_MAX : Z := 4096.

(** A pooled connection: when it was last used, the pieces the TLS session
    will still deliver (past the end, or an empty one, it is broken), whether
    its next writes go through, and what was written. *)
Record doh_conn := mk_doh_conn {
  dc_last_used : Z;
  dc_in : list (list Z);
  dc_wok : list bool;
  dc_sent : list Z
}.

(** [tlsc_write] *)
Definition tlsc_write (c : doh_conn) (msg : list Z) : option doh_conn :=
  match dc_wok c with
  | true :: w => Some (mk_doh_conn (dc_last_used c) (dc_in c) w (dc_sent c ++ msg))
  | _ => None
  end.

(** [tlsc_read] of at most [size] bytes. *)
Definition tlsc_read (s : list (list Z)) (size : Z) : option (list Z * list (list Z)) :=
  match s with
  | [] | [] :: _ => None
  | d :: s' =>
      if zlen d <=? size then Some (d, s') else Some (bsub d 0 size, bfrom d size :: s')
  end.

(** [strstr]: where [pat] first stands in [s]. *)
Fixpoint strstr (s pat : list Z) : option Z :=
  if bool_decide (take (length pat) s = pat) then Some 0 else
  match s with
  | [] => None
  | _ :: s' => match strstr s' pat with Some i => Some (i + 1) | None => None end
  end.

Definition CRLF2 : list Z := [13; 10; 13; 10].

(** [header_value]: the number after "\nname:" in a C string, -1 without it. *)
Fixpoint header_value (s name : list Z) : Z :=
  match s with
  | [] => -1
  | c :: s' =>
      if (c =? 10) && ieq (bsub s' 0 (zlen name)) name && (bget s' (zlen name) =? 58)
      then fst (strtol10 (bfrom s' (zlen name + 1)))
      else header_value s' name
  end.

Definition http_request (host : list Z) (qlen : Z) : list Z :=
  str "POST /dns-query HTTP/1.1" ++ [13; 10] ++ str "Host: " ++ host ++ [13; 10]
  ++ str "Content-Type: application/dns-message" ++ [13; 10]
  ++ str "Accept: application/dns-message" ++ [13; 10]
  ++ str "Content-Length: " ++ print_dec qlen ++ CRLF2.

(** The header loop: what was read into [head], where the blank line stands,
    and the stream after it. *)
Fixpoint read_head (s : list (list Z)) (head : list Z) : option (list Z * Z * list (list Z)) :=
  if DOH_HTTP_MAX <=? zlen head then None else
  match tlsc_read s (DOH_HTTP_MAX - zlen head), s with
  | Some (got, s'), _ :: s0 =>
      let head := head ++ got in
      match strstr (cstr head) CRLF2 with
      | Some e => Some (head, e, s')
      | None => read_head s0 head
      end
  | _, _ => None
  end.

(** The body loop: [have] of [len] bytes are in [reply]. *)
Fixpoint read_body (s : list (list Z)) (reply : list Z) (have len : Z)
  : res unit (list Z * list (list Z)) :=
  if len <=? have then Ok (reply, s) else
  match s with
  | [] | [] :: _ => Err tt
  | d :: s' =>
      if zlen d <=? len - have then
        reply ← store reply have d;
        read_body s' reply (have + zlen d) len
      else
        reply ← store reply have (bsub d 0 (len - have));
        Ok (reply, bfrom d (len - have) :: s')
  end.

(** [doh_request]: [Err] is the -1 return; otherwise the value (0 for an answer
    that is not usable), the reply array and the connection. *)
Definition doh_request (c : doh_conn) (host query reply : list Z)
  : res unit (Z * list Z * doh_conn) :=
  let req := http_request host (zlen query) in
  if DOH_HTTP_MAX + 1 <=? zlen req then Err tt else
  match tlsc_write c req with
  | None => Err tt
  | Some c =>
  match tlsc_write c query with
  | None => Err tt
  | Some c =>
  match read_head (dc_in c) [] with
  | None => Err tt
  | Some (head, e, s) =>
      let text := bsub head 0 e in
      let status :=
        if bool_decide (bsub text 0 7 = str "HTTP/1.")
        then fst (strtol10 (cstr (bfrom (bput head e [0]) 9))) else 0 in
      let body_len := header_value text (str "Content-Length") in
      if (body_len <? 0) || (zlen reply <? body_len) then Err tt else
      let body_have := zlen head - (e + 4) in
      if body_len <? body_have then Err tt else
      rest ← slice head (e + 4) body_have;
      reply ← store reply 0 rest;
      '(reply, s) ← read_body s reply body_have body_len;
      let c := mk_doh_conn (dc_last_used c) s (dc_wok c) (dc_sent c) in
      if negb (status =? 200) || (body_len <? 12) then Ok (0, reply, c) else Ok (body_len, reply, c)
  end end end.

(** *** Streams and searches *)

(** What a TLS session still delivers. *)
Fixpoint live (s : list (list Z)) : list Z :=
  match s with
  | [] | [] :: _ => []
  | d :: s' => d ++ live s'
  end.

Lemma tlsc_read_spec s size :
  0 < size ->
  match tlsc_read s size with
  | Some (d, s') => live s = d ++ live s' /\ 0 < zlen d <= size
  | None => live s = []
  end.
Proof.
  intros Hs. destruct s as [|[|x d] s]; try done. cbn [tlsc_read live]. set (k := x :: d).
  assert (Hk : 0 < zlen k) by (unfold k; rewrite zlen_cons; pose proof (zlen_nonneg d); lia).
  destruct (Z.leb_spec (zlen k) size); [split; [done|lia]|].
  pose proof (bsub_bfrom_split k size) as E. rewrite zlen_bsub by lia. split; [|lia].
  assert (Hne : bfrom k size <> []).
  { intros E'. pose proof (zlen_bfrom k size ltac:(lia)) as Hz. rewrite E' in Hz.
    change (zlen (@nil Z)) with 0 in Hz. lia. }
  destruct (bfrom k size) as [|y r] eqn:Er; [done|]. cbn [live]. rewrite <- E at 1. by rewrite <- app_assoc.
Qed.

Lemma strstr_app s t pat i : strstr s pat = Some i -> strstr (s ++ t) pat = Some i.
Proof.
  revert i. induction s as [|c s IH]; intros i; cbn [strstr app].
  - case_bool_decide as E; [|done]. intros [= <-]. rewrite take_nil in E. subst pat. by destruct t.
  - case_bool_decide as E.
    + intros [= <-]. rewrite bool_decide_eq_true_2; [done|].
      change (take (length pat) ((c :: s) ++ t) = pat). rewrite take_app_le; [done|].
      rewrite <- E at 1. rewrite length_take. cbn. lia.
    + destruct (strstr s pat) as [j|] eqn:Ej; [|done]. intros [= <-]. rewrite (IH j eq_refl).
      rewrite bool_decide_eq_false_2; [done|]. intros E'. apply E.
      change (take (length pat) ((c :: s) ++ t) = pat) in E'.
      destruct (decide (length pat <= length (c :: s))%nat) as [Hl|Hl].
      * by rewrite take_app_le in E'.
      * exfalso. assert (Hj : forall s i, strstr s pat = Some i -> (length pat <= length s)%nat).
        { clear. induction s as [|c s IH]; intros i; cbn [strstr].
          - case_bool_decide as E; [|done]. intros _. rewrite take_nil in E. by subst pat.
          - case_bool_decide as E.
            + intros _. rewrite <- E at 1. rewrite length_take. cbn. lia.
            + destruct (strstr s pat) as [j|] eqn:Ej; [|done]. intros _. specialize (IH j eq_refl). cbn. lia. }
        specialize (Hj s j Ej). cbn in Hl. lia.
Qed.

Lemma strstr_found s pat i : strstr s pat = Some i ->
  0 <= i /\ exists x y, s = x ++ pat ++ y /\ zlen x = i.
Proof.
  revert i. induction s as [|c s IH]; intros i; cbn [strstr].
  - case_bool_decide as E; [|done]. intros [= <-]. split; [lia|]. exists [], []. rewrite take_nil in E.
    by subst pat.
  - case_bool_decide as E.
    + intros [= <-]. split; [lia|]. exists [], (drop (length pat) (c :: s)). split; [|done].
      cbn [app]. rewrite <- E at 1. by rewrite take_drop.
    + destruct (strstr s pat) as [j|]; [|done]. intros [= <-]. destruct (IH j eq_refl) as (Hj & x & y & -> & Hx).
      split; [lia|]. exists (c :: x), y. split; [done|]. rewrite zlen_cons. lia.
Qed.

Lemma strstr_complete x pat y : strstr (x ++ pat ++ y) pat <> None.
Proof.
  induction x as [|c x IH]; cbn [app].
  - assert (H : take (length pat) (pat ++ y) = pat) by (by rewrite take_app_length).
    destruct (pat ++ y); cbn [strstr]; by rewrite bool_decide_eq_true_2.
  - cbn [strstr]. case_bool_decide; [done|]. by destruct (strstr (x ++ pat ++ y) pat).
Qed.

Lemma cstr_prefix l : exists t, l = cstr l ++ t.
Proof.
  induction l as [|c l [t IH]]; [by exists []|]. cbn [cstr]. destruct (c =? 0); [by eexists|].
  exists t. cbn [app]. by rewrite <- IH.
Qed.

Lemma cstr_no_nul l : Forall (fun c => c <> 0) (cstr l).
Proof.
  induction l as [|c l IH]; cbn [cstr]; [constructor|]. destruct (Z.eqb_spec c 0); by constructor.
Qed.

(** *** Reading the head and the body *)

(** A stream that starts with a header block: its text and what follows. *)
Definition header_block (stream text rest : list Z) : Prop :=
  stream = text ++ CRLF2 ++ rest /\ Forall (fun c => c <> 0) text /\
  strstr (text ++ CRLF2) CRLF2 = Some (zlen text).

Lemma header_block_unique stream text rest e :
  header_block stream text rest -> strstr stream CRLF2 = Some e -> e = zlen text.
Proof.
  intros (-> & _ & H) He. apply (strstr_app _ rest) in H. rewrite <- app_assoc in H. congruence.
Qed.

(** Without a blank line in it, the text read so far ends before one. *)
Lemma no_blank_line head k text rest :
  strstr (cstr head) CRLF2 = None -> head ++ k = text ++ CRLF2 ++ rest ->
  Forall (fun c => c <> 0) text -> zlen head < zlen text + 4.
Proof.
  intros Hn E Ht. destruct (Z.lt_ge_cases (zlen head) (zlen text + 4)) as [|Hge]; [done|].
  exfalso. assert (Hp : exists y, head = text ++ CRLF2 ++ y).
  { rewrite app_assoc in E. apply app_eq_inv in E as [(y & -> & _)|(y & Ey & _)].
    - by exists y; rewrite app_assoc.
    - exists []. rewrite app_nil_r, Ey. assert (zlen y = 0).
      { apply (f_equal zlen) in Ey. rewrite !zlen_app in Ey. change (zlen CRLF2) with 4 in Ey.
        pose proof (zlen_nonneg y). lia. }
      rewrite (zlen_eq0 y) by lia. by rewrite app_nil_r. }
  destruct Hp as (y & ->). rewrite cstr_clean in Hn by done.
  rewrite (cstr_clean CRLF2) in Hn by (by repeat constructor). by apply (strstr_complete text CRLF2 (cstr y)).
Qed.

Lemma read_head_spec s head :
  strstr (cstr head) CRLF2 = None -> zlen head <= DOH_HTTP_MAX ->
  match read_head s head with
  | Some (head', e, s') => head ++ live s = head' ++ live s' /\ zlen head' <= DOH_HTTP_MAX /\
      strstr (cstr head') CRLF2 = Some e
  | None => forall text rest, head ++ live s = text ++ CRLF2 ++ rest ->
      Forall (fun c => c <> 0) text -> DOH_HTTP_MAX < zlen text + 4
  end.
Proof.
  revert head. induction s as [|d s IH]; intros head Hn Hl; cbn [read_head].
  - destruct (DOH_HTTP_MAX <=? zlen head); cbn [tlsc_read live]; intros text rest E Ht;
      exfalso; revert E; rewrite app_nil_r; intros ->; revert Hn; rewrite cstr_clean by done;
      rewrite (cstr_clean CRLF2) by (by repeat constructor); apply (strstr_complete text CRLF2 (cstr rest)).
  - destruct (Z.leb_spec DOH_HTTP_MAX (zlen head)) as [Hf|Hf].
    { intros text rest E Ht. pose proof (no_blank_line _ _ _ _ Hn E Ht). lia. }
    pose proof (tlsc_read_spec (d :: s) (DOH_HTTP_MAX - zlen head) ltac:(lia)) as Hr.
    destruct (tlsc_read (d :: s) (DOH_HTTP_MAX - zlen head)) as [[got s']|] eqn:Er.
    2: { intros text rest E Ht. rewrite Hr in E. pose proof (no_blank_line _ _ _ _ Hn E Ht) as H.
         apply (f_equal zlen) in E. rewrite !zlen_app in E. change (zlen CRLF2) with 4 in E.
         change (zlen (@nil Z)) with 0 in E. pose proof (zlen_nonneg rest). lia. }
    destruct Hr as [Hlive Hgot].
    assert (Hhead : zlen (head ++ got) <= DOH_HTTP_MAX) by (rewrite zlen_app; lia).
    destruct (strstr (cstr (head ++ got)) CRLF2) as [e|] eqn:Ee.
    { split; [by rewrite Hlive, app_assoc|done]. }
    specialize (IH (head ++ got) Ee Hhead).
    assert (Hs : s' = s \/ zlen (head ++ got) = DOH_HTTP_MAX).
    { cbn [tlsc_read] in Er. destruct d as [|x d]; [done|].
      destruct (Z.leb_spec (zlen (x :: d)) (DOH_HTTP_MAX - zlen head)); [injection Er as _ <-; by left|].
      injection Er as <- _. right. rewrite zlen_app, zlen_bsub by lia. lia. }
    destruct Hs as [->|Hfull].
    { rewrite Hlive, app_assoc. exact IH. }
    assert (Hrh : read_head s (head ++ got) = None).
    { destruct s; cbn [read_head]; rewrite (proj2 (Z.leb_le _ _)) by lia; done. }
    rewrite Hrh. intros text rest E Ht. rewrite Hlive, app_assoc in E.
    pose proof (no_blank_line _ _ _ _ Ee E Ht). lia.
Qed.

Lemma read_body_wp s b pre reply have len :
  filled b pre reply -> have = zlen pre -> have <= len <= zlen b ->
  wp (read_body s reply have len)
    (fun '(reply', s') => exists mid, live s = mid ++ live s' /\ zlen mid = len - have /\
       filled b (pre ++ mid) reply')
    (fun _ => zlen (live s) < len - have).
Proof.
  revert pre reply have. induction s as [|d s IH]; intros pre reply have F -> Hl; cbn [read_body].
  - apply wp_if; intros C; zbool.
    + apply wp_ok. exists []. split; [done|]. split; [rewrite zlen_nil; lia|by rewrite app_nil_r].
    + apply wp_err. cbn [live]. rewrite zlen_nil. lia.
  - apply wp_if; intros C; zbool.
    { apply wp_ok. exists []. split; [done|]. split; [rewrite zlen_nil; lia|by rewrite app_nil_r]. }
    destruct d as [|x d]; [apply wp_err; cbn [live]; rewrite zlen_nil; lia|]. cbn [live]. set (k := x :: d).
    pose proof (zlen_nonneg pre). apply wp_if; intros C2; zbool.
    + apply wp_bind. eapply wp_store_filled; [done|split; [done|lia]|]. intros b'' F'. cbv beta.
      eapply wp_mono; [| |apply (IH (pre ++ k))]; [| |done|by rewrite zlen_app|lia].
      * intros [reply' s'] (mid & E & Hm & Hf). exists (k ++ mid). rewrite E, !app_assoc. split; [done|].
        split; [rewrite zlen_app; lia|]. done.
      * intros ? Hlt. cbv beta in Hlt. rewrite zlen_app. lia.
    + assert (Hk : zlen (bsub k 0 (len - zlen pre)) = len - zlen pre) by (rewrite zlen_bsub; lia).
      apply wp_bind. eapply wp_store_filled; [done|split; [done|rewrite Hk; lia]|]. intros b'' F'. cbv beta.
      apply wp_ok. exists (bsub k 0 (len - zlen pre)). split; [|split; [done|exact F']].
      pose proof (bsub_bfrom_split k (len - zlen pre)) as E.
      assert (Hne : bfrom k (len - zlen pre) <> []).
      { intros E'. pose proof (zlen_bfrom k (len - zlen pre) ltac:(lia)) as Hz. rewrite E' in Hz.
        change (zlen (@nil Z)) with 0 in Hz. lia. }
      destruct (bfrom k (len - zlen pre)) as [|y r] eqn:Er; [done|]. cbn [live].
      rewrite <- E at 1. by rewrite <- app_assoc.
Qed.

(** *** The exchange *)

Lemma header_value_length s name : 0 <= header_value s name -> zlen name + 2 <= zlen s.
Proof.
  induction s as [|c s IH]; cbn [header_value]; [lia|]. rewrite zlen_cons.
  destruct (_ && _ && _) eqn:E; [intros _|intros H; specialize (IH H); lia].
  apply andb_prop in E as [_ E]. zbool. destruct (Z.lt_ge_cases (zlen name) (zlen s)) as [|Hge]; [lia|].
  rewrite bget_oob in E by done. done.
Qed.

(** The status and the length a header block states. *)
Definition http_status (text : list Z) : Z :=
  if bool_decide (bsub text 0 7 = str "HTTP/1.") then fst (strtol10 (bfrom text 9)) else 0.
Definition content_length (text : list Z) : Z := header_value text (str "Content-Length").

(** What a request may return when the stream holds that block and body. *)
Record doh_answer (c : doh_conn) (host query reply text body : list Z) (n : Z) (reply' : list Z)
    (c' : doh_conn) : Prop := {
  da_stream : header_block (live (dc_in c)) text (body ++ live (dc_in c'));
  da_length : zlen body = content_length text;
  da_reply : filled reply body reply';
  da_value : n = if (http_status text =? 200) && (12 <=? zlen body) then zlen body else 0;
  da_sent : dc_sent c' = dc_sent c ++ http_request host (zlen query) ++ query
}.

(** The block found in the bytes read. *)
Lemma found_block head e tail :
  strstr (cstr head) CRLF2 = Some e ->
  let text := bsub head 0 e in let rest := bfrom head (e + 4) in
  header_block (head ++ tail) text (rest ++ tail) /\ zlen text = e /\ 0 <= e /\ e + 4 <= zlen head /\
  head = text ++ CRLF2 ++ rest /\
  (9 <= e -> cstr (bfrom (bput head e [0]) 9) = bfrom text 9).
Proof.
  intros He. destruct (strstr_found _ _ _ He) as (He0 & x & y & E & Hx).
  destruct (cstr_prefix head) as [t Ht]. set (z := y ++ t).
  assert (Eh : head = x ++ CRLF2 ++ z) by (unfold z; rewrite Ht, E, <- !app_assoc; done).
  assert (Hnul : Forall (fun c => c <> 0) x).
  { pose proof (cstr_no_nul head) as H. rewrite E in H. by apply Forall_app in H as [H _]. }
  assert (Etext : bsub head 0 e = x) by (rewrite Eh, <- Hx, bsub_app_l by lia; apply bsub_all).
  assert (Erest : bfrom head (e + 4) = z).
  { rewrite Eh, app_assoc. unfold bfrom. rewrite drop_app_ge.
    - replace (_ - _)%nat with 0%nat; [by rewrite drop_0|]. rewrite length_app. cbn. unfold zlen in Hx. lia.
    - rewrite length_app. cbn. unfold zlen in Hx. lia. }
  cbv zeta. rewrite Etext, Erest. refine (conj _ (conj Hx (conj He0 (conj _ (conj Eh _))))).
  - split; [by rewrite Eh, <- !app_assoc|]. split; [done|].
    destruct (strstr (x ++ CRLF2) CRLF2) as [i|] eqn:Ei.
    + apply (strstr_app _ y) in Ei. rewrite <- app_assoc, <- E, He in Ei. congruence.
    + exfalso. apply (strstr_complete x CRLF2 []). by rewrite app_nil_r.
  - rewrite Eh, !zlen_app. change (zlen CRLF2) with 4. pose proof (zlen_nonneg z). lia.
  - intros H9. assert (Eb : bput head e [0] = x ++ 0 :: [10; 13; 10] ++ z).
    { unfold bput. rewrite Eh. unfold CRLF2. cbn [app]. change (zlen [0]) with 1.
      rewrite take_app_le, take_ge by (unfold zlen in Hx; lia). f_equal. f_equal.
      rewrite drop_app_ge by (unfold zlen in Hx; lia).
      replace (_ - _)%nat with 1%nat by (unfold zlen in Hx; lia). done. }
    rewrite Eb. unfold bfrom. rewrite drop_app_le by (unfold zlen in Hx; lia).
    rewrite cstr_clean by (by apply Forall_drop). cbn [cstr]. by rewrite app_nil_r.
Qed.

Lemma tlsc_write_sent c msg c' :
  tlsc_write c msg = Some c' -> dc_in c' = dc_in c /\ dc_sent c' = dc_sent c ++ msg.
Proof. unfold tlsc_write. destruct (dc_wok c) as [|[] w]; [done| |done]. by intros [= <-]. Qed.

(** When a request breaks although the writes go through, the stream does not
    hold a response that fits: its header block is longer than the buffer, its
    length is missing or larger than the reply array, or the stream ends early
    or goes on after the body. *)
Definition no_response (c : doh_conn) (reply : list Z) : Prop :=
  forall text body, header_block (live (dc_in c)) text body ->
    zlen text + 4 <= DOH_HTTP_MAX -> 0 <= content_length text <= zlen reply ->
    zlen body <> content_length text.

(** A block whose length does not match what follows it. *)
Lemma block_mismatch c reply head e s :
  live (dc_in c) = head ++ live s -> strstr (cstr head) CRLF2 = Some e ->
  let len := content_length (bsub head 0 e) in let rest := bfrom head (e + 4) in
  len < 0 \/ zlen reply < len \/ len < zlen rest \/ zlen (live s) < len - zlen rest ->
  no_response c reply.
Proof.
  intros Hlive He len rest Hc text' body' Hb' Hfit Hcl Hlen'.
  destruct (found_block head e (live s) He) as (Hb & Et & _). cbv zeta in *. rewrite <- Hlive in Hb.
  assert (Ee : strstr (live (dc_in c)) CRLF2 = Some e).
  { destruct (cstr_prefix head) as [t Ht]. rewrite Hlive, Ht, <- app_assoc. by apply strstr_app. }
  pose proof (header_block_unique _ _ _ _ Hb' Ee) as E'. destruct Hb as (Hb1 & _), Hb' as (Hb2 & _).
  rewrite Hb1 in Hb2. apply app_inj_1 in Hb2 as [<- Hb2]; [|unfold zlen in Et, E'; lia].
  apply app_inv_head in Hb2. subst body'. rewrite zlen_app in Hlen'. fold len rest in Hlen', Hcl.
  pose proof (zlen_nonneg (live s)). lia.
Qed.

Lemma doh_request_wp c host query reply :
  zlen (http_request host (zlen query)) <= DOH_HTTP_MAX ->
  wp (doh_request c host query reply)
    (fun '(n, reply', c') => exists text body, doh_answer c host query reply text body n reply' c')
    (fun _ => (exists w, dc_wok c = true :: true :: w) -> no_response c reply).
Proof.
  intros Hreq. unfold doh_request. rewrite (proj2 (Z.leb_gt _ _)) by lia.
  destruct (tlsc_write c _) as [c1|] eqn:E1.
  2: { apply wp_err. intros [w Hw]. unfold tlsc_write in E1. by rewrite Hw in E1. }
  destruct (tlsc_write c1 query) as [c2|] eqn:E2.
  2: { apply wp_err. intros [w Hw]. unfold tlsc_write in E1, E2. rewrite Hw in E1. injection E1 as <-. done. }
  destruct (tlsc_write_sent _ _ _ E1) as [I1 S1]. destruct (tlsc_write_sent _ _ _ E2) as [I2 S2].
  rewrite I1 in I2. rewrite I2. rewrite S1, <- app_assoc in S2.
  pose proof (read_head_spec (dc_in c) [] eq_refl ltac:(done)) as Hh. cbn [app] in Hh.
  destruct (read_head (dc_in c) []) as [[[head e] s]|].
  2: { apply wp_err. intros _ text body (Hb & Ht & _) Hfit. pose proof (Hh _ _ Hb Ht). lia. }
  destruct Hh as (Hlive & Hlen & He).
  destruct (found_block head e (live s) He) as (Hb & Et & He0 & He4 & Ehead & Hst). cbv zeta in *.
  set (text := bsub head 0 e) in *. set (rest := bfrom head (e + 4)) in *. rewrite <- Hlive in Hb.
  pose proof (block_mismatch c reply head e s Hlive He) as Hno. cbv zeta in Hno. fold text rest in Hno.
  fold (content_length text). apply wp_if; intros C1; [apply wp_err; intros _; apply Hno|].
  { apply orb_prop in C1. zbool. lia. }
  apply orb_false_elim in C1 as [C1 C1']. zbool.
  assert (Hrl : zlen rest = zlen head - (e + 4)) by (unfold rest; rewrite zlen_bfrom; lia).
  apply wp_if; intros C2; zbool; [apply wp_err; intros _; apply Hno; lia|].
  apply wp_bind, wp_slice; [lia|]. cbv beta. rewrite <- bfrom_bsub by lia. fold rest.
  apply wp_bind. eapply wp_store_filled; [apply filled_nil|split; [done|change (zlen (@nil Z)) with 0; lia]|].
  intros b'' F. cbn [app] in F. cbv beta. apply wp_bind.
  eapply wp_mono; [| |apply (read_body_wp s reply rest b''); [done|done|lia]].
  2: { intros ? Hs. cbv beta in Hs. intros _. apply Hno. right. right. right. lia. }
  intros [reply' s'] (mid & El & Hm & F'). cbv beta iota.
  assert (Hans : forall n, n = (if (http_status text =? 200) && (12 <=? zlen (rest ++ mid)) then zlen (rest ++ mid) else 0) ->
    doh_answer c host query reply text (rest ++ mid) n reply'
      (mk_doh_conn (dc_last_used c2) s' (dc_wok c2) (dc_sent c2))).
  { intros n Hn. split; cbn [dc_in dc_sent]; try done.
    - by rewrite <- app_assoc, <- El.
    - rewrite zlen_app. lia. }
  assert (Hst' : (if bool_decide (bsub text 0 7 = str "HTTP/1.")
    then fst (strtol10 (cstr (bfrom (bput head e [0]) 9))) else 0) = http_status text).
  { unfold http_status. rewrite Hst; [done|]. pose proof (header_value_length _ _ C1).
    change (zlen (str "Content-Length")) with 14 in *. lia. }
  rewrite Hst'. assert (Hbl : zlen (rest ++ mid) = content_length text) by (rewrite zlen_app; lia).
  apply wp_if; intros C3; apply wp_ok; exists text, (rest ++ mid); apply Hans; rewrite Hbl.
  - apply orb_prop in C3 as [C3%negb_true_iff|C3]; [by rewrite C3|]. zbool.
    rewrite (proj2 (Z.leb_gt 12 _)), andb_false_r by lia. done.
  - apply orb_false_elim in C3 as [C3%negb_false_iff C3']. zbool.
    rewrite (proj2 (Z.leb_le 12 _)) by lia. by rewrite (proj2 (Z.eqb_eq _ _)).
Qed.

Lemma http_request_fits host qlen :
  zlen host < 128 -> 0 <= qlen -> zlen (http_request host qlen) <= DOH_HTTP_MAX.
Proof.
  intros Hh Hq. unfold http_request, DOH_HTTP_MAX. pose proof (zlen_print_dec qlen Hq).
  rewrite !zlen_app. change (zlen (str _)) with 24 at 1.
  change (zlen [13; 10]) with 2. change (zlen CRLF2) with 4.
  change (zlen (str "Host: ")) with 6. change (zlen (str "Content-Type: application/dns-message")) with 37.
  change (zlen (str "Accept: application/dns-message")) with 31. change (zlen (str "Content-Length: ")) with 16.
  lia.
Qed.

(** C39: a DNS-over-HTTPS exchange returns the message the server sent. The
    request written is the POST of the query to the server's host; whatever
    the server sends and however the session delivers it, reading ends inside
    the two buffers. A result is the body of the response at the start of the
    stream, exactly as long as its Content-Length says, stored at the start of
    the reply array and nothing of the stream after it consumed; its value is
    the body's length for a 200 response of at least twelve bytes and 0
    otherwise. The exchange breaks, once the request is written, only if the
    stream does not hold one response that fits. *)
Theorem doh_request_correct c host query reply :
  zlen host < 128 ->
  match doh_request c host query reply with
  | Ok (n, reply', c') => exists text body, doh_answer c host query reply text body n reply' c'
  | Err _ => (exists w, dc_wok c = true :: true :: w) -> no_response c reply
  | Fault => False
  end.
Proof.
  intros Hh. pose proof (doh_request_wp c host query reply (http_request_fits _ _ Hh (zlen_nonneg query))) as H.
  by destruct (doh_request c host query reply) as [[[n reply'] c']|[]|].
Qed.

Definition sample_answer : list Z := [171; 205; 129; 128; 0; 1; 0; 0; 0; 0; 0; 0].
Definition sample_session : doh_conn :=
  mk_doh_conn 0
    [str "HTTP/1.1 200 OK" ++ [13; 10] ++ str "content-len"; str "gth: 12" ++ [13; 10; 13];
     10 :: bsub sample_answer 0 5; bfrom sample_answer 5 ++ [7]] [true; true] [].

(** A response in four pieces with one byte too many after it. *)
Lemma doh_request_correct_witness :
  exists reply' c' text,
    doh_request sample_session (str "dns.google") (repeat 0 12) (repeat 0 20) = Ok (12, reply', c') /\
    doh_answer sample_session (str "dns.google") (repeat 0 12) (repeat 0 20) text sample_answer 12 reply' c' /\
    live (dc_in c') = [7].
Proof.
  pose proof (doh_request_correct sample_session (str "dns.google") (repeat 0 12) (repeat 0 20) ltac:(done)) as H.
  destruct (doh_request _ _ _ _) as [[[n r] c']|e|] eqn:E; [|vm_compute in E; discriminate E..].
  vm_compute in E. injection E as E1 E2 E3. rewrite <- E1 in *. destruct H as (text & body & H).
  assert (Hb : body = sample_answer).
  { pose proof (da_reply _ _ _ _ _ _ _ _ _ H) as F. pose proof (da_value _ _ _ _ _ _ _ _ _ H) as V.
    assert (Hl : zlen body = 12).
    { revert V. destruct (_ && _); [done|]. intros V. discriminate V. }
    apply filled_prefix in F. rewrite Hl, <- E2 in F. symmetry. exact F. }
  subst body. exists r, c', text. split; [done|]. split; [done|]. by rewrite <- E3.
Defined.

(** ** The connection pool

    Several threads query one server at a time and another one may drop the
    idle connections; the pool is shared and a connection is worth nothing to
    anyone else while a thread has it. Every critical section, every close and
    every exchange is one step, so that all interleavings are covered. *)

(** A connection is named by the order in which it was opened. *)
Record pconn := mk_pconn { pc_id : nat; pc_conn : doh_conn }.

(** The last connection put is the first one taken. [opened] has every
    connection as it was opened. *)
Record pool := mk_pool { idle : list pconn; freed : list nat; opened : list doh_conn }.

Definition conn_free (p : pool) (c : pconn) : pool := mk_pool (idle p) (freed p ++ [pc_id c]) (opened p).

(** One turn of the loop of [pool_get]: a connection, or the one to close
    first, or none. *)
Inductive got := GOT (c : pconn) | EXPIRED (c : pconn) | GOT_NONE.
Definition pool_get (p : pool) (now : Z) : got * pool :=
  match idle p with
  | [] => (GOT_NONE, p)
  | c :: rest =>
      let p := mk_pool rest (freed p) (opened p) in
      if DOH_IDLE_MAX_S * 1000 <? now - dc_last_used (pc_conn c) then (EXPIRED c, p) else (GOT c, p)
  end.

(** [pool_put]'s critical section: is the connection kept? *)
Definition pool_put (p : pool) (c : pconn) (now : Z) : bool * pool :=
  if (length (idle p) <? DOH_POOL)%nat
  then (true, mk_pool (mk_pconn (pc_id c)
                (mk_doh_conn now (dc_in (pc_conn c)) (dc_wok (pc_conn c)) (dc_sent (pc_conn c)))
              :: idle p) (freed p) (opened p))
  else (false, p).

(** [dns_doh_drop_idle]'s critical section: everything idle is taken out, to be
    closed after it. *)
Definition drop_idle (p : pool) : list pconn * pool := (idle p, mk_pool [] (freed p) (opened p)).

(** Where a thread stands: in [doh_query] (with [now] of [pool_get] and whether
    the connection is fresh) or in [dns_doh_drop_idle]. *)
Inductive doh_pc :=
| Q_GET (now : Z)
| Q_EXPIRED (now : Z) (c : pconn)
| Q_LOOP (c : option pconn) (fresh : bool)
| Q_BROKEN (c : pconn) (fresh : bool)
| Q_PUT (c : pconn) (r : transport_result)
| Q_FULL (c : pconn) (r : transport_result)
| Q_DONE (r : transport_result)
| Q_CRASHED
| D_TAKE
| D_FREE (drop : list pconn)
| D_DONE.

(** A thread: its query, its deadline, the requests made so far, each with the
    connection it was made on, as it was before. *)
Record doh_thread := mk_thread {
  th_query : list Z;
  th_deadline : Z;
  th_made : list pconn;
  th_pc : doh_pc
}.

Definition at_pc (t : doh_thread) (pc : doh_pc) : doh_thread :=
  mk_thread (th_query t) (th_deadline t) (th_made t) pc.

(** What [doh_query] returns for the value of [doh_request]. *)
Definition doh_result (n : Z) (reply : list Z) : transport_result :=
  if 0 <? n then TR_REPLY (bsub reply 0 n) else TR_ERROR.

(** One step of a thread at the time [now]; [open] is what [conn_open] gives
    and [reply] the caller's array. *)
Definition thread_step (host reply : list Z) (p : pool) (t : doh_thread) (now : Z)
    (open : option doh_conn) : pool * doh_thread :=
  match th_pc t with
  | Q_GET start =>
      match pool_get p start with
      | (GOT c, p) => (p, at_pc t (Q_LOOP (Some c) false))
      | (EXPIRED c, p) => (p, at_pc t (Q_EXPIRED start c))
      | (GOT_NONE, p) => (p, at_pc t (Q_LOOP None true))
      end
  | Q_EXPIRED start c => (conn_free p c, at_pc t (Q_GET start))
  | Q_LOOP None fresh =>
      match open with
      | None => (p, at_pc t (Q_DONE TR_TIMEOUT))
      | Some conn =>
          (mk_pool (idle p) (freed p) (opened p ++ [conn]),
           at_pc t (Q_LOOP (Some (mk_pconn (length (opened p)) conn)) fresh))
      end
  | Q_LOOP (Some c) fresh =>
      let t := mk_thread (th_query t) (th_deadline t) (th_made t ++ [c]) (th_pc t) in
      match doh_request (pc_conn c) host (th_query t) reply with
      | Ok (n, reply', conn) => (p, at_pc t (Q_PUT (mk_pconn (pc_id c) conn) (doh_result n reply')))
      | Err _ => (p, at_pc t (Q_BROKEN c fresh))
      | Fault => (p, at_pc t Q_CRASHED)
      end
  | Q_BROKEN c fresh =>
      (conn_free p c,
       at_pc t (if fresh || (th_deadline t <=? now) then Q_DONE TR_TIMEOUT else Q_LOOP None true))
  | Q_PUT c r =>
      let '(kept, p) := pool_put p c now in
      (p, at_pc t (if (kept : bool) then Q_DONE r else Q_FULL c r))
  | Q_FULL c r => (conn_free p c, at_pc t (Q_DONE r))
  | D_TAKE => let '(drop, p) := drop_idle p in (p, at_pc t (D_FREE drop))
  | D_FREE (c :: drop) => (conn_free p c, at_pc t (D_FREE drop))
  | D_FREE [] => (p, at_pc t D_DONE)
  | Q_DONE _ | Q_CRASHED | D_DONE => (p, t)
  end.

(** Any thread runs next. *)
Inductive doh_step (host reply : list Z) : pool * list doh_thread -> pool * list doh_thread -> Prop :=
| doh_run p ts i t now open p' t' :
    ts !! i = Some t -> thread_step host reply p t now open = (p', t') ->
    doh_step host reply (p, ts) (p', <[i := t']> ts).

(** *** Ownership *)

(** The connections a thread has in its hands. *)
Definition thread_conns (t : doh_thread) : list pconn :=
  match th_pc t with
  | Q_EXPIRED _ c | Q_LOOP (Some c) _ | Q_BROKEN c _ | Q_PUT c _ | Q_FULL c _ => [c]
  | D_FREE drop => drop
  | _ => []
  end.
Definition thread_ids (t : doh_thread) : list nat := map pc_id (thread_conns t).

Definition owned (p : pool) (ts : list doh_thread) : list nat :=
  map pc_id (idle p) ++ concat (map thread_ids ts) ++ freed p.

(** A connection between requests: since it was opened, each request on it was
    followed by reading its response, to its end. *)
Inductive conversed (host : list Z) (c0 : doh_conn) : doh_conn -> Prop :=
| cv_open : conversed host c0 c0
| cv_kept c now : conversed host c0 c -> conversed host c0 (mk_doh_conn now (dc_in c) (dc_wok c) (dc_sent c))
| cv_used c query reply text body n reply' c' :
    conversed host c0 c -> doh_answer c host query reply text body n reply' c' -> conversed host c0 c'.

Definition known (host : list Z) (os : list doh_conn) (c : pconn) : Prop :=
  exists c0, os !! pc_id c = Some c0 /\ conversed host c0 (pc_conn c).

(** A query is answered by the body of the response that the connection of its
    last request had next, a usable one. *)
Definition answers_query (host reply : list Z) (os : list doh_conn) (t : doh_thread) (body : list Z) : Prop :=
  exists c text reply' c', last (th_made t) = Some c /\ known host os c /\
    doh_answer (pc_conn c) host (th_query t) reply text body (zlen body) reply' c' /\
    http_status text = 200 /\ 12 <= zlen body.

(** Two requests at most, and the second one only on a fresh connection. *)
Record thread_ok (host reply : list Z) (os : list doh_conn) (t : doh_thread) : Prop := {
  tk_made :
    match th_pc t with
    | Q_GET _ | Q_EXPIRED _ _ => length (th_made t) = 0%nat
    | Q_LOOP None fresh => (length (th_made t) <= 1)%nat /\ fresh = true
    | Q_LOOP (Some _) fresh => (length (th_made t) <= if fresh then 1 else 0)%nat
    | Q_BROKEN _ fresh => (length (th_made t) <= if fresh then 2 else 1)%nat
    | _ => (length (th_made t) <= 2)%nat
    end;
  tk_safe : th_pc t <> Q_CRASHED;
  tk_known : Forall (known host os) (thread_conns t);
  tk_result :
    match th_pc t with
    | Q_PUT _ (TR_REPLY b) | Q_FULL _ (TR_REPLY b) | Q_DONE (TR_REPLY b) => answers_query host reply os t b
    | _ => True
    end
}.

Record pool_ok (host reply : list Z) (p : pool) (ts : list doh_thread) : Prop := {
  pk_owned : owned p ts ≡ₚ seq 0 (length (opened p));
  pk_idle : (length (idle p) <= DOH_POOL)%nat;
  pk_known : Forall (known host (opened p)) (idle p);
  pk_threads : Forall (thread_ok host reply (opened p)) ts
}.

(** Opening more connections changes nothing for the old ones. *)
Lemma known_more host os more c : known host os c -> known host (os ++ more) c.
Proof. intros (c0 & H & Hc). exists c0. split; [by apply lookup_app_l_Some|done]. Qed.
Lemma thread_ok_more host reply os more t : thread_ok host reply os t -> thread_ok host reply (os ++ more) t.
Proof.
  assert (Ha : forall b, answers_query host reply os t b -> answers_query host reply (os ++ more) t b).
  { intros b (c & text & reply' & c' & H1 & H2 & H3). exists c, text, reply', c'. split; [done|]. split; [by apply known_more|done]. }
  intros [Hm Hs Hk Hr]. split; [done|done| |].
  - eapply Forall_impl; [exact Hk|]. intros c. apply known_more.
  - destruct (th_pc t) as [| | | |? []|? []|[]| | | |]; auto.
Qed.

(** Permutations of concatenations, by counting. *)
Ltac perm_count :=
  apply (Permutation_count_occ Nat.eq_dec); let x := fresh "x" in intros x;
  repeat (rewrite count_occ_app || cbn [count_occ map app seq at_pc th_pc pc_id]);
  repeat match goal with |- context [Nat.eq_dec ?a ?b] => destruct (Nat.eq_dec a b) end; lia.

Lemma doh_result_answers host reply os q dl made pc c text body n reply' c' :
  known host os c -> doh_answer (pc_conn c) host q reply text body n reply' c' ->
  match doh_result n reply' with
  | TR_REPLY b => answers_query host reply os (mk_thread q dl (made ++ [c]) pc) b
  | _ => True
  end.
Proof.
  intros Hk H. pose proof (da_value _ _ _ _ _ _ _ _ _ H) as V. pose proof (da_reply _ _ _ _ _ _ _ _ _ H) as F.
  unfold doh_result. destruct (Z.ltb_spec 0 n) as [Hn|]; [|done].
  destruct ((http_status text =? 200) && (12 <=? zlen body)) eqn:E; [|lia].
  apply andb_prop in E as [Es E]. zbool. subst n. rewrite (filled_prefix _ _ _ F).
  exists c, text, reply', c'. cbn [th_made th_query]. rewrite last_snoc. done.
Qed.

Ltac step_ok :=
  cbn [idle freed opened conn_free th_pc pc_id]; rewrite ?app_nil_r, ?Nat.sub_diag;
  split; [cbn in *; lia|]; split; [|split; [split; cbn; first [done | lia | (split; [lia|done]) | auto]|unfold thread_ids; cbn [thread_conns at_pc th_pc map app]; perm_count]];
  auto.

(** What one step does to the connections in sight. *)
Lemma thread_step_ok host reply p t now open p' t' :
  zlen host < 128 -> thread_ok host reply (opened p) t -> (length (idle p) <= DOH_POOL)%nat ->
  Forall (known host (opened p)) (idle p) ->
  thread_step host reply p t now open = (p', t') ->
  exists more, opened p' = opened p ++ more /\ (length (idle p') <= DOH_POOL)%nat /\
  Forall (known host (opened p')) (idle p') /\ thread_ok host reply (opened p') t' /\
  map pc_id (idle p') ++ thread_ids t' ++ freed p' ≡ₚ
    map pc_id (idle p) ++ thread_ids t ++ freed p ++ seq (length (opened p)) (length more).
Proof.
  intros Hh [Hm Hs Hk Hr] Hi Hki. unfold thread_step. destruct t as [q dl made pc]. cbn [th_pc th_query th_deadline th_made thread_conns] in *.
  assert (Hone : forall c, known host (opened p) c -> Forall (known host (opened p)) [c]) by (intros c Hc; by constructor).
  destruct pc as [start|start c|[c|] fresh|c fresh|c r|c r|r| | |[|c drop]|]; cbn [at_pc th_pc th_query th_deadline th_made].
  - apply nil_length_inv in Hm as ->. unfold pool_get. destruct (idle p) as [|c rest] eqn:Ei; [|destruct (_ <? _)];
      intros [= <- <-]; exists []; cbn [opened]; (split; [by rewrite app_nil_r|]); rewrite ?Ei;
      try (inversion Hki; subst); step_ok.
  - intros [= <- <-]. exists []. cbn [conn_free opened]. split; [by rewrite app_nil_r|]. step_ok.
  - pose proof (doh_request_wp (pc_conn c) host q reply (http_request_fits _ _ Hh (zlen_nonneg q))) as W.
    inversion Hk as [|? ? Hc _]; subst.
    destruct (doh_request (pc_conn c) host q reply) as [[[n r] conn]|e|]; [| |done]; intros [= <- <-]; exists [];
      (split; [by rewrite app_nil_r|]).
    + destruct W as (text & body & W).
      assert (Hc' : known host (opened p) (mk_pconn (pc_id c) conn)).
      { destruct Hc as (c0 & Hc0 & Hcv). exists c0. split; [done|]. by eapply cv_used. }
      eapply (doh_result_answers host reply (opened p) q dl made (Q_PUT (mk_pconn (pc_id c) conn) (doh_result n r))) in W; [|exact Hc].
      assert (Hm' : (length (made ++ [c]) <= 2)%nat) by (rewrite length_app; cbn; destruct fresh; lia). step_ok.
    + assert (Hm' : (length (made ++ [c]) <= if fresh then 2 else 1)%nat) by (rewrite length_app; cbn; destruct fresh; lia). step_ok.
  - destruct Hm as [Hm ->]. destruct open as [conn|]; intros [= <- <-];
      [|exists []; split; [by rewrite app_nil_r|]; step_ok].
    exists [conn]. cbn [opened]. split; [done|]. cbn [length seq idle freed].
    split; [done|]. split; [eapply Forall_impl; [exact Hki|]; intros; by apply known_more|]. split.
    + split; cbn; [lia|done| |done]. constructor; [|constructor]. exists conn. cbn [pc_id pc_conn].
      split; [by apply list_lookup_middle|constructor].
    + unfold thread_ids. cbn [thread_conns at_pc th_pc map app]. perm_count.
  - intros [= <- <-]. exists []. cbn [conn_free opened]. split; [by rewrite app_nil_r|].
    destruct fresh; [|destruct (dl <=? now)]; cbn [orb]; step_ok.
  - inversion Hk as [|? ? Hc _]; subst. unfold pool_put. destruct (Nat.ltb_spec (length (idle p)) DOH_POOL) as [Hlt|Hge];
      intros [= <- <-]; exists []; (split; [by rewrite app_nil_r|]); step_ok.
    constructor; [|done]. destruct Hc as (c0 & Hc0 & Hcv). exists c0. split; [done|]. by constructor.
  - intros [= <- <-]. exists []. cbn [conn_free opened]. split; [by rewrite app_nil_r|]. step_ok.
  - intros [= <- <-]. exists []. split; [by rewrite app_nil_r|]. step_ok.
  - done.
  - intros [= <- <-]. exists []. split; [by rewrite app_nil_r|]. step_ok.
  - intros [= <- <-]. exists []. split; [by rewrite app_nil_r|]. step_ok.
  - intros [= <- <-]. exists []. cbn [conn_free opened]. split; [by rewrite app_nil_r|]. inversion Hk; subst. step_ok.
  - intros [= <- <-]. exists []. split; [by rewrite app_nil_r|]. step_ok.
Qed.

Lemma doh_step_ok host reply p ts p' ts' :
  zlen host < 128 -> pool_ok host reply p ts -> doh_step host reply (p, ts) (p', ts') -> pool_ok host reply p' ts'.
Proof.
  intros Hh [Ho Hi Hk Ht] H. inversion H as [? ? i t now open ? t' Hlk Hst]; subst.
  pose proof (Forall_lookup_1 _ _ _ _ Ht Hlk) as Hti.
  destruct (thread_step_ok _ _ _ _ _ _ _ _ Hh Hti Hi Hk Hst) as (more & Hop & Hi' & Hk' & Ht' & Hperm).
  assert (Hil : (i < length ts)%nat) by (by eapply lookup_lt_Some).
  assert (Hc : forall x, concat (map thread_ids (<[i := x]> ts)) ≡ₚ
    thread_ids x ++ concat (map thread_ids (take i ts ++ drop (S i) ts))).
  { intros x. rewrite insert_take_drop by done. rewrite !map_app, !concat_app. cbn [map concat].
    perm_count. }
  split; [|done|done|].
  2: { apply Forall_insert; [|done]. rewrite Hop. eapply Forall_impl; [exact Ht|]. intros x. apply thread_ok_more. }
  unfold owned in *. rewrite <- (list_insert_id ts i t Hlk), Hc in Ho. rewrite Hc.
  set (others := concat (map thread_ids (take i ts ++ drop (S i) ts))) in *.
  rewrite Hop, length_app, seq_app, <- Ho.
  cbn [Nat.add]. rewrite <- app_assoc, (Permutation_app_comm (thread_ids t')), <- !app_assoc.
  trans (others ++ (map pc_id (idle p') ++ thread_ids t' ++ freed p')); [perm_count|].
  rewrite Hperm. perm_count.
Qed.

Lemma no_ids ts : Forall (fun t => thread_ids t = []) ts -> concat (map thread_ids ts) = [].
Proof. intros H. induction H as [|t ts E _ IH]; [done|]. cbn [map concat]. by rewrite E. Qed.

(** A system of threads that have not started yet. *)
Definition starting (t : doh_thread) : Prop :=
  th_made t = [] /\ ((exists now, th_pc t = Q_GET now) \/ th_pc t = D_TAKE).

(** C40: pooled connections are never shared, lost or closed twice. Whatever
    the interleaving of any number of queries and of threads dropping the idle
    connections: every connection ever opened is in exactly one place, in the
    pool, in one thread's hands or closed, and once all threads have finished
    it is in the pool or closed; the pool never holds more than [DOH_POOL]; no
    query sends more than two requests; no access leaves a buffer; a connection
    is taken up again only where the response to its last request ended; and
    the message a query returns is the body, of at least twelve bytes and with
    status 200, of the response its own connection delivered next after the
    query's last request was written to it. *)
Theorem doh_pool_correct host reply ts p' ts' :
  zlen host < 128 -> Forall starting ts ->
  rtc (doh_step host reply) (mk_pool [] [] [], ts) (p', ts') ->
  (map pc_id (idle p') ++ concat (map thread_ids ts') ++ freed p' ≡ₚ seq 0 (length (opened p'))) /\
  (Forall (fun t => exists r, th_pc t = Q_DONE r \/ th_pc t = D_DONE) ts' ->
   map pc_id (idle p') ++ freed p' ≡ₚ seq 0 (length (opened p'))) /\
  (length (idle p') <= DOH_POOL)%nat /\ Forall (known host (opened p')) (idle p') /\
  Forall (fun t => (length (th_made t) <= 2)%nat /\ th_pc t <> Q_CRASHED /\
    forall b, th_pc t = Q_DONE (TR_REPLY b) -> answers_query host reply (opened p') t b) ts'.
Proof.
  intros Hh Hs Hr.
  assert (H0 : pool_ok host reply (mk_pool [] [] []) ts).
  { split; [|cbn; lia|constructor|].
    - unfold owned. cbn [idle freed opened map app seq length]. rewrite app_nil_r, no_ids; [done|].
      eapply Forall_impl; [exact Hs|]. unfold thread_ids, thread_conns. by intros t [_ [[now ->]| ->]].
    - eapply Forall_impl; [exact Hs|]. intros t [Hm [[now E]|E]]; split; unfold thread_conns; rewrite ?E, ?Hm; cbn; lia || done || constructor. }
  assert (H1 : forall st st', rtc (doh_step host reply) st st' -> pool_ok host reply st.1 st.2 -> pool_ok host reply st'.1 st'.2).
  { clear - Hh. intros st st' H. induction H as [|[p ts] [p1 ts1] st' Hst _ IH]; [done|].
    intros Hp. apply IH. by eapply doh_step_ok. }
  destruct (H1 _ _ Hr H0) as [Ho Hi Hk Ht]. cbn [fst snd] in *. split; [done|]. split; [|split; [done|split; [done|]]].
  - intros Hd. unfold owned in Ho. rewrite no_ids in Ho; [done|].
    eapply Forall_impl; [exact Hd|]. unfold thread_ids, thread_conns. by intros t [r [-> | ->]].
  - eapply Forall_impl; [exact Ht|]. intros t [Hm Hsafe _ Hres]. split; [|split; [done|]].
    + destruct (th_pc t) as [| |[] []|? []| | | | | | |]; lia.
    + intros b E. by rewrite E in Hres.
Qed.

(** A schedule: which thread runs, the time, and what opening gives. *)
Fixpoint run_schedule (host reply : list Z) (sched : list (nat * Z * option doh_conn))
    (st : pool * list doh_thread) : pool * list doh_thread :=
  match sched with
  | [] => st
  | (i, now, open) :: sched' =>
      match st.2 !! i with
      | None => run_schedule host reply sched' st
      | Some t =>
          let '(p', t') := thread_step host reply st.1 t now open in
          run_schedule host reply sched' (p', <[i := t']> st.2)
      end
  end.

Lemma run_schedule_steps host reply sched st :
  rtc (doh_step host reply) st (run_schedule host reply sched st).
Proof.
  revert st. induction sched as [|[[i now] open] sched IH]; intros [p ts]; cbn [run_schedule]; [done|].
  cbn [fst snd]. destruct (ts !! i) as [t|] eqn:E; [|apply IH].
  destruct (thread_step host reply p t now open) as [p' t'] eqn:Es.
  eapply rtc_l; [|apply IH]. by eapply doh_run.
Qed.

(** Two queries and a drop: the first query's connection is put back, taken by
    the second one, found closed, replaced, and the new one dropped. *)
Definition sample_threads : list doh_thread :=
  [mk_thread (repeat 0 12) 9000 [] (Q_GET 100); mk_thread (repeat 0 12) 9000 [] (Q_GET 200);
   mk_thread [] 0 [] D_TAKE].
Definition sample_schedule : list (nat * Z * option doh_conn) :=
  (map (fun i => (i, 300, Some sample_session)) [0; 0; 0; 0; 1; 1; 1; 1; 1; 1; 2; 2; 2]%nat).

Lemma doh_pool_correct_witness :
  let '(p, ts) := run_schedule (str "dns.google") (repeat 0 20) sample_schedule (mk_pool [] [] [], sample_threads) in
  map pc_id (idle p) ++ freed p ≡ₚ [0; 1]%nat /\
  map (fun t => length (th_made t)) ts = [1; 2; 0]%nat /\
  exists t, ts !! 1%nat = Some t /\ answers_query (str "dns.google") (repeat 0 20) (opened p) t sample_answer.
Proof.
  pose proof (run_schedule_steps (str "dns.google") (repeat 0 20) sample_schedule (mk_pool [] [] [], sample_threads)) as Hr.
  destruct (run_schedule _ _ _ _) as [p ts] eqn:E.
  assert (Hs : Forall starting sample_threads).
  { apply Forall_cons_2; [split; [done|left; by eexists]|].
    apply Forall_cons_2; [split; [done|left; by eexists]|].
    apply Forall_cons_2; [by split; [|right]|constructor]. }
  destruct (doh_pool_correct (str "dns.google") (repeat 0 20) _ p ts ltac:(done) Hs Hr) as (_ & H2 & _ & _ & H4).
  vm_compute in E. injection E as Ep Ets.
  assert (Hd : Forall (fun t => exists r, th_pc t = Q_DONE r \/ th_pc t = D_DONE) ts).
  { rewrite <- Ets. apply Forall_cons_2; [eexists; by left|]. apply Forall_cons_2; [eexists; by left|].
    apply Forall_cons_2; [exists TR_ERROR; by right|constructor]. }
  specialize (H2 Hd). split; [|split].
  - rewrite <- Ep in H2 |- *. exact H2.
  - by rewrite <- Ets.
  - rewrite Forall_lookup in H4. rewrite <- Ets in H4 |- *. eexists. split; [reflexivity|].
    apply (proj2 (proj2 (H4 1%nat _ eq_refl))). reflexivity.
Defined.
