(* ===== verification/Forward.v ===== *)
(** * The local DNS forwarder and the QUIC-reject set
    ([src/transparent/dnsfwd.c], [src/transparent/quic.c])

    One intercepted DNS query: it is sent on to the trusted resolver, with the
    network's own resolver as a fallback for what only it can answer, and the
    addresses of a known-blocked name are put into the QUIC-reject set before
    the answer goes out. Sockets, threads and the packet filter are outside:
    the two servers are arguments, the handed-over addresses a result. *)

From stdpp Require Import base list numbers strings option relations.
From Stdlib Require Import ZArith Lia.
From S2P Require Import Prelude Slots Text Strategy Policy Dns.

(** ** The QUIC-reject set *)

Definition QUIC_SEEN_MAX : Z := 512.
Definition TP_QUIC_BLOCK_TIMEOUT_S : Z := 3600.

Record quic_seen := mk_seen {
  seen_family : Z;
  seen_addr : list Z;
  added_at : Z
}.

Definition addr_len (family : Z) : Z := if family =? 6 then 16 else 4.

Definition same_addr (family : Z) (addr : list Z) (s : quic_seen) : bool :=
  (seen_family s =? family)
  && bool_decide (bsub (seen_addr s) 0 (addr_len family) = bsub addr 0 (addr_len family)).

(** Should the caller (re)add the address? *)
Definition note (seen : list quic_seen) (family : Z) (addr : list Z) (now : Z)
  : bool * list quic_seen :=
  match find_idx (same_addr family addr) seen ≫= fun i => (fun s => (i, s)) <$> seen !! i with
  | Some (i, s) =>
      if now - added_at s <? TP_QUIC_BLOCK_TIMEOUT_S / 2 then (false, seen)
      else (true, <[i := mk_seen (seen_family s) (seen_addr s) now]> seen)
  | None =>
      let s := mk_seen family (take 16 (bsub addr 0 (addr_len family) ++ replicate 16 0)) now in
      if zlen seen <? QUIC_SEEN_MAX then (true, seen ++ [s])
      else (true, <[first_min added_at seen := s]> seen)
  end.

(** The addresses handed to the platform layer, in order. *)
Fixpoint block_addrs (seen : list quic_seen) (l : list dns_addr) (now : Z)
  : list dns_addr * list quic_seen :=
  match l with
  | [] => ([], seen)
  | a :: l' =>
      let '(add, seen) := note seen (addr_family a) (addr_bytes a) now in
      let '(fresh, seen) := block_addrs seen l' now in
      (if (add : bool) then a :: fresh else fresh, seen)
  end.

Definition tpd_quic_block_answer (seen : list quic_seen) (ans : dns_answer) (now : Z)
  : list dns_addr * list quic_seen :=
  block_addrs seen (take (Z.to_nat DNS_MAX_ADDRS) (addrs ans)) now.

Definition tpd_quic_forget : list quic_seen := [].

(** ** The forwarder *)

Definition FWD_MSG_MAX : Z := 65535.

(** The state the forwarder works on, and what it hands out. *)
Record fwd := mk_fwd {
  fwd_dns : dns_resolver;
  fwd_seen : list quic_seen;
  fwd_blocked : list dns_addr;
  dns_queries : Z;
  dns_failures : Z
}.

Definition count (s : fwd) (ok : bool) : fwd :=
  mk_fwd (fwd_dns s) (fwd_seen s) (fwd_blocked s) (dns_queries s + 1)
    (if ok then dns_failures s else dns_failures s + 1).

Definition note_answer (s : fwd) (reply : list Z) (name : list Z) (qtype now : Z) : res unit fwd :=
  if (negb (qtype =? DNS_QTYPE_A) && negb (qtype =? DNS_QTYPE_AAAA))
     || negb (tp_host_listed name) || (zlen reply <? 2) then Ok s else
  id ← fetch16 reply 0;
  match dns_parse_response reply id name qtype with
  | Ok (DNS_OK, ans) =>
      let '(fresh, seen) := tpd_quic_block_answer (fwd_seen s) ans now in
      Ok (mk_fwd (fwd_dns s) seen (fwd_blocked s ++ fresh) (dns_queries s) (dns_failures s))
  | Fault => Fault
  | _ => Ok s
  end.

(** What the network's own resolver answers (plain UDP). *)
Definition original_server : Type := list Z -> transport_result.

(** [None] is the -1 return. *)
Definition ask_original (orig : original_server) (query : list Z) : res unit (option (list Z)) :=
  match orig query with
  | TR_REPLY reply =>
      if zlen reply <? 12 then Ok None else
      r0 ← fetch reply 0; q0 ← fetch query 0;
      r1 ← fetch reply 1; q1 ← fetch query 1;
      rcode ← dns_reply_rcode reply;
      if negb (r0 =? q0) || negb (r1 =? q1) || bool_decide (rcode = None) then Ok None
      else Ok (Some reply)
  | _ => Ok None
  end.

Section forward.
Context (transport : dns_transport) (orig : option original_server) (alloc : bool) (now : Z).

(** After the trusted servers were asked: does the network's resolver know
    better? *)
Definition resolve_fallback (f : original_server) (query : list Z) (n : option (list Z))
  : res unit (option (list Z)) :=
  rcode ← match n with Some reply => dns_reply_rcode reply | None => Ok None end;
  if bool_decide (is_Some n) && negb (bool_decide (rcode = Some 3)) then Ok n else
  if negb alloc then Ok n else
  m ← ask_original f query;
  match m with
  | None => Ok n
  | Some alt =>
      altrc ← dns_reply_rcode alt;
      altcnt ← dns_reply_answer_count alt;
      if bool_decide (n = None) || (bool_decide (altrc = Some 0) && (0 <? altcnt))
      then Ok (Some alt) else Ok n
  end.

(** The reply, or [None] when nobody answered. *)
Definition resolve (r : dns_resolver) (query name : list Z)
  : res unit (option (list Z) * dns_resolver) :=
  match orig with
  | Some f =>
      if dns_name_is_local name then
        n ← ask_original f query; Ok (n, r)
      else
      if tp_host_listed name then dns_exchange transport r query now else
      first ← (if negb (dns_resolver_healthy r now) then ask_original f query else Ok None);
      match first with
      | Some reply => Ok (Some reply, r)
      | None =>
          '(n, r) ← dns_exchange transport r query now;
          n ← resolve_fallback f query n;
          Ok (n, r)
      end
  | None => dns_exchange transport r query now
  end.

(** The reply sent to the client; [Err] is the 0 return (nothing is sent).
    A NUL inside a label ends the name for every reader of the array. *)
Definition answer (s : fwd) (query : list Z) (reply_size : Z) (udp : bool)
  : res unit (list Z * fwd) :=
  '(name, qtype, udp_size) ← dns_query_info query DNS_NAME_MAX;
  let name := cstr name in
  '(n, r) ← resolve (fwd_dns s) query name;
  let s := mk_fwd r (fwd_seen s) (fwd_blocked s) (dns_queries s) (dns_failures s) in
  let s := count s (bool_decide (is_Some n)) in
  match n with
  | None =>
      out ← dns_servfail_reply query reply_size;
      Ok (out, s)
  | Some reply =>
      s ← note_answer s reply name qtype now;
      if udp && (udp_size <? zlen reply) then
        out ← dns_truncated_reply query reply_size;
        Ok (out, s)
      else Ok (reply, s)
  end.
End forward.

(** ** The reject set *)

(** Was the address handed to the packet filter less than half the element
    timeout ago? *)
Definition noted (seen : list quic_seen) (now : Z) (a : dns_addr) : Prop :=
  exists s, s ∈ seen /\ same_addr (addr_family a) (addr_bytes a) s = true /\
    now - added_at s < TP_QUIC_BLOCK_TIMEOUT_S / 2.

Lemma note_false seen family addr now seen' :
  note seen family addr now = (false, seen') ->
  seen' = seen /\ noted seen now (mk_addr family addr).
Proof.
  unfold note. destruct (find_idx (same_addr family addr) seen) as [i|] eqn:E; cbn [mbind option_bind].
  - apply find_idx_Some in E as (s & Hs & Hf & _). rewrite Hs. cbn [fmap option_fmap option_map].
    destruct (Z.ltb_spec (now - added_at s) (TP_QUIC_BLOCK_TIMEOUT_S / 2)) as [Hlt|]; [|done].
    intros [= <-]. split; [done|]. exists s. split; [by eapply list_elem_of_lookup_2|done].
  - by destruct (zlen seen <? QUIC_SEEN_MAX).
Qed.

(** Same family and same address bytes. *)
Definition same_as (a b : dns_addr) : Prop :=
  addr_family a = addr_family b /\
  bsub (addr_bytes a) 0 (addr_len (addr_family b)) = bsub (addr_bytes b) 0 (addr_len (addr_family b)).

Lemma addr_len_range family : 4 <= addr_len family <= 16.
Proof. unfold addr_len. destruct (family =? 6); lia. Qed.

Lemma same_addr_true family addr s :
  same_addr family addr s = true <->
  seen_family s = family /\ bsub (seen_addr s) 0 (addr_len family) = bsub addr 0 (addr_len family).
Proof. unfold same_addr. by rewrite andb_true_iff, Z.eqb_eq, bool_decide_eq_true. Qed.

Lemma padded_prefix addr n :
  0 <= n <= 16 -> n <= zlen addr ->
  bsub (take 16 (bsub addr 0 n ++ replicate 16 0)) 0 n = bsub addr 0 n.
Proof.
  intros Hn Hl. assert (Hb : zlen (bsub addr 0 n) = n) by (apply zlen_bsub; lia).
  change (take 16 ?l) with (bsub l 0 16). rewrite bsub_bsub by lia. cbn [Z.add].
  rewrite bsub_app_l by lia. rewrite <- Hb at 2. apply bsub_all.
Qed.

(** An address found noted while an answer is processed was noted before it,
    or equals the address just handed over. *)
Lemma note_back seen family addr now seen' a :
  addr_len family <= zlen addr ->
  note seen family addr now = (true, seen') -> noted seen' now a ->
  noted seen now a \/ same_as a (mk_addr family addr).
Proof.
  intros Hlen Hnote (s & Hs & Hsame & Hrec). apply same_addr_true in Hsame as [Hf Hb].
  pose proof (addr_len_range family) as Hr. unfold note in Hnote.
  assert (Hnew : s = mk_seen family (take 16 (bsub addr 0 (addr_len family) ++ replicate 16 0)) now ->
            same_as a (mk_addr family addr)).
  { intros ->. cbn [seen_family seen_addr] in *. subst family. split; [done|].
    cbn [addr_family addr_bytes]. rewrite <- Hb. apply padded_prefix; lia. }
  assert (Hold : s ∈ seen -> noted seen now a).
  { intros Hin. exists s. split; [done|]. by rewrite same_addr_true. }
  destruct (find_idx (same_addr family addr) seen) as [i|] eqn:E; cbn [mbind option_bind] in Hnote.
  - apply find_idx_Some in E as (s0 & Hs0 & Hf0 & _). apply same_addr_true in Hf0 as [Hf0 Hb0].
    rewrite Hs0 in Hnote. cbn [fmap option_fmap option_map] in Hnote.
    destruct (now - added_at s0 <? _); [done|]. injection Hnote as <-.
    apply list_elem_of_lookup in Hs as [j Hj].
    apply list_lookup_insert_Some in Hj as [(_ & <- & _)|[_ Hj]].
    + right. cbn [seen_family seen_addr] in *. rewrite Hf0 in Hf. subst family. split; [done|].
      cbn [addr_family addr_bytes]. congruence.
    + left. apply Hold. by eapply list_elem_of_lookup_2.
  - destruct (zlen seen <? QUIC_SEEN_MAX); injection Hnote as <-.
    + apply elem_of_app in Hs as [Hs|Hs]; [left; auto|right].
      apply list_elem_of_singleton in Hs. auto.
    + apply list_elem_of_lookup in Hs as [j Hj].
      apply list_lookup_insert_Some in Hj as [(_ & <- & _)|[_ Hj]]; [right; auto|left].
      apply Hold. by eapply list_elem_of_lookup_2.
Qed.

Definition full_addrs (l : list dns_addr) : Prop := Forall (fun a => zlen (addr_bytes a) = 16) l.

Lemma block_addrs_cover seen l now fresh seen' :
  full_addrs l -> block_addrs seen l now = (fresh, seen') ->
  forall a, a ∈ l -> (exists b, b ∈ fresh /\ same_as a b) \/ noted seen now a.
Proof.
  intros Hl. revert seen fresh seen'. induction Hl as [|x l Hx Hl IH]; intros seen fresh seen' H a Ha.
  { by apply not_elem_of_nil in Ha. }
  cbn [block_addrs] in H. destruct (note seen (addr_family x) (addr_bytes x) now) as [add seen1] eqn:En.
  destruct (block_addrs seen1 l now) as [fresh1 seen2] eqn:Eb. injection H as <- <-.
  assert (Hlx : addr_len (addr_family x) <= zlen (addr_bytes x))
    by (pose proof (addr_len_range (addr_family x)); cbv beta in Hx; lia).
  apply elem_of_cons in Ha as [->|Ha].
  - destruct add.
    + left. exists x. split; [apply list_elem_of_here|done].
    + right. apply note_false in En as [_ Hn]. by destruct x.
  - destruct (IH seen1 fresh1 seen2 Eb a Ha) as [(b & Hb & Hab)|Hn].
    + left. exists b. split; [|done]. destruct add; [by apply list_elem_of_further|done].
    + destruct add.
      * apply (note_back _ _ _ _ _ a Hlx En) in Hn as [Hn|Hn]; [by right|left].
        exists x. split; [apply list_elem_of_here|]. by destruct x.
      * apply note_false in En as [-> _]. by right.
Qed.

(** ** One query *)

Definition bytes_original (f : original_server) : Prop :=
  forall q reply, f q = TR_REPLY reply -> message_ok reply.

Lemma dns_reply_rcode_wp pkt :
  wp (dns_reply_rcode pkt)
    (fun rc => rc <> None <-> 12 <= zlen pkt /\ Z.land (bget pkt 2) 128 <> 0) (fun _ => False).
Proof.
  unfold dns_reply_rcode. wp_step; [apply wp_ok; split; [done|lia]|]. apply wp_bind, wp_fetch; [lia|].
  wp_step; [apply wp_ok; split; [done|lia]|]. apply wp_bind, wp_fetch; [lia|]. apply wp_ok. done.
Qed.

Lemma ask_original_wp f query :
  bytes_ok query -> 12 <= zlen query -> bytes_original f ->
  wp (ask_original f query)
    (fun n => (forall reply, n = Some reply -> replies_to query reply /\ f query = TR_REPLY reply) /\
       (n = None -> forall reply, f query = TR_REPLY reply -> ~ replies_to query reply)) (fun _ => False).
Proof.
  intros Hbq Hq Hf. unfold ask_original. destruct (f query) as [| |reply] eqn:E; [by apply wp_ok..|].
  wp_step; [apply wp_ok; split; [done|]; intros _ ? [= <-] (? & _); lia|].
  do 4 (apply wp_bind, wp_fetch; [lia|]).
  apply wp_bind. eapply wp_mono; [| |apply dns_reply_rcode_wp]; [|done]. intros rc Hrc.
  wp_step.
  { apply wp_ok. split; [done|]. intros _ ? [= <-] (Hl & Hb & Hid & Hqr).
    match goal with H : _ || _ = true |- _ => rename H into Hc end. apply orb_true_iff in Hc as [Hc|Hc].
    - unfold bget16 in Hid. rewrite !be16_eq in Hid by (by apply bytes_ok_get).
      pose proof (bytes_ok_get reply 0 Hb). pose proof (bytes_ok_get reply 1 Hb).
      pose proof (bytes_ok_get query 0 Hbq). pose proof (bytes_ok_get query 1 Hbq).
      unfold is_u8 in *. change (0 + 1) with 1 in Hid. zbool. lia.
    - apply bool_decide_eq_true in Hc. by apply Hrc in Hc. }
  apply wp_ok. split; [|done]. intros reply' [= <-].
  match goal with H : bool_decide (rc = None) = false |- _ => apply bool_decide_eq_false in H; rename H into Hn end.
  destruct (Hf _ _ E) as [Hb Hmax]. split; [|done]. split; [lia|]. split; [done|]. split; [|by apply Hrc].
  by apply bget16_ext.
Qed.

Section forward_spec.
Context (transport : dns_transport) (orig : option original_server) (alloc : bool) (now : Z).
Hypothesis Ht : bytes_transport transport.
Hypothesis Ho : forall f, orig = Some f -> bytes_original f.

(** A reply with the query's id that one of the servers sent to the query: a
    trusted one, then it repeats the question, or the network's own. *)
Definition obtained (query reply : list Z) : Prop :=
  replies_to query reply /\
  (from_trusted transport query reply \/ exists f, orig = Some f /\ f query = TR_REPLY reply).

(** The network's own resolver sent no response with the query's id. *)
Definition silent (f : original_server) (query : list Z) : Prop :=
  forall reply, f query = TR_REPLY reply -> ~ replies_to query reply.

(** Nobody who was to be asked sent an answer: no trusted server, unless the
    name is local and the network's own resolver known; nor that resolver, when
    the name is local, or not a known-blocked one and there was memory to ask. *)
Definition nobody (r : dns_resolver) (query name : list Z) : Prop :=
  (dns_name_is_local name = false \/ orig = None -> unanswered transport query (seq 0 (length (health r)))) /\
  (forall f, orig = Some f -> dns_name_is_local name = true \/ (tp_host_listed name = false /\ alloc = true) ->
     silent f query).

Lemma resolve_fallback_wp f query n :
  bytes_ok query -> 12 <= zlen query -> orig = Some f -> bytes_original f ->
  (forall reply, n = Some reply -> obtained query reply) ->
  wp (resolve_fallback alloc f query n)
    (fun n' => (forall reply, n' = Some reply -> obtained query reply) /\
       (n' = None -> n = None /\ (alloc = true -> silent f query))) (fun _ => False).
Proof.
  intros Hb Hq Ef Hf Hn. unfold resolve_fallback. apply wp_bind.
  assert (Hrc : wp (match n with Some reply => dns_reply_rcode reply | None => Ok None end)
                  (fun _ => True) (fun _ : unit => False)).
  { destruct n as [reply|]; [|by apply wp_ok].
    eapply wp_mono; [| |apply dns_reply_rcode_wp]; done. }
  eapply wp_mono; [| |exact Hrc]; [|done]. intros rc _.
  wp_step.
  { apply wp_ok. split; [done|]. intros ->. done. }
  wp_step.
  { apply wp_ok. split; [done|]. intros ->. split; [done|]. intros ->. done. }
  apply wp_bind. eapply wp_mono; [| |by apply (ask_original_wp f query)]; [|done].
  intros [alt|] [Hm Hs]; [|apply wp_ok; split; [done|]; intros ->; split; [done|]; intros _; exact (Hs eq_refl)].
  apply wp_bind. eapply wp_mono; [| |apply dns_reply_rcode_wp]; [|done]. intros arc _.
  destruct (Hm alt eq_refl) as [Hrep Hfq]. pose proof Hrep as (Hl & _).
  assert (Halt : forall reply, Some alt = Some reply -> obtained query reply)
    by (intros ? [= <-]; split; [done|]; right; by exists f).
  apply wp_bind. unfold dns_reply_answer_count. wp_step; [lia|]. apply wp_fetch16; [lia|].
  wp_step; apply wp_ok; (split; [done|]); [done|]. intros ->. done.
Qed.

Lemma resolve_wp r query name :
  bytes_ok query -> 12 <= zlen query ->
  wp (resolve transport orig alloc now r query name)
    (fun '(n, _) => (forall reply, n = Some reply -> obtained query reply) /\ (n = None -> nobody r query name))
    (fun _ => False).
Proof.
  intros Hb Hq. unfold resolve, nobody.
  assert (Hex : wp (dns_exchange transport r query now)
    (fun '(n, _) => (forall reply, n = Some reply -> obtained query reply) /\
       (n = None -> unanswered transport query (seq 0 (length (health r))))) (fun _ => False)).
  { eapply wp_mono; [| |by apply dns_exchange_wp]; [|done]. intros [n r'] (H & Hu & _). split.
    - intros reply E. destruct (H reply E). split; [done|]. by left.
    - intros E x reply Hx. apply (Hu E). by rewrite (server_order_perm r now). }
  destruct orig as [f|] eqn:Ef.
  2: { eapply wp_mono; [| |exact Hex]; [|done]. intros [n r'] [H1 H2]. split; [done|]. intros E. split; [auto|done]. }
  pose proof (Ho f eq_refl) as Hf. rewrite <- Ef in *.
  assert (Hask : wp (ask_original f query) (fun n => (forall reply, n = Some reply -> obtained query reply) /\
    (n = None -> silent f query)) (fun _ => False)).
  { eapply wp_mono; [| |by apply (ask_original_wp f query)]; [|done]. intros n [Hn Hs]. split; [|done].
    intros reply E. destruct (Hn reply E). split; [done|]. right. by exists f. }
  wp_step.
  { apply wp_bind. eapply wp_mono; [| |exact Hask]; [|done]. intros n [Hn Hs]. apply wp_ok. split; [done|].
    intros E. split; [intros [?|?]; congruence|]. intros f' Ef' _. rewrite Ef in Ef'. injection Ef' as <-. exact (Hs E). }
  wp_step.
  { eapply wp_mono; [| |exact Hex]; [|done]. intros [n r'] [H1 H2]. split; [done|]. intros E. split; [auto|].
    intros f' _ [?|[? _]]; congruence. }
  apply wp_bind.
  assert (Hfirst : wp (if negb (dns_resolver_healthy r now) then ask_original f query else Ok None)
    (fun n => forall reply, n = Some reply -> obtained query reply) (fun _ => False)).
  { wp_step; [|by apply wp_ok]. eapply wp_mono; [| |exact Hask]; [|done]. by intros n [? _]. }
  eapply wp_mono; [| |exact Hfirst]; [|done]. intros [reply|] Hn.
  { apply wp_ok. split; [|done]. intros ? [= <-]. by apply Hn. }
  apply wp_bind. eapply wp_mono; [| |exact Hex]; [|done]. intros [n r'] [Hn1 Hn2].
  apply wp_bind. eapply wp_mono; [| |by apply (resolve_fallback_wp f query n)]; [|done].
  intros n' [Hm1 Hm2]. apply wp_ok. split; [done|]. intros E. destruct (Hm2 E) as [E1 Hs]. split; [auto|].
  intros f' Ef' [Hl|[_ Ha]]; [congruence|]. rewrite Ef in Ef'. injection Ef' as <-. exact (Hs Ha).
Qed.
End forward_spec.

Lemma from_record_full pkt qtype l :
  Forall (from_record pkt qtype) l -> full_addrs l.
Proof.
  intros H. apply (Forall_impl _ _ _ H). intros a (pos & n & _ & _ & _ & _ & _ & ->).
  unfold zlen. rewrite length_take, length_app, length_replicate. lia.
Qed.

(** The addresses the response parser takes from a reply, at most eight of them,
    are in the reject set. *)
Definition covered (s s' : fwd) (reply name : list Z) (qtype now : Z) : Prop :=
  forall ans, dns_parse_response reply (bget16 reply 0) name qtype = Ok (DNS_OK, ans) ->
    zlen (addrs ans) <= 8 /\
    forall a, a ∈ addrs ans ->
      (exists b, b ∈ fwd_blocked s' /\ same_as a b) \/ noted (fwd_seen s) now a.

Lemma note_answer_wp s reply name qtype now :
  bytes_ok reply -> 12 <= zlen reply ->
  wp (note_answer s reply name qtype now)
    (fun s' => fwd_dns s' = fwd_dns s /\ dns_queries s' = dns_queries s /\
       dns_failures s' = dns_failures s /\
       (tp_host_listed name = true -> qtype = DNS_QTYPE_A \/ qtype = DNS_QTYPE_AAAA ->
        covered s s' reply name qtype now) /\
       (Z.land (bget reply 2) 2 <> 0 -> fwd_blocked s' = fwd_blocked s)) (fun _ => False).
Proof.
  intros Hb Hl. unfold note_answer. wp_step.
  { apply wp_ok. split; [done|]. split; [done|]. split; [done|]. split; [|done]. intros Hlist Hq.
    exfalso. match goal with H : _ || _ = true |- _ => rename H into Hskip end.
    rewrite Hlist, (proj2 (Z.ltb_ge _ _)) in Hskip by lia.
    destruct Hq as [-> | ->]; done. }
  apply wp_bind, wp_fetch16; [lia|].
  pose proof (dns_parse_response_wp reply (bget16 reply 0) name qtype Hb) as Hw.
  unfold covered.
  destruct (dns_parse_response reply (bget16 reply 0) name qtype) as [[st ans]|e|]; [| |done].
  2: { by apply wp_ok. }
  destruct st; try (by apply wp_ok).
  unfold tpd_quic_block_answer. destruct Hw as [_ _ Hwhole _ [Hfrom Hcount _] _].
  rewrite take_ge by (unfold zlen, DNS_MAX_ADDRS in *; lia).
  destruct (block_addrs (fwd_seen s) (addrs ans) now) as [fresh seen] eqn:E. apply wp_ok.
  split; [done|]. split; [done|]. split; [done|]. split; [|done].
  intros _ _ ans' [= <-]. split; [exact Hcount|]. intros a Ha.
  destruct (block_addrs_cover _ _ _ _ _ (from_record_full _ _ _ Hfrom) E a Ha) as [(b & Hbb & Hab)|Hn];
    [left|by right].
  exists b. split; [|done]. cbn [fwd_blocked]. apply elem_of_app. by right.
Qed.

(** What goes out for the reply that was obtained, if any: the reply itself;
    the query's header and question, marked truncated, when it is too long for
    the client; or with SERVFAIL. *)
Definition sent_for (query : list Z) (udp : bool) (size : Z) (got : option (list Z)) (out : list Z) : Prop :=
  match got with
  | Some reply => if udp && (size <? zlen reply)
                  then exists ql, question_len query = Ok ql /\ echoes query out ql /\ Z.land (bget out 2) 2 <> 0
                  else out = reply
  | None => exists ql, question_len query = Ok ql /\ echoes query out ql /\ bget out 3 = 130
  end.

Lemma answer_wp transport orig alloc now s query udp array qtype size :
  bytes_transport transport -> (forall f, orig = Some f -> bytes_original f) -> bytes_ok query ->
  dns_query_info query DNS_NAME_MAX = Ok (array, qtype, size) ->
  let name := cstr array in
  wp (answer transport orig alloc now s query FWD_MSG_MAX udp)
    (fun '(out, s') => replies_to query out /\ (udp = true -> zlen out <= size) /\
      dns_queries s' = dns_queries s + 1 /\
      (exists got, sent_for query udp size got out /\
         dns_failures s' = dns_failures s + (match got with Some _ => 0 | None => 1 end) /\
         (got = None -> nobody transport orig alloc (fwd_dns s) query name) /\
         forall reply, got = Some reply -> obtained transport orig query reply /\
           (tp_host_listed name = true -> qtype = DNS_QTYPE_A \/ qtype = DNS_QTYPE_AAAA ->
            covered s s' reply name qtype now) /\
           (Z.land (bget reply 2) 2 <> 0 -> fwd_blocked s' = fwd_blocked s)) /\
      (dns_name_is_local name = true -> orig <> None -> fwd_dns s' = fwd_dns s)) (fun _ => False).
Proof.
  intros Ht Ho Hb Hinfo name.
  pose proof (dns_query_info_wp query Hb) as Hi. rewrite Hinfo in Hi.
  destruct Hi as (Hsz & ql & Hql & H5 & Hlen).
  unfold answer. rewrite Hinfo. cbn [mbind res_bind]. fold name.
  pose proof (resolve_wp transport orig alloc now Ht Ho (fwd_dns s) query name Hb ltac:(lia)) as Hres.
  assert (Hloc : forall n r, resolve transport orig alloc now (fwd_dns s) query name = Ok (n, r) ->
    dns_name_is_local name = true -> orig <> None -> r = fwd_dns s).
  { intros n r E Hl Hno. unfold resolve in E. destruct orig as [f|]; [|done]. rewrite Hl in E.
    destruct (ask_original f query); [|done|done]. cbn [mbind res_bind] in E. congruence. }
  destruct (resolve transport orig alloc now (fwd_dns s) query name) as [[n r]| |]; [|done|done].
  cbn [mbind res_bind]. specialize (Hloc n r eq_refl). destruct Hres as [Hres Hnone]. destruct n as [reply|].
  - pose proof (Hres reply eq_refl) as Hob. pose proof Hob as ((R1 & R2 & R3 & R4) & _).
    apply wp_bind. eapply wp_mono; [| |apply (note_answer_wp _ reply name qtype now R2 (proj1 R1))]; [|done].
    intros s' (N1 & N2 & N3 & N4 & N5). cbn [fwd_dns dns_queries dns_failures count] in *.
    assert (Hgot : forall reply', Some reply = Some reply' -> obtained transport orig query reply' /\
      (tp_host_listed name = true -> qtype = DNS_QTYPE_A \/ qtype = DNS_QTYPE_AAAA -> covered s s' reply' name qtype now) /\
      (Z.land (bget reply' 2) 2 <> 0 -> fwd_blocked s' = fwd_blocked s)) by (intros ? [= <-]; done).
    wp_step.
    + apply wp_bind. eapply wp_mono;
        [| |apply (dns_truncated_reply_wp query ql); unfold FWD_MSG_MAX; done || lia]; [|done].
      intros out (Hecho & Htc & _). pose proof Hecho as (E1 & E2 & E3 & E4 & E5). apply wp_ok.
      split; [split; [lia|done]|]. split; [intros; lia|]. split; [done|]. split.
      * exists (Some reply). split; [|split; [rewrite N3; cbn; lia|by split]]. unfold sent_for.
        destruct (udp && _) eqn:Eu; [by exists ql|]. apply andb_false_iff in Eu as [?|?%Z.ltb_ge]; [congruence|lia].
      * intros Hl Hno. rewrite N1. by apply Hloc.
    + apply wp_ok. split; [done|]. match goal with H : _ && _ = false |- _ => rename H into Hfit end. split.
      { intros ->. cbn [andb] in Hfit. zbool. lia. }
      split; [done|]. split; [|intros Hl Hno; rewrite N1; by apply Hloc].
      exists (Some reply). split; [|split; [rewrite N3; cbn; lia|by split]]. unfold sent_for. by rewrite Hfit.
  - apply wp_bind. eapply wp_mono;
      [| |apply (dns_servfail_reply_wp query ql); unfold FWD_MSG_MAX; done || lia]; [|done].
    intros out (Hecho & Hrc). pose proof Hecho as (E1 & E2 & E3 & E4 & E5). apply wp_ok. cbn [fwd_dns dns_queries count].
    split; [split; [lia|done]|]. split; [intros; lia|]. split; [done|]. split.
    + exists None. split; [by exists ql|]. split; [done|]. by split.
    + intros Hl Hno. by apply Hloc.
Qed.

(** C25: the forwarder answers every well-formed query, and never reads
    outside a packet. The reply has the query's id and, over UDP, is within the
    size the client announced. It is, unchanged, what a server sent to the
    client's own query: a trusted one, whose reply repeats the question, or the
    network's own resolver, of whose reply the id is checked; or, when that is
    too long for the client, the query's header and question marked truncated;
    or, only when nobody who was to be asked sent a useful reply ([nobody]), the
    same with SERVFAIL. It is counted once, and as a failure exactly then. When the name is known-blocked, every address
    the response parser takes from the server's reply (at most eight, none of a
    reply the server truncated) is in the QUIC-reject set before it is sent
    (handed over now, or less than half the element lifetime ago), and the
    network's own resolver plays no part: the outcome is the same whatever it
    would say. A local name, when that resolver is known, is asked there only:
    the trusted resolver is left untouched. *)
Theorem forwarder_answers transport orig alloc now s query udp array qtype size :
  bytes_transport transport -> (forall f, orig = Some f -> bytes_original f) -> bytes_ok query ->
  dns_query_info query DNS_NAME_MAX = Ok (array, qtype, size) ->
  let name := cstr array in
  exists out s' got,
    answer transport orig alloc now s query FWD_MSG_MAX udp = Ok (out, s') /\
    replies_to query out /\ (udp = true -> zlen out <= size) /\ sent_for query udp size got out /\
    dns_queries s' = dns_queries s + 1 /\ dns_failures s' = dns_failures s + (match got with Some _ => 0 | None => 1 end) /\
    (got = None -> nobody transport orig alloc (fwd_dns s) query name) /\
    (forall reply, got = Some reply -> obtained transport orig query reply /\
       (tp_host_listed name = true -> qtype = DNS_QTYPE_A \/ qtype = DNS_QTYPE_AAAA ->
        covered s s' reply name qtype now) /\
       (Z.land (bget reply 2) 2 <> 0 -> fwd_blocked s' = fwd_blocked s)) /\
    (tp_host_listed name = true -> dns_name_is_local name = false ->
     forall orig', answer transport orig' alloc now s query FWD_MSG_MAX udp = Ok (out, s')) /\
    (dns_name_is_local name = true -> orig <> None -> fwd_dns s' = fwd_dns s).
Proof.
  intros Ht Ho Hb Hinfo name.
  pose proof (answer_wp transport orig alloc now s query udp array qtype size Ht Ho Hb Hinfo) as Hw.
  destruct (answer transport orig alloc now s query FWD_MSG_MAX udp) as [[out s']| |] eqn:E; [|done|done].
  destruct Hw as (W1 & W2 & W3 & (got & W4 & W6 & W8 & W7) & W5). exists out, s', got.
  split; [done|]. split; [done|]. split; [done|]. split; [done|]. split; [done|]. split; [done|]. split; [done|]. split; [done|]. split; [|done].
  intros Hlist Hnl orig'. rewrite <- E. unfold answer. rewrite Hinfo. cbn [mbind res_bind]. fold name.
  assert (Hsame : forall o, resolve transport o alloc now (fwd_dns s) query name
                  = dns_exchange transport (fwd_dns s) query now).
  { intros [f|]; unfold resolve; [|done]. by rewrite Hnl, Hlist. }
  by rewrite !Hsame.
Qed.

Definition discord_query : list Z :=
  [18; 52; 1; 0; 0; 1; 0; 0; 0; 0; 0; 0; 7; 100; 105; 115; 99; 111; 114; 100; 2; 103; 103; 0; 0; 1; 0; 1].

Definition discord_reply : list Z :=
  [18; 52; 129; 128; 0; 1; 0; 1; 0; 0; 0; 0; 7; 100; 105; 115; 99; 111; 114; 100; 2; 103; 103; 0; 0; 1; 0; 1;
   192; 12; 0; 1; 0; 1; 0; 0; 0; 60; 0; 4; 162; 159; 130; 234].

Definition fresh_fwd : fwd := mk_fwd (dns_resolver_init 1 0) [] [] 0 0.

Lemma forwarder_answers_witness :
  exists out s',
    answer (fun _ _ => TR_REPLY discord_reply) (Some (fun _ => TR_TIMEOUT)) true 500 fresh_fwd
      discord_query FWD_MSG_MAX true = Ok (out, s') /\
    replies_to discord_query out /\ zlen out <= 512 /\ out = discord_reply /\
    exists b, b ∈ fwd_blocked s' /\ same_as (mk_addr 4 ([162; 159; 130; 234] ++ replicate 12 0)) b.
Proof.
  destruct (forwarder_answers (fun _ _ => TR_REPLY discord_reply) (Some (fun _ => TR_TIMEOUT)) true 500
    fresh_fwd discord_query true (str "discord.gg") 1 512) as (out & s' & got & E & Hr & Hl & Hs & _ & Hf & _ & Hg & _).
  - intros idx q reply [= <-]. split; [apply bytes_okb_ok; vm_compute; reflexivity|done].
  - intros f [= <-] q reply H. discriminate H.
  - apply bytes_okb_ok. vm_compute. reflexivity.
  - vm_compute. reflexivity.
  - assert (Hv : (answer (fun _ _ => TR_REPLY discord_reply) (Some (fun _ => TR_TIMEOUT)) true 500 fresh_fwd
      discord_query FWD_MSG_MAX true ≫= fun x => Ok (x.1, dns_failures x.2)) = Ok (discord_reply, 0)) by (vm_compute; reflexivity).
    rewrite E in Hv. cbn [mbind res_bind fst snd] in Hv. injection Hv as Ho Hz.
    exists out, s'. split; [exact E|]. split; [exact Hr|]. split; [by apply Hl|]. split; [exact Ho|].
    destruct got as [reply|]; [|rewrite Hz in Hf; discriminate Hf].
    destruct (Hg reply eq_refl) as ([_ [[[idx Hi] _]|(f & [= <-] & Hn)]] & Hc & _); [|discriminate Hn]. injection Hi as <-.
    destruct (Hc ltac:(vm_compute; reflexivity) ltac:(left; reflexivity)
      (mk_answer [mk_addr 4 ([162; 159; 130; 234] ++ replicate 12 0)] 60)) as [_ Ha]; [vm_compute; reflexivity|].
    destruct (Ha (mk_addr 4 ([162; 159; 130; 234] ++ replicate 12 0)) ltac:(left)) as [H|(x & Hx & _)]; [exact H|].
    inversion Hx.
Defined.
