(* ===== verification/Listener.v ===== *)
(** * The forwarder's listeners ([src/transparent/dnsfwd.c])

    Serving DNS queries over UDP and TCP with [answer] of the forwarder, and
    the limit on queries in flight. What a client's socket does is a list of
    events, as for the relay; a read that times out is an error event. *)

From stdpp Require Import base list numbers strings option relations.
From Stdlib Require Import ZArith Lia.
From S2P Require Import Prelude Dns Socket Forward.

(** ** Serving *)

(** One query from a TCP client: two bytes of length, then the message. *)
Definition read_query (rx : list rx_event) : option (list Z * list rx_event) :=
  match recv_exact rx 2 [] with
  | Ok (hdr, rx) =>
      let qlen := Z.lor (Z.shiftl (bget hdr 0) 8) (bget hdr 1) in
      if qlen <? 12 then None else
      match recv_exact rx qlen [] with
      | Ok (query, rx) => Some (query, rx)
      | _ => None
      end
  | _ => None
  end.

Section serve.
Context (transport : dns_transport) (orig : option original_server) (alloc : bool) (now : Z).

(** [udp_worker] on a datagram [udp_loop] accepts, or not: the reply sent. *)
Definition udp_serve (s : fwd) (datagram : list Z) : res unit (option (list Z) * fwd) :=
  let query := bsub datagram 0 4096 in
  if zlen query <? 12 then Ok (None, s) else
  match answer transport orig alloc now s query FWD_MSG_MAX true with
  | Fault => Fault
  | Err _ => Ok (None, s)
  | Ok (reply, s) => Ok (if 0 <? zlen reply then Some reply else None, s)
  end.

(** [tcp_worker]'s loop: what was written, the state, the queries read.
    [sends k] is what the sends of the [k]-th reply do. *)
Fixpoint tcp_serve (fuel : nat) (s : fwd) (rx : list rx_event) (sends : nat -> list tx_event) (k : nat)
  : res unit (list Z * fwd * list (list Z)) :=
  match fuel with
  | O => Fault
  | S fuel' =>
      match read_query rx with
      | None => Ok ([], s, [])
      | Some (query, rx) =>
          match answer transport orig alloc now s query FWD_MSG_MAX false with
          | Fault => Fault
          | Err _ => Ok ([], s, [])
          | Ok (reply, s) =>
              let n := zlen reply in
              if n =? 0 then Ok ([], s, [query]) else
              let '(ok, w) := relay_send_all (sends k)
                (u8 (Z.shiftr n 8) :: u8 (Z.land n 255) :: reply) in
              if (ok : bool) then
                '(out, s, qs) ← tcp_serve fuel' s rx sends (S k);
                Ok (w ++ out, s, query :: qs)
              else Ok (w, s, [query])
          end
      end
  end.
End serve.

(** ** Queries in flight *)

Definition FWD_MAX_INFLIGHT : Z := 128.

Definition take_slot (inflight : Z) : bool * Z :=
  if inflight <? FWD_MAX_INFLIGHT then (true, inflight + 1) else (false, inflight).
Definition give_slot (inflight : Z) : Z := inflight - 1.

(** The listeners and workers: a listener that took a slot starts a worker or
    gives the slot back; a worker gives it back when it ends. *)
Record slots := mk_slots { inflight : Z; starting_up : nat; working : nat }.

Inductive slot_step : slots -> slots -> Prop :=
| sl_take s n :
    take_slot (inflight s) = (true, n) -> slot_step s (mk_slots n (S (starting_up s)) (working s))
| sl_busy s n :
    take_slot (inflight s) = (false, n) -> slot_step s (mk_slots n (starting_up s) (working s))
| sl_start i k w : slot_step (mk_slots i (S k) w) (mk_slots i k (S w))
| sl_nothread i k w : slot_step (mk_slots i (S k) w) (mk_slots (give_slot i) k w)
| sl_end i k w : slot_step (mk_slots i k (S w)) (mk_slots (give_slot i) k w).

(** ** DNS over TCP *)

(** A message with its length in front (RFC 1035, 4.2.2). *)
Definition frame (m : list Z) : list Z := bytes16 (zlen m) ++ m.

(** A query [dns_query_info] can read. *)
Definition query_ok (q : list Z) : Prop :=
  12 <= zlen q <= 65535 /\ exists i, dns_query_info q DNS_NAME_MAX = Ok i.

Lemma be16_header hdr :
  zlen hdr = 2 -> bytes_ok hdr ->
  let qlen := Z.lor (Z.shiftl (bget hdr 0) 8) (bget hdr 1) in hdr = bytes16 qlen /\ is_u16 qlen.
Proof.
  intros Hl Hb. pose proof (bytes_ok_get hdr 0 Hb) as B0. pose proof (bytes_ok_get hdr 1 Hb) as B1.
  cbv zeta. change (Z.lor (Z.shiftl (bget hdr 0) 8) (bget hdr 1)) with (be16 (bget hdr 0) (bget hdr 1)).
  split; [|by apply be16_range]. rewrite be16_bytes16 by done.
  destruct hdr as [|x [|y [|z l]]]; try done. rewrite !zlen_cons in Hl. pose proof (zlen_nonneg l). lia.
Qed.

Lemma bytes16_inj a b : 0 <= a <= 65535 -> 0 <= b <= 65535 -> bytes16 b = bytes16 a -> a = b.
Proof.
  intros Ha Hb E. unfold bytes16 in E. injection E as E1 E2. pose proof (bytes16_be16 a) as A.
  pose proof (bytes16_be16 b) as B. unfold is_u16 in *. rewrite <- A, <- B, E1, E2 by lia. done.
Qed.

(** Reading one frame. *)
Lemma frame_inj q q' r r' :
  zlen q <= 65535 -> zlen q' <= 65535 -> frame q ++ r = frame q' ++ r' -> q = q' /\ r = r'.
Proof.
  intros Hq Hq' E. unfold frame in E. rewrite <- !app_assoc in E.
  pose proof (zlen_nonneg q). pose proof (zlen_nonneg q').
  apply app_inj_1 in E as [E1 E2]; [|done]. pose proof (bytes16_inj (zlen q') (zlen q) ltac:(lia) ltac:(lia) E1) as Hz.
  apply app_inj_1 in E2 as [-> ->]; [done|]. unfold zlen in Hz. lia.
Qed.

(** What is read is the first frame of the stream, however it is cut; nothing
    is read only if the stream does not start with one. *)
Lemma read_query_spec rx :
  bytes_ok (rx_bytes rx) ->
  match read_query rx with
  | Some (q, rx') => rx_bytes rx = frame q ++ rx_bytes rx' /\ 12 <= zlen q <= 65535
  | None => forall q rest, 12 <= zlen q <= 65535 -> rx_bytes rx <> frame q ++ rest
  end.
Proof.
  intros Hb. unfold read_query. pose proof (recv_exact_spec rx 2 [] ltac:(done)) as H2.
  destruct (recv_exact rx 2 []) as [[hdr rx1]|e|]; [| |done].
  2: { intros q rest Hq E. destruct H2 as [H2 _]. rewrite E in H2.
       unfold frame in H2. rewrite !zlen_app, zlen_bytes16 in H2. change (zlen (@nil Z)) with 0 in H2.
       pose proof (zlen_nonneg rest). lia. }
  destruct H2 as (Hh & E1 & _). cbn [app] in E1. rewrite E1 in Hb. apply Forall_app in Hb as [Bh Bx].
  destruct (be16_header hdr Hh Bh) as [Eh Hu]. cbv zeta in *.
  set (qlen := Z.lor (Z.shiftl (bget hdr 0) 8) (bget hdr 1)) in *. unfold is_u16 in Hu.
  assert (Hfr : forall q rest, 12 <= zlen q <= 65535 -> rx_bytes rx = frame q ++ rest ->
    zlen q = qlen /\ rx_bytes rx1 = q ++ rest).
  { intros q rest Hq E. rewrite E1, Eh in E. unfold frame in E. rewrite <- app_assoc in E.
    apply app_inj_1 in E as [E E']; [|done]. split; [|done]. by apply bytes16_inj; [lia..|]. }
  destruct (Z.ltb_spec qlen 12); [intros q rest Hq E; destruct (Hfr _ _ Hq E); lia|].
  pose proof (recv_exact_spec rx1 qlen []) as Hq. change (zlen (@nil Z)) with 0 in Hq. specialize (Hq ltac:(lia)).
  destruct (recv_exact rx1 qlen []) as [[query rx2]|e|]; [| |done].
  - destruct Hq as (Hql & E2 & _). cbn [app] in E2. split; [|lia].
    unfold frame. by rewrite E1, E2, Hql, Eh, <- app_assoc.
  - intros q rest Hqk E. destruct (Hfr _ _ Hqk E) as [Hl Er]. rewrite Er, zlen_app in Hq.
    pose proof (zlen_nonneg rest). lia.
Qed.

Section serve_spec.
Context (transport : dns_transport) (orig : option original_server) (alloc : bool) (now : Z).
Context (Ht : bytes_transport transport) (Ho : forall f, orig = Some f -> bytes_original f).
Context (sends : nat -> list tx_event).

Lemma answer_any s query udp :
  bytes_ok query ->
  wp (answer transport orig alloc now s query FWD_MSG_MAX udp)
    (fun '(out, s') => replies_to query out /\ dns_queries s' = dns_queries s + 1)
    (fun _ => ~ exists i, dns_query_info query DNS_NAME_MAX = Ok i).
Proof.
  intros Hb. pose proof (dns_query_info_wp query Hb) as Hi.
  destruct (dns_query_info query DNS_NAME_MAX) as [[[array qtype] size]|e|] eqn:E; [| |done].
  - eapply wp_mono; [| |by apply (answer_wp transport orig alloc now s query udp array qtype size)]; [|done].
    intros [out s'] (H1 & _ & H3 & _). done.
  - unfold answer. rewrite E. cbn [mbind res_bind]. apply wp_err. by intros [i ?].
Qed.

(** What a run of the loop does with the stream [input]. *)
Record served (s : fwd) (input out : list Z) (s' : fwd) (qs : list (list Z))
    (all_sent : Prop) : Prop := {
  sv_replies : exists rs rest, input = concat (map frame qs) ++ rest /\ Forall2 replies_to qs rs /\
    out `prefix_of` concat (map frame rs) /\ (all_sent -> out = concat (map frame rs));
  sv_count : dns_queries s' = dns_queries s + zlen qs;
  sv_all : all_sent -> forall qs', Forall query_ok qs' -> input = concat (map frame qs') -> qs = qs'
}.

(** Do all sends of frames go through? *)
Definition sends_ok : Prop :=
  forall k m, zlen m <= 65535 -> (relay_send_all (sends k) (frame m)).1 = true.

Lemma no_frame qs' input :
  Forall query_ok qs' -> input = concat (map frame qs') ->
  (forall q rest, query_ok q -> input = frame q ++ rest -> False) -> [] = qs'.
Proof.
  intros Hq -> H. destruct Hq as [|q qs' Hq _]; [done|]. exfalso. by eapply H.
Qed.

Lemma served_none s input : 
  (forall q rest, query_ok q -> input = frame q ++ rest -> False) ->
  forall b, served s input [] s [] b.
Proof.
  intros H b. split.
  - exists [], input. split; [done|]. split; [done|]. split; [apply prefix_nil|done].
  - change (zlen (@nil (list Z))) with 0. lia.
  - intros _ qs' Hq E. by eapply no_frame.
Qed.

Lemma tcp_serve_spec fuel s rx k (all_sent : Prop) :
  bytes_ok (rx_bytes rx) -> (length (rx_bytes rx) < fuel)%nat -> (all_sent -> sends_ok) ->
  wp (tcp_serve transport orig alloc now fuel s rx sends k)
    (fun '(out, s', qs) => served s (rx_bytes rx) out s' qs all_sent) (fun _ : unit => False).
Proof.
  revert s rx k. induction fuel as [|fuel IH]; intros s rx k Hb Hf Hs; [lia|]. cbn [tcp_serve].
  pose proof (read_query_spec rx Hb) as Hr. destruct (read_query rx) as [[query rx2]|].
  2: { apply wp_ok, served_none. intros q rest [Hq _] E. by apply (Hr q rest). }
  destruct Hr as [Einput Hql].
  assert (Bq : bytes_ok query /\ bytes_ok (rx_bytes rx2)).
  { rewrite Einput in Hb. apply Forall_app in Hb as [[_ Bq]%Forall_app B2]. done. }
  destruct Bq as [Bq B2]. pose proof (answer_any s query false Bq) as W.
  destruct (answer transport orig alloc now s query FWD_MSG_MAX false) as [[reply s1]|e|]; [| |done].
  2: { apply wp_ok, served_none. intros q rest [Hl Hi] E. rewrite Einput in E.
       apply frame_inj in E as [-> _]; [|lia..]. by apply W. }
  destruct W as [Hrep Hcnt]. pose proof Hrep as ([R1 R2] & _).
  rewrite (proj2 (Z.eqb_neq (zlen reply) 0)) by lia.
  assert (Ef : u8 (Z.shiftr (zlen reply) 8) :: u8 (Z.land (zlen reply) 255) :: reply = frame reply).
  { unfold frame, bytes16. by rewrite land_255, u8_u8. }
  rewrite Ef. pose proof (relay_send_all_spec (sends k) (frame reply)) as Hsend.
  pose proof (fun Hok => Hs Hok k reply R2) as Hall.
  destruct (relay_send_all (sends k) (frame reply)) as [ok w] eqn:Es. destruct Hsend as [Hp Hw].
  destruct ok.
  - rewrite (Hw eq_refl). apply wp_bind. assert (Hlen : (length (rx_bytes rx2) < fuel)%nat).
    { rewrite Einput in Hf. unfold frame in Hf. rewrite !length_app in Hf. change (length (bytes16 (zlen query))) with 2%nat in Hf. lia. }
    eapply wp_mono; [| |apply (IH s1 rx2 (S k) B2 Hlen Hs)]; [|done].
    intros [[out s'] qs] [(rs & rest & I1 & I2 & I3 & I4) I5 I6]. apply wp_ok. split.
    + exists (reply :: rs), rest. cbn [map concat]. rewrite Einput, I1, <- app_assoc. split; [done|].
      split; [by constructor|]. split; [by apply prefix_app|]. intros Hok. by rewrite I4.
    + rewrite zlen_cons. lia.
    + intros Hok qs' Hqs' E. rewrite Einput in E. destruct Hqs' as [|q qs' Hq Hqs'].
      { apply (f_equal zlen) in E. cbn [map concat] in E. unfold frame in E. rewrite !zlen_app, zlen_bytes16 in E.
        change (zlen (@nil Z)) with 0 in E. pose proof (zlen_nonneg (rx_bytes rx2)). lia. }
      cbn [map concat] in E. destruct Hq as [Hq _]. apply frame_inj in E as [-> E]; [|lia..]. f_equal. by apply I6.
  - apply wp_ok. split.
    + exists [reply], (rx_bytes rx2). cbn [map concat]. rewrite !app_nil_r. split; [done|].
      split; [by constructor|]. split; [done|]. intros Hok. by specialize (Hall Hok).
    + change (zlen [query]) with 1. lia.
    + intros Hok. by specialize (Hall Hok).
Qed.
End serve_spec.

(** A TCP client gets its answers in order. The worker serves the frames
    at the start of the client's stream, however it is segmented, and ends;
    what it writes is the framed replies of exactly those queries, in order,
    each of them a reply to its query (only the last one can be cut short, by
    a failed write), and each query is counted once. A client that sends only
    well-formed queries and takes the replies has all of them answered. *)
Theorem tcp_serve_correct transport orig alloc now s rx sends :
  bytes_transport transport -> (forall f, orig = Some f -> bytes_original f) ->
  bytes_ok (rx_bytes rx) ->
  exists out s' qs rs rest,
    tcp_serve transport orig alloc now (S (length (rx_bytes rx))) s rx sends 0 = Ok (out, s', qs) /\
    rx_bytes rx = concat (map frame qs) ++ rest /\ Forall2 replies_to qs rs /\
    out `prefix_of` concat (map frame rs) /\ dns_queries s' = dns_queries s + zlen qs /\
    (sends_ok sends -> out = concat (map frame rs) /\
     forall qs', Forall query_ok qs' -> rx_bytes rx = concat (map frame qs') -> qs = qs').
Proof.
  intros Ht Ho Hb.
  pose proof (tcp_serve_spec transport orig alloc now Ht Ho sends (S (length (rx_bytes rx))) s rx 0
    (sends_ok sends) Hb ltac:(lia) ltac:(done)) as W.
  destruct (tcp_serve _ _ _ _ _ _ _ _ _) as [[[out s'] qs]| |]; [|done|done].
  destruct W as [(rs & rest & E1 & E2 & E3 & E4) E5 E6]. exists out, s', qs, rs, rest.
  do 5 (split; [done|]). intros Hs. split; [by apply E4|by apply E6].
Qed.

(** Two queries in one stream cut in odd places. *)
Lemma tcp_serve_correct_witness :
  let stream := frame discord_query ++ frame discord_query in
  let rx := [RX_DATA (bsub stream 0 1); RX_INTR; RX_DATA (bsub stream 1 40); RX_DATA (bfrom stream 41)] in
  exists out s' rs,
    tcp_serve (fun _ _ => TR_REPLY discord_reply) None true 500 (S (length (rx_bytes rx))) fresh_fwd rx
      (fun _ => [TX_SENT 1; TX_INTR; TX_SENT 65537]) 0 = Ok (out, s', [discord_query; discord_query]) /\
    out = concat (map frame rs) /\ Forall2 replies_to [discord_query; discord_query] rs.
Proof.
  intros stream rx.
  destruct (tcp_serve_correct (fun _ _ => TR_REPLY discord_reply) None true 500 fresh_fwd rx
    (fun _ => [TX_SENT 1; TX_INTR; TX_SENT 65537])) as (out & s' & qs & rs & rest & E & _ & Hrep & _ & _ & Hall).
  - intros idx q reply [= <-]. split; [apply bytes_okb_ok; vm_compute; reflexivity|done].
  - done.
  - apply bytes_okb_ok. vm_compute. reflexivity.
  - destruct Hall as [Ho Hq].
    { intros k m Hm. assert (Hf : bsub (bfrom (frame m) 1) 0 65537 = bfrom (frame m) 1 /\
        bfrom (bfrom (frame m) 1) 65537 = []).
      { assert (Hl : (length (bfrom (frame m) 1) <= Z.to_nat 65537)%nat).
        { pose proof (zlen_bfrom (frame m) 1 ltac:(lia)) as Hz. unfold frame in Hz at 2.
          rewrite zlen_app, zlen_bytes16 in Hz. unfold zlen in *. lia. }
        split; [|by apply drop_ge]. unfold bsub. change (Z.to_nat 0) with 0%nat. by rewrite drop_0, take_ge. }
      destruct Hf as [Hf1 Hf2]. destruct (frame m) as [|x l] eqn:Ef; [done|]. cbn [relay_send_all].
      change (1 <=? 0) with false. cbv iota. change (bfrom (x :: l) 1) with l in *.
      destruct l as [|y l]; [done|]. change (65537 <=? 0) with false. cbv iota. rewrite Hf2. done. }
    assert (Eq : qs = [discord_query; discord_query]).
    { apply Hq; [|vm_compute; reflexivity].
      assert (Hk : query_ok discord_query) by (split; [vm_compute; split; discriminate|eexists; vm_compute; reflexivity]).
      apply Forall_cons_2; [done|]. apply Forall_cons_2; [done|]. constructor. }
    subst qs. exists out, s', rs. split; [exact E|]. split; [exact Ho|exact Hrep].
Defined.

(** ** UDP *)

(** A datagram that holds a query is answered, within the size the client
    announced; any other datagram is dropped. *)
Lemma udp_serve_wp transport orig alloc now s datagram :
  bytes_transport transport -> (forall f, orig = Some f -> bytes_original f) -> bytes_ok datagram ->
  let query := bsub datagram 0 4096 in
  wp (udp_serve transport orig alloc now s datagram)
    (fun '(out, s') =>
       match out with
       | Some reply => 12 <= zlen query /\ replies_to query reply /\
           forall array qtype size, dns_query_info query DNS_NAME_MAX = Ok (array, qtype, size) ->
             zlen reply <= size
       | None => s' = s /\ ~ query_ok query
       end)
    (fun _ => False).
Proof.
  intros Ht Ho Hb query. unfold udp_serve. fold query. wp_step.
  { apply wp_ok. split; [done|]. intros [Hq _]. lia. }
  assert (Bq : bytes_ok query) by (by apply bytes_ok_bsub).
  pose proof (dns_query_info_wp query Bq) as Hi.
  destruct (dns_query_info query DNS_NAME_MAX) as [[[array qtype] size]|e|] eqn:E; [| |done].
  - pose proof (answer_wp transport orig alloc now s query true array qtype size Ht Ho Bq E) as W.
    destruct (answer _ _ _ _ _ _ _ _) as [[reply s']|e|]; [|done|done]. destruct W as (W1 & W2 & _).
    apply wp_ok. destruct W1 as (Wl & W1). rewrite (proj2 (Z.ltb_lt 0 (zlen reply))) by lia.
    split; [lia|]. split; [done|]. intros ? ? ? [= <- <- <-]. by apply W2.
  - unfold answer. rewrite E. cbn [mbind res_bind]. apply wp_ok. split; [done|]. intros [_ [i Hi']]. congruence.
Qed.

(** ** The limit *)

Definition slots_ok (s : slots) : Prop :=
  inflight s = Z.of_nat (starting_up s + working s) /\ inflight s <= FWD_MAX_INFLIGHT.

(** However the listeners and the workers interleave, the counter is the
    number of queries being started or served, never negative and never above
    [FWD_MAX_INFLIGHT]; and while there is room a new query is always let in. *)
Theorem slots_bounded s :
  rtc slot_step (mk_slots 0 0 0) s ->
  slots_ok s /\ 0 <= inflight s /\
  (Z.of_nat (starting_up s + working s) < FWD_MAX_INFLIGHT <-> fst (take_slot (inflight s)) = true).
Proof.
  intros H. assert (Hok : slots_ok s).
  { assert (H0 : slots_ok (mk_slots 0 0 0)) by done. revert H0.
    induction H as [|x y z Hst _ IH]; [done|]. intros [Hx1 Hx2]. apply IH. clear IH. unfold slots_ok, give_slot in *.
    inversion Hst as [u n Hs|u n Hs|i k w|i k w|i k w]; subst; cbn [inflight starting_up working] in *;
      unfold give_slot; try lia;
      unfold take_slot in Hs; destruct (Z.ltb_spec (inflight x) FWD_MAX_INFLIGHT); try done;
      injection Hs as <-; lia. }
  split; [done|]. destruct Hok as [E Hle]. split; [lia|]. rewrite <- E. unfold take_slot.
  destruct (Z.ltb_spec (inflight s) FWD_MAX_INFLIGHT); cbn [fst]; split; done || lia.
Qed.

Lemma slots_bounded_witness : slots_ok (mk_slots 1 0 1) /\ fst (take_slot 1) = true.
Proof.
  destruct (slots_bounded (mk_slots 1 0 1)) as (H1 & _ & H3).
  - eapply rtc_l; [apply sl_take; reflexivity|]. eapply rtc_l; [apply sl_start|]. apply rtc_refl.
  - split; [exact H1|]. by apply H3.
Defined.
