(* ===== verification/Accept.v ===== *)
(** * Accept loops ([src/socks.c], [src/transparent/dnsfwd.c])

    [run_socks_server] from its socket to its loop, and the two loops of the DNS
    forwarder. A loop is given what the system does in each turn; what it does
    with descriptors, memory and slots is the list of its actions. *)

From stdpp Require Import base list numbers strings option.
From Stdlib Require Import ZArith Lia.
From S2P Require Import Prelude Text Doh Listener.

(** A descriptor that was accepted is handed to a thread or closed. *)
Inductive fd_act := ACCEPTED (fd : Z) | HANDED (fd : Z) | CLOSED (fd : Z).

(** ** SOCKS mode *)

Inductive accept_event :=
| ACC_FD (fd : Z) (memory thread : bool)
| ACC_INTR
| ACC_FAILED.

(** [true]: the loop has ended. *)
Fixpoint socks_loop (evs : list accept_event) : list fd_act * bool :=
  match evs with
  | [] => ([], false)
  | ACC_INTR :: evs => socks_loop evs
  | ACC_FAILED :: _ => ([], true)
  | ACC_FD fd memory thread :: evs =>
      let '(acts, ended) := socks_loop evs in
      ((if negb memory then [ACCEPTED fd; CLOSED fd]
        else if negb thread then [ACCEPTED fd; CLOSED fd] else [ACCEPTED fd; HANDED fd]) ++ acts, ended)
  end.

(** The listening socket: where it is bound, and whether it is closed. *)
Record socks_run := mk_srun { sr_bound : option (list Z * Z); sr_acts : list fd_act; sr_closed : bool; sr_rc : option Z }.

(** [sock], [bind] and [listen] are the results of the calls. *)
Definition run_socks_server (host : option (list Z)) (port : Z) (sock bind listen : bool) (evs : list accept_event)
  : socks_run :=
  if negb sock then mk_srun None [] false (Some (-1)) else
  match (match host with None => Some [127; 0; 0; 1] | Some h => inet_pton4 h end) with
  | None => mk_srun None [] true (Some (-1))
  | Some addr =>
      if negb bind then mk_srun None [] true (Some (-1)) else
      if negb listen then mk_srun (Some (addr, u16 port)) [] true (Some (-1)) else
      let '(acts, ended) := socks_loop evs in
      mk_srun (Some (addr, u16 port)) acts ended (if ended then Some (-1) else None)
  end.

(** ** The forwarder *)

(** One turn of [tcp_loop]: the descriptor ([None]: accept failed), whether
    [getpeername] and [tpp_dns_peer_ok] accept its peer and a thread starts, and
    how many workers end before the turn asks for a slot. *)
Record tcp_turn := mk_tturn { tt_fd : option Z; tt_peer : bool; tt_thread : bool; tt_ended : nat }.

(** Workers running and slots taken. *)
Record worker_pool := mk_pool { po_workers : nat; po_inflight : Z }.

Definition end_workers (n : nat) (p : worker_pool) : worker_pool :=
  let n := Nat.min n (po_workers p) in
  mk_pool (po_workers p - n) (Nat.iter n give_slot (po_inflight p)).

(** Takes a slot and starts a worker, or gives the slot back. *)
Definition start_worker (thread : bool) (p : worker_pool) : worker_pool * bool :=
  match take_slot (po_inflight p) with
  | (false, n) => (mk_pool (po_workers p) n, false)
  | (true, n) => if thread then (mk_pool (S (po_workers p)) n, true) else (mk_pool (po_workers p) (give_slot n), false)
  end.

Fixpoint tcp_loop (turns : list tcp_turn) (p : worker_pool) : list fd_act * worker_pool :=
  match turns with
  | [] => ([], p)
  | t :: turns =>
      let p := end_workers (tt_ended t) p in
      match tt_fd t with
      | None => tcp_loop turns p
      | Some fd =>
          let '(p, handed) := if negb (tt_peer t) then (p, false) else start_worker (tt_thread t) p in
          let '(acts, p) := tcp_loop turns p in
          ([ACCEPTED fd; if handed then HANDED fd else CLOSED fd] ++ acts, p)
      end
  end.

(** One turn of [udp_loop]: memory for a job, the datagram ([None]: recvfrom
    failed), whether its sender is accepted, the thread, and workers that end. *)
Record udp_turn := mk_uturn {
  ut_memory : bool; ut_datagram : option (list Z); ut_peer : bool; ut_thread : bool; ut_ended : nat
}.

(** Allocated, freed and handed over: [JOB_SERVED] carries the query. *)
Inductive job_act := JOB_NEW | JOB_FREED | JOB_SERVED (query : list Z).

Fixpoint udp_loop (turns : list udp_turn) (p : worker_pool) : list job_act * worker_pool :=
  match turns with
  | [] => ([], p)
  | t :: turns =>
      let p := end_workers (ut_ended t) p in
      if negb (ut_memory t) then udp_loop turns p else
      let query := bsub (default [] (ut_datagram t)) 0 4096 in
      let '(p, handed) :=
        if (zlen query <? 12) || negb (ut_peer t) then (p, false) else start_worker (ut_thread t) p in
      let '(acts, p) := udp_loop turns p in
      ([JOB_NEW; if handed then JOB_SERVED query else JOB_FREED] ++ acts, p)
  end.

(** ** Correctness *)

(** Each descriptor is accepted and at once handed over or closed. *)
Inductive disposed : list fd_act -> Prop :=
| disposed_nil : disposed []
| disposed_handed fd acts : disposed acts -> disposed ([ACCEPTED fd; HANDED fd] ++ acts)
| disposed_closed fd acts : disposed acts -> disposed ([ACCEPTED fd; CLOSED fd] ++ acts).

Lemma socks_loop_disposed evs : disposed (socks_loop evs).1.
Proof.
  induction evs as [|[fd m t| |] evs IH]; cbn [socks_loop]; [constructor| |exact IH|constructor].
  destruct (socks_loop evs) as [acts e]. cbn [fst] in *. destruct m, t; cbn [negb]; by constructor.
Qed.

(** It is bound to loopback unless another address is given, its descriptors
    are disposed of, and it only returns with its socket closed. *)
Theorem run_socks_server_correct host port sock bind listen evs :
  let r := run_socks_server host port sock bind listen evs in
  disposed (sr_acts r) /\ (sr_rc r = None \/ sr_rc r = Some (-1)) /\
  (sock = true -> sr_closed r = bool_decide (sr_rc r <> None)) /\
  (forall a p, sr_bound r = Some (a, p) -> p = u16 port /\ (host = None -> a = [127; 0; 0; 1]) /\
     (forall h, host = Some h -> inet_pton4 h = Some a)).
Proof.
  cbv zeta. unfold run_socks_server. destruct sock; cbn [negb]; [|split_and!; [constructor|by right|done|done]].
  assert (Ha : forall addr, (match host with None => Some [127; 0; 0; 1] | Some h => inet_pton4 h end) = Some addr ->
    (host = None -> addr = [127; 0; 0; 1]) /\ (forall h, host = Some h -> inet_pton4 h = Some addr)).
  { intros addr E. destruct host as [h|]; split; [done|intros h' [= <-]; exact E|intros _; congruence|done]. }
  destruct (match host with None => Some [127; 0; 0; 1] | Some h => inet_pton4 h end) as [addr|];
    [|split_and!; [constructor|by right|done|done]].
  specialize (Ha addr eq_refl). destruct bind; cbn [negb]; [|split_and!; [constructor|by right|done|done]].
  destruct listen; cbn [negb]; [|split_and!; [constructor|by right|done|by intros a p [= <- <-]]].
  pose proof (socks_loop_disposed evs) as H. destruct (socks_loop evs) as [acts [|]]; cbn [fst] in H;
    (split_and!; [exact H|by auto|done|by intros a p [= <- <-]]).
Qed.

(** The slots taken are the workers running, never more than allowed. *)
Definition workers_ok (p : worker_pool) : Prop := po_inflight p = Z.of_nat (po_workers p) /\ po_inflight p <= FWD_MAX_INFLIGHT.

Lemma end_workers_ok n p : workers_ok p -> workers_ok (end_workers n p).
Proof.
  intros [E H]. unfold workers_ok, end_workers. cbn [po_workers po_inflight]. set (k := Nat.min n (po_workers p)).
  assert (Hk : (k <= po_workers p)%nat) by lia. clearbody k.
  assert (Hg : forall x, Nat.iter k give_slot x = x - Z.of_nat k).
  { clear. induction k as [|k IH]; intros x; [cbn; lia|]. cbn [Nat.iter nat_rect]. unfold Nat.iter in IH. rewrite IH.
    unfold give_slot. lia. }
  rewrite Hg. lia.
Qed.

Lemma start_worker_ok thread p : workers_ok p -> workers_ok (start_worker thread p).1.
Proof.
  intros [E H]. unfold start_worker, take_slot, workers_ok. destruct (Z.ltb_spec (po_inflight p) FWD_MAX_INFLIGHT); [|done].
  destruct thread; cbn [fst po_inflight po_workers]; unfold give_slot; lia.
Qed.

(** However the turns go and the workers end, every connection is served or
    closed, and no slot is lost. *)
Theorem tcp_loop_correct turns p : workers_ok p -> disposed (tcp_loop turns p).1 /\ workers_ok (tcp_loop turns p).2.
Proof.
  revert p. induction turns as [|t turns IH]; intros p Hp; [split; [constructor|done]|]. cbn [tcp_loop].
  apply (end_workers_ok (tt_ended t)) in Hp. set (p1 := end_workers _ p) in *. clearbody p1.
  destruct (tt_fd t) as [fd|]; [|by apply IH].
  set (x := if negb (tt_peer t) then (p1, false) else start_worker (tt_thread t) p1).
  assert (Hx : workers_ok x.1) by (unfold x; destruct (negb _); [done|by apply start_worker_ok]). clearbody x.
  destruct x as [p2 handed]. cbn [fst] in Hx. destruct (IH p2 Hx) as [H1 H2].
  destruct (tcp_loop turns p2) as [acts p3]. cbn [fst snd] in *. split; [|done]. destruct handed; by constructor.
Qed.

(** Every job is served or freed, and a job that is served has a whole header. *)
Inductive jobs_done : list job_act -> Prop :=
| jobs_nil : jobs_done []
| jobs_served q acts : 12 <= zlen q <= 4096 -> jobs_done acts -> jobs_done ([JOB_NEW; JOB_SERVED q] ++ acts)
| jobs_freed acts : jobs_done acts -> jobs_done ([JOB_NEW; JOB_FREED] ++ acts).

Theorem udp_loop_correct turns p : workers_ok p -> jobs_done (udp_loop turns p).1 /\ workers_ok (udp_loop turns p).2.
Proof.
  revert p. induction turns as [|t turns IH]; intros p Hp; [split; [constructor|done]|]. cbn [udp_loop].
  apply (end_workers_ok (ut_ended t)) in Hp. set (p1 := end_workers _ p) in *. clearbody p1.
  destruct (ut_memory t); cbn [negb]; [|by apply IH].
  set (q := bsub _ 0 4096). assert (Hq : zlen q <= 4096) by (unfold q, bsub, zlen; rewrite length_take; lia). clearbody q.
  destruct (Z.ltb_spec (zlen q) 12) as [Hs|Hs]; cbn [orb].
  { destruct (IH p1 Hp) as [H1 H2]. destruct (udp_loop turns p1) as [acts p3]. cbn [fst snd] in *. split; [by constructor|done]. }
  set (x := if negb (ut_peer t) then (p1, false) else start_worker (ut_thread t) p1).
  assert (Hx : workers_ok x.1) by (unfold x; destruct (negb _); [done|by apply start_worker_ok]). clearbody x.
  destruct x as [p2 handed]. cbn [fst] in Hx. destruct (IH p2 Hx) as [H1 H2].
  destruct (udp_loop turns p2) as [acts p3]. cbn [fst snd] in *. split; [|done]. destruct handed; constructor; (done || lia).
Qed.
