(* ===== verification/Divert.v ===== *)
(** * Reflection of flows on Windows ([src/transparent/platform_windows.c])

    The packet path of the WinDivert backend: the table of reflected flows,
    the rewriting of an application's packets towards the listener and of the
    listener's answers back, QUIC blocking, and what an accepted connection's
    original destination is. A packet is what the WinDivert helper parses from
    its bytes (addresses, ports, flags, payload), with the ports in network
    byte order as in the headers; checksums are recomputed by that library. *)

From stdpp Require Import base list numbers strings gmap relations.
From Stdlib Require Import ZArith Lia.
From S2P Require Import Prelude.

(** ** Data *)

Inductive proto := IPPROTO_TCP | IPPROTO_UDP.
#[global] Instance proto_eq_dec : EqDecision proto.
Proof. solve_decision. Defined.
Definition proto_number (p : proto) : Z := match p with IPPROTO_TCP => 6 | IPPROTO_UDP => 17 end.

Definition OWN_PORT_LO : Z := 45000.
Definition OWN_PORT_HI : Z := 45999.
Definition FLOW_BUCKETS : Z := 4096.
Definition FLOW_TCP_IDLE_MS : Z := 2 * 3600 * 1000.
Definition FLOW_TCP_CLOSING_MS : Z := 30 * 1000.
Definition FLOW_UDP_IDLE_MS : Z := 60 * 1000.
Definition QUIC_MAX : Z := 1024.
Definition TP_QUIC_BLOCK_TIMEOUT_S : Z := 3600.

Record flow := mk_flow {
  f_proto : proto;
  f_family : Z;
  f_local : list Z;
  f_lport : Z;
  f_remote : list Z;
  f_oport : Z;
  f_closing : bool;
  f_last : Z
}.

Record quic := mk_quic { q_family : Z; q_addr : list Z; q_until : Z }.

(** The buckets of [g_flows] that are not empty, and [g_quic] up to
    [g_nquic]. *)
Notation flows := (gmap Z (list flow)).
Notation quic_table := (list quic).

(** [g_port], [g_dns_port] and [g_ipv6]. *)
Record config := mk_config { g_port : Z; g_dns_port : Z; g_ipv6 : bool }.

Record pkt := mk_pkt {
  p_proto : proto;
  p_family : Z;
  p_src : list Z;
  p_dst : list Z;
  p_sport : Z;
  p_dport : Z;
  p_syn : bool;
  p_ack : bool;
  p_fin : bool;
  p_rst : bool;
  p_payload : list Z
}.

(** ** The flow table *)

Definition ntohs (x : Z) : Z := be16 (u8 x) (u8 (Z.shiftr x 8)).
Definition htons (x : Z) : Z := ntohs x.

Definition alen (family : Z) : Z := if family =? 6 then 16 else 4.

(** [memcmp(a, b, alen(family)) == 0] *)
Definition same_bytes (family : Z) (a b : list Z) : bool :=
  bool_decide (bsub a 0 (alen family) = bsub b 0 (alen family)).

Definition bucket (pr : proto) (family : Z) (remote : list Z) (lport oport : Z) : Z :=
  let h := Z.lxor (Z.lxor 2166136261 (proto_number pr)) (u32 (Z.shiftl oport 8)) in
  let h := foldl (fun h x => u32 (Z.lxor h x * 16777619)) h (bsub remote 0 (alen family)) in
  let h := u32 (Z.lxor h lport * 16777619) in
  h mod FLOW_BUCKETS.

(** [local]: [None] for NULL. *)
Definition matches (pr : proto) (family : Z) (local : option (list Z)) (lport : Z)
    (remote : list Z) (oport : Z) (f : flow) : bool :=
  bool_decide (f_proto f = pr) && (f_family f =? family) && (f_lport f =? lport)
  && (f_oport f =? oport) && same_bytes family (f_remote f) remote
  && match local with None => true | Some l => same_bytes family (f_local f) l end.

Definition chain (t : flows) (b : Z) : list flow := default [] (t !! b).

Definition find_flow (t : flows) (pr : proto) (family : Z) (local : option (list Z))
    (lport : Z) (remote : list Z) (oport : Z) : option flow :=
  find (matches pr family local lport remote oport) (chain t (bucket pr family remote lport oport)).

(** Changes the flow [find] points at. *)
Fixpoint update_first (m : flow -> bool) (g : flow -> flow) (l : list flow) : list flow :=
  match l with
  | [] => []
  | f :: l' => if m f then g f :: l' else f :: update_first m g l'
  end.
Definition update_flow (t : flows) (pr : proto) (family : Z) (local : list Z)
    (lport : Z) (remote : list Z) (oport : Z) (g : flow -> flow) : flows :=
  let b := bucket pr family remote lport oport in
  <[b := update_first (matches pr family (Some local) lport remote oport) g (chain t b)]> t.

(** [memory]: [calloc] succeeds. *)
Definition add_flow (memory : bool) (t : flows) (pr : proto) (family : Z) (local : list Z)
    (lport : Z) (remote : list Z) (oport now : Z) : flows :=
  let new := mk_flow pr family (bsub local 0 (alen family)) lport
               (bsub remote 0 (alen family)) oport false now in
  match find_flow t pr family (Some local) lport remote oport with
  | Some _ => update_flow t pr family local lport remote oport (fun _ => new)
  | None =>
      if memory then
        let b := bucket pr family remote lport oport in <[b := new :: chain t b]> t
      else t
  end.

Definition flow_limit (f : flow) : Z :=
  match f_proto f with
  | IPPROTO_UDP => FLOW_UDP_IDLE_MS
  | IPPROTO_TCP => if f_closing f then FLOW_TCP_CLOSING_MS else FLOW_TCP_IDLE_MS
  end.
Definition stale (now : Z) (f : flow) : bool := flow_limit f <? now - f_last f.

Definition sweep_flows (t : flows) (now : Z) : flows :=
  (fun l => List.filter (fun f => negb (stale now f)) l) <$> t.

Definition free_flows : flows := ∅.

(** ** Addresses *)

Definition private_v4 (a : list Z) : bool :=
  let a0 := bget a 0 in
  let a1 := bget a 1 in
  (a0 =? 0) || (a0 =? 10) || (a0 =? 127) || (224 <=? a0)
  || ((a0 =? 100) && (Z.land a1 0xC0 =? 64))
  || ((a0 =? 169) && (a1 =? 254))
  || ((a0 =? 172) && (Z.land a1 0xF0 =? 16))
  || ((a0 =? 192) && (a1 =? 168)).

Definition loop6 : list Z := replicate 15 0 ++ [1].

Definition private_v6 (a : list Z) : bool :=
  let a0 := bget a 0 in
  let a1 := bget a 1 in
  (Z.land a0 0xFE =? 0xFC) || ((a0 =? 0xFE) && (Z.land a1 0xC0 =? 0x80)) || (a0 =? 0xFF)
  || bool_decide (bsub a 0 16 = loop6).

Definition quic_blocked (q : quic_table) (family : Z) (addr : list Z) (now : Z) : bool :=
  existsb (fun e => (q_family e =? family) && (now <? q_until e)
                    && same_bytes family (q_addr e) addr) q.

(** ** The packet path *)

Definition swap_addrs (p : pkt) : pkt :=
  mk_pkt (p_proto p) (p_family p) (p_dst p) (p_src p) (p_sport p) (p_dport p)
    (p_syn p) (p_ack p) (p_fin p) (p_rst p) (p_payload p).
Definition with_sport (p : pkt) (port : Z) : pkt :=
  mk_pkt (p_proto p) (p_family p) (p_src p) (p_dst p) port (p_dport p)
    (p_syn p) (p_ack p) (p_fin p) (p_rst p) (p_payload p).
Definition with_dport (p : pkt) (port : Z) : pkt :=
  mk_pkt (p_proto p) (p_family p) (p_src p) (p_dst p) (p_sport p) port
    (p_syn p) (p_ack p) (p_fin p) (p_rst p) (p_payload p).

Definition own_port (port_net : Z) : bool :=
  let port := ntohs port_net in (OWN_PORT_LO <=? port) && (port <=? OWN_PORT_HI).

Definition is_tcp (p : pkt) : bool := bool_decide (p_proto p = IPPROTO_TCP).

(** [f->last = now; if (fin || rst) f->closing = 1;] *)
Definition touch_flow (p : pkt) (now : Z) (f : flow) : flow :=
  mk_flow (f_proto f) (f_family f) (f_local f) (f_lport f) (f_remote f) (f_oport f)
    (f_closing f || (is_tcp p && (p_fin p || p_rst p))) now.

(** The service a packet from this source port answers for, 0 for none. *)
Definition listener_service (cfg : config) (p : pkt) : Z :=
  if (ntohs (p_sport p) =? g_port cfg) && is_tcp p then 443 else
  if (0 <? g_dns_port cfg) && (ntohs (p_sport p) =? g_dns_port cfg) then 53 else 0.

(** A packet that is not for us to divert. *)
Definition passes (cfg : config) (p : pkt) : bool :=
  let svc := ntohs (p_dport p) in
  if (svc =? 443) && is_tcp p then
    ((p_family p =? 4) && private_v4 (p_dst p)) || ((p_family p =? 6) && private_v6 (p_dst p))
    || ((p_family p =? 6) && negb (g_ipv6 cfg))
  else negb ((svc =? 53) && (0 <? g_dns_port cfg)) || ((p_family p =? 6) && negb (g_ipv6 cfg)).

(** The table afterwards and the packet to send with its new [Outbound], or
    [None] when it is dropped. *)
Definition handle (cfg : config) (memory : bool) (t : flows) (q : quic_table) (p : pkt)
    (outbound : bool) (now : Z) : flows * option (pkt * bool) :=
  let svc := listener_service cfg p in
  if negb (svc =? 0) then
    match find_flow t (p_proto p) (p_family p) (Some (p_src p)) (p_dport p) (p_dst p) svc with
    | None => (t, Some (p, outbound))
    | Some _ =>
        let t := update_flow t (p_proto p) (p_family p) (p_src p) (p_dport p) (p_dst p) svc
                   (touch_flow p now) in
        (t, Some (with_sport (swap_addrs p) (htons svc), false))
    end
  else if negb (is_tcp p) && (ntohs (p_dport p) =? 443) then
    if (0 <? zlen (p_payload p)) && (0xC0 <=? bget (p_payload p) 0)
       && quic_blocked q (p_family p) (p_dst p) now
    then (t, None) else (t, Some (p, outbound))
  else if own_port (p_sport p) then (t, Some (p, outbound))
  else if passes cfg p then (t, Some (p, outbound))
  else
    let svc := ntohs (p_dport p) in
    let t :=
      match find_flow t (p_proto p) (p_family p) (Some (p_src p)) (p_sport p) (p_dst p) svc with
      | None =>
          if negb (is_tcp p) || (p_syn p && negb (p_ack p))
          then add_flow memory t (p_proto p) (p_family p) (p_src p) (p_sport p) (p_dst p) svc now
          else t
      | Some _ => t
      end in
    match find_flow t (p_proto p) (p_family p) (Some (p_src p)) (p_sport p) (p_dst p) svc with
    | None => (t, Some (p, outbound))
    | Some _ =>
        let t := update_flow t (p_proto p) (p_family p) (p_src p) (p_sport p) (p_dst p) svc
                   (touch_flow p now) in
        (t, Some (with_dport (swap_addrs p)
                    (htons (if is_tcp p then if svc =? 443 then g_port cfg else g_dns_port cfg
                            else g_dns_port cfg)), false))
    end.

(** ** QUIC blocking and the listeners' questions *)

(** The index of the entry that expires first. *)
Fixpoint first_expiring (q : quic_table) (k : nat) (j : nat) (best : Z) : nat :=
  match q with
  | [] => j
  | e :: q' =>
      if q_until e <? best then first_expiring q' (S k) k (q_until e)
      else first_expiring q' (S k) j best
  end.

Definition block_one (now : Z) (q : quic_table) (a : Z * list Z) : quic_table :=
  let '(family, addr) := a in
  let e := mk_quic family (bsub addr 0 (alen family)) (now + TP_QUIC_BLOCK_TIMEOUT_S * 1000) in
  match list_find (fun x => q_family x = family /\ same_bytes family (q_addr x) addr = true) q with
  | Some (j, _) => <[j := e]> q
  | None =>
      if zlen q <? QUIC_MAX then q ++ [e] else
      match q with
      | [] => q
      | x :: q' => <[first_expiring q' 1 0 (q_until x) := e]> q
      end
  end.

Definition tpp_quic_block (q : quic_table) (addrs : list (Z * list Z)) (now : Z) : quic_table :=
  foldl (block_one now) q addrs.

Definition tpp_quic_flush : quic_table := [].

(** [peer] and [self]: the addresses of an accepted socket (family, address,
    port in network order), [None] when the system call fails; the original
    destination, or [None] for -1. *)
Definition tpp_original_dst (t : flows) (peer self : option (Z * list Z * Z))
  : option (Z * list Z * Z) :=
  '(_, remote, port) ← peer;
  '(fam, local, _) ← self;
  match find_flow t IPPROTO_TCP fam (Some local) port remote 443 with
  | None => None
  | Some _ => Some (fam, bsub remote 0 (alen fam), htons 443)
  end.

Definition tpp_dns_peer_ok (t : flows) (peer : Z * list Z * Z) (tcp : bool) : bool :=
  let '(fam, remote, port) := peer in
  bool_decide (is_Some (find_flow t (if tcp then IPPROTO_TCP else IPPROTO_UDP) fam None port remote 53)).

(** The local port of one of the daemon's own sockets: [binds] are the
    results of [bind]; the counter is a 32-bit one. [None] is -1. *)
Fixpoint bind_own (tries : nat) (own_next : Z) (binds : list bool) : Z * option Z :=
  match tries with
  | O => (own_next, None)
  | S tries' =>
      let own_next := u32 (own_next + 1) in
      let port := OWN_PORT_LO + own_next mod (OWN_PORT_HI - OWN_PORT_LO + 1) in
      match binds with
      | true :: _ => (own_next, Some port)
      | _ => bind_own tries' own_next (tail binds)
      end
  end.
Definition tpp_prepare_socket (own_next : Z) (binds : list bool) : Z * option Z :=
  bind_own 64 own_next binds.

(** ** The table as a finite map

    A flow is identified by its protocol, family, both addresses and ports.
    Seen through [lookup_key] the hash table is a map from these keys. *)

Record key := mk_key {
  k_proto : proto; k_family : Z; k_local : list Z; k_lport : Z; k_remote : list Z; k_oport : Z
}.
#[global] Instance key_eq_dec : EqDecision key.
Proof. solve_decision. Defined.

Definition key_of (f : flow) : key :=
  mk_key (f_proto f) (f_family f) (f_local f) (f_lport f) (f_remote f) (f_oport f).
Definition home (k : key) : Z := bucket (k_proto k) (k_family k) (k_remote k) (k_lport k) (k_oport k).

Definition addr_ok (family : Z) (a : list Z) : Prop := zlen a = alen family.
Definition key_ok (k : key) : Prop := addr_ok (k_family k) (k_local k) /\ addr_ok (k_family k) (k_remote k).

Definition lookup_key (t : flows) (k : key) : option flow :=
  find_flow t (k_proto k) (k_family k) (Some (k_local k)) (k_lport k) (k_remote k) (k_oport k).
Definition update_key (t : flows) (k : key) (g : flow -> flow) : flows :=
  update_flow t (k_proto k) (k_family k) (k_local k) (k_lport k) (k_remote k) (k_oport k) g.
Definition add_key (memory : bool) (t : flows) (k : key) (now : Z) : flows :=
  add_flow memory t (k_proto k) (k_family k) (k_local k) (k_lport k) (k_remote k) (k_oport k) now.
Definition fresh_flow (k : key) (now : Z) : flow :=
  mk_flow (k_proto k) (k_family k) (k_local k) (k_lport k) (k_remote k) (k_oport k) false now.

(** Every flow is in its bucket, once. *)
Definition chain_ok (b : Z) (l : list flow) : Prop :=
  Forall (fun f => key_ok (key_of f) /\ home (key_of f) = b) l /\ NoDup (map key_of l).
Definition table_ok (t : flows) : Prop := forall b, chain_ok b (chain t b).

Definition has_key (k : key) (f : flow) : bool := bool_decide (key_of f = k).

Lemma same_bytes_eq family a b :
  addr_ok family a -> addr_ok family b -> same_bytes family a b = bool_decide (a = b).
Proof.
  unfold addr_ok, same_bytes. intros Ha Hb. apply bool_decide_ext.
  rewrite <- Ha at 1. rewrite <- Hb. by rewrite !bsub_all.
Qed.

Lemma matches_key k f :
  key_ok k -> key_ok (key_of f) ->
  matches (k_proto k) (k_family k) (Some (k_local k)) (k_lport k) (k_remote k) (k_oport k) f = has_key k f.
Proof.
  intros [Hl Hr] [Hl' Hr']. unfold matches, has_key. destruct k as [pr fam lo lp re op], f as [pr' fam' lo' lp' re' op' cl la].
  unfold key_of. cbn in *. destruct (bool_decide_reflect (pr' = pr)) as [-> |Hp]; cbn [andb];
    [|rewrite bool_decide_eq_false_2; congruence].
  destruct (Z.eqb_spec fam' fam) as [-> |Hf]; cbn [andb]; [|rewrite bool_decide_eq_false_2; congruence].
  destruct (Z.eqb_spec lp' lp) as [-> |Hf]; cbn [andb]; [|rewrite bool_decide_eq_false_2; congruence].
  destruct (Z.eqb_spec op' op) as [-> |Hf]; cbn [andb]; [|rewrite bool_decide_eq_false_2; congruence].
  rewrite !same_bytes_eq by done.
  destruct (bool_decide_reflect (re' = re)) as [-> |?]; cbn [andb]; [|rewrite bool_decide_eq_false_2; congruence].
  apply bool_decide_ext. split; congruence.
Qed.

Lemma find_ext {A} (m m' : A -> bool) l :
  Forall (fun x => m x = m' x) l -> find m l = find m' l.
Proof. induction 1 as [|x l E _ IH]; [done|]. cbn. by rewrite E, IH. Qed.

(** On a well-formed chain the code's tests compare keys. *)
Lemma chain_find k l :
  key_ok k -> chain_ok (home k) l ->
  find (matches (k_proto k) (k_family k) (Some (k_local k)) (k_lport k) (k_remote k) (k_oport k)) l =
  find (has_key k) l.
Proof.
  intros Hk [Hl _]. apply find_ext. eapply Forall_impl; [exact Hl|]. intros f [Hf _]. by apply matches_key.
Qed.

Lemma lookup_key_find t k :
  table_ok t -> key_ok k -> lookup_key t k = find (has_key k) (chain t (home k)).
Proof. intros Ht Hk. unfold lookup_key, find_flow. apply chain_find; [done|apply Ht]. Qed.

Lemma lookup_key_Some t k f :
  table_ok t -> key_ok k -> lookup_key t k = Some f -> f ∈ chain t (home k) /\ key_of f = k.
Proof.
  intros Ht Hk. rewrite lookup_key_find by done. intros H. apply List.find_some in H as [Hin He].
  split; [by apply list_elem_of_In|]. by apply bool_decide_eq_true in He.
Qed.

Lemma find_key_unique k l f :
  NoDup (map key_of l) -> f ∈ l -> key_of f = k -> find (has_key k) l = Some f.
Proof.
  intros Hnd Hin Hk. induction l as [|x l IH]; [by apply not_elem_of_nil in Hin|].
  cbn [map] in Hnd. apply NoDup_cons in Hnd as [Hx Hnd]. cbn [find]. unfold has_key at 1.
  apply elem_of_cons in Hin as [<-|Hin]; [by rewrite bool_decide_eq_true_2|].
  rewrite bool_decide_eq_false_2; [by apply IH|]. intros E. apply Hx. rewrite E, <- Hk.
  by apply list_elem_of_fmap_2.
Qed.

(** *** Updating a flow *)

Lemma has_key_true k f : key_of f = k -> has_key k f = true.
Proof. intros. by apply bool_decide_eq_true_2. Qed.
Lemma has_key_false k f : key_of f <> k -> has_key k f = false.
Proof. intros. by apply bool_decide_eq_false_2. Qed.

Lemma find_update_first k k' g l :
  (forall f, key_of (g f) = key_of f) ->
  find (has_key k') (update_first (has_key k) g l) =
    if decide (k = k') then g <$> find (has_key k) l else find (has_key k') l.
Proof.
  intros Hg. induction l as [|f l IH]; cbn [update_first find]; [by destruct (decide (k = k'))|].
  destruct (decide (key_of f = k)) as [E|E].
  - rewrite (has_key_true k f) by done. cbn [find].
    destruct (decide (k = k')) as [<-|Hk].
    + by rewrite has_key_true by (by rewrite Hg).
    + by rewrite !has_key_false by (rewrite ?Hg; congruence).
  - rewrite (has_key_false k f) by done. cbn [find]. rewrite IH.
    destruct (decide (k = k')) as [<-|Hk]; [|done]. by rewrite has_key_false.
Qed.

Lemma update_first_keys m g l :
  (forall f, key_of (g f) = key_of f) -> map key_of (update_first m g l) = map key_of l.
Proof.
  intros Hg. induction l as [|f l IH]; [done|]. cbn [update_first map].
  destruct (m f); cbn [map]; [by rewrite Hg|by rewrite IH].
Qed.

Lemma update_first_ext m m' g l :
  Forall (fun x => m x = m' x) l -> update_first m g l = update_first m' g l.
Proof. induction 1 as [|x l E _ IH]; [done|]. cbn. by rewrite E, IH. Qed.

Lemma chain_insert t b l b' : chain (<[b := l]> t) b' = if decide (b = b') then l else chain t b'.
Proof.
  unfold chain. destruct (decide (b = b')) as [<-|H]; [by rewrite lookup_insert_eq|by rewrite lookup_insert_ne].
Qed.

(** A chain with the same keys is as well-formed. *)
Lemma chain_ok_keys b l l' : map key_of l' = map key_of l -> chain_ok b l -> chain_ok b l'.
Proof.
  intros E [Hf Hn]. split; [|by rewrite E].
  assert (H : Forall (fun k => key_ok k /\ home k = b) (map key_of l)) by (by apply Forall_fmap).
  rewrite <- E in H. by apply Forall_fmap in H.
Qed.

Lemma update_key_ok t k g :
  table_ok t -> (forall f, key_of (g f) = key_of f) -> table_ok (update_key t k g).
Proof.
  intros Ht Hg b. unfold update_key, update_flow. rewrite chain_insert. fold (home k).
  destruct (decide (home k = b)) as [<-|]; [|apply Ht].
  eapply chain_ok_keys; [by apply update_first_keys|apply Ht].
Qed.

Lemma lookup_update t k g k' :
  table_ok t -> key_ok k -> key_ok k' -> (forall f, key_of (g f) = key_of f) ->
  lookup_key (update_key t k g) k' = if decide (k = k') then g <$> lookup_key t k else lookup_key t k'.
Proof.
  intros Ht Hk Hk' Hg. rewrite !lookup_key_find by (done || by apply update_key_ok).
  unfold update_key, update_flow. rewrite chain_insert. fold (home k).
  rewrite (update_first_ext _ (has_key k)).
  2: { eapply Forall_impl; [apply (Ht (home k))|]. intros f [Hf _]. by apply matches_key. }
  destruct (decide (home k = home k')) as [E|E].
  - rewrite find_update_first, <- E by done. by destruct (decide (k = k')).
  - destruct (decide (k = k')) as [-> |]; [done|done].
Qed.

(** *** Adding a flow *)

Lemma add_key_new t k now :
  key_ok k -> lookup_key t k = None ->
  add_key true t k now = <[home k := fresh_flow k now :: chain t (home k)]> t.
Proof.
  intros [Hl Hr] H. unfold add_key, add_flow. fold (lookup_key t k). rewrite H.
  unfold addr_ok in *. rewrite <- Hl, bsub_all, Hl, <- Hr, bsub_all. done.
Qed.

Lemma add_key_ok t k now : table_ok t -> key_ok k -> lookup_key t k = None -> table_ok (add_key true t k now).
Proof.
  intros Ht Hk Hn b. rewrite add_key_new by done. rewrite chain_insert.
  destruct (decide (home k = b)) as [<-|]; [|apply Ht]. destruct (Ht (home k)) as [Hf Hd].
  assert (Ek : key_of (fresh_flow k now) = k) by (by destruct k).
  split; [constructor; [by rewrite Ek|done]|]. cbn [map]. rewrite Ek. constructor; [|done].
  intros Hin. apply list_elem_of_fmap in Hin as (f & E & Hin).
  rewrite lookup_key_find in Hn by done.
  by rewrite (find_key_unique k _ f Hd Hin ltac:(done)) in Hn.
Qed.

Lemma lookup_add t k now k' :
  table_ok t -> key_ok k -> key_ok k' -> lookup_key t k = None ->
  lookup_key (add_key true t k now) k' = if decide (k = k') then Some (fresh_flow k now) else lookup_key t k'.
Proof.
  intros Ht Hk Hk' Hn. rewrite (lookup_key_find _ k') by (done || by apply add_key_ok).
  rewrite (lookup_key_find t k') by done. rewrite add_key_new by done. rewrite chain_insert.
  assert (Ek : key_of (fresh_flow k now) = k) by (by destruct k).
  destruct (decide (k = k')) as [<-|Hne].
  - rewrite decide_True by done. cbn [find]. by rewrite has_key_true.
  - destruct (decide (home k = home k')) as [E|E]; [|done]. cbn [find].
    rewrite has_key_false by congruence. by rewrite E.
Qed.

(** *** Sweeping *)

Lemma chain_sweep t now b : chain (sweep_flows t now) b = List.filter (fun f => negb (stale now f)) (chain t b).
Proof. unfold chain, sweep_flows. rewrite lookup_fmap. by destruct (t !! b). Qed.

Lemma sweep_ok t now : table_ok t -> table_ok (sweep_flows t now).
Proof.
  intros Ht b. rewrite chain_sweep. destruct (Ht b) as [Hf Hn]. clear Ht.
  induction (chain t b) as [|f l IH]; [by split; constructor|].
  inversion Hf as [|? ? Hf1 Hf2]; subst. cbn [map] in Hn. apply NoDup_cons in Hn as [Hn1 Hn2].
  specialize (IH Hf2 Hn2) as [IH1 IH2]. cbn [List.filter]. destruct (negb (stale now f)); [|done].
  split; [by constructor|]. cbn [map]. constructor; [|done]. intros Hin. apply Hn1.
  apply list_elem_of_fmap in Hin as (g & E & Hin). rewrite E. apply list_elem_of_fmap_2.
  apply list_elem_of_In in Hin. apply List.filter_In in Hin as [Hin _]. by apply list_elem_of_In.
Qed.

Lemma lookup_sweep t now k :
  table_ok t -> key_ok k ->
  lookup_key (sweep_flows t now) k =
    match lookup_key t k with Some f => if stale now f then None else Some f | None => None end.
Proof.
  intros Ht Hk. rewrite !lookup_key_find, chain_sweep by (done || by apply sweep_ok).
  destruct (Ht (home k)) as [_ Hn]. induction (chain t (home k)) as [|f l IH]; [done|].
  cbn [map] in Hn. apply NoDup_cons in Hn as [Hn1 Hn2]. cbn [List.filter find].
  destruct (decide (key_of f = k)) as [E|E].
  - rewrite (has_key_true k f) by done. destruct (stale now f); cbn [negb find]; [|by rewrite has_key_true].
    rewrite IH by done. destruct (find (has_key k) l) as [g|] eqn:G; [|done].
    apply List.find_some in G as [G1 G2]. apply bool_decide_eq_true in G2. exfalso. apply Hn1.
    rewrite E, <- G2. apply list_elem_of_fmap_2. by apply list_elem_of_In.
  - rewrite (has_key_false k f) by done. destruct (stale now f); cbn [negb find]; [by apply IH|].
    rewrite has_key_false by done. by apply IH.
Qed.

(** ** One packet *)

Definition is_port (x : Z) : Prop := is_u16 x.

Record pkt_ok (p : pkt) : Prop := {
  pk_src : addr_ok (p_family p) (p_src p);
  pk_dst : addr_ok (p_family p) (p_dst p);
  pk_ports : is_u16 (p_sport p) /\ is_u16 (p_dport p)
}.

(** The flow of an application's packet, and of a listener's answer. *)
Definition app_key (p : pkt) : key :=
  mk_key (p_proto p) (p_family p) (p_src p) (p_sport p) (p_dst p) (ntohs (p_dport p)).
Definition answer_key (p : pkt) (svc : Z) : key :=
  mk_key (p_proto p) (p_family p) (p_src p) (p_dport p) (p_dst p) svc.

(** An application's packet to a service that is diverted. *)
Definition diverted (cfg : config) (p : pkt) : bool :=
  (listener_service cfg p =? 0) && negb (negb (is_tcp p) && (ntohs (p_dport p) =? 443))
  && negb (own_port (p_sport p)) && negb (passes cfg p).
(** A packet that may start a flow. *)
Definition opens (p : pkt) : bool := negb (is_tcp p) || (p_syn p && negb (p_ack p)).

(** The port of the listener for this packet. *)
Definition listener_port (cfg : config) (p : pkt) : Z :=
  if is_tcp p then if ntohs (p_dport p) =? 443 then g_port cfg else g_dns_port cfg else g_dns_port cfg.

Definition reflected (cfg : config) (p : pkt) : pkt :=
  with_dport (swap_addrs p) (htons (listener_port cfg p)).
Definition restored (p : pkt) (svc : Z) : pkt := with_sport (swap_addrs p) (htons svc).

Lemma touch_key p now f : key_of (touch_flow p now f) = key_of f.
Proof. done. Qed.

(** The flow table before the diverted packet's own entry is touched. *)
Definition opened (memory : bool) (t : flows) (p : pkt) (now : Z) : flows :=
  match lookup_key t (app_key p) with
  | None => if opens p then add_key memory t (app_key p) now else t
  | Some _ => t
  end.

(** [handle] by its cases, in terms of keys. *)
Lemma handle_answer cfg memory t q p outbound now :
  listener_service cfg p <> 0 ->
  handle cfg memory t q p outbound now =
    let k := answer_key p (listener_service cfg p) in
    match lookup_key t k with
    | None => (t, Some (p, outbound))
    | Some _ => (update_key t k (touch_flow p now), Some (restored p (listener_service cfg p), false))
    end.
Proof. intros H. unfold handle. by rewrite (proj2 (Z.eqb_neq _ _) H). Qed.

Lemma handle_diverted cfg memory t q p outbound now :
  diverted cfg p = true ->
  handle cfg memory t q p outbound now =
    let t1 := opened memory t p now in
    match lookup_key t1 (app_key p) with
    | None => (t1, Some (p, outbound))
    | Some _ => (update_key t1 (app_key p) (touch_flow p now), Some (reflected cfg p, false))
    end.
Proof.
  unfold diverted. intros H. apply andb_prop in H as [[[H1 H2]%andb_prop H3]%andb_prop H4].
  unfold handle. rewrite H1. apply negb_true_iff in H2, H3, H4. rewrite H2, H3, H4. done.
Qed.

(** Everything else leaves the table alone; the packet goes on unchanged or
    is a QUIC handshake to a blocked address. *)
Lemma handle_other cfg memory t q p outbound now :
  listener_service cfg p = 0 -> diverted cfg p = false ->
  handle cfg memory t q p outbound now =
    (t, if negb (is_tcp p) && (ntohs (p_dport p) =? 443)
           && ((0 <? zlen (p_payload p)) && (0xC0 <=? bget (p_payload p) 0)
               && quic_blocked q (p_family p) (p_dst p) now)
        then None else Some (p, outbound)).
Proof.
  unfold diverted, handle. intros -> H. change (negb (0 =? 0)) with false. cbv iota.
  destruct (negb (is_tcp p) && (ntohs (p_dport p) =? 443)); cbn [andb negb].
  - by destruct (_ && quic_blocked _ _ _ _).
  - cbn in H. destruct (own_port (p_sport p)); [done|]. cbn in H.
    destruct (passes cfg p); [done|]. cbn in H. discriminate.
Qed.

Lemma app_key_ok p : pkt_ok p -> key_ok (app_key p).
Proof. by intros [? ? ?]. Qed.
Lemma answer_key_ok p svc : pkt_ok p -> key_ok (answer_key p svc).
Proof. by intros [? ? ?]. Qed.

Lemma opened_spec memory t p now k :
  table_ok t -> pkt_ok p -> key_ok k ->
  table_ok (opened memory t p now) /\
  lookup_key (opened memory t p now) k =
    match lookup_key t k with
    | Some f => Some f
    | None => if decide (k = app_key p) then if opens p && memory then Some (fresh_flow k now) else None
              else None
    end.
Proof.
  intros Ht Hp Hk. pose proof (app_key_ok p Hp) as Hak. unfold opened.
  destruct (lookup_key t (app_key p)) as [f|] eqn:E.
  { split; [done|]. destruct (lookup_key t k) eqn:E'; [done|]. rewrite decide_False by congruence. done. }
  destruct (opens p); cbn [andb].
  2: { split; [done|]. destruct (lookup_key t k); [done|]. by destruct (decide _). }
  destruct memory.
  - split; [by apply add_key_ok|]. rewrite lookup_add by done.
    destruct (decide (app_key p = k)) as [<-|H].
    + rewrite E. by rewrite decide_True.
    + rewrite (decide_False (P := k = app_key p)) by congruence. by destruct (lookup_key t k).
  - assert (Ea : add_key false t (app_key p) now = t).
    { unfold add_key, add_flow. fold (lookup_key t (app_key p)). by rewrite E. }
    rewrite Ea. split; [done|]. destruct (lookup_key t k); [done|]. by destruct (decide _).
Qed.

(** What one packet does to the table, seen by key: known flows stay, their
    time does not go back; a new flow is that of a diverted packet that may
    start one. *)
Lemma handle_table cfg memory t q p outbound now k :
  table_ok t -> pkt_ok p -> key_ok k ->
  let t' := (handle cfg memory t q p outbound now).1 in
  table_ok t' /\
  match lookup_key t k with
  | Some f => exists f', lookup_key t' k = Some f' /\ (f' = f \/ f_last f' = now)
  | None => lookup_key t' k <> None ->
      k = app_key p /\ diverted cfg p = true /\ opens p = true /\
      (lookup_key t' k = Some (touch_flow p now (fresh_flow k now)))
  end.
Proof.
  intros Ht Hp Hk. cbv zeta.
  destruct (decide (listener_service cfg p = 0)) as [Hs|Hs].
  2: { rewrite handle_answer by done. cbv zeta. set (k1 := answer_key p _).
       assert (Hk1 : key_ok k1) by (by apply answer_key_ok).
       destruct (lookup_key t k1) as [f1|] eqn:E1; cbn [fst].
       2: { split; [done|]. destruct (lookup_key t k) as [f|]; [by eexists; eauto|done]. }
       split; [by apply update_key_ok|]. rewrite lookup_update by done.
       destruct (decide (k1 = k)) as [<-|].
       - rewrite E1. eexists. split; [done|]. by right.
       - destruct (lookup_key t k) as [f|]; [by eexists; eauto|done]. }
  destruct (diverted cfg p) eqn:Hd.
  2: { rewrite handle_other by done. cbn [fst]. split; [done|].
       destruct (lookup_key t k) as [f|]; [by eexists; eauto|done]. }
  rewrite handle_diverted by done. cbv zeta. pose proof (app_key_ok p Hp) as Hak.
  destruct (opened_spec memory t p now k Ht Hp Hk) as [Ho Hl].
  destruct (opened_spec memory t p now (app_key p) Ht Hp Hak) as [_ Hla].
  destruct (lookup_key (opened memory t p now) (app_key p)) as [f1|] eqn:E1; cbn [fst].
  - split; [by apply update_key_ok|]. rewrite lookup_update by done.
    destruct (decide (app_key p = k)) as [<-|Hne].
    + rewrite E1. destruct (lookup_key t (app_key p)) as [f|]; [eexists; split; [done|by right]|].
      intros _. rewrite decide_True in Hla by done. destruct (opens p); [|done]. destruct memory; [|done].
      cbn [andb] in Hla. by injection Hla as ->.
    + rewrite Hl. destruct (lookup_key t k) as [f|]; [by eexists; eauto|]. by rewrite decide_False.
  - split; [done|]. rewrite Hl. destruct (lookup_key t k) as [f|]; [by eexists; eauto|].
    destruct (decide (k = app_key p)) as [-> |]; [|done].
    destruct (lookup_key t (app_key p)); [done|]. rewrite decide_True in Hla by done. by rewrite <- Hla.
Qed.

Lemma ntohs_htons x : is_u16 x -> ntohs (htons x) = x.
Proof.
  intros Hx. unfold htons, ntohs.
  pose proof (be16_bytes16 (u8 x) (u8 (Z.shiftr x 8)) (u8_range _) (u8_range _)) as E.
  unfold bytes16 in E. injection E as E1 E2. rewrite E1, E2. by apply bytes16_be16.
Qed.

Lemma ntohs_range x : is_u16 (ntohs x).
Proof. apply be16_range; apply u8_range. Qed.

(** The listeners' ports. *)
Record config_ok (cfg : config) : Prop := {
  co_port : 0 < g_port cfg < 65536;
  co_dns : g_dns_port cfg < 65536;
  co_distinct : g_dns_port cfg <> g_port cfg
}.

(** What a diverted packet is. *)
Lemma diverted_service cfg p :
  diverted cfg p = true ->
  own_port (p_sport p) = false /\
  (ntohs (p_dport p) = 443 /\ p_proto p = IPPROTO_TCP /\
   (p_family p = 4 -> private_v4 (p_dst p) = false) /\
   (p_family p = 6 -> private_v6 (p_dst p) = false)
   \/ ntohs (p_dport p) = 53 /\ 0 < g_dns_port cfg) /\
  (p_family p = 6 -> g_ipv6 cfg = true).
Proof.
  unfold diverted, passes, is_tcp. intros H. apply andb_prop in H as [[[H1 H2]%andb_prop H3]%andb_prop H4].
  apply negb_true_iff in H3, H4. split; [done|].
  destruct (Z.eqb_spec (ntohs (p_dport p)) 443) as [E|E]; cbn [andb] in *.
  - destruct (bool_decide_reflect (p_proto p = IPPROTO_TCP)) as [T|T]; [|done]. cbn in H4.
    apply orb_false_elim in H4 as [[H5 H6]%orb_false_elim H7].
    split; [left; repeat split; auto|].
    + intros F. by rewrite F in H5.
    + intros F. by rewrite F in H6.
    + intros F. rewrite F in H7. by destruct (g_ipv6 cfg).
  - apply orb_false_elim in H4 as [H5 H6]. apply negb_false_iff in H5. zbool. split; [by right|].
    intros F. rewrite F in H6. by destruct (g_ipv6 cfg).
Qed.

(** [r]: the listener's packet to the peer of the reflected [p]. *)
Record answers (cfg : config) (p r : pkt) : Prop := {
  an_proto : p_proto r = p_proto p;
  an_family : p_family r = p_family p;
  an_src : p_src r = p_src p;
  an_dst : p_dst r = p_dst p;
  an_sport : p_sport r = htons (listener_port cfg p);
  an_dport : p_dport r = p_sport p
}.

Lemma answer_service cfg p r :
  config_ok cfg -> diverted cfg p = true -> answers cfg p r ->
  listener_service cfg r = ntohs (p_dport p).
Proof.
  intros [Hp Hd Hne] Hdiv A. destruct (diverted_service cfg p Hdiv) as (_ & S & _).
  unfold listener_service. rewrite (an_sport _ _ _ A). unfold is_tcp. rewrite (an_proto _ _ _ A).
  unfold listener_port, is_tcp. destruct S as [(E & T & _)|[E Hpos]]; rewrite E.
  - rewrite T. rewrite (bool_decide_eq_true_2 (IPPROTO_TCP = IPPROTO_TCP)) by done.
    change (443 =? 443) with true. cbv iota. rewrite ntohs_htons by (unfold is_u16; lia).
    by rewrite Z.eqb_refl.
  - change (53 =? 443) with false. cbv iota.
    assert (El : (if bool_decide (p_proto p = IPPROTO_TCP) then g_dns_port cfg else g_dns_port cfg) = g_dns_port cfg)
      by (by destruct (bool_decide _)).
    rewrite El, ntohs_htons by (unfold is_u16; lia).
    rewrite (proj2 (Z.eqb_neq _ _)), (proj2 (Z.ltb_lt _ _)), Z.eqb_refl by (done || lia). done.
Qed.

(** ** Runs *)

Inductive event :=
| EV_PACKET (memory : bool) (q : quic_table) (p : pkt) (outbound : bool)
| EV_SWEEP.
Definition event_ok (ev : event) : Prop :=
  match ev with EV_PACKET _ _ p _ => pkt_ok p | EV_SWEEP => True end.

Definition event_table (cfg : config) (t : flows) (e : Z * event) : flows :=
  match e with
  | (now, EV_PACKET memory q p outbound) => (handle cfg memory t q p outbound now).1
  | (now, EV_SWEEP) => sweep_flows t now
  end.
Definition run_events (cfg : config) (t : flows) (evs : list (Z * event)) : flows :=
  foldl (event_table cfg) t evs.

Lemma event_table_ok cfg t e : table_ok t -> event_ok e.2 -> table_ok (event_table cfg t e).
Proof.
  intros Ht He. destruct e as [now [memory q p outbound|]]; cbn in *; [|by apply sweep_ok].
  by apply (handle_table cfg memory t q p outbound now (app_key p) Ht He), app_key_ok.
Qed.

(** A flow used at [since] survives everything of the next 30 seconds. *)
Lemma run_keeps cfg evs t k f since :
  table_ok t -> key_ok k -> lookup_key t k = Some f -> since <= f_last f ->
  Forall (fun e => event_ok e.2 /\ since <= e.1 <= since + 30000) evs ->
  table_ok (run_events cfg t evs) /\
  exists f', lookup_key (run_events cfg t evs) k = Some f' /\ since <= f_last f'.
Proof.
  intros Ht Hk Hf Hl Hes. revert t f Ht Hf Hl.
  induction Hes as [|[now ev] evs [He Hnow] _ IH]; intros t f Ht Hf Hl; [by eauto|].
  cbn [run_events foldl]. cbn [fst snd] in *.
  assert (H : exists f', lookup_key (event_table cfg t (now, ev)) k = Some f' /\ since <= f_last f').
  { destruct ev as [memory q p outbound|]; cbn [event_table].
    - destruct (handle_table cfg memory t q p outbound now k Ht He Hk) as [_ H]. rewrite Hf in H.
      destruct H as (f' & H & [-> | E]); [by eauto|]. exists f'. split; [done|lia].
    - rewrite lookup_sweep, Hf by done. exists f. split; [|done].
      assert (Hs : stale now f = false); [|by rewrite Hs].
      unfold stale, flow_limit. apply Z.ltb_ge.
      destruct (f_proto f), (f_closing f);
        unfold FLOW_TCP_CLOSING_MS, FLOW_TCP_IDLE_MS, FLOW_UDP_IDLE_MS; lia. }
  destruct H as (f' & Hf' & Hl'). apply (IH _ f'); [|done|done]. by apply event_table_ok.
Qed.

(** The flow of a reflected packet. *)
Lemma reflect_step cfg memory t q p outbound now :
  table_ok t -> pkt_ok p -> diverted cfg p = true ->
  lookup_key t (app_key p) <> None \/ opens p = true /\ memory = true ->
  exists t1, handle cfg memory t q p outbound now = (t1, Some (reflected cfg p, false)) /\ table_ok t1 /\
    exists f, lookup_key t1 (app_key p) = Some f /\ f_last f = now.
Proof.
  intros Ht Hp Hd Hk. pose proof (app_key_ok p Hp) as Hak.
  destruct (opened_spec memory t p now (app_key p) Ht Hp Hak) as [Ho Hl].
  assert (Hs : exists f, lookup_key (opened memory t p now) (app_key p) = Some f).
  { rewrite Hl. destruct (lookup_key t (app_key p)) as [f|]; [by eauto|]. rewrite decide_True by done.
    destruct Hk as [Hk|[-> ->]]; [done|]. by eauto. }
  destruct Hs as [f Hf]. rewrite handle_diverted by done. cbv zeta. rewrite Hf. eexists. split; [done|].
  split; [by apply update_key_ok|]. rewrite lookup_update, Hf, decide_True by done. by eexists.
Qed.

(** C30: reflection and its inverse. A packet of an application to a diverted
    service that starts a flow, or belongs to one, is sent to the listener
    with the addresses exchanged, so that it arrives as from (D, p). From then
    on, whatever packets are handled and however often the table is swept in
    the next 30 seconds, the listener's packets to that peer are sent to the
    application as if they came from the server's own address and port, and
    the listener is told exactly the server's address as the original
    destination of the connection. *)
Theorem reflection_roundtrip cfg t q p outbound now memory :
  config_ok cfg -> table_ok t -> pkt_ok p -> diverted cfg p = true ->
  lookup_key t (app_key p) <> None \/ opens p = true /\ memory = true ->
  exists t1, handle cfg memory t q p outbound now = (t1, Some (reflected cfg p, false)) /\
    p_src (reflected cfg p) = p_dst p /\ p_dst (reflected cfg p) = p_src p /\
    p_sport (reflected cfg p) = p_sport p /\
    ntohs (p_dport (reflected cfg p)) = listener_port cfg p /\
    forall evs, Forall (fun e => event_ok e.2 /\ now <= e.1 <= now + 30000) evs ->
      (forall memory' q' r outbound' time, answers cfg p r ->
         exists t2 r', handle cfg memory' (run_events cfg t1 evs) q' r outbound' time = (t2, Some (r', false)) /\
           p_src r' = p_dst p /\ p_dst r' = p_src p /\ p_sport r' = p_dport p /\ p_dport r' = p_sport p /\
           p_payload r' = p_payload r) /\
      (ntohs (p_dport p) = 443 ->
         forall lport, tpp_original_dst (run_events cfg t1 evs)
             (Some (p_family p, p_dst p, p_sport p)) (Some (p_family p, p_src p, lport)) =
           Some (p_family p, p_dst p, p_dport p)).
Proof.
  intros Hc Ht Hp Hd Hk. pose proof (app_key_ok p Hp) as Hak.
  destruct (reflect_step cfg memory t q p outbound now Ht Hp Hd Hk) as (t1 & E & Ht1 & f & Hf & Hl).
  exists t1. split; [done|]. do 3 (split; [done|]).
  destruct (diverted_service cfg p Hd) as (_ & Hsvc & _).
  assert (Hport : htons (ntohs (p_dport p)) = p_dport p) by (apply ntohs_htons, Hp).
  split.
  { apply ntohs_htons. unfold listener_port, is_u16. destruct Hc.
    unfold is_tcp.
    destruct Hsvc as [(-> & T & _)|[-> ?]]; [rewrite bool_decide_eq_true_2 by done|destruct (bool_decide _)];
      [change (443 =? 443) with true|change (53 =? 443) with false|]; cbv iota; lia. }
  intros evs Hevs. destruct (run_keeps cfg evs t1 (app_key p) f now Ht1 Hak Hf ltac:(lia) Hevs)
    as (Ht2 & f2 & Hf2 & _). split.
  - intros memory' q' r outbound' time A. pose proof (answer_service cfg p r Hc Hd A) as Hs.
    assert (Ek : answer_key r (listener_service cfg r) = app_key p).
    { rewrite Hs. unfold answer_key, app_key. by destruct A as [-> -> -> -> _ ->]. }
    rewrite handle_answer.
    2: { rewrite Hs. destruct Hsvc as [(-> & _)|[-> _]]; done. }
    cbv zeta. rewrite Ek, Hf2. eexists _, _. split; [done|]. unfold restored. cbn. destruct A as [_ _ -> -> _ ->].
    rewrite Hs, Hport. done.
  - intros H443 lport. unfold tpp_original_dst. cbn [mbind option_bind].
    assert (Hpr : p_proto p = IPPROTO_TCP) by (destruct Hsvc as [(_ & T & _)|[? _]]; [done|congruence]).
    assert (El : find_flow (run_events cfg t1 evs) IPPROTO_TCP (p_family p) (Some (p_src p)) (p_sport p) (p_dst p) 443
      = lookup_key (run_events cfg t1 evs) (app_key p)).
    { unfold lookup_key, app_key. cbn. by rewrite Hpr, H443. }
    rewrite El, Hf2. rewrite <- Hport, H443. pose proof (pk_dst _ Hp) as Hdst. unfold addr_ok in Hdst.
    by rewrite <- Hdst, bsub_all.
Qed.

(** The daemon's own sockets get ports that are not diverted. *)
Lemma tpp_prepare_socket_range own_next binds next' port :
  tpp_prepare_socket own_next binds = (next', Some port) -> OWN_PORT_LO <= port <= OWN_PORT_HI.
Proof.
  unfold tpp_prepare_socket. generalize 64%nat as n. intros n. revert own_next binds.
  induction n as [|n IH]; intros own_next binds; cbn [bind_own]; [done|].
  destruct binds as [|[] binds]; [by apply IH| |by apply IH]. intros [= <- <-].
  pose proof (Z.mod_pos_bound (u32 (own_next + 1)) (OWN_PORT_HI - OWN_PORT_LO + 1) ltac:(done)).
  unfold OWN_PORT_LO, OWN_PORT_HI in *. lia.
Qed.

Lemma own_socket_passes cfg memory t q p outbound now port :
  OWN_PORT_LO <= port <= OWN_PORT_HI -> p_sport p = htons port -> p_proto p = IPPROTO_TCP ->
  (g_port cfg < OWN_PORT_LO \/ OWN_PORT_HI < g_port cfg) ->
  (g_dns_port cfg < OWN_PORT_LO \/ OWN_PORT_HI < g_dns_port cfg) ->
  handle cfg memory t q p outbound now = (t, Some (p, outbound)).
Proof.
  unfold OWN_PORT_LO, OWN_PORT_HI. intros Hport Hsp Hpr H1 H2.
  assert (Hn : ntohs (p_sport p) = port) by (rewrite Hsp; apply ntohs_htons; unfold is_u16; lia).
  assert (Hs : listener_service cfg p = 0).
  { unfold listener_service. rewrite Hn, !(proj2 (Z.eqb_neq port _)) by lia. by rewrite andb_false_r. }
  assert (Ho : own_port (p_sport p) = true).
  { unfold own_port. rewrite Hn. unfold OWN_PORT_LO, OWN_PORT_HI. by rewrite !(proj2 (Z.leb_le _ _)) by lia. }
  rewrite handle_other; [|done|unfold diverted; rewrite Ho; cbn [negb]; rewrite andb_false_r; done].
  unfold is_tcp. by rewrite bool_decide_eq_true_2.
Qed.

(** Where the flows of a run come from. *)
Definition opened_by (cfg : config) (evs : list (Z * event)) (k : key) : Prop :=
  exists now memory q p outbound, (now, EV_PACKET memory q p outbound) ∈ evs /\
    app_key p = k /\ diverted cfg p = true /\ opens p = true.

Lemma lookup_key_empty k : lookup_key ∅ k = None.
Proof. unfold lookup_key, find_flow, chain. by rewrite lookup_empty. Qed.

Lemma empty_ok : table_ok ∅.
Proof. intros b. unfold chain. rewrite lookup_empty. by split; constructor. Qed.

Lemma run_provenance cfg evs :
  Forall (fun e => event_ok e.2) evs ->
  table_ok (run_events cfg ∅ evs) /\
  forall k, key_ok k -> lookup_key (run_events cfg ∅ evs) k <> None -> opened_by cfg evs k.
Proof.
  induction evs as [|[now ev] evs IH] using rev_ind; intros Hes.
  { split; [apply empty_ok|]. intros k _ H. by rewrite lookup_key_empty in H. }
  apply Forall_app in Hes as [Hes He]. inversion He as [|? ? He' _]; subst. cbn [snd] in He'.
  destruct (IH Hes) as [Ht Hp]. unfold run_events in *. rewrite foldl_app. cbn [foldl].
  split; [by apply event_table_ok|]. intros k Hk Hl.
  assert (Hold : lookup_key (foldl (event_table cfg) ∅ evs) k <> None -> opened_by cfg (evs ++ [(now, ev)]) k).
  { intros H. destruct (Hp k Hk H) as (n & m & q & p & o & Hin & ?).
    exists n, m, q, p, o. split; [|done]. apply elem_of_app. by left. }
  destruct ev as [memory q p outbound|]; cbn [event_table] in Hl.
  - destruct (handle_table cfg memory _ q p outbound now k Ht He' Hk) as [_ H].
    destruct (lookup_key (foldl (event_table cfg) ∅ evs) k); [by apply Hold|].
    destruct (H Hl) as (-> & Hd & Ho & _). exists now, memory, q, p, outbound.
    split; [|done]. apply elem_of_app. right. by apply list_elem_of_singleton.
  - rewrite lookup_sweep in Hl by done.
    destruct (lookup_key (foldl (event_table cfg) ∅ evs) k); [by apply Hold|done].
Qed.

(** C31: only what was reflected is accepted, and only applications' traffic
    to the outside is reflected. After any run from start, a connection the
    listener accepts gets an original destination only if a SYN of an
    application on this machine to exactly that address and port 443 was
    diverted before, from the accepted peer's port: never to a private,
    loopback or multicast address, never from the daemon's own sockets; a
    connection from anywhere else is refused. Packets that are not diverted
    and not answers of the listeners leave the table alone and are sent
    unchanged, except QUIC handshakes to blocked addresses, which are
    dropped; that includes the TCP packets of every socket the daemon opens
    itself, whose port [tpp_prepare_socket] picked. *)
Theorem only_reflected_flows cfg evs :
  Forall (fun e => event_ok e.2) evs ->
  let t := run_events cfg ∅ evs in
  table_ok t /\
  (forall fam remote port fam' local lport d,
     addr_ok fam local -> addr_ok fam remote ->
     tpp_original_dst t (Some (fam', remote, port)) (Some (fam, local, lport)) = Some d ->
     d = (fam, remote, htons 443) /\
     exists now memory q p outbound, (now, EV_PACKET memory q p outbound) ∈ evs /\
       p_proto p = IPPROTO_TCP /\ p_syn p = true /\ p_ack p = false /\ p_family p = fam /\
       p_src p = local /\ p_sport p = port /\ p_dst p = remote /\ ntohs (p_dport p) = 443 /\
       own_port port = false /\
       (fam = 4 -> private_v4 remote = false) /\ (fam = 6 -> private_v6 remote = false)) /\
  (forall memory q p outbound now, listener_service cfg p = 0 -> diverted cfg p = false ->
     handle cfg memory t q p outbound now =
       (t, if negb (is_tcp p) && (ntohs (p_dport p) =? 443)
              && ((0 <? zlen (p_payload p)) && (0xC0 <=? bget (p_payload p) 0)
                  && quic_blocked q (p_family p) (p_dst p) now)
           then None else Some (p, outbound))) /\
  (forall own_next binds next' port, tpp_prepare_socket own_next binds = (next', Some port) ->
     (g_port cfg < OWN_PORT_LO \/ OWN_PORT_HI < g_port cfg) ->
     (g_dns_port cfg < OWN_PORT_LO \/ OWN_PORT_HI < g_dns_port cfg) ->
     forall memory q p outbound now, p_sport p = htons port -> p_proto p = IPPROTO_TCP ->
       handle cfg memory t q p outbound now = (t, Some (p, outbound))).
Proof.
  intros Hes t. destruct (run_provenance cfg evs Hes) as [Ht Hp]. fold t in Ht, Hp.
  split; [done|]. split; [|split; [intros; by apply handle_other|]].
  2: { intros own_next binds next' port E%tpp_prepare_socket_range ? ? memory q p outbound now ? ?.
       by apply (own_socket_passes _ _ _ _ _ _ _ port). }
  intros fam remote port fam' local lport d Hlo Hre. unfold tpp_original_dst. cbn [mbind option_bind].
  set (k := mk_key IPPROTO_TCP fam local port remote 443).
  change (find_flow t IPPROTO_TCP fam (Some local) port remote 443) with (lookup_key t k).
  destruct (lookup_key t k) as [f|] eqn:E; [|done]. intros [= <-].
  unfold addr_ok in Hre. rewrite <- Hre, bsub_all. split; [done|].
  destruct (Hp k) as (now & memory & q & p & outbound & Hin & Ek & Hd & Ho); [done|by rewrite E|].
  destruct (diverted_service cfg p Hd) as (Hown & Hsvc & _).
  injection Ek as Epr Efam Esrc Esp Edst Edp.
  destruct Hsvc as [(_ & _ & H4 & H6)|[H53 _]]; [|congruence].
  unfold opens, is_tcp in Ho. rewrite bool_decide_eq_true_2 in Ho by done. cbn in Ho.
  apply andb_prop in Ho as [Hsyn Hack%negb_true_iff].
  exists now, memory, q, p, outbound. subst. by repeat split.
Qed.

(** ** QUIC blocking *)

Definition quic_key (e : quic) : Z * list Z := (q_family e, q_addr e).
Record quic_ok (q : quic_table) : Prop := {
  qo_addrs : Forall (fun e => addr_ok (q_family e) (q_addr e)) q;
  qo_unique : NoDup (map quic_key q);
  qo_count : zlen q <= QUIC_MAX
}.

(** Until when an address is blocked. *)
Definition blocked_until (q : quic_table) (k : Z * list Z) : option Z :=
  q_until <$> find (fun e => bool_decide (quic_key e = k)) q.

Lemma quic_blocked_until q fam addr now :
  quic_ok q -> addr_ok fam addr ->
  quic_blocked q fam addr now =
    match blocked_until q (fam, addr) with Some u => now <? u | None => false end.
Proof.
  intros [Ha Hu _] Hk. unfold quic_blocked, blocked_until.
  induction q as [|e q IH]; [done|]. inversion Ha as [|? ? Ha1 Ha2]; subst.
  cbn [map] in Hu. apply NoDup_cons in Hu as [Hu1 Hu2]. cbn [existsb find].
  rewrite IH by done. clear IH.
  destruct (bool_decide_reflect (quic_key e = (fam, addr))) as [E|E].
  - unfold quic_key in E. injection E as E1 E2. cbn [fmap option_fmap option_map].
    rewrite E1, E2, Z.eqb_refl, same_bytes_eq, bool_decide_eq_true_2, andb_true_r by done. cbn [andb].
    destruct (now <? q_until e) eqn:L; [done|]. cbn [orb].
    destruct (find _ q) as [x|] eqn:F; [|done]. apply List.find_some in F as [F1 F2].
    apply bool_decide_eq_true in F2. exfalso. apply Hu1.
    replace (quic_key e) with (quic_key x) by (unfold quic_key in *; congruence).
    apply list_elem_of_fmap_2. by apply list_elem_of_In.
  - assert (Ee : (q_family e =? fam) && (now <? q_until e) && same_bytes fam (q_addr e) addr = false).
    { destruct (Z.eqb_spec (q_family e) fam) as [Ef|]; [|done]. rewrite <- Ef in *.
      rewrite same_bytes_eq by done.
      rewrite (bool_decide_eq_false_2 (q_addr e = addr)); [apply andb_false_r|].
      intros Ea. apply E. unfold quic_key. congruence. }
    by rewrite Ee.
Qed.

Lemma find_replace (l1 l2 : list quic) x e k :
  quic_key x = quic_key e ->
  Forall (fun y => quic_key y <> quic_key e) l1 ->
  find (fun y => bool_decide (quic_key y = k)) (l1 ++ e :: l2) =
    if bool_decide (quic_key e = k) then Some e
    else find (fun y => bool_decide (quic_key y = k)) (l1 ++ x :: l2).
Proof.
  intros Hx Hl. induction Hl as [|y l1 Hy _ IH]; cbn [app find].
  - rewrite Hx. by destruct (bool_decide (quic_key e = k)).
  - rewrite IH. destruct (bool_decide_reflect (quic_key y = k)) as [E|E]; [|done].
    rewrite bool_decide_eq_false_2; congruence.
Qed.

Lemma block_one_spec now q fam addr :
  quic_ok q -> addr_ok fam addr -> zlen q < QUIC_MAX \/ blocked_until q (fam, addr) <> None ->
  let q' := block_one now q (fam, addr) in
  quic_ok q' /\ zlen q' <= zlen q + 1 /\
  forall k, blocked_until q' k =
    if bool_decide ((fam, addr) = k) then Some (now + 3600000) else blocked_until q k.
Proof.
  intros Hq Ha Hroom. pose proof Hq as [H1 H2 H3]. unfold block_one.
  assert (Hb : bsub addr 0 (alen fam) = addr) by (unfold addr_ok in Ha; rewrite <- Ha; apply bsub_all).
  rewrite Hb. set (e := mk_quic fam addr _). assert (Ek : quic_key e = (fam, addr)) by done.
  assert (Hkey : forall x, x ∈ q ->
    (q_family x = fam /\ same_bytes fam (q_addr x) addr = true <-> quic_key x = (fam, addr))).
  { intros x Hx. rewrite Forall_forall in H1. specialize (H1 x Hx). unfold quic_key. split.
    - intros [<- Hs]. rewrite same_bytes_eq in Hs by done. apply bool_decide_eq_true in Hs. congruence.
    - intros [= <- <-]. split; [done|]. rewrite same_bytes_eq by done. by apply bool_decide_eq_true_2. }
  destruct (list_find _ q) as [[j x]|] eqn:F.
  - apply list_find_Some in F as (Hj & Px & Hbefore).
    apply (Hkey x) in Px; [|by apply list_elem_of_lookup_2 in Hj].
    pose proof (lookup_lt_Some _ _ _ Hj) as Hlt.
    rewrite insert_take_drop by done.
    pose proof (take_drop_middle q j x Hj) as Em. set (l1 := take j q) in *. set (l2 := drop (S j) q) in *.
    assert (Hl1 : Forall (fun y => quic_key y <> quic_key e) l1).
    { apply Forall_forall. intros y Hy E. rewrite <- Em, map_app in H2. apply NoDup_app in H2 as (_ & H2 & _).
      apply (H2 (quic_key y)); [by apply list_elem_of_fmap_2|]. rewrite E, Ek, <- Px. cbn. left. }
    clearbody l1 l2. subst q. split; [split|split].
    + apply Forall_app in H1 as [H1 H1']. inversion H1'; subst. apply Forall_app_2; [done|]. by constructor.
    + rewrite map_app in *. cbn [map] in *. by rewrite Ek, <- Px.
    + revert H3. unfold zlen. by rewrite !length_app.
    + unfold zlen. rewrite !length_app. cbn. lia.
    + intros k. unfold blocked_until. rewrite (find_replace l1 l2 x e k) by (done || congruence).
      rewrite Ek. by destruct (bool_decide _).
  - apply list_find_None in F.
    assert (Hn : Forall (fun y => quic_key y <> (fam, addr)) q).
    { apply Forall_forall. intros y Hy E. rewrite Forall_forall in F. by apply (F y Hy), Hkey. }
    assert (Hnone : blocked_until q (fam, addr) = None).
    { unfold blocked_until. clear - Hn. induction Hn as [|y q Hy _ IH]; [done|]. cbn [find].
      by rewrite bool_decide_eq_false_2. }
    destruct Hroom as [Hroom|Hroom]; [|done]. rewrite (proj2 (Z.ltb_lt _ _)) by done.
    split; [split|split].
    + apply Forall_app_2; [done|by constructor].
    + rewrite map_app. apply NoDup_app. split; [done|]. split; [|apply NoDup_singleton].
      intros z Hz Hz'. cbn in Hz'. apply list_elem_of_singleton in Hz' as ->.
      apply list_elem_of_fmap in Hz as (y & E & Hy). rewrite Forall_forall in Hn. by apply (Hn y Hy).
    + rewrite zlen_app. change (zlen [e]) with 1. lia.
    + rewrite zlen_app. done.
    + intros k. unfold blocked_until. clear - Hn Ek. induction Hn as [|y q Hy _ IH]; cbn [app find].
      * rewrite Ek. by destruct (bool_decide _).
      * destruct (bool_decide_reflect (quic_key y = k)) as [E|E]; [|done].
        by rewrite bool_decide_eq_false_2 by congruence.
Qed.

(** Blocking addresses for QUIC. As long as the table has room for them,
    every address given is blocked for an hour from now (again if it was
    before), and all others exactly as before; so for that hour a QUIC
    handshake to it is dropped, and packets of established QUIC connections,
    whose first byte is below 0xC0, are not. *)
Theorem tpp_quic_block_correct cfg q addrs now :
  quic_ok q -> Forall (fun a => addr_ok a.1 a.2) addrs -> zlen q + zlen addrs <= QUIC_MAX ->
  let q' := tpp_quic_block q addrs now in
  quic_ok q' /\
  (forall fam addr t, addr_ok fam addr ->
     quic_blocked q' fam addr t =
       if bool_decide ((fam, addr) ∈ addrs) then t <? now + 3600000 else quic_blocked q fam addr t) /\
  (forall memory t p outbound time, pkt_ok p -> (p_family p, p_dst p) ∈ addrs ->
     p_proto p = IPPROTO_UDP -> ntohs (p_dport p) = 443 -> listener_service cfg p = 0 ->
     time < now + 3600000 ->
     handle cfg memory t q' p outbound time =
       (t, if (0 <? zlen (p_payload p)) && (0xC0 <=? bget (p_payload p) 0)
           then None else Some (p, outbound))).
Proof.
  intros Hq Ha Hroom q'.
  assert (H : quic_ok q' /\ forall k, blocked_until q' k =
    if bool_decide (k ∈ addrs) then Some (now + 3600000) else blocked_until q k).
  { subst q'. revert q Hq Hroom. induction Ha as [|[fam addr] addrs Ha _ IH]; intros q Hq Hroom; [done|].
    rewrite zlen_cons in Hroom. pose proof (zlen_nonneg addrs). cbn [fst snd] in Ha.
    destruct (block_one_spec now q fam addr Hq Ha ltac:(lia)) as (Hq1 & Hc & Hl).
    destruct (IH _ Hq1 ltac:(lia)) as [Hq2 Hl2]. split; [done|]. intros k.
    change (tpp_quic_block q ((fam, addr) :: addrs) now)
      with (tpp_quic_block (block_one now q (fam, addr)) addrs now). rewrite Hl2, Hl.
    destruct (bool_decide_reflect (k ∈ addrs)) as [Hin|Hin].
    - by rewrite bool_decide_eq_true_2 by (by apply elem_of_cons; right).
    - destruct (bool_decide_reflect ((fam, addr) = k)) as [<-|Hne].
      + by rewrite bool_decide_eq_true_2 by (apply elem_of_cons; by left).
      + rewrite bool_decide_eq_false_2; [done|]. rewrite elem_of_cons. intros [->|]; done. }
  destruct H as [Hq' Hl]. split; [done|].
  assert (Hb : forall fam addr t, addr_ok fam addr -> quic_blocked q' fam addr t =
    if bool_decide ((fam, addr) ∈ addrs) then t <? now + 3600000 else quic_blocked q fam addr t).
  { intros fam addr t Hk. rewrite !quic_blocked_until, Hl by done. by destruct (bool_decide _). }
  split; [done|]. intros memory t p outbound time Hp Hin Hu H443 Hs Htime.
  rewrite handle_other; [|done|unfold diverted, is_tcp; rewrite Hs, Hu, H443; reflexivity].
  unfold is_tcp. rewrite Hu, H443, Hb by apply Hp. rewrite (bool_decide_eq_true_2 (_ ∈ addrs)) by done.
  rewrite (bool_decide_eq_false_2 (IPPROTO_UDP = IPPROTO_TCP)), (proj2 (Z.ltb_lt time _)), andb_true_r by done.
  by rewrite andb_true_r.
Qed.

(** ** A sample flow *)

Definition sample_cfg : config := mk_config 1091 1092 true.
(** 192.168.1.7 port 50000 connects to 93.184.216.34 port 443. *)
Definition sample_syn : pkt :=
  mk_pkt IPPROTO_TCP 4 [192; 168; 1; 7] [93; 184; 216; 34] (htons 50000) (htons 443)
    true false false false [].
Definition sample_answer : pkt :=
  mk_pkt IPPROTO_TCP 4 [192; 168; 1; 7] [93; 184; 216; 34] (htons 1091) (htons 50000)
    true true false false [].
Definition sample_initial : pkt :=
  mk_pkt IPPROTO_UDP 4 [192; 168; 1; 7] [93; 184; 216; 34] (htons 50001) (htons 443)
    false false false false [0xC3; 0; 0; 0; 1].

Lemma sample_ok : pkt_ok sample_syn /\ pkt_ok sample_initial /\ config_ok sample_cfg.
Proof. repeat split; vm_compute; congruence. Qed.

Lemma reflection_roundtrip_witness :
  exists t1, handle sample_cfg true ∅ [] sample_syn true 1000 = (t1, Some (reflected sample_cfg sample_syn, false)) /\
    exists t2 r', handle sample_cfg true (sweep_flows t1 20000) [] sample_answer true 20001 = (t2, Some (r', false)) /\
      p_src r' = [93; 184; 216; 34] /\ p_sport r' = htons 443.
Proof.
  destruct sample_ok as (Hp & _ & Hc).
  destruct (reflection_roundtrip sample_cfg ∅ [] sample_syn true 1000 true Hc empty_ok Hp
              ltac:(vm_compute; reflexivity) ltac:(right; split; reflexivity))
    as (t1 & E & _ & _ & _ & _ & H).
  exists t1. split; [exact E|].
  destruct (H [(20000, EV_SWEEP)]) as [H1 _].
  { apply Forall_singleton. split; [exact I|]. cbn. lia. }
  destruct (H1 true [] sample_answer true 20001) as (t2 & r' & E2 & Hs & _ & Hsp & _).
  { split; reflexivity. }
  exists t2, r'. split; [exact E2|]. split; [exact Hs|exact Hsp].
Defined.

Lemma only_reflected_flows_witness :
  table_ok (run_events sample_cfg ∅ [(1000, EV_PACKET true [] sample_syn true); (2000, EV_SWEEP)]) /\
  tpp_original_dst (run_events sample_cfg ∅ [(1000, EV_PACKET true [] sample_syn true); (2000, EV_SWEEP)])
    (Some (4, [93; 184; 216; 34], htons 50000)) (Some (4, [192; 168; 1; 7], htons 1091)) =
    Some (4, [93; 184; 216; 34], htons 443).
Proof.
  destruct sample_ok as (Hp & _ & _).
  destruct (only_reflected_flows sample_cfg [(1000, EV_PACKET true [] sample_syn true); (2000, EV_SWEEP)])
    as (H & _).
  { apply Forall_cons_2; [exact Hp|]. apply Forall_singleton. exact I. }
  split; [exact H|]. vm_compute. reflexivity.
Defined.

Lemma tpp_quic_block_correct_witness :
  handle sample_cfg true ∅ (tpp_quic_block [] [(4, [93; 184; 216; 34])] 0) sample_initial true 5000 = (∅, None).
Proof.
  destruct sample_ok as (_ & Hp & _).
  destruct (tpp_quic_block_correct sample_cfg [] [(4, [93; 184; 216; 34])] 0) as (_ & _ & H).
  { split; [constructor|constructor|vm_compute; discriminate]. }
  { apply Forall_singleton. reflexivity. }
  { vm_compute. discriminate. }
  rewrite (H true ∅ sample_initial true 5000 Hp ltac:(left) eq_refl ltac:(vm_compute; reflexivity)
             ltac:(vm_compute; reflexivity) ltac:(lia)). reflexivity.
Defined.
