(* ===== verification/Rules.v ===== *)
(** * Firewall rules ([src/transparent/policy.c], [pf_rules.c], [platform_linux.c])

    The texts the daemon hands to [nft] and [pfctl], the buffers they are
    built in, and the Linux platform functions that load and refresh them.
    The commands are parameters. The address ranges that are never
    intercepted are data here, so that the texts and the packet path of
    [Divert] can be compared. *)

From stdpp Require Import base list numbers strings relations.
From Stdlib Require Import ZArith Lia Btauto.
From S2P Require Import Prelude Text Socket Nft Divert.

(** ** nftables *)

Definition TP_NFT_TABLE : list Z := str "dpi_proxy_tp".
Definition TP_ALIVE_TIMEOUT_S : Z := 30.

Definition quote (s : list Z) : list Z := 34 :: s ++ [34].
Definition tab2 (s : list Z) : list Z := line (tab ++ tab ++ s).
Definition tab1 (s : list Z) : list Z := line (tab ++ s).

(** [snprintf(out, out_size, ...)] of a generator: the text, or nothing (the
    return value 0) when it does not fit. *)
Definition fits (out_size : Z) (text : list Z) : list Z :=
  if out_size <=? zlen text then [] else text.

Definition local4_text : list Z :=
  str "0.0.0.0/8, 10.0.0.0/8, 100.64.0.0/10, 127.0.0.0/8, 169.254.0.0/16, 172.16.0.0/12, 192.168.0.0/16, 224.0.0.0/3".
Definition nft_local6_text : list Z := str "::1, fc00::/7, fe80::/10, ff00::/8".

Definition nft_dns_rules (dns_port : Z) : list Z :=
  if 0 <? dns_port then
    tab2 (str "udp dport @alive_dns counter redirect to :" ++ print_dec dns_port) ++
    tab2 (str "tcp dport @alive_dns counter redirect to :" ++ print_dec dns_port)
  else [].

Definition nft_ruleset_text (port : Z) (ipv6 : bool) (dns_port : Z) : list Z :=
  line (str "table inet " ++ TP_NFT_TABLE ++ str " {}") ++
  line (str "delete table inet " ++ TP_NFT_TABLE) ++
  line (str "table inet " ++ TP_NFT_TABLE ++ str " {") ++
  tab1 (str "set alive { type inet_service; flags timeout; }") ++
  tab1 (str "set alive_dns { type inet_service; flags timeout; }") ++
  tab1 (str "set quic_block4 { type ipv4_addr; flags timeout; }") ++
  tab1 (str "set quic_block6 { type ipv6_addr; flags timeout; }") ++
  tab1 (str "chain output_nat {") ++
  tab2 (str "type nat hook output priority -100; policy accept;") ++
  tab2 (str "meta mark != 0 return") ++
  tab2 (str "oifname " ++ quote (str "lo") ++ str " return") ++
  (if ipv6 then [] else tab2 (str "meta nfproto ipv6 return")) ++
  nft_dns_rules dns_port ++
  tab2 (str "ip daddr { " ++ local4_text ++ str " } return") ++
  tab2 (str "ip6 daddr { " ++ nft_local6_text ++ str " } return") ++
  tab2 (str "tcp dport @alive counter redirect to :" ++ print_dec port) ++
  tab1 (str "}") ++
  tab1 (str "chain output_filter {") ++
  tab2 (str "type filter hook output priority 0; policy accept;") ++
  tab2 (str "meta mark != 0 return") ++
  tab2 (str "udp dport 443 ip daddr @quic_block4 counter reject") ++
  tab2 (str "udp dport 443 ip6 daddr @quic_block6 counter reject") ++
  tab1 (str "}") ++
  line (str "}").

Definition tp_nft_ruleset (out_size port : Z) (ipv6 : bool) (dns_port : Z) : list Z :=
  if 256 <=? zlen (nft_dns_rules dns_port) then []
  else fits out_size (nft_ruleset_text port ipv6 dns_port).

Definition alive_element (set : list Z) (port : list Z) : list Z :=
  line (str "add element inet " ++ TP_NFT_TABLE ++ str " " ++ set ++ str " { " ++ port ++
        str " timeout " ++ print_dec TP_ALIVE_TIMEOUT_S ++ str "s }").
Definition flush_set (set : list Z) : list Z :=
  line (str "flush set inet " ++ TP_NFT_TABLE ++ str " " ++ set).

Definition heartbeat_text : list Z :=
  flush_set (str "alive") ++ alive_element (str "alive") (str "443") ++ flush_set (str "alive_dns").

Definition tp_nft_heartbeat (out_size : Z) (dns : bool) : list Z :=
  match fits out_size heartbeat_text with
  | [] => []
  | _ => if dns then fits out_size (heartbeat_text ++ alive_element (str "alive_dns") (str "53"))
         else heartbeat_text
  end.

Definition block_element (set addr : list Z) : list Z :=
  line (str "add element inet " ++ TP_NFT_TABLE ++ str " " ++ set ++ str " { " ++ addr ++
        str " timeout " ++ print_dec TP_QUIC_BLOCK_TIMEOUT_S ++ str "s }").
Definition quic_block_text (family : Z) (addr : list Z) : list Z :=
  let set := if family =? 6 then str "quic_block6" else str "quic_block4" in
  block_element set addr ++
  line (str "delete element inet " ++ TP_NFT_TABLE ++ str " " ++ set ++ str " { " ++ addr ++ str " }") ++
  block_element set addr.

Definition tp_nft_quic_block (out_size family : Z) (addr : list Z) : list Z :=
  fits out_size (quic_block_text family addr).

(** ** PF *)

Definition TP_PF_ANCHOR : list Z := str "com.apple/dpi-proxy".
Definition TP_PF_OWN_PORT_LO : Z := 40000.
Definition TP_PF_OWN_PORT_HI : Z := 48999.
Definition TP_PF_QUIC_TABLE4 : list Z := str "dpi_quic4".
Definition TP_PF_QUIC_TABLE6 : list Z := str "dpi_quic6".

(** [t_out]: the bytes put so far ([len] of them) and [overflow]. *)
Record pf_out := mk_out { o_buf : list Z; o_overflow : bool }.

Definition put (size : Z) (o : pf_out) (s : list Z) : pf_out :=
  if o_overflow o then o else
  if size - zlen (o_buf o) <=? zlen s then mk_out (o_buf o) true
  else mk_out (o_buf o ++ s) false.

Definition pf_src : list Z :=
  str "from any port " ++ print_dec TP_PF_OWN_PORT_LO ++ str " <> " ++ print_dec TP_PF_OWN_PORT_HI.

Definition pf_local6_text : list Z := str "::/128, ::1/128, ::ffff:0:0/96, fc00::/7, fe80::/10, ff00::/8".

(** The arguments of the successive calls of [put]. *)
Definition pf_chunks (port : Z) (ipv6 : bool) (dns_port : Z) : list (list Z) :=
  let when (b : bool) (l : list (list Z)) := if b then l else [] in
  [line (str "# dpi-proxy transparent mode (anchor " ++ TP_PF_ANCHOR ++
         str "). Generated and owned by dpi-proxy;") ++ line (str "# removed when it stops.");
   line (str "table <dpi_local4> const { " ++ local4_text ++ str " }");
   line (str "table <dpi_local6> const { " ++ pf_local6_text ++ str " }");
   line (str "table <dpi_nodns6> const { ::1/128, fe80::/10, ff00::/8 }");
   line (str "table <" ++ TP_PF_QUIC_TABLE4 ++ str ">") ++ line (str "table <" ++ TP_PF_QUIC_TABLE6 ++ str ">");
   line (str "rdr pass on lo0 inet proto tcp " ++ pf_src ++
         str " to ! <dpi_local4> port 443 -> 127.0.0.1 port " ++ print_dec port)] ++
  when ipv6
    [line (str "rdr pass on lo0 inet6 proto tcp " ++ pf_src ++
           str " to ! <dpi_local6> port 443 -> ::1 port " ++ print_dec port)] ++
  when (0 <? dns_port)
    ([line (str "rdr pass on lo0 inet proto { udp, tcp } " ++ pf_src ++
            str " to ! 127.0.0.0/8 port 53 -> 127.0.0.1 port " ++ print_dec dns_port)] ++
     when ipv6
       [line (str "rdr pass on lo0 inet6 proto { udp, tcp } " ++ pf_src ++
              str " to ! <dpi_nodns6> port 53 -> ::1 port " ++ print_dec dns_port)]) ++
  [line (str "block return out quick inet proto udp from any to <" ++ TP_PF_QUIC_TABLE4 ++ str "> port 443");
   line (str "block return out quick inet6 proto udp from any to <" ++ TP_PF_QUIC_TABLE6 ++ str "> port 443");
   line (str "pass out quick on ! lo0 route-to (lo0 127.0.0.1) inet proto tcp " ++ pf_src ++
         str " to ! <dpi_local4> port 443 flags S/SA keep state")] ++
  when ipv6
    [line (str "pass out quick on ! lo0 route-to (lo0 ::1) inet6 proto tcp " ++ pf_src ++
           str " to ! <dpi_local6> port 443 flags S/SA keep state")] ++
  when (0 <? dns_port)
    ([line (str "pass out quick on ! lo0 route-to (lo0 127.0.0.1) inet proto udp " ++ pf_src ++
            str " to ! 127.0.0.0/8 port 53 keep state");
      line (str "pass out quick on ! lo0 route-to (lo0 127.0.0.1) inet proto tcp " ++ pf_src ++
            str " to ! 127.0.0.0/8 port 53 flags S/SA keep state")] ++
     when ipv6
       [line (str "pass out quick on ! lo0 route-to (lo0 ::1) inet6 proto udp " ++ pf_src ++
              str " to ! <dpi_nodns6> port 53 keep state");
        line (str "pass out quick on ! lo0 route-to (lo0 ::1) inet6 proto tcp " ++ pf_src ++
              str " to ! <dpi_nodns6> port 53 flags S/SA keep state")]).

(** The text; empty stands for the return value 0. *)
Definition tp_pf_ruleset (out_size port : Z) (ipv6 : bool) (dns_port : Z) : list Z :=
  let o := foldl (put out_size) (mk_out [] (out_size =? 0)) (pf_chunks port ipv6 dns_port) in
  if o_overflow o then [] else o_buf o.

(** ** Linux *)

Section linux.
Context {tables : Type}.
(** What [nft -f -] does with a script, and its exit status. *)
Context (nft : list Z -> tables -> tables * option Z).

(** The write loop of [nft_run] gives up at the first write of nothing. *)
Definition nft_run_text (r : nft_run) (text : list Z) : list Z :=
  (relay_send_all (nr_writes r) text).2.

Definition run_nft (r : nft_run) (text : list Z) (t : tables) : tables * Z :=
  if negb (nr_pipe r) then (t, -1) else
  if negb (nr_fork r) then (t, -1) else
  let '(t, status) := nft (nft_run_text r text) t in
  if negb (nr_wait r) then (t, -1) else
  match status with
  | Some code => if code =? 0 then (t, 0) else (t, -1)
  | None => (t, -1)
  end.

(** [g_port], [g_ipv6], [g_dns_port] and the tables of the machine. *)
Record platform := mk_platform {
  pl_port : Z; pl_ipv6 : bool; pl_dns_port : Z; pl_tables : tables
}.
Definition with_tables (s : platform) (t : tables) : platform :=
  mk_platform (pl_port s) (pl_ipv6 s) (pl_dns_port s) t.

Definition heartbeat (r : nft_run) (s : platform) : platform * Z :=
  let buf := tp_nft_heartbeat 512 (0 <? pl_dns_port s) in
  if zlen buf =? 0 then (s, -1) else
  let '(t, rc) := run_nft r buf (pl_tables s) in (with_tables s t, rc).

Definition tpp_install (r1 r2 : nft_run) (s : platform) (port : Z) (ipv6 : bool) (dns_port : Z)
  : platform * Z :=
  let buf := tp_nft_ruleset 3072 port ipv6 dns_port in
  if zlen buf =? 0 then (s, -1) else
  match run_nft r1 buf (pl_tables s) with
  | (t, 0) => heartbeat r2 (mk_platform port ipv6 dns_port t)
  | (t, _) => (with_tables s t, -1)
  end.

Definition tpp_refresh (r0 r1 r2 : nft_run) (s : platform) : platform * Z :=
  match heartbeat r0 s with
  | (s, 0) => (s, 0)
  | (s, _) =>
      match tpp_install r1 r2 s (pl_port s) (pl_ipv6 s) (pl_dns_port s) with
      | (s, 0) => (s, 1)
      | (s, _) => (s, -1)
      end
  end.

Definition tpp_remove_text : list Z :=
  line (str "table inet " ++ TP_NFT_TABLE ++ str " {}") ++ line (str "delete table inet " ++ TP_NFT_TABLE).
Definition tpp_remove (r : nft_run) (s : platform) : platform :=
  with_tables s (run_nft r (bsub tpp_remove_text 0 127) (pl_tables s)).1.

Definition DNS_MAX_ADDRS : Z := 8.

(** The loop that fills [script]; [addrs] are (family, address) pairs. *)
Fixpoint quic_script (addrs : list (Z * list Z)) (script : list Z) (i : Z) : list Z :=
  match addrs with
  | [] => script
  | (family, a) :: addrs' =>
      if DNS_MAX_ADDRS <=? i then script else
      let text := if family =? 6 then inet_ntop6 a else inet_ntop4 a in
      quic_script addrs'
        (script ++ tp_nft_quic_block (DNS_MAX_ADDRS * 512 - zlen script) family text) (i + 1)
  end.

Definition tpp_quic_block_script (addrs : list (Z * list Z)) : list Z := quic_script addrs [] 0.

Definition tpp_quic_block_linux (r : nft_run) (s : platform) (addrs : list (Z * list Z)) : platform :=
  let script := tpp_quic_block_script addrs in
  if 0 <? zlen script then with_tables s (run_nft r script (pl_tables s)).1 else s.

Definition quic_flush_text : list Z := flush_set (str "quic_block4") ++ flush_set (str "quic_block6").
Definition tpp_quic_flush_linux (r : nft_run) (s : platform) : platform :=
  with_tables s (run_nft r (bsub quic_flush_text 0 255) (pl_tables s)).1.

Definition tpp_conflict (r : nft_run) (s : platform) : option (list Z) * platform :=
  let '(t, rc) := run_nft r (line (str "list table ip dpibypass")) (pl_tables s) in
  (if rc =? 0 then Some (str "dpi-bypass table active") else None, with_tables s t).
End linux.

(** [answer]: what [getsockopt] stores (family AF_INET = 4, AF_INET6 = 6, any
    other number for another), [None] when it fails. *)
Definition v4mapped (a : list Z) : bool :=
  bool_decide (bsub a 0 12 = replicate 10 0 ++ [255; 255]).
Definition linux_original_dst (answer : option (Z * list Z * Z)) : option (Z * list Z * Z) :=
  '(family, addr, port) ← answer;
  if family =? 4 then
    if Z.shiftr (bget32 addr 0) 24 =? 127 then None else Some (family, addr, port)
  else if family =? 6 then
    if bool_decide (bsub addr 0 16 = loop6) || v4mapped addr then None else Some (family, addr, port)
  else None.

(** ** Texts and their buffers *)

Lemma zlen_print_dec_int n : - 2 ^ 31 <= n < 2 ^ 31 -> zlen (print_dec n) <= 21.
Proof.
  intros Hn. pose proof (print_dec_word n ltac:(unfold LONG_MIN, LONG_MAX; lia)) as (_ & H & _). lia.
Qed.

Lemma put_overflowed size buf cs : foldl (put size) (mk_out buf true) cs = mk_out buf true.
Proof. induction cs as [|c cs IH]; [done|exact IH]. Qed.

Lemma put_all size cs buf :
  zlen buf < size ->
  let o := foldl (put size) (mk_out buf false) cs in
  if size <=? zlen (buf ++ concat cs) then o_overflow o = true else o = mk_out (buf ++ concat cs) false.
Proof.
  revert buf. induction cs as [|c cs IH]; intros buf Hb; cbv zeta; cbn [foldl concat].
  - by rewrite app_nil_r, (proj2 (Z.leb_gt _ _)).
  - pose proof (zlen_nonneg (concat cs)).
    assert (E : put size (mk_out buf false) c =
      if size - zlen buf <=? zlen c then mk_out buf true else mk_out (buf ++ c) false) by done.
    rewrite E. destruct (Z.leb_spec (size - zlen buf) (zlen c)) as [H1|H1].
    + rewrite (proj2 (Z.leb_le size _)) by (rewrite !zlen_app; lia). by rewrite put_overflowed.
    + rewrite app_assoc. apply IH. rewrite zlen_app. lia.
Qed.

(** The generator returns the whole text or nothing. *)
Lemma tp_pf_ruleset_whole size port ipv6 dns_port :
  tp_pf_ruleset size port ipv6 dns_port = fits size (concat (pf_chunks port ipv6 dns_port)) \/ size < 0.
Proof.
  unfold tp_pf_ruleset, fits. destruct (Z.eqb_spec size 0) as [-> |Hz].
  - left. rewrite put_overflowed. cbn [o_overflow].
    pose proof (zlen_nonneg (concat (pf_chunks port ipv6 dns_port))).
    by rewrite (proj2 (Z.leb_le _ _)) by lia.
  - destruct (decide (size < 0)) as [|Hs]; [by right|left].
    pose proof (put_all size (pf_chunks port ipv6 dns_port) [] ltac:(change (zlen []) with 0; lia)) as H.
    cbv zeta in H. cbn [app] in H.
    destruct (size <=? zlen (concat (pf_chunks port ipv6 dns_port))); by rewrite H.
Qed.

(** Evaluates the lengths of closed texts. *)
Ltac text_lengths :=
  repeat rewrite ?zlen_app, ?zlen_cons;
  repeat match goal with
  | |- context [zlen (str ?s)] =>
      let n := eval vm_compute in (zlen (str s)) in change (zlen (str s)) with n
  end.

Definition is_int (n : Z) : Prop := - 2 ^ 31 <= n < 2 ^ 31.

Lemma nft_dns_rules_fit dns_port : is_int dns_port -> zlen (nft_dns_rules dns_port) < 256.
Proof.
  intros H. apply zlen_print_dec_int in H. unfold nft_dns_rules.
  destruct (0 <? dns_port); [|done]. set (d := print_dec dns_port) in *. clearbody d.
  unfold tab2, line. text_lengths. change (zlen tab) with 1. change (zlen (@nil Z)) with 0. lia.
Qed.

Lemma nft_ruleset_fits port ipv6 dns_port :
  is_int port -> is_int dns_port -> zlen (nft_ruleset_text port ipv6 dns_port) < 3072.
Proof.
  intros Hp Hd. apply zlen_print_dec_int in Hp. pose proof (nft_dns_rules_fit dns_port Hd).
  unfold nft_ruleset_text. set (d := print_dec port) in *. set (r := nft_dns_rules dns_port) in *.
  set (v6 := if ipv6 then [] else _).
  assert (Hv6 : zlen v6 <= 64) by (subst v6; destruct ipv6; vm_compute; congruence).
  clearbody d r v6. unfold tab2, tab1, line, quote, local4_text, nft_local6_text, TP_NFT_TABLE.
  text_lengths. change (zlen tab) with 1. change (zlen (@nil Z)) with 0. lia.
Qed.

Lemma pf_chunks_fit port ipv6 dns_port :
  is_int port -> is_int dns_port -> zlen (concat (pf_chunks port ipv6 dns_port)) < 8192.
Proof.
  intros Hp Hd. apply zlen_print_dec_int in Hp, Hd. unfold pf_chunks.
  set (p := print_dec port) in *. set (d := print_dec dns_port) in *. clearbody p d.
  assert (Hs : zlen pf_src = 28) by (vm_compute; reflexivity). set (src := pf_src) in *. clearbody src.
  unfold line, local4_text, pf_local6_text, TP_PF_ANCHOR, TP_PF_QUIC_TABLE4, TP_PF_QUIC_TABLE6.
  destruct ipv6, (0 <? dns_port); cbn [app concat]; text_lengths; change (zlen (@nil Z)) with 0; lia.
Qed.

(** One address takes less than its share of the script buffer. *)
Lemma quic_block_text_fits family addr :
  zlen addr <= 47 -> 0 < zlen (quic_block_text family addr) < 512.
Proof.
  intros Ha. pose proof (zlen_nonneg addr). unfold quic_block_text, block_element, line, TP_NFT_TABLE.
  assert (Ht : zlen (print_dec TP_QUIC_BLOCK_TIMEOUT_S) = 4) by (vm_compute; reflexivity).
  set (d := print_dec TP_QUIC_BLOCK_TIMEOUT_S) in *. clearbody d.
  destruct (family =? 6); text_lengths; change (zlen (@nil Z)) with 0; lia.
Qed.

Definition addr_text (a : Z * list Z) : list Z := if a.1 =? 6 then inet_ntop6 a.2 else inet_ntop4 a.2.

Lemma addr_text_length a : bytes_ok a.2 -> zlen (addr_text a) <= 47.
Proof.
  intros H. unfold addr_text. pose proof (zlen_inet_ntop6 a.2 H). pose proof (zlen_inet_ntop4 a.2 H).
  destruct (a.1 =? 6); lia.
Qed.

Lemma quic_script_whole addrs script i :
  Forall (fun a => bytes_ok a.2) addrs -> 0 <= i -> zlen script <= i * 511 ->
  quic_script addrs script i =
    script ++ concat (map (fun a => quic_block_text a.1 (addr_text a))
                        (take (Z.to_nat (DNS_MAX_ADDRS - i)) addrs)).
Proof.
  intros Ha. revert script i. induction Ha as [|[family a] addrs Ha _ IH]; intros script i Hi Hs.
  - cbn [quic_script]. by rewrite take_nil, app_nil_r.
  - cbn [quic_script]. unfold DNS_MAX_ADDRS in *. destruct (Z.leb_spec 8 i) as [H|H].
    + replace (Z.to_nat (8 - i)) with 0%nat by lia. by rewrite take_0, app_nil_r.
    + replace (Z.to_nat (8 - i)) with (S (Z.to_nat (8 - (i + 1)))) by lia. cbn [take map concat].
      pose proof (addr_text_length (family, a) Ha) as Hl.
      pose proof (quic_block_text_fits family (addr_text (family, a)) Hl) as Hb.
      unfold tp_nft_quic_block, fits.
      change (if family =? 6 then inet_ntop6 a else inet_ntop4 a) with (addr_text (family, a)).
      rewrite (proj2 (Z.leb_gt _ _)) by lia.
      rewrite IH, <- app_assoc by (rewrite ?zlen_app; lia). done.
Qed.

(** ** Address ranges *)

Record cidr := mk_cidr { c_prefix : list Z; c_len : Z }.

(** The address starts with the prefix: the first [c_len] bits agree. *)
Definition byte_mask (bits : Z) : Z := 256 - 2 ^ (8 - Z.max 0 (Z.min 8 bits)).
Fixpoint in_prefix (prefix : list Z) (len : Z) (a : list Z) : bool :=
  match prefix, a with
  | x :: prefix', y :: a' =>
      (Z.land x (byte_mask len) =? Z.land y (byte_mask len)) && in_prefix prefix' (len - 8) a'
  | _, _ => true
  end.
Definition in_cidr (a : list Z) (c : cidr) : bool := in_prefix (c_prefix c) (c_len c) a.

Definition local4 : list cidr :=
  [mk_cidr [0; 0; 0; 0] 8; mk_cidr [10; 0; 0; 0] 8; mk_cidr [100; 64; 0; 0] 10;
   mk_cidr [127; 0; 0; 0] 8; mk_cidr [169; 254; 0; 0] 16; mk_cidr [172; 16; 0; 0] 12;
   mk_cidr [192; 168; 0; 0] 16; mk_cidr [224; 0; 0; 0] 3].

Definition print_cidr (c : cidr) : list Z := inet_ntop4 (c_prefix c) ++ str "/" ++ print_dec (c_len c).
Fixpoint commas (l : list (list Z)) : list Z :=
  match l with
  | [] => []
  | [x] => x
  | x :: l' => x ++ str ", " ++ commas l'
  end.

(** The ranges the rulesets name. *)
Lemma local4_printed : commas (map print_cidr local4) = local4_text.
Proof. vm_compute. reflexivity. Qed.

(** Facts about a byte, by trying all of them. *)
Lemma all_bytes (f g : Z -> bool) :
  forallb (fun k => eqb (f (Z.of_nat k)) (g (Z.of_nat k))) (seq 0 256) = true ->
  forall x, is_u8 x -> f x = g x.
Proof.
  intros H x Hx. rewrite forallb_forall in H. unfold is_u8 in Hx.
  specialize (H (Z.to_nat x) ltac:(apply in_seq; lia)). rewrite Z2Nat.id in H by lia. by apply eqb_prop.
Qed.

(** The code of the Windows packet path leaves exactly the addresses alone
    that the firewall rules of Linux and macOS name. *)
Lemma private_v4_local4 a :
  zlen a = 4 -> bytes_ok a -> existsb (in_cidr a) local4 = private_v4 a.
Proof.
  intros Hl Ha. destruct a as [|x [|y [|z [|w [|v a]]]]]; try done.
  2: { rewrite !zlen_cons in Hl. pose proof (zlen_nonneg a). lia. }
  apply bytes_ok_cons in Ha as [Hx Ha]. apply bytes_ok_cons in Ha as [Hy Ha].
  assert (E : forall c0 c1 len, len <= 16 ->
    in_cidr [x; y; z; w] (mk_cidr [c0; c1; 0; 0] len) =
    (Z.land c0 (byte_mask len) =? Z.land x (byte_mask len))
    && (Z.land c1 (byte_mask (len - 8)) =? Z.land y (byte_mask (len - 8)))).
  { intros c0 c1 len Hn. unfold in_cidr. cbn [in_prefix c_prefix c_len].
    assert (H0 : forall n, n <= 0 -> byte_mask n = 0)
      by (intros n Hn'; unfold byte_mask; rewrite Z.min_r, Z.max_l by lia; done).
    rewrite (H0 (len - 8 - 8)), (H0 (len - 8 - 8 - 8)), !Z.land_0_r by lia. cbn. by rewrite andb_true_r. }
  unfold local4. cbn [existsb]. rewrite !E by lia. clear E.
  change (byte_mask 8) with 255. change (byte_mask 10) with 255. change (byte_mask 16) with 255.
  change (byte_mask 12) with 255. change (byte_mask 3) with 224.
  change (byte_mask (8 - 8)) with 0. change (byte_mask (10 - 8)) with 192.
  change (byte_mask (16 - 8)) with 255. change (byte_mask (12 - 8)) with 240.
  change (byte_mask (3 - 8)) with 0. rewrite !Z.land_0_r, Z.eqb_refl.
  assert (A : forall c b, is_u8 c -> is_u8 b -> (Z.land c 255 =? Z.land b 255) = (b =? c)).
  { intros c b Hc Hb. change 255 with (Z.ones 8). unfold is_u8 in *.
    rewrite !Z.land_ones, !Z.mod_small by lia. apply Z.eqb_sym. }
  rewrite !A by done. rewrite !(Z.eqb_sym (Z.land _ _) (Z.land y _)).
  rewrite (Z.eqb_sym (Z.land 224 224)).
  rewrite (all_bytes (fun x => Z.land x 224 =? Z.land 224 224) (fun x => 224 <=? x)
             ltac:(vm_compute; reflexivity) x Hx).
  unfold private_v4. rewrite bget_cons_0. change (bget [x; y; z; w] 1) with y.
  change (Z.land 64 192) with 64. change (Z.land 16 240) with 16. btauto.
Qed.

(** What the heartbeat script is, with the DNS redirect or without. *)
Definition heartbeat_whole (dns : bool) : list Z :=
  heartbeat_text ++ if dns then alive_element (str "alive_dns") (str "53") else [].

Lemma tp_nft_heartbeat_whole size dns : tp_nft_heartbeat size dns = fits size (heartbeat_whole dns).
Proof.
  assert (H0 : 0 < zlen heartbeat_text) by (vm_compute; reflexivity).
  unfold tp_nft_heartbeat, heartbeat_whole, fits.
  destruct (Z.leb_spec size (zlen heartbeat_text)) as [Hs|Hs].
  - rewrite (proj2 (Z.leb_le _ _)); [done|]. rewrite zlen_app.
    pose proof (zlen_nonneg (if dns then alive_element (str "alive_dns") (str "53") else [])). lia.
  - destruct heartbeat_text as [|x l] eqn:E; [done|]. destruct dns; [done|].
    rewrite app_nil_r. by rewrite (proj2 (Z.leb_gt _ _)).
Qed.

(** C29: the generated rule texts and their buffers. For every port and
    configuration, each of the four generators (nftables rules, PF rules, the
    heartbeat and a QUIC block) returns its complete text when it and its
    terminator fit, and nothing rather than a part of it in any smaller
    buffer; the buffers the daemon gives them are large enough. The script that
    blocks QUIC has exactly one whole block per address for the first eight
    addresses it is given and none for any further one. The IPv4 ranges that
    all of the texts leave alone are exactly the addresses the Windows packet
    path does not divert. *)
Theorem rulesets_complete port ipv6 dns_port :
  is_int port -> is_int dns_port ->
  (forall size, 0 <= size ->
     let whole text (out : list Z) := out = if size <=? zlen text then [] else text in
     whole (nft_ruleset_text port ipv6 dns_port) (tp_nft_ruleset size port ipv6 dns_port) /\
     whole (concat (pf_chunks port ipv6 dns_port)) (tp_pf_ruleset size port ipv6 dns_port) /\
     (forall dns, whole (heartbeat_whole dns) (tp_nft_heartbeat size dns)) /\
     (forall family addr, whole (quic_block_text family addr) (tp_nft_quic_block size family addr))) /\
  tp_nft_ruleset 3072 port ipv6 dns_port = nft_ruleset_text port ipv6 dns_port /\
  tp_pf_ruleset 8192 port ipv6 dns_port = concat (pf_chunks port ipv6 dns_port) /\
  (forall dns, tp_nft_heartbeat 512 dns = heartbeat_whole dns) /\
  (forall addrs, Forall (fun a => bytes_ok a.2) addrs ->
     tpp_quic_block_script addrs =
       concat (map (fun a => quic_block_text a.1 (addr_text a)) (take 8 addrs))) /\
  commas (map print_cidr local4) = local4_text /\
  (forall a, zlen a = 4 -> bytes_ok a -> existsb (in_cidr a) local4 = private_v4 a).
Proof.
  intros Hp Hd. pose proof (nft_ruleset_fits port ipv6 dns_port Hp Hd).
  pose proof (nft_dns_rules_fit dns_port Hd). pose proof (pf_chunks_fit port ipv6 dns_port Hp Hd).
  assert (Hn : forall size, tp_nft_ruleset size port ipv6 dns_port = fits size (nft_ruleset_text port ipv6 dns_port))
    by (intros size; unfold tp_nft_ruleset; by rewrite (proj2 (Z.leb_gt 256 _))).
  split; [|split; [|split; [|split; [|split; [|split]]]]].
  - intros size Hs. cbv zeta. split; [apply Hn|]. split; [|split; [|done]].
    + by destruct (tp_pf_ruleset_whole size port ipv6 dns_port) as [-> |]; [|lia].
    + intros dns. apply tp_nft_heartbeat_whole.
  - rewrite Hn. unfold fits. by rewrite (proj2 (Z.leb_gt _ _)).
  - destruct (tp_pf_ruleset_whole 8192 port ipv6 dns_port) as [-> |]; [|done].
    unfold fits. by rewrite (proj2 (Z.leb_gt _ _)).
  - intros []; vm_compute; reflexivity.
  - intros addrs Ha. unfold tpp_quic_block_script. rewrite quic_script_whole by done. done.
  - apply local4_printed.
  - apply private_v4_local4.
Qed.

(** With the largest ports; one byte less and nothing is returned. *)
Lemma rulesets_complete_witness :
  let text := nft_ruleset_text 65535 true 65535 in
  tp_nft_ruleset 3072 65535 true 65535 = text /\ 0 < zlen text /\
  tp_nft_ruleset (zlen text + 1) 65535 true 65535 = text /\ tp_nft_ruleset (zlen text) 65535 true 65535 = [].
Proof.
  cbv zeta. destruct (rulesets_complete 65535 true 65535) as (Hw & H & _).
  - split; vm_compute; congruence.
  - split; vm_compute; congruence.
  - pose proof (zlen_nonneg (nft_ruleset_text 65535 true 65535)).
    split; [exact H|]. split; [vm_compute; reflexivity|].
    split.
    + destruct (Hw (zlen (nft_ruleset_text 65535 true 65535) + 1) ltac:(lia)) as [-> _].
      by rewrite (proj2 (Z.leb_gt _ _)) by lia.
    + destruct (Hw (zlen (nft_ruleset_text 65535 true 65535)) ltac:(lia)) as [-> _].
      by rewrite (proj2 (Z.leb_le _ _)) by lia.
Defined.
