(* ===== verification/Nftsem.v ===== *)
(** * What the nftables scripts do ([src/transparent/policy.c], [platform_linux.c])

    The scripts of [Rules] as programs: the part of the nft language they use,
    as data with its text and with its documented meaning (a script is one
    transaction; the elements of a timed set vanish when their time is over; the
    first rule of a chain that matches decides). The theorem says which
    connections are redirected where, second by second, and for how long after
    the daemon is gone. *)

From stdpp Require Import base list numbers strings option gmap.
From Stdlib Require Import ZArith Lia.
From S2P Require Import Prelude Text Socket Nft Divert Rules.

(** ** The language *)

Inductive set_type := INET_SERVICE | IPV4_ADDR | IPV6_ADDR.
Inductive l4 := TCP | UDP.
#[export] Instance l4_eq_dec : EqDecision l4.
Proof. solve_decision. Defined.

Inductive matcher :=
| M_MARKED
| M_OIF (name : list Z)
| M_IPV6
| M_PORT (proto : l4) (port : Z)
| M_PORT_SET (proto : l4) (set : list Z)
| M_DADDR4 (ranges : list cidr)
| M_DADDR6 (ranges : list cidr)
| M_DADDR_SET (v6 : bool) (set : list Z).

Inductive verdict := RETURN | REDIRECT (port : Z) | REJECT.
Record rule := mk_rule { r_match : list matcher; r_verdict : verdict }.
Inductive hook := NAT_OUTPUT | FILTER_OUTPUT.
Record chain := mk_chain { ch_name : list Z; ch_hook : hook; ch_rules : list rule }.

(** The element of a set is a port number or the bytes of an address. *)
Inductive command :=
| TABLE_EMPTY (name : list Z)
| DELETE_TABLE (name : list Z)
| TABLE_DEF (name : list Z) (sets : list (list Z * set_type)) (chains : list chain)
| FLUSH_SET (name set : list Z)
| ADD_ELEMENT (name set : list Z) (type : set_type) (elem : list Z) (timeout : Z)
| DELETE_ELEMENT (name set : list Z) (type : set_type) (elem : list Z).

(** ** Its text *)

Definition print_cidr6 (c : cidr) : list Z :=
  inet_ntop6 (c_prefix c) ++ (if c_len c =? 128 then [] else str "/" ++ print_dec (c_len c)).
Definition proto_name (p : l4) : list Z := match p with TCP => str "tcp" | UDP => str "udp" end.

Definition print_matcher (m : matcher) : list Z :=
  match m with
  | M_MARKED => str "meta mark != 0"
  | M_OIF name => str "oifname " ++ quote name
  | M_IPV6 => str "meta nfproto ipv6"
  | M_PORT p port => proto_name p ++ str " dport " ++ print_dec port
  | M_PORT_SET p set => proto_name p ++ str " dport @" ++ set
  | M_DADDR4 l => str "ip daddr { " ++ commas (map print_cidr l) ++ str " }"
  | M_DADDR6 l => str "ip6 daddr { " ++ commas (map print_cidr6 l) ++ str " }"
  | M_DADDR_SET v6 set => (if v6 then str "ip6" else str "ip") ++ str " daddr @" ++ set
  end.
Definition print_verdict (v : verdict) : list Z :=
  match v with
  | RETURN => str "return"
  | REDIRECT port => str "counter redirect to :" ++ print_dec port
  | REJECT => str "counter reject"
  end.
Definition print_rule (r : rule) : list Z :=
  tab2 (concat (map (fun m => print_matcher m ++ str " ") (r_match r)) ++ print_verdict (r_verdict r)).
Definition print_hook (h : hook) : list Z :=
  match h with
  | NAT_OUTPUT => str "type nat hook output priority -100; policy accept;"
  | FILTER_OUTPUT => str "type filter hook output priority 0; policy accept;"
  end.
Definition print_chain (c : chain) : list Z :=
  tab1 (str "chain " ++ ch_name c ++ str " {") ++ tab2 (print_hook (ch_hook c)) ++
  concat (map print_rule (ch_rules c)) ++ tab1 (str "}").
Definition print_type (t : set_type) : list Z :=
  match t with INET_SERVICE => str "inet_service" | IPV4_ADDR => str "ipv4_addr" | IPV6_ADDR => str "ipv6_addr" end.
Definition print_set (s : list Z * set_type) : list Z :=
  tab1 (str "set " ++ s.1 ++ str " { type " ++ print_type s.2 ++ str "; flags timeout; }").
Definition print_elem (t : set_type) (e : list Z) : list Z :=
  match t with INET_SERVICE => print_dec (bget e 0) | IPV4_ADDR => inet_ntop4 e | IPV6_ADDR => inet_ntop6 e end.

Definition print_command (c : command) : list Z :=
  match c with
  | TABLE_EMPTY n => line (str "table inet " ++ n ++ str " {}")
  | DELETE_TABLE n => line (str "delete table inet " ++ n)
  | TABLE_DEF n sets chains =>
      line (str "table inet " ++ n ++ str " {") ++ concat (map print_set sets) ++ concat (map print_chain chains) ++ line (str "}")
  | FLUSH_SET n s => line (str "flush set inet " ++ n ++ str " " ++ s)
  | ADD_ELEMENT n s t e secs =>
      line (str "add element inet " ++ n ++ str " " ++ s ++ str " { " ++ print_elem t e ++ str " timeout " ++ print_dec secs ++ str "s }")
  | DELETE_ELEMENT n s t e =>
      line (str "delete element inet " ++ n ++ str " " ++ s ++ str " { " ++ print_elem t e ++ str " }")
  end.
Definition print_script (cs : list command) : list Z := concat (map print_command cs).

(** ** Its meaning *)

(** A set holds its elements with the time they vanish, in seconds. *)
Record table := mk_table { tb_sets : gmap (list Z) (gmap (list Z) Z); tb_chains : list chain }.
Notation ruleset := (gmap (list Z) table).

Definition live (elems : gmap (list Z) Z) (e : list Z) (now : Z) : bool :=
  match elems !! e with Some until => now <? until | None => false end.

Definition with_set (t : ruleset) (name set : list Z) (f : gmap (list Z) Z -> option (gmap (list Z) Z)) : option ruleset :=
  tb ← t !! name;
  s ← tb_sets tb !! set;
  s' ← f s;
  Some (<[name := mk_table (<[set := s']> (tb_sets tb)) (tb_chains tb)]> t).

Definition run_command (now : Z) (c : command) (t : ruleset) : option ruleset :=
  match c with
  | TABLE_EMPTY n => Some (match t !! n with Some _ => t | None => <[n := mk_table ∅ []]> t end)
  | DELETE_TABLE n => match t !! n with Some _ => Some (delete n t) | None => None end
  | TABLE_DEF n sets chains =>
      let tb := default (mk_table ∅ []) (t !! n) in
      Some (<[n := mk_table (tb_sets tb ∪ list_to_map (map (fun s => (s.1, ∅)) sets)) (tb_chains tb ++ chains)]> t)
  | FLUSH_SET n s => with_set t n s (fun _ => Some ∅)
  | ADD_ELEMENT n s _ e secs => with_set t n s (fun m => Some (if live m e now then m else <[e := now + secs]> m))
  | DELETE_ELEMENT n s _ e => with_set t n s (fun m => if live m e now then Some (delete e m) else None)
  end.

(** A transaction: all or nothing. *)
Fixpoint run_script (now : Z) (cs : list command) (t : ruleset) : option ruleset :=
  match cs with
  | [] => Some t
  | c :: cs => t ← run_command now c t; run_script now cs t
  end.

(** The first packet of a connection that a process of this machine makes. *)
Record packet := mk_pkt { p_mark : Z; p_oif : list Z; p_v6 : bool; p_daddr : list Z; p_proto : l4; p_dport : Z }.

Definition in_set (tb : table) (now : Z) (set e : list Z) : bool :=
  match tb_sets tb !! set with Some m => live m e now | None => false end.

Definition matcher_holds (tb : table) (now : Z) (p : packet) (m : matcher) : bool :=
  match m with
  | M_MARKED => negb (p_mark p =? 0)
  | M_OIF name => bool_decide (p_oif p = name)
  | M_IPV6 => p_v6 p
  | M_PORT proto port => bool_decide (p_proto p = proto) && (p_dport p =? port)
  | M_PORT_SET proto set => bool_decide (p_proto p = proto) && in_set tb now set [p_dport p]
  | M_DADDR4 l => negb (p_v6 p) && existsb (in_cidr (p_daddr p)) l
  | M_DADDR6 l => p_v6 p && existsb (in_cidr (p_daddr p)) l
  | M_DADDR_SET v6 set => Bool.eqb (p_v6 p) v6 && in_set tb now set (p_daddr p)
  end.

Fixpoint eval_rules (tb : table) (now : Z) (p : packet) (rs : list rule) : option verdict :=
  match rs with
  | [] => None
  | r :: rs => if forallb (matcher_holds tb now p) (r_match r) then Some (r_verdict r) else eval_rules tb now p rs
  end.

(** The port a connection is redirected to, and whether a packet is rejected,
    by the table of this name. *)
Definition hook_is (h : hook) (c : chain) : bool :=
  match h, ch_hook c with NAT_OUTPUT, NAT_OUTPUT | FILTER_OUTPUT, FILTER_OUTPUT => true | _, _ => false end.
Definition rules_at (h : hook) (tb : table) : list rule := concat (map ch_rules (List.filter (hook_is h) (tb_chains tb))).
Definition redirected (t : ruleset) (name : list Z) (now : Z) (p : packet) : option Z :=
  tb ← t !! name;
  match eval_rules tb now p (rules_at NAT_OUTPUT tb) with Some (REDIRECT port) => Some port | _ => None end.
Definition rejected (t : ruleset) (name : list Z) (now : Z) (p : packet) : bool :=
  match t !! name with
  | None => false
  | Some tb => match eval_rules tb now p (rules_at FILTER_OUTPUT tb) with Some REJECT => true | _ => false end
  end.

(** ** The daemon's scripts *)

Definition local6 : list cidr :=
  [mk_cidr (replicate 15 0 ++ [1]) 128; mk_cidr (0xfc :: replicate 15 0) 7; mk_cidr (0xfe :: 0x80 :: replicate 14 0) 10;
   mk_cidr (0xff :: replicate 15 0) 8].

Definition ALIVE := str "alive".
Definition ALIVE_DNS := str "alive_dns".
Definition QUIC4 := str "quic_block4".
Definition QUIC6 := str "quic_block6".

Definition nat_rules (port : Z) (ipv6 : bool) (dns_port : Z) : list rule :=
  [mk_rule [M_MARKED] RETURN; mk_rule [M_OIF (str "lo")] RETURN]
  ++ (if ipv6 then [] else [mk_rule [M_IPV6] RETURN])
  ++ (if 0 <? dns_port
      then [mk_rule [M_PORT_SET UDP ALIVE_DNS] (REDIRECT dns_port); mk_rule [M_PORT_SET TCP ALIVE_DNS] (REDIRECT dns_port)]
      else [])
  ++ [mk_rule [M_DADDR4 local4] RETURN; mk_rule [M_DADDR6 local6] RETURN; mk_rule [M_PORT_SET TCP ALIVE] (REDIRECT port)].
Definition filter_rules : list rule :=
  [mk_rule [M_MARKED] RETURN;
   mk_rule [M_PORT UDP 443; M_DADDR_SET false QUIC4] REJECT;
   mk_rule [M_PORT UDP 443; M_DADDR_SET true QUIC6] REJECT].

Definition install_script (port : Z) (ipv6 : bool) (dns_port : Z) : list command :=
  [TABLE_EMPTY TP_NFT_TABLE; DELETE_TABLE TP_NFT_TABLE;
   TABLE_DEF TP_NFT_TABLE
     [(ALIVE, INET_SERVICE); (ALIVE_DNS, INET_SERVICE); (QUIC4, IPV4_ADDR); (QUIC6, IPV6_ADDR)]
     [mk_chain (str "output_nat") NAT_OUTPUT (nat_rules port ipv6 dns_port);
      mk_chain (str "output_filter") FILTER_OUTPUT filter_rules]].
Definition heartbeat_script (dns : bool) : list command :=
  [FLUSH_SET TP_NFT_TABLE ALIVE; ADD_ELEMENT TP_NFT_TABLE ALIVE INET_SERVICE [443] TP_ALIVE_TIMEOUT_S;
   FLUSH_SET TP_NFT_TABLE ALIVE_DNS]
  ++ (if dns then [ADD_ELEMENT TP_NFT_TABLE ALIVE_DNS INET_SERVICE [53] TP_ALIVE_TIMEOUT_S] else []).
Definition block_script (a : Z * list Z) : list command :=
  let set := if a.1 =? 6 then QUIC6 else QUIC4 in
  let type := if a.1 =? 6 then IPV6_ADDR else IPV4_ADDR in
  [ADD_ELEMENT TP_NFT_TABLE set type a.2 TP_QUIC_BLOCK_TIMEOUT_S; DELETE_ELEMENT TP_NFT_TABLE set type a.2;
   ADD_ELEMENT TP_NFT_TABLE set type a.2 TP_QUIC_BLOCK_TIMEOUT_S].
Definition flush_script : list command := [FLUSH_SET TP_NFT_TABLE QUIC4; FLUSH_SET TP_NFT_TABLE QUIC6].
Definition remove_script : list command := [TABLE_EMPTY TP_NFT_TABLE; DELETE_TABLE TP_NFT_TABLE].

(** ** The texts are these programs *)

Lemma local6_printed : commas (map print_cidr6 local6) = nft_local6_text.
Proof. vm_compute. reflexivity. Qed.

Lemma install_text port ipv6 dns_port : nft_ruleset_text port ipv6 dns_port = print_script (install_script port ipv6 dns_port).
Proof.
  unfold nft_ruleset_text, nft_dns_rules, install_script, print_script, nat_rules, filter_rules.
  destruct ipv6, (0 <? dns_port);
    cbn [map concat app print_command]; unfold print_chain; cbn [map concat ch_name ch_hook ch_rules];
    unfold print_rule; cbn [map concat r_match r_verdict print_matcher print_verdict];
    rewrite local4_printed, local6_printed;
    generalize (print_dec port) (print_dec dns_port) local4_text nft_local6_text; intros;
    unfold tab1, tab2, line, tab, quote; rewrite <- !app_assoc; vm_compute; reflexivity.
Qed.

Lemma heartbeat_script_text (dns : bool) :
  heartbeat_text ++ (if dns then alive_element (str "alive_dns") (str "53") else []) = print_script (heartbeat_script dns).
Proof. destruct dns; vm_compute; reflexivity. Qed.

Lemma block_text a : quic_block_text a.1 (addr_text a) = print_script (block_script a).
Proof.
  unfold quic_block_text, addr_text, block_script, print_script, block_element.
  destruct (a.1 =? 6); cbn [map concat print_command print_elem];
    [generalize (inet_ntop6 a.2)|generalize (inet_ntop4 a.2)]; intros; unfold line; rewrite <- !app_assoc; vm_compute; reflexivity.
Qed.

Lemma flush_text : bsub quic_flush_text 0 255 = print_script flush_script.
Proof. vm_compute. reflexivity. Qed.
Lemma remove_text : bsub tpp_remove_text 0 127 = print_script remove_script.
Proof. vm_compute. reflexivity. Qed.

(** ** What the daemon does with the rules *)

Inductive op := BEAT | BLOCK (addrs : list (Z * list Z)) | FLUSH.

Definition op_script (dns : bool) (o : op) : list command :=
  match o with
  | BEAT => heartbeat_script dns
  | BLOCK addrs => concat (map block_script (take 8 addrs))
  | FLUSH => flush_script
  end.

Fixpoint run_ops (dns : bool) (ops : list (Z * op)) (t : ruleset) : option ruleset :=
  match ops with
  | [] => Some t
  | (now, o) :: ops => t ← run_script now (op_script dns o) t; run_ops dns ops t
  end.

(** Abstractly: the last heartbeat, and until when the QUIC of an address is
    blocked. *)
Record guard := mk_guard { gd_beat : option Z; gd_quic4 : gmap (list Z) Z; gd_quic6 : gmap (list Z) Z }.
Definition guard_init : guard := mk_guard None ∅ ∅.

Definition guard_block (now : Z) (g : guard) (a : Z * list Z) : guard :=
  let until := now + TP_QUIC_BLOCK_TIMEOUT_S in
  if a.1 =? 6 then mk_guard (gd_beat g) (gd_quic4 g) (<[a.2 := until]> (gd_quic6 g))
  else mk_guard (gd_beat g) (<[a.2 := until]> (gd_quic4 g)) (gd_quic6 g).
Definition guard_step (g : guard) (x : Z * op) : guard :=
  match x.2 with
  | BEAT => mk_guard (Some x.1) (gd_quic4 g) (gd_quic6 g)
  | BLOCK addrs => foldl (guard_block x.1) g (take 8 addrs)
  | FLUSH => mk_guard (gd_beat g) ∅ ∅
  end.

Definition guarded (g : guard) (now : Z) : bool :=
  match gd_beat g with Some h => now <? h + TP_ALIVE_TIMEOUT_S | None => false end.
Definition is_local (p : packet) : bool :=
  if p_v6 p then existsb (in_cidr (p_daddr p)) local6 else existsb (in_cidr (p_daddr p)) local4.

Definition should_redirect (port : Z) (ipv6 : bool) (dns_port : Z) (g : guard) (now : Z) (p : packet) : option Z :=
  if negb (p_mark p =? 0) || bool_decide (p_oif p = str "lo") || (negb ipv6 && p_v6 p) || negb (guarded g now) then None else
  if (0 <? dns_port) && (p_dport p =? 53) then Some dns_port else
  if bool_decide (p_proto p = TCP) && (p_dport p =? 443) && negb (is_local p) then Some port else None.

Definition should_reject (g : guard) (now : Z) (p : packet) : bool :=
  (p_mark p =? 0) && bool_decide (p_proto p = UDP) && (p_dport p =? 443)
  && live (if p_v6 p then gd_quic6 g else gd_quic4 g) (p_daddr p) now.

(** ** The table refines it *)

Definition sets_of (alive alive_dns quic4 quic6 : gmap (list Z) Z) : gmap (list Z) (gmap (list Z) Z) :=
  <[ALIVE := alive]> (<[ALIVE_DNS := alive_dns]> (<[QUIC4 := quic4]> {[QUIC6 := quic6]})).

Definition alive_elems (g : guard) (port : Z) : gmap (list Z) Z :=
  match gd_beat g with Some h => {[ [port] := h + TP_ALIVE_TIMEOUT_S ]} | None => ∅ end.

Definition table_of (port : Z) (ipv6 : bool) (dns_port : Z) (g : guard) : table :=
  mk_table (sets_of (alive_elems g 443) (if 0 <? dns_port then alive_elems g 53 else ∅) (gd_quic4 g) (gd_quic6 g))
    [mk_chain (str "output_nat") NAT_OUTPUT (nat_rules port ipv6 dns_port);
     mk_chain (str "output_filter") FILTER_OUTPUT filter_rules].

Lemma set_names : ALIVE <> ALIVE_DNS /\ ALIVE <> QUIC4 /\ ALIVE <> QUIC6 /\ ALIVE_DNS <> QUIC4 /\ ALIVE_DNS <> QUIC6 /\ QUIC4 <> QUIC6.
Proof. by repeat split. Qed.

(** Reading and replacing one of the four sets. *)
Lemma sets_of_lookup a d q4 q6 :
  sets_of a d q4 q6 !! ALIVE = Some a /\ sets_of a d q4 q6 !! ALIVE_DNS = Some d /\
  sets_of a d q4 q6 !! QUIC4 = Some q4 /\ sets_of a d q4 q6 !! QUIC6 = Some q6.
Proof. destruct set_names as (? & ? & ? & ? & ? & ?). unfold sets_of. by repeat split; simplify_map_eq. Qed.

Lemma sets_of_insert a d q4 q6 x :
  <[ALIVE := x]> (sets_of a d q4 q6) = sets_of x d q4 q6 /\ <[ALIVE_DNS := x]> (sets_of a d q4 q6) = sets_of a x q4 q6 /\
  <[QUIC4 := x]> (sets_of a d q4 q6) = sets_of a d x q6 /\ <[QUIC6 := x]> (sets_of a d q4 q6) = sets_of a d q4 x.
Proof.
  destruct set_names as (? & ? & ? & ? & ? & ?).
  unfold sets_of. repeat split; apply map_eq; intros k;
    destruct (decide (k = ALIVE)) as [->|]; destruct (decide (k = ALIVE_DNS)) as [->|];
    destruct (decide (k = QUIC4)) as [->|]; destruct (decide (k = QUIC6)) as [->|]; by simplify_map_eq.
Qed.

(** A set of a table that is there. *)
Lemma with_set_ok t n tb s m m' f :
  t !! n = Some tb -> tb_sets tb !! s = Some m -> f m = Some m' ->
  with_set t n s f = Some (<[n := mk_table (<[s := m']> (tb_sets tb)) (tb_chains tb)]> t).
Proof. intros H1 H2 H3. unfold with_set. by rewrite H1; cbn [mbind option_bind]; rewrite H2; cbn [mbind option_bind]; rewrite H3. Qed.

Lemma live_insert m e now secs : 0 < secs -> live (<[e := now + secs]> m) e now = true.
Proof. intros H. unfold live. rewrite lookup_insert_eq. apply Z.ltb_lt. lia. Qed.

Lemma run_script_app now a b t : run_script now (a ++ b) t = run_script now a t ≫= run_script now b.
Proof. revert t. induction a as [|c a IH]; intros t; [done|]. cbn [app run_script]. by destruct (run_command now c t); [apply IH|]. Qed.

Section refines.
Context (port : Z) (ipv6 : bool) (dns_port : Z).
Notation N := TP_NFT_TABLE.
Notation tbl := (table_of port ipv6 dns_port).

(** Blocking an address refreshes its time, whether it was there or not. *)
Lemma block_refines now a g t :
  t !! N = Some (tbl g) -> run_script now (block_script a) t = Some (<[N := tbl (guard_block now g a)]> t).
Proof.
  intros Ht. set (s := if a.1 =? 6 then QUIC6 else QUIC4). set (q := if a.1 =? 6 then gd_quic6 g else gd_quic4 g).
  set (until := now + TP_QUIC_BLOCK_TIMEOUT_S).
  assert (Hset : tb_sets (tbl g) !! s = Some q)
    by (destruct (sets_of_lookup (alive_elems g 443) (if 0 <? dns_port then alive_elems g 53 else ∅) (gd_quic4 g) (gd_quic6 g))
          as (_ & _ & H4 & H6); unfold s, q; destruct (a.1 =? 6); [exact H6|exact H4]).
  assert (Hput : mk_table (<[s := <[a.2 := until]> q]> (tb_sets (tbl g))) (tb_chains (tbl g)) = tbl (guard_block now g a)).
  { unfold table_of, guard_block, s, q. cbn [tb_sets tb_chains].
    destruct (sets_of_insert (alive_elems g 443) (if 0 <? dns_port then alive_elems g 53 else ∅) (gd_quic4 g) (gd_quic6 g)
      (<[a.2 := until]> (if a.1 =? 6 then gd_quic6 g else gd_quic4 g))) as (_ & _ & H4 & H6).
    destruct (a.1 =? 6); [by rewrite H6|by rewrite H4]. }
  unfold block_script. cbn [run_script run_command]. fold s.
  set (q1 := if live q a.2 now then q else <[a.2 := until]> q).
  assert (Hl : live q1 a.2 now = true) by (unfold q1; destruct (live q a.2 now) eqn:E; [done|by apply live_insert]).
  erewrite with_set_ok; [|exact Ht|exact Hset|reflexivity]. cbn [mbind option_bind].
  erewrite with_set_ok; [|by rewrite lookup_insert_eq|cbn [tb_sets]; by rewrite lookup_insert_eq|].
  2: { cbv beta. fold until. fold q1. by rewrite Hl. }
  cbn [mbind option_bind]. rewrite insert_insert_eq. cbn [tb_sets tb_chains].
  erewrite with_set_ok; [|by rewrite lookup_insert_eq|cbn [tb_sets]; by rewrite lookup_insert_eq|reflexivity].
  cbn [tb_sets tb_chains]. rewrite !insert_insert_eq.
  assert (E : (if live (delete a.2 q1) a.2 now then delete a.2 q1 else <[a.2 := until]> (delete a.2 q1)) = <[a.2 := until]> q).
  { unfold live at 1. rewrite lookup_delete_eq, insert_delete_eq. unfold q1.
    destruct (live q a.2 now); [done|]. by rewrite insert_insert_eq. }
  fold until. rewrite E, Hput. done.
Qed.

Lemma blocks_refine now addrs : forall g t,
  t !! N = Some (tbl g) ->
  run_script now (concat (map block_script addrs)) t = Some (<[N := tbl (foldl (guard_block now) g addrs)]> t).
Proof.
  induction addrs as [|a addrs IH]; intros g t Ht; cbn [map concat foldl]; [cbn [run_script]; by rewrite insert_id|].
  rewrite run_script_app, (block_refines now a g t Ht). cbn [mbind option_bind].
  rewrite (IH (guard_block now g a)) by (by rewrite lookup_insert_eq). by rewrite insert_insert_eq.
Qed.

Lemma beat_refines now g t :
  t !! N = Some (tbl g) ->
  run_script now (heartbeat_script (0 <? dns_port)) t = Some (<[N := tbl (guard_step g (now, BEAT))]> t).
Proof.
  intros Ht. unfold heartbeat_script. cbn [app].
  set (a := alive_elems g 443). set (d := if 0 <? dns_port then alive_elems g 53 else ∅).
  assert (Hl : forall a d, sets_of a d (gd_quic4 g) (gd_quic6 g) !! ALIVE = Some a /\
    sets_of a d (gd_quic4 g) (gd_quic6 g) !! ALIVE_DNS = Some d) by (intros; split; apply sets_of_lookup).
  assert (Hi : forall a d x, <[ALIVE := x]> (sets_of a d (gd_quic4 g) (gd_quic6 g)) = sets_of x d (gd_quic4 g) (gd_quic6 g) /\
    <[ALIVE_DNS := x]> (sets_of a d (gd_quic4 g) (gd_quic6 g)) = sets_of a x (gd_quic4 g) (gd_quic6 g))
    by (intros; split; apply sets_of_insert).
  cbn [run_script run_command].
  erewrite with_set_ok; [|exact Ht|apply Hl|reflexivity]. cbn [mbind option_bind tb_sets tb_chains table_of].
  rewrite (proj1 (Hi _ _ _)).
  erewrite with_set_ok; [|by rewrite lookup_insert_eq|apply Hl|reflexivity]. cbn [mbind option_bind tb_sets tb_chains].
  rewrite (proj1 (Hi _ _ _)), insert_insert_eq. change (live ∅ [443] now) with false. cbv iota.
  erewrite with_set_ok; [|by rewrite lookup_insert_eq|apply Hl|reflexivity]. cbn [mbind option_bind tb_sets tb_chains].
  rewrite (proj2 (Hi _ _ _)), insert_insert_eq. unfold table_of, guard_step, alive_elems. cbn [fst snd gd_beat gd_quic4 gd_quic6].
  destruct (0 <? dns_port); cbn [run_script run_command]; [|done].
  erewrite with_set_ok; [|by rewrite lookup_insert_eq|apply Hl|reflexivity]. cbn [mbind option_bind tb_sets tb_chains].
  rewrite (proj2 (Hi _ _ _)), insert_insert_eq. done.
Qed.

Lemma flush_refines now g t :
  t !! N = Some (tbl g) -> run_script now flush_script t = Some (<[N := tbl (guard_step g (now, FLUSH))]> t).
Proof.
  intros Ht. unfold flush_script. cbn [run_script run_command].
  set (a := alive_elems g 443). set (d := if 0 <? dns_port then alive_elems g 53 else ∅).
  erewrite with_set_ok; [|exact Ht|apply sets_of_lookup|reflexivity]. cbn [mbind option_bind tb_sets tb_chains table_of].
  destruct (sets_of_insert a d (gd_quic4 g) (gd_quic6 g) ∅) as (_ & _ & E4 & _). fold a d. rewrite E4.
  erewrite with_set_ok; [|by rewrite lookup_insert_eq|apply sets_of_lookup|reflexivity].
  cbn [mbind option_bind tb_sets tb_chains run_script].
  destruct (sets_of_insert a d ∅ (gd_quic6 g) ∅) as (_ & _ & _ & E6). rewrite E6, insert_insert_eq. done.
Qed.

Lemma ops_refine ops : forall g t,
  t !! N = Some (tbl g) -> run_ops (0 <? dns_port) ops t = Some (<[N := tbl (foldl guard_step g ops)]> t).
Proof.
  induction ops as [|[now o] ops IH]; intros g t Ht; cbn [run_ops foldl]; [by rewrite insert_id|].
  assert (E : run_script now (op_script (0 <? dns_port) o) t = Some (<[N := tbl (guard_step g (now, o))]> t)).
  { destruct o; [by apply beat_refines|by apply blocks_refine|by apply flush_refines]. }
  rewrite E. cbn [mbind option_bind]. rewrite (IH (guard_step g (now, o))) by (by rewrite lookup_insert_eq).
  by rewrite insert_insert_eq.
Qed.

(** Installing works over anything, and removes what was there. *)
Lemma install_refines now t : run_script now (install_script port ipv6 dns_port) t = Some (<[N := tbl guard_init]> t).
Proof.
  unfold install_script. cbn [run_script run_command].
  set (t1 := match t !! N with Some _ => t | None => _ end).
  assert (H1 : exists tb, t1 !! N = Some tb /\ delete N t1 = delete N t).
  { unfold t1. destruct (t !! N) as [tb|] eqn:E; [by exists tb|]. eexists. rewrite lookup_insert_eq. split; [done|].
    by rewrite delete_insert_eq. }
  destruct H1 as (tb & E1 & E2). cbn [mbind option_bind]. rewrite E1. cbn [mbind option_bind].
  rewrite E2, lookup_delete_eq. cbn [from_option tb_sets tb_chains app mbind option_bind run_script]. rewrite insert_delete_eq.
  do 2 f_equal. unfold table_of. f_equal. rewrite (left_id_L ∅ (∪)). unfold sets_of, alive_elems, guard_init.
  cbn [map fst gd_beat gd_quic4 gd_quic6 list_to_map foldr]. by destruct (0 <? dns_port).
Qed.

Lemma alive_live g x now y : live (alive_elems g x) [y] now = guarded g now && (y =? x).
Proof.
  unfold live, alive_elems, guarded. destruct (gd_beat g) as [h|]; [|by rewrite lookup_empty].
  destruct (Z.eqb_spec y x) as [->|Hne]; [by rewrite lookup_singleton_eq, andb_true_r|].
  rewrite lookup_singleton_ne by congruence. by rewrite andb_false_r.
Qed.

Lemma in_alive g now y : in_set (tbl g) now ALIVE [y] = guarded g now && (y =? 443).
Proof. unfold in_set. cbn [table_of tb_sets]. rewrite (proj1 (sets_of_lookup _ _ _ _)). apply alive_live. Qed.
Lemma in_alive_dns g now y : in_set (tbl g) now ALIVE_DNS [y] = (0 <? dns_port) && guarded g now && (y =? 53).
Proof.
  unfold in_set. cbn [table_of tb_sets]. rewrite (proj1 (proj2 (sets_of_lookup _ _ _ _))).
  destruct (0 <? dns_port); [apply alive_live|done].
Qed.

Lemma redirect_refines g now p t :
  t !! N = Some (tbl g) -> redirected t N now p = should_redirect port ipv6 dns_port g now p.
Proof.
  intros Ht. unfold redirected. rewrite Ht. cbn [mbind option_bind].
  change (rules_at NAT_OUTPUT (tbl g)) with (nat_rules port ipv6 dns_port ++ []). rewrite app_nil_r.
  unfold nat_rules, should_redirect, is_local.
  pose proof (in_alive g now (p_dport p)) as Ha. pose proof (in_alive_dns g now (p_dport p)) as Hd.
  assert (Ht4 : bool_decide (p_proto p = TCP) = negb (bool_decide (p_proto p = UDP))) by (by destruct (p_proto p)).
  destruct ipv6, (0 <? dns_port) eqn:Ed; cbn [app eval_rules forallb r_match r_verdict matcher_holds];
    rewrite ?Ha, ?Hd, ?Ed, ?Ht4;
    generalize (p_mark p =? 0) (bool_decide (p_oif p = str "lo")) (bool_decide (p_proto p = UDP)) (guarded g now)
      (p_dport p =? 53) (p_dport p =? 443) (existsb (in_cidr (p_daddr p)) local4) (existsb (in_cidr (p_daddr p)) local6) (p_v6 p);
    by intros [] [] [] [] [] [] [] [] [].
Qed.

Lemma reject_refines g now p t :
  t !! N = Some (tbl g) -> rejected t N now p = should_reject g now p.
Proof.
  intros Ht. unfold rejected. rewrite Ht.
  change (rules_at FILTER_OUTPUT (tbl g)) with (filter_rules ++ []). rewrite app_nil_r. unfold filter_rules, should_reject.
  assert (H4 : in_set (tbl g) now QUIC4 (p_daddr p) = live (gd_quic4 g) (p_daddr p) now)
    by (unfold in_set; cbn [table_of tb_sets]; by rewrite (proj1 (proj2 (proj2 (sets_of_lookup _ _ _ _))))).
  assert (H6 : in_set (tbl g) now QUIC6 (p_daddr p) = live (gd_quic6 g) (p_daddr p) now)
    by (unfold in_set; cbn [table_of tb_sets]; by rewrite (proj2 (proj2 (proj2 (sets_of_lookup _ _ _ _))))).
  cbn [eval_rules forallb r_match r_verdict matcher_holds]. rewrite H4, H6.
  destruct (p_v6 p);
    generalize (p_mark p =? 0) (bool_decide (p_proto p = UDP)) (p_dport p =? 443)
      (live (gd_quic4 g) (p_daddr p) now) (live (gd_quic6 g) (p_daddr p) now); by intros [] [] [] [] [].
Qed.
End refines.

(** ** The theorem *)

(** What the daemon hands to nft. *)
Definition op_text (dns : bool) (o : op) : list Z :=
  match o with
  | BEAT => tp_nft_heartbeat 512 dns
  | BLOCK addrs => tpp_quic_block_script addrs
  | FLUSH => bsub quic_flush_text 0 255
  end.
Definition op_ok (o : op) : Prop := match o with BLOCK addrs => Forall (fun a => bytes_ok a.2) addrs | _ => True end.

Lemma op_text_script dns o : op_ok o -> op_text dns o = print_script (op_script dns o).
Proof.
  destruct o as [|addrs|]; intros Ho; cbn [op_text op_script]; [|unfold tpp_quic_block_script; rewrite quic_script_whole by done|apply flush_text].
  - rewrite <- heartbeat_script_text. destruct dns; vm_compute; reflexivity.
  - rewrite Z.sub_0_r. change (Z.to_nat DNS_MAX_ADDRS) with 8%nat. cbn [app]. unfold print_script.
    induction (take 8 addrs) as [|a l IH]; [done|]. cbn [map concat]. rewrite map_app, concat_app, <- IH.
    f_equal. apply block_text.
Qed.

(** C18: the nftables rules. The texts given to nft are exactly these scripts.
    Whatever tables there were, installing succeeds, and so does every script
    after it. At any moment from then on a new connection is redirected exactly
    if the last heartbeat is less than 30 s old, it is not marked (the daemon's
    own sockets and those of other proxies are), not on the loopback interface
    and not IPv6 where that is off: DNS to the forwarder, whatever its address,
    and TCP to port 443 of a public address to the proxy; nothing else, and
    nothing at all 30 s after the last heartbeat. QUIC to an address is rejected
    exactly for an hour after it was blocked last, or until it is flushed, and
    never for a marked socket. Tables of others are not touched, and removing
    leaves the tables without ours. *)
Theorem nft_rules_correct port ipv6 dns_port ops start t :
  is_int port -> is_int dns_port -> Forall (fun x => op_ok x.2) ops ->
  let g := foldl guard_step guard_init ops in
  tp_nft_ruleset 3072 port ipv6 dns_port = print_script (install_script port ipv6 dns_port) /\
  Forall (fun x => op_text (0 <? dns_port) x.2 = print_script (op_script (0 <? dns_port) x.2)) ops /\
  bsub tpp_remove_text 0 127 = print_script remove_script /\
  exists t1 t2,
    run_script start (install_script port ipv6 dns_port) t = Some t1 /\ run_ops (0 <? dns_port) ops t1 = Some t2 /\
    (forall now p, redirected t2 TP_NFT_TABLE now p = should_redirect port ipv6 dns_port g now p) /\
    (forall now p, rejected t2 TP_NFT_TABLE now p = should_reject g now p) /\
    (forall now p, (forall h, gd_beat g = Some h -> h + TP_ALIVE_TIMEOUT_S <= now) -> redirected t2 TP_NFT_TABLE now p = None) /\
    (forall n, n <> TP_NFT_TABLE -> t2 !! n = t !! n) /\
    (forall now, run_script now remove_script t2 = Some (delete TP_NFT_TABLE t)).
Proof.
  intros Hp Hd Hops. cbv zeta. set (g := foldl guard_step guard_init ops).
  split.
  { rewrite <- install_text. unfold tp_nft_ruleset, fits. pose proof (nft_ruleset_fits port ipv6 dns_port Hp Hd).
    pose proof (nft_dns_rules_fit dns_port Hd). by rewrite !(proj2 (Z.leb_gt _ _)). }
  split. { eapply Forall_impl; [exact Hops|]. intros x Hx. by apply op_text_script. }
  split; [apply remove_text|].
  set (t1 := <[TP_NFT_TABLE := table_of port ipv6 dns_port guard_init]> t).
  set (t2 := <[TP_NFT_TABLE := table_of port ipv6 dns_port g]> t1).
  assert (H2 : t2 !! TP_NFT_TABLE = Some (table_of port ipv6 dns_port g)) by apply lookup_insert_eq.
  exists t1, t2. split; [apply install_refines|]. split; [apply ops_refine, lookup_insert_eq|].
  split; [intros; by apply redirect_refines|]. split; [intros; by eapply reject_refines|]. split.
  { intros now p Hnow. rewrite (redirect_refines port ipv6 dns_port g now p t2 H2). unfold should_redirect.
    assert (Hg : guarded g now = false).
    { unfold guarded. destruct (gd_beat g) as [h|]; [|done]. apply Z.ltb_ge. by apply Hnow. }
    by rewrite Hg, orb_true_r. }
  split; [intros n Hn; unfold t2, t1; by rewrite !lookup_insert_ne by done|].
  intros now. unfold remove_script. cbn [run_script run_command]. rewrite H2. cbn [mbind option_bind]. rewrite H2.
  cbn [mbind option_bind run_script]. unfold t2, t1. by rewrite insert_insert_eq, delete_insert_eq.
Qed.

(** A heartbeat at 100 s: a connection to 93.184.216.34 at 120 s is redirected,
    the same at 130 s is not, nor is the daemon's own. *)
Definition web (mark : Z) : packet := mk_pkt mark (str "eth0") false [93; 184; 216; 34] TCP 443.

Lemma nft_rules_correct_witness :
  exists t2, run_ops true [(100, BEAT); (101, BLOCK [(4, [93; 184; 216; 34])])]
      (<[TP_NFT_TABLE := table_of 1091 true 1053 guard_init]> ∅) = Some t2 /\
    redirected t2 TP_NFT_TABLE 120 (web 0) = Some 1091 /\ redirected t2 TP_NFT_TABLE 120 (web 0x2a4c) = None /\
    redirected t2 TP_NFT_TABLE 130 (web 0) = None /\
    rejected t2 TP_NFT_TABLE 3700 (mk_pkt 0 (str "eth0") false [93; 184; 216; 34] UDP 443) = true.
Proof.
  destruct (nft_rules_correct 1091 true 1053 [(100, BEAT); (101, BLOCK [(4, [93; 184; 216; 34])])] 99 ∅)
    as (_ & _ & _ & t1 & t2 & E1 & E2 & Hr & Hj & _).
  - unfold is_int. lia.
  - unfold is_int. lia.
  - repeat constructor; cbn; try (unfold is_u8; lia).
  - exists t2. rewrite install_refines in E1. injection E1 as <-. split; [exact E2|]. rewrite !Hr, Hj.
    split_and!; vm_compute; reflexivity.
Defined.
