(* ===== verification/Platform.v ===== *)
(** * The platform layer ([include/tp_platform.h], [src/transparent/platform_linux.c])

    What the transparent daemon asks of the system's packet filter, as an
    interface: the operations of [tp_platform.h] that the main loop calls, and
    the laws the daemon relies on: which rules the system has is observed
    ([intercepts]), whether it carries a removal out is a predicate
    ([op_removes]), and only such a removal is known to leave none. The Linux
    layer of [Rules] is an implementation; the one of macOS is in [Pf]. *)

From stdpp Require Import base list numbers strings option relations.
From Stdlib Require Import ZArith Lia.
From S2P Require Import Prelude Text Socket Nft Rules.

(** [op_run] is what the system does during one call, [installed] the ports the
    layer remembers for reinstalling, [intercepts] whether the system redirects
    traffic to them, and [op_removes] whether it carries a removal out. The
    daemon sees neither: [tpp_remove] returns nothing. *)
Class platform_layer := mk_layer {
  pl_state : Type;
  op_run : Type;
  installed : pl_state -> Z * bool * Z;
  intercepts : pl_state -> bool;
  op_install : op_run -> pl_state -> Z -> bool -> Z -> pl_state * Z;
  op_refresh : op_run -> pl_state -> pl_state * Z;
  op_remove : op_run -> pl_state -> pl_state;
  op_removes : op_run -> pl_state -> bool;
  op_quic_flush : op_run -> pl_state -> pl_state;
  op_conflict : op_run -> pl_state -> option (list Z) * pl_state;
  op_name : list Z;
  op_status_extra : pl_state -> list Z
}.

(** Installing remembers the ports; everything else but another install leaves
    them alone; a removal that the system carries out ends the interception; the
    texts fit where the daemon puts them. *)
Class platform_laws (P : platform_layer) : Prop := {
  law_install : forall r s port ipv6 dns_port,
    (op_install r s port ipv6 dns_port).2 = 0 ->
    installed (op_install r s port ipv6 dns_port).1 = (port, ipv6, dns_port);
  law_refresh : forall r s, installed (op_refresh r s).1 = installed s;
  law_remove : forall r s, op_removes r s = true -> intercepts (op_remove r s) = false;
  law_quic_flush : forall r s, installed (op_quic_flush r s) = installed s;
  law_conflict : forall r s, installed (op_conflict r s).2 = installed s;
  law_conflict_text : forall r s c, (op_conflict r s).1 = Some c -> zlen c <= 128;
  law_name : zlen op_name <= 16;
  law_extra : forall s, zlen (op_status_extra s) < 512
}.

(** ** Linux *)

Definition linux_name : list Z := str "nftables".
(** [tpp_status_extra] has nothing to add. *)
Definition linux_status_extra : list Z := [].

Section linux.
Context {tables : Type} (nft : list Z -> tables -> tables * option Z).
(** The program's table is there. *)
Context (present : tables -> bool).

(** [nft] was started, got the whole text and reports success. *)
Definition linux_removes (r : nft_run) (s : @platform tables) : bool :=
  nr_pipe r && nr_fork r && bool_decide (nft_run_text r tpp_remove_text = tpp_remove_text) &&
  bool_decide ((nft tpp_remove_text (pl_tables s)).2 = Some 0).

Definition linux_installed (s : @platform tables) : Z * bool * Z := (pl_port s, pl_ipv6 s, pl_dns_port s).

(** The runs of nft during one call, in order. *)
#[export] Instance linux_layer : platform_layer :=
  mk_layer (@platform tables) (nat -> nft_run) linux_installed (fun s => present (pl_tables s))
    (fun r s port ipv6 dns_port => tpp_install nft (r 0%nat) (r 1%nat) s port ipv6 dns_port)
    (fun r s => tpp_refresh nft (r 0%nat) (r 1%nat) (r 2%nat) s)
    (fun r s => tpp_remove nft (r 0%nat) s) (fun r s => linux_removes (r 0%nat) s)
    (fun r s => tpp_quic_flush_linux nft (r 0%nat) s)
    (fun r s => tpp_conflict nft (r 0%nat) s)
    linux_name (fun _ => linux_status_extra).

Lemma heartbeat_installed r (s : @platform tables) : linux_installed (heartbeat nft r s).1 = linux_installed s.
Proof. unfold heartbeat. cbv zeta. destruct (_ =? 0); [done|]. by destruct (run_nft _ _ _ _). Qed.

Lemma tpp_install_installed r1 r2 (s : @platform tables) port ipv6 dns_port :
  let '(s', rc) := tpp_install nft r1 r2 s port ipv6 dns_port in
  linux_installed s' = (port, ipv6, dns_port) \/ (rc = -1 /\ linux_installed s' = linux_installed s).
Proof.
  unfold tpp_install. cbv zeta. destruct (_ =? 0); [by right|].
  destruct (run_nft _ _ _ _) as [t [|q|q]]; [|by right|by right].
  pose proof (heartbeat_installed r2 (mk_platform port ipv6 dns_port t)) as H.
  destruct (heartbeat _ _ _). left. exact H.
Qed.

Lemma tpp_refresh_installed r0 r1 r2 (s : @platform tables) :
  linux_installed (tpp_refresh nft r0 r1 r2 s).1 = linux_installed s.
Proof.
  unfold tpp_refresh. pose proof (heartbeat_installed r0 s) as H.
  destruct (heartbeat _ _ _) as [s1 [|q|q]]; [done|..]; cbn [fst] in H; rewrite <- H;
    pose proof (tpp_install_installed r1 r2 s1 (pl_port s1) (pl_ipv6 s1) (pl_dns_port s1)) as Hi;
    destruct (tpp_install _ _ _ _ _ _ _) as [s2 rc]; destruct Hi as [Hi|[_ Hi]]; by destruct rc.
Qed.

(** A table that was deleted is gone. *)
Context (nft_deletes : forall t, (nft tpp_remove_text t).2 = Some 0 -> present (nft tpp_remove_text t).1 = false).

Lemma tpp_remove_gone r s : linux_removes r s = true -> present (pl_tables (tpp_remove nft r s)) = false.
Proof.
  unfold linux_removes. intros H. apply andb_true_iff in H as [[[Hp Hf]%andb_true_iff Ht%bool_decide_eq_true]%andb_true_iff He%bool_decide_eq_true].
  unfold tpp_remove, run_nft. change (bsub tpp_remove_text 0 127) with tpp_remove_text.
  rewrite Hp, Hf, Ht. cbn [negb]. apply nft_deletes in He. destruct (nft _ _) as [t [c|]], (nr_wait r); cbn [negb fst] in *; try done.
  by destruct (c =? 0).
Qed.

#[export] Instance linux_laws : platform_laws linux_layer.
Proof.
  split; cbn [linux_layer op_install op_refresh op_remove op_removes op_quic_flush op_conflict installed intercepts op_name op_status_extra].
  - intros r s port ipv6 dns_port. pose proof (tpp_install_installed (r 0%nat) (r 1%nat) s port ipv6 dns_port) as H.
    destruct (tpp_install _ _ _ _ _ _ _) as [s' rc]. cbn [fst snd]. intros ->. by destruct H as [H|[? _]].
  - intros. apply tpp_refresh_installed.
  - intros. by apply tpp_remove_gone.
  - done.
  - intros r s. unfold tpp_conflict. by destruct (run_nft _ _ _ _).
  - intros r s c. unfold tpp_conflict. destruct (run_nft _ _ _ _) as [t rc]. cbn [fst].
    destruct (rc =? 0); [|done]. injection 1 as <-. by vm_compute.
  - by vm_compute.
  - done.
Qed.
End linux.
