(* ===== verification/Windivert.v ===== *)
(** * The WinDivert platform layer ([src/transparent/platform_windows.c])

    Opening and closing the diversion: the filter text, the worker threads and
    their packet loop, install, refresh and remove, conflict detection and the
    network fingerprint. The packet path itself is in [Divert]. What the driver
    captures for a filter text is a parameter; its filter language is a small
    expression type here. A worker that does not end within the 5 seconds it is
    waited for is counted as a straggler. *)

From stdpp Require Import base list numbers strings gmap option relations.
From Stdlib Require Import ZArith Lia.
From S2P Require Import Prelude Text Discovery Platform Divert.

Definition WORKERS : nat := 4.

(** ** The filter *)

Definition win_filter (port dns_port : Z) : list Z :=
  bsub (if 0 <? dns_port then
          str "outbound and !loopback and !impostor and (" ++
          str "(tcp and (tcp.DstPort == 443 or tcp.SrcPort == " ++ print_dec port ++
          str " or tcp.DstPort == 53 or tcp.SrcPort == " ++ print_dec dns_port ++ str "))" ++
          str " or (udp and ((udp.DstPort == 443 and udp.Payload[0] >= 192)" ++
          str " or udp.DstPort == 53 or udp.SrcPort == " ++ print_dec dns_port ++ str ")))"
        else
          str "outbound and !loopback and !impostor and (" ++
          str "(tcp and (tcp.DstPort == 443 or tcp.SrcPort == " ++ print_dec port ++ str "))" ++
          str " or (udp and udp.DstPort == 443 and udp.Payload[0] >= 192))") 0 1023.

(** ** Packets *)

(** What [WinDivertHelperParsePacket] gives: the addresses of an IPv4 or IPv6
    header, a TCP header (ports and flags) or a UDP header, the payload. *)
Record helper := mk_helper {
  h_ip : option (list Z * list Z);
  h_ip6 : option (list Z * list Z);
  h_tcp : option (Z * Z * (bool * bool * bool * bool));
  h_udp : option (Z * Z);
  h_payload : list Z
}.

Definition parse (h : option helper) : option pkt :=
  h ← h;
  '(family, src, dst) ← match h_ip h, h_ip6 h with
                        | Some (s, d), _ => Some (4, s, d)
                        | None, Some (s, d) => Some (6, s, d)
                        | None, None => None
                        end;
  match h_tcp h, h_udp h with
  | Some (sp, dp, (syn, ack, fin, rst)), _ =>
      Some (mk_pkt IPPROTO_TCP family src dst sp dp syn ack fin rst (h_payload h))
  | None, Some (sp, dp) => Some (mk_pkt IPPROTO_UDP family src dst sp dp false false false false (h_payload h))
  | None, None => None
  end.

(** One turn of a worker: [g_running] is 0, [WinDivertRecv] fails for good or
    once, or there is a packet with its direction, the clock and whether
    [calloc] works. *)
Inductive win_event :=
| W_STOPPED
| W_SHUTDOWN
| W_TRANSIENT
| W_PACKET (h : option helper) (outbound : bool) (now : Z) (memory : bool).

(** What is sent: the rewritten packet, or the bytes as they came. *)
Inductive win_sent :=
| SENT (p : pkt) (outbound : bool)
| SENT_RAW (outbound : bool).

Fixpoint worker (cfg : config) (q : list quic) (evs : list win_event) (t : gmap Z (list flow))
  : gmap Z (list flow) * list win_sent :=
  match evs with
  | [] | W_STOPPED :: _ | W_SHUTDOWN :: _ => (t, [])
  | W_TRANSIENT :: evs => worker cfg q evs t
  | W_PACKET h outbound now memory :: evs =>
      match parse h with
      | None => let '(t, out) := worker cfg q evs t in (t, SENT_RAW outbound :: out)
      | Some p =>
          let '(t, r) := handle cfg memory t q p outbound now in
          let '(t, out) := worker cfg q evs t in
          (t, match r with Some (p, o) => SENT p o :: out | None => out end)
      end
  end.

(** ** State and operations *)

(** [g_div] is open, [g_threads] that are not NULL, the tables, how many driver
    and thread handles have been opened and closed, and how many workers were
    given up without having ended. *)
Record win := mk_win {
  w_cfg : config;
  w_div : bool;
  w_running : bool;
  w_threads : list bool;
  w_flows : gmap Z (list flow);
  w_quic : list quic;
  w_handles : Z * Z;
  w_stragglers : Z
}.

(** What the system does during a call: [WinDivertOpen], [CreateThread] for
    each worker, whether the first one still runs, whether a worker that is told
    to stop ends within the 5 seconds that it is waited for, and the clock. *)
Record win_run := mk_wrun {
  wr_open : bool; wr_threads : nat -> bool; wr_alive : bool; wr_ended : nat -> bool; wr_now : Z;
  wr_procs : option (list (list Z))
}.

Definition threads_open (w : win) : Z := zlen (List.filter id (w_threads w)).
Definition handles_open (w : win) : Z := (if w_div w then 1 else 0) + threads_open w.

(** The workers whose wait of 5 seconds times out; their handles are closed all
    the same. *)
Definition late_workers (ended : nat -> bool) (threads : list bool) : Z :=
  zlen (List.filter id (imap (fun i t => t && negb (ended i)) threads)).

Definition stop_workers (r : win_run) (w : win) : win :=
  mk_win (w_cfg w) false false (replicate WORKERS false) (w_flows w) (w_quic w)
    ((w_handles w).1, (w_handles w).2 + handles_open w)
    (w_stragglers w + late_workers (wr_ended r) (w_threads w)).

Definition win_remove (r : win_run) (w : win) : win :=
  let w := stop_workers r w in
  mk_win (w_cfg w) (w_div w) (w_running w) (w_threads w) free_flows (w_quic w) (w_handles w) (w_stragglers w).

Definition win_install (r : win_run) (w : win) (port : Z) (ipv6 : bool) (dns_port : Z) : win * Z :=
  let w := win_remove r w in
  let cfg := mk_config port dns_port ipv6 in
  if negb (wr_open r) then
    (mk_win cfg false (w_running w) (w_threads w) (w_flows w) (w_quic w) (w_handles w) (w_stragglers w), -1)
  else
    let threads := map (wr_threads r) (seq 0 WORKERS) in
    (mk_win cfg true true threads (w_flows w) (w_quic w)
       ((w_handles w).1 + 1 + zlen (List.filter id threads), (w_handles w).2) (w_stragglers w),
     if wr_threads r 0 then 0 else -1).

Definition win_refresh (r : win_run) (w : win) : win * Z :=
  let w := mk_win (w_cfg w) (w_div w) (w_running w) (w_threads w) (sweep_flows (w_flows w) (wr_now r)) (w_quic w) (w_handles w) (w_stragglers w) in
  if w_div w && default false (w_threads w !! 0%nat) && wr_alive r then (w, 0) else
  match win_install r w (g_port (w_cfg w)) (g_ipv6 (w_cfg w)) (g_dns_port (w_cfg w)) with
  | (w, 0) => (w, 1)
  | (w, _) => (w, -1)
  end.

Definition win_quic_flush (w : win) : win :=
  mk_win (w_cfg w) (w_div w) (w_running w) (w_threads w) (w_flows w) tpp_quic_flush (w_handles w) (w_stragglers w).
Definition win_quic_block (addrs : list (Z * list Z)) (now : Z) (w : win) : win :=
  mk_win (w_cfg w) (w_div w) (w_running w) (w_threads w) (w_flows w) (tpp_quic_block (w_quic w) addrs now) (w_handles w) (w_stragglers w).

(** The processes of a snapshot ([None]: there is none), in order. *)
Definition win_conflict (procs : option (list (list Z))) : option (list Z) :=
  procs ← procs;
  foldr (fun exe rest =>
           if ieq exe (str "goodbyedpi.exe") then Some (str "GoodbyeDPI is running")
           else if ieq exe (str "winws.exe") then Some (str "zapret (winws) is running") else rest) None procs.

Definition win_name : list Z := str "WinDivert".
Definition win_status_extra : list Z := [].

(** The route to 1.1.1.1: the interface's 8 bytes and the next hop's 4, and the
    neighbour's hardware address if the system knows it. *)
Definition win_network_fingerprint (route : option (list Z * list Z)) (neigh : option (list Z)) : Z :=
  match route with
  | None => NETFP_UNKNOWN
  | Some (luid, hop) =>
      let h := fnv1a FNV_BASIS luid in
      let h := fnv1a h hop in
      let h := match neigh with Some mac => fnv1a h mac | None => h end in
      if h =? NETFP_UNKNOWN then 1 else h
  end.

(** ** The filter language *)

Inductive fexp :=
| F_OUTBOUND | F_NOT_LOOPBACK | F_NOT_IMPOSTOR | F_TCP | F_UDP
| F_TCP_DST (n : Z) | F_TCP_SRC (n : Z) | F_UDP_DST (n : Z) | F_UDP_SRC (n : Z)
| F_PAYLOAD0 (n : Z)
| F_AND (a b : fexp) | F_OR (a b : fexp) | F_PAREN (a : fexp).

Fixpoint render_filter (e : fexp) : list Z :=
  match e with
  | F_OUTBOUND => str "outbound"
  | F_NOT_LOOPBACK => str "!loopback"
  | F_NOT_IMPOSTOR => str "!impostor"
  | F_TCP => str "tcp"
  | F_UDP => str "udp"
  | F_TCP_DST n => str "tcp.DstPort == " ++ print_dec n
  | F_TCP_SRC n => str "tcp.SrcPort == " ++ print_dec n
  | F_UDP_DST n => str "udp.DstPort == " ++ print_dec n
  | F_UDP_SRC n => str "udp.SrcPort == " ++ print_dec n
  | F_PAYLOAD0 n => str "udp.Payload[0] >= " ++ print_dec n
  | F_AND a b => render_filter a ++ str " and " ++ render_filter b
  | F_OR a b => render_filter a ++ str " or " ++ render_filter b
  | F_PAREN a => str "(" ++ render_filter a ++ str ")"
  end.

(** A packet on its way: its direction, and whether it is a loopback packet or
    one that a handle injected. *)
Record captured := mk_captured { cp_pkt : pkt; cp_outbound : bool; cp_loopback : bool; cp_impostor : bool }.

Fixpoint eval_filter (e : fexp) (c : captured) : bool :=
  let p := cp_pkt c in
  match e with
  | F_OUTBOUND => cp_outbound c
  | F_NOT_LOOPBACK => negb (cp_loopback c)
  | F_NOT_IMPOSTOR => negb (cp_impostor c)
  | F_TCP => is_tcp p
  | F_UDP => negb (is_tcp p)
  | F_TCP_DST n => is_tcp p && (ntohs (p_dport p) =? n)
  | F_TCP_SRC n => is_tcp p && (ntohs (p_sport p) =? n)
  | F_UDP_DST n => negb (is_tcp p) && (ntohs (p_dport p) =? n)
  | F_UDP_SRC n => negb (is_tcp p) && (ntohs (p_sport p) =? n)
  | F_PAYLOAD0 n => negb (is_tcp p) && (0 <? zlen (p_payload p)) && (n <=? bget (p_payload p) 0)
  | F_AND a b => eval_filter a c && eval_filter b c
  | F_OR a b => eval_filter a c || eval_filter b c
  | F_PAREN a => eval_filter a c
  end.

Definition filter_tail (port dns_port : Z) : fexp :=
  if 0 <? dns_port then
    F_OR (F_PAREN (F_AND F_TCP (F_PAREN (F_OR (F_TCP_DST 443) (F_OR (F_TCP_SRC port)
            (F_OR (F_TCP_DST 53) (F_TCP_SRC dns_port)))))))
         (F_PAREN (F_AND F_UDP (F_PAREN (F_OR (F_PAREN (F_AND (F_UDP_DST 443) (F_PAYLOAD0 192)))
            (F_OR (F_UDP_DST 53) (F_UDP_SRC dns_port))))))
  else
    F_OR (F_PAREN (F_AND F_TCP (F_PAREN (F_OR (F_TCP_DST 443) (F_TCP_SRC port)))))
         (F_PAREN (F_AND F_UDP (F_AND (F_UDP_DST 443) (F_PAYLOAD0 192)))).
Definition filter_expr (port dns_port : Z) : fexp :=
  F_AND F_OUTBOUND (F_AND F_NOT_LOOPBACK (F_AND F_NOT_IMPOSTOR (F_PAREN (filter_tail port dns_port)))).

(** ** Correctness *)

Lemma filter_text port dns_port :
  render_filter (filter_expr port dns_port) =
  if 0 <? dns_port then
    str "outbound and !loopback and !impostor and (" ++
    str "(tcp and (tcp.DstPort == 443 or tcp.SrcPort == " ++ print_dec port ++
    str " or tcp.DstPort == 53 or tcp.SrcPort == " ++ print_dec dns_port ++ str "))" ++
    str " or (udp and ((udp.DstPort == 443 and udp.Payload[0] >= 192)" ++
    str " or udp.DstPort == 53 or udp.SrcPort == " ++ print_dec dns_port ++ str ")))"
  else
    str "outbound and !loopback and !impostor and (" ++
    str "(tcp and (tcp.DstPort == 443 or tcp.SrcPort == " ++ print_dec port ++ str "))" ++
    str " or (udp and udp.DstPort == 443 and udp.Payload[0] >= 192))".
Proof.
  unfold filter_expr, filter_tail. destruct (0 <? dns_port); cbn [render_filter];
    generalize (print_dec port) (print_dec dns_port); intros a b; rewrite <- !app_assoc; reflexivity.
Qed.

(** The text fits its array whatever the ports. *)
Lemma win_filter_whole port dns_port :
  LONG_MIN <= port <= LONG_MAX -> LONG_MIN <= dns_port <= LONG_MAX ->
  win_filter port dns_port = render_filter (filter_expr port dns_port).
Proof.
  intros Hp Hd. rewrite filter_text. destruct (print_dec_word port Hp) as (_ & Hlp & _).
  destruct (print_dec_word dns_port Hd) as (_ & Hld & _). unfold win_filter.
  set (a := print_dec port) in *. set (b := print_dec dns_port) in *. clearbody a b.
  destruct (0 <? dns_port); (rewrite bsub_ge; [done|]); rewrite !zlen_app;
    repeat match goal with |- context [zlen ?l] =>
      lazymatch l with a => fail | b => fail | _ => let n := eval vm_compute in (zlen l) in change (zlen l) with n end
    end; lia.
Qed.

(** What the filter does not capture, the packet path leaves alone. *)
Lemma uncaptured_passes port ipv6 dns_port memory t q p now :
  eval_filter (filter_tail port dns_port) (mk_captured p true false false) = false ->
  handle (mk_config port dns_port ipv6) memory t q p true now = (t, Some (p, true)).
Proof.
  intros H. assert (Hs : listener_service (mk_config port dns_port ipv6) p = 0 /\
    (negb (is_tcp p) && (ntohs (p_dport p) =? 443) = true ->
     (0 <? zlen (p_payload p)) && (0xC0 <=? bget (p_payload p) 0) = false) /\
    (negb (is_tcp p) && (ntohs (p_dport p) =? 443) = false -> passes (mk_config port dns_port ipv6) p = true)).
  { unfold listener_service, passes, filter_tail in *. cbn [g_port g_dns_port g_ipv6].
    destruct (0 <? dns_port), (is_tcp p) eqn:Et; cbn [eval_filter cp_pkt] in H; rewrite Et in H; cbn [andb orb negb] in *;
      rewrite ?andb_true_r, ?andb_false_r, ?orb_false_r in *;
      repeat match type of H with _ || _ = false => apply orb_false_iff in H as [? H] end;
      repeat match goal with E : (_ =? _) = _ |- _ => rewrite E; clear E end;
      rewrite ?H; cbn [andb orb negb]; rewrite ?andb_true_r, ?andb_false_r; split_and!; try done;
      intros Hq; rewrite Hq in *; cbn [andb] in *; try done. }
  destruct Hs as (Hs & Hq & Hp). unfold handle. rewrite Hs. cbn [negb Z.eqb].
  destruct (negb (is_tcp p) && _).
  - by rewrite (Hq eq_refl).
  - rewrite (Hp eq_refl). by destruct (own_port (p_sport p)).
Qed.

(** ** The packet loop *)

(** The packets a worker gets before it ends. *)
Fixpoint received (evs : list win_event) : list (option helper) :=
  match evs with
  | [] | W_STOPPED :: _ | W_SHUTDOWN :: _ => []
  | W_TRANSIENT :: evs => received evs
  | W_PACKET h _ _ _ :: evs => h :: received evs
  end.

(** A QUIC handshake packet to a blocked address. *)
Definition quic_handshake (q : list quic) (p : pkt) : Prop :=
  is_tcp p = false /\ ntohs (p_dport p) = 443 /\ 0xC0 <= bget (p_payload p) 0 /\
  exists now, quic_blocked q (p_family p) (p_dst p) now = true.

Lemma handle_drops cfg memory t q p o now t' :
  handle cfg memory t q p o now = (t', None) -> quic_handshake q p.
Proof.
  unfold handle. cbv zeta.
  destruct (negb (listener_service cfg p =? 0)); [by destruct (find_flow _ _ _ _ _ _ _)|].
  destruct (is_tcp p) eqn:Et; cbn [negb andb].
  - destruct (own_port _); [done|]. destruct (passes _ _); [done|].
    by match goal with |- context [match ?m with Some _ => _ | None => (_, Some (p, o)) end] => destruct m end.
  - destruct (Z.eqb_spec (ntohs (p_dport p)) 443) as [E|_].
    + destruct (_ && _ && _) eqn:Eq; [|done]. intros _. apply andb_prop in Eq as [Eq Eb]. apply andb_prop in Eq as [_ Eq].
      apply Z.leb_le in Eq. split_and!; [done..|by exists now].
    + destruct (own_port _); [done|]. destruct (passes _ _); [done|].
      by match goal with |- context [match ?m with Some _ => _ | None => (_, Some (p, o)) end] => destruct m end.
Qed.

(** One packet out for every packet in, in order; none only for blocked QUIC. *)
Definition answered (q : list quic) (h : option helper) (out : list win_sent) : Prop :=
  (exists x, out = [x]) \/ (out = [] /\ exists p, parse h = Some p /\ quic_handshake q p).

Lemma worker_answers cfg q evs t :
  exists outs, (worker cfg q evs t).2 = concat outs /\ Forall2 (answered q) (received evs) outs.
Proof.
  revert t. induction evs as [|ev evs IH]; intros t; [by exists []|].
  destruct ev as [| | |h o now memory]; cbn [worker received]; [by exists []|by exists []|apply IH|].
  destruct (parse h) as [p|] eqn:Ep.
  - destruct (handle cfg memory t q p o now) as [t1 r] eqn:Eh. destruct (IH t1) as (outs & E & H).
    destruct (worker cfg q evs t1) as [t2 out]. cbn [snd] in *. subst out. destruct r as [[p' o']|].
    + exists ([SENT p' o'] :: outs). split; [done|]. constructor; [by left; eexists|done].
    + exists ([] :: outs). split; [done|]. constructor; [|done]. right. split; [done|]. exists p. split; [done|].
      by eapply handle_drops.
  - destruct (IH t) as (outs & E & H). destruct (worker cfg q evs t) as [t2 out]. cbn [snd] in *. subst out.
    exists ([SENT_RAW o] :: outs). split; [done|]. constructor; [by left; eexists|done].
Qed.

(** ** Handles *)

Definition balanced (w : win) : Prop := (w_handles w).1 - (w_handles w).2 = handles_open w.

Inductive win_step : win -> win -> Prop :=
| win_step_install r w port ipv6 dns_port : win_step w (win_install r w port ipv6 dns_port).1
| win_step_refresh r w : win_step w (win_refresh r w).1
| win_step_remove r w : win_step w (win_remove r w)
| win_step_block w addrs now : win_step w (win_quic_block addrs now w)
| win_step_flush w : win_step w (win_quic_flush w).

Lemma remove_balanced r w : balanced w -> balanced (win_remove r w).
Proof.
  unfold balanced, win_remove, stop_workers. cbn [w_handles fst snd].
  unfold handles_open at 3. unfold threads_open at 1. cbn [w_div w_threads].
  change (zlen (List.filter id (replicate WORKERS false))) with 0. lia.
Qed.

Lemma install_balanced r w port ipv6 dns_port : balanced w -> balanced (win_install r w port ipv6 dns_port).1.
Proof.
  intros H. apply (remove_balanced r) in H. unfold win_install. cbv zeta. destruct (wr_open r); cbn [negb fst]; [|exact H].
  set (th := map (wr_threads r) (seq 0 WORKERS)). clearbody th. revert H.
  assert (E : handles_open (win_remove r w) = 0) by done. unfold balanced. rewrite E.
  generalize (w_handles (win_remove r w)). intros [a b]. unfold handles_open, threads_open.
  cbn [w_handles w_div w_threads fst snd]. lia.
Qed.

Lemma step_balanced w w' : win_step w w' -> balanced w -> balanced w'.
Proof.
  intros [] H; [by apply install_balanced| |by apply remove_balanced|exact H|exact H].
  unfold win_refresh. cbv zeta. destruct (_ && _ && _); [exact H|].
  match goal with |- context [win_install ?r ?w ?a ?b ?c] => pose proof (install_balanced r w a b c H) as Hi end.
  by destruct (win_install _ _ _ _ _) as [w1 [|x|x]].
Qed.

Lemma steps_balanced w w' : rtc win_step w w' -> balanced w -> balanced w'.
Proof. induction 1 as [|x y z Hxy _ IH]; [done|]. intros Hx. by apply IH, (step_balanced x). Qed.

Lemma late_workers_bound ended threads : 0 <= late_workers ended threads <= zlen (List.filter id threads).
Proof.
  unfold late_workers. split; [apply zlen_nonneg|]. revert ended. induction threads as [|t threads IH]; intros ended; [done|].
  rewrite imap_cons. specialize (IH (fun i => ended (S i))). unfold compose. cbv beta in *.
  destruct t; cbn [andb List.filter id]; [|exact IH]. rewrite zlen_cons. destruct (ended 0%nat); cbn [negb]; [|rewrite zlen_cons]; lia.
Qed.

Lemma late_workers_none ended threads : (forall i, ended i = true) -> late_workers ended threads = 0.
Proof.
  intros H. unfold late_workers. revert ended H. induction threads as [|t threads IH]; intros ended H; [done|].
  rewrite imap_cons, H, andb_false_r. unfold compose. cbv beta. apply (IH (fun i => ended (S i))). intros i. apply H.
Qed.

(** C32: the diversion on Windows, for any ports that fit their type and any
    driver that evaluates the filter text as its documentation says. Every
    outbound packet, neither loopback nor injected, that the packet path would
    redirect or drop is captured: nothing that must be goes around it. (More is
    captured, such as the packets of the daemon's own ports, and goes out
    unchanged.) A worker sends one packet for every packet it gets, in order,
    except for the QUIC handshakes to blocked addresses. Whatever installs,
    refreshes, removals and QUIC calls happen and fail, handles of the driver
    and of threads are closed as often as they were opened, but for those in
    use. After a removal none is open, no flow is left, and no worker goes on
    but one that did not end in the 5 seconds it is waited for. An install that
    succeeds diverts with a worker running. *)
Theorem windivert_correct (captures : list Z -> captured -> bool) port ipv6 dns_port w0 w :
  LONG_MIN <= port <= LONG_MAX -> LONG_MIN <= dns_port <= LONG_MAX ->
  (forall c, captures (render_filter (filter_expr port dns_port)) c = eval_filter (filter_expr port dns_port) c) ->
  balanced w0 -> rtc win_step w0 w ->
  let cfg := mk_config port dns_port ipv6 in
  (forall memory t q p now,
     handle cfg memory t q p true now <> (t, Some (p, true)) ->
     captures (win_filter port dns_port) (mk_captured p true false false) = true) /\
  (forall q evs t, exists outs, (worker cfg q evs t).2 = concat outs /\ Forall2 (answered q) (received evs) outs) /\
  balanced w /\
  (forall r, let w' := win_remove r w in
   w_div w' = false /\ w_running w' = false /\ w_flows w' = ∅ /\ (w_handles w').1 = (w_handles w').2 /\
   w_stragglers w <= w_stragglers w' <= w_stragglers w + threads_open w /\
   ((forall i, wr_ended r i = true) -> w_stragglers w' = w_stragglers w)) /\
  (forall r, let '(w', rc) := win_install r w port ipv6 dns_port in
     w_cfg w' = cfg /\ (rc = 0 -> w_div w' = true /\ w_running w' = true /\ w_threads w' !! 0%nat = Some true)).
Proof.
  intros Hp Hd Hcap Hb Hs. cbv zeta. apply (steps_balanced w0) in Hs; [|done].
  split; [|split; [|split; [|split]]].
  - intros memory t q p now H. rewrite win_filter_whole, Hcap by done.
    change (eval_filter (filter_tail port dns_port) (mk_captured p true false false) = true).
    destruct (eval_filter _ _) eqn:E; [done|]. by destruct H; apply uncaptured_passes.
  - intros. apply worker_answers.
  - done.
  - intros r. apply (remove_balanced r) in Hs. unfold balanced in Hs.
    change (handles_open (win_remove r w)) with 0 in Hs.
    pose proof (late_workers_bound (wr_ended r) (w_threads w)) as Hl. pose proof (late_workers_none (wr_ended r) (w_threads w)) as Hn.
    unfold win_remove, stop_workers in *. cbn [w_div w_running w_flows w_stragglers w_handles fst snd] in *.
    unfold threads_open. split_and!; [done|done|done|lia|lia|lia|intros Hr; rewrite (Hn Hr); lia].
  - intros r. unfold win_install. cbv zeta. destruct (wr_open r); cbn [negb]; [|done].
    split; [done|]. cbn. destruct (wr_threads r 0); [done|lia].
Qed.

Definition win_start : win := mk_win (mk_config 0 0 false) false false (replicate 4 false) ∅ [] (0, 0) 0.
Definition sample_wrun : win_run := mk_wrun true (fun n => (n <? 3)%nat) true (fun n => negb (n =? 1)%nat) 1000 None.

(** A new connection to port 443 is redirected, so it is captured. *)
Lemma windivert_correct_witness :
  let captures := fun (_ : list Z) c => eval_filter (filter_expr 1091 1053) c in
  let p := mk_pkt IPPROTO_TCP 4 [192; 168; 1; 7] [93; 184; 216; 34] (htons 50000) (htons 443) true false false false [] in
  captures (win_filter 1091 1053) (mk_captured p true false false) = true /\
  let w := (win_install sample_wrun win_start 1091 true 1053).1 in
  w_handles w = (4, 0) /\ w_handles (win_remove sample_wrun w) = (4, 4) /\ w_stragglers (win_remove sample_wrun w) <= 3.
Proof.
  cbv zeta.
  destruct (windivert_correct (fun _ c => eval_filter (filter_expr 1091 1053) c) 1091 true 1053 win_start
    (win_install sample_wrun win_start 1091 true 1053).1) as (H1 & _ & _ & H4 & _).
  - unfold LONG_MIN, LONG_MAX. lia.
  - unfold LONG_MIN, LONG_MAX. lia.
  - intros c. reflexivity.
  - reflexivity.
  - apply rtc_once, win_step_install.
  - split.
    + apply (H1 true ∅ [] (mk_pkt IPPROTO_TCP 4 [192; 168; 1; 7] [93; 184; 216; 34] (htons 50000) (htons 443) true false false false []) 5).
      vm_compute. discriminate.
    + split; [reflexivity|]. destruct (H4 sample_wrun) as (_ & _ & _ & _ & H5 & _).
      split; [vm_compute; reflexivity|]. apply H5.
Defined.

(** ** The layer behind the interface *)

Definition win_installed (w : win) : Z * bool * Z := (g_port (w_cfg w), g_ipv6 (w_cfg w), g_dns_port (w_cfg w)).

Lemma win_install_installed r w port ipv6 dns_port :
  win_installed (win_install r w port ipv6 dns_port).1 = (port, ipv6, dns_port).
Proof. unfold win_install. cbv zeta. by destruct (negb (wr_open r)). Qed.

#[export] Instance win_layer : platform_layer :=
  mk_layer win win_run win_installed w_div win_install win_refresh win_remove (fun _ _ => true)
    (fun _ => win_quic_flush) (fun r w => (win_conflict (wr_procs r), w)) win_name (fun _ => win_status_extra).

#[export] Instance win_platform_laws : platform_laws win_layer.
Proof.
  split; cbn [win_layer op_install op_refresh op_remove op_removes op_quic_flush op_conflict installed intercepts op_name op_status_extra].
  - intros. apply win_install_installed.
  - intros r w. unfold win_refresh. cbv zeta. destruct (_ && _ && _); [done|].
    match goal with |- context [win_install ?r ?w ?a ?b ?c] => pose proof (win_install_installed r w a b c) as Hi end.
    destruct (win_install _ _ _ _ _) as [w' rc]. cbn [fst] in Hi. by destruct rc.
  - done.
  - done.
  - done.
  - intros r w c. cbn [fst]. unfold win_conflict. destruct (wr_procs r) as [procs|]; [|done]. cbn [mbind option_bind].
    induction procs as [|exe procs IH]; cbn [foldr]; [done|].
    destruct (ieq exe _); [by injection 1 as <-|]. destruct (ieq exe _); [by injection 1 as <-|done].
  - by vm_compute.
  - by vm_compute.
Qed.
