(* ===== verification/Watchdog.v ===== *)
(** * The PF watchdog ([src/transparent/platform_macos.c])

    The process that removes the macOS packet-filter rules when the daemon
    dies or hangs: it reads one-byte heartbeats, the PF token and the final
    message from a pipe, in whatever pieces they arrive, and acts on end of
    file, on silence and on signals. The daemon's side of the protocol is the
    list of messages it writes. *)

From stdpp Require Import base list numbers strings relations.
From Stdlib Require Import ZArith Lia.
From S2P Require Import Prelude Text Discovery.

Definition TP_ALIVE_TIMEOUT_S : Z := 30.

(** ** State *)

(** [token] is the array of 32 characters. *)
Record parser := mk_parser { token : list Z; tlen : Z; in_token : bool; clean : bool }.
Record watchdog := mk_wd { w_parser : parser; w_flushed : bool; w_last : Z }.

(** What the process does to the packet filter. *)
Inductive action :=
| FLUSH_ANCHOR
| RELEASE (token : list Z)
| FORGET (token : list Z).

(** ** The code *)

(** The body of the loop over [buf]: the parts that concern the messages. *)
Definition parse_byte (p : parser) (c : Z) : res unit parser :=
  if in_token p && isdigit c && (tlen p <? 31) then
    token' ← store (token p) (tlen p) [c];
    Ok (mk_parser token' (tlen p + 1) true (clean p))
  else if in_token p then
    token' ← store (token p) (tlen p) [0];
    Ok (mk_parser token' (tlen p) false (clean p))
  else if c =? 116 then Ok (mk_parser (token p) 0 true (clean p))
  else if c =? 113 then Ok (mk_parser (token p) (tlen p) (in_token p) true)
  else Ok p.

(** [last = awake_ms(); flushed = 0;] *)
Definition is_beat (p : parser) (c : Z) : bool := negb (in_token p) && (c =? 98).

Fixpoint read_bytes (w : watchdog) (now : Z) (buf : list Z) : res unit watchdog :=
  match buf with
  | [] => Ok w
  | c :: buf' =>
      p ← parse_byte (w_parser w) c;
      let w := if is_beat (w_parser w) c then mk_wd p false now else mk_wd p (w_flushed w) (w_last w) in
      read_bytes w now buf'
  end.

Definition wd_cleanup (tok : list Z) : list action :=
  FLUSH_ANCHOR :: if bool_decide (tok = []) then [] else [RELEASE tok; FORGET tok].

(** One [poll] and [read]. *)
Inductive input :=
| IN_NOTHING
| IN_DATA (buf : list Z)
| IN_END.

(** A round of the loop: the input, the clock when it is processed, whether a
    signal has arrived, the clock at the check. *)
Record round := mk_round { r_input : input; r_read : Z; r_term : bool; r_check : Z }.

(** Ends with [inr] and the final actions, or goes on. *)
Definition wd_round (w : watchdog) (r : round) : res unit ((watchdog * list action) + list action) :=
  match r_input r with
  | IN_END =>
      Ok (inr (if clean (w_parser w) then [] else wd_cleanup (cstr (token (w_parser w)))))
  | _ =>
      w ← match r_input r with IN_DATA buf => read_bytes w (r_read r) buf | _ => Ok w end;
      if r_term r then Ok (inr (wd_cleanup (cstr (token (w_parser w))))) else
      if negb (w_flushed w) && (TP_ALIVE_TIMEOUT_S * 1000 <? r_check r - w_last w)
      then Ok (inl (mk_wd (w_parser w) true (w_last w), [FLUSH_ANCHOR]))
      else Ok (inl (w, []))
  end.

(** The state and the actions after a list of rounds; [Some] when it ended. *)
Fixpoint wd_run (w : watchdog) (rs : list round) : res unit (watchdog * list action * option (list action)) :=
  match rs with
  | [] => Ok (w, [], None)
  | r :: rs' =>
      x ← wd_round w r;
      match x with
      | inr final => Ok (w, [], Some final)
      | inl (w', acts) =>
          '(w'', acts', fin) ← wd_run w' rs';
          Ok (w'', acts ++ acts', fin)
      end
  end.

(** [array]: the uninitialised [token] with its first byte set to 0. *)
Definition wd_start (array : list Z) (now : Z) : watchdog :=
  mk_wd (mk_parser (bput array 0 [0]) 0 false false) false now.

(** ** The daemon's side *)

Inductive message := BEAT | TOKEN (digits : list Z) | QUIT.
Definition render_message (m : message) : list Z :=
  match m with BEAT => [98] | TOKEN d => 116 :: d ++ [10] | QUIT => [113] end.
Definition wire (ms : list message) : list Z := concat (map render_message ms).

(** A token fits [g_token] and is a number. *)
Definition message_ok (m : message) : Prop :=
  match m with TOKEN d => Forall (fun c => isdigit c = true) d /\ 0 < zlen d <= 31 | _ => True end.

(** The token the watchdog should know, and whether it was told to leave. *)
Fixpoint last_token (ms : list message) (tok : list Z) : list Z :=
  match ms with
  | [] => tok
  | TOKEN d :: ms' => last_token ms' d
  | _ :: ms' => last_token ms' tok
  end.
Definition told_to_quit (ms : list message) : bool :=
  existsb (fun m => match m with QUIT => true | _ => false end) ms.

(** The bytes a run has read. *)
Definition round_bytes (r : round) : list Z := match r_input r with IN_DATA buf => buf | _ => [] end.
Definition bytes_read (rs : list round) : list Z := concat (map round_bytes rs).

(** ** The parser *)

Fixpoint parse_bytes (p : parser) (buf : list Z) : res unit parser :=
  match buf with
  | [] => Ok p
  | c :: buf' => p ← parse_byte p c; parse_bytes p buf'
  end.

Record parser_ok (p : parser) : Prop := {
  po_array : zlen (token p) = 32;
  po_len : 0 <= tlen p <= 31
}.

Lemma parse_byte_ok p c : parser_ok p -> exists p', parse_byte p c = Ok p' /\ parser_ok p'.
Proof.
  intros [Ha Hl]. unfold parse_byte.
  assert (Hst : forall x, store (E := unit) (token p) (tlen p) [x] = Ok (bput (token p) (tlen p) [x]))
    by (intros x; apply store_Ok; change (zlen [x]) with 1; lia).
  assert (Hb : forall x, zlen (bput (token p) (tlen p) [x]) = 32)
    by (intros x; rewrite zlen_bput; [done|lia|change (zlen [x]) with 1; lia]).
  destruct (in_token p && isdigit c && (tlen p <? 31)) eqn:E.
  { zbool. rewrite Hst. eexists. split; [done|]. split; cbn; [apply Hb|lia]. }
  destruct (in_token p). { rewrite Hst. eexists. split; [done|]. split; cbn; [apply Hb|lia]. }
  destruct (c =? 116); [by eexists; split; [done|]; split; cbn; [|lia]|].
  destruct (c =? 113); by eexists; split; [done|]; split.
Qed.

Lemma parse_bytes_app p a b : parse_bytes p (a ++ b) = (p' ← parse_bytes p a; parse_bytes p' b).
Proof.
  revert p. induction a as [|c a IH]; intros p; cbn [app parse_bytes]; [done|].
  destruct (parse_byte p c); cbn [mbind res_bind]; [apply IH|done|done].
Qed.

Lemma parse_bytes_ok p buf : parser_ok p -> exists p', parse_bytes p buf = Ok p' /\ parser_ok p'.
Proof.
  revert p. induction buf as [|c buf IH]; intros p Hp; [by eauto|]. cbn [parse_bytes].
  destruct (parse_byte_ok p c Hp) as (p1 & -> & H1). by apply IH.
Qed.

(** Reading the digits of a token. *)
Lemma parse_digits d p pre :
  parser_ok p -> in_token p = true -> pre `prefix_of` (token p) -> tlen p = zlen pre ->
  Forall (fun c => isdigit c = true) d -> zlen pre + zlen d <= 31 ->
  exists p', parse_bytes p d = Ok p' /\ parser_ok p' /\ in_token p' = true /\ clean p' = clean p /\
    (pre ++ d) `prefix_of` (token p') /\ tlen p' = zlen (pre ++ d).
Proof.
  intros Hp Hin Hpre Hlen Hd. revert p pre Hp Hin Hpre Hlen.
  induction Hd as [|c d Hc _ IH]; intros p pre Hp Hin Hpre Hlen Hfit.
  { exists p. rewrite app_nil_r. done. }
  rewrite zlen_cons in Hfit. pose proof (zlen_nonneg d). pose proof (zlen_nonneg pre).
  cbn [parse_bytes]. unfold parse_byte. rewrite Hin, Hc, (proj2 (Z.ltb_lt _ _)) by lia. cbn [andb].
  assert (W : wp (store (E := unit) (token p) (tlen p) [c])
     (fun t => (pre ++ [c]) `prefix_of` t /\ zlen t = 32) (fun _ => False)).
  { rewrite Hlen. apply (wp_store_after pre _ _ 32); [done|by destruct Hp|change (zlen [c]) with 1; lia|done]. }
  destruct (store (token p) (tlen p) [c]) as [t|e|]; [|done|done]. destruct W as [W1 W2].
  cbn [mbind res_bind].
  destruct (IH (mk_parser t (tlen p + 1) true (clean p)) (pre ++ [c])) as (p' & E & H1 & H2 & H3 & H4 & H5).
  - split; cbn; [done|lia].
  - done.
  - done.
  - cbn. rewrite zlen_app. change (zlen [c]) with 1. lia.
  - rewrite zlen_app. change (zlen [c]) with 1. lia.
  - exists p'. rewrite <- app_assoc in H4, H5. done.
Qed.

(** One message, from between messages to between messages. *)
Lemma parse_message m p :
  parser_ok p -> in_token p = false -> message_ok m ->
  exists p', parse_bytes p (render_message m) = Ok p' /\ parser_ok p' /\ in_token p' = false /\
    clean p' = clean p || told_to_quit [m] /\ cstr (token p') = last_token [m] (cstr (token p)).
Proof.
  intros Hp Hin Hm. destruct m as [|d|]; cbn [render_message].
  - exists p. cbn [parse_bytes]. unfold parse_byte. rewrite Hin. cbn [andb].
    change (98 =? 116) with false. change (98 =? 113) with false. cbv iota. cbn [mbind res_bind].
    by rewrite orb_false_r.
  - destruct Hm as [Hd Hl]. cbn [parse_bytes]. unfold parse_byte at 1. rewrite Hin. cbn [andb].
    change (116 =? 116) with true. cbv iota. cbn [mbind res_bind]. rewrite parse_bytes_app.
    destruct (parse_digits d (mk_parser (token p) 0 true (clean p)) []) as (p1 & -> & H1 & H2 & H3 & H4 & H5).
    + split; cbn; [by destruct Hp|lia].
    + done.
    + apply prefix_nil.
    + done.
    + done.
    + change (zlen []) with 0. lia.
    + cbn [mbind res_bind parse_bytes app] in *. unfold parse_byte. rewrite H2.
      change (isdigit 10) with false. cbn [andb].
      assert (W : wp (store (E := unit) (token p1) (tlen p1) [0])
         (fun t => (d ++ [0]) `prefix_of` t /\ zlen t = 32) (fun _ => False)).
      { rewrite H5. apply (wp_store_after d _ _ 32); [done|by destruct H1|change (zlen [0]) with 1; lia|done]. }
      destruct (store (token p1) (tlen p1) [0]) as [t|e|]; [|done|done]. destruct W as [[r ->] W2].
      cbn [mbind res_bind]. eexists. split; [done|]. split; [split; cbn; [done|rewrite H5; lia]|].
      split; [done|]. cbn. rewrite H3, orb_false_r. split; [done|].
      rewrite <- app_assoc, cstr_clean; [cbn; by rewrite app_nil_r|].
      eapply Forall_impl; [exact Hd|]. intros c Hc. by apply digit_word in Hc as (_ & ? & _).
  - exists (mk_parser (token p) (tlen p) (in_token p) true). cbn [parse_bytes]. unfold parse_byte.
    rewrite Hin. cbn [andb]. change (113 =? 116) with false. change (113 =? 113) with true. cbv iota.
    cbn [mbind res_bind]. rewrite orb_true_r. split; [done|]. split; [by destruct Hp|]. done.
Qed.

Lemma parse_wire ms p :
  parser_ok p -> in_token p = false -> Forall message_ok ms ->
  exists p', parse_bytes p (wire ms) = Ok p' /\ in_token p' = false /\
    clean p' = clean p || told_to_quit ms /\ cstr (token p') = last_token ms (cstr (token p)).
Proof.
  intros Hp Hin Hm. revert p Hp Hin. induction Hm as [|m ms Hm _ IH]; intros p Hp Hin.
  { exists p. by rewrite orb_false_r. }
  unfold wire. cbn [map concat]. rewrite parse_bytes_app.
  destruct (parse_message m p Hp Hin Hm) as (p1 & -> & H1 & H2 & H3 & H4). cbn [mbind res_bind].
  destruct (IH p1 H1 H2) as (p2 & E & H0 & H5 & H6). exists p2. split; [exact E|]. split; [done|].
  rewrite H5, H3, H6, H4. unfold told_to_quit. cbn [existsb]. rewrite orb_false_r.
  split; [by destruct m; rewrite ?orb_false_r, ?orb_true_r|by destruct m].
Qed.

(** A [b] on the wire is a heartbeat: before it stand whole messages. *)
Lemma wire_beat ms a b :
  Forall message_ok ms -> wire ms = a ++ 98 :: b -> exists ms1 ms2, ms = ms1 ++ BEAT :: ms2 /\ a = wire ms1.
Proof.
  intros Hm. revert a. induction Hm as [|m ms Hm _ IH]; intros a E; [by destruct a|].
  unfold wire in E. cbn [map concat] in E. fold (wire ms) in E.
  destruct (decide (zlen a < zlen (render_message m))) as [Hlt|Hge].
  - assert (H98 : render_message m !! length a = Some 98).
    { unfold zlen in Hlt. rewrite <- (lookup_app_l _ (wire ms)) by lia. rewrite E, lookup_app_r by lia. by rewrite Nat.sub_diag. }
    destruct m as [|d|]; cbn [render_message] in H98.
    + exists [], ms. split; [done|]. destruct a; [done|]. cbn in Hlt. rewrite zlen_cons in Hlt.
      pose proof (zlen_nonneg a). change (zlen [98]) with 1 in Hlt. lia.
    + exfalso. destruct Hm as [Hd _]. destruct (length a) as [|n]; [done|].
      change ((d ++ [10]) !! n = Some 98) in H98.
      destruct (decide (n < length d)%nat).
      * rewrite lookup_app_l in H98 by lia. by pose proof (Forall_lookup_1 _ _ _ _ Hd H98).
      * rewrite lookup_app_r in H98 by lia. destruct (n - length d)%nat; [done|]. by destruct n0.
    + exfalso. destruct (length a) as [|[|n]]; done.
  - assert (Hp : exists a', a = render_message m ++ a').
    { exists (drop (length (render_message m)) a). symmetry.
      rewrite <- (take_drop (length (render_message m)) a) at 2. f_equal.
      transitivity (take (length (render_message m)) (render_message m ++ wire ms)); [by rewrite take_app_length|].
      rewrite E. apply take_app_le. unfold zlen in Hge. lia. }
    destruct Hp as [a' ->]. rewrite <- app_assoc in E. apply app_inv_head in E.
    destruct (IH a' E) as (ms1 & ms2 & -> & ->). by exists (m :: ms1), ms2.
Qed.

(** ** Runs *)

(** A time at which a beat was read, or the start. *)
Definition beat_time (rs : list round) (t0 last : Z) : Prop :=
  last = t0 \/ exists r, r ∈ rs /\ r_read r = last /\ 98 ∈ round_bytes r.

Lemma read_bytes_spec w now buf :
  parser_ok (w_parser w) ->
  exists w', read_bytes w now buf = Ok w' /\ parser_ok (w_parser w') /\
    parse_bytes (w_parser w) buf = Ok (w_parser w') /\
    (w_flushed w' = w_flushed w /\ w_last w' = w_last w \/
     98 ∈ buf /\ w_flushed w' = false /\ w_last w' = now).
Proof.
  revert w. induction buf as [|c buf IH]; intros w Hw.
  { exists w. split; [done|]. split; [done|]. split; [done|by left]. }
  cbn [read_bytes parse_bytes]. destruct (parse_byte_ok (w_parser w) c Hw) as (p & -> & Hp).
  cbn [mbind res_bind].
  destruct (is_beat (w_parser w) c) eqn:B.
  - destruct (IH (mk_wd p false now) Hp) as (w' & E & H1 & H2 & H3). exists w'.
    split; [done|]. split; [done|]. split; [done|]. right.
    assert (Hc : c = 98) by (unfold is_beat in B; zbool; lia). subst c.
    split; [left|]. cbn in H3. destruct H3 as [[-> ->]|(_ & -> & ->)]; done.
  - destruct (IH (mk_wd p (w_flushed w) (w_last w)) Hp) as (w' & E & H1 & H2 & H3). exists w'.
    split; [done|]. split; [done|]. split; [done|]. cbn in H3.
    destruct H3 as [H3|(Hin & H3)]; [by left|right]. split; [by right|done].
Qed.

(** After the last heartbeat in [buf] the flag is down and the time is its. *)
Lemma read_bytes_beat w now x y p :
  parser_ok (w_parser w) -> parse_bytes (w_parser w) x = Ok p -> in_token p = false -> 98 ∉ y ->
  exists w', read_bytes w now (x ++ 98 :: y) = Ok w' /\ parser_ok (w_parser w') /\
    parse_bytes (w_parser w) (x ++ 98 :: y) = Ok (w_parser w') /\ w_flushed w' = false /\ w_last w' = now.
Proof.
  revert w. induction x as [|c x IH]; intros w Hw; cbn [app read_bytes parse_bytes].
  - intros [= <-] Hin Hy. destruct (parse_byte_ok (w_parser w) 98 Hw) as (p & -> & Hp). cbn [mbind res_bind].
    unfold is_beat. rewrite Hin. cbn [negb andb]. change (98 =? 98) with true. cbv iota.
    destruct (read_bytes_spec (mk_wd p false now) now y Hp) as (w' & E & H1 & H2 & H3). exists w'.
    split_and!; [done..| |]; by destruct H3 as [[? ?]|(? & ? & ?)].
  - destruct (parse_byte_ok (w_parser w) c Hw) as (p1 & E1 & Hp1). rewrite E1. cbn [mbind res_bind]. intros Hx Hin Hy.
    destruct (is_beat (w_parser w) c);
      [destruct (IH (mk_wd p1 false now) Hp1 Hx Hin Hy) as (w' & ?)|
       destruct (IH (mk_wd p1 (w_flushed w) (w_last w)) Hp1 Hx Hin Hy) as (w' & ?)]; by exists w'.
Qed.

(** A round that neither ends the pipe nor sees a signal. *)
Definition calm (r : round) : Prop := r_input r <> IN_END /\ r_term r = false.

Lemma calm_round w r :
  parser_ok (w_parser w) -> calm r ->
  exists w' acts, wd_round w r = Ok (inl (w', acts)) /\ parser_ok (w_parser w') /\
    parse_bytes (w_parser w) (round_bytes r) = Ok (w_parser w') /\
    (w_flushed w' = true \/ r_check r - w_last w' <= 30000) /\
    (w_last w' = w_last w /\ (w_flushed w' = true -> w_flushed w = true \/ acts = [FLUSH_ANCHOR])
     \/ 98 ∈ round_bytes r /\ w_last w' = r_read r /\ (w_flushed w' = true -> acts = [FLUSH_ANCHOR])).
Proof.
  intros Hw [He Ht]. unfold wd_round, round_bytes.
  assert (H : exists w1, match r_input r with IN_DATA buf => read_bytes w (r_read r) buf | _ => Ok w end = Ok w1 /\
     parser_ok (w_parser w1) /\
     parse_bytes (w_parser w) (match r_input r with IN_DATA buf => buf | _ => [] end) = Ok (w_parser w1) /\
     (w_flushed w1 = w_flushed w /\ w_last w1 = w_last w \/
      98 ∈ match r_input r with IN_DATA buf => buf | _ => [] end /\ w_flushed w1 = false /\ w_last w1 = r_read r)).
  { destruct (r_input r) as [|buf|]; [|by apply read_bytes_spec|done].
    exists w. split; [done|]. split; [done|]. split; [done|by left]. }
  destruct H as (w1 & E & H1 & H2 & H3).
  assert (G : match r_input r with
    | IN_END => Ok (inr (if clean (w_parser w) then [] else wd_cleanup (cstr (token (w_parser w)))))
    | _ => (w0 ← match r_input r with IN_DATA buf => read_bytes w (r_read r) buf | _ => Ok w end;
            if r_term r then Ok (inr (wd_cleanup (cstr (token (w_parser w0))))) else
            if negb (w_flushed w0) && (TP_ALIVE_TIMEOUT_S * 1000 <? r_check r - w_last w0)
            then Ok (inl (mk_wd (w_parser w0) true (w_last w0), [FLUSH_ANCHOR]))
            else Ok (inl (w0, [])))
    end = Ok (E := unit) (if negb (w_flushed w1) && (TP_ALIVE_TIMEOUT_S * 1000 <? r_check r - w_last w1)
            then inl (mk_wd (w_parser w1) true (w_last w1), [FLUSH_ANCHOR]) else inl (w1, []))).
  { rewrite E. destruct (r_input r); [| |done]; cbn [mbind res_bind]; rewrite Ht;
      by destruct (negb _ && _). }
  rewrite G. clear G E. unfold TP_ALIVE_TIMEOUT_S.
  destruct (negb (w_flushed w1) && (30 * 1000 <? r_check r - w_last w1)) eqn:C.
  - eexists _, _. split; [done|]. split; [done|]. split; [done|]. cbn.
    split; [by left|]. destruct H3 as [[_ ->]|(? & _ & ->)]; [left|right]; auto.
  - eexists _, _. split; [done|]. split; [done|]. split; [done|]. split.
    + destruct (w_flushed w1); [by left|right]. cbn [negb andb] in C. zbool. lia.
    + destruct H3 as [[E1 ->]|(? & E1 & ->)]; rewrite E1; [left; auto|right; by split].
Qed.

(** Calm rounds, one after the other. *)
Lemma calm_run rs w :
  parser_ok (w_parser w) -> w_flushed w = false -> Forall calm rs ->
  exists w' acts, wd_run w rs = Ok (w', acts, None) /\ parser_ok (w_parser w') /\
    parse_bytes (w_parser w) (bytes_read rs) = Ok (w_parser w') /\
    beat_time rs (w_last w) (w_last w') /\
    (w_flushed w' = true -> FLUSH_ANCHOR ∈ acts) /\
    (forall r, last rs = Some r -> w_flushed w' = true \/ r_check r - w_last w' <= 30000).
Proof.
  intros Hw Hf Hc.
  assert (G : exists w' acts, wd_run w rs = Ok (w', acts, None) /\ parser_ok (w_parser w') /\
    parse_bytes (w_parser w) (bytes_read rs) = Ok (w_parser w') /\
    beat_time rs (w_last w) (w_last w') /\
    (w_flushed w' = true -> w_flushed w = true \/ FLUSH_ANCHOR ∈ acts) /\
    (forall r, last rs = Some r -> w_flushed w' = true \/ r_check r - w_last w' <= 30000)).
  2: { destruct G as (w' & acts & H1 & H2 & H3 & H4 & H5 & H6). exists w', acts.
       do 4 (split; [done|]). split; [|done]. intros H. destruct (H5 H); [congruence|done]. }
  clear Hf. revert w Hw. induction Hc as [|r rs Hr Hrs IH]; intros w Hw.
  { exists w, []. split; [done|]. split; [done|]. split; [done|]. split; [by left|]. split; [by left|done]. }
  destruct (calm_round w r Hw Hr) as (w1 & a1 & E1 & H1 & P1 & T1 & F1).
  destruct (IH w1 H1) as (w2 & a2 & E2 & H2 & P2 & B2 & F2 & T2).
  exists w2, (a1 ++ a2). cbn [wd_run]. rewrite E1. cbn [mbind res_bind]. rewrite E2. cbn [mbind res_bind].
  split; [done|]. split; [done|]. split.
  { unfold bytes_read. cbn [map concat]. rewrite parse_bytes_app, P1. exact P2. }
  split.
  { destruct B2 as [B2|(r' & Hr' & ? & ?)]; [|right; exists r'; split; [by right|done]].
    destruct F1 as [[F1 _]|(Hb & F1 & _)]; [left; congruence|].
    right. exists r. split; [by left|]. split; [congruence|done]. }
  split.
  { intros H. destruct (F2 H) as [H'|H']; [|right; apply elem_of_app; by right].
    destruct F1 as [[_ F1]|(_ & _ & F1)].
    - destruct (F1 H') as [?| ->]; [by left|right; apply elem_of_app; left; by left].
    - rewrite (F1 H'). right. apply elem_of_app. left. by left. }
  intros r' Hr'. destruct rs as [|r2 rs].
  - injection Hr' as <-. cbn in E2. injection E2 as -> _. exact T1.
  - apply T2. by rewrite last_cons_cons in Hr'.
Qed.

Lemma wd_run_snoc w rs w' acts r :
  wd_run w rs = Ok (w', acts, None) ->
  wd_run w (rs ++ [r]) =
    (x ← wd_round w' r;
     match x with
     | inr final => Ok (w', acts, Some final)
     | inl (w'', a) => Ok (w'', acts ++ a, None)
     end).
Proof.
  revert w acts. induction rs as [|r0 rs IH]; intros w acts.
  - cbn [wd_run app]. intros [= <- <-]. destruct (wd_round w r) as [[[w1 a1]|f]|e|]; try done.
    cbn. by rewrite app_nil_r.
  - cbn [wd_run app]. destruct (wd_round w r0) as [[[w1 a1]|f]|e|]; cbn [mbind res_bind]; try done.
    destruct (wd_run w1 rs) as [[[w2 a2] fin]|e|] eqn:E; cbn [mbind res_bind]; try done.
    intros [= <- <- ->]. rewrite (IH w1 a2 E).
    destruct (wd_round w2 r) as [[[w3 a3]|f]|e|]; cbn [mbind res_bind]; try done.
    by rewrite app_assoc.
Qed.

(** What is done since the last heartbeat, read at [l]: the rules are removed,
    once, in the first round that finds it more than 30 seconds old. *)
Definition since (l : Z) (rs : list round) : list action :=
  if existsb (fun r => TP_ALIVE_TIMEOUT_S * 1000 <? r_check r - l) rs then [FLUSH_ANCHOR] else [].
Definition silent (r : round) : Prop := 98 ∉ round_bytes r.

(** The rest of a round, from the state [w1] its input led to. *)
Lemma round_check w w1 r :
  calm r -> read_bytes w (r_read r) (round_bytes r) = Ok w1 ->
  wd_round w r = Ok (inl (if negb (w_flushed w1) && (TP_ALIVE_TIMEOUT_S * 1000 <? r_check r - w_last w1)
                          then (mk_wd (w_parser w1) true (w_last w1), [FLUSH_ANCHOR]) else (w1, []))).
Proof.
  intros [He Ht] E. unfold wd_round, round_bytes in *. rewrite Ht. destruct (r_input r) as [|buf|]; [| |done].
  - injection E as <-. cbn [mbind res_bind]. by destruct (_ && _).
  - rewrite E. cbn [mbind res_bind]. by destruct (_ && _).
Qed.

Lemma silent_run rs w :
  parser_ok (w_parser w) -> Forall calm rs -> Forall silent rs ->
  exists w', wd_run w rs = Ok (w', if w_flushed w then [] else since (w_last w) rs, None).
Proof.
  intros Hw Hc. revert w Hw. induction Hc as [|r rs Hr _ IH]; intros w Hw Hs.
  { exists w. cbn. by destruct (w_flushed w). }
  apply Forall_cons in Hs as [Hr' Hs].
  destruct (read_bytes_spec w (r_read r) (round_bytes r) Hw) as (w1 & E & Hw1 & _ & [[Ef El]|[H _]]); [|done].
  cbn [wd_run]. rewrite (round_check w w1 r Hr E), Ef, El. cbn [mbind res_bind]. unfold since. cbn [existsb].
  destruct (w_flushed w) eqn:F; cbn [negb andb].
  - destruct (IH w1 Hw1 Hs) as (w' & ->). exists w'. cbn [mbind res_bind]. by rewrite Ef.
  - destruct (_ <? _) eqn:T; cbn [orb].
    + destruct (IH (mk_wd (w_parser w1) true (w_last w)) Hw1 Hs) as (w' & ->). by exists w'.
    + destruct (IH w1 Hw1 Hs) as (w' & ->). exists w'. cbn [mbind res_bind]. by rewrite Ef, El.
Qed.

Lemma wd_run_app w rs rs' w1 a1 :
  wd_run w rs = Ok (w1, a1, None) ->
  wd_run w (rs ++ rs') = ('(w2, a2, fin) ← wd_run w1 rs'; Ok (w2, a1 ++ a2, fin)).
Proof.
  revert w a1. induction rs as [|r0 rs IH]; intros w a1; cbn [wd_run app].
  - intros [= <- <-]. by destruct (wd_run w rs') as [[[? ?] ?]| |].
  - destruct (wd_round w r0) as [[[w0 a0]|f]|e|]; cbn [mbind res_bind]; try done.
    destruct (wd_run w0 rs) as [[[w2 a2] fin]|e|] eqn:E; cbn [mbind res_bind]; try done.
    intros [= <- <- ->]. rewrite (IH w0 a2 E).
    destruct (wd_run w2 rs') as [[[? ?] ?]| |]; cbn [mbind res_bind]; [|done|done]. by rewrite app_assoc.
Qed.

(** From the round with the last heartbeat on. *)
Lemma run_since_beat w r rs x y p :
  parser_ok (w_parser w) -> calm r -> Forall calm rs -> Forall silent rs ->
  round_bytes r = x ++ 98 :: y -> 98 ∉ y -> parse_bytes (w_parser w) x = Ok p -> in_token p = false ->
  exists w', wd_run w (r :: rs) = Ok (w', since (r_read r) (r :: rs), None).
Proof.
  intros Hw Hr Hc Hs Eb Hy Ex Hin.
  destruct (read_bytes_beat w (r_read r) x y p Hw Ex Hin Hy) as (w1 & E & Hw1 & _ & Ef & El). rewrite <- Eb in E.
  cbn [wd_run]. rewrite (round_check w w1 r Hr E), Ef, El. cbn [negb andb mbind res_bind]. unfold since. cbn [existsb].
  destruct (_ <? _); cbn [orb].
  - destruct (silent_run rs (mk_wd (w_parser w1) true (r_read r)) Hw1 Hc Hs) as (w' & ->). by exists w'.
  - destruct (silent_run rs w1 Hw1 Hc Hs) as (w' & ->). exists w'. cbn [mbind res_bind]. by rewrite Ef, El.
Qed.

(** The last [b] of a list. *)
Lemma last_98 (l : list Z) : 98 ∈ l -> exists x y, l = x ++ 98 :: y /\ 98 ∉ y.
Proof.
  induction l as [|c l IH]; [by intros ?%elem_of_nil|]. intros [<-|H]%elem_of_cons.
  - destruct (decide (98 ∈ l)) as [H|H]; [destruct (IH H) as (x & y & -> & Hy); by exists (98 :: x), y|by exists [], l].
  - destruct (IH H) as (x & y & -> & Hy). by exists (c :: x), y.
Qed.

(** What the watchdog has done after reading the messages [ms]. *)
Lemma watchdog_runs array t0 rs ms :
  zlen array = 32 -> Forall calm rs -> Forall message_ok ms -> bytes_read rs = wire ms ->
  exists w acts, wd_run (wd_start array t0) rs = Ok (w, acts, None) /\
    beat_time rs t0 (w_last w) /\ (w_flushed w = true -> FLUSH_ANCHOR ∈ acts) /\
    (forall r, last rs = Some r -> FLUSH_ANCHOR ∈ acts \/ r_check r - w_last w <= 30000) /\
    (forall r, r_input r = IN_END ->
       wd_run (wd_start array t0) (rs ++ [r]) =
         Ok (w, acts, Some (if told_to_quit ms then [] else wd_cleanup (last_token ms [])))) /\
    (forall r, r_input r = IN_NOTHING -> r_term r = true ->
       wd_run (wd_start array t0) (rs ++ [r]) = Ok (w, acts, Some (wd_cleanup (last_token ms [])))).
Proof.
  intros Ha Hc Hm Hb.
  assert (Hs : parser_ok (w_parser (wd_start array t0))).
  { split; cbn; [|lia]. rewrite zlen_bput; [done|lia|change (zlen [0]) with 1; lia]. }
  destruct (calm_run rs (wd_start array t0) Hs eq_refl Hc) as (w & acts & E & Hw & P & B & F & T).
  exists w, acts. do 3 (split; [done|]).
  rewrite Hb in P.
  destruct (parse_wire ms (w_parser (wd_start array t0)) Hs eq_refl Hm) as (p & P' & _ & Hcl & Htok).
  rewrite P in P'. injection P' as <-.
  assert (Hempty : cstr (token (w_parser (wd_start array t0))) = []).
  { cbn [wd_start w_parser token]. destruct array as [|x array]; [done|]. done. }
  rewrite Hempty in Htok. cbn [wd_start w_parser clean orb] in Hcl.
  split; [|split].
  - intros r Hr. destruct (T r Hr) as [H|H]; [left; auto|by right].
  - intros r Hr. rewrite (wd_run_snoc _ _ _ _ r E). unfold wd_round. rewrite Hr, Hcl, Htok. done.
  - intros r Hr Ht. rewrite (wd_run_snoc _ _ _ _ r E). unfold wd_round. rewrite Hr.
    cbn [mbind res_bind]. rewrite Ht, Htok. done.
Qed.

(** C35: the watchdog fails open. Whatever pieces the daemon's messages arrive
    in, nothing is written outside the token array. While the daemon is there,
    the rules are removed exactly when it falls silent: since the last
    heartbeat, however many there were and whatever was removed before it, the
    watchdog has removed them once if a round found it more than 30 seconds old,
    and not at all otherwise; a heartbeat after such a removal arms it again.
    When the pipe ends, the rules are removed and the last token the daemon sent
    is released, unless the daemon had said that it was leaving; on a signal
    they are in any case. *)
Theorem watchdog_fails_open array t0 rs ms :
  zlen array = 32 -> Forall calm rs -> Forall message_ok ms -> bytes_read rs = wire ms ->
  exists w acts, wd_run (wd_start array t0) rs = Ok (w, acts, None) /\
    (forall before r after, rs = before ++ r :: after -> 98 ∈ round_bytes r -> Forall silent after ->
       exists w1 acts1, wd_run (wd_start array t0) before = Ok (w1, acts1, None) /\
         acts = acts1 ++ since (r_read r) (r :: after)) /\
    (Forall silent rs -> acts = since t0 rs) /\
    (forall r, r_input r = IN_END ->
       wd_run (wd_start array t0) (rs ++ [r]) =
         Ok (w, acts, Some (if told_to_quit ms then [] else wd_cleanup (last_token ms [])))) /\
    (forall r, r_input r = IN_NOTHING -> r_term r = true ->
       wd_run (wd_start array t0) (rs ++ [r]) = Ok (w, acts, Some (wd_cleanup (last_token ms [])))).
Proof.
  intros Ha Hc Hm Hb. destruct (watchdog_runs array t0 rs ms Ha Hc Hm Hb) as (w & acts & E & _ & _ & _ & Hend & Hsig).
  assert (Hs : parser_ok (w_parser (wd_start array t0))).
  { split; cbn; [|lia]. rewrite zlen_bput; [done|lia|change (zlen [0]) with 1; lia]. }
  exists w, acts. split; [done|]. split; [|split; [|split; [done|done]]].
  - intros before r after -> H98 Hsil. apply Forall_app in Hc as [Hc1 Hc2]. apply Forall_cons in Hc2 as [Hr Hc2].
    destruct (calm_run before (wd_start array t0) Hs eq_refl Hc1) as (w1 & a1 & E1 & Hw1 & P1 & _).
    exists w1, a1. split; [done|]. destruct (last_98 _ H98) as (x & y & Ex & Hy).
    unfold bytes_read in Hb, P1. rewrite map_app, concat_app in Hb. cbn [map concat] in Hb. rewrite Ex in Hb.
    assert (Hw : wire ms = (concat (map round_bytes before) ++ x) ++ 98 :: (y ++ concat (map round_bytes after)))
      by (by rewrite <- Hb, <- !app_assoc). clear Hb. rename Hw into Hb.
    destruct (wire_beat ms _ _ Hm Hb) as (ms1 & ms2 & Ems & Ea). subst ms. apply Forall_app in Hm as [Hm1 _].
    destruct (parse_wire ms1 (w_parser (wd_start array t0)) Hs eq_refl Hm1) as (p & P' & Hin & _).
    rewrite <- Ea, parse_bytes_app, P1 in P'. cbn [mbind res_bind] in P'.
    destruct (run_since_beat w1 r after x y p Hw1 Hr Hc2 Hsil Ex Hy P' Hin) as (w2 & E2).
    rewrite (wd_run_app _ _ _ _ _ E1), E2 in E. injection E as _ E. by rewrite <- E.
  - intros Hsil. destruct (silent_run rs (wd_start array t0) Hs Hc Hsil) as (w' & E'). rewrite E' in E. injection E as _ E. by rewrite <- E.
Qed.

(** The token and two beats, in odd pieces, then silence; another beat and
    silence again; then the end. *)
Definition sample_rounds : list round :=
  [mk_round (IN_DATA (str "bt12")) 1000 false 1000; mk_round IN_NOTHING 2000 false 2000;
   mk_round (IN_DATA (str "34" ++ [10; 98])) 3000 false 3000; mk_round IN_NOTHING 34000 false 34000].
Definition second_silence : list round :=
  [mk_round (IN_DATA [98]) 36000 false 36000; mk_round IN_NOTHING 66000 false 66000;
   mk_round IN_NOTHING 66001 false 66001].

Lemma watchdog_fails_open_witness :
  let rs := sample_rounds ++ second_silence in
  exists w, wd_run (wd_start (replicate 32 255) 0) rs = Ok (w, [FLUSH_ANCHOR; FLUSH_ANCHOR], None) /\
    wd_run (wd_start (replicate 32 255) 0) (rs ++ [mk_round IN_END 70000 false 70000]) =
      Ok (w, [FLUSH_ANCHOR; FLUSH_ANCHOR], Some [FLUSH_ANCHOR; RELEASE (str "1234"); FORGET (str "1234")]).
Proof.
  cbv zeta.
  destruct (watchdog_fails_open (replicate 32 255) 0 (sample_rounds ++ second_silence) [BEAT; TOKEN (str "1234"); BEAT; BEAT])
    as (w & acts & E & H & _ & Hend & _).
  - reflexivity.
  - repeat (apply Forall_cons_2; [split; [discriminate|reflexivity]|]). apply Forall_nil_2.
  - apply Forall_cons_2; [exact I|]. apply Forall_cons_2; [|apply Forall_cons_2; [exact I|apply Forall_singleton; exact I]].
    split; [apply (bool_decide_unpack _); vm_compute; exact I|vm_compute; split; [reflexivity|discriminate]].
  - reflexivity.
  - destruct (H sample_rounds (mk_round (IN_DATA [98]) 36000 false 36000) (drop 1 second_silence) eq_refl)
      as (w1 & a1 & E1 & Ea).
    + left.
    + apply (bool_decide_unpack _). vm_compute. exact I.
    + assert (G : match wd_run (wd_start (replicate 32 255) 0) sample_rounds with
                  | Ok (_, a, _) => a | _ => [] end = [FLUSH_ANCHOR]) by (vm_compute; reflexivity).
      rewrite E1 in G. subst a1. change acts with acts in Ea. change (acts = [FLUSH_ANCHOR; FLUSH_ANCHOR]) in Ea. subst acts.
      exists w. split; [exact E|]. exact (Hend (mk_round IN_END 70000 false 70000) eq_refl).
Defined.
