(* ===== verification/Pf.v ===== *)
(** * The PF platform layer of macOS ([src/transparent/platform_macos.c])

    Running [pfctl], the anchor and the main ruleset's hooks, the enable
    reference and its token file, the daemon's side of the watchdog, and the
    operations of [tp_platform.h] built from them. The system is an interface
    ([mac_system]): its state and what each call does to it. [mac_laws] says
    what [pfctl] documents about enable references; the theorem at the end is
    that the daemon holds at most one of them, gives it back, keeps the
    watchdog told of it, and leaves one behind only when [pfctl] fails to drop
    it. *)

From stdpp Require Import base list numbers strings option relations.
From Stdlib Require Import ZArith Lia.
From S2P Require Import Prelude Text Socket Discovery Nft Rules Platform Watchdog.

Definition PFCTL_OUT_MAX : Z := 16384.
Definition RULES_MAX : Z := 8192.

(** A program and its arguments. *)
Notation command := (list (list Z)).

(** The machine. A run of [pfctl] is given its arguments and what reached its
    standard input, and is [None] if it could not be started; else it is what
    the program printed and its exit status, [None] for a signal. The other
    calls are those on the token file, on [/etc/pf.conf], and on the watchdog
    process and its pipe ([ms_wd_write] is the result of [write]; [ms_wd_spawn]
    is [None] when the path or the pipe could not be had; a process whose name
    the system does not tell is [None]). *)
Class mac_system := {
  ms : Type;
  ms_writes : ms -> list tx_event;
  ms_pfctl : command -> list Z -> ms -> ms * option (list Z * option Z);
  ms_pf_conf : ms -> option (list Z);
  ms_token_file : ms -> option (list Z);
  ms_write_token : list Z -> ms -> ms;
  ms_unlink_token : ms -> ms;
  ms_wd_write : list Z -> ms -> ms * Z;
  ms_wd_close : ms -> ms;
  ms_wd_wait : ms -> ms * bool;
  ms_wd_kill : ms -> ms;
  ms_wd_spawn : ms -> ms * option bool;
  ms_wd_pid : ms -> Z;
  ms_processes : ms -> list (option (list Z));
  (** what the daemon cannot see: the anchor redirects *)
  ms_redirects : ms -> bool
}.

(** ** Texts *)

(** A line of [text] starts with [prefix]; [start]: we are at a line's start. *)
Fixpoint has_line_from (start : bool) (text prefix : list Z) : bool :=
  match text with
  | [] => false
  | c :: text' => (start && has_prefix prefix text) || has_line_from (c =? 10) text' prefix
  end.
Definition has_line (text prefix : list Z) : bool := has_line_from true text prefix.

Definition is_noise (line : list Z) : bool :=
  has_prefix (str "No ALTQ") line || has_prefix (str "ALTQ") line || has_prefix (str "pfctl:") line.
Fixpoint rule_lines_from (start : bool) (text : list Z) : Z :=
  match text with
  | [] => 0
  | c :: text' =>
      (if start && negb (c =? 10) && negb (is_noise text) then 1 else 0) + rule_lines_from (c =? 10) text'
  end.
Definition rule_lines (text : list Z) : Z := rule_lines_from true text.

(** What stands after the first [pat] in [s]. *)
Fixpoint after (pat s : list Z) : option (list Z) :=
  if has_prefix pat s then Some (drop (length pat) s) else
  match s with [] => None | _ :: s' => after pat s' end.

(** The digits at the start, at most [n]. *)
Fixpoint digits (n : nat) (s : list Z) : list Z :=
  match n, s with
  | S n', c :: s' => if isdigit c then c :: digits n' s' else []
  | _, _ => []
  end.

Definition quoted_hook : list Z := 34 :: str "com.apple/" ++ [42; 34].
Definition nat_hook : list Z := str "rdr-anchor " ++ quoted_hook.
Definition rules_hook : list Z := str "anchor " ++ quoted_hook.

(** ** State *)

(** The daemon's view of the watchdog: does it have a process and a pipe, and
    the bytes it has written into this pipe. *)
Record wd_side := mk_wds { wd_pid : bool; wd_fd : bool; wd_sent : list Z }.

Section mac.
Context {S : mac_system}.

(** The static variables of the file and the machine; [mc_cmds] is the list of
    the commands given to [pfctl] so far, with their results. *)
Record mac := mk_mac {
  mc_port : Z;
  mc_ipv6 : bool;
  mc_dns_port : Z;
  mc_token : list Z;
  mc_stale_done : bool;
  mc_wd : wd_side;
  mc_enabled : bool;
  mc_anchor : bool;
  mc_hooks : bool;
  mc_removed : bool;
  mc_cmds : list (command * Z);
  mc_ms : ms
}.

Definition with_ms (s : mac) (m : ms) : mac :=
  mk_mac (mc_port s) (mc_ipv6 s) (mc_dns_port s) (mc_token s) (mc_stale_done s) (mc_wd s) (mc_enabled s)
    (mc_anchor s) (mc_hooks s) (mc_removed s) (mc_cmds s) m.
Definition with_token (s : mac) (t : list Z) : mac :=
  mk_mac (mc_port s) (mc_ipv6 s) (mc_dns_port s) t (mc_stale_done s) (mc_wd s) (mc_enabled s)
    (mc_anchor s) (mc_hooks s) (mc_removed s) (mc_cmds s) (mc_ms s).
Definition with_wd (s : mac) (w : wd_side) : mac :=
  mk_mac (mc_port s) (mc_ipv6 s) (mc_dns_port s) (mc_token s) (mc_stale_done s) w (mc_enabled s)
    (mc_anchor s) (mc_hooks s) (mc_removed s) (mc_cmds s) (mc_ms s).
Definition with_seen (s : mac) (enabled anchor hooks : bool) : mac :=
  mk_mac (mc_port s) (mc_ipv6 s) (mc_dns_port s) (mc_token s) (mc_stale_done s) (mc_wd s) enabled
    anchor hooks (mc_removed s) (mc_cmds s) (mc_ms s).
Definition with_removed (s : mac) (r : bool) : mac :=
  mk_mac (mc_port s) (mc_ipv6 s) (mc_dns_port s) (mc_token s) (mc_stale_done s) (mc_wd s) (mc_enabled s)
    (mc_anchor s) (mc_hooks s) r (mc_cmds s) (mc_ms s).
Definition with_stale (s : mac) (b : bool) : mac :=
  mk_mac (mc_port s) (mc_ipv6 s) (mc_dns_port s) (mc_token s) b (mc_wd s) (mc_enabled s)
    (mc_anchor s) (mc_hooks s) (mc_removed s) (mc_cmds s) (mc_ms s).
Definition with_ports (s : mac) (port : Z) (ipv6 : bool) (dns_port : Z) : mac :=
  mk_mac port ipv6 dns_port (mc_token s) (mc_stale_done s) (mc_wd s) (mc_enabled s)
    (mc_anchor s) (mc_hooks s) (mc_removed s) (mc_cmds s) (mc_ms s).

(** ** Running pfctl *)

(** The output as a C string (none kept when [out_size] is 0) and the exit
    status. *)
Definition exit_status (r : option (list Z * option Z)) : Z :=
  match r with Some (_, status) => default (-1) status | None => -1 end.
Definition pfctl_run (args : command) (inp : list Z) (out_size : Z) (s : mac) : mac * list Z * Z :=
  let args := take 14 args in
  let '(m, r) := ms_pfctl args (relay_send_all (ms_writes (mc_ms s)) inp).2 (mc_ms s) in
  let s := mk_mac (mc_port s) (mc_ipv6 s) (mc_dns_port s) (mc_token s) (mc_stale_done s) (mc_wd s)
             (mc_enabled s) (mc_anchor s) (mc_hooks s) (mc_removed s) (mc_cmds s ++ [(args, exit_status r)]) m in
  (s, match r with Some (text, _) => cstr (bsub text 0 (out_size - 1)) | None => [] end, exit_status r).

Definition pfctl_simple (args : command) (s : mac) : mac * Z :=
  let '(s, _, rc) := pfctl_run args [] 0 s in (s, rc).

Definition pfctl_show (anchor : option (list Z)) (what : list Z) (s : mac) : mac * list Z * Z :=
  pfctl_run (match anchor with Some a => [str "-a"; a; str "-s"; what] | None => [str "-s"; what] end)
    [] PFCTL_OUT_MAX s.

(** ** The anchor *)

Definition anchor_flush (s : mac) : mac :=
  let s := (pfctl_simple [str "-a"; TP_PF_ANCHOR; str "-F"; str "nat"] s).1 in
  let s := (pfctl_simple [str "-a"; TP_PF_ANCHOR; str "-F"; str "rules"] s).1 in
  (pfctl_simple [str "-a"; TP_PF_ANCHOR; str "-F"; str "Tables"] s).1.

Definition anchor_load (s : mac) : mac * Z :=
  let rules := tp_pf_ruleset RULES_MAX (mc_port s) (mc_ipv6 s) (mc_dns_port s) in
  if zlen rules =? 0 then (s, -1) else
  let '(s, _, rc) := pfctl_run [str "-a"; TP_PF_ANCHOR; str "-f"; str "-"] rules PFCTL_OUT_MAX s in
  (s, if rc =? 0 then 0 else -1).

Definition anchor_present (s : mac) : mac * bool :=
  let '(s, out, rc) := pfctl_show (Some TP_PF_ANCHOR) (str "nat") s in
  if negb (rc =? 0) || negb (strstr out (str "rdr pass on lo0")) then (s, false) else
  let '(s, out, rc) := pfctl_show (Some TP_PF_ANCHOR) (str "rules") s in
  if negb (rc =? 0) || negb (strstr out (str "route-to")) then (s, false) else (s, true).

(** The hooks, and [*main_empty]. *)
Definition main_hooks_present (s : mac) : mac * bool * bool :=
  let '(s, nat, rc) := pfctl_show None (str "nat") s in
  if negb (rc =? 0) then (s, false, false) else
  let '(s, rules, rc) := pfctl_show None (str "rules") s in
  if negb (rc =? 0) then (s, false, false) else
  (s, has_line nat nat_hook && has_line rules rules_hook, (rule_lines nat =? 0) && (rule_lines rules =? 0)).

Definition ensure_main_hooks (s : mac) : mac * Z :=
  let '(s, ok, empty) := main_hooks_present s in
  if (ok : bool) then (s, 0) else
  if negb empty then (s, -1) else
  let conf := cstr (bsub (default [] (ms_pf_conf (mc_ms s))) 0 8191) in
  if negb (strstr conf nat_hook) || negb (strstr conf (10 :: rules_hook)) then (s, -1) else
  let '(s, rc) := pfctl_simple [str "-f"; str "/etc/pf.conf"] s in
  if negb (rc =? 0) then (s, -1) else
  let '(s, ok, _) := main_hooks_present s in (s, if (ok : bool) then 0 else -1).

(** ** The enable reference *)

Definition pf_enabled (s : mac) : mac * bool :=
  let '(s, out, rc) := pfctl_show None (str "info") s in
  (s, (rc =? 0) && strstr out (str "Status: Enabled")).

Definition token_file_write (s : mac) : mac := with_ms s (ms_write_token (mc_token s ++ [10]) (mc_ms s)).

(** [fgets] into [out_size] bytes, then the digits at the start. *)
Definition token_read (out_size : Z) (s : mac) : list Z :=
  match ms_token_file (mc_ms s) with
  | None => []
  | Some text => digits (Z.to_nat (out_size - 1)) text
  end.

Definition token_file_forget (token : list Z) (s : mac) : mac :=
  let cur := token_read 32 s in
  if negb (bool_decide (cur = [])) && bool_decide (cur = token)
  then with_ms s (ms_unlink_token (mc_ms s)) else s.

Definition pf_release (token : list Z) (s : mac) : mac :=
  if bool_decide (token = []) then s else (pfctl_simple [str "-X"; token] s).1.

Definition pf_enable (s : mac) : mac * Z :=
  let '(s, out, _) := pfctl_run [str "-E"] [] PFCTL_OUT_MAX s in
  match after (str "Token : ") out with
  | None => (s, -1)
  | Some p =>
      let s := with_token s (digits 31 p) in
      if bool_decide (mc_token s = []) then (s, -1) else (token_file_write s, 0)
  end.

(** ** The watchdog, the daemon's side *)

Definition wd_send (msg : list Z) (s : mac) : mac :=
  let w := mc_wd s in
  if negb (wd_fd w) then s else
  let '(m, n) := ms_wd_write msg (mc_ms s) in
  if n =? zlen msg then with_wd (with_ms s m) (mk_wds (wd_pid w) true (wd_sent w ++ msg))
  else with_wd (with_ms s (ms_wd_close m)) (mk_wds (wd_pid w) false []).

Definition close_wd (s : mac) : mac :=
  let w := mc_wd s in
  if wd_fd w then with_wd (with_ms s (ms_wd_close (mc_ms s))) (mk_wds (wd_pid w) false []) else s.

(** [wd_reap]: so many tries, 20 ms apart. *)
Fixpoint reap_tries (tries : nat) (s : mac) : mac :=
  match tries with
  | O => s
  | Datatypes.S tries =>
      if negb (wd_pid (mc_wd s)) then s else
      let '(m, gone) := ms_wd_wait (mc_ms s) in
      let s := with_ms s m in
      if gone then with_wd s (mk_wds false (wd_fd (mc_wd s)) (wd_sent (mc_wd s))) else reap_tries tries s
  end.
Definition wd_reap (wait_ms : Z) (s : mac) : mac := reap_tries (Datatypes.S (Z.to_nat (wait_ms / 20))) s.

Definition wd_kill (s : mac) : mac :=
  if wd_pid (mc_wd s) then wd_reap 1000 (with_ms s (ms_wd_kill (mc_ms s))) else s.

Definition wd_send_token (s : mac) : mac :=
  if bool_decide (mc_token s = []) then s else wd_send (116 :: mc_token s ++ [10]) s.

Definition wd_spawn (s : mac) : mac :=
  match ms_wd_spawn (mc_ms s) with
  | (m, None) => with_ms s m
  | (m, Some false) => with_wd (with_ms s m) (mk_wds false (wd_fd (mc_wd s)) (wd_sent (mc_wd s)))
  | (m, Some true) => wd_send_token (with_wd (with_ms s m) (mk_wds true true []))
  end.

Definition wd_beat (s : mac) : mac :=
  let s := wd_reap 0 s in
  let s := if wd_pid (mc_wd s) then wd_send [98] s else s in
  if wd_pid (mc_wd s) && wd_fd (mc_wd s) then s else wd_spawn (wd_kill (close_wd s)).

Definition wd_stop (s : mac) : mac := wd_kill (wd_reap 2000 (close_wd (wd_send [113] s))).

(** ** The operations of [tp_platform.h] *)

Definition stale_cleanup (s : mac) : mac :=
  let s := anchor_flush s in
  let old := token_read 32 s in
  if bool_decide (old = []) then s else token_file_forget old (pf_release old s).

(** The enable reference is taken if there is none or PF is off. *)
Definition ensure_enabled (s : mac) : mac * Z :=
  let '(s, on) := if bool_decide (mc_token s = []) then (s, false) else pf_enabled s in
  if (on : bool) then (s, 0) else
  let s := if bool_decide (mc_token s = []) then s else with_token (pf_release (mc_token s) s) [] in
  match pf_enable s with
  | (s, 0) => (wd_send_token s, 0)
  | (s, _) => (anchor_flush s, -1)
  end.

(** [tpp_install] once stale state is out of the way. *)
Definition install_rules (s : mac) : mac * Z :=
  let '(s, rc) := ensure_main_hooks s in
  let s := with_seen s (mc_enabled s) (mc_anchor s) (rc =? 0) in
  if negb (rc =? 0) then (s, -1) else
  let '(s, rc) := anchor_load (anchor_flush s) in
  if negb (rc =? 0) then (s, -1) else
  let '(s, rc) := ensure_enabled s in
  if negb (rc =? 0) then (s, -1) else
  let '(s, present) := anchor_present (with_seen s true (mc_anchor s) (mc_hooks s)) in
  let s := wd_beat (with_seen s (mc_enabled s) present (mc_hooks s)) in
  (s, if (present : bool) then 0 else -1).

Definition mac_install (s : mac) (port : Z) (ipv6 : bool) (dns_port : Z) : mac * Z :=
  let s := with_removed (with_ports s port ipv6 dns_port) false in
  install_rules (if mc_stale_done s then s else with_stale (stale_cleanup s) true).

Definition mac_refresh (s : mac) : mac * Z :=
  let s := wd_beat s in
  let '(s, enabled) := pf_enabled s in
  let '(s, anchor) := anchor_present s in
  let '(s, hooks, _) := main_hooks_present s in
  let s := with_seen s enabled anchor hooks in
  if enabled && anchor && hooks then (s, 0) else
  match mac_install s (mc_port s) (mc_ipv6 s) (mc_dns_port s) with
  | (s, 0) => (s, 1)
  | (s, _) => (s, -1)
  end.

Definition mac_remove (s : mac) : mac :=
  let s := anchor_flush s in
  let s := if bool_decide (mc_token s = []) then s
           else with_token (token_file_forget (mc_token s) (pf_release (mc_token s) s)) [] in
  let s := wd_stop s in
  let '(s, enabled) := pf_enabled s in
  with_removed (with_seen s enabled false (mc_hooks s)) true.

Definition quic_table (family : Z) : list Z := if family =? 4 then TP_PF_QUIC_TABLE4 else TP_PF_QUIC_TABLE6.

Definition mac_quic_add (family : Z) (addrs : list (Z * list Z)) (s : mac) : mac :=
  let mine := List.filter (fun a => a.1 =? family) (take (Z.to_nat Rules.DNS_MAX_ADDRS) addrs) in
  if bool_decide (mine = []) then s else
  (pfctl_simple ([str "-a"; TP_PF_ANCHOR; str "-t"; quic_table family; str "-T"; str "add"] ++ map addr_text mine) s).1.
Definition mac_quic_block (addrs : list (Z * list Z)) (s : mac) : mac := mac_quic_add 6 addrs (mac_quic_add 4 addrs s).

Definition mac_quic_flush (s : mac) : mac :=
  let flush family := [str "-a"; TP_PF_ANCHOR; str "-t"; quic_table family; str "-T"; str "flush"] in
  (pfctl_simple (flush 6) (pfctl_simple (flush 4) s).1).1.

Definition known_tools : list (list Z * list Z) :=
  [(str "tpws", str "zapret (tpws) is running"); (str "spoofdpi", str "SpoofDPI is running");
   (str "ciadpi", str "ByeDPI (ciadpi) is running"); (str "byedpi", str "ByeDPI is running");
   (str "dpi-bypass", str "dpi-bypass is running")].

(** The first process, in the system's order, that is one of them. *)
Fixpoint find_tool (procs : list (option (list Z))) : option (list Z) :=
  match procs with
  | [] => None
  | None :: procs => find_tool procs
  | Some name :: procs =>
      match list_find (fun k => k.1 = name) known_tools with
      | Some (_, k) => Some k.2
      | None => find_tool procs
      end
  end.
Definition mac_conflict (s : mac) : option (list Z) := find_tool (take 4096 (ms_processes (mc_ms s))).

Definition mac_name : list Z := str "PF".

Definition mac_status_extra (s : mac) : list Z :=
  let wd := if wd_pid (mc_wd s) then str "running (pid " ++ print_dec (ms_wd_pid (mc_ms s)) ++ str ")" else str "not running" in
  bsub (line (str "pf: " ++ if mc_enabled s then str "enabled" else str "disabled") ++
        line (str "pf_anchor: " ++ TP_PF_ANCHOR ++ str " " ++
              if mc_removed s then str "removed" else if mc_anchor s then str "loaded" else str "MISSING") ++
        line (str "pf_hooks: " ++ if mc_hooks s then str "ok" else str "MISSING") ++
        line (str "pf_watchdog: " ++ wd)) 0 511.
End mac.

(** ** What pfctl documents about enable references *)

Definition TOKEN_TEXT : list Z := str "Token : ".

(** The output is a text that fits the daemon's array. *)
Definition plain_output (text : list Z) : Prop := Forall (fun c => c <> 0) text /\ zlen text < PFCTL_OUT_MAX.

Definition prints_token (r : option (list Z * option Z)) (tok : list Z) : Prop :=
  exists text post st, r = Some (text, st) /\ plain_output text /\
    after TOKEN_TEXT text = Some (tok ++ post) /\
    Forall (fun c => isdigit c = true) tok /\ 0 < zlen tok <= 31 /\ isdigit (bget post 0) = false.
Definition prints_no_token (r : option (list Z * option Z)) : Prop :=
  forall text st, r = Some (text, st) -> plain_output text /\ after TOKEN_TEXT text = None.

Definition FLUSH_NAT : command := [str "-a"; TP_PF_ANCHOR; str "-F"; str "nat"].
(** Commands that load rules. *)
Definition loads (args : command) : Prop := args !! 0%nat = Some (str "-f") \/ args !! 2%nat = Some (str "-f").

(** The tokens that keep the packet filter enabled: [-E] adds one and prints it,
    or reports an error; [-X] takes one away, or reports an error; nothing else
    the daemon does changes them. With an error nothing is known: the command
    may not have been started, or killed when it had done its work. Flushing
    the anchor's translation rules, if it is reported as done, ends the
    redirection, and only loading rules starts it again. *)
Class mac_laws (S : mac_system) := {
  refs : ms -> list (list Z);
  law_enable : forall inp m,
    let '(m', r) := ms_pfctl [str "-E"] inp m in
    (exists tok, prints_token r tok /\ refs m' = tok :: refs m) \/
    (prints_no_token r /\ (refs m' = refs m \/ (exit_status r <> 0 /\ exists tok, refs m' = tok :: refs m)));
  law_release : forall tok inp m,
    let '(m', r) := ms_pfctl [str "-X"; tok] inp m in
    refs m' = remove_one tok (refs m) \/ (exit_status r <> 0 /\ refs m' = refs m);
  law_other : forall args inp m,
    head args <> Some (str "-E") -> head args <> Some (str "-X") -> refs (ms_pfctl args inp m).1 = refs m;
  law_flush_nat : forall inp m,
    exit_status (ms_pfctl FLUSH_NAT inp m).2 = 0 -> ms_redirects (ms_pfctl FLUSH_NAT inp m).1 = false;
  law_unloaded : forall args inp m,
    ~ loads args -> ms_redirects m = false -> ms_redirects (ms_pfctl args inp m).1 = false;
  law_redirects : forall m, ms_redirects m = false ->
    ms_redirects (ms_unlink_token m) = false /\ (forall t, ms_redirects (ms_wd_write t m).1 = false) /\
    ms_redirects (ms_wd_close m) = false /\ ms_redirects (ms_wd_wait m).1 = false /\
    ms_redirects (ms_wd_kill m) = false;
  law_write_token : forall t m, refs (ms_write_token t m) = refs m;
  law_unlink_token : forall m, refs (ms_unlink_token m) = refs m;
  law_wd_write : forall t m, refs (ms_wd_write t m).1 = refs m;
  law_wd_close : forall m, refs (ms_wd_close m) = refs m;
  law_wd_wait : forall m, refs (ms_wd_wait m).1 = refs m;
  law_wd_kill : forall m, refs (ms_wd_kill m) = refs m;
  law_wd_spawn : forall m, refs (ms_wd_spawn m).1 = refs m
}.

Section correct.
Context {S : mac_system} {L : mac_laws S}.

(** ** What the parts leave alone *)

(** Commands that look, that touch the daemon's own anchor or its enable
    reference, or that load the system's own ruleset. *)
Definition own_command (args : command) : bool :=
  match args with
  | [] => false
  | a :: rest =>
      if bool_decide (a = str "-a") then bool_decide (head rest = Some TP_PF_ANCHOR)
      else if bool_decide (a = str "-s") then true
      else if bool_decide (a = str "-E") then bool_decide (rest = [])
      else if bool_decide (a = str "-X") then (length rest =? 1)%nat
      else bool_decide (args = [str "-f"; str "/etc/pf.conf"])
  end.
Definition own_commands (s : mac) : Prop := Forall (fun c => own_command c.1 = true) (mc_cmds s).

Lemma own_commands_snoc s c :
  own_command c.1 = true -> own_commands s -> Forall (fun c => own_command c.1 = true) (mc_cmds s ++ [c]).
Proof. intros H Hs. apply Forall_app_2; [exact Hs|by apply Forall_cons_2]. Qed.

(** The references, the token, the ports and whether stale state was looked
    for. *)
Record kept (s s' : mac) : Prop := {
  kp_refs : refs (mc_ms s') = refs (mc_ms s);
  kp_token : mc_token s' = mc_token s;
  kp_stale : mc_stale_done s' = mc_stale_done s;
  kp_ports : (mc_port s', mc_ipv6 s', mc_dns_port s') = (mc_port s, mc_ipv6 s, mc_dns_port s);
  kp_cmds : own_commands s -> own_commands s';
  kp_log : mc_cmds s ⊆ mc_cmds s'
}.
(** And the watchdog. *)
Definition quiet (s s' : mac) : Prop := kept s s' /\ mc_wd s' = mc_wd s.

#[local] Instance kept_pre : PreOrder kept.
Proof.
  split; [done|]. intros x y z [? ? ? ? ? ?] [? ? ? ? ? ?]. split; [congruence..|auto|by etrans].
Qed.
#[local] Instance quiet_pre : PreOrder quiet.
Proof. split; [done|]. intros x y z [H1 E1] [H2 E2]. split; [by etrans|congruence]. Qed.

Lemma run_quiet args inp n s :
  head args <> Some (str "-E") -> head args <> Some (str "-X") -> own_command (take 14 args) = true ->
  quiet s (pfctl_run args inp n s).1.1.
Proof.
  intros H1 H2 H3. unfold pfctl_run. cbv zeta.
  assert (Hh : head (take 14 args) = head args) by (by destruct args).
  pose proof (law_other (take 14 args) (relay_send_all (ms_writes (mc_ms s)) inp).2 (mc_ms s)) as Ho.
  rewrite Hh in Ho. specialize (Ho H1 H2).
  destruct (ms_pfctl _ _ _) as [m x]. split; [|done]. split; try done.
  - exact (own_commands_snoc s (take 14 args, exit_status x) H3).
  - cbn [fst mc_cmds]. set_solver.
Qed.

Lemma simple_quiet args s :
  head args <> Some (str "-E") -> head args <> Some (str "-X") -> own_command (take 14 args) = true ->
  quiet s (pfctl_simple args s).1.
Proof.
  intros H1 H2 H3. unfold pfctl_simple. pose proof (run_quiet args [] 0 s H1 H2 H3) as H.
  by destruct (pfctl_run _ _ _ _) as [[? ?] ?].
Qed.

Lemma anchor_flush_quiet s : quiet s (anchor_flush s).
Proof.
  unfold anchor_flush. cbv zeta. etrans; [|by apply simple_quiet]. etrans; [|by apply simple_quiet].
  by apply simple_quiet.
Qed.

Lemma show_quiet anchor what s :
  match anchor with Some a => a = TP_PF_ANCHOR | None => True end -> quiet s (pfctl_show anchor what s).1.1.
Proof. unfold pfctl_show. intros H. destruct anchor; [subst|]; by apply run_quiet. Qed.

Lemma anchor_load_quiet s : quiet s (anchor_load s).1.
Proof.
  unfold anchor_load. cbv zeta. destruct (_ =? 0); [done|].
  match goal with |- context [pfctl_run ?a ?i ?n ?s0] =>
    pose proof (run_quiet a i n s0 ltac:(discriminate) ltac:(discriminate) ltac:(reflexivity)) as H end.
  by destruct (pfctl_run _ _ _ _) as [[? ?] ?].
Qed.

Lemma anchor_present_quiet s : quiet s (anchor_present s).1.
Proof.
  unfold anchor_present. pose proof (show_quiet (Some TP_PF_ANCHOR) (str "nat") s eq_refl) as H1.
  destruct (pfctl_show _ _ s) as [[s1 o1] r1]. destruct (_ || _); [done|].
  pose proof (show_quiet (Some TP_PF_ANCHOR) (str "rules") s1 eq_refl) as H2.
  destruct (pfctl_show _ _ s1) as [[s2 o2] r2]. cbn [fst] in *. destruct (_ || _); by etrans.
Qed.

Lemma main_hooks_quiet s : quiet s (main_hooks_present s).1.1.
Proof.
  unfold main_hooks_present. pose proof (show_quiet None (str "nat") s I) as H1.
  destruct (pfctl_show _ _ s) as [[s1 o1] r1]. destruct (negb _); [done|].
  pose proof (show_quiet None (str "rules") s1 I) as H2.
  destruct (pfctl_show _ _ s1) as [[s2 o2] r2]. cbn [fst] in *. destruct (negb _); by etrans.
Qed.

Lemma ensure_main_hooks_quiet s : quiet s (ensure_main_hooks s).1.
Proof.
  unfold ensure_main_hooks. pose proof (main_hooks_quiet s) as H1.
  destruct (main_hooks_present s) as [[s1 ok] empty]. cbn [fst] in H1. destruct ok; [done|].
  destruct (negb empty); [done|]. cbv zeta. destruct (_ || _); [done|].
  pose proof (simple_quiet [str "-f"; str "/etc/pf.conf"] s1 ltac:(discriminate) ltac:(discriminate)
    ltac:(reflexivity)) as H2.
  destruct (pfctl_simple _ s1) as [s2 rc]. cbn [fst] in H2. destruct (negb _); [by etrans|].
  pose proof (main_hooks_quiet s2) as H3. destruct (main_hooks_present s2) as [[s3 ok] e3]. cbn [fst] in *.
  etrans; [exact H1|]. by etrans.
Qed.

Lemma pf_enabled_quiet s : quiet s (pf_enabled s).1.
Proof.
  unfold pf_enabled. pose proof (show_quiet None (str "info") s I) as H.
  by destruct (pfctl_show _ _ s) as [[s1 o1] r1].
Qed.

Lemma forget_quiet tok s : quiet s (token_file_forget tok s).
Proof.
  unfold token_file_forget. cbv zeta. destruct (_ && _); [|done].
  split; [|done]. split; [apply law_unlink_token|done..].
Qed.

Lemma seen_quiet s a b c : quiet s (with_seen s a b c).
Proof. done. Qed.

Lemma quic_flush_quiet s : quiet s (mac_quic_flush s).
Proof. unfold mac_quic_flush. cbv zeta. etrans; by apply simple_quiet. Qed.

Lemma quic_add_quiet family addrs s : quiet s (mac_quic_add family addrs s).
Proof. unfold mac_quic_add. cbv zeta. case_bool_decide; [done|]. by apply simple_quiet. Qed.

(** ** The watchdog is told the token *)

(** Through the pipe the watchdog reads, it has been told nothing but well-formed
    messages, not to quit, and, if the daemon holds a reference, its token. *)
Definition informed (s : mac) : Prop :=
  wd_fd (mc_wd s) = true ->
  exists msgs, wd_sent (mc_wd s) = wire msgs /\ Forall message_ok msgs /\ told_to_quit msgs = false /\
    (mc_token s <> [] -> last_token msgs [] = mc_token s).

Definition token_ok (t : list Z) : Prop := t = [] \/ message_ok (TOKEN t).

Lemma wire_snoc msgs m : wire (msgs ++ [m]) = wire msgs ++ render_message m.
Proof. unfold wire. rewrite map_app, concat_app. cbn [map concat]. by rewrite app_nil_r. Qed.

Lemma quit_snoc msgs m : told_to_quit (msgs ++ [m]) = told_to_quit msgs || told_to_quit [m].
Proof. apply existsb_app. Qed.

Lemma last_token_snoc msgs m t :
  last_token (msgs ++ [m]) t = match m with TOKEN d => d | _ => last_token msgs t end.
Proof. revert t. induction msgs as [|[|d|] msgs IH]; intros t; cbn [app last_token]; [by destruct m|apply IH..]. Qed.

Lemma wd_send_kept msg s : kept s (wd_send msg s).
Proof.
  unfold wd_send. cbv zeta. destruct (wd_fd (mc_wd s)); [|done]. cbn [negb].
  pose proof (law_wd_write msg (mc_ms s)) as H. destruct (ms_wd_write msg (mc_ms s)) as [m n]. cbn [fst] in H.
  destruct (n =? zlen msg); split; try done. cbn. by rewrite law_wd_close.
Qed.

(** A message that leaves the token as it is, or tells the present one. *)
Lemma wd_send_informed msg s :
  message_ok msg -> told_to_quit [msg] = false ->
  match msg with
  | TOKEN d => d = mc_token s /\ (wd_fd (mc_wd s) = true ->
      exists msgs, wd_sent (mc_wd s) = wire msgs /\ Forall message_ok msgs /\ told_to_quit msgs = false)
  | _ => informed s
  end ->
  informed (wd_send (render_message msg) s).
Proof.
  intros Hm Hq Hi. unfold wd_send. cbv zeta. destruct (wd_fd (mc_wd s)) eqn:Hfd; cbn [negb].
  2: { intros H. congruence. }
  destruct (ms_wd_write _ _) as [m n]. destruct (n =? _); [|done]. intros _. cbn [mc_wd mc_token with_wd with_ms wd_sent].
  assert (Hx : exists msgs, wd_sent (mc_wd s) = wire msgs /\ Forall message_ok msgs /\ told_to_quit msgs = false /\
    (mc_token s <> [] -> match msg with TOKEN d => d | _ => last_token msgs [] end = mc_token s)).
  { destruct msg as [|d|]; [exact (Hi Hfd)| |exact (Hi Hfd)]. destruct Hi as [-> Hi].
    destruct (Hi eq_refl) as (msgs & ? & ? & ?). by exists msgs. }
  destruct Hx as (msgs & Es & Hok & Hquit & Htok). exists (msgs ++ [msg]).
  split; [by rewrite wire_snoc, Es|]. split; [apply Forall_app_2; [done|by apply Forall_cons_2]|].
  split; [by rewrite quit_snoc, Hquit, Hq|]. by rewrite last_token_snoc.
Qed.

Lemma close_wd_kept s : kept s (close_wd s) /\ wd_fd (mc_wd (close_wd s)) = false.
Proof.
  unfold close_wd. cbv zeta. destruct (wd_fd (mc_wd s)) eqn:E; [|by split].
  split; [|done]. split; [apply law_wd_close|done..].
Qed.

(** Reaping and killing leave the pipe alone. *)
Definition same_pipe (s s' : mac) : Prop :=
  kept s s' /\ wd_fd (mc_wd s') = wd_fd (mc_wd s) /\ wd_sent (mc_wd s') = wd_sent (mc_wd s).

Lemma reap_pipe n s : same_pipe s (reap_tries n s).
Proof.
  revert s. induction n as [|n IH]; intros s; [by repeat split|]. cbn [reap_tries].
  destruct (wd_pid (mc_wd s)); [|by repeat split]. cbn [negb].
  pose proof (law_wd_wait (mc_ms s)) as H. destruct (ms_wd_wait (mc_ms s)) as [m gone]. cbn [fst] in H.
  destruct gone; [by repeat split|]. destruct (IH (with_ms s m)) as (Hk & E1 & E2).
  split; [|by split]. etrans; [|exact Hk]. by split.
Qed.

Lemma wd_kill_pipe s : same_pipe s (wd_kill s).
Proof.
  unfold wd_kill. destruct (wd_pid (mc_wd s)); [|by repeat split].
  destruct (reap_pipe (Datatypes.S (Z.to_nat (1000 / 20))) (with_ms s (ms_wd_kill (mc_ms s)))) as (Hk & E1 & E2).
  split; [|by split]. etrans; [|exact Hk]. split; [apply law_wd_kill|done..].
Qed.

Lemma informed_pipe s s' : same_pipe s s' -> informed s -> informed s'.
Proof.
  intros ([_ Et _ _ _] & E1 & E2) H Hfd. rewrite Et, E2. apply H. congruence.
Qed.

Lemma quiet_pipe s s' : quiet s s' -> same_pipe s s'.
Proof. intros [Hk E]. split; [done|]. by rewrite E. Qed.

Lemma wd_send_token_kept s : kept s (wd_send_token s).
Proof. unfold wd_send_token. case_bool_decide; [done|apply wd_send_kept]. Qed.

Lemma wd_send_token_informed s :
  token_ok (mc_token s) ->
  (wd_fd (mc_wd s) = true ->
   exists msgs, wd_sent (mc_wd s) = wire msgs /\ Forall message_ok msgs /\ told_to_quit msgs = false) ->
  informed (wd_send_token s).
Proof.
  intros Ht H. unfold wd_send_token. case_bool_decide as E.
  - intros Hfd. destruct (H Hfd) as (msgs & ? & ? & ?). exists msgs. by rewrite E.
  - destruct Ht as [Ht|Ht]; [done|]. by apply (wd_send_informed (TOKEN (mc_token s))).
Qed.

Lemma wd_spawn_kept s : kept s (wd_spawn s).
Proof.
  unfold wd_spawn. pose proof (law_wd_spawn (mc_ms s)) as H.
  destruct (ms_wd_spawn (mc_ms s)) as [m [[|]|]]; cbn [fst] in H; [|by split|by split].
  etrans; [|apply wd_send_token_kept]. by split.
Qed.

Lemma wd_spawn_informed s : token_ok (mc_token s) -> wd_fd (mc_wd s) = false -> informed (wd_spawn s).
Proof.
  intros Ht Hfd. unfold wd_spawn. destruct (ms_wd_spawn (mc_ms s)) as [m [[|]|]].
  - apply wd_send_token_informed; [done|]. intros _. by exists [].
  - intros H. cbn in H. congruence.
  - intros H. cbn in H. congruence.
Qed.

Lemma wd_beat_kept s : kept s (wd_beat s).
Proof.
  unfold wd_beat, wd_reap. cbv zeta. destruct (reap_pipe (Datatypes.S (Z.to_nat (0 / 20))) s) as [Hk _].
  set (s1 := reap_tries _ s) in *. clearbody s1. set (s2 := if wd_pid (mc_wd s1) then _ else s1).
  assert (Hk2 : kept s1 s2) by (unfold s2; destruct (wd_pid (mc_wd s1)); [apply wd_send_kept|done]).
  clearbody s2. etrans; [exact Hk|]. etrans; [exact Hk2|]. destruct (_ && _); [done|].
  destruct (close_wd_kept s2) as [Hk3 _]. destruct (wd_kill_pipe (close_wd s2)) as (Hk4 & _).
  etrans; [exact Hk3|]. etrans; [exact Hk4|apply wd_spawn_kept].
Qed.

Lemma wd_beat_informed s : token_ok (mc_token s) -> informed s -> informed (wd_beat s).
Proof.
  intros Ht Hi. unfold wd_beat, wd_reap. cbv zeta.
  pose proof (reap_pipe (Datatypes.S (Z.to_nat (0 / 20))) s) as Hp. set (s1 := reap_tries _ s) in *. clearbody s1.
  pose proof (informed_pipe _ _ Hp Hi) as Hi1. destruct Hp as (Hk & _).
  set (s2 := if wd_pid (mc_wd s1) then _ else s1).
  assert (H2 : mc_token s2 = mc_token s1 /\ informed s2).
  { unfold s2. destruct (wd_pid (mc_wd s1)); [|by split].
    split; [apply (kp_token _ _ (wd_send_kept [98] s1))|by apply (wd_send_informed BEAT)]. }
  clearbody s2. destruct H2 as [Et Hi2]. destruct (_ && _); [done|].
  destruct (close_wd_kept s2) as [Hk3 Hf3]. destruct (wd_kill_pipe (close_wd s2)) as (Hk4 & Hf4 & _).
  apply wd_spawn_informed; [|congruence].
  by rewrite (kp_token _ _ Hk4), (kp_token _ _ Hk3), Et, (kp_token _ _ Hk).
Qed.

Lemma wd_stop_spec s : kept s (wd_stop s) /\ wd_fd (mc_wd (wd_stop s)) = false.
Proof.
  unfold wd_stop, wd_reap. pose proof (wd_send_kept [113] s) as H1.
  destruct (close_wd_kept (wd_send [113] s)) as [H2 F2]. set (s2 := close_wd _) in *. clearbody s2.
  destruct (reap_pipe (Datatypes.S (Z.to_nat (2000 / 20))) s2) as (H3 & F3 & _). set (s3 := reap_tries _ s2) in *. clearbody s3.
  destruct (wd_kill_pipe s3) as (H4 & F4 & _). split; [|congruence].
  etrans; [exact H1|]. etrans; [exact H2|]. by etrans.
Qed.

(** ** The enable reference *)

Definition own (t : list Z) : list (list Z) := if bool_decide (t = []) then [] else [t].

Lemma own_some t : t <> [] -> own t = [t].
Proof. intros H. unfold own. by rewrite bool_decide_eq_false_2. Qed.

(** Only the token and the references may change. *)
Record swapped (s s' : mac) : Prop := {
  sw_wd : mc_wd s' = mc_wd s;
  sw_stale : mc_stale_done s' = mc_stale_done s;
  sw_ports : (mc_port s', mc_ipv6 s', mc_dns_port s') = (mc_port s, mc_ipv6 s, mc_dns_port s);
  sw_cmds : own_commands s -> own_commands s';
  sw_log : mc_cmds s ⊆ mc_cmds s'
}.
#[local] Instance swapped_pre : PreOrder swapped.
Proof. split; [done|]. intros x y z [? ? ? ? ?] [? ? ? ? ?]. split; [congruence..|auto|by etrans]. Qed.

Lemma quiet_swapped s s' : quiet s s' -> swapped s s'.
Proof. intros [[? ? ? ? ? ?] ?]. by split. Qed.

(** Why a reference that is not the daemon's may have been left: dropping it, or
    taking it, was reported as failed. *)
Definition excused (s : mac) (t : list Z) : Prop :=
  exists rc, rc <> 0 /\ (([str "-X"; t], rc) ∈ mc_cmds s \/ ([str "-E"], rc) ∈ mc_cmds s).

Lemma excused_mono s s' t : mc_cmds s ⊆ mc_cmds s' -> excused s t -> excused s' t.
Proof. intros H (rc & Hrc & [Hx|Hx]); exists rc; (split; [done|]); [left|right]; by apply H. Qed.

Lemma pf_release_spec tok s :
  tok <> [] -> let s' := pf_release tok s in
  swapped s s' /\ mc_token s' = mc_token s /\
  (refs (mc_ms s') = remove_one tok (refs (mc_ms s)) \/ (refs (mc_ms s') = refs (mc_ms s) /\ excused s' tok)).
Proof.
  intros Ht. cbv zeta. unfold pf_release. rewrite bool_decide_eq_false_2 by done.
  unfold pfctl_simple, pfctl_run. cbn [take]. cbv zeta.
  pose proof (law_release tok (relay_send_all (ms_writes (mc_ms s)) []).2 (mc_ms s)) as H.
  destruct (ms_pfctl _ _ _) as [m x]. cbn [fst mc_token mc_ms]. split.
  - split; try done; [exact (own_commands_snoc s ([str "-X"; tok], exit_status x) eq_refl)|cbn [mc_cmds]; clear; set_solver].
  - split; [done|]. destruct H as [H|[Hx H]]; [by left|right]. split; [done|]. exists (exit_status x).
    split; [done|]. left. cbn [mc_cmds]. set_solver.
Qed.

Lemma plain_cstr text : plain_output text -> cstr (bsub text 0 (PFCTL_OUT_MAX - 1)) = text.
Proof.
  intros [Hz Hl]. unfold bsub. cbn [drop]. change (drop (Z.to_nat 0) text) with text.
  rewrite take_ge by (unfold zlen, PFCTL_OUT_MAX in *; lia).
  rewrite <- (app_nil_r text) at 1. rewrite cstr_clean by done. by rewrite app_nil_r.
Qed.

Lemma digits_app n tok post :
  Forall (fun c => isdigit c = true) tok -> (length tok <= n)%nat -> isdigit (bget post 0) = false ->
  digits n (tok ++ post) = tok.
Proof.
  intros Hd. revert n. induction Hd as [|c tok Hc _ IH]; intros n Hn Hp; cbn [app].
  - destruct n as [|n]; [done|]. destruct post as [|c post]; [done|]. cbn [digits]. rewrite bget_cons_0 in Hp.
    by rewrite Hp.
  - destruct n as [|n]; [cbn in Hn; lia|]. cbn [digits]. rewrite Hc, IH; [done| |done]. cbn in Hn. lia.
Qed.

Lemma pf_enable_spec s :
  mc_token s = [] -> let '(s', rc) := pf_enable s in
  swapped s s' /\ token_ok (mc_token s') /\ (rc = 0 \/ mc_token s' = []) /\
  exists lost, refs (mc_ms s') = own (mc_token s') ++ lost ++ refs (mc_ms s) /\ Forall (excused s') lost.
Proof.
  intros Ht. unfold pf_enable, pfctl_run. cbn [take]. cbv zeta.
  pose proof (law_enable (relay_send_all (ms_writes (mc_ms s)) []).2 (mc_ms s)) as H.
  pose proof (fun rc => own_commands_snoc s ([str "-E"], rc) eq_refl) as Hc.
  assert (Hl : forall x : command * Z, mc_cmds s ⊆ mc_cmds s ++ [x]) by (intros; set_solver).
  destruct (ms_pfctl _ _ _) as [m x].
  destruct H as [(tok & (text & post & st & -> & Hp & Ha & Hd & Hz & He) & Hr)|[Hn Hr]].
  - rewrite plain_cstr by done. fold TOKEN_TEXT. rewrite Ha, digits_app; [|done|unfold zlen in Hz; lia|done].
    cbn [mc_token with_token]. assert (Hne : tok <> []) by (intros ->; unfold zlen in Hz; cbn [length] in Hz; lia).
    rewrite bool_decide_eq_false_2 by done. split; [split; try done; [apply Hc|apply Hl]|]. split; [by right|].
    split; [by left|]. exists []. split; [|constructor].
    cbn [mc_token token_file_write with_token with_ms mc_ms]. by rewrite law_write_token, own_some, Hr.
  - set (out := match x with Some (text, _) => _ | None => [] end).
    assert (Eo : after (str "Token : ") out = None).
    { subst out. destruct x as [[text st]|]; [|done]. destruct (Hn text st eq_refl) as [Hp Ha]. by rewrite plain_cstr. }
    rewrite Eo. cbn [mc_token mc_ms]. rewrite Ht. split; [split; try done; [apply Hc|apply Hl]|]. split; [by left|]. split; [by right|].
    destruct Hr as [Hr|(Hx & tok & Hr)]; [by exists []|]. exists [tok]. split; [done|]. apply Forall_singleton.
    exists (exit_status x). split; [done|]. right. cbn [mc_cmds]. set_solver.
Qed.

(** ** The invariant *)

Record mac_ok (rest : list (list Z)) (s : mac) : Prop := {
  mk_refs : exists lost, refs (mc_ms s) = own (mc_token s) ++ lost ++ rest /\ Forall (excused s) lost;
  mk_token : token_ok (mc_token s);
  mk_informed : informed s;
  mk_stale : mc_stale_done s = true;
  mk_cmds : own_commands s
}.

Lemma lost_mono s s' lost : mc_cmds s ⊆ mc_cmds s' -> Forall (excused s) lost -> Forall (excused s') lost.
Proof. intros H Hl. eapply Forall_impl; [exact Hl|]. intros t. by apply excused_mono. Qed.

Lemma ok_kept rest s s' : kept s s' -> informed s' -> mac_ok rest s -> mac_ok rest s'.
Proof.
  intros [E1 E2 E3 _ E5 E6] Hi' [(lost & Hr & Hl) Ht Hi Hs Hc].
  split; [exists lost; split; [by rewrite E1, E2|by eapply lost_mono]|by rewrite E2|done|by rewrite E3|auto].
Qed.

Lemma ok_quiet rest s s' : quiet s s' -> mac_ok rest s -> mac_ok rest s'.
Proof.
  intros Hq H. eapply ok_kept; [apply Hq| |exact H]. apply (informed_pipe _ _ (quiet_pipe _ _ Hq)), (mk_informed _ _ H).
Qed.

Lemma ok_beat rest s : mac_ok rest s -> mac_ok rest (wd_beat s).
Proof. intros H. eapply ok_kept; [apply wd_beat_kept| |exact H]. apply wd_beat_informed; apply H. Qed.

(** The part of [informed] that does not depend on the token. *)
Lemma informed_pipe_text s : informed s -> wd_fd (mc_wd s) = true ->
  exists msgs, wd_sent (mc_wd s) = wire msgs /\ Forall message_ok msgs /\ told_to_quit msgs = false.
Proof. intros H Hfd. destruct (H Hfd) as (msgs & ? & ? & ? & _). by exists msgs. Qed.

(** The daemon's reference is dropped, or has been lost. *)
Lemma dropped_ok rest s1 :
  (exists lost, refs (mc_ms s1) = own (mc_token s1) ++ lost ++ rest /\ Forall (excused s1) lost) ->
  let s2 := if bool_decide (mc_token s1 = []) then s1 else with_token (pf_release (mc_token s1) s1) [] in
  swapped s1 s2 /\ mc_token s2 = [] /\ exists lost, refs (mc_ms s2) = lost ++ rest /\ Forall (excused s2) lost.
Proof.
  intros (lost & Hr & Hlost). cbv zeta. case_bool_decide as E.
  - split; [done|]. split; [done|]. exists lost. by rewrite Hr, E.
  - destruct (pf_release_spec (mc_token s1) s1 E) as (Hw & _ & Hr'). pose proof (sw_log _ _ Hw) as Hlog.
    split; [by destruct Hw|]. split; [done|]. cbn [mc_ms with_token]. rewrite Hr, own_some in Hr' by done.
    destruct Hr' as [Hr'|[Hr' Hx]].
    + exists lost. rewrite Hr'. split; [apply remove_one_head|by eapply lost_mono].
    + exists (mc_token s1 :: lost). rewrite Hr'. split; [done|]. apply Forall_cons_2; [done|by eapply lost_mono].
Qed.

Lemma ok_ensure_enabled rest s : mac_ok rest s -> mac_ok rest (ensure_enabled s).1.
Proof.
  intros H0. unfold ensure_enabled.
  set (x := if bool_decide (mc_token s = []) then (s, false) else pf_enabled s).
  assert (H1 : mac_ok rest x.1).
  { unfold x. case_bool_decide; [done|]. eapply ok_quiet; [apply pf_enabled_quiet|done]. }
  destruct x as [s1 on]. cbn [fst] in H1. destruct on; [done|]. cbv zeta.
  set (s2 := if bool_decide (mc_token s1 = []) then s1 else _).
  assert (H2 : swapped s1 s2 /\ mc_token s2 = [] /\
    exists lost, refs (mc_ms s2) = lost ++ rest /\ Forall (excused s2) lost) by (apply dropped_ok; apply H1).
  clearbody s2. destruct H2 as (Hw & Et & lost & Er & Hlost). pose proof (pf_enable_spec s2 Et) as H3.
  destruct (pf_enable s2) as [s3 rc]. destruct H3 as (Hw3 & Ht3 & Hrc & more & Hr3 & Hmore). rewrite Er in Hr3.
  assert (Hl3 : Forall (excused s3) (more ++ lost)) by (apply Forall_app_2; [done|]; eapply lost_mono; [apply Hw3|done]).
  assert (Hr : refs (mc_ms s3) = own (mc_token s3) ++ (more ++ lost) ++ rest) by (by rewrite Hr3, <- app_assoc).
  assert (Hw' : swapped s1 s3) by (by etrans). destruct Hw' as [E1 E2 _ E4 E5].
  destruct H1 as [_ _ Hi Hs Hc]. specialize (E4 Hc). pose proof (informed_pipe_text s1 Hi) as Hp.
  assert (Hok : mac_ok rest (wd_send_token s3)).
  { destruct (wd_send_token_kept s3) as [K1 K2 K3 _ K5 K6].
    split; rewrite ?K1, ?K2, ?K3; [exists (more ++ lost); split; [done|by eapply lost_mono]|done| |congruence|auto].
    apply wd_send_token_informed; [done|]. by rewrite E1. }
  destruct Hrc as [->|Hno]; [exact Hok|].
  assert (Hfail : mac_ok rest s3).
  { split; [by exists (more ++ lost)|done| |congruence|done]. intros Hfd. rewrite E1 in *. destruct (Hp Hfd) as (msgs & ? & ? & ?).
    exists msgs. split_and!; [done..|]. by rewrite Hno. }
  destruct rc; [exact Hok| |]; (eapply ok_quiet; [apply anchor_flush_quiet|exact Hfail]).
Qed.

Lemma ok_install_rules rest s1 : mac_ok rest s1 -> mac_ok rest (install_rules s1).1.
Proof.
  intros H1. unfold install_rules.
  pose proof (ok_quiet _ _ _ (ensure_main_hooks_quiet s1) H1) as H2.
  destruct (ensure_main_hooks s1) as [s2 rc2]. cbn [fst] in H2.
  set (s3 := with_seen s2 _ _ _). assert (H3 : mac_ok rest s3) by (by destruct H2). clearbody s3.
  destruct (negb _); [done|].
  pose proof (ok_quiet _ _ _ (anchor_load_quiet (anchor_flush s3)) (ok_quiet _ _ _ (anchor_flush_quiet s3) H3)) as H4.
  destruct (anchor_load _) as [s4 rc4]. cbn [fst] in H4. destruct (negb _); [done|].
  pose proof (ok_ensure_enabled _ _ H4) as H5. destruct (ensure_enabled s4) as [s5 rc5]. cbn [fst] in H5.
  destruct (negb _); [done|].
  set (s6 := with_seen s5 _ _ _). assert (H6 : mac_ok rest s6) by (by destruct H5). clearbody s6.
  pose proof (ok_quiet _ _ _ (anchor_present_quiet s6) H6) as H7. destruct (anchor_present s6) as [s7 present].
  cbn [fst] in H7. apply ok_beat. by destruct H7.
Qed.

Lemma ok_install rest s port ipv6 dns_port : mac_ok rest s -> mac_ok rest (mac_install s port ipv6 dns_port).1.
Proof.
  intros H. unfold mac_install. cbv zeta. apply ok_install_rules.
  assert (H1 : mac_ok rest (with_removed (with_ports s port ipv6 dns_port) false)) by (by destruct H).
  by rewrite (mk_stale _ _ H1).
Qed.

Lemma ok_refresh rest s : mac_ok rest s -> mac_ok rest (mac_refresh s).1.
Proof.
  intros H. unfold mac_refresh. cbv zeta. apply ok_beat in H. set (s1 := wd_beat s) in *. clearbody s1.
  pose proof (ok_quiet _ _ _ (pf_enabled_quiet s1) H) as H2. destruct (pf_enabled s1) as [s2 en]. cbn [fst] in H2.
  pose proof (ok_quiet _ _ _ (anchor_present_quiet s2) H2) as H3. destruct (anchor_present s2) as [s3 an]. cbn [fst] in H3.
  pose proof (ok_quiet _ _ _ (main_hooks_quiet s3) H3) as H4. destruct (main_hooks_present s3) as [[s4 ho] em]. cbn [fst] in H4.
  set (s5 := with_seen s4 _ _ _). assert (H5 : mac_ok rest s5) by (by destruct H4). clearbody s5.
  destruct (_ && _ && _); [done|].
  pose proof (ok_install _ s5 (mc_port s5) (mc_ipv6 s5) (mc_dns_port s5) H5) as H6.
  destruct (mac_install _ _ _ _) as [s6 [|q|q]]; done.
Qed.

(** Removing gives the reference back and closes the pipe. *)
Lemma remove_spec rest s :
  mac_ok rest s -> mac_ok rest (mac_remove s) /\ mc_token (mac_remove s) = [] /\ wd_fd (mc_wd (mac_remove s)) = false.
Proof.
  intros H. unfold mac_remove. cbv zeta. apply (ok_quiet _ _ _ (anchor_flush_quiet s)) in H.
  set (s1 := anchor_flush s) in *. clearbody s1. set (s2 := if bool_decide _ then s1 else _).
  assert (H2 : mc_token s2 = [] /\ mc_stale_done s2 = true /\ own_commands s2 /\
    exists lost, refs (mc_ms s2) = lost ++ rest /\ Forall (excused s2) lost).
  { pose proof (dropped_ok rest s1 (mk_refs _ _ H)) as Hd. cbv zeta in Hd. destruct H as [_ _ _ Hs Hc]. unfold s2.
    case_bool_decide as E; [destruct Hd as (_ & ? & Hl); by split_and!|].
    destruct Hd as ([_ E2 _ E4 _] & _ & lost & Hr & Hl). cbn [mc_ms with_token mc_stale_done] in *.
    destruct (forget_quiet (mc_token s1) (pf_release (mc_token s1) s1)) as [[F1 F2 F3 _ F5 F6] _].
    cbn [mc_token mc_ms mc_stale_done with_token]. rewrite F1, F3.
    split_and!; [done|by rewrite E2|exact (F5 (E4 Hc))|]. exists lost. split; [done|]. by eapply lost_mono. }
  clearbody s2. destruct H2 as (Et & Es & Hc & lost & Er & Hl).
  destruct (wd_stop_spec s2) as [[K1 K2 K3 _ K5 K6] Kf]. set (s3 := wd_stop s2) in *. clearbody s3.
  pose proof (pf_enabled_quiet s3) as [[Q1 Q2 Q3 _ Q5 Q6] Qw]. destruct (pf_enabled s3) as [s4 en]. cbn [fst] in *.
  assert (Hfd : wd_fd (mc_wd s4) = false) by (by rewrite Qw).
  assert (Ht : mc_token s4 = []) by congruence.
  split; [|by split]. split; cbn [mc_ms mc_token mc_wd mc_stale_done with_removed with_seen].
  - exists lost. rewrite Ht. cbn. split; [congruence|].
    eapply lost_mono; [|exact Hl]. cbn [mc_cmds with_removed with_seen]. by etrans.
  - by left.
  - intros Hx. cbn in Hx. congruence.
  - congruence.
  - exact (Q5 (K5 Hc)).
Qed.

(** The references on the machine once the reference of a daemon that died, if
    its token is still in the file, has been dropped. *)
Definition others (s : mac) : list (list Z) := refs (mc_ms (stale_cleanup s)).

Lemma stale_cleanup_refs s :
  let old := token_read 32 (anchor_flush s) in
  others s = (if bool_decide (old = []) then refs (mc_ms s) else remove_one old (refs (mc_ms s))) \/
  (others s = refs (mc_ms s) /\ excused (stale_cleanup s) old).
Proof.
  cbv zeta. unfold others, stale_cleanup. cbv zeta. destruct (anchor_flush_quiet s) as [[A1 _ _ _ _ _] _].
  set (s1 := anchor_flush s) in *. clearbody s1. set (old := token_read 32 s1). clearbody old.
  case_bool_decide as E; [left; done|].
  destruct (pf_release_spec old s1 E) as (_ & _ & Er).
  destruct (forget_quiet old (pf_release old s1)) as [[F1 _ _ _ _ F6] _]. rewrite F1, <- A1.
  destruct Er as [Er|[Er Hx]]; [by left|right]. split; [done|]. by apply (excused_mono _ _ _ F6).
Qed.

Lemma stale_cleanup_ok s :
  mc_token s = [] -> wd_fd (mc_wd s) = false -> own_commands s ->
  mac_ok (others s) (with_stale (stale_cleanup s) true).
Proof.
  intros Ht Hf Hc. assert (H : mc_token (stale_cleanup s) = [] /\ mc_wd (stale_cleanup s) = mc_wd s /\ own_commands (stale_cleanup s)).
  { unfold stale_cleanup. cbv zeta. destruct (anchor_flush_quiet s) as [[A1 A2 _ _ A5 _] Aw]. specialize (A5 Hc).
    set (s1 := anchor_flush s) in *. clearbody s1. set (old := token_read 32 s1). clearbody old.
    case_bool_decide as E; [by rewrite A2|]. destruct (pf_release_spec old s1 E) as ([W _ _ W4 _] & Et & _).
    destruct (forget_quiet old (pf_release old s1)) as [[F1 F2 _ _ F5 _] Fw].
    split_and!; [by rewrite F2, Et, A2|by rewrite Fw, W|exact (F5 (W4 A5))]. }
  destruct H as (H1 & H2 & H3). split; cbn [mc_ms mc_token mc_stale_done with_stale]; rewrite ?H1; [by exists []|by left| |done|done].
  intros Hx. cbn in Hx. rewrite H2, Hf in Hx. done.
Qed.

Lemma ok_first_install s port ipv6 dns_port :
  mc_stale_done s = false -> mc_token s = [] -> wd_fd (mc_wd s) = false -> own_commands s ->
  mac_ok (others (with_removed (with_ports s port ipv6 dns_port) false)) (mac_install s port ipv6 dns_port).1.
Proof.
  intros Hs Ht Hf Hc. unfold mac_install. cbv zeta. apply ok_install_rules. cbn [mc_stale_done with_removed with_ports].
  rewrite Hs. by apply stale_cleanup_ok.
Qed.

(** The operations the daemon may call after it, in any order. *)
Inductive mac_step : mac -> mac -> Prop :=
| step_install s port ipv6 dns_port : mac_step s (mac_install s port ipv6 dns_port).1
| step_refresh s : mac_step s (mac_refresh s).1
| step_remove s : mac_step s (mac_remove s)
| step_block s addrs : mac_step s (mac_quic_block addrs s)
| step_flush s : mac_step s (mac_quic_flush s).

Lemma ok_step rest s s' : mac_step s s' -> mac_ok rest s -> mac_ok rest s'.
Proof.
  intros [] H.
  - by apply ok_install.
  - by apply ok_refresh.
  - by apply remove_spec.
  - eapply ok_quiet; [|done]. etrans; apply quic_add_quiet.
  - eapply ok_quiet; [apply quic_flush_quiet|done].
Qed.

Lemma ok_steps rest s s' : rtc mac_step s s' -> mac_ok rest s -> mac_ok rest s'.
Proof. induction 1 as [|x y z Hxy _ IH]; [done|]. intros Hx. by apply IH, (ok_step _ x). Qed.

(** What the watchdog does when the daemon is gone in this state. *)
Lemma informed_watchdog s array t0 rs :
  informed s -> token_ok (mc_token s) -> wd_fd (mc_wd s) = true -> mc_token s <> [] -> zlen array = 32 ->
  Forall calm rs -> bytes_read rs = wd_sent (mc_wd s) ->
  exists w acts, forall r, r_input r = IN_END ->
    wd_run (wd_start array t0) (rs ++ [r])
    = Ok (w, acts, Some [FLUSH_ANCHOR; RELEASE (mc_token s); FORGET (mc_token s)]).
Proof.
  intros Hi _ Hfd Hne Ha Hc Hb. destruct (Hi Hfd) as (msgs & E & Hm & Hq & Ht). rewrite E in Hb.
  destruct (watchdog_runs array t0 rs msgs Ha Hc Hm Hb) as (w & acts & _ & _ & _ & _ & H & _).
  exists w, acts. intros r Hr. rewrite (H r Hr), Hq, (Ht Hne). unfold wd_cleanup.
  by rewrite bool_decide_eq_false_2.
Qed.


(** ** A removal that is carried out ends the redirection *)

Definition off (s : mac) : Prop := ms_redirects (mc_ms s) = false.
Definition stays_off (s s' : mac) : Prop := off s -> off s'.

Lemma run_off args inp n s : ~ loads (take 14 args) -> stays_off s (pfctl_run args inp n s).1.1.
Proof.
  intros Hl H. unfold pfctl_run, off. cbv zeta.
  pose proof (law_unloaded (take 14 args) (relay_send_all (ms_writes (mc_ms s)) inp).2 (mc_ms s) Hl H) as Hu.
  by destruct (ms_pfctl _ _ _) as [m x].
Qed.

Lemma simple_off args s : ~ loads (take 14 args) -> stays_off s (pfctl_simple args s).1.
Proof.
  intros Hl H. unfold pfctl_simple. pose proof (run_off args [] 0 s Hl H) as Hr. by destruct (pfctl_run _ _ _ _) as [[? ?] ?].
Qed.

Lemma forget_off tok s : stays_off s (token_file_forget tok s).
Proof. intros H. unfold token_file_forget. cbv zeta. destruct (_ && _); [|done]. by apply law_redirects. Qed.

Lemma wd_send_off msg s : stays_off s (wd_send msg s).
Proof.
  intros H. unfold wd_send. cbv zeta. destruct (wd_fd (mc_wd s)); [|done]. cbn [negb].
  destruct (law_redirects (mc_ms s) H) as (_ & Hw & _). specialize (Hw msg).
  destruct (ms_wd_write msg (mc_ms s)) as [m n]. cbn [fst] in Hw. destruct (n =? _); [done|].
  by destruct (law_redirects m Hw) as (_ & _ & ? & _).
Qed.

Lemma close_wd_off s : stays_off s (close_wd s).
Proof. intros H. unfold close_wd. cbv zeta. destruct (wd_fd _); [|done]. by destruct (law_redirects (mc_ms s) H) as (_ & _ & ? & _). Qed.

Lemma reap_off n s : stays_off s (reap_tries n s).
Proof.
  revert s. induction n as [|n IH]; intros s H; [done|]. cbn [reap_tries]. destruct (wd_pid (mc_wd s)); [|done]. cbn [negb].
  destruct (law_redirects (mc_ms s) H) as (_ & _ & _ & Hw & _). destruct (ms_wd_wait (mc_ms s)) as [m gone]. cbn [fst] in Hw.
  destruct gone; [done|]. by apply IH.
Qed.

Lemma wd_stop_off s : stays_off s (wd_stop s).
Proof.
  intros H. unfold wd_stop, wd_reap. apply (wd_send_off [113]), close_wd_off, (reap_off (Datatypes.S (Z.to_nat (2000 / 20)))) in H.
  unfold wd_kill. destruct (wd_pid _); [|exact H]. apply reap_off. by apply law_redirects.
Qed.

(** The flush of the translation rules is reported as done. *)
Definition mac_removes (s : mac) : bool := (pfctl_simple FLUSH_NAT s).2 =? 0.

Lemma mac_remove_off s : mac_removes s = true -> off (mac_remove s).
Proof.
  unfold mac_removes. intros H. apply Z.eqb_eq in H.
  assert (Hf : off (pfctl_simple FLUSH_NAT s).1).
  { revert H. unfold pfctl_simple, pfctl_run, off. cbv zeta. change (take 14 FLUSH_NAT) with FLUSH_NAT.
    pose proof (law_flush_nat (relay_send_all (ms_writes (mc_ms s)) []).2 (mc_ms s)) as Hl.
    by destruct (ms_pfctl _ _ _) as [m x]. }
  unfold mac_remove. cbv zeta. set (s1 := anchor_flush s).
  assert (H1 : off s1).
  { unfold s1, anchor_flush. cbv zeta. fold FLUSH_NAT. do 2 (apply simple_off; [by intros [?|?]|]). exact Hf. }
  clearbody s1. set (s2 := if bool_decide _ then s1 else _).
  assert (H2 : off s2).
  { unfold s2. case_bool_decide; [done|]. apply (forget_off (mc_token s1) (pf_release (mc_token s1) s1)).
    unfold pf_release. case_bool_decide; [done|]. apply simple_off; [by intros [?|?]|done]. }
  clearbody s2. apply wd_stop_off in H2. set (s3 := wd_stop s2) in *. clearbody s3.
  unfold pf_enabled, pfctl_show. pose proof (run_off [str "-s"; str "info"] [] PFCTL_OUT_MAX s3 ltac:(by intros [?|?]) H2) as H4.
  by destruct (pfctl_run _ _ _ _) as [[s4 o] rc].
Qed.

(** ** The layer behind the interface *)

Definition mac_installed (s : mac) : Z * bool * Z := (mc_port s, mc_ipv6 s, mc_dns_port s).

Lemma quiet_ports s s' : quiet s s' -> mac_installed s' = mac_installed s.
Proof. intros [H _]. apply (kp_ports _ _ H). Qed.

Lemma ensure_enabled_ports s : mac_installed (ensure_enabled s).1 = mac_installed s.
Proof.
  unfold ensure_enabled. set (x := if bool_decide (mc_token s = []) then (s, false) else pf_enabled s).
  assert (H1 : mac_installed x.1 = mac_installed s).
  { unfold x. case_bool_decide; [done|]. apply quiet_ports, pf_enabled_quiet. }
  destruct x as [s1 on]. cbn [fst] in H1. destruct on; [done|]. cbv zeta.
  set (s2 := if bool_decide (mc_token s1 = []) then s1 else _).
  assert (H2 : mac_installed s2 = mac_installed s1 /\ mc_token s2 = []).
  { unfold s2. case_bool_decide as E; [done|].
    destruct (pf_release_spec (mc_token s1) s1 E) as ([_ _ Hp _ _] & _). by split. }
  clearbody s2. destruct H2 as [H2 Et]. pose proof (pf_enable_spec s2 Et) as H3.
  destruct (pf_enable s2) as [s3 rc]. destruct H3 as ([_ _ Hp _ _] & _).
  assert (H3 : mac_installed s3 = mac_installed s) by (unfold mac_installed in *; congruence).
  rewrite <- H3. destruct rc; [apply (kp_ports _ _ (wd_send_token_kept s3))|apply quiet_ports, anchor_flush_quiet..].
Qed.

Lemma install_rules_ports s : mac_installed (install_rules s).1 = mac_installed s.
Proof.
  unfold install_rules. pose proof (quiet_ports _ _ (ensure_main_hooks_quiet s)) as H1.
  destruct (ensure_main_hooks s) as [s1 rc1]. cbn [fst] in H1. rewrite <- H1. cbv zeta.
  destruct (negb _); [done|]. set (s2 := with_seen s1 _ _ _).
  pose proof (quiet_ports _ _ (anchor_flush_quiet s2)) as H2.
  pose proof (quiet_ports _ _ (anchor_load_quiet (anchor_flush s2))) as H3. rewrite H2 in H3.
  destruct (anchor_load _) as [s3 rc3]. cbn [fst] in H3. change (mac_installed s2) with (mac_installed s1) in H3.
  rewrite <- H3. destruct (negb _); [done|].
  pose proof (ensure_enabled_ports s3) as H4. destruct (ensure_enabled s3) as [s4 rc4]. cbn [fst] in H4.
  rewrite <- H4. destruct (negb _); [done|]. set (s5 := with_seen s4 _ _ _).
  pose proof (quiet_ports _ _ (anchor_present_quiet s5)) as H5. destruct (anchor_present s5) as [s6 present].
  cbn [fst] in *. change (mac_installed s5) with (mac_installed s4) in H5. rewrite <- H5.
  apply (kp_ports _ _ (wd_beat_kept (with_seen s6 (mc_enabled s6) present (mc_hooks s6)))).
Qed.

Lemma stale_cleanup_ports s : mac_installed (stale_cleanup s) = mac_installed s.
Proof.
  unfold stale_cleanup. cbv zeta. pose proof (quiet_ports _ _ (anchor_flush_quiet s)) as H1. rewrite <- H1.
  set (s1 := anchor_flush s). case_bool_decide as E; [done|].
  destruct (pf_release_spec _ s1 E) as ([_ _ Hp _ _] & _).
  pose proof (quiet_ports _ _ (forget_quiet (token_read 32 s1) (pf_release (token_read 32 s1) s1))) as H2.
  unfold mac_installed in *. congruence.
Qed.

Lemma mac_install_ports s port ipv6 dns_port :
  mac_installed (mac_install s port ipv6 dns_port).1 = (port, ipv6, dns_port).
Proof.
  unfold mac_install. cbv zeta. rewrite install_rules_ports. destruct (mc_stale_done _); [done|].
  apply (stale_cleanup_ports (with_removed (with_ports s port ipv6 dns_port) false)).
Qed.

Lemma mac_refresh_ports s : mac_installed (mac_refresh s).1 = mac_installed s.
Proof.
  unfold mac_refresh. cbv zeta. pose proof (kp_ports _ _ (wd_beat_kept s)) as H1.
  set (s1 := wd_beat s) in *. clearbody s1.
  pose proof (quiet_ports _ _ (pf_enabled_quiet s1)) as H2. destruct (pf_enabled s1) as [s2 en].
  pose proof (quiet_ports _ _ (anchor_present_quiet s2)) as H3. destruct (anchor_present s2) as [s3 an].
  pose proof (quiet_ports _ _ (main_hooks_quiet s3)) as H4. destruct (main_hooks_present s3) as [[s4 ho] em].
  cbn [fst] in *. assert (H : mac_installed s4 = mac_installed s) by (unfold mac_installed in *; congruence).
  rewrite <- H. destruct (_ && _ && _); [done|].
  match goal with |- context [mac_install ?s ?a ?b ?c] => pose proof (mac_install_ports s a b c) as H5 end.
  by destruct (mac_install _ _ _ _) as [s6 [|q|q]].
Qed.

Lemma find_tool_short procs c : find_tool procs = Some c -> zlen c <= 128.
Proof.
  induction procs as [|[name|] procs IH]; cbn [find_tool]; [done| |done].
  destruct (list_find _ known_tools) as [[i k]|] eqn:E; [|done]. injection 1 as <-.
  apply list_find_Some in E as [E _].
  assert (Hall : Forall (fun k => zlen k.2 <= 128) known_tools)
    by (apply (bool_decide_unpack _); vm_compute; exact I).
  by apply (Forall_lookup_1 _ _ _ _ Hall E).
Qed.

#[export] Instance mac_layer : platform_layer :=
  mk_layer mac unit mac_installed (fun s => ms_redirects (mc_ms s))
    (fun _ s port ipv6 dns_port => mac_install s port ipv6 dns_port)
    (fun _ s => mac_refresh s) (fun _ s => mac_remove s) (fun _ s => mac_removes s) (fun _ s => mac_quic_flush s)
    (fun _ s => (mac_conflict s, s)) mac_name mac_status_extra.

#[export] Instance mac_platform_laws : platform_laws mac_layer.
Proof.
  split; cbn [mac_layer op_install op_refresh op_remove op_removes op_quic_flush op_conflict installed intercepts op_name op_status_extra].
  - intros. apply mac_install_ports.
  - intros. apply mac_refresh_ports.
  - intros. by apply mac_remove_off.
  - intros. apply quiet_ports, quic_flush_quiet.
  - done.
  - intros r s c. apply find_tool_short.
  - by vm_compute.
  - intros s. unfold mac_status_extra, zlen, bsub. rewrite length_take. lia.
Qed.
End correct.

(** ** A machine *)

(** PF with the system's hooks; each [-E] grants the same token. *)
Record toy := mk_toy { ty_refs : list (list Z); ty_anchor : bool; ty_file : option (list Z) }.

Definition toy_pfctl (args : command) (inp : list Z) (t : toy) : toy * option (list Z * option Z) :=
  if bool_decide (args = [str "-E"]) then
    (mk_toy (str "31337" :: ty_refs t) (ty_anchor t) (ty_file t), Some (line (str "Token : 31337"), Some 0))
  else
  match args with
  | [x; tok] =>
      if bool_decide (x = str "-X") then (mk_toy (remove_one tok (ty_refs t)) (ty_anchor t) (ty_file t), Some ([], Some 0))
      else (t, Some (if bool_decide (tok = str "nat") then line nat_hook
                     else if bool_decide (tok = str "rules") then line rules_hook
                     else if bool_decide (ty_refs t = []) then line (str "Status: Disabled")
                     else line (str "Status: Enabled"), Some 0))
  | [_; _; f; what] =>
      if bool_decide (f = str "-f") then (mk_toy (ty_refs t) true (ty_file t), Some ([], Some 0))
      else if bool_decide (f = str "-F") then (mk_toy (ty_refs t) false (ty_file t), Some ([], Some 0))
      else (t, Some (if negb (ty_anchor t) then []
                     else if bool_decide (what = str "nat") then line (str "rdr pass on lo0 ...")
                     else line (str "pass out route-to lo0 ..."), Some 0))
  | _ => (t, Some ([], Some 0))
  end.

#[local] Instance toy_system : mac_system := {|
  ms := toy;
  ms_writes := fun _ => [TX_SENT 8192];
  ms_pfctl := toy_pfctl;
  ms_pf_conf := fun _ => None;
  ms_token_file := ty_file;
  ms_write_token := fun text t => mk_toy (ty_refs t) (ty_anchor t) (Some text);
  ms_unlink_token := fun t => mk_toy (ty_refs t) (ty_anchor t) None;
  ms_wd_write := fun msg t => (t, zlen msg);
  ms_wd_close := fun t => t;
  ms_wd_wait := fun t => (t, false);
  ms_wd_kill := fun t => t;
  ms_wd_spawn := fun t => (t, Some true);
  ms_wd_pid := fun _ => 4711;
  ms_processes := fun _ => [];
  ms_redirects := ty_anchor
|}.

Lemma toy_other args inp t :
  head args <> Some (str "-E") -> head args <> Some (str "-X") -> ty_refs (toy_pfctl args inp t).1 = ty_refs t.
Proof.
  intros H1 H2. unfold toy_pfctl. case_bool_decide as E; [by subst args|].
  destruct args as [|x [|y [|z [|w [|v args]]]]]; try done.
  - case_bool_decide as E2; [by subst x|done].
  - case_bool_decide; [done|]. by case_bool_decide.
Qed.

Lemma toy_unloaded args inp t : ~ loads args -> ty_anchor t = false -> ty_anchor (toy_pfctl args inp t).1 = false.
Proof.
  intros Hl H. unfold toy_pfctl. case_bool_decide as E; [done|].
  destruct args as [|x [|y [|z [|w [|v args]]]]]; try done.
  - by case_bool_decide.
  - case_bool_decide as E2; [destruct Hl; right; by rewrite E2|]. by case_bool_decide.
Qed.

#[local] Instance toy_laws : mac_laws toy_system.
Proof.
  refine {| refs := (ty_refs : @ms toy_system -> list (list Z));
            law_other := toy_other; law_unloaded := toy_unloaded |}; try done.
  - intros inp m. left. exists (str "31337"). split; [|done].
    exists (line (str "Token : 31337")), [10], (Some 0). split; [done|].
    split; [split; [apply (bool_decide_unpack _); vm_compute; exact I|by vm_compute]|].
    split; [by vm_compute|]. split; [apply (bool_decide_unpack _); vm_compute; exact I|]. by vm_compute.
  - intros tok inp m. left. reflexivity.
Defined.

Definition toy_start : mac :=
  mk_mac 0 false 0 [] false (mk_wds false false []) false false false false []
    (mk_toy [str "555"; str "99"] true (Some (line (str "99")))).

Lemma not_excused {S : mac_system} (s : @mac S) t : forallb (fun c => c.2 =? 0) (mc_cmds s) = true -> ~ excused s t.
Proof.
  intros Hall (rc & Hrc & Hin). rewrite forallb_forall in Hall.
  destruct Hin as [Hin|Hin]; apply list_elem_of_In, Hall, (Z.eqb_eq rc 0) in Hin; done.
Qed.

