(* ===== verification/Macnet.v ===== *)
(** * Addresses and routes on macOS ([src/transparent/platform_macos.c])

    Where a redirected connection was going (DIOCNATLOOK), the local ports of
    the daemon's own sockets, which routing messages matter, and the network
    fingerprint from the kernel's route dumps. A pointer into a dump is the rest
    of the dump from there; a read past its end is a [Fault]. The layouts of
    [rt_msghdr], [sockaddr_in] and [sockaddr_dl] are XNU's. *)

From stdpp Require Import base list numbers strings option.
From Stdlib Require Import ZArith Lia.
From S2P Require Import Prelude Text Discovery Rules.

(** ** The original destination *)

Definition AF_INET : Z := 2.
Definition AF_LINK : Z := 18.
Definition AF_INET6 : Z := 30.

(** A socket address: family, address bytes and port in network order. *)
Record saddr := mk_saddr { sa_family : Z; sa_addr : list Z; sa_port : Z }.
(** A request of [DIOCNATLOOK]. *)
Record natlook_req := mk_natlook { nl_af : Z; nl_proto : Z; nl_src : saddr; nl_dst : saddr }.

Definition unspecified (a : list Z) : bool := forallb (fun x => x =? 0) a.
Definition loopback6 : list Z := replicate 15 0 ++ [1].

(** [pf]: [/dev/pf] is open; [ioctl]: the address family, address and port the
    kernel knows for the state. *)
Definition natlook (pf : bool) (ioctl : natlook_req -> option (Z * list Z * Z)) (proto : Z) (peer local : saddr)
  : option saddr :=
  if negb pf || negb (sa_family peer =? sa_family local) then None else
  if negb ((sa_family peer =? AF_INET) || (sa_family peer =? AF_INET6)) then None else
  match ioctl (mk_natlook (sa_family peer) proto peer local) with
  | None => None
  | Some (af, addr, port) =>
      if af =? AF_INET then
        if (bget addr 0 =? 127) || unspecified (bsub addr 0 4) then None
        else Some (mk_saddr AF_INET (bsub addr 0 4) port)
      else
        if bool_decide (bsub addr 0 16 = loopback6) || unspecified (bsub addr 0 16) || v4mapped (bsub addr 0 16) then None
        else Some (mk_saddr AF_INET6 (bsub addr 0 16) port)
  end.

(** The peer, if it is given, or what [getpeername] says, and [getsockname]. *)
Definition socket_ends (peer getpeername getsockname : option saddr) : option (saddr * saddr) :=
  p ← match peer with Some p => Some p | None => getpeername end;
  l ← getsockname;
  Some (p, l).

Definition mac_original_dst (pf : bool) ioctl (getpeername getsockname : option saddr) : option saddr :=
  '(p, l) ← socket_ends None getpeername getsockname; natlook pf ioctl 6 p l.

Definition mac_dns_original (pf : bool) ioctl (peer getsockname : option saddr) (tcp : bool) : option saddr :=
  '(p, l) ← socket_ends peer None getsockname; natlook pf ioctl (if tcp then 6 else 17) p l.

(** ** Own sockets *)

(** [bind] works, the port is taken ([EADDRINUSE], [EACCES]), or fails. *)
Inductive bind_ret := BIND_OK | BIND_TAKEN | BIND_FAILED.

(** The counter afterwards and the port. *)
Fixpoint mac_bind (tries : nat) (own_next : Z) (binds : nat -> bind_ret) : Z * option Z :=
  match tries with
  | O => (own_next, None)
  | S tries =>
      let port := TP_PF_OWN_PORT_LO + own_next mod (TP_PF_OWN_PORT_HI - TP_PF_OWN_PORT_LO + 1) in
      let next := u32 (own_next + 1) in
      match binds O with
      | BIND_OK => (next, Some port)
      | BIND_FAILED => (next, None)
      | BIND_TAKEN => mac_bind tries next (fun n => binds (S n))
      end
  end.
Definition mac_prepare_socket (own_next : Z) (binds : nat -> bind_ret) : Z * option Z := mac_bind 64 own_next binds.

(** ** Routing messages *)

Definition RTM_ADD : Z := 1.
Definition RTM_DELETE : Z := 2.
Definition RTM_CHANGE : Z := 3.
Definition RTM_NEWADDR : Z := 12.
Definition RTM_DELADDR : Z := 13.
Definition RTM_IFINFO : Z := 14.
Definition RTF_UP : Z := 0x1.
Definition RTF_HOST : Z := 0x4.
Definition RTF_LLINFO : Z := 0x400.
Definition RTF_WASCLONED : Z := 0x20000.
Definition RTF_IFSCOPE : Z := 0x1000000.
Definition RT_MSGHDR : Z := 92.
Definition RTAX_MAX : nat := 8.

Definition le16_at (b : list Z) (i : Z) : res unit Z := lo ← fetch b i; hi ← fetch b (i + 1); Ok (lo + 256 * hi).
Definition le32_at (b : list Z) (i : Z) : res unit Z := lo ← le16_at b i; hi ← le16_at b (i + 2); Ok (lo + 65536 * hi).

(** One message read from the routing socket. *)
Definition relevant (msg : list Z) : res unit bool :=
  if zlen msg <? RT_MSGHDR then Ok false else
  type ← fetch msg 3;
  flags ← le32_at msg 8;
  Ok ((type =? RTM_NEWADDR) || (type =? RTM_DELADDR) || (type =? RTM_IFINFO)
      || (((type =? RTM_ADD) || (type =? RTM_DELETE) || (type =? RTM_CHANGE))
          && (Z.land flags (Z.lor RTF_HOST (Z.lor RTF_WASCLONED RTF_LLINFO)) =? 0))).

Fixpoint netwatch_drain (msgs : list (list Z)) : res unit bool :=
  match msgs with
  | [] => Ok false
  | m :: msgs => r ← relevant m; rest ← netwatch_drain msgs; Ok (r || rest)
  end.

(** ** Route dumps *)

Definition SA_ROUNDUP (a : Z) : Z := if 0 <? a then 1 + Z.lor (a - 1) 3 else 4.

(** The addresses after a header, by index: [p] is where the next one starts,
    [left] is [end - p]. *)
Fixpoint rt_addrs (n : nat) (i addrs : Z) (p : list Z) (left : Z) : res unit (list (option (list Z))) :=
  match n with
  | O => Ok []
  | S n =>
      if Z.testbit addrs i && (0 <? left) then
        len ← fetch p 0;
        rest ← rt_addrs n (i + 1) addrs (bfrom p (SA_ROUNDUP len)) (left - SA_ROUNDUP len);
        Ok (Some p :: rest)
      else rest ← rt_addrs n (i + 1) addrs p left; Ok (None :: rest)
  end.

(** The messages of a dump until [pick] finds what it looks for. *)
Fixpoint walk {A} (fuel : nat) (pick : list Z -> option (list Z) -> option (list Z) -> res unit (option A)) (p : list Z)
  : res unit (option A) :=
  match fuel with
  | O => Fault
  | S fuel =>
      if zlen p <? RT_MSGHDR then Ok None else
      msglen ← le16_at p 0;
      if msglen =? 0 then Ok None else
      addrs ← le32_at p 12;
      sas ← rt_addrs RTAX_MAX 0 addrs (bfrom p RT_MSGHDR) (msglen - RT_MSGHDR);
      r ← pick p (default None (sas !! 0%nat)) (default None (sas !! 1%nat));
      match r with
      | Some x => Ok (Some x)
      | None => walk fuel pick (bfrom p msglen)
      end
  end.

(** The family of an address that may be NULL. *)
Definition family_is (af : Z) (sa : option (list Z)) : res unit bool :=
  match sa with None => Ok false | Some p => f ← fetch p 1; Ok (f =? af) end.

(** [sa != NULL && family == AF_INET && sin_addr == addr] *)
Definition inet_is (addr : list Z) (sa : option (list Z)) : res unit bool :=
  inet ← family_is AF_INET sa;
  match sa, inet with
  | Some p, true => a ← slice p 4 4; Ok (bool_decide (a = addr))
  | _, _ => Ok false
  end.

Definition pick_default (msg : list Z) (dst gateway : option (list Z)) : res unit (option (list Z * Z)) :=
  d ← inet_is [0; 0; 0; 0] dst;
  g ← (if (d : bool) then family_is AF_INET gateway else Ok false);
  match gateway, g with
  | Some p, true =>
      flags ← le32_at msg 8;
      if negb (Z.land flags RTF_UP =? 0) && (Z.land flags RTF_IFSCOPE =? 0) then
        gw ← slice p 4 4; index ← le16_at msg 4; Ok (Some (gw, index))
      else Ok None
  | _, _ => Ok None
  end.

Definition default_route_v4 (dump : option (list Z)) : res unit (option (list Z * Z)) :=
  match dump with None => Ok None | Some buf => walk (S (length buf)) pick_default buf end.

(** An empty hardware address does not end the search. *)
Definition pick_mac (gw : list Z) (mac_size : Z) (msg : list Z) (dst gateway : option (list Z))
  : res unit (option (list Z)) :=
  d ← inet_is gw dst;
  g ← (if (d : bool) then family_is AF_LINK gateway else Ok false);
  match gateway, g with
  | Some p, true =>
      nlen ← fetch p 5;
      alen ← fetch p 6;
      mac ← slice p (8 + nlen) (Z.min alen mac_size);
      Ok (if zlen mac =? 0 then None else Some mac)
  | _, _ => Ok None
  end.

Definition gateway_mac (dump : option (list Z)) (gw : list Z) : res unit (list Z) :=
  match dump with
  | None => Ok []
  | Some buf => r ← walk (S (length buf)) (pick_mac gw 16) buf; Ok (default [] r)
  end.

(** [routes] and [arp] are the two dumps, [ifname] is [if_indextoname]. *)
Definition mac_network_fingerprint (routes arp : option (list Z)) (ifname : Z -> option (list Z)) : res unit Z :=
  route ← default_route_v4 routes;
  match route with
  | None => Ok NETFP_UNKNOWN
  | Some (gw, index) =>
      let h := match ifname index with Some name => fnv1a FNV_BASIS name | None => FNV_BASIS end in
      mac ← gateway_mac arp gw;
      let h := fnv1a (fnv1a h gw) mac in
      Ok (if h =? NETFP_UNKNOWN then 1 else h)
  end.

(** ** What a dump says *)

(** A message: the header and the addresses that follow it, each padded to its
    size. *)
Record rt_message := mk_message { m_hdr : list Z; m_sas : list (list Z) }.
Definition m_bytes (m : rt_message) : list Z := m_hdr m ++ concat (m_sas m).
Definition dump_of (ms : list rt_message) : list Z := concat (map m_bytes ms).

Definition get16 (b : list Z) (i : Z) : Z := bget b i + 256 * bget b (i + 1).
Definition get32 (b : list Z) (i : Z) : Z := get16 b i + 65536 * get16 b (i + 2).

(** Its size is in its first byte; an Internet address holds its four bytes, a
    link address its name and its hardware address. *)
Record sa_ok (sa : list Z) : Prop := {
  so_bytes : bytes_ok sa;
  so_len : zlen sa = SA_ROUNDUP (bget sa 0);
  so_inet : bget sa 1 = AF_INET -> 8 <= zlen sa;
  so_link : bget sa 1 = AF_LINK -> 8 + bget sa 5 + bget sa 6 <= zlen sa
}.
Record msg_ok (m : rt_message) : Prop := {
  mo_hdr : bytes_ok (m_hdr m) /\ zlen (m_hdr m) = RT_MSGHDR;
  mo_len : get16 (m_hdr m) 0 = zlen (m_bytes m);
  mo_sas : Forall sa_ok (m_sas m)
}.

(** The address of each index, from the bits of [rtm_addrs]. *)
Fixpoint place (n : nat) (i addrs : Z) (sas : list (list Z)) : list (option (list Z)) :=
  match n with
  | O => []
  | S n =>
      match Z.testbit addrs i, sas with
      | true, sa :: sas => Some sa :: place n (i + 1) addrs sas
      | _, _ => None :: place n (i + 1) addrs sas
      end
  end.
Definition m_ends (m : rt_message) : option (list Z) * option (list Z) :=
  let l := place RTAX_MAX 0 (get32 (m_hdr m) 12) (m_sas m) in
  (default None (l !! 0%nat), default None (l !! 1%nat)).

(** The netmask's address bytes (those the socket address has) are zero. *)
Definition zero_mask (m : rt_message) : bool :=
  match place RTAX_MAX 0 (get32 (m_hdr m) 12) (m_sas m) !! 2%nat with
  | Some (Some k) => forallb (fun x => x =? 0) (bsub k 4 (Z.min (bget k 0) 8 - 4))
  | _ => false
  end.

(** An up route to 0.0.0.0, not bound to an interface, over an IPv4 gateway;
    of any netmask. *)
Definition route_of (m : rt_message) : option (list Z * Z) :=
  let flags := get32 (m_hdr m) 8 in
  match m_ends m with
  | (Some d, Some g) =>
      if (bget d 1 =? AF_INET) && bool_decide (bsub d 4 4 = [0; 0; 0; 0]) && (bget g 1 =? AF_INET)
         && negb (Z.land flags RTF_UP =? 0) && (Z.land flags RTF_IFSCOPE =? 0)
      then Some (bsub g 4 4, get16 (m_hdr m) 4) else None
  | _ => None
  end.
(** And for 0.0.0.0/0. *)
Definition default_of (m : rt_message) : option (list Z * Z) := if zero_mask m then route_of m else None.
Definition neighbour_of (gw : list Z) (m : rt_message) : option (list Z) :=
  match m_ends m with
  | (Some d, Some g) =>
      let mac := bsub g (8 + bget g 5) (Z.min (bget g 6) 16) in
      if (bget d 1 =? AF_INET) && bool_decide (bsub d 4 4 = gw) && (bget g 1 =? AF_LINK) && negb (zlen mac =? 0)
      then Some mac else None
  | _ => None
  end.

(** ** Reading it *)

Lemma roundup_min a : 0 <= a -> 4 <= SA_ROUNDUP a.
Proof.
  intros Ha. unfold SA_ROUNDUP. destruct (Z.ltb_spec 0 a); [|lia].
  pose proof (Z.lor_nonneg (a - 1) 3) as [_ H1]. specialize (H1 ltac:(lia)).
  assert (Hb : 3 <= Z.lor (a - 1) 3); [|lia].
  assert (E : Z.land (Z.lor (a - 1) 3) 3 = 3).
  { apply Z.bits_inj'. intros n Hn. rewrite Z.land_spec, Z.lor_spec. by destruct (Z.testbit (a - 1) n), (Z.testbit 3 n). }
  pose proof (Z.mod_le (Z.lor (a - 1) 3) 4 H1 ltac:(lia)) as Hm.
  change 4 with (2 ^ 2) in Hm at 1. rewrite <- Z.land_ones in Hm by lia. change (Z.ones 2) with 3 in Hm. lia.
Qed.

Lemma bfrom_app_all (a b : list Z) : bfrom (a ++ b) (zlen a) = b.
Proof. unfold bfrom, zlen. rewrite Nat2Z.id. apply drop_app_length. Qed.

(** A pointer [p] to an address, or NULL, and the address. *)
Definition points (p sa : option (list Z)) : Prop :=
  match p, sa with
  | None, None => True
  | Some p, Some sa => sa_ok sa /\ exists rest, p = sa ++ rest
  | _, _ => False
  end.

Lemma sa_min sa : sa_ok sa -> 4 <= zlen sa.
Proof. intros [Hb Hl _ _]. rewrite Hl. apply roundup_min. by apply (bytes_ok_get sa 0). Qed.

Lemma rt_addrs_place n i addrs sas rest :
  Forall sa_ok sas ->
  exists l, rt_addrs n i addrs (concat sas ++ rest) (zlen (concat sas)) = Ok l /\ Forall2 points l (place n i addrs sas).
Proof.
  revert i sas. induction n as [|n IH]; intros i sas Hs; [by exists []|]. cbn [rt_addrs place].
  destruct (Z.testbit addrs i); cbn [andb].
  2: { destruct (IH (i + 1) sas Hs) as (l & -> & H). cbn [mbind res_bind]. exists (None :: l). split; [done|].
       by constructor. }
  destruct Hs as [|sa sas Hsa Hs].
  { change (zlen (concat [])) with 0. cbn [Z.ltb Z.compare]. destruct (IH (i + 1) [] ltac:(constructor)) as (l & E & H).
    change (zlen (concat [])) with 0 in E. rewrite E. cbn [mbind res_bind]. exists (None :: l). split; [done|]. by constructor. }
  pose proof (sa_min sa Hsa) as Hm. cbn [concat]. rewrite zlen_app. pose proof (zlen_nonneg (concat sas)).
  rewrite (proj2 (Z.ltb_lt 0 _)) by lia. rewrite <- app_assoc, fetch_Ok by (rewrite zlen_app; pose proof (zlen_nonneg (concat sas ++ rest)); lia).
  cbn [mbind res_bind]. rewrite bget_app_l by lia. rewrite <- (so_len sa Hsa).
  rewrite bfrom_app_all. replace (zlen sa + zlen (concat sas) - zlen sa) with (zlen (concat sas)) by lia.
  destruct (IH (i + 1) sas Hs) as (l & -> & Hl). exists (Some (sa ++ concat sas ++ rest) :: l). split; [done|].
  constructor; [|done]. split; [done|by eexists].
Qed.

Lemma points_ends m l :
  Forall2 points l (place RTAX_MAX 0 (get32 (m_hdr m) 12) (m_sas m)) ->
  points (default None (l !! 0%nat)) (m_ends m).1 /\ points (default None (l !! 1%nat)) (m_ends m).2.
Proof.
  intros H. unfold m_ends. set (q := place _ _ _ _) in *. clearbody q. cbn [fst snd].
  destruct H as [|? ? ? ? H0 H]; [done|]. destruct H as [|? ? ? ? H1 H]; [done|]. done.
Qed.

Lemma le16_Ok b i : 0 <= i -> i + 1 < zlen b -> le16_at b i = Ok (get16 b i).
Proof. intros. unfold le16_at. by rewrite !fetch_Ok by lia. Qed.
Lemma le32_Ok b i : 0 <= i -> i + 3 < zlen b -> le32_at b i = Ok (get32 b i).
Proof.
  intros. unfold le32_at. rewrite !le16_Ok by lia. cbn [mbind res_bind]. done.
Qed.
Lemma get16_app b c i : 0 <= i -> i + 1 < zlen b -> get16 (b ++ c) i = get16 b i.
Proof. intros. unfold get16. by rewrite !bget_app_l by lia. Qed.
Lemma get32_app b c i : 0 <= i -> i + 3 < zlen b -> get32 (b ++ c) i = get32 b i.
Proof. intros. unfold get32. by rewrite !get16_app by lia. Qed.

(** What a search sees of a message. *)
Definition sees {A} (pick : list Z -> option (list Z) -> option (list Z) -> res unit (option A)) (spec : rt_message -> option A) : Prop :=
  forall m rest dst gw, msg_ok m -> points dst (m_ends m).1 -> points gw (m_ends m).2 ->
    pick (m_bytes m ++ rest) dst gw = Ok (spec m).

Lemma walk_finds {A} (pick : list Z -> option (list Z) -> option (list Z) -> res unit (option A)) spec ms fuel :
  sees pick spec -> Forall msg_ok ms -> (length (dump_of ms) < fuel)%nat ->
  walk fuel pick (dump_of ms) = Ok (head (omap spec ms)).
Proof.
  intros Hp. revert fuel. induction ms as [|m ms IH]; intros fuel Hms Hf; (destruct fuel as [|fuel]; [lia|]); cbn [walk]; [done|].
  pose proof (List.Forall_inv Hms) as Hm. apply List.Forall_inv_tail in Hms. unfold dump_of in *. cbn [map concat] in *. set (rest := concat (map m_bytes ms)) in *.
  pose proof Hm as [[Hb Hh] Hl Hs]. unfold m_bytes in *. rewrite <- app_assoc in *. set (body := concat (m_sas m)) in *.
  pose proof (zlen_nonneg body). pose proof (zlen_nonneg rest). rewrite zlen_app in Hl. unfold RT_MSGHDR in *.
  rewrite (proj2 (Z.ltb_ge (zlen (m_hdr m ++ body ++ rest)) 92)) by (rewrite !zlen_app; lia).
  rewrite le16_Ok, get16_app by (rewrite ?zlen_app; lia). cbn [mbind res_bind]. rewrite Hl.
  rewrite (proj2 (Z.eqb_neq _ _)) by lia. rewrite le32_Ok, get32_app by (rewrite ?zlen_app; lia). cbn [mbind res_bind].
  replace (bfrom (m_hdr m ++ body ++ rest) 92) with (body ++ rest) by (rewrite <- Hh; by rewrite bfrom_app_all).
  replace (zlen (m_hdr m) + zlen body - 92) with (zlen body) by lia.
  destruct (rt_addrs_place RTAX_MAX 0 (get32 (m_hdr m) 12) (m_sas m) rest Hs) as (l & El & Hl').
  fold body in El. rewrite El. cbn [mbind res_bind].
  destruct (points_ends m l Hl') as [Hd Hg]. rewrite app_assoc. change (m_hdr m ++ body) with (m_bytes m).
  rewrite (Hp m rest _ _ Hm Hd Hg). cbn [mbind res_bind omap list_omap]. destruct (spec m) as [x|]; [done|].
  rewrite <- (zlen_app (m_hdr m) body). change (m_hdr m ++ body) with (m_bytes m). rewrite bfrom_app_all. apply IH; [done|].
  rewrite !length_app in Hf. unfold zlen in Hh. lia.
Qed.

Lemma family_points af p sa :
  points p sa -> family_is af p = Ok (match sa with Some sa => bget sa 1 =? af | None => false end).
Proof.
  destruct p as [p|], sa as [sa|]; try done. intros [Hs [rest ->]]. pose proof (sa_min sa Hs).
  unfold family_is. rewrite fetch_Ok by (rewrite zlen_app; pose proof (zlen_nonneg rest); lia). cbn [mbind res_bind].
  by rewrite bget_app_l by lia.
Qed.

Lemma inet_points addr p sa :
  points p sa -> inet_is addr p =
    Ok (match sa with Some sa => (bget sa 1 =? AF_INET) && bool_decide (bsub sa 4 4 = addr) | None => false end).
Proof.
  intros H. unfold inet_is. rewrite (family_points _ _ _ H). cbn [mbind res_bind].
  destruct p as [p|], sa as [sa|]; try done. destruct H as [Hs [rest ->]].
  destruct (Z.eqb_spec (bget sa 1) AF_INET) as [E|E]; [|done]. pose proof (so_inet sa Hs E) as Hl.
  rewrite slice_Ok by (rewrite ?zlen_app; pose proof (zlen_nonneg rest); lia). cbn [mbind res_bind andb].
  by rewrite bsub_app_l by lia.
Qed.

Lemma hdr_reads m rest :
  msg_ok m -> le32_at (m_bytes m ++ rest) 8 = Ok (get32 (m_hdr m) 8) /\ le16_at (m_bytes m ++ rest) 4 = Ok (get16 (m_hdr m) 4).
Proof.
  intros [[_ Hh] _ _]. unfold m_bytes, RT_MSGHDR in *. rewrite <- app_assoc.
  set (tail := concat (m_sas m) ++ rest). pose proof (zlen_nonneg tail). clearbody tail.
  rewrite le32_Ok, le16_Ok, get32_app, get16_app by (rewrite ?zlen_app; lia). done.
Qed.

Lemma default_sees : sees pick_default route_of.
Proof.
  intros m rest dst gw Hm Hd Hg. destruct (hdr_reads m rest Hm) as [E8 E4]. unfold pick_default, route_of.
  rewrite (inet_points _ _ _ Hd). cbn [mbind res_bind]. destruct (m_ends m) as [sd sg]. cbn [fst snd] in *.
  destruct sd as [sd|]; [|by destruct gw]. destruct (_ && bool_decide _) eqn:E; cbn [andb].
  2: { cbn [mbind res_bind]. by destruct gw, sg. }
  rewrite (family_points _ _ _ Hg). cbn [mbind res_bind]. destruct gw as [p|], sg as [sg|]; try done.
  destruct (Z.eqb_spec (bget sg 1) AF_INET) as [Ef|_]; [|done]. cbn [andb]. rewrite E8. cbn [mbind res_bind].
  destruct Hg as [Hs [r ->]]. pose proof (so_inet sg Hs Ef). pose proof (zlen_nonneg r).
  rewrite slice_Ok by (rewrite ?zlen_app; lia). cbn [mbind res_bind]. rewrite E4. cbn [mbind res_bind].
  rewrite bsub_app_l by lia. by destruct (negb _ && _).
Qed.

Lemma mac_sees gw : sees (pick_mac gw 16) (neighbour_of gw).
Proof.
  intros m rest dst gate Hm Hd Hg. unfold pick_mac, neighbour_of.
  rewrite (inet_points _ _ _ Hd). cbn [mbind res_bind]. destruct (m_ends m) as [sd sg]. cbn [fst snd] in *.
  destruct sd as [sd|]; [|by destruct gate]. destruct (_ && bool_decide _) eqn:E; cbn [andb].
  2: { cbn [mbind res_bind]. by destruct gate, sg. }
  rewrite (family_points _ _ _ Hg). cbn [mbind res_bind]. destruct gate as [p|], sg as [sg|]; try done.
  destruct (Z.eqb_spec (bget sg 1) AF_LINK) as [Ef|_]; [|done]. cbn [andb].
  destruct Hg as [Hs [r ->]]. pose proof (so_link sg Hs Ef) as Hl. pose proof (zlen_nonneg r).
  pose proof (bytes_ok_get sg 5 (so_bytes sg Hs)) as H5. pose proof (bytes_ok_get sg 6 (so_bytes sg Hs)) as H6.
  unfold is_u8 in *. rewrite fetch_Ok by (rewrite zlen_app; lia). cbn [mbind res_bind].
  rewrite fetch_Ok by (rewrite zlen_app; lia). cbn [mbind res_bind]. rewrite !bget_app_l by lia.
  rewrite slice_Ok by (rewrite ?zlen_app; lia). cbn [mbind res_bind]. rewrite bsub_app_l by lia. by destruct (_ =? 0).
Qed.

(** The hash of what the dumps say, before 0 is avoided. *)
Definition mac_raw_fingerprint (ifname : Z -> option (list Z)) (gw : list Z) (index : Z) (mac : list Z) : Z :=
  fnv1a FNV_BASIS (default [] (ifname index) ++ gw ++ mac).

Lemma mac_fingerprint_raw ifname gw index mac :
  fnv1a (fnv1a (match ifname index with Some name => fnv1a FNV_BASIS name | None => FNV_BASIS end) gw) mac
  = mac_raw_fingerprint ifname gw index mac.
Proof. unfold mac_raw_fingerprint. rewrite !fnv1a_app. by destruct (ifname index). Qed.

Definition not_zero (h : Z) : Z := if h =? NETFP_UNKNOWN then 1 else h.

Lemma not_zero_unknown h : Ok (not_zero h) <> (Ok NETFP_UNKNOWN : res unit Z).
Proof. unfold not_zero, NETFP_UNKNOWN. destruct (Z.eqb_spec h 0); congruence. Qed.

Lemma route_default ms :
  Forall (fun m => is_Some (route_of m) -> zero_mask m = true) ms -> omap route_of ms = omap default_of ms.
Proof.
  induction 1 as [|m ms Hm _ IH]; [done|]. assert (E : route_of m = default_of m).
  { unfold default_of. destruct (zero_mask m); [done|]. destruct (route_of m); [|done]. discriminate Hm. by eexists. }
  change (omap ?f (m :: ms)) with (match f m with Some y => y :: omap f ms | None => omap f ms end).
  by rewrite E, IH.
Qed.

(** Messages: a route to 0.0.0.0 over en0, with a netmask, and its gateway's
    neighbour entry. *)
Definition sample_hdr (len index flags addrs : Z) : list Z :=
  [len; 0; 5; 4; index; 0; 0; 0; flags; 0; 0; 0; addrs; 0; 0; 0] ++ replicate 76 0.
Definition sample_in (a b c d : Z) : list Z := [16; 2; 0; 0; a; b; c; d] ++ replicate 8 0.
Definition sample_route (len : Z) (mask : list Z) : rt_message :=
  mk_message (sample_hdr len 4 3 7) [sample_in 0 0 0 0; sample_in 192 168 1 1; mask].
Definition default_sample : rt_message := sample_route 128 [0; 0; 0; 0].
Definition half_sample : rt_message := sample_route 132 [5; 0; 0; 0; 128; 0; 0; 0].
Definition sample_arp (x : Z) : rt_message :=
  mk_message (sample_hdr 128 4 5 3)
    [sample_in 192 168 1 1; [20; 18; 4; 0; 6; 3; 6; 0; 101; 110; 48; 0; 17; 34; 51; 68; x; 0; 0; 0]].

Lemma sample_in_ok a b c d : bytes_ok [a; b; c; d] -> sa_ok (sample_in a b c d).
Proof.
  intros H. split; [|reflexivity|intros _; vm_compute; discriminate|intros H2; discriminate H2].
  apply bytes_ok_app; [apply (bytes_ok_app [16; 2; 0; 0]); [by apply bytes_okb_ok|exact H]|by apply bytes_okb_ok].
Qed.

Lemma sample_routes_ok : Forall msg_ok [default_sample] /\ Forall msg_ok [half_sample].
Proof.
  split; (apply Forall_cons_2; [|constructor]; split; [split; [by apply bytes_okb_ok|reflexivity]|reflexivity|]);
    (repeat apply Forall_cons_2; [by apply sample_in_ok, bytes_okb_ok| by apply sample_in_ok, bytes_okb_ok| |constructor]);
    (split; [by apply bytes_okb_ok|reflexivity|done|done]).
Qed.

Lemma sample_arp_ok x : is_u8 x -> Forall msg_ok [sample_arp x].
Proof.
  intros Hx. apply Forall_cons_2; [|constructor]. split; [split; [by apply bytes_okb_ok|reflexivity]|reflexivity|].
  apply Forall_cons_2; [by apply sample_in_ok, bytes_okb_ok|]. apply Forall_cons_2; [|constructor].
  split; [|reflexivity|intros H; discriminate H|intros _; vm_compute; discriminate].
  apply (bytes_ok_app [20; 18; 4; 0; 6; 3; 6; 0; 101; 110; 48; 0; 17; 34; 51; 68]); [by apply bytes_okb_ok|].
  apply bytes_ok_cons. split; [exact Hx|by apply bytes_okb_ok].
Qed.

(** C34: on macOS, for any route and ARP dumps in the kernel's format, the
    searches stay in the dump and the fingerprint is that of the first up IPv4
    route to 0.0.0.0 over an IPv4 gateway that is not bound to an interface: the
    name of its interface, its gateway and the first hardware address the ARP
    table has for it. It is unknown exactly without such a route, on an
    IPv6-only network too. When none of these routes has a netmask (no
    0.0.0.0/1 of a VPN) that is the first default route; netmasks are not
    looked at, and there are dumps without a default route whose network is
    not unknown. Two networks that differ only in one byte of the gateway's
    hardware address get different fingerprints, except when both get 1, which
    stands for the hash 1 and for the hash 0. *)
Theorem mac_network_fingerprint_correct routes arp ifname :
  Forall msg_ok routes -> Forall msg_ok arp ->
  let fp arp := mac_network_fingerprint (Some (dump_of routes)) (Some (dump_of arp)) ifname in
  let mac gw arp := default [] (head (omap (neighbour_of gw) arp)) in
  fp arp = Ok (match head (omap route_of routes) with
               | None => NETFP_UNKNOWN
               | Some (gw, index) => not_zero (mac_raw_fingerprint ifname gw index (mac gw arp))
               end) /\
  (fp arp = Ok NETFP_UNKNOWN <-> omap route_of routes = []) /\
  (Forall (fun m => is_Some (route_of m) -> zero_mask m = true) routes -> omap route_of routes = omap default_of routes) /\
  (exists routes', Forall msg_ok routes' /\ omap default_of routes' = [] /\
     mac_network_fingerprint (Some (dump_of routes')) None ifname <> Ok NETFP_UNKNOWN) /\
  (forall arp' gw index l b b' r, Forall msg_ok arp' -> head (omap route_of routes) = Some (gw, index) ->
     mac gw arp = l ++ b :: r -> mac gw arp' = l ++ b' :: r -> is_u8 b -> is_u8 b' -> bytes_ok r -> b <> b' ->
     fp arp <> fp arp' \/ (fp arp = Ok 1 /\ fp arp' = Ok 1)).
Proof.
  intros Hr Ha. cbv zeta.
  assert (Hfp : forall arp, Forall msg_ok arp ->
    mac_network_fingerprint (Some (dump_of routes)) (Some (dump_of arp)) ifname =
    Ok (match head (omap route_of routes) with
        | None => NETFP_UNKNOWN
        | Some (gw, index) => not_zero (mac_raw_fingerprint ifname gw index (default [] (head (omap (neighbour_of gw) arp))))
        end)).
  { intros a H. unfold mac_network_fingerprint, default_route_v4, gateway_mac.
    rewrite (walk_finds _ _ _ _ default_sees Hr) by lia. cbn [mbind res_bind].
    destruct (head (omap route_of routes)) as [[gw index]|]; [|done].
    rewrite (walk_finds _ _ _ _ (mac_sees gw) H) by lia. cbn [mbind res_bind]. by rewrite mac_fingerprint_raw. }
  split; [by apply Hfp|]. split; [|split; [apply route_default|split]].
  - rewrite (Hfp arp Ha). destruct (omap route_of routes) as [|[gw index] l]; [done|]. cbn [head].
    split; [|done]. intros H. by apply not_zero_unknown in H.
  - exists [half_sample]. split; [apply sample_routes_ok|]. split; [done|].
    unfold mac_network_fingerprint, default_route_v4.
    rewrite (walk_finds _ _ _ _ default_sees (proj2 sample_routes_ok)) by lia. cbn [mbind res_bind].
    change (head (omap route_of [half_sample])) with (Some ([192; 168; 1; 1], 4)).
    cbn [mbind res_bind gateway_mac]. apply not_zero_unknown.
  - intros arp' gw index l b b' r Ha' Hg E E' Hb Hb' Hbr Hne. rewrite !Hfp, Hg, E, E' by done.
    assert (Hraw : mac_raw_fingerprint ifname gw index (l ++ b :: r) <> mac_raw_fingerprint ifname gw index (l ++ b' :: r)).
    { unfold mac_raw_fingerprint. rewrite !app_assoc. intros H. by apply fnv1a_one_byte in H. }
    unfold not_zero, NETFP_UNKNOWN.
    destruct (Z.eqb_spec (mac_raw_fingerprint ifname gw index (l ++ b :: r)) 0) as [E1|E1].
    { destruct (Z.eqb_spec (mac_raw_fingerprint ifname gw index (l ++ b' :: r)) 0) as [E2|E2]; [congruence|].
      destruct (Z.eq_dec (mac_raw_fingerprint ifname gw index (l ++ b' :: r)) 1) as [->|]; [by right|left; congruence]. }
    destruct (Z.eqb_spec (mac_raw_fingerprint ifname gw index (l ++ b' :: r)) 0) as [E2|E2]; [|left; congruence].
    destruct (Z.eq_dec (mac_raw_fingerprint ifname gw index (l ++ b :: r)) 1) as [->|]; [by right|left; congruence].
Qed.

Lemma mac_network_fingerprint_correct_witness :
  let fp x := mac_network_fingerprint (Some (dump_of [default_sample])) (Some (dump_of [sample_arp x])) (fun _ => Some (str "en0")) in
  omap route_of [default_sample] = omap default_of [default_sample] /\ fp 1 <> fp 2.
Proof.
  assert (H1 : is_u8 1) by (vm_compute; split; [discriminate|reflexivity]).
  assert (H2 : is_u8 2) by (vm_compute; split; [discriminate|reflexivity]).
  destruct (mac_network_fingerprint_correct [default_sample] [sample_arp 1] (fun _ => Some (str "en0"))
    (proj1 sample_routes_ok) (sample_arp_ok 1 H1)) as (_ & _ & Hd & _ & H).
  split; [apply Hd; by repeat constructor|].
  destruct (H [sample_arp 2] [192; 168; 1; 1] 4 [0; 17; 34; 51; 68] 1 2 [] (sample_arp_ok 2 H2)) as [N|[N _]];
    [reflexivity|reflexivity|reflexivity|exact H1|exact H2|constructor|discriminate|exact N|].
  vm_compute in N. discriminate N.
Defined.

(** ** Sockets *)

(** A port the rules of [pf_rules.c] do not touch; the counter wraps. *)
Lemma mac_prepare_socket_own own_next binds port :
  is_u32 own_next -> (mac_prepare_socket own_next binds).2 = Some port -> TP_PF_OWN_PORT_LO <= port <= TP_PF_OWN_PORT_HI.
Proof.
  unfold mac_prepare_socket. generalize 64%nat. intros tries. revert own_next binds.
  induction tries as [|tries IH]; intros own_next binds Hn; cbn [mac_bind]; [done|]. unfold TP_PF_OWN_PORT_LO, TP_PF_OWN_PORT_HI in *.
  destruct (binds O); cbn [snd].
  - intros [= <-]. pose proof (Z.mod_pos_bound own_next (48999 - 40000 + 1)). lia.
  - apply IH. unfold is_u32, u32. by apply Z.mod_pos_bound.
  - done.
Qed.

(** An original destination is never the machine itself, and has the family of
    the connection when the kernel answers in it. *)
Lemma natlook_elsewhere pf ioctl proto peer local d :
  natlook pf ioctl proto peer local = Some d ->
  pf = true /\ sa_family peer = sa_family local /\ unspecified (sa_addr d) = false /\
  (sa_family d = AF_INET -> bget (sa_addr d) 0 <> 127) /\
  (sa_family d = AF_INET6 -> sa_addr d <> loopback6 /\ v4mapped (sa_addr d) = false).
Proof.
  unfold natlook. destruct pf; [|done]. destruct (Z.eqb_spec (sa_family peer) (sa_family local)) as [Ef|]; [|done].
  cbn [negb orb]. destruct (negb _); [done|]. destruct (ioctl _) as [[[af addr] port]|]; [|done].
  destruct (af =? AF_INET).
  - destruct (Z.eqb_spec (bget addr 0) 127) as [|E]; [done|]. cbn [orb]. destruct (unspecified _) eqn:Eu; [done|].
    intros [= <-]. cbn [sa_addr sa_family]. split_and!; [done..| |done]. intros _. by destruct addr.
  - destruct (bool_decide_reflect (bsub addr 0 16 = loopback6)); [done|]. cbn [orb].
    destruct (unspecified _) eqn:Eu; [done|]. destruct (v4mapped _) eqn:Ev; [done|]. cbn [orb].
    intros [= <-]. cbn [sa_addr sa_family]. by split_and!.
Qed.
