(* ===== verification/Netwatch.v ===== *)
(** * Watching the network ([platform_linux.c], [platform_macos.c], [platform_windows.c])

    The change notifications of the three systems behind one interface
    ([change_watch], from [include/tp_platform.h]), how they are set up, and how
    [route_dump] asks the macOS kernel for a table whose size it does not know. *)

From stdpp Require Import base list numbers strings option.
From Stdlib Require Import ZArith Lia.
From S2P Require Import Prelude Text Divert Macnet.

(** ** The interface *)

(** What successive [recv] calls on a non-blocking descriptor give: a message,
    or an error although more may follow (a netlink socket that overflowed).
    Past the end it would block. *)
Notation pending := (list (option (list Z))).

(** [while (recv(...) > 0)]: the messages read, and what is still there. *)
Fixpoint recv_all (room : Z) (q : pending) : list (list Z) * pending :=
  match q with
  | [] => ([], [])
  | None :: q => ([], q)
  | Some m :: q =>
      let buf := bsub m 0 room in
      if zlen buf <=? 0 then ([], q) else
      let '(ms, q) := recv_all room q in (buf :: ms, q)
  end.

(** The descriptor, [None] when there is none. *)
Record watcher := mk_watcher { wt_queue : option pending }.

Class change_watch := {
  cw_matters : list Z -> Prop;
  cw_room : Z;
  cw_drain : watcher -> res unit (bool * watcher)
}.

(** What [tp_platform.h] promises: it never faults, consumes what is there, and
    reports a change if a message that matters was among it. *)
Class change_laws (W : change_watch) : Prop := {
  cl_none : cw_drain (mk_watcher None) = Ok (false, mk_watcher None);
  cl_drain q : exists changed,
    cw_drain (mk_watcher (Some q)) = Ok (changed, mk_watcher (Some (recv_all cw_room q).2)) /\
    (Exists cw_matters (recv_all cw_room q).1 -> changed = true)
}.

(** ** Linux *)

Module LinuxWatch.

Definition RTMGRP_LINK : Z := 0x1.
Definition RTMGRP_IPV4_IFADDR : Z := 0x10.
Definition RTMGRP_IPV4_ROUTE : Z := 0x40.
Definition RTMGRP_IPV6_IFADDR : Z := 0x100.
Definition RTMGRP_IPV6_ROUTE : Z := 0x400.

Definition nl_groups : Z :=
  Z.lor RTMGRP_LINK (Z.lor RTMGRP_IPV4_IFADDR (Z.lor RTMGRP_IPV6_IFADDR (Z.lor RTMGRP_IPV4_ROUTE RTMGRP_IPV6_ROUTE))).

(** The groups the socket is bound to, [None] without a socket, and how many
    sockets were closed. *)
Definition linux_tpp_init (socket bind : bool) : option Z * nat :=
  if negb socket then (None, 0%nat) else if negb bind then (None, 1%nat) else (Some nl_groups, 0%nat).

Definition linux_netwatch_drain (w : watcher) : res unit (bool * watcher) :=
  match wt_queue w with
  | None => Ok (false, w)
  | Some q => Ok (true, mk_watcher (Some (recv_all 8192 q).2))
  end.

(** Any message on the socket is of one of the groups. *)
#[export] Instance linux_watch : change_watch :=
  { cw_matters := fun _ => True; cw_room := 8192; cw_drain := linux_netwatch_drain }.

#[export] Instance linux_watch_laws : change_laws linux_watch.
Proof. split; [done|]. intros q. by exists true. Qed.

End LinuxWatch.

(** ** Windows: a pair of loopback sockets *)

Module WinWatch.

(** Opened and closed sockets, and whether [g_notify_rx] and [g_notify_tx] are
    set in the end. *)
Definition notify_setup (rx tx bind getsockname connect : bool) : nat * nat * bool :=
  let opened := (Nat.b2n rx + Nat.b2n tx)%nat in
  if negb rx || negb tx || negb bind || negb getsockname || negb connect then (opened, opened, false)
  else (opened, 0%nat, true).

(** The callback; a datagram is dropped when the buffer of [g_notify_rx] is
    full, and so not empty. *)
Definition on_route_change (full : bool) (w : watcher) : watcher :=
  match wt_queue w with
  | None => w
  | Some q => if full && negb (bool_decide (q = [])) then w else mk_watcher (Some (q ++ [Some (str "n")]))
  end.

(** The port counter a restarted service begins with, and the notifications. *)
Definition win_tpp_init (tick pid : Z) (rx tx bind getsockname connect : bool) : Z * (nat * nat * bool) :=
  (Z.lxor (u64 tick) (u64 (u32 pid * 2654435761)) mod (OWN_PORT_HI - OWN_PORT_LO + 1),
   notify_setup rx tx bind getsockname connect).

Definition win_netwatch_drain (w : watcher) : res unit (bool * watcher) :=
  match wt_queue w with
  | None => Ok (false, w)
  | Some q => Ok (true, mk_watcher (Some (recv_all 64 q).2))
  end.

#[export] Instance win_watch : change_watch :=
  { cw_matters := fun _ => True; cw_room := 64; cw_drain := win_netwatch_drain }.

#[export] Instance win_watch_laws : change_laws win_watch.
Proof. split; [done|]. intros q. by exists true. Qed.

(** Both sockets are there or none is, and none is left open behind. *)
Theorem notify_setup_correct rx tx bind getsockname connect :
  let '(opened, closed, set) := notify_setup rx tx bind getsockname connect in
  (opened - closed = if set then 2 else 0)%nat /\ (closed <= opened)%nat.
Proof. by destruct rx, tx, bind, getsockname, connect; vm_compute; split; lia. Qed.

(** A change makes the descriptor readable, however many came before; reading
    it until it would block makes it unreadable again. *)
Theorem route_change_seen full q :
  Forall (fun x => x = Some (str "n")) q ->
  exists q', wt_queue (on_route_change full (mk_watcher (Some q))) = Some q' /\ q' <> [] /\
    win_netwatch_drain (mk_watcher (Some q')) = Ok (true, mk_watcher (Some [])).
Proof.
  intros Hq. assert (Hd : forall q, Forall (fun x => x = Some (str "n")) q -> (recv_all 64 q).2 = []).
  { induction 1 as [|x l -> _ IH]; [done|]. cbn [recv_all]. change (zlen (bsub (str "n") 0 64) <=? 0) with false.
    cbv iota. by destruct (recv_all 64 l) as [ms r]. }
  unfold on_route_change. cbn [wt_queue]. destruct (full && negb (bool_decide (q = []))) eqn:E.
  - exists q. apply andb_prop in E as [_ E]. apply negb_true_iff, bool_decide_eq_false in E. split; [done|]. split; [done|].
    unfold win_netwatch_drain. cbn [wt_queue]. by rewrite Hd.
  - exists (q ++ [Some (str "n")]). split; [done|]. split; [by destruct q|].
    unfold win_netwatch_drain. cbn [wt_queue]. rewrite Hd; [done|]. apply Forall_app. split; [done|]. by constructor.
Qed.

(** The counter starts inside the range of the daemon's own ports. *)
Theorem own_port_start tick pid rx tx bind getsockname connect :
  0 <= (win_tpp_init tick pid rx tx bind getsockname connect).1 <= OWN_PORT_HI - OWN_PORT_LO.
Proof. unfold win_tpp_init. cbn [fst]. pose proof (Z.mod_pos_bound (Z.lxor (u64 tick) (u64 (u32 pid * 2654435761))) (OWN_PORT_HI - OWN_PORT_LO + 1)). unfold OWN_PORT_HI, OWN_PORT_LO in *. lia. Qed.

End WinWatch.

(** ** macOS *)

Module MacWatch.

Definition mac_netwatch_drain (w : watcher) : res unit (bool * watcher) :=
  match wt_queue w with
  | None => Ok (false, w)
  | Some q =>
      let '(ms, q) := recv_all 4096 q in
      changed ← netwatch_drain ms; Ok (changed, mk_watcher (Some q))
  end.

#[export] Instance mac_watch : change_watch :=
  { cw_matters := fun m => relevant m = Ok true; cw_room := 4096; cw_drain := mac_netwatch_drain }.

Lemma relevant_ok m : exists b, relevant m = Ok b.
Proof.
  unfold relevant. destruct (Z.ltb_spec (zlen m) RT_MSGHDR) as [|H]; [by exists false|]. unfold RT_MSGHDR in H.
  unfold le32_at, le16_at. rewrite !fetch_Ok by lia. cbn [mbind res_bind]. by eexists.
Qed.

Lemma netwatch_drain_ok ms : exists b, netwatch_drain ms = Ok b /\ (Exists (fun m => relevant m = Ok true) ms -> b = true).
Proof.
  induction ms as [|m ms (b & E & H)]; [exists false; split; [done|by intros ?%Exists_nil]|].
  destruct (relevant_ok m) as [r Hr]. cbn [netwatch_drain]. rewrite Hr, E. exists (r || b). split; [done|].
  intros Hx. apply Exists_cons in Hx as [Hx|Hx]; [rewrite Hr in Hx; by injection Hx as ->|].
  rewrite (H Hx). apply orb_true_r.
Qed.

#[export] Instance mac_watch_laws : change_laws mac_watch.
Proof.
  split; [done|]. intros q. cbn [cw_drain cw_room cw_matters mac_watch]. unfold mac_netwatch_drain. cbn [wt_queue].
  destruct (recv_all 4096 q) as [ms r]. destruct (netwatch_drain_ok ms) as (b & E & H). exists b.
  rewrite E. split; [done|exact H].
Qed.

(** [getrlimit]: the limits, [None] when it fails; the soft limit asked for. *)
Definition raise_limit (rl : option (Z * Z)) : option Z :=
  match rl with
  | Some (cur, max) => if cur <? 8192 then Some (if max <? 8192 then max else 8192) else None
  | None => None
  end.

(** The initial port counter and whether the routing socket is there; [None] is
    a failed start. *)
Definition mac_tpp_init (pf pfctl route : bool) (rl : option (Z * Z)) (pid time : Z) : option (option Z * Z * bool) :=
  if negb pf then None else
  if negb pfctl then None else
  Some (raise_limit rl, Z.lxor (u32 (pid * 2654435761)) (u32 time), route).

(** The soft limit is only raised, to 8192 or the hard limit. *)
Theorem raise_limit_correct cur max :
  cur <= max ->
  let new := default cur (raise_limit (Some (cur, max))) in
  cur <= new <= max /\ Z.min 8192 max <= new.
Proof.
  intros H. cbv zeta. unfold raise_limit. destruct (Z.ltb_spec cur 8192), (Z.ltb_spec max 8192); cbn [from_option id]; lia.
Qed.

(** [sysctl] for the size, half as much again, and [sysctl] for the table into
    that many bytes. *)
Definition route_dump (size : option Z) (alloc : bool) (fill : Z -> option (list Z)) : option (list Z) :=
  match size with
  | None => None
  | Some len =>
      if len =? 0 then None else
      let len := u64 (len + len / 2) in
      if negb alloc then None else fill len
  end.

(** [sysctl] copies the table whole or fails. *)
Definition kernel_fill (table : list Z) (room : Z) : option (list Z) :=
  if zlen table <=? room then Some table else None.

(** A table that grew by up to half between the two calls is read whole, and
    what is read is never cut short. *)
Theorem route_dump_whole len table :
  0 < len < 2 ^ 63 ->
  (zlen table <= len + len / 2 -> route_dump (Some len) true (kernel_fill table) = Some table) /\
  (forall alloc dump, route_dump (Some len) alloc (kernel_fill table) = Some dump -> dump = table).
Proof.
  intros Hl. unfold route_dump, kernel_fill. destruct (Z.eqb_spec len 0); [lia|]. cbv zeta.
  assert (E : u64 (len + len / 2) = len + len / 2) by (apply Z.mod_small; Z.div_mod_to_equations; lia). rewrite E.
  split.
  - intros H. cbn [negb]. by rewrite (proj2 (Z.leb_le _ _) H).
  - intros [|] dump; cbn [negb]; [|done]. destruct (_ <=? _); [by intros [= <-]|done].
Qed.

End MacWatch.

(** ** For every system *)

Section drain.
Context {W : change_watch} {L : change_laws W}.

(** Draining until the descriptor would block reports every change that is
    waiting, and afterwards nothing is. *)
Theorem drain_until_empty q :
  Forall (fun x => exists m, x = Some m /\ 0 < zlen (bsub m 0 cw_room)) q ->
  exists changed, cw_drain (mk_watcher (Some q)) = Ok (changed, mk_watcher (Some [])) /\
    (Exists (fun x => exists m, x = Some m /\ cw_matters (bsub m 0 cw_room)) q -> changed = true).
Proof.
  intros Hq. destruct (cl_drain q) as (changed & E & Hc). exists changed.
  assert (Hall : (recv_all cw_room q).2 = [] /\
    (recv_all cw_room q).1 = omap (fun x => (fun m => bsub m 0 cw_room) <$> x) q).
  { clear E Hc. induction Hq as [|x l (m & -> & Hm) _ [H1 H2]]; [done|]. cbn [recv_all omap list_omap fmap option_fmap option_map].
    destruct (Z.leb_spec (zlen (bsub m 0 cw_room)) 0); [lia|]. destruct (recv_all cw_room l) as [ms r].
    cbn [fst snd] in *. by rewrite H1, H2. }
  destruct Hall as [H1 H2]. rewrite H1 in E. split; [exact E|]. intros Hx. apply Hc. rewrite H2.
  clear -Hx. induction Hx as [x l (m & -> & Hm)|x l _ IH]; [by left|]. destruct x; [by right|exact IH].
Qed.
End drain.
