(* ===== verification/Relay.v ===== *)
(** * The relay ([src/relay.c], [include/relay.h])

    The stream core that SOCKS mode and transparent mode share: the client's
    first write in one of four forms, and the pump that copies both directions
    until both are finished. What poll, recv and send do is a list of events;
    the bytes read and written are part of the pump's state, so that the
    theorems can compare them. *)

From stdpp Require Import base list numbers strings option relations.
From Stdlib Require Import ZArith Lia.
From S2P Require Import Prelude Packet Tls Strategy Socket.

Definition BUFFER_SIZE : Z := 16384.

(** ** The first write *)

Inductive split_mode :=
| RELAY_SPLIT_NONE
| RELAY_SPLIT_TCP
| RELAY_SPLIT_TLS_RECORD
| RELAY_SPLIT_TLS_RECORD_TCP.

Definition RELAY_TLSREC_TCP_CUT : Z := 3.

(** The writes made, in order; each is its own TCP segment. *)
Definition send_first_tls (buffer : list Z) : res unit (list (list Z)) :=
  split ← tls_find_sni_split_z buffer;
  if (split <=? 0) || (zlen buffer <=? split) then Ok [buffer] else
  a ← slice buffer 0 split;
  b ← slice buffer split (zlen buffer - split);
  Ok [a; b].

Definition send_first_tls_record (buffer out : list Z) : res unit (list (list Z)) :=
  at_ ← tls_record_split_point buffer;
  match tls_fragment_first_record buffer at_ out with
  | Fault => Fault
  | Err _ => Ok [buffer]
  | Ok (out, out_len) =>
      a ← slice out 0 (5 + at_);
      b ← slice out (5 + at_) (out_len - (5 + at_));
      Ok [a; b]
  end.

Definition send_first_tls_record_tcp (buffer out : list Z) : res unit (list (list Z)) :=
  at_ ← tls_record_split_point buffer;
  match tls_fragment_first_record buffer at_ out with
  | Fault => Fault
  | Err _ => Ok [buffer]
  | Ok (out, out_len) =>
      if out_len <=? RELAY_TLSREC_TCP_CUT then Ok [buffer] else
      a ← slice out 0 RELAY_TLSREC_TCP_CUT;
      b ← slice out RELAY_TLSREC_TCP_CUT (out_len - RELAY_TLSREC_TCP_CUT);
      Ok [a; b]
  end.

Definition relay_split_for (s : strategy) : split_mode :=
  match s with
  | STRATEGY_TLSREC => RELAY_SPLIT_TLS_RECORD
  | STRATEGY_TLSREC_SPLIT => RELAY_SPLIT_TLS_RECORD_TCP
  | _ => RELAY_SPLIT_NONE
  end.

Definition relay_send_first (buf out : list Z) (mode : split_mode) : res unit (list (list Z)) :=
  match mode with
  | RELAY_SPLIT_TLS_RECORD => send_first_tls_record buf out
  | RELAY_SPLIT_TLS_RECORD_TCP => send_first_tls_record_tcp buf out
  | RELAY_SPLIT_TCP => send_first_tls buf
  | RELAY_SPLIT_NONE => Ok [buf]
  end.

(** ** The pump *)

(** How a relayed connection ended ([t_relay_stats]). *)
Record relay_stats := mk_relay {
  up_bytes : Z;
  down_bytes : Z;
  client_eof_first : bool;
  upstream_reset : bool
}.

(** One [recv], and for data the [send] calls that pass it on. *)
Inductive transfer :=
| X_EOF
| X_INTR
| X_ERROR
| X_DATA (d : list Z) (sends : list tx_event).

(** One [poll]: what each ready side then does. *)
Inductive poll_event :=
| POLL_INTR
| POLL_ERROR
| POLL_TIMEOUT
| POLL_READY (client upstream : option transfer).

Inductive moved := MOVED | AT_EOF | READ_FAILED | WRITE_FAILED.

(** [forward_once]: what happened, the bytes read and the bytes written. *)
Definition forward_once (x : transfer) : moved * list Z * list Z :=
  match x with
  | X_EOF => (AT_EOF, [], [])
  | X_INTR => (MOVED, [], [])
  | X_ERROR => (READ_FAILED, [], [])
  | X_DATA d sends =>
      let buffer := bsub d 0 BUFFER_SIZE in
      if zlen buffer =? 0 then (AT_EOF, [], []) else
      let '(ok, out) := relay_send_all sends buffer in
      (if (ok : bool) then MOVED else WRITE_FAILED, buffer, out)
  end.

(** The pump's variables, and what passed through it so far: read from and
    written to each side, write sides shut down, client reset. *)
Record pump := mk_pump {
  up_open : bool;
  down_open : bool;
  p_stats : relay_stats;
  up_in : list Z;
  up_out : list Z;
  down_in : list Z;
  down_out : list Z;
  shut_upstream : bool;
  shut_client : bool;
  client_reset : bool
}.

Definition pump_init : pump :=
  mk_pump true true (mk_relay 0 0 false false) [] [] [] [] false false false.

Definition moved_up (p : pump) (i o : list Z) (n : Z) : pump :=
  let st := p_stats p in
  mk_pump (up_open p) (down_open p)
    (mk_relay (u64 (up_bytes st + n)) (down_bytes st) (client_eof_first st) (upstream_reset st))
    (up_in p ++ i) (up_out p ++ o) (down_in p) (down_out p)
    (shut_upstream p) (shut_client p) (client_reset p).

Definition moved_down (p : pump) (i o : list Z) (n : Z) : pump :=
  let st := p_stats p in
  mk_pump (up_open p) (down_open p)
    (mk_relay (up_bytes st) (u64 (down_bytes st + n)) (client_eof_first st) (upstream_reset st))
    (up_in p) (up_out p) (down_in p ++ i) (down_out p ++ o)
    (shut_upstream p) (shut_client p) (client_reset p).

Definition close_up (p : pump) : pump :=
  let st := p_stats p in
  mk_pump false (down_open p)
    (mk_relay (up_bytes st) (down_bytes st) (client_eof_first st || down_open p) (upstream_reset st))
    (up_in p) (up_out p) (down_in p) (down_out p) true (shut_client p) (client_reset p).

Definition close_down (p : pump) : pump :=
  mk_pump (up_open p) false (p_stats p) (up_in p) (up_out p) (down_in p) (down_out p)
    (shut_upstream p) true (client_reset p).

Definition reset_client (p : pump) : pump :=
  let st := p_stats p in
  mk_pump (up_open p) (down_open p)
    (mk_relay (up_bytes st) (down_bytes st) (client_eof_first st) true)
    (up_in p) (up_out p) (down_in p) (down_out p) (shut_upstream p) (shut_client p) true.

(** The [if (client_ready)] and [if (upstream_ready)] blocks; [inr] leaves the
    loop with 0. A side whose direction is closed is not polled. *)
Definition pump_client (p : pump) (x : option transfer) : pump + pump :=
  match x with
  | Some x =>
      if negb (up_open p) then inl p else
      let '(r, i, o) := forward_once x in
      match r with
      | AT_EOF => inl (close_up p)
      | MOVED => inl (moved_up p i o (zlen i))
      | READ_FAILED | WRITE_FAILED => inr (moved_up p i o 0)
      end
  | None => inl p
  end.

Definition pump_upstream (p : pump) (x : option transfer) : pump + pump :=
  match x with
  | Some x =>
      if negb (down_open p) then inl p else
      let '(r, i, o) := forward_once x in
      match r with
      | AT_EOF => inl (close_down p)
      | MOVED => inl (moved_down p i o (zlen i))
      | READ_FAILED => inr (reset_client p)
      | WRITE_FAILED => inr (moved_down p i o 0)
      end
  | None => inl p
  end.

(** How a run of the pump stands: still waiting, or returned a value. *)
Inductive pump_end := WAITING | RETURNED (r : Z).

(** [relay_pump_timeout] from the state [p], over what poll reports. *)
Fixpoint relay_pump_timeout (evs : list poll_event) (p : pump) : pump_end * pump :=
  if negb (up_open p || down_open p) then (RETURNED 0, p) else
  match evs with
  | [] => (WAITING, p)
  | POLL_INTR :: evs' => relay_pump_timeout evs' p
  | POLL_ERROR :: _ | POLL_TIMEOUT :: _ => (RETURNED (-1), p)
  | POLL_READY cx ux :: evs' =>
      match pump_client p cx with
      | inr p => (RETURNED 0, p)
      | inl p =>
          match pump_upstream p ux with
          | inr p => (RETURNED 0, p)
          | inl p => relay_pump_timeout evs' p
          end
      end
  end.

Definition relay_pump (evs : list poll_event) : pump_end * pump := relay_pump_timeout evs pump_init.

(** ** SOCKS mode's relay *)

(** [do recv while interrupted]: the bytes, none when the client is gone. *)
Fixpoint first_read (rx : list rx_event) : list Z :=
  match rx with
  | RX_INTR :: rx' => first_read rx'
  | RX_DATA d :: _ => bsub d 0 BUFFER_SIZE
  | _ => []
  end.

(** The writes of [relay_send_first] on a socket: do all succeed, and what
    goes out. *)
Fixpoint send_writes (sends : nat -> list tx_event) (k : nat) (ws : list (list Z)) : bool * list Z :=
  match ws with
  | [] => (true, [])
  | w :: ws' =>
      let '(ok, o) := relay_send_all (sends k) w in
      if (ok : bool) then
        let '(ok, o') := send_writes sends (S k) ws' in (ok, o ++ o')
      else (false, o)
  end.

(** [ready]: the first wait's outcome, [None] a failed poll, else whether the
    client has something to read. The result is how the relay stands, what
    went upstream before the pump, and the pump. *)
Definition relay_connection (mode : split_mode) (ready : option bool) (first : list rx_event)
    (sends : nat -> list tx_event) (out : list Z) (evs : list poll_event)
  : res unit (pump_end * list Z * pump) :=
  let pumped pre := let '(e, p) := relay_pump evs in Ok (e, pre, p) in
  match mode with
  | RELAY_SPLIT_NONE => pumped []
  | _ =>
      match ready with
      | None => Ok (RETURNED (-1), [], pump_init)
      | Some false => pumped []
      | Some true =>
          let buffer := first_read first in
          if zlen buffer <=? 0 then Ok (RETURNED 0, [], pump_init) else
          ws ← relay_send_first buffer out mode;
          let '(ok, pre) := send_writes sends 0 ws in
          if (ok : bool) then pumped pre else Ok (RETURNED (-1), pre, pump_init)
      end
  end.

(** ** What goes out first *)

(** Where a record is cut, counted from its body: in the middle of the SNI
    hostname, after the first byte when there is none. *)
Definition cut_point (hello : list Z) (at_ : Z) : Prop :=
  (exists q n, sni_at hello q n /\ 2 <= n /\ at_ = q + n / 2 - 5) \/
  ((forall q n, sni_at hello q n -> n < 2) /\ at_ = 1).

(** The ClientHello in two TLS records, in two writes cut where [cut] says;
    unchanged only when it is not a record that can be cut there. *)
Definition in_two (cut : Z -> Z) (hello : list Z) (size : Z) (writes : list (list Z)) : Prop :=
  exists at_, cut_point hello at_ /\
    ((fragmentable_record hello at_ size /\
      writes = [bsub (two_records hello at_) 0 (cut at_); bfrom (two_records hello at_) (cut at_)]) \/
     (~ fragmentable_record hello at_ size /\ writes = [hello])).

(** The writes of an attempt with a strategy. *)
Definition carries (hello : list Z) (size : Z) (s : strategy) (writes : list (list Z)) : Prop :=
  match s with
  | STRATEGY_TLSREC => in_two (fun at_ => 5 + at_) hello size writes
  | STRATEGY_TLSREC_SPLIT => in_two (fun _ => 3) hello size writes
  | _ => writes = [hello]
  end.

Lemma tls_record_split_point_wp data :
  bytes_ok data -> wp (tls_record_split_point data) (cut_point data) (fun _ => False).
Proof.
  intros Hd. unfold tls_record_split_point, tls_find_sni_split_z. apply wp_bind.
  pose proof (tls_find_sni_split_wp data Hd) as W.
  destruct (tls_find_sni_split data) as [p|e|]; [| |done]; apply wp_ok.
  - destruct W as (q & n & Hat & Hn & ->). pose proof (sni_at_after data q n Hd Hat). pose proof (Z.div_str_pos n 2).
    rewrite (proj2 (Z.ltb_lt _ _)) by lia. apply wp_ok. left. by exists q, n.
  - apply wp_ok. by right.
Qed.

Lemma bsub_rest (o : list Z) (a b : Z) : 0 <= a <= b -> bsub o a (b - a) = bfrom (bsub o 0 b) a.
Proof.
  intros H. unfold bsub, bfrom. change (Z.to_nat 0) with 0%nat. rewrite drop_0, skipn_firstn_comm. f_equal. lia.
Qed.

(** Cutting the re-framed bytes in two. *)
Lemma cut_wp data at_ out o l cut :
  filled out (two_records data at_) o -> zlen (two_records data at_) = l -> l <= zlen out ->
  0 <= cut <= l ->
  wp (a ← slice o 0 cut; b ← slice o cut (l - cut); Ok [a; b])
    (fun ws => ws = [bsub (two_records data at_) 0 cut; bfrom (two_records data at_) cut]) (fun _ : unit => False).
Proof.
  intros F Hl Ho Hc. pose proof (filled_len _ _ _ F) as Hlo.
  do 2 (apply wp_bind, wp_slice; [lia|]). apply wp_ok.
  apply filled_prefix in F. rewrite Hl in F. rewrite bsub_rest, F by lia. f_equal.
  rewrite <- F. unfold bsub. change (Z.to_nat 0) with 0%nat. rewrite !drop_0, take_take. f_equal. lia.
Qed.

Lemma relay_send_first_wp hello out s :
  bytes_ok hello ->
  wp (relay_send_first hello out (relay_split_for s)) (carries hello (zlen out) s) (fun _ => False).
Proof.
  intros Hh.
  assert (Hrec : forall (at_ : Z) (cut : Z -> Z) (mk : list Z * Z -> res unit (list (list Z))),
    cut_point hello at_ ->
    (forall o l, fragmentable_record hello at_ (zlen out) -> filled out (two_records hello at_) o ->
       zlen (two_records hello at_) = l -> l = zlen hello + 5 ->
       wp (mk (o, l)) (fun ws => ws = [bsub (two_records hello at_) 0 (cut at_); bfrom (two_records hello at_) (cut at_)])
         (fun _ => False)) ->
    wp (match tls_fragment_first_record hello at_ out with
        | Fault => Fault | Err _ => Ok [hello] | Ok r => mk r end)
      (in_two cut hello (zlen out)) (fun _ => False)).
  { intros at_ cut mk Hs Hmk. pose proof (tls_fragment_first_record_wp hello at_ out Hh) as W.
    destruct (tls_fragment_first_record hello at_ out) as [[o l]|e|]; [| |done].
    - destruct W as (Hf & Hl & Hz & F). cbn [fst snd] in *.
      eapply wp_mono; [| |apply (Hmk o l Hf F); lia]; [|done].
      intros ws ->. exists at_. split; [done|]. by left.
    - apply wp_ok. exists at_. split; [done|]. by right. }
  destruct s; try (by apply wp_ok); cbn [relay_split_for relay_send_first carries].
  - unfold send_first_tls_record. apply wp_bind.
    eapply wp_mono; [| |apply tls_record_split_point_wp; done]; [|done]. intros at_ Hat.
    refine (Hrec at_ (fun at_ => 5 + at_) (fun '(o, l) => a ← slice o 0 (5 + at_); b ← slice o (5 + at_) (l - (5 + at_)); Ok [a; b]) _ _);
      [done|]. intros o l Hf F Hl Hl'. destruct Hf as (? & ? & ? & ? & ? & ?).
    apply (cut_wp hello at_ out); [done|done|lia|lia].
  - unfold send_first_tls_record_tcp. apply wp_bind.
    eapply wp_mono; [| |apply tls_record_split_point_wp; done]; [|done]. intros at_ Hat.
    refine (Hrec at_ (fun _ => 3) (fun '(o, l) => if l <=? RELAY_TLSREC_TCP_CUT then Ok [hello] else
      a ← slice o 0 RELAY_TLSREC_TCP_CUT; b ← slice o RELAY_TLSREC_TCP_CUT (l - RELAY_TLSREC_TCP_CUT);
      Ok [a; b]) _ _); [done|].
    intros o l Hf F Hl Hl'. destruct Hf as (? & ? & ? & ? & ? & ?). unfold RELAY_TLSREC_TCP_CUT.
    rewrite (proj2 (Z.leb_gt _ _)) by lia.
    apply (cut_wp hello at_ out); [done|done|lia|lia].
Qed.

(** ** What the pump delivers *)

(** While it runs nothing is missing on either side. *)
Record pump_ok (p : pump) : Prop := {
  po_up : up_out p = up_in p;
  po_down : down_out p = down_in p;
  po_up_count : up_bytes (p_stats p) = u64 (zlen (up_in p));
  po_down_count : down_bytes (p_stats p) = u64 (zlen (down_in p));
  po_shut_up : shut_upstream p = negb (up_open p);
  po_shut_down : shut_client p = negb (down_open p);
  po_eof : up_open p = true -> client_eof_first (p_stats p) = false;
  po_reset : upstream_reset (p_stats p) = false /\ client_reset p = false
}.

(** When a read or a write fails at most the last chunk of one direction is
    cut short, and the client is reset exactly for a failed upstream read. *)
Record pump_broken (p : pump) : Prop := {
  pb_up : up_out p `prefix_of` up_in p;
  pb_down : down_out p `prefix_of` down_in p;
  pb_lost : zlen (up_in p) - zlen (up_out p) + (zlen (down_in p) - zlen (down_out p)) <= BUFFER_SIZE;
  pb_one : up_out p = up_in p \/ down_out p = down_in p;
  pb_reset : client_reset p = upstream_reset (p_stats p);
  pb_whole : client_reset p = true -> up_out p = up_in p /\ down_out p = down_in p
}.

(** The data an event carries for each side, and its end of file. *)
Definition transfer_data (x : option transfer) : list Z :=
  match x with Some (X_DATA d _) => bsub d 0 BUFFER_SIZE | _ => [] end.
Definition transfer_eof (x : option transfer) : bool :=
  match x with
  | Some X_EOF => true
  | Some (X_DATA d _) => zlen (bsub d 0 BUFFER_SIZE) =? 0
  | _ => false
  end.
Definition client_side (ev : poll_event) : option transfer :=
  match ev with POLL_READY c _ => c | _ => None end.
Definition upstream_side (ev : poll_event) : option transfer :=
  match ev with POLL_READY _ u => u | _ => None end.

(** What a side sends before it closes, whether it closes, and whether the
    client is the first to close. *)
Fixpoint sent_by (side : poll_event -> option transfer) (evs : list poll_event) : list Z :=
  match evs with
  | [] => []
  | ev :: evs' =>
      if transfer_eof (side ev) then [] else transfer_data (side ev) ++ sent_by side evs'
  end.
Definition finished (side : poll_event -> option transfer) (evs : list poll_event) : bool :=
  existsb (fun ev => transfer_eof (side ev)) evs.
Fixpoint client_first (evs : list poll_event) : bool :=
  match evs with
  | [] => false
  | ev :: evs' =>
      transfer_eof (client_side ev)
      || (negb (transfer_eof (upstream_side ev)) && client_first evs')
  end.

Lemma transfer_eof_data x : transfer_eof x = true -> transfer_data x = [].
Proof.
  destruct x as [[| | |d s]|]; cbn [transfer_eof transfer_data]; try done.
  intros H. apply zlen_eq0. lia.
Qed.

Lemma forward_once_spec x :
  match forward_once x with
  | (AT_EOF, i, o) => i = [] /\ o = [] /\ transfer_eof (Some x) = true
  | (MOVED, i, o) => i = transfer_data (Some x) /\ o = i /\ transfer_eof (Some x) = false
  | (READ_FAILED, i, o) =>
      i = [] /\ o = [] /\ transfer_data (Some x) = [] /\ transfer_eof (Some x) = false
  | (WRITE_FAILED, i, o) =>
      i = transfer_data (Some x) /\ o `prefix_of` i /\ zlen i <= BUFFER_SIZE /\
      transfer_eof (Some x) = false
  end.
Proof.
  destruct x as [| | |d sends]; cbn [forward_once transfer_data transfer_eof]; try done.
  set (b := bsub d 0 BUFFER_SIZE).
  assert (Hb : zlen b <= BUFFER_SIZE) by (unfold b, bsub, zlen, BUFFER_SIZE; rewrite length_take; lia).
  destruct (Z.eqb_spec (zlen b) 0) as [E|E]; [done|].
  pose proof (relay_send_all_spec sends b) as Hs. destruct (relay_send_all sends b) as [[|] o].
  - destruct Hs as [_ Ho]. split; [done|]. by split; [apply Ho|].
  - by destruct Hs.
Qed.

Lemma u64_add_len n (l i : list Z) : n = u64 (zlen l) -> u64 (n + zlen i) = u64 (zlen (l ++ i)).
Proof. intros ->. rewrite zlen_app. unfold u64. by rewrite Z.add_mod_idemp_l. Qed.

(** What is read from a side that is polled only while it is open. *)
Definition read_if (o : bool) (x : option transfer) : list Z := if o then transfer_data x else [].

(** What one side of a poll does to a running pump. *)
Lemma pump_client_spec p x :
  pump_ok p ->
  match pump_client p x with
  | inl p' => pump_ok p' /\ down_in p' = down_in p /\ down_open p' = down_open p /\
      up_in p' = up_in p ++ read_if (up_open p) x /\
      up_open p' = up_open p && negb (transfer_eof x) /\
      client_eof_first (p_stats p') =
        if up_open p then transfer_eof x && down_open p else client_eof_first (p_stats p)
  | inr p' => pump_broken p' /\ up_open p = true /\ up_open p' = true /\
      transfer_eof x = false /\
      client_eof_first (p_stats p') = client_eof_first (p_stats p) /\
      down_in p' = down_in p /\ down_open p' = down_open p /\
      up_in p' = up_in p ++ transfer_data x
  end.
Proof.
  intros [H1 H2 H3 H4 H5 H6 H7 [H8 H9]]. destruct x as [x|]; cbn [pump_client].
  2: { split; [by split|]. split; [done|]. split; [done|].
       destruct (up_open p); cbn [read_if andb]; rewrite app_nil_r; [by rewrite H7|done]. }
  destruct (up_open p) eqn:Ho; cbn [negb].
  2: { split; [by split; rewrite ?Ho|]. cbn [read_if andb]. by rewrite app_nil_r. }
  specialize (H7 eq_refl).
  pose proof (forward_once_spec x) as Hf. destruct (forward_once x) as [[r i] o].
  cbn [read_if andb]. destruct r; destruct Hf as (Hi & Hoo & Hx).
  - subst o i. rewrite Hx. split.
    { split; cbn [moved_up up_in up_out down_in down_out p_stats up_open down_open shut_upstream
        shut_client client_reset up_bytes down_bytes client_eof_first upstream_reset];
        rewrite ?H1, ?Ho; done || by apply u64_add_len. }
    done.
  - subst i o. rewrite Hx, (transfer_eof_data _ Hx), app_nil_r. split; [by split|].
    cbn [close_up p_stats client_eof_first]. by rewrite H7.
  - destruct Hx as [Hd Hx]. subst i o. rewrite Hd. cbn [moved_up up_open p_stats client_eof_first].
    split; [|done].
    split; cbn [moved_up up_in up_out down_in down_out p_stats client_reset upstream_reset];
      rewrite ?app_nil_r, ?H1, ?H2, ?H8, ?H9; try done; [unfold BUFFER_SIZE; lia|by left].
  - destruct Hx as [Hl Hx]. subst i. cbn [moved_up up_open p_stats client_eof_first]. split; [|done].
    split; cbn [moved_up up_in up_out down_in down_out p_stats client_reset upstream_reset];
      rewrite ?H1, ?H2, ?H8, ?H9; try done; [by apply prefix_app| |by right].
    rewrite !zlen_app. pose proof (zlen_nonneg o). lia.
Qed.

Lemma pump_upstream_spec p x :
  pump_ok p ->
  match pump_upstream p x with
  | inl p' => pump_ok p' /\ up_in p' = up_in p /\ up_open p' = up_open p /\
      down_in p' = down_in p ++ read_if (down_open p) x /\
      down_open p' = down_open p && negb (transfer_eof x) /\
      client_eof_first (p_stats p') = client_eof_first (p_stats p)
  | inr p' => pump_broken p' /\ down_open p = true /\ down_open p' = true /\
      transfer_eof x = false /\
      client_eof_first (p_stats p') = client_eof_first (p_stats p) /\
      up_in p' = up_in p /\ up_open p' = up_open p /\
      down_in p' = down_in p ++ transfer_data x
  end.
Proof.
  intros [H1 H2 H3 H4 H5 H6 H7 [H8 H9]]. destruct x as [x|]; cbn [pump_upstream].
  2: { split; [by split|]. split; [done|]. split; [done|].
       by destruct (down_open p); cbn [read_if andb]; rewrite app_nil_r. }
  destruct (down_open p) eqn:Ho; cbn [negb].
  2: { split; [by split; rewrite ?Ho|]. cbn [read_if andb]. by rewrite app_nil_r. }
  pose proof (forward_once_spec x) as Hf. destruct (forward_once x) as [[r i] o].
  cbn [read_if andb]. destruct r; destruct Hf as (Hi & Hoo & Hx).
  - subst o i. rewrite Hx. split.
    { split; cbn [moved_down up_in up_out down_in down_out p_stats up_open down_open shut_upstream
        shut_client client_reset up_bytes down_bytes client_eof_first upstream_reset];
        rewrite ?H2, ?Ho; done || by apply u64_add_len. }
    done.
  - subst i o. rewrite Hx, (transfer_eof_data _ Hx), app_nil_r. by split.
  - destruct Hx as [Hd Hx]. subst i o. cbn [reset_client up_in down_in]. rewrite Hd, app_nil_r.
    split; [|done].
    split; cbn [reset_client up_in up_out down_in down_out p_stats client_reset upstream_reset];
      rewrite ?H1, ?H2; try done; [unfold BUFFER_SIZE; lia|by left].
  - destruct Hx as [Hl Hx]. subst i. cbn [moved_down up_in down_in]. split; [|done].
    split; cbn [moved_down up_in up_out down_in down_out p_stats client_reset upstream_reset];
      rewrite ?H1, ?H2, ?H8, ?H9; try done; [by apply prefix_app| |by left].
    rewrite !zlen_app. pose proof (zlen_nonneg o). lia.
Qed.

(** What one direction read over a run, from the side that talks. *)
Record read_over (side : poll_event -> option transfer) (evs : list poll_event) (e : pump_end)
    (was_open is_open : bool) (read : list Z) : Prop := {
  ro_prefix : read `prefix_of` sent_by side evs;
  ro_closed : was_open = false -> read = [] /\ is_open = false;
  ro_all : was_open = true -> e = WAITING \/ is_open = false -> read = sent_by side evs;
  ro_eof : was_open = true -> e = WAITING \/ is_open = false -> finished side evs = negb is_open
}.

Lemma read_over_none side evs e o :
  (e = WAITING -> evs = []) -> read_over side evs e o o [].
Proof.
  intros H. split; [apply prefix_nil|done|intros -> [->|?]; [by rewrite H|done]..].
Qed.

(** One more poll in front of a run; [mid] is whether the direction is open
    after it. *)
Lemma read_over_cons (side : poll_event -> option transfer) ev evs e (o mid o' : bool) read :
  mid = o && negb (transfer_eof (side ev)) -> read_over side evs e mid o' read ->
  read_over side (ev :: evs) e o o' (read_if o (side ev) ++ read).
Proof.
  intros Hm [H1 H2 H3 H4]. unfold finished in *. destruct o; cbn [andb] in Hm.
  - destruct (transfer_eof (side ev)) eqn:E; cbn [negb] in Hm.
    + cbn [read_if]. rewrite (transfer_eof_data _ E). destruct (H2 Hm) as [-> ->].
      split; unfold finished; cbn [sent_by existsb]; rewrite ?E; done.
    + split; unfold finished; cbn [sent_by existsb]; rewrite ?E; [by apply prefix_app|done| |].
      * intros _ Hw. by rewrite (H3 Hm Hw).
      * intros _ Hw. by apply (H4 Hm).
  - destruct (H2 Hm) as [-> ->]. split; try apply prefix_nil; done.
Qed.

Lemma read_over_last (side : poll_event -> option transfer) ev evs e (o o' : bool) :
  e <> WAITING -> o' = o && negb (transfer_eof (side ev)) ->
  read_over side (ev :: evs) e o o' (read_if o (side ev)).
Proof.
  intros He Ho. destruct o; cbn [andb] in Ho; cbn [read_if]; [|by split; [apply prefix_nil|..]].
  split; unfold finished; cbn [sent_by existsb]; try done; destruct (transfer_eof (side ev)) eqn:E; subst o';
    rewrite ?(transfer_eof_data _ E); try done.
  - by apply prefix_app_r.
  - by intros _ [?|?].
  - by intros _ [?|?].
Qed.

(** Whether the client closed first, from what happened before [evs]. *)
Definition client_first_from (p : pump) (evs : list poll_event) : bool :=
  if up_open p then down_open p && client_first evs else client_eof_first (p_stats p).

(** A run of the pump from the state [p]. *)
Record pump_run (p : pump) (evs : list poll_event) (e : pump_end) (p' : pump) : Prop := {
  pr_up : exists u, up_in p' = up_in p ++ u /\
    read_over client_side evs e (up_open p) (up_open p') u;
  pr_down : exists d, down_in p' = down_in p ++ d /\
    read_over upstream_side evs e (down_open p) (down_open p') d;
  pr_first : e = WAITING \/ up_open p' && down_open p' = false ->
    client_eof_first (p_stats p') = client_first_from p evs;
  pr_end :
    match e with
    | WAITING => pump_ok p' /\ up_open p' || down_open p' = true
    | RETURNED r =>
        (pump_ok p' /\ ((r = 0 /\ up_open p' || down_open p' = false) \/ r = -1)) \/
        (r = 0 /\ pump_broken p')
    end
}.

(** A run that ends where it starts. *)
Lemma pump_run_stop p evs e :
  pump_ok p -> (e = WAITING -> evs = [] /\ up_open p || down_open p = true) ->
  (forall r, e = RETURNED r -> (r = 0 /\ up_open p || down_open p = false) \/ r = -1) ->
  pump_run p evs e p.
Proof.
  intros Hp Hw Hr. split.
  - exists []. rewrite app_nil_r. split; [done|]. apply read_over_none. intros ->. by apply Hw.
  - exists []. rewrite app_nil_r. split; [done|]. apply read_over_none. intros ->. by apply Hw.
  - intros H. unfold client_first_from. destruct (up_open p) eqn:Eu; [|done].
    rewrite (po_eof _ Hp Eu). destruct H as [->|H]; [by rewrite (proj1 (Hw eq_refl)), andb_false_r|].
    cbn [andb] in H. by rewrite H.
  - destruct e as [|r]; [by split; [|apply Hw]|left]. split; [done|]. by apply Hr.
Qed.

(** One poll that goes on, in front of a run. *)
Lemma pump_run_step p p2 p' (ev : poll_event) evs e :
  up_in p2 = up_in p ++ read_if (up_open p) (client_side ev) ->
  up_open p2 = up_open p && negb (transfer_eof (client_side ev)) ->
  down_in p2 = down_in p ++ read_if (down_open p) (upstream_side ev) ->
  down_open p2 = down_open p && negb (transfer_eof (upstream_side ev)) ->
  client_eof_first (p_stats p2) =
    (if up_open p then transfer_eof (client_side ev) && down_open p
     else client_eof_first (p_stats p)) ->
  pump_run p2 evs e p' -> pump_run p (ev :: evs) e p'.
Proof.
  intros Eu Ou Ed Od Ef [(u & Eu' & Hu) (d & Ed' & Hd) Hf Hend]. split; [| | |done].
  - eexists. rewrite Eu', Eu, <- app_assoc. split; [done|]. by eapply read_over_cons.
  - eexists. rewrite Ed', Ed, <- app_assoc. split; [done|]. by eapply read_over_cons.
  - intros H. rewrite (Hf H). unfold client_first_from. rewrite Ou, Od, Ef. cbn [client_first].
    by destruct (up_open p), (down_open p), (transfer_eof (client_side ev)),
      (transfer_eof (upstream_side ev)); cbn [andb negb orb]; rewrite ?andb_false_r.
Qed.

(** A poll after which the pump gives its connection away. *)
Lemma pump_run_fail p p' (ev : poll_event) evs u d :
  pump_broken p' -> up_in p' = up_in p ++ u -> down_in p' = down_in p ++ d ->
  read_over client_side (ev :: evs) (RETURNED 0) (up_open p) (up_open p') u ->
  read_over upstream_side (ev :: evs) (RETURNED 0) (down_open p) (down_open p') d ->
  (up_open p' && down_open p' = false ->
   client_eof_first (p_stats p') = client_first_from p (ev :: evs)) ->
  pump_run p (ev :: evs) (RETURNED 0) p'.
Proof. intros Hb Eu Ed Hu Hd Hf. split; [eauto..| |by right]. by intros [?|?]; [|apply Hf]. Qed.

Lemma relay_pump_spec evs p :
  pump_ok p -> let '(e, p') := relay_pump_timeout evs p in pump_run p evs e p'.
Proof.
  revert p. induction evs as [|ev evs IH]; intros p Hp; cbn [relay_pump_timeout].
  { destruct (up_open p || down_open p) eqn:E; cbn [negb]; apply pump_run_stop; try done.
    intros r [= <-]. by left. }
  destruct (up_open p || down_open p) eqn:E; cbn [negb].
  2: { apply pump_run_stop; [done..|]. intros r [= <-]. by left. }
  destruct ev as [| | |cx ux]; [|by apply pump_run_stop; [done|done|intros r [= <-]; right]..|].
  { specialize (IH p Hp). destruct (relay_pump_timeout evs p) as [e p']. revert IH.
    pose proof (po_eof _ Hp). by apply pump_run_step; cbn [client_side upstream_side transfer_eof];
      destruct (up_open p), (down_open p); cbn; rewrite ?app_nil_r; auto. }
  pose proof (pump_client_spec p cx Hp) as Hc. destruct (pump_client p cx) as [p1|p1].
  2: { destruct Hc as (Hb & Ho & Ho' & He & Ef & Edn & Edo & Eup).
       apply (pump_run_fail _ _ _ _ (transfer_data cx) []); try done.
       - by rewrite app_nil_r.
       - rewrite Ho, Ho'. apply (read_over_last client_side (POLL_READY cx ux)); [done|].
         cbn [client_side]. by rewrite He.
       - rewrite Edo. by apply read_over_none.
       - rewrite Ho'. cbn [andb]. intros Hd. unfold client_first_from. rewrite Ho, <- Edo, Hd, Ef.
         by apply po_eof. }
  destruct Hc as (Hp1 & Edn & Edo & Eup & Euo & Ef).
  pose proof (pump_upstream_spec p1 ux Hp1) as Hu. destruct (pump_upstream p1 ux) as [p2|p2].
  2: { destruct Hu as (Hb & Ho & Ho' & He & Ef2 & Eup2 & Euo2 & Edn2).
       apply (pump_run_fail _ _ _ _ (read_if (up_open p) cx) (transfer_data ux)); try done.
       - by rewrite Eup2.
       - by rewrite Edn2, Edn.
       - by apply (read_over_last client_side (POLL_READY cx ux)); [|rewrite Euo2].
       - rewrite <- Edo, Ho, Ho'. apply (read_over_last upstream_side (POLL_READY cx ux)); [done|].
         cbn [upstream_side]. by rewrite He.
       - rewrite Ho', Euo2, andb_true_r, Euo, Ef2, Ef. unfold client_first_from.
         cbn [client_first client_side]. rewrite <- Edo, Ho.
         by destruct (up_open p), (transfer_eof cx). }
  destruct Hu as (Hp2 & Eup2 & Euo2 & Edn2 & Edo2 & Ef2).
  specialize (IH p2 Hp2). destruct (relay_pump_timeout evs p2) as [e p']. revert IH.
  apply pump_run_step; cbn [client_side upstream_side]; congruence.
Qed.

(** C36: the relay delivers what it reads. For every sequence of events, at
    any moment: each side has been sent exactly the bytes read from the other,
    in order, and these are the first bytes that side sent, all of them up to
    its end of file while the pump waits or once the direction is closed; a
    direction is closed exactly when its side has finished; the byte counters
    count what was moved; a write side is shut down exactly when the other
    side has finished, so after its last byte; the client counts as the first
    to close exactly when its end of file came no later than upstream's. The
    pump returns when both directions are finished, when polling fails or
    times out, or when a read or write fails; then at most one chunk of one
    direction is cut short, and the client is reset exactly when reading from
    upstream failed. *)
Theorem relay_pump_correct evs :
  let '(e, p) := relay_pump evs in
  read_over client_side evs e true (up_open p) (up_in p) /\
  read_over upstream_side evs e true (down_open p) (down_in p) /\
  (e = WAITING \/ up_open p && down_open p = false ->
   client_eof_first (p_stats p) = client_first evs) /\
  match e with
  | WAITING => pump_ok p /\ up_open p || down_open p = true
  | RETURNED r =>
      (pump_ok p /\ ((r = 0 /\ up_open p || down_open p = false) \/ r = -1)) \/
      (r = 0 /\ pump_broken p)
  end.
Proof.
  assert (Hi : pump_ok pump_init) by (by split).
  pose proof (relay_pump_spec evs pump_init Hi) as H. unfold relay_pump.
  destruct (relay_pump_timeout evs pump_init) as [e p].
  destruct H as [(u & Eu & Hu) (d & Ed & Hd) Hf Hend]. cbn [pump_init up_in down_in app] in Eu, Ed.
  subst u d. done.
Qed.

(** ** The first write and the relay together *)

Lemma send_first_tls_wp buffer :
  bytes_ok buffer -> wp (send_first_tls buffer) (fun ws => concat ws = buffer) (fun _ => False).
Proof.
  intros Hb. unfold send_first_tls, tls_find_sni_split_z. apply wp_bind.
  pose proof (tls_find_sni_split_wp buffer Hb) as W.
  assert (Hcut : forall split : Z, wp (if (split <=? 0) || (zlen buffer <=? split) then Ok [buffer] else
    a ← slice buffer 0 split; b ← slice buffer split (zlen buffer - split); Ok [a; b])
    (fun ws => concat ws = buffer) (fun _ : unit => False)).
  { intros split. apply wp_if; intros Hc; [apply wp_ok; cbn; by rewrite app_nil_r|]. zbool.
    do 2 (apply wp_bind, wp_slice; [lia|]). apply wp_ok. cbn [concat]. rewrite app_nil_r.
    pose proof (bsub_app_split buffer 0 split (zlen buffer - split)) as E. rewrite Z.add_0_l in E.
    rewrite E by lia. replace (split + (zlen buffer - split)) with (zlen buffer) by lia. apply bsub_all. }
  destruct (tls_find_sni_split buffer) as [q|e|]; [| |done]; apply wp_ok, Hcut.
Qed.

(** The bytes of the first write in each mode. *)
Definition first_write (mode : split_mode) (buffer : list Z) (size : Z) (pre : list Z) : Prop :=
  match mode with
  | RELAY_SPLIT_TLS_RECORD | RELAY_SPLIT_TLS_RECORD_TCP =>
      exists at_, cut_point buffer at_ /\
        ((fragmentable_record buffer at_ size /\ pre = two_records buffer at_) \/
         (~ fragmentable_record buffer at_ size /\ pre = buffer))
  | _ => pre = buffer
  end.

Lemma in_two_bytes cut mode buffer size ws :
  mode = RELAY_SPLIT_TLS_RECORD \/ mode = RELAY_SPLIT_TLS_RECORD_TCP ->
  in_two cut buffer size ws -> first_write mode buffer size (concat ws).
Proof.
  intros Hm (at_ & Hat & H).
  assert (Hw : (fragmentable_record buffer at_ size /\ concat ws = two_records buffer at_) \/
    (~ fragmentable_record buffer at_ size /\ concat ws = buffer)).
  { destruct H as [[Hf ->]|[Hf ->]]; [left|right]; (split; [done|]); cbn [concat]; rewrite app_nil_r; [|done].
    apply bsub_bfrom_split. }
  destruct Hm as [-> | ->]; by exists at_.
Qed.

Lemma relay_send_first_mode_wp buffer out mode :
  bytes_ok buffer ->
  wp (relay_send_first buffer out mode)
    (fun ws => first_write mode buffer (zlen out) (concat ws)) (fun _ => False).
Proof.
  intros Hb. destruct mode; cbn [relay_send_first].
  - apply wp_ok. cbn. by rewrite app_nil_r.
  - by apply send_first_tls_wp.
  - eapply wp_mono; [| |by apply (relay_send_first_wp buffer out STRATEGY_TLSREC)]; [|done].
    intros ws H. eapply in_two_bytes; [by left|exact H].
  - eapply wp_mono; [| |by apply (relay_send_first_wp buffer out STRATEGY_TLSREC_SPLIT)]; [|done].
    intros ws H. eapply in_two_bytes; [by right|exact H].
Qed.

Lemma send_writes_spec sends k ws :
  let '(ok, o) := send_writes sends k ws in
  o `prefix_of` concat ws /\ (ok = true -> o = concat ws).
Proof.
  revert k. induction ws as [|w ws IH]; intros k; [done|]. cbn [send_writes concat].
  pose proof (relay_send_all_spec (sends k) w) as Hs. destruct (relay_send_all (sends k) w) as [[|] o].
  - destruct Hs as [_ Ho]. rewrite (Ho eq_refl). specialize (IH (S k)).
    destruct (send_writes sends (S k) ws) as [ok o']. destruct IH as [Hp Hok].
    split; [by apply prefix_app|]. intros E. by rewrite Hok.
  - destruct Hs as [Hp _]. split; [by apply prefix_app_r|done].
Qed.

(** What a relayed SOCKS connection has done: what went upstream first, then
    the pump, or nothing more when something failed before. *)
Definition relayed (mode : split_mode) (buffer : list Z) (size : Z) (evs : list poll_event)
    (x : pump_end * list Z * pump) : Prop :=
  let '(e, pre, p) := x in
  exists w, pre `prefix_of` w /\ (w = [] \/ first_write mode buffer size w) /\
    ((pre = w /\ (e, p) = relay_pump evs) \/ (p = pump_init /\ exists r, e = RETURNED r)).

Lemma relay_connection_wp mode ready first sends out evs :
  (forall d, RX_DATA d ∈ first -> bytes_ok d) ->
  wp (relay_connection mode ready first sends out evs)
    (relayed mode (first_read first) (zlen out) evs) (fun _ => False).
Proof.
  intros Hf. assert (Hb : bytes_ok (first_read first)).
  { induction first as [|[d| |] first IH]; cbn [first_read]; try (by constructor).
    - apply bytes_ok_bsub, Hf. by left.
    - apply IH. intros d Hd. apply Hf. by right. }
  unfold relay_connection. cbv zeta. destruct (relay_pump evs) as [e p] eqn:Ep.
  set (Q := relayed mode (first_read first) (zlen out) evs).
  assert (Hpump : forall w, (w = [] \/ first_write mode (first_read first) (zlen out) w) ->
    wp (Ok (e, w, p)) Q (fun _ : unit => False)).
  { intros w Hw. apply wp_ok. exists w. split; [done|]. split; [done|]. by left. }
  assert (Hquit : forall r pre w, pre `prefix_of` w ->
    (w = [] \/ first_write mode (first_read first) (zlen out) w) ->
    wp (Ok (RETURNED r, pre, pump_init)) Q (fun _ : unit => False)).
  { intros r pre w Hp Hw. apply wp_ok. exists w. split; [done|]. split; [done|]. right. eauto. }
  assert (Hsend : wp (if zlen (first_read first) <=? 0 then Ok (RETURNED 0, [], pump_init) else
      ws ← relay_send_first (first_read first) out mode;
      let '(ok, pre) := send_writes sends 0 ws in
      if (ok : bool) then Ok (e, pre, p) else Ok (RETURNED (-1), pre, pump_init))
      Q (fun _ : unit => False)).
  { apply wp_if; intros _; [apply (Hquit 0 [] []); [done|by left]|]. apply wp_bind.
    eapply wp_mono; [| |by apply relay_send_first_mode_wp]; [|done]. intros ws Hws.
    pose proof (send_writes_spec sends 0 ws) as Hs. destruct (send_writes sends 0 ws) as [[|] pre];
      destruct Hs as [Hp Ho].
    - apply Hpump. right. by rewrite Ho.
    - apply (Hquit (-1) pre (concat ws)); [done|by right]. }
  destruct mode; [apply Hpump; by left|
    destruct ready as [[|]|]; [exact Hsend|apply Hpump; by left|apply (Hquit (-1) [] []); [done|by left]]..].
Qed.
