(* ===== verification/Session.v ===== *)
(** * Outgoing connections and TLS sessions

    Connecting a socket ([src/transparent/net.c], the sockets of
    [src/dns/dns_doh.c], [src/upstream.c]), the TLS client
    ([src/tlsclient.c]) and its two users: the certificate verifier
    ([src/transparent/verify.c]) and the connections to DNS-over-HTTPS servers.
    OpenSSL is an interface ([openssl]): its engine works on two memory BIOs,
    which are byte queues here. What the system answers is given per call. *)

From stdpp Require Import base list numbers strings option relations.
From Stdlib Require Import ZArith Lia.
From S2P Require Import Prelude Packet Tls Strategy Discovery Socket Relay.

(** ** Connecting *)

(** [connect] on a non-blocking socket: done, [EINPROGRESS], the local port or
    4-tuple is in use, or another error. *)
Inductive connect_ret := CONN_OK | CONN_PENDING | CONN_BUSY | CONN_REFUSED.

(** [compat_wait]: a poll that is interrupted is repeated; past the list it
    fails. *)
Fixpoint compat_wait (polls : list (option Z)) : Z :=
  match polls with
  | [] => -1
  | None :: polls => compat_wait polls
  | Some rc :: _ => rc
  end.

(** What the system does for one try; [ct_now] is the clock before the wait. *)
Record conn_try := mk_ctry {
  ct_socket : bool;
  ct_prepare : bool;
  ct_connect : connect_ret;
  ct_now : Z;
  ct_polls : list (option Z);
  ct_so_error : Z
}.

Inductive sock_act := S_OPEN | S_PREPARE (ok : bool) | S_CONNECT | S_CLOSE.
(** A descriptor, -2 and -1. *)
Inductive conn_fd := FD_OPEN | FD_BUSY | FD_FAILED.

(** [try_connect] once the socket may wait ([connect_fd] asks the clock in
    between). *)
Definition connect_with (may_wait : bool) (t : conn_try) : list sock_act * conn_fd :=
  if negb (ct_socket t) then ([], FD_FAILED) else
  if negb (ct_prepare t) then ([S_OPEN; S_PREPARE false; S_CLOSE], FD_FAILED) else
  let up := [S_OPEN; S_PREPARE true; S_CONNECT] in
  match ct_connect t with
  | CONN_BUSY => (up ++ [S_CLOSE], FD_BUSY)
  | CONN_REFUSED => (up ++ [S_CLOSE], FD_FAILED)
  | CONN_OK | CONN_PENDING =>
      if negb may_wait || (compat_wait (ct_polls t) <=? 0) || negb (ct_so_error t =? 0) then (up ++ [S_CLOSE], FD_FAILED)
      else (up, FD_OPEN)
  end.

Definition try_connect (t : conn_try) : list sock_act * conn_fd := connect_with true t.
Definition connect_fd (deadline : Z) (t : conn_try) : list sock_act * conn_fd :=
  connect_with (0 <? deadline - ct_now t) t.

(** [do ... while (fd == -2 && ++tries < 8)] *)
Fixpoint retry_busy (left : nat) (attempt : conn_try -> list sock_act * conn_fd) (tries : nat -> conn_try)
  : list sock_act * bool :=
  let '(acts, fd) := attempt (tries O) in
  match fd, left with
  | FD_BUSY, S (S left' as left1) =>
      let '(acts', ok) := retry_busy left1 attempt (fun n => tries (S n)) in (acts ++ acts', ok)
  | FD_OPEN, _ => (acts, true)
  | _, _ => (acts, false)
  end.

Definition tpd_connect (tries : nat -> conn_try) : list sock_act * bool := retry_busy 8 try_connect tries.

(** [connect_upstream]: the first address of the list that accepts; [None] is
    an address for which there is no socket. *)
Fixpoint connect_upstream (addrs : list (option bool)) : list sock_act * bool :=
  match addrs with
  | [] => ([], false)
  | None :: addrs => connect_upstream addrs
  | Some true :: _ => ([S_OPEN; S_CONNECT], true)
  | Some false :: addrs =>
      let '(acts, ok) := connect_upstream addrs in ([S_OPEN; S_CONNECT; S_CLOSE] ++ acts, ok)
  end.

(** ** The TLS client *)

Inductive hs_ret := HS_DONE | HS_WANT_READ | HS_FAILED.
Inductive wr_ret := WR_DONE (n : Z) | WR_WANT_READ | WR_FAILED.
Inductive rd_ret := RD_DATA (d : list Z) | RD_WANT_READ | RD_FAILED.

(** The SSL object of a host. Each call sees the bytes of the read BIO and
    gives its new state, the bytes it leaves there, the bytes it appends to the
    write BIO and its outcome. *)
Class openssl := {
  os : Type;
  os_new : list Z -> option os;
  os_handshake : os -> list Z -> os * list Z * list Z * hs_ret;
  os_write : list Z -> os -> list Z -> os * list Z * list Z * wr_ret;
  os_read : Z -> os -> list Z -> os * list Z * list Z * rd_ret;
  os_verify_ok : os -> bool;
  os_peer_certificate : os -> bool
}.

Inductive tlsc_result := TLSC_OK | TLSC_BAD_CERT | TLSC_FAILED.

Definition tlsc_result_name (r : tlsc_result) : list Z :=
  match r with
  | TLSC_OK => str "verified"
  | TLSC_BAD_CERT => str "certificate-invalid"
  | TLSC_FAILED => str "no-handshake"
  end.

(** The client context: the lowest protocol version and the ALPN list. *)
Record ssl_ctx := mk_sslctx { cx_min_version : Z; cx_alpn : option (list Z) }.
Definition TLS1_2_VERSION : Z := 0x0303.

(** [made]: SSL_CTX_new; [roots]: the system's trust store could be loaded. *)
Definition tlsc_ctx_new (made roots : bool) (alpn : option (list Z)) : option ssl_ctx :=
  if negb made then None else
  if negb roots then None else
  let wire := match alpn with
              | Some a => if (0 <? zlen a) && (zlen a <? 64 - 1) then Some (u8 (zlen a) :: a) else None
              | None => None
              end in
  Some (mk_sslctx TLS1_2_VERSION wire).

(** What the system does while the client sends and then waits for the peer. *)
Record flush_env := mk_fenv { fe_sends : nat -> nat -> list tx_event; fe_out : list Z }.
Record feed_env := mk_feed { fi_now : Z; fi_polls : list (option Z); fi_recv : list rx_event; fi_bio : bool }.
Record round := mk_rnd { rd_flush : flush_env; rd_feed : feed_env }.

Section tlsc.
Context {SSL : openssl}.

(** [t_sent], [t_made] and [t_fed] are the bytes sent on the socket, made by
    OpenSSL and given to it so far, [t_plain] what was written to the session. *)
Record tlsc := mk_tlsc {
  t_ssl : os;
  t_rbio : list Z;
  t_wbio : list Z;
  t_sent : list Z;
  t_made : list Z;
  t_fed : list Z;
  t_plain : list Z
}.

(** The state after OpenSSL took from one BIO and wrote to the other. *)
Definition stepped (t : tlsc) (s : os) (rbio made : list Z) : tlsc :=
  mk_tlsc s rbio (t_wbio t ++ made) (t_sent t) (t_made t ++ made) (t_fed t) (t_plain t).

(** The loop of [flush_out], with fuel for the chunks left. *)
Fixpoint flush_loop (fuel k : nat) (env : flush_env) (split : split_mode) (t : tlsc) : res unit (tlsc * bool) :=
  match t_wbio t, fuel with
  | [], _ => Ok (t, true)
  | _, O => Fault
  | _, S fuel =>
      ws ← relay_send_first (bsub (t_wbio t) 0 16384) (fe_out env) split;
      let '(ok, out) := send_writes (fe_sends env k) 0 ws in
      let t := mk_tlsc (t_ssl t) (t_rbio t) (bfrom (t_wbio t) 16384) (t_sent t ++ out) (t_made t) (t_fed t) (t_plain t) in
      if (ok : bool) then flush_loop fuel (S k) env RELAY_SPLIT_NONE t else Ok (t, false)
  end.
Definition flush_out (env : flush_env) (split : split_mode) (t : tlsc) : res unit (tlsc * bool) :=
  flush_loop (length (t_wbio t)) 0 env split t.

Definition feed_in (f : feed_env) (deadline : Z) (t : tlsc) : tlsc * bool :=
  let left := deadline - fi_now f in
  if (left <=? 0) || (compat_wait (fi_polls f) <=? 0) then (t, false) else
  let buf := first_read (fi_recv f) in
  if zlen buf <=? 0 then (t, false) else
  if fi_bio f
  then (mk_tlsc (t_ssl t) (t_rbio t ++ buf) (t_wbio t) (t_sent t) (t_made t) (t_fed t ++ buf) (t_plain t), true)
  else (t, false).

(** [flush_out(...) != 0 || feed_in(...) != 0], negated. *)
Definition exchange (r : round) (split : split_mode) (deadline : Z) (t : tlsc) : res unit (tlsc * bool) :=
  '(t, ok) ← flush_out (rd_flush r) split t;
  if (ok : bool) then Ok (feed_in (rd_feed r) deadline t) else Ok (t, false).

(** The handshake loop: [Some true] is done, [Some false] failed, [None] waits
    for a round that has not come. *)
Fixpoint handshake_loop (rounds : list round) (split : split_mode) (deadline : Z) (t : tlsc)
  : res unit (tlsc * option bool) :=
  let '(s, rbio, made, ret) := os_handshake (t_ssl t) (t_rbio t) in
  let t := stepped t s rbio made in
  match ret with
  | HS_DONE => Ok (t, Some true)
  | HS_FAILED => Ok (t, Some false)
  | HS_WANT_READ =>
      match rounds with
      | [] => Ok (t, None)
      | r :: rounds =>
          '(t, ok) ← exchange r split deadline t;
          if (ok : bool) then handshake_loop rounds RELAY_SPLIT_NONE deadline t else Ok (t, Some false)
      end
  end.

(** How [tlsc_handshake] ended: the session (closed, with its socket, when
    [None]) and [*result]. *)
Inductive handshake_end := HS_WAITING (t : tlsc) | HS_END (session : option tlsc) (result : tlsc_result).

(** [alloc]: calloc; [bios]: the two BIOs. *)
Definition tlsc_handshake (alloc bios : bool) (host : list Z) (split : split_mode) (deadline : Z)
    (require_valid : bool) (rounds : list round) (last : flush_env) : res unit handshake_end :=
  if negb alloc then Ok (HS_END None TLSC_FAILED) else
  match os_new host with
  | None => Ok (HS_END None TLSC_FAILED)
  | Some s =>
      if negb bios then Ok (HS_END None TLSC_FAILED) else
      '(t, done) ← handshake_loop rounds split deadline (mk_tlsc s [] [] [] [] [] []);
      match done with
      | None => Ok (HS_WAITING t)
      | Some false => Ok (HS_END None TLSC_FAILED)
      | Some true =>
          '(t, ok) ← flush_out last RELAY_SPLIT_NONE t;
          if negb ok then Ok (HS_END None TLSC_FAILED) else
          let result := if os_verify_ok (t_ssl t) && os_peer_certificate (t_ssl t) then TLSC_OK else TLSC_BAD_CERT in
          match result with
          | TLSC_OK => Ok (HS_END (Some t) result)
          | _ => Ok (HS_END (if require_valid then None else Some t) result)
          end
      end
  end.

(** [tlsc_write]; each turn of the loop takes a round, used when OpenSSL wants
    to read. *)
Fixpoint tlsc_write (rounds : list round) (last : flush_env) (deadline : Z) (buf : list Z) (t : tlsc)
  : res unit (tlsc * option bool) :=
  if zlen buf <=? 0 then
    '(t, ok) ← flush_out last RELAY_SPLIT_NONE t; Ok (t, Some ok)
  else
  let '(s, rbio, made, ret) := os_write buf (t_ssl t) (t_rbio t) in
  let t := stepped t s rbio made in
  match ret, rounds with
  | WR_FAILED, _ => Ok (t, Some false)
  | _, [] => Ok (t, None)
  | WR_DONE n, _ :: rounds =>
      tlsc_write rounds last deadline (bfrom buf n)
        (mk_tlsc (t_ssl t) (t_rbio t) (t_wbio t) (t_sent t) (t_made t) (t_fed t) (t_plain t ++ bsub buf 0 n))
  | WR_WANT_READ, r :: rounds =>
      '(t, ok) ← exchange r RELAY_SPLIT_NONE deadline t;
      if (ok : bool) then tlsc_write rounds last deadline buf t else Ok (t, Some false)
  end.

(** [tlsc_read]: [Some None] is -1. *)
Fixpoint tlsc_read (rounds : list round) (deadline size : Z) (t : tlsc)
  : res unit (tlsc * option (option (list Z))) :=
  let '(s, rbio, made, ret) := os_read size (t_ssl t) (t_rbio t) in
  let t := stepped t s rbio made in
  match ret, rounds with
  | RD_DATA d, _ => Ok (t, Some (Some d))
  | RD_FAILED, _ => Ok (t, Some None)
  | RD_WANT_READ, [] => Ok (t, None)
  | RD_WANT_READ, r :: rounds =>
      '(t, ok) ← exchange r RELAY_SPLIT_NONE deadline t;
      if (ok : bool) then tlsc_read rounds deadline size t else Ok (t, Some None)
  end.

(** ** Its users *)

Definition VERIFY_TIMEOUT_MS : Z := 8000.

(** The system during one verification. *)
Record session_env := mk_senv {
  se_tries : nat -> conn_try;
  se_now : Z;
  se_alloc : bool;
  se_bios : bool;
  se_rounds : list round;
  se_last : flush_env
}.

(** [None]: still in the handshake. *)
Definition verify_job (env : session_env) (host : list Z) (s : strategy)
  : res unit (list sock_act * option probe_result) :=
  let '(acts, ok) := tpd_connect (se_tries env) in
  if negb ok then Ok (acts, Some PROBE_TIMEOUT) else
  hs ← tlsc_handshake (se_alloc env) (se_bios env) host (relay_split_for s) (se_now env + VERIFY_TIMEOUT_MS)
         false (se_rounds env) (se_last env);
  match hs with
  | HS_WAITING _ => Ok (acts, None)
  | HS_END _ result =>
      Ok (acts ++ [S_CLOSE],
          Some (match result with TLSC_OK => PROBE_SUCCESS | TLSC_BAD_CERT => PROBE_REMOTE_REJECTED | TLSC_FAILED => PROBE_TIMEOUT end))
  end.

(** A connection to a DNS-over-HTTPS server: the session, or none. [calloc] is
    that of the connection. *)
Inductive open_end := OPENING (t : tlsc) | OPENED (t : tlsc) | NOT_OPENED.

Definition conn_open (env : session_env) (calloc : bool) (host : list Z) (split : split_mode) (deadline : Z)
  : res unit (list sock_act * open_end) :=
  let '(acts, ok) := retry_busy 8 (connect_fd deadline) (se_tries env) in
  if negb ok then Ok (acts, NOT_OPENED) else
  if negb calloc then Ok (acts ++ [S_CLOSE], NOT_OPENED) else
  hs ← tlsc_handshake (se_alloc env) (se_bios env) host split deadline true (se_rounds env) (se_last env);
  match hs with
  | HS_WAITING t => Ok (acts, OPENING t)
  | HS_END (Some t) _ => Ok (acts, OPENED t)
  | HS_END None _ => Ok (acts ++ [S_CLOSE], NOT_OPENED)
  end.
End tlsc.

(** ** Sockets *)

(** The life of a socket: [None] there is none, [Some p] one that is prepared
    or not. [None] outside: a step that must not happen, such as connecting a
    socket that has not been prepared. *)
Fixpoint sock_run (st : option bool) (acts : list sock_act) : option (option bool) :=
  match acts with
  | [] => Some st
  | a :: acts =>
      match a, st with
      | S_OPEN, None => sock_run (Some false) acts
      | S_PREPARE ok, Some _ => sock_run (Some ok) acts
      | S_CONNECT, Some true => sock_run st acts
      | S_CLOSE, Some _ => sock_run None acts
      | _, _ => None
      end
  end.
Definition opens (acts : list sock_act) : nat :=
  length (List.filter (fun a => match a with S_OPEN => true | _ => false end) acts).

Lemma sock_run_app st a b : sock_run st (a ++ b) = sock_run st a ≫= fun st => sock_run st b.
Proof.
  revert st. induction a as [|x a IH]; intros st; [done|]. cbn [app sock_run].
  destruct x, st as [[|]|]; try done; apply IH.
Qed.

Lemma connect_with_run may_wait t :
  let '(acts, fd) := connect_with may_wait t in
  sock_run None acts = Some (match fd with FD_OPEN => Some true | _ => None end) /\ (opens acts <= 1)%nat.
Proof.
  unfold connect_with. destruct (negb (ct_socket t)); [split; [done|cbn; lia]|].
  destruct (negb (ct_prepare t)); [by split|]. cbv zeta.
  set (late := negb may_wait || _ || _). clearbody late.
  destruct (ct_connect t), late; by split.
Qed.

Lemma retry_busy_run left attempt tries :
  (forall t, let '(acts, fd) := attempt t in
     sock_run None acts = Some (match fd with FD_OPEN => Some true | _ => None end) /\ (opens acts <= 1)%nat) ->
  (0 < left)%nat ->
  let '(acts, ok) := retry_busy left attempt tries in
  sock_run None acts = Some (if (ok : bool) then Some true else None) /\ (opens acts <= left)%nat.
Proof.
  intros Ha. revert tries. induction left as [|left IH]; intros tries Hl; [lia|]. cbn [retry_busy].
  specialize (Ha (tries O)) as H1. destruct (attempt (tries O)) as [acts fd]. destruct H1 as [H1 H2].
  destruct fd; [split; [done|lia]| |split; [done|lia]].
  destruct left as [|left]; [split; [done|lia]|].
  specialize (IH (fun n => tries (S n)) ltac:(lia)). destruct (retry_busy _ _ _) as [acts' ok]. destruct IH as [H3 H4].
  split; [by rewrite sock_run_app, H1|]. unfold opens in *. rewrite List.filter_app, length_app. lia.
Qed.

Definition closes (acts : list sock_act) : nat :=
  length (List.filter (fun a => match a with S_CLOSE => true | _ => false end) acts).

(** Every socket but the one that connected is closed again. *)
Lemma connect_upstream_spec addrs :
  let '(acts, ok) := connect_upstream addrs in
  ok = existsb (fun a => match a with Some b => b | None => false end) addrs /\
  opens acts = (closes acts + if ok then 1 else 0)%nat.
Proof.
  induction addrs as [|[[|]|] addrs IH]; cbn [connect_upstream existsb orb]; [done|done| |exact IH].
  destruct (connect_upstream addrs) as [acts ok]. destruct IH as [-> IH]. split; [done|].
  unfold opens, closes in *. cbn [app List.filter length]. by rewrite IH.
Qed.

(** ** What OpenSSL documents *)

(** Its output is bytes; a successful write took part of the buffer, a
    successful read gives at most [size] bytes, and at least one. *)
Class openssl_laws (SSL : openssl) : Prop := {
  law_hs_bytes : forall s rbio, bytes_ok (os_handshake s rbio).1.2;
  law_wr_bytes : forall buf s rbio, bytes_ok (os_write buf s rbio).1.2;
  law_rd_bytes : forall size s rbio, bytes_ok (os_read size s rbio).1.2;
  law_wr_len : forall buf s rbio n, (os_write buf s rbio).2 = WR_DONE n -> 0 < n <= zlen buf;
  law_rd_len : forall size s rbio d, (os_read size s rbio).2 = RD_DATA d -> 0 < zlen d <= size
}.

Section sessions.
Context {SSL : openssl} {HSSL : openssl_laws SSL}.

(** What went out, against what OpenSSL made: all of it as it is; or the first
    16384 bytes of the first [flight] in their form, the rest as it is. *)
Definition in_form (split : split_mode) (flight : list Z) (size : Z) (made sent : list Z) : Prop :=
  exists pre rest, made = flight ++ rest /\ first_write split (bsub flight 0 16384) size pre /\
    sent = pre ++ bfrom flight 16384 ++ rest.

(** Nothing sent yet; or everything but the write BIO, in the form [form]. *)
Definition unsent (t : tlsc) : Prop := t_sent t = [] /\ t_made t = t_wbio t.
Definition flushed (form : list Z -> list Z -> Prop) (t : tlsc) : Prop :=
  exists out sent, t_made t = out ++ t_wbio t /\ t_sent t = sent /\ form out sent.
(** The part of the state that sending leaves alone. *)
Definition same_ssl (t t' : tlsc) : Prop :=
  t_ssl t' = t_ssl t /\ t_rbio t' = t_rbio t /\ t_made t' = t_made t /\ t_fed t' = t_fed t /\ t_plain t' = t_plain t.

(** A form in which more bytes go out as they are. *)
Definition open_form (form : list Z -> list Z -> Prop) : Prop :=
  forall made sent c, form made sent -> form (made ++ c) (sent ++ c).
Lemma open_eq : open_form eq.
Proof. by intros made sent c ->. Qed.
Lemma open_in_form split flight size : open_form (in_form split flight size).
Proof. intros made sent c (pre & rest & -> & H & ->). exists pre, (rest ++ c). by rewrite <- !app_assoc. Qed.

Lemma unsent_flushed t : unsent t -> flushed eq t.
Proof. intros [E1 E2]. exists [], []. by rewrite E1, E2. Qed.
Lemma flushed_stepped form t s rbio made : flushed form t -> flushed form (stepped t s rbio made).
Proof. intros (out & sent & E & H). exists out, sent. cbn. by rewrite E, app_assoc. Qed.
Lemma unsent_stepped t s rbio made : unsent t -> unsent (stepped t s rbio made).
Proof. intros [E1 E2]. split; cbn; [done|by rewrite E2]. Qed.

(** Pending bytes are handed over in pieces of at most 16384; the first one is
    written in the form of the mode. *)
Definition piece (k : nat) (pending : list Z) : list Z := bsub pending (16384 * Z.of_nat k) 16384.
Definition piece_mode (k : nat) (split : split_mode) : split_mode :=
  match k with O => split | _ => RELAY_SPLIT_NONE end.

(** Writing one of the pieces failed; the [k]-th one is the [k0 + k]-th of the
    flush. *)
Definition send_failed_from (k0 : nat) (env : flush_env) (split : split_mode) (pending : list Z) : Prop :=
  exists k ws, piece k pending <> [] /\
    relay_send_first (piece k pending) (fe_out env) (piece_mode k split) = Ok ws /\
    (send_writes (fe_sends env (k0 + k)) 0 ws).1 = false.
Definition send_failed : flush_env -> split_mode -> list Z -> Prop := send_failed_from 0.

Lemma cut_first (w : list Z) : w <> [] -> (length (bfrom w 16384) < length w)%nat.
Proof. intros H. unfold bfrom. rewrite length_drop. destruct w; [done|]. cbn [length]. lia. Qed.

Lemma piece_O pending : piece 0 pending = bsub pending 0 16384.
Proof. done. Qed.
Lemma piece_S k pending : piece (S k) pending = piece k (bfrom pending 16384).
Proof. unfold piece, bsub, bfrom. rewrite drop_drop. do 2 f_equal. lia. Qed.
Lemma piece_mode_none k : piece_mode k RELAY_SPLIT_NONE = RELAY_SPLIT_NONE.
Proof. by destruct k. Qed.

Lemma send_one sends (w : list Z) : let '(ok, out) := send_writes sends 0 [w] in ok = true -> out = w.
Proof.
  pose proof (send_writes_spec sends 0 [w]) as H. destruct (send_writes _ _ _) as [ok out]. destruct H as [_ H].
  intros E. rewrite (H E). apply app_nil_r.
Qed.

(** One turn of the loop. *)
Lemma flush_loop_turn fuel k env split t :
  t_wbio t <> [] ->
  flush_loop (S fuel) k env split t =
    (ws ← relay_send_first (bsub (t_wbio t) 0 16384) (fe_out env) split;
     let '(ok, out) := send_writes (fe_sends env k) 0 ws in
     let t := mk_tlsc (t_ssl t) (t_rbio t) (bfrom (t_wbio t) 16384) (t_sent t ++ out) (t_made t) (t_fed t) (t_plain t) in
     if (ok : bool) then flush_loop fuel (S k) env RELAY_SPLIT_NONE t else Ok (t, false)).
Proof. intros H. cbn [flush_loop]. by destruct (t_wbio t). Qed.

(** A flush fails exactly when writing one of its pieces does. *)
Lemma flush_loop_failed fuel k env split t t' ok :
  flush_loop fuel k env split t = Ok (t', ok) -> (ok = false <-> send_failed_from k env split (t_wbio t)).
Proof.
  revert k split t. induction fuel as [|fuel IH]; intros k split t H; destruct (t_wbio t) as [|x w] eqn:E.
  1, 3: cbn [flush_loop] in H; rewrite E in H; injection H as <- <-; split; [done|];
    intros (j & ws & Hp & _); exfalso; apply Hp; unfold piece, bsub; by rewrite drop_nil, take_nil.
  { cbn [flush_loop] in H. by rewrite E in H. }
  rewrite flush_loop_turn in H by (by rewrite E). rewrite E in H.
  destruct (relay_send_first (bsub (x :: w) 0 16384) _ _) as [ws|e|] eqn:Ef; [|done|done]. cbn [mbind res_bind] in H.
  destruct (send_writes (fe_sends env k) 0 ws) as [done_ out] eqn:Es. destruct done_.
  - apply IH in H. cbn [t_wbio] in H. rewrite H. clear H IH. split.
    + intros (j & ws' & Hp & Hw & Hs). exists (S j), ws'. rewrite piece_S, Nat.add_succ_r. cbn [piece_mode].
      by rewrite piece_mode_none in Hw.
    + intros ([|j] & ws' & Hp & Hw & Hs).
      * cbn [piece_mode] in Hw; rewrite piece_O, Ef in Hw. injection Hw as <-. by rewrite Nat.add_0_r, Es in Hs.
      * exists j, ws'. rewrite piece_S in Hp, Hw. rewrite piece_mode_none. by rewrite Nat.add_succ_r in Hs.
  - injection H as <- <-. split; [|done]. intros _. exists 0%nat, ws. rewrite Nat.add_0_r, Es. split; [|done].
    destruct w; done.
Qed.

Lemma flush_loop_plain fuel form k env t :
  open_form form -> (length (t_wbio t) <= fuel)%nat -> bytes_ok (t_wbio t) -> flushed form t ->
  exists t' ok, flush_loop fuel k env RELAY_SPLIT_NONE t = Ok (t', ok) /\ same_ssl t t' /\
    (if ok then t_wbio t' = [] /\ flushed form t' else True).
Proof.
  intros Hform. revert k t. induction fuel as [|fuel IH]; intros k t Hf Hb Hfl.
  { cbn [flush_loop]. destruct (t_wbio t) eqn:E; [|cbn in Hf; lia]. exists t, true. by split_and!. }
  destruct (decide (t_wbio t = [])) as [E|E].
  { cbn [flush_loop]. rewrite E. exists t, true. by split_and!. }
  rewrite flush_loop_turn by done. cbn [relay_send_first mbind res_bind].
  pose proof (send_one (fe_sends env k) (bsub (t_wbio t) 0 16384)) as Hs.
  destruct (send_writes _ _ _) as [ok out].
  destruct ok; [|eexists _, false; by split_and!]. rewrite (Hs eq_refl).
  destruct (IH (S k) (mk_tlsc (t_ssl t) (t_rbio t) (bfrom (t_wbio t) 16384) (t_sent t ++ bsub (t_wbio t) 0 16384)
    (t_made t) (t_fed t) (t_plain t))) as (t2 & ok & E2 & Hk & Hok); cbn [t_wbio].
  - apply Nat.lt_succ_r. by eapply Nat.lt_le_trans, Hf; apply cut_first.
  - auto with bytes.
  - destruct Hfl as (o & sent & Em & Es & Hf0). exists (o ++ bsub (t_wbio t) 0 16384), (sent ++ bsub (t_wbio t) 0 16384).
    cbn [t_made t_wbio t_sent]. rewrite Es. split; [by rewrite <- app_assoc, bsub_bfrom_split|]. split; [done|by apply Hform].
  - exists t2, ok. split; [exact E2|]. by split.
Qed.

Lemma flush_plain form env t :
  open_form form -> bytes_ok (t_wbio t) -> flushed form t ->
  exists t' ok, flush_out env RELAY_SPLIT_NONE t = Ok (t', ok) /\ same_ssl t t' /\
    (if ok then t_wbio t' = [] /\ flushed form t' else True).
Proof. intros. by apply flush_loop_plain. Qed.

Lemma cut_point_nil : cut_point [] 1.
Proof.
  right. split; [|done]. intros q n H. pose proof (sni_at_after [] q n ltac:(constructor) H).
  pose proof (sni_at_bounds [] q n ltac:(constructor) H) as [_ [_ Hq]]. change (zlen []) with 0 in Hq. lia.
Qed.

Lemma in_form_nil split size : in_form split [] size [] [].
Proof.
  exists [], []. split; [done|]. split; [|done]. change (bsub [] 0 16384) with (@nil Z).
  destruct split; try done; (exists 1; split; [apply cut_point_nil|]; right; split; [|done]); intros [H _]; by vm_compute in H.
Qed.

(** The first flight, in the form of its mode. *)
Lemma flush_first split env t :
  bytes_ok (t_wbio t) -> unsent t ->
  exists t' ok, flush_out env split t = Ok (t', ok) /\ same_ssl t t' /\
    (if ok then t_wbio t' = [] /\ flushed (in_form split (t_wbio t) (zlen (fe_out env))) t' else True).
Proof.
  intros Hb [Es Em]. unfold flush_out. destruct (t_wbio t) as [|x w] eqn:E.
  { cbn [length flush_loop]. rewrite E. exists t, true. split_and!; [done..|]. exists [], []. rewrite Em, Es, E.
    split_and!; [done..|apply in_form_nil]. }
  rewrite <- E. destruct (length (t_wbio t)) as [|fuel] eqn:Hf; [by rewrite E in Hf|]. cbn [flush_loop]. rewrite E. rewrite <- E in *.
  pose proof (relay_send_first_mode_wp (bsub (t_wbio t) 0 16384) (fe_out env) split ltac:(auto with bytes)) as W.
  destruct (relay_send_first _ _ _) as [ws| |]; [|done|done]. cbn [mbind res_bind wp] in *.
  pose proof (send_writes_spec (fe_sends env 0) 0 ws) as Hs.
  destruct (send_writes _ _ _) as [ok out].
  destruct Hs as [_ Hs]. destruct ok; [|eexists _, false; by split_and!]. rewrite (Hs eq_refl).
  set (t1 := mk_tlsc _ _ _ _ _ _ _).
  set (form := fun made sent : list Z => exists pre, made = bsub (t_wbio t) 0 16384 ++ pre /\ sent = concat ws ++ pre).
  destruct (flush_loop_plain fuel form 1 env t1) as (t2 & ok & E2 & Hk & Hok).
  - intros made sent c (pre & -> & ->). exists (pre ++ c). by rewrite <- !app_assoc.
  - unfold t1. cbn [t_wbio]. assert (Hw : t_wbio t <> []) by (by rewrite E). pose proof (cut_first _ Hw). lia.
  - unfold t1. cbn [t_wbio]. auto with bytes.
  - exists (bsub (t_wbio t) 0 16384), (concat ws). unfold t1. cbn [t_made t_wbio t_sent]. rewrite Em, Es, bsub_bfrom_split.
    split_and!; [done..|]. exists []. by rewrite !app_nil_r.
  - exists t2, ok. split; [exact E2|]. split; [exact Hk|]. destruct ok; [|done]. destruct Hok as [Ew (o & sn & Eo & Esn & pre & Ep & Ep')].
    split; [exact Ew|]. exists o, sn. split; [done|]. split; [done|].
    destruct Hk as (_ & _ & Hm & _). unfold t1 in Hm. cbn [t_made] in Hm. rewrite Ew, app_nil_r in Eo.
    exists (concat ws), []. rewrite app_nil_r. split; [congruence|]. split; [exact W|].
    assert (Epre : pre = bfrom (t_wbio t) 16384); [|by rewrite Ep', Epre, app_nil_r].
    apply (app_inv_head (bsub (t_wbio t) 0 16384)). rewrite bsub_bfrom_split. congruence.
Qed.

(** The bytes received in rounds. *)
Definition received (rounds : list round) : list Z :=
  concat (map (fun r => first_read (fi_recv (rd_feed r))) rounds).
Definition in_time (deadline : Z) (r : round) : Prop := fi_now (rd_feed r) < deadline.

(** A round in which something came, in time. *)
Definition answered (deadline : Z) (r : round) : Prop :=
  in_time deadline r /\ 0 < compat_wait (fi_polls (rd_feed r)) /\ first_read (fi_recv (rd_feed r)) <> [] /\
  fi_bio (rd_feed r) = true.

(** How the state stands between rounds: everything was sent but the write BIO,
    in its form. *)
Definition idle (form : list Z -> list Z -> Prop) (t : tlsc) : Prop := bytes_ok (t_wbio t) /\ flushed form t.

Lemma idle_stepped form t s rbio made : bytes_ok made -> idle form t -> idle form (stepped t s rbio made).
Proof. intros Hm [Hb H]. split; [cbn; auto with bytes|by apply flushed_stepped]. Qed.

(** What a round does: it succeeds when everything pending went out and an
    answer came in time, and not otherwise. *)
Definition exchanged (r : round) (form : list Z -> list Z -> Prop) (mode : split_mode) (deadline : Z) (t t' : tlsc)
    (ok : bool) : Prop :=
  t_plain t' = t_plain t /\ t_ssl t' = t_ssl t /\
  (if ok then (idle form t' /\ t_wbio t' = []) /\ answered deadline r /\ ~ send_failed (rd_flush r) mode (t_wbio t) /\
              t_fed t' = t_fed t ++ received [r] /\ t_rbio t' = t_rbio t ++ received [r]
   else t_fed t' = t_fed t /\ (send_failed (rd_flush r) mode (t_wbio t) \/ ~ answered deadline r)).

(** A round, after the flush of which [Hok] tells. *)
Lemma exchange_after r form mode deadline t t1 ok :
  flush_out (rd_flush r) mode t = Ok (t1, ok) -> same_ssl t t1 ->
  (if ok then t_wbio t1 = [] /\ flushed form t1 else True) ->
  exists t' ok', exchange r mode deadline t = Ok (t', ok') /\ exchanged r form mode deadline t t' ok'.
Proof.
  intros E (Es & Er & _ & Ef & Ep) Hok. unfold exchange, exchanged. pose proof (flush_loop_failed _ _ _ _ _ _ _ E) as Hsf.
  fold (send_failed (rd_flush r) mode (t_wbio t)) in Hsf. rewrite E. cbn [mbind res_bind].
  destruct ok; [|by exists t1, false; split_and!; [..|left; apply Hsf]]. destruct Hok as [Ew Hfl].
  assert (Hns : ~ send_failed (rd_flush r) mode (t_wbio t)) by (rewrite <- Hsf; done). clear Hsf.
  assert (Hno : ~ answered deadline r -> exists t' ok', (Ok (t1, false) : res unit (tlsc * bool)) = Ok (t', ok') /\
    exchanged r form mode deadline t t' ok')
    by (intros H; exists t1, false; split; [done|]; split_and!; [done..|by right]).
  unfold feed_in. cbv zeta. unfold exchanged in *. unfold answered, in_time in *.
  destruct (Z.leb_spec (deadline - fi_now (rd_feed r)) 0); cbn [orb]; [apply Hno; intros (? & _); lia|].
  destruct (Z.leb_spec (compat_wait (fi_polls (rd_feed r))) 0); [apply Hno; intros (_ & ? & _); lia|].
  destruct (Z.leb_spec (zlen (first_read (fi_recv (rd_feed r)))) 0) as [Hz|Hz];
    [apply Hno; intros (_ & _ & H' & _); by apply zlen_eq0 in Hz|].
  destruct (fi_bio (rd_feed r)); [|by apply Hno; intros (_ & _ & _ & ?)]. eexists _, true. split; [reflexivity|].
  cbn [t_plain t_fed t_ssl t_rbio t_wbio]. assert (Erc : received [r] = first_read (fi_recv (rd_feed r)))
    by (unfold received; cbn [map concat]; by rewrite app_nil_r).
  assert (Hne : first_read (fi_recv (rd_feed r)) <> []) by (intros E'; rewrite E' in Hz; done).
  rewrite Erc, Ef, Er. split; [done|]. split; [done|]. split; [split; [split; [|exact Hfl]|done]|].
  - cbn [t_wbio]. rewrite Ew. by constructor.
  - split; [|by split_and!]. split_and!; [lia|lia|done|done].
Qed.

Lemma exchange_ok r form deadline t :
  open_form form -> idle form t ->
  exists t' ok', exchange r RELAY_SPLIT_NONE deadline t = Ok (t', ok') /\ exchanged r form RELAY_SPLIT_NONE deadline t t' ok'.
Proof.
  intros Hform [Hb H]. destruct (flush_plain form (rd_flush r) t Hform Hb H) as (t1 & ok & E & Hs & Hok).
  by eapply exchange_after.
Qed.

(** Rounds that were gone through. *)
Definition fed_by (used : list round) (t t' : tlsc) : Prop :=
  t_fed t' = t_fed t ++ received used /\ t_plain t' = t_plain t.

Lemma fed_by_nil t : fed_by [] t t.
Proof. split; [by rewrite app_nil_r|done]. Qed.
Lemma fed_by_cons r used t1 t2 t3 :
  t_fed t2 = t_fed t1 ++ received [r] -> t_plain t2 = t_plain t1 -> fed_by used t2 t3 -> fed_by (r :: used) t1 t3.
Proof.
  intros E1 E2 [E3 E4]. split; [|congruence]. rewrite E3, E1, <- app_assoc. f_equal.
  unfold received. cbn [map concat]. by rewrite app_nil_r.
Qed.

(** How a handshake goes from the state [s] with [rbio] to read and the mode
    for what goes out next: OpenSSL completes or fails it, or asks for more.
    Then, in the next round, what it made could not all be sent, or nothing came
    in time, and the handshake is lost; or it goes on with what came; without a
    round it still waits. [H_DONE] has what OpenSSL made last. *)
Inductive hs_fate := H_DONE (s : os) (made : list Z) | H_LOST | H_WAITING.
Inductive hs_run (deadline : Z) : split_mode -> os -> list Z -> list round -> hs_fate -> Prop :=
| run_done split s rbio rounds s' rest made :
    os_handshake s rbio = (s', rest, made, HS_DONE) -> hs_run deadline split s rbio rounds (H_DONE s' made)
| run_failed split s rbio rounds s' rest made :
    os_handshake s rbio = (s', rest, made, HS_FAILED) -> hs_run deadline split s rbio rounds H_LOST
| run_wait split s rbio s' rest made :
    os_handshake s rbio = (s', rest, made, HS_WANT_READ) -> hs_run deadline split s rbio [] H_WAITING
| run_lost split s rbio r rounds s' rest made :
    os_handshake s rbio = (s', rest, made, HS_WANT_READ) ->
    send_failed (rd_flush r) split made \/ ~ answered deadline r -> hs_run deadline split s rbio (r :: rounds) H_LOST
| run_next split s rbio r rounds s' rest made f :
    os_handshake s rbio = (s', rest, made, HS_WANT_READ) -> ~ send_failed (rd_flush r) split made -> answered deadline r ->
    hs_run deadline RELAY_SPLIT_NONE s' (rest ++ received [r]) rounds f -> hs_run deadline split s rbio (r :: rounds) f.

(** There is only one way it goes. *)
Lemma hs_run_det deadline split s rbio rounds f f' :
  hs_run deadline split s rbio rounds f -> hs_run deadline split s rbio rounds f' -> f = f'.
Proof.
  intros H. revert f'. induction H as [? ? ? ? ? ? ? E|? ? ? ? ? ? ? E|? ? ? ? ? ? E|? ? ? ? ? ? ? ? E Hl|? ? ? ? ? ? ? ? ? E Hs Ha _ IH];
    intros f' H'; inversion H' as [? ? ? ? ? ? ? E'|? ? ? ? ? ? ? E'|? ? ? ? ? ? E'|? ? ? ? ? ? ? ? E' Hl'|? ? ? ? ? ? ? ? ? E' Hs' Ha' Hr']; subst;
    rewrite E in E'; simplify_eq; try done; [exfalso; by destruct Hl|exfalso; by destruct Hl'|by apply IH].
Qed.

Definition fate (d : option bool) (t : tlsc) : hs_fate :=
  match d with Some true => H_DONE (t_ssl t) (t_wbio t) | Some false => H_LOST | None => H_WAITING end.

Lemma handshake_loop_ok rounds form deadline t :
  open_form form -> idle form t -> t_wbio t = [] ->
  exists t' d used, handshake_loop rounds RELAY_SPLIT_NONE deadline t = Ok (t', d) /\ used `prefix_of` rounds /\
    fed_by used t t' /\ hs_run deadline RELAY_SPLIT_NONE (t_ssl t) (t_rbio t) rounds (fate d t') /\
    (d = Some true -> idle form t') /\ (d = None -> Forall (in_time deadline) rounds).
Proof.
  intros Hform. revert t. induction rounds as [|r rounds IH]; intros t H Hw; cbn [handshake_loop];
    pose proof (law_hs_bytes (t_ssl t) (t_rbio t)) as Hb;
    destruct (os_handshake (t_ssl t) (t_rbio t)) as [[[s rbio] made] ret] eqn:E; cbn [fst snd] in Hb;
    pose proof (idle_stepped form t s rbio made Hb H) as H1;
    assert (Hw1 : t_wbio (stepped t s rbio made) = made) by (cbn; by rewrite Hw);
    assert (Es1 : t_ssl (stepped t s rbio made) = s) by done;
    assert (Er1 : t_rbio (stepped t s rbio made) = rbio) by done;
    set (t1 := stepped t s rbio made) in *; destruct ret.
  all: try (exists t1, (Some false), []; refine (conj eq_refl (conj (prefix_nil _) (conj (fed_by_nil _) (conj _ _)))); [by eapply run_failed|done]).
  all: try (exists t1, (Some true), []; refine (conj eq_refl (conj (prefix_nil _) (conj (fed_by_nil _) (conj _ _)))); [cbn [fate]; rewrite Hw1, Es1; by eapply run_done|done]).
  - exists t1, None, []. refine (conj eq_refl (conj (prefix_nil _) (conj (fed_by_nil _) (conj _ _)))); [by eapply run_wait|].
    split; [done|constructor].
  - destruct (exchange_ok r form deadline t1 Hform H1) as (t2 & ok & Ex & Ep & Es & Hok). rewrite Ex. cbn [mbind res_bind].
    rewrite Hw1 in Hok. destruct ok.
    + destruct Hok as ((Hs & Hw2) & Ht & Hns & Ef & Erb). destruct (IH t2 Hs Hw2) as (t3 & d & used & -> & Hu & Hf & Hrun & Hd & Hn).
      rewrite Es, Erb, Es1, Er1 in Hrun.
      exists t3, d, (r :: used). refine (conj eq_refl (conj (prefix_cons _ _ _ Hu) (conj (fed_by_cons r used t1 t2 t3 Ef Ep Hf) (conj _ (conj Hd _))))).
      * by eapply run_next.
      * intros E3. apply Forall_cons_2; [apply Ht|by apply Hn].
    + destruct Hok as [Ef Hl]. exists t2, (Some false), []. refine (conj eq_refl (conj (prefix_nil _) (conj _ (conj _ _)))); [|by eapply run_lost|done].
      split; [by rewrite Ef, app_nil_r|done].
Qed.

(** What went out by the end of a handshake that starts in [s]: its first
    flight in the form of the mode, in the first round, the rest as it is. *)
Definition sent_form (split : split_mode) (s : os) (rounds : list round) (made sent : list Z) : Prop :=
  let '(_, _, flight, ret) := os_handshake s [] in
  match ret, rounds with
  | HS_WANT_READ, r :: _ => in_form split flight (zlen (fe_out (rd_flush r))) made sent
  | _, _ => sent = made
  end.

Lemma open_sent_form split s rounds : open_form (sent_form split s rounds).
Proof.
  intros made sent c. unfold sent_form. destruct (os_handshake s []) as [[[s' rest] flight] ret].
  destruct ret, rounds; try (by intros ->). apply open_in_form.
Qed.

Lemma handshake_first rounds split deadline s :
  let t := mk_tlsc s [] [] [] [] [] [] in
  exists t' d used, handshake_loop rounds split deadline t = Ok (t', d) /\ used `prefix_of` rounds /\
    fed_by used t t' /\ hs_run deadline split s [] rounds (fate d t') /\
    (d = Some true -> idle (sent_form split s rounds) t') /\ (d = None -> Forall (in_time deadline) rounds).
Proof.
  intros t. assert (Hu : unsent t) by done. pose proof (law_hs_bytes s []) as Hb. unfold sent_form.
  destruct (os_handshake s []) as [[[s1 rbio] made] ret] eqn:E. cbn [fst snd] in Hb.
  pose proof (unsent_stepped t s1 rbio made Hu) as H1.
  assert (Hl : handshake_loop rounds split deadline t =
    match ret with
    | HS_DONE => Ok (stepped t s1 rbio made, Some true)
    | HS_FAILED => Ok (stepped t s1 rbio made, Some false)
    | HS_WANT_READ =>
        match rounds with
        | [] => Ok (stepped t s1 rbio made, None)
        | r :: rounds =>
            '(t, ok) ← exchange r split deadline (stepped t s1 rbio made);
            if (ok : bool) then handshake_loop rounds RELAY_SPLIT_NONE deadline t else Ok (t, Some false)
        end
    end) by (destruct rounds; cbn [handshake_loop t_ssl t_rbio t]; rewrite E; reflexivity).
  rewrite Hl. clear Hl. set (t1 := stepped t s1 rbio made) in *.
  assert (Hb1 : bytes_ok (t_wbio t1)) by exact Hb. destruct ret.
  - exists t1, (Some true), []. refine (conj eq_refl (conj (prefix_nil _) (conj (fed_by_nil _) (conj _ (conj _ _))))); [by eapply run_done| |done].
    intros _. split; [done|]. destruct H1 as [E1 E2]. exists [], []. by rewrite E1, E2.
  - destruct rounds as [|r rounds].
    { exists t1, None, []. refine (conj eq_refl (conj (prefix_nil _) (conj (fed_by_nil _) (conj _ _)))); [by eapply run_wait|].
      split; [done|constructor]. }
    destruct (flush_first split (rd_flush r) t1 Hb1 H1) as (t2 & ok & Ef & Hs & Hok). change (t_wbio t1) with made in Hok.
    destruct (exchange_after r _ split deadline t1 t2 ok Ef Hs Hok) as (t3 & ok' & -> & Ep & Es & Hok'). cbn [mbind res_bind].
    change (t_wbio t1) with made in Hok'. destruct ok'.
    + destruct Hok' as ((Hi & Hw) & Ht & Hns & Efd & Erb).
      destruct (handshake_loop_ok rounds _ deadline t3 (open_in_form _ _ _) Hi Hw) as (t4 & d & used & -> & Hu' & Hf & Hrun & Hd & Hn).
      rewrite Es, Erb in Hrun.
      exists t4, d, (r :: used). refine (conj eq_refl (conj (prefix_cons _ _ _ Hu') (conj (fed_by_cons r used t1 t3 t4 Efd Ep Hf) (conj _ (conj Hd _))))).
      * by eapply run_next.
      * intros E3. apply Forall_cons_2; [apply Ht|by apply Hn].
    + destruct Hok' as [Efd Hlost]. exists t3, (Some false), []. refine (conj eq_refl (conj (prefix_nil _) (conj _ (conj _ _)))); [|by eapply run_lost|done].
      split; [by rewrite Efd, app_nil_r|done].
  - exists t1, (Some false), []. refine (conj eq_refl (conj (prefix_nil _) (conj (fed_by_nil _) (conj _ _)))); [by eapply run_failed|done].
Qed.

(** A session as the handshake leaves it. *)
Record established (host : list Z) (split : split_mode) (deadline : Z) (rounds : list round) (last : flush_env)
    (t : tlsc) : Prop := {
  es_host : exists s made, os_new host = Some s /\ hs_run deadline split s [] rounds (H_DONE (t_ssl t) made) /\
    ~ send_failed last RELAY_SPLIT_NONE made /\
    sent_form split s rounds (t_made t) (t_sent t);
  es_wbio : t_wbio t = [];
  es_fed : exists used, used `prefix_of` rounds /\ t_fed t = received used;
  es_plain : t_plain t = []
}.

(** There is none: it could not be made, was lost, or what OpenSSL made last
    could not be sent. *)
Definition unestablished (alloc bios : bool) (host : list Z) (split : split_mode) (deadline : Z) (rounds : list round) (last : flush_env) : Prop :=
  alloc = false \/ bios = false \/
  match os_new host with
  | None => True
  | Some s => hs_run deadline split s [] rounds H_LOST \/
              exists s' made, hs_run deadline split s [] rounds (H_DONE s' made) /\ send_failed last RELAY_SPLIT_NONE made
  end.

Definition certified (t : tlsc) : bool := os_verify_ok (t_ssl t) && os_peer_certificate (t_ssl t).

Lemma tlsc_handshake_ok alloc bios host split deadline require_valid rounds last :
  exists e, tlsc_handshake alloc bios host split deadline require_valid rounds last = Ok e /\
  match e with
  | HS_WAITING t => Forall (in_time deadline) rounds /\ exists s, os_new host = Some s /\ hs_run deadline split s [] rounds H_WAITING
  | HS_END session result =>
      (result = TLSC_FAILED /\ session = None /\ unestablished alloc bios host split deadline rounds last) \/
      exists t, established host split deadline rounds last t /\ result = (if certified t then TLSC_OK else TLSC_BAD_CERT) /\
        session = (if certified t || negb require_valid then Some t else None)
  end.
Proof.
  unfold tlsc_handshake. destruct alloc; [|eexists; split; [done|]; left; by split_and!; [..|left]]. cbn [negb].
  destruct (os_new host) as [s|] eqn:En; [|eexists; split; [done|]; left; split_and!; [done..|]; unfold unestablished; rewrite En; auto].
  destruct bios; [|eexists; split; [done|]; left; split_and!; [done..|]; right; by left]. cbn [negb].
  destruct (handshake_first rounds split deadline s) as (t & d & used & -> & Hu & [Hf Hp] & Hrun & Hd & Hn).
  cbn [mbind res_bind]. destruct d as [[|]|]; cbn [fate] in Hrun.
  2: { eexists. split; [done|]. left. split_and!; [done..|]. unfold unestablished. rewrite En. auto. }
  2: { eexists. split; [done|]. split; [by apply Hn|by exists s]. }
  destruct (Hd eq_refl) as [Hb Hs].
  destruct (flush_plain _ last t (open_sent_form split s rounds) Hb Hs) as (t1 & ok & Efl & (E1 & _ & E3 & E4 & E5) & Hok).
  pose proof (flush_loop_failed _ _ _ _ _ _ _ Efl) as Hsf. fold (send_failed last RELAY_SPLIT_NONE (t_wbio t)) in Hsf.
  rewrite Efl. cbn [mbind res_bind]. destruct ok.
  2: { eexists. split; [done|]. left. split_and!; [done..|]. unfold unestablished. rewrite En. do 3 right. exists (t_ssl t), (t_wbio t). split; [done|by apply Hsf]. }
  cbn [negb]. destruct Hok as (Ew & o & sn & Em & Esn & Hfr).
  rewrite Ew, app_nil_r in Em.
  assert (He : established host split deadline rounds last t1).
  { split; [exists s, (t_wbio t); rewrite E1, Em, Esn; split_and!; [done|done|by rewrite <- Hsf|done]|done| |by rewrite E5, Hp]. exists used. by rewrite E4, Hf. }
  fold (certified t1). destruct (certified t1) eqn:Ec; (eexists; split; [done|]; right; exists t1; rewrite Ec; split; [done|]).
  - done.
  - by destruct require_valid.
Qed.

(** ** Writing and reading *)

Lemma established_idle host split deadline rounds last t :
  established host split deadline rounds last t -> exists s, os_new host = Some s /\ idle (sent_form split s rounds) t.
Proof.
  intros [(s & made & Hn & _ & _ & H) E _ _]. exists s. split; [done|]. split; [rewrite E; by constructor|].
  exists (t_made t), (t_sent t). by rewrite E, app_nil_r.
Qed.

Lemma tlsc_write_ok rounds last deadline form buf t :
  open_form form -> idle form t ->
  exists t' d, tlsc_write rounds last deadline buf t = Ok (t', d) /\
    match d with
    | Some true => idle form t' /\ t_wbio t' = [] /\ t_plain t' = t_plain t ++ buf
    | _ => t_plain t `prefix_of` t_plain t' /\ t_plain t' `prefix_of` t_plain t ++ buf
    end.
Proof.
  intros Hform. revert buf t. induction rounds as [|r rounds IH]; intros buf t H; cbn [tlsc_write].
  all: destruct (Z.leb_spec (zlen buf) 0) as [Hl|Hl];
    [apply zlen_eq0 in Hl as ->; destruct (flush_plain form last t Hform (proj1 H) (proj2 H)) as (t1 & ok & -> & (_ & _ & Em & _ & Ep) & Hok);
     cbn [mbind res_bind]; exists t1, (Some ok); rewrite app_nil_r, Ep; split; [done|]; destruct ok; [|done];
     destruct Hok as [Ew Hf]; split; [|done]; split; [rewrite Ew; by constructor|done]|].
  all: pose proof (law_wr_bytes buf (t_ssl t) (t_rbio t)) as Hb; pose proof (law_wr_len buf (t_ssl t) (t_rbio t)) as Hn;
    destruct (os_write buf (t_ssl t) (t_rbio t)) as [[[s rbio] made] ret]; cbn [fst snd] in Hb, Hn;
    pose proof (idle_stepped form t s rbio made Hb H) as H1; set (t1 := stepped t s rbio made) in *;
    change (t_plain t) with (t_plain t1); clearbody t1.
  { destruct ret; (eexists _, _; split; [reflexivity|]; split; [done|by apply prefix_app_r]). }
  destruct ret as [n| |].
  - destruct (Hn n eq_refl) as [Hn1 Hn2].
    destruct (IH (bfrom buf n) (mk_tlsc (t_ssl t1) (t_rbio t1) (t_wbio t1) (t_sent t1) (t_made t1) (t_fed t1)
      (t_plain t1 ++ bsub buf 0 n))) as (t2 & d & -> & Hd); [done|].
    exists t2, d. split; [done|]. cbn [t_plain] in Hd. rewrite <- app_assoc, bsub_bfrom_split in Hd.
    destruct d as [[|]|]; [done|..]; (split; [|apply Hd]; etrans; [|apply Hd]; by apply prefix_app_r).
  - destruct (exchange_ok r form deadline t1 Hform H1) as (t2 & ok & -> & Ep & _ & Hok). cbn [mbind res_bind].
    rewrite <- Ep. destruct ok; [by apply IH, Hok|]. exists t2, (Some false). split; [done|]. split; [done|by apply prefix_app_r].
  - exists t1, (Some false). split; [done|]. split; [done|by apply prefix_app_r].
Qed.

Lemma tlsc_read_ok rounds deadline size form t :
  open_form form -> idle form t ->
  exists t' d, tlsc_read rounds deadline size t = Ok (t', d) /\ t_plain t' = t_plain t /\
    match d with
    | Some (Some data) => idle form t' /\ 0 < zlen data <= size
    | Some None => True
    | None => Forall (in_time deadline) rounds
    end.
Proof.
  intros Hform. revert t. induction rounds as [|r rounds IH]; intros t H; cbn [tlsc_read];
    pose proof (law_rd_bytes size (t_ssl t) (t_rbio t)) as Hb; pose proof (law_rd_len size (t_ssl t) (t_rbio t)) as Hn;
    destruct (os_read size (t_ssl t) (t_rbio t)) as [[[s rbio] made] ret]; cbn [fst snd] in Hb, Hn;
    pose proof (idle_stepped form t s rbio made Hb H) as H1; set (t1 := stepped t s rbio made) in *;
    change (t_plain t) with (t_plain t1); clearbody t1; destruct ret as [d| |].
  all: try (exists t1, (Some None); by split).
  all: try (exists t1, (Some (Some d)); split; [done|]; split; [done|]; split; [done|by apply Hn]).
  - exists t1, None. split; [done|]. split; [done|constructor].
  - destruct (exchange_ok r form deadline t1 Hform H1) as (t2 & ok & -> & Ep & _ & Hok). cbn [mbind res_bind].
    rewrite <- Ep. destruct ok; [|by exists t2, (Some None)]. destruct Hok as ((Hs & _) & [Ht _] & _).
    destruct (IH t2 Hs) as (t3 & d & -> & E3 & Hd). exists t3, d. split; [done|]. split; [done|].
    destruct d as [[|]|]; [done|done|by apply Forall_cons_2].
Qed.

(** ** The theorems *)

(** C22: the certificate verifier, one job. It never leaves a buffer; at most
    eight sockets are opened, none is connected before it is prepared (so that
    it is not intercepted), and when it returns every one is closed. It reports
    success exactly when a TLS handshake for the job's host completed within
    the rounds and OpenSSL verified a certificate that the peer presented, a
    rejection when one completed and it did not; a time-out only when there was
    no connection, OpenSSL or memory failed, the handshake was lost (writing a
    piece of what OpenSSL made failed, or nothing came in time in a round), or
    its last flight could not be sent (how the handshake goes is determined,
    [hs_run_det]); while it still waits, so does the handshake, and every round
    so far was within 8 s. OpenSSL was given exactly the bytes received, in
    order, and what it made went out byte for byte, but for the first flight:
    for a record strategy the first bytes of that are the two records of the
    strategy whenever they are a record that can be cut. *)
Theorem verify_job_correct env host s :
  let deadline := se_now env + VERIFY_TIMEOUT_MS in
  exists acts r, verify_job env host s = Ok (acts, r) /\ (opens acts <= 8)%nat /\
  match r with
  | None => sock_run None acts = Some (Some true) /\ Forall (in_time deadline) (se_rounds env) /\
      exists s0, os_new host = Some s0 /\ hs_run deadline (relay_split_for s) s0 [] (se_rounds env) H_WAITING
  | Some r =>
      sock_run None acts = Some None /\
      ((r = PROBE_TIMEOUT /\
        ((tpd_connect (se_tries env)).2 = false \/
         unestablished (se_alloc env) (se_bios env) host (relay_split_for s) deadline (se_rounds env) (se_last env))) \/
       ((tpd_connect (se_tries env)).2 = true /\
        exists t, established host (relay_split_for s) deadline (se_rounds env) (se_last env) t /\
         r = (if os_verify_ok (t_ssl t) && os_peer_certificate (t_ssl t) then PROBE_SUCCESS else PROBE_REMOTE_REJECTED)))
  end.
Proof.
  cbv zeta. unfold verify_job, tpd_connect.
  pose proof (retry_busy_run 8 try_connect (se_tries env) (connect_with_run true) ltac:(lia)) as Hc.
  destruct (retry_busy _ _ _) as [acts ok]. destruct Hc as [Hr Ho]. cbn [snd].
  destruct ok; cbn [negb]; [|exists acts, (Some PROBE_TIMEOUT); by split_and!; [..|left; split; [|left]]].
  destruct (tlsc_handshake_ok (se_alloc env) (se_bios env) host (relay_split_for s) (se_now env + VERIFY_TIMEOUT_MS)
    false (se_rounds env) (se_last env)) as (e & -> & He). cbn [mbind res_bind].
  destruct e as [t|session result]; [by exists acts, None|].
  eexists _, _. split; [reflexivity|].
  assert (Ho' : opens (acts ++ [S_CLOSE]) = opens acts) by (unfold opens; rewrite List.filter_app; cbn; by rewrite app_nil_r).
  rewrite Ho', sock_run_app, Hr. split; [done|]. split; [done|].
  destruct He as [(-> & _ & Hun)|(t & Ht & -> & _)]; [left; split; [done|by right]|]. right. split; [done|]. exists t. split; [done|].
  unfold certified. by destruct (_ && _).
Qed.

(** A connection to a DNS-over-HTTPS server is a session whose certificate was
    verified, on a socket that is still open; otherwise its sockets are
    closed. *)
Theorem conn_open_correct env calloc host split deadline :
  exists acts r, conn_open env calloc host split deadline = Ok (acts, r) /\ (opens acts <= 8)%nat /\
  match r with
  | OPENING _ => sock_run None acts = Some (Some true) /\ Forall (in_time deadline) (se_rounds env)
  | NOT_OPENED => sock_run None acts = Some None
  | OPENED t => sock_run None acts = Some (Some true) /\ established host split deadline (se_rounds env) (se_last env) t /\ certified t = true
  end.
Proof.
  unfold conn_open.
  pose proof (retry_busy_run 8 (connect_fd deadline) (se_tries env)
    (fun t => connect_with_run (0 <? deadline - ct_now t) t) ltac:(lia)) as Hc.
  destruct (retry_busy _ _ _) as [acts ok]. destruct Hc as [Hr Ho].
  assert (Ho' : opens (acts ++ [S_CLOSE]) = opens acts) by (unfold opens; rewrite List.filter_app; cbn; by rewrite app_nil_r).
  destruct ok; cbn [negb]; [|by exists acts, NOT_OPENED].
  destruct (negb calloc); [exists (acts ++ [S_CLOSE]), NOT_OPENED; by rewrite Ho', sock_run_app, Hr|].
  destruct (tlsc_handshake_ok (se_alloc env) (se_bios env) host split deadline true (se_rounds env) (se_last env))
    as (e & -> & He). cbn [mbind res_bind].
  destruct e as [t|session result]; [exists acts, (OPENING t); by split_and!; [..|apply He]|].
  destruct He as [(-> & -> & _)|(t & Ht & -> & ->)].
  - exists (acts ++ [S_CLOSE]), NOT_OPENED. by rewrite Ho', sock_run_app, Hr.
  - destruct (certified t) eqn:Ec; cbn [orb negb].
    + by exists acts, (OPENED t).
    + exists (acts ++ [S_CLOSE]), NOT_OPENED. by rewrite Ho', sock_run_app, Hr.
Qed.
End sessions.

(** ** A peer *)

(** An engine whose handshake sends two flights and reads one, for a host that
    ends in [.org]. *)
#[local] Instance toy_ssl : openssl := {|
  os := list Z * nat;
  os_new := fun host => Some (host, O);
  os_handshake := fun s rbio =>
    match s.2, rbio with
    | O, _ => ((s.1, 1%nat), rbio, [22; 3; 1; 0; 2; 1; 0], HS_WANT_READ)
    | _, [] => (s, [], [], HS_WANT_READ)
    | _, _ => ((s.1, 2%nat), [], [20; 3; 3; 0; 1; 1], HS_DONE)
    end;
  os_write := fun _ s rbio => (s, rbio, [], WR_FAILED);
  os_read := fun _ s rbio => (s, rbio, [], RD_FAILED);
  os_verify_ok := fun s => bool_decide (drop (length s.1 - 4) s.1 = str ".org");
  os_peer_certificate := fun _ => true
|}.

#[local] Instance toy_ssl_laws : openssl_laws toy_ssl.
Proof.
  split; try (intros; constructor); try done.
  intros [host [|n]] rbio; [by apply bytes_okb_ok|]. destruct rbio; [by constructor|by apply bytes_okb_ok].
Qed.

(** The second try gets a port; the ClientHello goes out in two records. *)
Definition sample_env : session_env :=
  let sends := fun _ _ => [TX_SENT 3; TX_INTR; TX_SENT 100] in
  mk_senv (fun n => mk_ctry true true (if (n =? 0)%nat then CONN_BUSY else CONN_PENDING) 0 [None; Some 1] 0) 1000 true true
    [mk_rnd (mk_fenv sends (replicate 64 0)) (mk_feed 1500 [Some 1] [RX_INTR; RX_DATA [22; 3; 3]] true)]
    (mk_fenv sends (replicate 64 0)).

Lemma verify_job_correct_witness :
  exists acts, verify_job sample_env (str "example.org") STRATEGY_TLSREC = Ok (acts, Some PROBE_SUCCESS) /\
    opens acts = 2%nat /\ sock_run None acts = Some None /\
    exists t rest, os_verify_ok (t_ssl t) = true /\ t_made t = [22; 3; 1; 0; 2; 1; 0] ++ rest /\
      t_sent t = [22; 3; 1; 0; 1; 1; 22; 3; 1; 0; 1; 0] ++ rest.
Proof.
  destruct (verify_job_correct sample_env (str "example.org") STRATEGY_TLSREC) as (acts & r & E & _ & H).
  assert (Eo : match verify_job sample_env (str "example.org") STRATEGY_TLSREC with
    | Ok (acts, r) => r = Some PROBE_SUCCESS /\ opens acts = 2%nat | _ => False end)
    by (vm_compute; split; reflexivity).
  rewrite E in Eo. destruct Eo as [-> Ho]. exists acts. split; [exact E|]. split; [exact Ho|].
  destruct H as [Hr [[H _]|(_ & t & [(s & made & Hn & _ & _ & Hs) _ _ _] & H)]]; [discriminate H|]. split; [exact Hr|].
  assert (Hv : os_verify_ok (t_ssl t) = true) by (destruct (os_verify_ok (t_ssl t)); [reflexivity|discriminate H]).
  change (Some (str "example.org", 0%nat) = Some s) in Hn. injection Hn as <-.
  destruct Hs as (pre & rest & Em & (at_ & Hat & Hw) & Esn). exists t, rest. split; [exact Hv|]. split; [exact Em|].
  assert (Hb : bytes_ok [22; 3; 1; 0; 2; 1; 0]) by (apply bytes_okb_ok; reflexivity).
  destruct Hat as [(q & n & Hq & _)|[_ ->]].
  - pose proof (sni_at_after _ _ _ Hb Hq). pose proof (sni_at_bounds _ _ _ Hb Hq) as (_ & ? & Hz).
    change (zlen _) with 7 in Hz. lia.
  - destruct Hw as [[_ ->]|[Hf _]]; [exact Esn|]. exfalso. apply Hf. vm_compute. intuition discriminate.
Defined.
