(* ===== verification/Compat.v ===== *)
(** * The portability layer ([src/compat.c], [src/platform.c])

    What the layer computes itself: the classes of socket errors on both kinds
    of system, the descriptor flags, sleeping and the clock, and the text of an
    error. The functions that only rename a call of the system have no model of
    their own. The other developments of the same computations
    ([src/discovery/probe_runner.c]) are here too. *)

From stdpp Require Import base list numbers strings option.
From Stdlib Require Import ZArith Lia.
From S2P Require Import Prelude Text Session.

(** ** Socket errors *)

Inductive sock_error := E_INTR | E_INPROGRESS | E_WOULDBLOCK | E_ADDRINUSE | E_ADDRNOTAVAIL | E_OTHER.
#[export] Instance sock_error_eq_dec : EqDecision sock_error.
Proof. solve_decision. Defined.

Inductive os_kind := POSIX | WINDOWS.

Definition compat_connect_pending (s : os_kind) (e : sock_error) : bool :=
  match s with
  | WINDOWS => bool_decide (e = E_WOULDBLOCK) || bool_decide (e = E_INPROGRESS)
  | POSIX => bool_decide (e = E_INPROGRESS)
  end.
Definition compat_interrupted (s : os_kind) (e : sock_error) : bool := bool_decide (e = E_INTR).
Definition compat_addr_in_use (s : os_kind) (e : sock_error) : bool :=
  match s with
  | WINDOWS => bool_decide (e = E_ADDRINUSE)
  | POSIX => bool_decide (e = E_ADDRINUSE) || bool_decide (e = E_ADDRNOTAVAIL)
  end.

(** [platform.c], for the accept loop of SOCKS mode. *)
Definition socket_error_is_interrupted (s : os_kind) (e : sock_error) : bool :=
  match s with WINDOWS => false | POSIX => bool_decide (e = E_INTR) end.

(** [connect(...) < 0 && !compat_connect_pending()] and [busy]; [None] is a
    [connect] that returned 0. *)
Definition connect_class (s : os_kind) (r : option sock_error) : connect_ret :=
  match r with
  | None => CONN_OK
  | Some e => if compat_connect_pending s e then CONN_PENDING else
              if compat_addr_in_use s e then CONN_BUSY else CONN_REFUSED
  end.

(** ** Descriptor flags *)

(** [mask] is [O_NONBLOCK]; [get] is what [F_GETFL] gives, negative on failure;
    the result is the value for [F_SETFL]. *)
Definition compat_set_nonblocking (mask get : Z) (on : bool) : option Z :=
  if get <? 0 then None else
  Some (if on then Z.lor get mask else Z.land get (Z.lnot mask)).

(** ** Time *)

(** [struct timespec], in seconds and nanoseconds. *)
Record timespec := mk_ts { tv_sec : Z; tv_nsec : Z }.
Definition nanos (t : timespec) : Z := tv_sec t * 1000000000 + tv_nsec t.

Definition ms_timespec (ms : Z) : timespec := mk_ts (ms ÷ 1000) (Z.rem ms 1000 * 1000000).
Definition compat_now_ms (t : timespec) : Z := tv_sec t * 1000 + tv_nsec t ÷ 1000000.

(** One [nanosleep]: it slept the whole time (and perhaps [late] more), was
    interrupted after [slept] with [rem] remaining, or refused the argument. *)
Inductive sleep_event := SL_DONE (late : Z) | SL_INTR (slept : Z) (rem : timespec) | SL_ERROR.

(** The time slept, [None] while it sleeps. *)
Fixpoint sleep_loop (evs : list sleep_event) (ts : timespec) : option Z :=
  match evs with
  | [] => None
  | SL_DONE late :: _ => Some (nanos ts + late)
  | SL_INTR slept rem :: evs => (fun t => slept + t) <$> sleep_loop evs rem
  | SL_ERROR :: _ => Some 0
  end.
Definition compat_sleep_ms (evs : list sleep_event) (ms : Z) : option Z := sleep_loop evs (ms_timespec ms).

(** [sleep_ms] of the probe runner: one call. *)
Definition sleep_ms (ev : sleep_event) (ms : Z) : Z :=
  match ev with
  | SL_DONE late => nanos (ms_timespec ms) + late
  | SL_INTR slept _ => slept
  | SL_ERROR => 0
  end.

(** What the system promises: the remaining time is what was asked less what
    was slept, in range; it is not late by a negative time; a time in range is
    not refused. *)
Definition in_range (t : timespec) : Prop := 0 <= tv_sec t /\ 0 <= tv_nsec t < 1000000000.
Fixpoint sleeps_ok (evs : list sleep_event) (ts : timespec) : Prop :=
  match evs with
  | [] => True
  | SL_DONE late :: _ => 0 <= late
  | SL_INTR slept rem :: evs => 0 <= slept /\ nanos rem = Z.max 0 (nanos ts - slept) /\ in_range rem /\ sleeps_ok evs rem
  | SL_ERROR :: _ => ~ in_range ts
  end.

(** ** The text of an error on Windows *)

(** [buf[--n]] while the last character is a line end or a dot; [buf] is what
    is before the terminator, from its end. *)
Fixpoint trim_end (rev : list Z) : list Z :=
  match rev with
  | c :: rev' => if (c =? 10) || (c =? 13) || (c =? 46) then trim_end rev' else rev
  | [] => []
  end.

(** [message] is what [FormatMessage] wrote, nothing when it failed. *)
Definition compat_sock_strerror (message : list Z) (err : Z) : list Z :=
  match trim_end (rev message) with
  | [] => bsub (str "socket error " ++ print_dec err) 0 159
  | r => rev r
  end.

(** ** Waiting for two sockets ([wait_readable] of [relay.c])

    What is pending on a descriptor when the call returns. *)
Record fd_state := mk_fds { fd_input : bool; fd_hangup : bool; fd_error : bool }.
Definition fd_event (f : fd_state) : bool := fd_input f || fd_hangup f || fd_error f.

(** The time allowed, in microseconds, [None] without a limit; the result,
    [client_ready] and [upstream_ready], which keep their value (here [false])
    on failure. *)
Record waited := mk_waited { wa_limit : option Z; wa_rc : Z; wa_client : bool; wa_upstream : bool }.

(** With [poll]: a direction that is closed has the descriptor -1, which is
    ignored. [failed] says that the call itself fails. *)
Definition wait_readable_poll (up_open down_open : bool) (client upstream : fd_state) (timeout_ms : Z) (failed : bool) : waited :=
  let revents0 := up_open && fd_event client in
  let revents1 := down_open && fd_event upstream in
  let limit := if timeout_ms <? 0 then None else Some (timeout_ms * 1000) in
  if failed then mk_waited limit (-1) false false
  else mk_waited limit (Z.b2z revents0 + Z.b2z revents1) revents0 revents1.

(** With [select], on Windows, where a call without any descriptor fails. *)
Definition wait_readable_select (up_open down_open : bool) (client upstream : fd_state) (timeout_ms : Z) (failed : bool) : waited :=
  let tv := mk_ts (timeout_ms ÷ 1000) (Z.rem timeout_ms 1000 * 1000) in
  let limit := if timeout_ms <? 0 then None else Some (tv_sec tv * 1000000 + tv_nsec tv) in
  if failed || negb (up_open || down_open) then mk_waited limit (-1) false false else
  let set0 := up_open && fd_event client in
  let set1 := down_open && fd_event upstream in
  mk_waited limit (Z.b2z set0 + Z.b2z set1) (up_open && set0) (down_open && set1).

(** ** Correctness *)

(** A connection attempt is retried with a new socket only for errors of the
    local address; an interrupted or pending call never counts as refused on
    the system that reports it so. *)
Theorem connect_class_spec s e :
  connect_class s (Some e) =
    match e, s with
    | E_INPROGRESS, _ | E_WOULDBLOCK, WINDOWS => CONN_PENDING
    | E_ADDRINUSE, _ | E_ADDRNOTAVAIL, POSIX => CONN_BUSY
    | _, _ => CONN_REFUSED
    end.
Proof. by destruct s, e. Qed.

(** Exactly the mask's bits change; turning the mode off again gives the flags
    that were there. *)
Theorem compat_set_nonblocking_correct mask get on flags :
  compat_set_nonblocking mask get on = Some flags ->
  (forall n, Z.testbit flags n = if Z.testbit mask n then on else Z.testbit get n) /\
  (on = true -> Z.land get mask = 0 -> 0 <= flags -> compat_set_nonblocking mask flags false = Some get).
Proof.
  unfold compat_set_nonblocking. destruct (Z.ltb_spec get 0) as [|Hg]; [done|]. intros [= <-].
  assert (Hb : forall n, Z.testbit (if on then Z.lor get mask else Z.land get (Z.lnot mask)) n
    = if Z.testbit mask n then on else Z.testbit get n).
  { intros n. destruct on.
    - rewrite Z.lor_spec. by destruct (Z.testbit mask n), (Z.testbit get n).
    - destruct (Z.le_gt_cases 0 n); [|rewrite !Z.testbit_neg_r by done; done].
      rewrite Z.land_spec, Z.lnot_spec by done. by destruct (Z.testbit mask n), (Z.testbit get n). }
  split; [exact Hb|]. intros -> Hd Hf. destruct (Z.ltb_spec (Z.lor get mask) 0); [lia|]. f_equal.
  apply Z.bits_inj'. intros n Hn. rewrite Z.land_spec, Z.lnot_spec, Z.lor_spec by done.
  assert (Hz : Z.testbit (Z.land get mask) n = false) by (rewrite Hd; apply Z.bits_0).
  rewrite Z.land_spec in Hz. by destruct (Z.testbit mask n), (Z.testbit get n).
Qed.

Lemma ms_timespec_ok ms : 0 <= ms -> nanos (ms_timespec ms) = ms * 1000000 /\ in_range (ms_timespec ms).
Proof.
  intros H. unfold nanos, in_range, ms_timespec. cbn [tv_sec tv_nsec].
  rewrite Z.quot_div_nonneg, Z.rem_mod_nonneg by lia. pose proof (Z.mod_pos_bound ms 1000). 
  pose proof (Z.div_mod ms 1000). pose proof (Z.div_pos ms 1000). lia.
Qed.

Lemma sleep_loop_enough evs : forall ts t,
  in_range ts -> sleeps_ok evs ts -> sleep_loop evs ts = Some t -> nanos ts <= t.
Proof.
  induction evs as [|[late|slept rem|] evs IH]; intros ts t Hr Hok Hs; [done| | |done]; cbn [sleep_loop sleeps_ok] in *.
  - injection Hs as <-. lia.
  - destruct Hok as (H1 & H2 & H3 & H4). destruct (sleep_loop evs rem) as [t'|] eqn:E; [|done].
    injection Hs as <-. specialize (IH rem t' H3 H4 E). lia.
Qed.

(** However often it is interrupted, the sleep lasts the time asked for. *)
Theorem compat_sleep_ms_enough evs ms t :
  0 <= ms -> sleeps_ok evs (ms_timespec ms) -> compat_sleep_ms evs ms = Some t -> ms * 1000000 <= t.
Proof.
  intros Hm Hok Hs. destruct (ms_timespec_ok ms Hm) as [E Hr]. rewrite <- E. by eapply sleep_loop_enough.
Qed.

(** The probe runner's sleep does not: a signal after 1 ms ends it. *)
Example sleep_ms_cut_short :
  sleeps_ok [SL_INTR 1000000 (mk_ts 0 399000000)] (ms_timespec 400) /\
  sleep_ms (SL_INTR 1000000 (mk_ts 0 399000000)) 400 < 400 * 1000000.
Proof. split; [|by vm_compute]. repeat split; vm_compute; done. Qed.

(** The clock in milliseconds never goes back, and a difference of it is off by
    less than one. *)
Theorem compat_now_ms_correct a b :
  in_range a -> in_range b -> nanos a <= nanos b ->
  compat_now_ms a <= compat_now_ms b /\
  Z.abs ((compat_now_ms b - compat_now_ms a) * 1000000 - (nanos b - nanos a)) < 1000000.
Proof.
  unfold in_range, nanos, compat_now_ms. intros Ha Hb Hle.
  rewrite !Z.quot_div_nonneg by lia. Z.div_mod_to_equations. lia.
Qed.

(** The text is never empty, fits its buffer and does not end in a line end. *)
Theorem compat_sock_strerror_correct message err :
  zlen message <= 159 -> - 2 ^ 31 <= err < 2 ^ 31 ->
  let t := compat_sock_strerror message err in
  t <> [] /\ zlen t <= 159 /\ (forall c, list.last t = Some c -> c <> 10 /\ c <> 13).
Proof.
  intros Hm Herr. cbv zeta. unfold compat_sock_strerror.
  assert (Ht : forall l, (length (trim_end l) <= length l)%nat /\
    (forall c, head (trim_end l) = Some c -> c <> 10 /\ c <> 13)).
  { induction l as [|c l [IH1 IH2]]; [done|]. cbn [trim_end].
    destruct ((c =? 10) || (c =? 13) || (c =? 46)) eqn:E; [cbn [length]; split; [lia|exact IH2]|].
    split; [done|]. intros x [= <-]. apply orb_false_elim in E as [[E1 E2]%orb_false_elim _].
    apply Z.eqb_neq in E1, E2. done. }
  specialize (Ht (rev message)) as [H1 H2]. destruct (trim_end (rev message)) as [|c l] eqn:E.
  - destruct (print_dec_word err) as (Hw & Hl & _); [unfold LONG_MIN, LONG_MAX; lia|].
    rewrite bsub_ge by (rewrite zlen_app; change (zlen (str "socket error ")) with 13; lia).
    split; [done|]. split; [rewrite zlen_app; change (zlen (str "socket error ")) with 13; lia|].
    intros x Hx. revert Hw Hl Hx. generalize (print_dec err). intros l Hw Hl Hx.
    induction l as [|d l _] using rev_ind; [destruct Hl as [Hl _]; by vm_compute in Hl|]. rewrite app_assoc, last_snoc in Hx. injection Hx as <-. apply Forall_app in Hw as [_ Hw].
    apply List.Forall_inv in Hw as [Hsp _]. split; intros ->; by vm_compute in Hsp.
  - rewrite length_rev in H1. split; [cbn [rev]; by destruct (rev l)|].
    split; [unfold zlen in *; rewrite length_rev; lia|].
    intros x. cbn [rev]. rewrite last_snoc. intros [= <-]. by apply H2.
Qed.

(** While a direction is open, and the pump waits only then, both variants wait
    as long and report the same. *)
Theorem wait_readable_equivalent up_open down_open client upstream timeout_ms failed :
  up_open || down_open = true ->
  wait_readable_select up_open down_open client upstream timeout_ms failed
  = wait_readable_poll up_open down_open client upstream timeout_ms failed.
Proof.
  intros Ho. unfold wait_readable_select, wait_readable_poll. rewrite Ho, orb_false_r. cbn [negb tv_sec tv_nsec].
  replace (timeout_ms ÷ 1000 * 1000000 + Z.rem timeout_ms 1000 * 1000) with (timeout_ms * 1000)
    by (pose proof (Z.quot_rem' timeout_ms 1000); lia).
  destruct failed; [done|]. by destruct up_open, down_open.
Qed.
