(* ===== verification/Transport.v ===== *)
(** * Set-up and tear-down of the transports ([dns/dns_udp.c], [dns/dns_doh.c], [tlsclient.c], [verify.c])

    One UDP exchange from socket to socket, freeing the DNS-over-HTTPS client,
    loading the system's trust store on the three systems, and the contexts that
    need it. *)

From stdpp Require Import base list numbers strings option.
From Stdlib Require Import ZArith Lia.
From S2P Require Import Prelude Text Dns Socket Relay Session Doh.

(** ** One UDP exchange *)

(** What the system does: the results of the calls; [ux_sent] is what [send]
    returned, [ux_recv] the datagram, [None] an error. *)
Record udp_env := mk_uenv {
  ux_socket : bool;
  ux_prepare : bool;
  ux_connect : bool;
  ux_sent : Z;
  ux_polls : list (option Z);
  ux_recv : option (list Z)
}.

(** [dns_udp_transport] for a server that exists: the socket, whether the query
    went out, and the result, where 0 is a time-out. *)
Definition udp_exchange (env : udp_env) (query : list Z) (reply_size : Z) : list sock_act * bool * transport_result :=
  if negb (ux_socket env) then ([], false, TR_ERROR) else
  if negb (ux_prepare env) then ([S_OPEN; S_PREPARE false; S_CLOSE], false, TR_ERROR) else
  let up := [S_OPEN; S_PREPARE true; S_CONNECT; S_CLOSE] in
  if negb (ux_connect env) then (up, false, TR_ERROR) else
  if negb (ux_sent env =? zlen query) then (up, false, TR_ERROR) else
  if compat_wait (ux_polls env) =? 1 then
    match ux_recv env with
    | None => (up, true, TR_ERROR)
    | Some d => (up, true, match bsub d 0 reply_size with [] => TR_TIMEOUT | r => TR_REPLY r end)
    end
  else (up, true, TR_TIMEOUT).

(** ** The trust store *)

Inductive root_source := ROOTS_LINUX | ROOTS_MACOS | ROOTS_WINDOWS.

(** What OpenSSL and the system do: the default paths, the macOS bundle, and the
    certificates of the Windows store, each with whether it parses and whether
    it was new to the context. *)
Record root_env := mk_renv {
  rt_default : bool;
  rt_bundle : bool;
  rt_store : option (list (bool * bool))
}.

(** The loop over the Windows store: certificates added, objects allocated and
    freed. *)
Fixpoint add_certs (certs : list (bool * bool)) (n allocated released : Z) : Z * Z * Z :=
  match certs with
  | [] => (n, allocated, released)
  | (false, _) :: certs => add_certs certs n allocated released
  | (true, added) :: certs => add_certs certs (if added : bool then n + 1 else n) (allocated + 1) (released + 1)
  end.

Definition load_system_roots (src : root_source) (env : root_env) : bool :=
  match src with
  | ROOTS_LINUX => rt_default env
  | ROOTS_MACOS => if rt_bundle env then true else rt_default env
  | ROOTS_WINDOWS =>
      match rt_store env with
      | None => false
      | Some certs => let '(n, _, _) := add_certs certs 0 0 0 in 0 <? n
      end
  end.

(** [tlsc_ctx_new] with the trust store of a system: the context, and how many
    contexts were made and freed. *)
Definition client_context (src : root_source) (env : root_env) (made : bool) (alpn : option (list Z))
  : option ssl_ctx * Z * Z :=
  if negb made then (None, 0, 0) else
  match tlsc_ctx_new made (load_system_roots src env) alpn with
  | None => (None, 1, 1)
  | Some cx => (Some cx, 1, 0)
  end.

(** [tpd_verify_start]: no ALPN; the thread runs with the context. *)
Definition tpd_verify_start (src : root_source) (env : root_env) (made thread : bool) : option ssl_ctx * Z :=
  match (client_context src env made None).1.1 with
  | None => (None, -1)
  | Some cx => (Some cx, if thread then 0 else -1)
  end.

(** ** Freeing *)

(** [tlsc_free]: the SSL object and the socket, if there are any. *)
Inductive free_act := FREE_SSL | CLOSE_FD (fd : Z) | FREE_SESSION | FREE_CONN (id : nat) | FREE_CTX | FREE_CLIENT.
Definition tlsc_free (t : option (bool * Z)) : list free_act :=
  match t with
  | None => []
  | Some (ssl, fd) => (if ssl : bool then [FREE_SSL] else []) ++ (if 0 <=? fd then [CLOSE_FD fd] else []) ++ [FREE_SESSION]
  end.

Definition tlsc_ctx_free (ctx : bool) : list free_act := if ctx then [FREE_CTX] else [].

(** The connections of the servers, the last one put first. *)
Fixpoint free_servers (srv : list pool) : list pool * list free_act :=
  match srv with
  | [] => ([], [])
  | p :: srv =>
      let '(srv, acts) := free_servers srv in
      (foldl conn_free (mk_pool [] (freed p) (opened p)) (idle p) :: srv, map (fun c => FREE_CONN (pc_id c)) (idle p) ++ acts)
  end.

Definition dns_doh_free (d : option (list pool * bool)) : list pool * list free_act :=
  match d with
  | None => ([], [])
  | Some (srv, ctx) => let '(srv, acts) := free_servers srv in (srv, acts ++ tlsc_ctx_free ctx ++ [FREE_CLIENT])
  end.

(** ** Correctness *)

(** The socket is closed once and never connected unprepared; a reply is the
    datagram of the server, cut to the buffer, and needs the whole query to have
    gone out. *)
Theorem udp_exchange_correct env query reply_size :
  0 < reply_size ->
  let '(acts, sent, r) := udp_exchange env query reply_size in
  sock_run None acts = Some None /\ opens acts = Nat.b2n (ux_socket env) /\
  match r with
  | TR_REPLY reply => sent = true /\ 0 < zlen reply <= reply_size /\
      exists d, ux_recv env = Some d /\ reply = bsub d 0 reply_size
  | TR_TIMEOUT => sent = true /\ (compat_wait (ux_polls env) <> 1 \/ ux_recv env = Some [])
  | TR_ERROR => True
  end.
Proof.
  intros Hr. unfold udp_exchange. destruct (ux_socket env); cbn [negb]; [|done].
  destruct (ux_prepare env); cbn [negb]; [|done]. destruct (ux_connect env); cbn [negb]; [|done].
  destruct (ux_sent env =? zlen query); cbn [negb]; [|done].
  destruct (Z.eqb_spec (compat_wait (ux_polls env)) 1) as [E|E]; [|by auto].
  destruct (ux_recv env) as [d|]; [|done].
  destruct (bsub d 0 reply_size) as [|x l] eqn:Eb.
  - split; [done|]. split; [done|]. split; [done|]. right. do 2 f_equal. destruct d as [|y d]; [done|].
    unfold bsub in Eb. change (Z.to_nat 0) with 0%nat in Eb. rewrite drop_0 in Eb.
    destruct (Z.to_nat reply_size) eqn:En; [lia|done].
  - split; [done|]. split; [done|]. split; [done|]. rewrite <- Eb. split; [|by exists d].
    split; [rewrite Eb, zlen_cons; pose proof (zlen_nonneg l); lia|]. unfold bsub, zlen. rewrite length_take. lia.
Qed.

Lemma add_certs_count certs : forall n a r,
  add_certs certs n a r =
    (n + zlen (List.filter (fun c => c.1 && c.2) certs), a + zlen (List.filter fst certs), r + zlen (List.filter fst certs)).
Proof.
  induction certs as [|[[|] [|]] certs IH]; intros n a r; cbn [add_certs List.filter fst snd andb];
    rewrite ?IH, ?zlen_cons; [|apply pair_eq; split; [apply pair_eq; split|]; lia..].
  by rewrite !Z.add_0_r.
Qed.

(** Fail closed: there is a context only with trust anchors, on Windows at
    least one certificate that was added; a context that is not returned is
    freed; it offers TLS 1.2 or later and the protocol asked for in wire form. *)
Theorem client_context_correct src env made alpn :
  let '(cx, allocated, released) := client_context src env made alpn in
  match cx with
  | Some cx =>
      allocated = 1 /\ released = 0 /\ cx_min_version cx = TLS1_2_VERSION /\
      (forall p, cx_alpn cx = Some p -> exists a, alpn = Some a /\ p = zlen a :: a) /\
      match src with
      | ROOTS_LINUX => rt_default env = true
      | ROOTS_MACOS => rt_bundle env || rt_default env = true
      | ROOTS_WINDOWS => exists certs, rt_store env = Some certs /\ (true, true) ∈ certs
      end
  | None => allocated = released
  end.
Proof.
  unfold client_context, tlsc_ctx_new. destruct made; cbn [negb]; [|done].
  destruct (load_system_roots src env) eqn:El; cbn [negb]; [|done]. cbn [cx_min_version cx_alpn].
  split; [done|]. split; [done|]. split; [done|]. split.
  - intros p. destruct alpn as [a|]; [|done]. destruct (Z.ltb_spec 0 (zlen a)), (Z.ltb_spec (zlen a) (64 - 1)); try done.
    intros [= <-]. exists a. split; [done|]. f_equal. unfold u8. apply Z.mod_small. lia.
  - unfold load_system_roots in El. destruct src; [done|by destruct (rt_bundle env)|].
    destruct (rt_store env) as [certs|]; [|done]. exists certs. split; [done|]. rewrite add_certs_count in El.
    destruct (List.filter (fun c => c.1 && c.2) certs) as [|[a b] l] eqn:Ef; [done|].
    assert (Hin : In (a, b) (List.filter (fun c => c.1 && c.2) certs)) by (rewrite Ef; by left).
    apply List.filter_In in Hin as [Hin [E1 E2]%andb_prop]. cbn [fst snd] in E1, E2. subst. by apply list_elem_of_In.
Qed.

Lemma conn_free_all l : forall p,
  foldl conn_free p l = mk_pool (idle p) (freed p ++ map pc_id l) (opened p).
Proof.
  induction l as [|c l IH]; intros p; cbn [foldl map]; [by rewrite app_nil_r; destruct p|].
  rewrite IH. cbn [conn_free idle freed opened]. by rewrite <- app_assoc.
Qed.

(** After [dns_doh_free] nothing is idle, and every connection that was idle,
    and no other, has been freed, once and before the context it uses. *)
Theorem dns_doh_free_correct srv ctx :
  let '(srv', acts) := dns_doh_free (Some (srv, ctx)) in
  Forall2 (fun p p' => idle p' = [] /\ freed p' = freed p ++ map pc_id (idle p) /\ opened p' = opened p) srv srv' /\
  acts = map FREE_CONN (concat (map (fun p => map pc_id (idle p)) srv)) ++ tlsc_ctx_free ctx ++ [FREE_CLIENT].
Proof.
  cbn [dns_doh_free]. destruct (free_servers srv) as [srv' acts] eqn:E.
  assert (H : Forall2 (fun p p' => idle p' = [] /\ freed p' = freed p ++ map pc_id (idle p) /\ opened p' = opened p) srv srv' /\
    acts = map FREE_CONN (concat (map (fun p => map pc_id (idle p)) srv))).
  { revert srv' acts E. induction srv as [|p srv IH]; intros srv' acts E; cbn [free_servers] in E; [by injection E as <- <-|].
    destruct (free_servers srv) as [s a]. injection E as <- <-. destruct (IH s a eq_refl) as [H1 ->].
    rewrite conn_free_all. split; [by constructor|]. cbn [map concat]. by rewrite map_app, map_map. }
  destruct H as [H ->]. by split.
Qed.
