(* ===== verification/Socks.v ===== *)
(** * SOCKS mode ([src/socks.c])

    One client connection of the SOCKS5 proxy: method negotiation, the
    request, the connection upstream and its answer. A handler runs in a small
    state monad over the client's stream and the replies sent so far; [None] is
    the -1 return. Whether a [send] succeeds and whether the upstream answers
    are arguments. *)

From stdpp Require Import base list numbers strings option.
From Stdlib Require Import ZArith Lia.
From S2P Require Import Prelude Text Socket Relay.

Record client := mk_client {
  cl_in : list rx_event;
  cl_out : list (list Z)
}.

Definition socks (A : Type) : Type := client -> option A * client.

#[global] Instance socks_ret : MRet socks := fun A a w => (Some a, w).
#[global] Instance socks_bind : MBind socks := fun A B f m w =>
  match m w with
  | (Some a, w) => f a w
  | (None, w) => (None, w)
  end.

Definition socks_fail {A} : socks A := fun w => (None, w).

(** [if (recv_exact(fd, buf, n) != n) return (-1);] *)
Definition recv_n (n : Z) : socks (list Z) := fun w =>
  match recv_exact (cl_in w) n [] with
  | Ok (b, s) => (Some b, mk_client s (cl_out w))
  | _ => (None, w)
  end.

Section socks.
(** Does the [k]-th [send] to the client go through? *)
Context (sends : nat -> bool).

Definition socks_send (msg : list Z) : socks unit := fun w =>
  if sends (length (cl_out w)) then (Some tt, mk_client (cl_in w) (cl_out w ++ [msg]))
  else (None, w).

Definition socks_negotiate : socks unit :=
  header ← recv_n 2;
  if negb (bget header 0 =? 5) then socks_fail else
  if bget header 1 =? 0 then socks_fail else
  _ ← recv_n (bget header 1);
  socks_send [5; 0].

Definition send_result (success : bool) : socks unit :=
  socks_send [5; if success then 0 else 1; 0; 1; 0; 0; 0; 0; 0; 0].

Definition read_port : socks Z :=
  port_buf ← recv_n 2;
  mret (Z.lor (Z.shiftl (bget port_buf 0) 8) (bget port_buf 1)).

(** The host text as a C string, and the port. [inet_ntop] fails when the
    array is too small. *)
Definition read_target (host_size : Z) : socks (list Z * Z) :=
  header ← recv_n 4;
  if negb (bget header 0 =? 5) || negb (bget header 1 =? 1) then socks_fail else
  let atyp := bget header 3 in
  if atyp =? 3 then
    length ← recv_n 1;
    let length := bget length 0 in
    if (length =? 0) || (host_size <=? length) then socks_fail else
    host ← recv_n length;
    port ← read_port;
    mret (cstr host, port)
  else if atyp =? 1 then
    addr4 ← recv_n 4;
    let host := inet_ntop4 addr4 in
    if host_size <=? zlen host then socks_fail else
    port ← read_port;
    mret (host, port)
  else if atyp =? 4 then
    addr6 ← recv_n 16;
    let host := inet_ntop6 addr6 in
    if host_size <=? zlen host then socks_fail else
    port ← read_port;
    mret (host, port)
  else
    fun w => (None, snd (send_result false w)).

(** [DPI_PROXY_SPLIT_TLS] *)
Definition socks_mode (env : option (list Z)) : split_mode :=
  match env with
  | Some v =>
      if bool_decide (v = str "1") then RELAY_SPLIT_TCP
      else if bool_decide (v = str "record") then RELAY_SPLIT_TLS_RECORD
      else RELAY_SPLIT_NONE
  | None => RELAY_SPLIT_NONE
  end.

(** How far a client got: which target was connected to, and whether the
    connection is relayed. *)
Inductive socks_end :=
| SOCKS_ABORTED
| SOCKS_REFUSED (host : list Z) (port : Z)
| SOCKS_DROPPED (host : list Z) (port : Z)
| SOCKS_RELAYED (host : list Z) (port : Z) (mode : split_mode).

Definition handle_client (connect : list Z -> Z -> bool) (env : option (list Z)) (w : client)
  : socks_end * client :=
  match socks_negotiate w with
  | (None, w) => (SOCKS_ABORTED, w)
  | (Some _, w) =>
      match read_target 256 w with
      | (None, w) => (SOCKS_ABORTED, w)
      | (Some (host, port), w) =>
          if connect host port then
            match send_result true w with
            | (None, w) => (SOCKS_DROPPED host port, w)
            | (Some _, w) => (SOCKS_RELAYED host port (socks_mode env), w)
            end
          else (SOCKS_REFUSED host port, snd (send_result false w))
      end
  end.
End socks.

(** ** The requests of RFC 1928 *)

Inductive socks_addr :=
| SA_DOMAIN (name : list Z)
| SA_V4 (a : list Z)
| SA_V6 (a : list Z).

Definition enc_addr (t : socks_addr) : list Z :=
  match t with
  | SA_DOMAIN name => 3 :: zlen name :: name
  | SA_V4 a => 1 :: a
  | SA_V6 a => 4 :: a
  end.

Definition addr_ok (t : socks_addr) : Prop :=
  match t with
  | SA_DOMAIN name => 0 < zlen name <= 255 /\ bytes_ok name
  | SA_V4 a => zlen a = 4 /\ bytes_ok a
  | SA_V6 a => zlen a = 16 /\ bytes_ok a
  end.

(** What is connected to. *)
Definition addr_text (t : socks_addr) : list Z :=
  match t with
  | SA_DOMAIN name => cstr name
  | SA_V4 a => inet_ntop4 a
  | SA_V6 a => inet_ntop6 a
  end.

(** A greeting with some methods, then a CONNECT request; [rest] is what the
    client sends after it. *)
Definition enc_request (methods : list Z) (rsv : Z) (t : socks_addr) (port : Z) : list Z :=
  5 :: zlen methods :: methods ++ 5 :: 1 :: rsv :: enc_addr t ++ bytes16 port.

Record request (methods : list Z) (rsv : Z) (t : socks_addr) (port : Z) : Prop := {
  rq_methods : 0 < zlen methods <= 255;
  rq_addr : addr_ok t;
  rq_port : is_u16 port
}.

(** The bytes that ask for a target, and what follows them. *)
Definition asks_for (input rest host : list Z) (port : Z) : Prop :=
  exists methods rsv t, request methods rsv t port /\
    input = enc_request methods rsv t port ++ rest /\ host = addr_text t.

(** ** Running a handler *)

Definition swp {A} (m : socks A) (Q : A -> client -> Prop) (R : client -> Prop) (w : client) : Prop :=
  match m w with (Some a, w') => Q a w' | (None, w') => R w' end.

Lemma swp_bind {A B} (m : socks A) (f : A -> socks B) Q R w :
  swp m (fun a w' => swp (f a) Q R w') R w -> swp (mbind f m) Q R w.
Proof. unfold swp, mbind, socks_bind. by destruct (m w) as [[a|] w']. Qed.

Lemma swp_if {A} (b : bool) (m m' : socks A) Q R w :
  (b = true -> swp m Q R w) -> (b = false -> swp m' Q R w) -> swp (if b then m else m') Q R w.
Proof. destruct b; auto. Qed.

(** The stream left, as bytes. *)
Definition left (w : client) : list Z := rx_bytes (cl_in w).

Lemma recv_n_swp n w (Q : list Z -> client -> Prop) (R : client -> Prop) :
  0 <= n ->
  (forall b w', zlen b = n -> left w = b ++ left w' -> cl_out w' = cl_out w -> Q b w') ->
  (zlen (left w) < n -> R w) -> swp (recv_n n) Q R w.
Proof.
  intros Hn HQ HR. unfold swp, recv_n. pose proof (recv_exact_spec (cl_in w) n [] Hn) as H.
  destruct (recv_exact (cl_in w) n []) as [[b s]|e|]; [|by apply HR, H|done].
  destruct H as (H1 & H2 & _). by apply HQ.
Qed.

Lemma socks_send_swp sends msg w (Q : unit -> client -> Prop) (R : client -> Prop) :
  (sends (length (cl_out w)) = true -> Q tt (mk_client (cl_in w) (cl_out w ++ [msg]))) ->
  (sends (length (cl_out w)) = false -> R w) -> swp (socks_send sends msg) Q R w.
Proof. intros HQ HR. unfold swp, socks_send. destruct (sends _); auto. Qed.

(** The same bytes cut at the same place. *)
Lemma prefix_same (b l1 b' l2 : list Z) :
  zlen b = zlen b' -> b ++ l1 = b' ++ l2 -> b = b' /\ l1 = l2.
Proof. intros Hz E. apply app_inj_1; [unfold zlen in Hz; lia|done]. Qed.

Lemma two_bytes b : zlen b = 2 -> b = [bget b 0; bget b 1].
Proof. unfold zlen. destruct b as [|x [|y [|z b]]]; cbn [length]; lia || done. Qed.
Lemma four_bytes b : zlen b = 4 -> b = [bget b 0; bget b 1; bget b 2; bget b 3].
Proof. unfold zlen. destruct b as [|x [|y [|z [|t [|? b]]]]]; cbn [length]; lia || done. Qed.
Lemma one_byte b : zlen b = 1 -> b = [bget b 0].
Proof. unfold zlen. destruct b as [|x [|y b]]; cbn [length]; lia || done. Qed.

(** A client that greets gets the reply; any other gets nothing. *)
Lemma socks_negotiate_swp sends w :
  bytes_ok (left w) ->
  swp (socks_negotiate sends)
    (fun _ w' => exists methods, 0 < zlen methods <= 255 /\
       left w = 5 :: zlen methods :: methods ++ left w' /\ cl_out w' = cl_out w ++ [[5; 0]])
    (fun w' => cl_out w' = cl_out w /\
       forall methods rest, 0 < zlen methods <= 255 ->
         left w = 5 :: zlen methods :: methods ++ rest -> sends (length (cl_out w)) = false) w.
Proof.
  intros Hb. unfold socks_negotiate. apply swp_bind, recv_n_swp; [lia| |].
  2: { intros Hs. split; [done|]. intros methods rest Hm E. rewrite E, !zlen_cons, zlen_app in Hs.
       pose proof (zlen_nonneg rest). lia. }
  intros h w1 Hh E1 O1. rewrite (two_bytes h Hh) in E1. cbn [app] in E1.
  assert (Hno : forall w', cl_out w' = cl_out w -> bget h 0 <> 5 \/ bget h 1 = 0 ->
    cl_out w' = cl_out w /\ forall methods rest, 0 < zlen methods <= 255 ->
      left w = 5 :: zlen methods :: methods ++ rest -> sends (length (cl_out w)) = false).
  { intros w' Ho Hbad. split; [done|]. intros methods rest Hm E. exfalso. rewrite E in E1.
    injection E1 as E2 E3 _. lia. }
  apply swp_if; intros Hc; zbool; [by apply Hno; [|left]|].
  apply swp_if; intros Hc2; zbool; [by apply Hno; [|right]|].
  assert (H1 : is_u8 (bget h 1)) by (rewrite E1 in Hb; by apply bytes_ok_cons in Hb as [_ [? _]%bytes_ok_cons]).
  unfold is_u8 in H1. apply swp_bind, recv_n_swp; [lia| |].
  - intros methods w2 Hm E2 O2. rewrite Hc, E2, <- Hm in E1. apply socks_send_swp.
    + intros _. exists methods. split; [lia|]. split; [done|]. cbn. by rewrite O2, O1.
    + intros Hs. split; [by rewrite O2|]. intros _ _ _ _. by rewrite <- O1, <- O2.
  - intros Hs. split; [done|]. intros methods rest Hm E. exfalso. rewrite E1, Hc in E.
    injection E as E3 E4. rewrite E4, zlen_app in Hs. pose proof (zlen_nonneg rest). lia.
Qed.

(** Arithmetic on lengths. *)
Ltac zlens :=
  repeat match goal with
  | H : context [zlen ?l] |- _ =>
      lazymatch goal with _ : 0 <= zlen l |- _ => fail | _ => pose proof (zlen_nonneg l) end
  end; lia.

(** An address is a prefix code. *)
Lemma enc_addr_inj t t' x y :
  addr_ok t -> addr_ok t' -> enc_addr t ++ x = enc_addr t' ++ y -> t = t' /\ x = y.
Proof.
  destruct t as [n|a|a], t' as [n'|a'|a']; cbn [enc_addr addr_ok app]; intros [H _] [H' _] E;
    try discriminate E.
  - injection E as E1 E2. by apply prefix_same in E2 as [-> ->].
  - injection E as E2. by apply prefix_same in E2 as [-> ->]; [|lia].
  - injection E as E2. by apply prefix_same in E2 as [-> ->]; [|lia].
Qed.

(** What a target that is read or refused says of the bytes. *)
Definition target_read (w : client) (x : list Z * Z) (w' : client) : Prop :=
  exists rsv t, addr_ok t /\ is_u16 (snd x) /\
    left w = 5 :: 1 :: rsv :: enc_addr t ++ bytes16 (snd x) ++ left w' /\
    fst x = addr_text t /\ cl_out w' = cl_out w.

Definition no_target (w : client) : Prop :=
  forall rsv t port rest, addr_ok t -> is_u16 port ->
    left w <> 5 :: 1 :: rsv :: enc_addr t ++ bytes16 port ++ rest.

Definition target_failed (sends : nat -> bool) (w w' : client) : Prop :=
  no_target w /\ (cl_out w' = cl_out w \/ cl_out w' = cl_out w ++ [[5; 1; 0; 1; 0; 0; 0; 0; 0; 0]]).

(** The address is read: the port and the end of the request. *)
Lemma port_swp sends w w2 rsv t :
  bytes_ok (left w) -> addr_ok t -> left w = 5 :: 1 :: rsv :: enc_addr t ++ left w2 ->
  cl_out w2 = cl_out w ->
  swp (port ← read_port; mret (addr_text t, port)) (target_read w) (target_failed sends w) w2.
Proof.
  intros Hb Ht E O. unfold read_port. apply swp_bind, swp_bind, recv_n_swp; [lia| |].
  - intros b w3 Hz E3 O3. unfold swp. cbn [mret socks_ret]. exists rsv, t.
    rewrite E, E3 in Hb. do 3 (apply bytes_ok_cons in Hb as [_ Hb]).
    apply Forall_app in Hb as [_ [Hbb _]%Forall_app]. rewrite (two_bytes b Hz) in Hbb.
    apply bytes_ok_cons in Hbb as [H0 [H1 _]%bytes_ok_cons].
    cbn [fst snd]. fold (be16 (bget b 0) (bget b 1)).
    split; [done|]. split; [by apply be16_range|]. split; [|by rewrite O3, O].
    rewrite be16_bytes16 by done. rewrite <- (two_bytes b Hz), <- E3. exact E.
  - intros Hs. split; [|by left]. intros rsv' t' port rest Ht' _ E'. rewrite E in E'.
    injection E' as _ E'. apply enc_addr_inj in E' as [-> E']; [|done|done].
    rewrite E', !zlen_cons in Hs. zlens.
Qed.

(** No address of the type announced: too few bytes, or no such type. *)
Lemma no_addr w rsv atyp l :
  left w = 5 :: 1 :: rsv :: atyp :: l ->
  (forall t port rest, addr_ok t -> is_u16 port -> enc_addr t ++ bytes16 port ++ rest <> atyp :: l) ->
  no_target w.
Proof. intros E H rsv' t port rest Ht Hp E'. rewrite E in E'. injection E' as _ E'. by apply (H t port rest). Qed.

Lemma zlen_enc_addr t : 1 <= zlen (enc_addr t).
Proof.
  destruct t as [n|a|a]; cbn [enc_addr]; rewrite !zlen_cons;
    [pose proof (zlen_nonneg n)|pose proof (zlen_nonneg a)|pose proof (zlen_nonneg a)]; lia.
Qed.

Lemma read_target_swp sends w :
  bytes_ok (left w) ->
  swp (read_target sends 256) (target_read w) (target_failed sends w) w.
Proof.
  intros Hb. unfold read_target. apply swp_bind, recv_n_swp; [lia| |].
  2: { intros Hs. split; [|by left]. intros rsv t port rest _ _ E. rewrite E in Hs.
       pose proof (zlen_enc_addr t). pose proof (zlen_nonneg (bytes16 port ++ rest)).
       rewrite !zlen_cons, zlen_app in Hs. lia. }
  intros h w1 Hh E1 O1. rewrite (four_bytes h Hh) in E1. cbn [app] in E1.
  apply swp_if; intros Hc.
  { split; [|by left]. intros rsv t port rest _ _ E. rewrite E1 in E. injection E as H5 H1 _ _.
    by rewrite H5, H1 in Hc. }
  apply orb_false_iff in Hc as [H5 H1]. zbool. rewrite H5, H1 in E1.
  set (rsv := bget h 2) in *. set (atyp := bget h 3) in *. cbv zeta.
  pose proof Hb as Hb1. rewrite E1 in Hb1. do 4 (apply bytes_ok_cons in Hb1 as [_ Hb1]).
  apply swp_if; intros Ha; zbool; [rewrite Ha in E1|].
  { apply swp_bind, recv_n_swp; [lia| |].
    2: { intros Hs. split; [|by left]. apply (no_addr _ _ _ _ E1). intros t port rest Ht _ E.
         destruct t; try discriminate E. injection E as E. rewrite <- E, zlen_cons in Hs. zlens. }
    intros lb w2 Hl E2 O2. rewrite (one_byte lb Hl) in E2. cbn [app] in E2. rewrite E2 in E1, Hb1.
    set (n := bget lb 0) in *. apply bytes_ok_cons in Hb1 as [Hn Hb2]. unfold is_u8 in Hn.
    apply swp_if; intros Hz.
    { split; [|by left; congruence]. apply (no_addr _ _ _ _ E1). intros t port rest Ht _ E.
      destruct t; try discriminate E. injection E as En _. destruct Ht as [Ht _]. lia. }
    apply orb_false_iff in Hz as [Hz1 Hz2]. zbool. apply swp_bind, recv_n_swp; [lia| |].
    2: { intros Hs. split; [|by left; congruence]. apply (no_addr _ _ _ _ E1). intros t port rest Ht _ E.
         destruct t; try discriminate E. injection E as En E. rewrite <- E, zlen_app in Hs. zlens. }
    intros name w3 Hname E3 O3. rewrite E3 in E1, Hb2. apply Forall_app in Hb2 as [Hbn _].
    change (cstr name) with (addr_text (SA_DOMAIN name)).
    apply (port_swp sends w w3 rsv (SA_DOMAIN name)); [done|split; [lia|done]| |congruence].
    cbn [enc_addr app]. by rewrite Hname. }
  apply swp_if; intros Ha4; zbool; [rewrite Ha4 in E1|].
  { apply swp_bind, recv_n_swp; [lia| |].
    2: { intros Hs. split; [|by left]. apply (no_addr _ _ _ _ E1). intros t port rest Ht _ E.
         destruct t; try discriminate E. injection E as E. rewrite <- E, zlen_app in Hs.
         destruct Ht as [Ht _]. zlens. }
    intros a w2 Hl E2 O2. rewrite E2 in E1, Hb1. apply Forall_app in Hb1 as [Hba _].
    apply swp_if; intros Hz; zbool; [pose proof (zlen_inet_ntop4 a Hba); lia|].
    apply (port_swp sends w w2 rsv (SA_V4 a)); [done|done|done|congruence]. }
  apply swp_if; intros Ha6; zbool; [rewrite Ha6 in E1|].
  { apply swp_bind, recv_n_swp; [lia| |].
    2: { intros Hs. split; [|by left]. apply (no_addr _ _ _ _ E1). intros t port rest Ht _ E.
         destruct t; try discriminate E. injection E as E. rewrite <- E, zlen_app in Hs.
         destruct Ht as [Ht _]. zlens. }
    intros a w2 Hl E2 O2. rewrite E2 in E1, Hb1. apply Forall_app in Hb1 as [Hba _].
    apply swp_if; intros Hz; zbool; [pose proof (zlen_inet_ntop6 a Hba); lia|].
    apply (port_swp sends w w2 rsv (SA_V6 a)); [done|done|done|congruence]. }
  unfold swp. assert (Hno : no_target w).
  { apply (no_addr _ _ _ _ E1). intros t port rest Ht _ E.
    destruct t; injection E as E _; congruence. }
  split; [done|]. unfold send_result, socks_send.
  destruct (sends (length (cl_out w1))); cbn [snd cl_out]; rewrite O1; [by right|by left].
Qed.

(** C37: the proxy connects to exactly what the client asked for. Whatever the
    client sends and however the stream is cut, the handler ends; the upstream
    connection is attempted only when the bytes are a greeting followed by a
    CONNECT request in one of the three address forms, to that host and port,
    and whenever they are (and the client takes the method reply). The success
    reply is sent only after the upstream connected, a refusal only after it
    did not, each preceded by the method reply; an aborted client never sees a
    success. What the client sent after its request is still in the stream
    when the relay starts: no byte of it is consumed or lost. *)
Theorem socks_handle_correct sends connect env s :
  bytes_ok (rx_bytes s) ->
  let ok := [5; 0; 0; 1; 0; 0; 0; 0; 0; 0] in
  let failed := [5; 1; 0; 1; 0; 0; 0; 0; 0; 0] in
  let '(e, w) := handle_client sends connect env (mk_client s []) in
  match e with
  | SOCKS_ABORTED =>
      (ok ∉ cl_out w) /\
      (sends 0%nat = false \/ forall rest host port, ~ asks_for (rx_bytes s) rest host port)
  | SOCKS_REFUSED host port =>
      asks_for (rx_bytes s) (left w) host port /\ connect host port = false /\
      cl_out w = [5; 0] :: (if sends 1%nat then [failed] else [])
  | SOCKS_DROPPED host port =>
      asks_for (rx_bytes s) (left w) host port /\ connect host port = true /\
      cl_out w = [[5; 0]]
  | SOCKS_RELAYED host port mode =>
      asks_for (rx_bytes s) (left w) host port /\ connect host port = true /\
      cl_out w = [[5; 0]; ok] /\ mode = socks_mode env
  end.
Proof.
  intros Hb ok failed. unfold handle_client.
  pose proof (socks_negotiate_swp sends (mk_client s []) Hb) as H1. unfold swp in H1.
  destruct (socks_negotiate sends (mk_client s [])) as [[u|] w1].
  2: { destruct H1 as [O1 H1]. cbn [cl_out] in O1. rewrite O1. split; [apply not_elem_of_nil|].
       destruct (sends 0%nat) eqn:Es; [right|by left]. intros rest host port (ms & rsv & t & [Hm _ _] & E & _).
       cbn [cl_out length] in H1. unfold enc_request in E. cbn [app] in E. rewrite <- app_assoc in E.
       specialize (H1 _ _ Hm E). congruence. }
  destruct H1 as (ms & Hm & E1 & O1). change (left (mk_client s [])) with (rx_bytes s) in E1.
  cbn [cl_out app] in O1.
  assert (Hb1 : bytes_ok (left w1)).
  { rewrite E1 in Hb. do 2 (apply bytes_ok_cons in Hb as [_ Hb]). by apply Forall_app in Hb as [_ ?]. }
  pose proof (read_target_swp sends w1 Hb1) as H2. unfold swp in H2.
  destruct (read_target sends 256 w1) as [[[host port]|] w2].
  2: { destruct H2 as [H2 O2]. split; [by destruct O2 as [-> | ->]; rewrite O1; intros H; repeat
         (apply elem_of_cons in H as [H|H]; [discriminate H|]); apply elem_of_nil in H|].
       right. intros rest host port (ms' & rsv & t & [Hm' Ht Hp] & E & _).
       unfold enc_request in E. cbn [app] in E. rewrite E1 in E. injection E as Ez E.
       rewrite <- app_assoc in E. apply prefix_same in E as [-> E]; [|done].
       cbn [app] in E. rewrite <- app_assoc in E. by eapply H2. }
  destruct H2 as (rsv & t & Ht & Hp & E2 & Eh & O2). cbn [fst snd] in Hp, E2, Eh.
  assert (Ha : forall w, left w = left w2 -> asks_for (rx_bytes s) (left w) host port).
  { intros w Ew. exists ms, rsv, t. split; [by split|]. split; [|done].
    rewrite E1, E2, Ew. unfold enc_request. cbn [app]. rewrite <- !app_assoc. cbn [app].
    by rewrite <- !app_assoc. }
  assert (O : cl_out w2 = [[5; 0]]) by (by rewrite O2, O1).
  destruct (connect host port) eqn:Ec; unfold send_result, socks_send; rewrite O; cbn [length].
  - destruct (sends 1%nat); (split; [by apply Ha|]); by rewrite ?O.
  - split; [apply Ha; by destruct (sends 1%nat)|]. split; [done|].
    destruct (sends 1%nat); cbn [snd cl_out]; by rewrite ?O.
Qed.

(** "example.org:443" over three segments, the ClientHello right behind. *)
Definition sample_socks : list rx_event :=
  [RX_DATA [5; 2; 0]; RX_INTR; RX_DATA ([2; 5; 1; 0; 3; 11] ++ str "exam");
   RX_DATA (str "ple.org" ++ [1; 187; 22; 3; 1])].

Lemma socks_handle_correct_witness :
  exists w, handle_client (fun _ => true) (fun _ _ => true) (Some (str "record"))
              (mk_client sample_socks [])
            = (SOCKS_RELAYED (str "example.org") 443 RELAY_SPLIT_TLS_RECORD, w) /\
    asks_for (rx_bytes sample_socks) [22; 3; 1] (str "example.org") 443.
Proof.
  pose proof (socks_handle_correct (fun _ => true) (fun _ _ => true) (Some (str "record")) sample_socks)
    as H.
  eexists. split; [vm_compute; reflexivity|].
  assert (Hb : bytes_ok (rx_bytes sample_socks)) by (apply bytes_okb_ok; vm_compute; reflexivity).
  specialize (H Hb). cbv zeta in H.
  assert (Hv : handle_client (fun _ => true) (fun _ _ => true) (Some (str "record"))
      (mk_client sample_socks [])
    = (SOCKS_RELAYED (str "example.org") 443 RELAY_SPLIT_TLS_RECORD,
       mk_client [RX_DATA [22; 3; 1]] [[5; 0]; [5; 0; 0; 1; 0; 0; 0; 0; 0; 0]]))
    by (vm_compute; reflexivity).
  rewrite Hv in H. destruct H as [H _]. exact H.
Defined.
