(* ===== verification/Conn.v ===== *)
(** * One redirected connection ([src/transparent/conn.c])

    Collecting the ClientHello, carrying out one attempt (where to connect,
    what to write first, what the answer means) and the attempt loop
    [run_plan]. The network is an argument: what an attempt's socket does is
    decided by a function of the attempt, the trusted resolver is the one of
    the DNS component. Buffers that start with arbitrary contents are
    arguments too. *)

From stdpp Require Import base list numbers strings option relations.
From Stdlib Require Import ZArith Lia.
From S2P Require Import Prelude Packet Tls Text Strategy Policy Dns Relay.

(** ** Reading the ClientHello *)

(** [isalnum] in the C locale, or one of [._-]. *)
Definition host_char (c : Z) : bool :=
  isdigit c || ((65 <=? c) && (c <=? 90)) || ((97 <=? c) && (c <=? 122))
  || (c =? 46) || (c =? 45) || (c =? 95).

(** The ClientHello in one record: merged in the scratch array [c->reply], or
    as it came when there is nothing to merge. *)
Definition merged_hello {E} (hello reply : list Z) : res E (list Z) :=
  match tls_coalesce_handshake_records hello reply with
  | Ok (merged, n) => Ok (if 0 <? n then bsub merged 0 n else hello)
  | Err _ => Ok hello
  | Fault => Fault
  end.

(** The host array after the call. *)
Definition parse_hello (hello reply host : list Z) : pres (list Z) :=
  merged ← merged_hello hello reply;
  host ← tls_parse_client_hello_sni merged host;
  if forallb host_char (cstr host) then Ok host else Err PACKET_ERR_MALFORMED.

(** The receive loop over what successive reads return; an empty read or the
    end of the list is a client that is gone, silent or out of time. The
    result is what was read and the name. *)
Fixpoint hello_loop (chunks : list (list Z)) (reply host hello : list Z)
  : res unit (list Z * list Z) :=
  if BUFFER_SIZE <=? zlen hello then Ok (hello, []) else
  match chunks with
  | [] | [] :: _ => Ok (hello, [])
  | chunk :: chunks' =>
      let hello := hello ++ bsub chunk 0 (BUFFER_SIZE - zlen hello) in
      match parse_hello hello reply host with
      | Ok host => Ok (hello, cstr host)
      | Err PACKET_ERR_TRUNCATED => hello_loop chunks' reply host hello
      | Err _ => Ok (hello, [])
      | Fault => Fault
      end
  end.

Definition read_client_hello (chunks : list (list Z)) (reply host : list Z)
  : res unit (list Z * list Z) :=
  '(hello, name) ← hello_loop chunks reply host [];
  hello ← merged_hello hello reply;
  Ok (hello, name).

(** ** Attempts *)

Inductive io_outcome :=
| IO_NO_CONNECT
| IO_SEND_FAILED
| IO_NO_REPLY
| IO_RECV_FAILED
| IO_EOF
| IO_DATA (first : Z) (rest : list Z).

Record conn := mk_conn {
  c_v6 : bool;
  c_original : dns_addr;
  c_hello : list Z;
  c_host : list Z;
  c_plan : tp_plan;
  c_trusted : option dns_addr;
  c_fp : Z
}.

Definition set_plan (c : conn) (p : tp_plan) : conn :=
  mk_conn (c_v6 c) (c_original c) (c_hello c) (c_host c) p (c_trusted c) (c_fp c).

Definition addr_equal (a b : dns_addr) : bool :=
  if (addr_family a =? 4) && (addr_family b =? 4)
  then bool_decide (bsub (addr_bytes a) 0 4 = bsub (addr_bytes b) 0 4) else
  if (addr_family a =? 6) && (addr_family b =? 6)
  then bool_decide (bsub (addr_bytes a) 0 16 = bsub (addr_bytes b) 0 16)
  else false.

(** The lookup's effect on the connection. *)
Definition trust_answer (c : conn) (st : dns_status) (ans : dns_answer) : conn :=
  match st, addrs ans with
  | DNS_OK, a :: _ =>
      if existsb (addr_equal (c_original c)) (addrs ans)
      then set_plan c (set_trust (c_plan c) TP_TRUST_MATCH)
      else mk_conn (c_v6 c) (c_original c) (c_hello c) (c_host c)
             (set_trust (c_plan c) TP_TRUST_MISMATCH) (Some a) (c_fp c)
  | _, _ => set_plan c (set_trust (c_plan c) TP_TRUST_NONE)
  end.

Definition resolve_trusted (transport : dns_transport) (dns : dns_resolver) (c : conn) (now : Z)
  : res unit (conn * dns_resolver) :=
  '(st, ans, dns) ← dns_resolve transport dns (c_host c)
                      (if c_v6 c then DNS_QTYPE_AAAA else DNS_QTYPE_A) now;
  Ok (trust_answer c st ans, dns).

(** What the socket's fate means. *)
Definition outcome_result (o : io_outcome) : tp_result :=
  match o with
  | IO_NO_CONNECT => TP_RES_CONNECT_FAIL
  | IO_SEND_FAILED => TP_RES_RESET
  | IO_NO_REPLY => TP_RES_TIMEOUT
  | IO_RECV_FAILED => TP_RES_RESET
  | IO_EOF => TP_RES_CLOSED
  | IO_DATA first _ =>
      if first =? 0x16 then TP_RES_OK else
      if first =? 0x15 then TP_RES_ALERT else TP_RES_NOT_TLS
  end.

(** What went out for one attempt: to which address, in which writes. *)
Record sent := mk_sent {
  sent_step : tp_step;
  sent_to : option dns_addr;
  sent_writes : list (list Z)
}.

Section run.
Context (transport : dns_transport).
(** What the socket of the attempt number [n] does. *)
Context (net : nat -> sent -> io_outcome).
(** The stack array of [send_first_tls_record]. *)
Context (out : list Z).
Context (now : Z).

Definition attempt (c : conn) (step : tp_step) : res unit (tp_result * sent) :=
  let dst := match target step with
             | TP_TARGET_TRUSTED => c_trusted c
             | TP_TARGET_ORIGINAL => Some (c_original c)
             end in
  writes ← relay_send_first (c_hello c) out (relay_split_for (step_strategy step));
  let s := mk_sent step dst writes in
  Ok (outcome_result (net (length (tried (c_plan c))) s), s).

Inductive conn_end :=
| COMMITTED (step : tp_step)
| FAILED.

Definition run_state : Type := conn * dns_resolver * list sent.

Definition run_plan_step (st : run_state)
  : res unit (run_state + (conn_end * run_state)) :=
  let '(c, dns, log) := st in
  match tp_plan_next (c_plan c) with
  | TP_NEXT_DONE => Ok (inr (FAILED, st))
  | TP_NEXT_NEED_DNS =>
      '(c, dns) ← resolve_trusted transport dns c now;
      Ok (inl (c, dns, log))
  | TP_NEXT_ATTEMPT step _ =>
      '(r, s) ← attempt c step;
      let c := set_plan c (tp_plan_record (c_plan c) step r) in
      let st := (c, dns, log ++ [s]) in
      if committed r then Ok (inr (COMMITTED step, st)) else Ok (inl st)
  end.

(** At most four attempts and one lookup: six rounds always suffice. *)
Definition run_plan (c : conn) (dns : dns_resolver) : res unit (conn_end * run_state) :=
  loop 6 run_plan_step (c, dns, []).
End run.

(** ** The ClientHello that is read *)

Lemma cstr_terminated s rest : cstr (s ++ 0 :: rest) = cstr s.
Proof. induction s as [|c s IH]; [done|]. cbn [cstr app]. by rewrite IH. Qed.

(** What merging does to the bytes read. *)
Definition merge_of (raw reply hello : list Z) : Prop :=
  hello = raw \/ exists o l, coalesced raw reply o l /\ hello = bsub o 0 l.

Lemma coalesced_bytes inp out o l :
  bytes_ok inp -> coalesced inp out o l -> bytes_ok (bsub o 0 l).
Proof.
  intros Hi (rs & rest & E & _ & _ & _ & _ & _ & ->).
  assert (H12 : is_u8 (bget inp 1) /\ is_u8 (bget inp 2)) by (split; by apply bytes_ok_get).
  rewrite E in Hi. apply Forall_app in Hi as [Hrs Hrest]. unfold one_record.
  apply bytes_ok_app; [|apply bytes_ok_app; [apply bytes_ok_bytes16|apply bytes_ok_app; [|done]]].
  - destruct H12. repeat (apply bytes_ok_cons; split; [done|]). constructor.
  - unfold hs_bytes in Hrs. unfold hs_bodies. clear E H12.
    induction rs as [|r rs IH]; cbn [map concat] in *; [done|].
    apply Forall_app in Hrs as [[_ H1]%Forall_app H2]. apply bytes_ok_app; [done|by apply IH].
Qed.

Lemma merged_hello_wp {E} hello reply :
  bytes_ok hello ->
  wp (merged_hello hello reply)
    (fun m => bytes_ok m /\ merge_of hello reply m) (fun _ : E => False).
Proof.
  intros Hh. unfold merged_hello. pose proof (tls_coalesce_handshake_records_wp hello reply Hh) as W.
  destruct (tls_coalesce_handshake_records hello reply) as [[o l]|e|]; [| |done].
  - cbn [wp fst snd] in W. apply wp_ok. destruct (0 <? l); [|by split; [|left]].
    split; [by eapply coalesced_bytes|right; eauto].
  - apply wp_ok. by split; [|left].
Qed.

Lemma merged_hello_any {E F} hello reply m :
  merged_hello (E := E) hello reply = Ok m -> merged_hello (E := F) hello reply = Ok m.
Proof.
  unfold merged_hello. destruct (tls_coalesce_handshake_records hello reply) as [[o l]| |]; [| |done];
    intros [= <-]; done.
Qed.

(** The name is what the parser finds in the merged bytes. *)
Definition named (raw reply host name : list Z) : Prop :=
  name = [] \/
  (forallb host_char name = true /\
   exists m q n, merged_hello (E := unit) raw reply = Ok m /\
     sni_extractable m (zlen host) q n /\ name = cstr (bsub m q n)).

Lemma parse_hello_wp hello reply host :
  bytes_ok hello -> bytes_ok host ->
  wp (parse_hello hello reply host) (fun h => named hello reply host (cstr h)) (fun _ => True).
Proof.
  intros Hh Ho. unfold parse_hello. apply wp_bind.
  pose proof (merged_hello_wp (E := packet_err) hello reply Hh) as W.
  destruct (merged_hello hello reply) as [m| |] eqn:Em; [|done|done]. destruct W as [Hm _].
  apply wp_ok, wp_bind.
  eapply wp_mono; [| |apply (tls_parse_client_hello_sni_wp m Hm host Ho)]; [|done].
  intros h (q & n & Hs & ->). rewrite cstr_terminated.
  apply wp_if; intros Hc; [|by apply wp_err]. apply wp_ok. rewrite cstr_terminated.
  right. split; [done|]. exists m, q, n. by apply (merged_hello_any (F := unit)) in Em.
Qed.

Lemma hello_loop_full chunks reply host hello :
  BUFFER_SIZE <= zlen hello -> hello_loop chunks reply host hello = Ok (hello, []).
Proof. intros H. destruct chunks; cbn [hello_loop]; by rewrite (proj2 (Z.leb_le _ _) H). Qed.

Lemma hello_loop_wp chunks reply host hello :
  Forall bytes_ok chunks -> bytes_ok host -> bytes_ok hello -> zlen hello <= BUFFER_SIZE ->
  wp (hello_loop chunks reply host hello)
    (fun '(raw, name) => bytes_ok raw /\ zlen raw <= BUFFER_SIZE /\
       raw `prefix_of` hello ++ concat chunks /\ named raw reply host name) (fun _ => False).
Proof.
  intros Hc Ho. revert hello. induction Hc as [|chunk chunks Hch Hc IH]; intros hello Hh Hl.
  { cbn [hello_loop concat]. rewrite app_nil_r.
    apply wp_if; intros _; apply wp_ok; (split; [done|]); (split; [done|]); split; [done|by left|done|by left]. }
  assert (Hstop : wp (Ok (hello, [])) (fun '(raw, name) => bytes_ok raw /\ zlen raw <= BUFFER_SIZE /\
    raw `prefix_of` hello ++ concat (chunk :: chunks) /\ named raw reply host name) (fun _ : unit => False)).
  { apply wp_ok. split; [done|]. split; [done|]. split; [by apply prefix_app_r|by left]. }
  cbn [hello_loop]. wp_step; [exact Hstop|]. destruct chunk as [|x chunk0]; [exact Hstop|].
  set (chunk := x :: chunk0) in *. cbv zeta. set (k := BUFFER_SIZE - zlen hello).
  assert (Hk : 0 <= k) by (unfold k; lia).
  set (hello' := hello ++ bsub chunk 0 k).
  assert (Hh' : bytes_ok hello') by (apply bytes_ok_app; [done|by apply bytes_ok_bsub]).
  assert (Hcut : (bsub chunk 0 k = chunk /\ zlen hello' <= BUFFER_SIZE) \/ zlen hello' = BUFFER_SIZE).
  { unfold hello'. destruct (Z.leb_spec (zlen chunk) k).
    - left. unfold bsub. change (Z.to_nat 0) with 0%nat. rewrite drop_0, take_ge by (unfold zlen in *; lia).
      split; [done|]. rewrite zlen_app. unfold k in *. lia.
    - right. rewrite zlen_app, zlen_bsub by lia. unfold k. lia. }
  assert (Hl' : zlen hello' <= BUFFER_SIZE) by lia.
  assert (Hp : hello' `prefix_of` hello ++ concat (chunk :: chunks)).
  { unfold hello'. apply prefix_app. cbn [concat]. apply prefix_app_r. unfold bsub.
    change (Z.to_nat 0) with 0%nat. rewrite drop_0. apply prefix_take. }
  assert (Hnow : forall name, named hello' reply host name ->
    wp (Ok (hello', name)) (fun '(raw, name) => bytes_ok raw /\ zlen raw <= BUFFER_SIZE /\
    raw `prefix_of` hello ++ concat (chunk :: chunks) /\ named raw reply host name) (fun _ : unit => False))
    by (intros name Hn; by apply wp_ok).
  pose proof (parse_hello_wp hello' reply host Hh' Ho) as W.
  destruct (parse_hello hello' reply host) as [h|e|]; [by apply Hnow| |done].
  destruct e; try (by apply Hnow; left).
  destruct Hcut as [[Ec _]|Ef]; [|rewrite hello_loop_full by lia; by apply Hnow; left].
  eapply wp_mono; [| |by apply IH]; [|done]. intros [raw name] (H1 & H2 & H3 & H4).
  split; [done|]. split; [done|]. split; [|done].
  unfold hello' in H3. rewrite Ec, <- app_assoc in H3. exact H3.
Qed.

(** The bytes kept and the name used. *)
Record hello_read (chunks : list (list Z)) (reply host hello name : list Z) : Prop := {
  hr_bytes : bytes_ok hello;
  hr_fits : zlen hello <= BUFFER_SIZE;
  hr_stream : exists raw, raw `prefix_of` concat chunks /\ zlen raw <= BUFFER_SIZE /\
    merge_of raw reply hello;
  hr_name : name <> [] -> forallb host_char name = true /\
    exists q n, sni_extractable hello (zlen host) q n /\ name = cstr (bsub hello q n)
}.

Lemma read_client_hello_wp chunks reply host :
  Forall bytes_ok chunks -> bytes_ok host -> zlen reply = BUFFER_SIZE ->
  wp (read_client_hello chunks reply host)
    (fun '(hello, name) => hello_read chunks reply host hello name) (fun _ => False).
Proof.
  intros Hc Ho Hr. unfold read_client_hello. apply wp_bind.
  eapply wp_mono; [| |exact (hello_loop_wp chunks reply host [] Hc Ho ltac:(constructor) ltac:(done))];
    [|done].
  intros [raw name] (Hb & Hl & Hp & Hn). apply wp_bind.
  pose proof (merged_hello_wp (E := unit) raw reply Hb) as W.
  destruct (merged_hello raw reply) as [m| |] eqn:Em; [|done|done]. destruct W as [Hm Hmo].
  apply wp_ok, wp_ok. split; [done| |by exists raw|].
  - destruct Hmo as [->|(o & l & (rs & rest & _ & _ & _ & _ & _ & Hlo & _) & ->)]; [done|].
    unfold bsub, zlen in *. rewrite length_take. lia.
  - intros Hne. destruct Hn as [->|(Hch & m' & q & n & Em' & Hs & ->)]; [done|].
    split; [done|]. rewrite Em in Em'. injection Em' as <-. by exists q, n.
Qed.

(** Reading the ClientHello always ends, inside its buffers, whatever
    the client sends and however it is cut. The bytes kept are the first bytes
    of the client's stream, at most a buffer, with leading handshake records
    merged into one when there are several and nothing else changed. A name
    that is used is the SNI hostname of exactly the bytes the attempts will
    replay (up to a NUL, see [nul_in_sni]), made of hostname characters
    only. *)
Theorem read_client_hello_correct chunks reply host :
  Forall bytes_ok chunks -> bytes_ok host -> zlen reply = BUFFER_SIZE ->
  exists hello name,
    read_client_hello chunks reply host = Ok (hello, name) /\
    hello_read chunks reply host hello name.
Proof.
  intros Hc Ho Hr. pose proof (read_client_hello_wp chunks reply host Hc Ho Hr) as W.
  destruct (read_client_hello chunks reply host) as [[hello name]| |]; [|done|done].
  by exists hello, name.
Qed.

Definition zero_buffer : list Z := repeat 0 (Z.to_nat BUFFER_SIZE).

Definition split_hello : list (list Z) :=
  [bsub (enc_client_hello sample_hello) 0 20; bfrom (enc_client_hello sample_hello) 20].

Lemma read_client_hello_correct_witness :
  exists hello,
    read_client_hello split_hello zero_buffer (repeat 0 256) = Ok (hello, str "example.com") /\
    exists q n, sni_extractable hello 256 q n /\ str "example.com" = cstr (bsub hello q n).
Proof.
  destruct (read_client_hello_correct split_hello zero_buffer (repeat 0 256))
    as (hello & name & E & [_ _ _ Hn]).
  - do 2 (apply Forall_cons_2; [apply bytes_okb_ok; vm_compute; reflexivity|]). constructor.
  - apply bytes_okb_ok. vm_compute. reflexivity.
  - vm_compute. reflexivity.
  - assert (Hv : (read_client_hello split_hello zero_buffer (repeat 0 256)
        ≫= fun x => Ok (snd x)) = Ok (str "example.com")) by (vm_compute; reflexivity).
    rewrite E in Hv. cbn [mbind res_bind snd] in Hv. injection Hv as ->.
    exists hello. split; [exact E|]. apply Hn. discriminate.
Defined.

(** A NUL inside the SNI name ends it for the character check and for every
    later use: the connection is handled as one to the part before it. *)
Example nul_in_sni :
  (read_client_hello
     [enc_client_hello (mk_client_hello (0x03 :: 0x03 :: repeat 7 32) [] [0x13; 0x01] [0] []
                          (str "a.org" ++ 0 :: str "b.org") [])]
     zero_buffer (repeat 0 256) ≫= fun x => Ok (snd x)) = Ok (str "a.org").
Proof. vm_compute. reflexivity. Qed.

(** ** The attempt loop *)

Lemma dns_resolve_wp transport r name qtype now :
  bytes_transport transport ->
  wp (dns_resolve transport r name qtype now) (fun _ => True) (fun _ => False).
Proof.
  intros Ht. assert (Hm : wp (resolve_miss transport r name qtype now) (fun _ => True) (fun _ => False)).
  { unfold resolve_miss.
    match goal with |- wp (ask_servers _ ?r0 ?o ?id _ _ _) _ _ =>
      destruct (ask_servers_spec transport r0 o id name qtype now Ht) as (st & out & r' & -> & _) end.
    by apply wp_ok. }
  unfold dns_resolve. destruct (_ ≫= _) as [[i hit]|]; [|done].
  apply wp_if; intros _; [by apply wp_ok|done].
Qed.

Definition sent_ok (original : dns_addr) (hello : list Z) (size : Z) (s : sent) : Prop :=
  carries hello size (step_strategy (sent_step s)) (sent_writes s) /\
  match target (sent_step s) with
  | TP_TARGET_ORIGINAL => sent_to s = Some original
  | TP_TARGET_TRUSTED => exists a, sent_to s = Some a /\ addr_equal original a = false
  end.

(** What the result of an attempt says of its socket. *)
Definition reported (o : io_outcome) (r : tp_result) : Prop :=
  match r with
  | TP_RES_OK => exists rest, o = IO_DATA 22 rest
  | TP_RES_ALERT => exists rest, o = IO_DATA 21 rest
  | TP_RES_NOT_TLS => exists first rest, o = IO_DATA first rest /\ first <> 22 /\ first <> 21
  | TP_RES_CLOSED => o = IO_EOF
  | TP_RES_RESET => o = IO_SEND_FAILED \/ o = IO_RECV_FAILED
  | TP_RES_TIMEOUT => o = IO_NO_REPLY
  | TP_RES_CONNECT_FAIL => o = IO_NO_CONNECT
  | TP_RES_SKIPPED => False
  end.

(** The server answered with a TLS handshake record or an alert. *)
Definition tls_answer (o : io_outcome) : Prop :=
  exists first rest, o = IO_DATA first rest /\ (first = 22 \/ first = 21).

Lemma reported_result o : reported o (outcome_result o).
Proof.
  destruct o as [| | | | |f l]; cbn; auto. destruct (Z.eqb_spec f 22) as [->|]; [by eexists|].
  destruct (Z.eqb_spec f 21) as [->|]; [by eexists|]. by exists f, l.
Qed.

Lemma reported_committed o r : reported o r -> (committed r = true <-> tls_answer o).
Proof.
  intros H. split.
  - destruct r; try done; intros _; destruct H as [rest ->]; eexists _, rest; (split; [reflexivity|auto]).
  - intros (f & rest & -> & Hf). destruct r; try done.
    + by destruct H.
    + destruct H as (f' & rest' & [= <- <-] & ? & ?). lia.
Qed.

Section run_spec.
Context (transport : dns_transport) (net : nat -> sent -> io_outcome) (out : list Z) (now : Z).
Hypothesis Ht : bytes_transport transport.
Context (c0 : conn).
Hypothesis Hhello : bytes_ok (c_hello c0).
Hypothesis Hfresh : plan_fresh (c_plan c0).

(** What holds between rounds: the path so far, what was sent, and the
    trusted address whenever the resolvers disagree. *)
Record run_path (st : run_state) : Prop := {
  rp_conn : c_original st.1.1 = c_original c0 /\ c_hello st.1.1 = c_hello c0 /\
    c_host st.1.1 = c_host c0;
  rp_path : rtc plan_step (c_plan c0) (c_plan st.1.1);
  rp_log : map sent_step st.2 = map fst (tried (c_plan st.1.1));
  rp_sent : Forall (sent_ok (c_original c0) (c_hello c0) (zlen out)) st.2;
  rp_trusted : trust (c_plan st.1.1) = TP_TRUST_MISMATCH ->
    exists a, c_trusted st.1.1 = Some a /\ addr_equal (c_original c0) a = false;
  rp_results : forall n s x, st.2 !! n = Some s -> tried (c_plan st.1.1) !! n = Some x -> reported (net n s) x.2
}.

Lemma plan_work_le q : rtc plan_step (c_plan c0) q -> plan_work q <= 5.
Proof.
  intros H. pose proof (pi_bound q (plan_reach_inv _ _ Hfresh H)) as Hb. unfold TP_MAX_ATTEMPTS in Hb.
  unfold plan_work. case_bool_decide; lia.
Qed.

Lemma trust_answer_step c st ans :
  tp_plan_next (c_plan c) = TP_NEXT_NEED_DNS ->
  let c' := trust_answer c st ans in
  plan_step (c_plan c) (c_plan c') /\ c_original c' = c_original c /\ c_hello c' = c_hello c /\
  c_host c' = c_host c /\
  (trust (c_plan c') = TP_TRUST_MISMATCH ->
   exists a, c_trusted c' = Some a /\ addr_equal (c_original c) a = false) /\
  tried (c_plan c') = tried (c_plan c).
Proof.
  intros Hn. cbv zeta.
  assert (Hnone : plan_step (c_plan c) (set_trust (c_plan c) TP_TRUST_NONE)) by (by apply step_dns).
  unfold trust_answer. destruct st; try (by repeat split).
  destruct (addrs ans) as [|a l] eqn:E; [by repeat split|].
  destruct (existsb (addr_equal (c_original c)) (a :: l)) eqn:Ex.
  - cbn [set_plan c_plan]. split; [by apply step_dns|]. by repeat split.
  - cbn [c_plan c_trusted]. split; [by apply step_dns|]. repeat split.
    intros _. exists a. split; [done|]. cbn [existsb] in Ex. by apply orb_false_elim in Ex as [? _].
Qed.

Lemma attempt_wp c step :
  bytes_ok (c_hello c) ->
  (target step = TP_TARGET_TRUSTED ->
   exists a, c_trusted c = Some a /\ addr_equal (c_original c) a = false) ->
  wp (attempt net out c step)
    (fun '(r, s) => reported (net (length (tried (c_plan c))) s) r /\ sent_step s = step /\
       sent_ok (c_original c) (c_hello c) (zlen out) s) (fun _ => False).
Proof.
  intros Hh Htr. unfold attempt. cbv zeta. apply wp_bind.
  eapply wp_mono; [| |by apply relay_send_first_wp]; [|done]. intros ws Hws. apply wp_ok.
  split; [|split; [done|split; [done|]]].
  - apply reported_result.
  - cbn [sent_step sent_to]. destruct (target step); [done|by apply Htr].
Qed.

(** The loop goes on only while no attempt was answered. *)
Definition run_going (st : run_state) : Prop :=
  run_path st /\ Forall (fun x => committed x.2 = false) (tried (c_plan st.1.1)).

(** Where a run may end. *)
Definition run_end (e : conn_end) (st : run_state) : Prop :=
  run_path st /\
  match e with
  | COMMITTED s => exists l r, tried (c_plan st.1.1) = l ++ [(s, r)] /\ committed r = true /\
      Forall (fun x => committed x.2 = false) l
  | FAILED => tp_plan_next (c_plan st.1.1) = TP_NEXT_DONE /\
      Forall (fun x => committed x.2 = false) (tried (c_plan st.1.1))
  end.

Lemma run_plan_step_wp st :
  run_going st ->
  wp (run_plan_step transport net out now st)
    (fun x => match x with
     | inl st' => run_going st' /\
         (Z.to_nat (5 - plan_work (c_plan st'.1.1)) < Z.to_nat (5 - plan_work (c_plan st.1.1)))%nat
     | inr (e, st') => run_end e st'
     end) (fun _ => False).
Proof.
  destruct st as [[c dns] log]. intros [Hp Hlast]. pose proof Hp as [(Ho & Hh & Hhost) Hr Hlog Hsent Htr Hres].
  cbn [fst snd] in *. unfold run_plan_step.
  destruct (tp_plan_next_ok (c_plan c)) as [Hok Hlive].
  assert (Hdec : forall q, plan_step (c_plan c) q -> rtc plan_step (c_plan c0) q /\
    (Z.to_nat (5 - plan_work q) < Z.to_nat (5 - plan_work (c_plan c)))%nat).
  { intros q Hq. assert (Hrq : rtc plan_step (c_plan c0) q) by (by eapply rtc_r).
    split; [done|]. pose proof (plan_work_le q Hrq). apply plan_step_work in Hq. lia. }
  destruct (tp_plan_next (c_plan c)) as [step timeout| |] eqn:En.
  - destruct Hok as [[_ _ Hoff] _]. destruct (Hlive ltac:(done)) as [Hroom _].
    apply wp_bind. eapply wp_mono; [| |apply (attempt_wp c step)]; [|done|by rewrite Hh|].
    2: { intros E. rewrite Ho. by apply Htr, Hoff. }
    intros [r s] (Hrep & Hstep & Hs). assert (Hskip : r <> TP_RES_SKIPPED) by (by intros ->). assert (Hlen : length log = length (tried (c_plan c))).
    { apply (f_equal length) in Hlog. by rewrite !length_map in Hlog. } rewrite Ho, Hh in Hs. cbv zeta.
    destruct (Hdec (tp_plan_record (c_plan c) step r)) as [Hr' Hlt]; [by eapply step_attempt|].
    destruct (record_config (c_plan c) step r Hroom) as (Er & Et & _).
    assert (Hp' : run_path (set_plan c (tp_plan_record (c_plan c) step r), dns, log ++ [s])).
    { split; cbn [fst snd set_plan c_plan c_original c_hello c_trusted]; try done.
      - rewrite Er. cbn [tried set_tried]. rewrite !map_app, Hlog. cbn. by rewrite Hstep.
      - apply Forall_app_2; [done|by constructor].
      - by rewrite Et.
      - intros n s' x. rewrite Er. cbn [tried set_tried]. intros H1 H2.
        apply lookup_app_Some in H1 as [H1|[Hn1 H1]], H2 as [H2|[Hn2 H2]].
        + by eapply Hres.
        + apply lookup_lt_Some in H1. lia.
        + apply lookup_lt_Some in H2. lia.
        + apply list_lookup_singleton_Some in H1 as [H1 <-], H2 as [_ <-].
          replace n with (length (tried (c_plan c))) by lia. done. }
    apply wp_if; intros Hcom; apply wp_ok.
    + split; [done|]. cbn [fst snd set_plan c_plan]. rewrite Er. cbn [tried set_tried].
      by exists (tried (c_plan c)), r.
    + split; [|exact Hlt]. split; [done|]. cbn [fst snd set_plan c_plan]. rewrite Er.
      cbn [tried set_tried]. apply Forall_app_2; [done|by constructor].
  - unfold resolve_trusted. apply wp_bind, wp_bind.
    eapply wp_mono; [| |by apply dns_resolve_wp]; [|done]. intros [[st ans] dns'] _.
    apply wp_ok. destruct (trust_answer_step c st ans En) as (Hs & E1 & E2 & E5 & E3 & E4).
    destruct (Hdec _ Hs) as [Hr' Hlt]. apply wp_ok. split; [|exact Hlt]. split.
    + split; cbn [fst snd]; [by rewrite E1, E2, E5|done|by rewrite E4|done|by rewrite <- Ho|by rewrite E4].
    + cbn [fst snd]. by rewrite E4.
  - apply wp_ok. split; [done|]. by split.
Qed.
Lemma run_plan_wp dns :
  wp (run_plan transport net out now c0 dns) (fun '(e, st) => run_end e st) (fun _ => False).
Proof.
  unfold run_plan. apply (wp_loop run_going (fun st => Z.to_nat (5 - plan_work (c_plan st.1.1)))).
  - intros st Hst. eapply wp_mono; [| |by apply run_plan_step_wp]; [|done]. by intros [st'|[e st']].
  - destruct Hfresh as [E1 E2]. split; [split|]; cbn [fst snd];
      [done|apply rtc_refl|by rewrite E1|constructor|by rewrite E2|done|].
    by rewrite E1.
  - cbn [fst snd]. destruct Hfresh as [E1 E2]. unfold plan_work. rewrite E1, E2. vm_compute. lia.
Qed.
End run_spec.

(** C26: a connection's attempt loop always ends (six rounds suffice: at most
    four attempts and one lookup), never leaves a buffer, and follows the
    plan: what it did is a path of the plan, each attempt is in the log with
    what was sent. An attempt to the application's address goes to exactly
    that address, one to the trusted address goes to an address the trusted
    resolver gave that differs from it. What is sent is the client's ClientHello
    in the form of the step's strategy: for the record strategies the same
    bytes in two TLS records, cut in the SNI hostname and written in the
    strategy's two pieces, unchanged only when they are not a record that can
    be cut there; unchanged, in one write, for every other strategy. The result
    recorded for an attempt is what its socket did. The loop ends with
    COMMITTED exactly when the last attempt was answered with a TLS handshake
    record or an alert and no attempt before it was, and with FAILED only when
    none was and the plan has nothing left. *)
Theorem run_plan_correct transport net out now c dns :
  bytes_transport transport -> bytes_ok (c_hello c) -> plan_fresh (c_plan c) ->
  exists e c' dns' log,
    run_plan transport net out now c dns = Ok (e, (c', dns', log)) /\
    rtc plan_step (c_plan c) (c_plan c') /\ plan_inv (c_plan c') /\
    map sent_step log = map fst (tried (c_plan c')) /\
    Forall (sent_ok (c_original c) (c_hello c) (zlen out)) log /\
    (forall n s x, log !! n = Some s -> tried (c_plan c') !! n = Some x -> reported (net n s) x.2) /\
    match e with
    | COMMITTED step => exists before s, log = before ++ [s] /\ sent_step s = step /\
        tls_answer (net (length before) s) /\
        forall n s', before !! n = Some s' -> ~ tls_answer (net n s')
    | FAILED => tp_plan_next (c_plan c') = TP_NEXT_DONE /\
        forall n s', log !! n = Some s' -> ~ tls_answer (net n s')
    end.
Proof.
  intros Ht Hh Hf. pose proof (run_plan_wp transport net out now Ht c Hh Hf dns) as W.
  destruct (run_plan transport net out now c dns) as [[e [[c' dns'] log]]| |]; [|done|done].
  destruct W as [[_ Hr Hl Hs _ Hres] He]. cbn [fst snd] in *. exists e, c', dns', log.
  split; [done|]. split; [done|]. split; [by eapply plan_reach_inv|]. split; [done|]. split; [done|]. split; [done|].
  assert (Hno : forall l tail n s', Forall (fun x => committed x.2 = false) l -> tried (c_plan c') = l ++ tail ->
    (n < length l)%nat -> log !! n = Some s' -> ~ tls_answer (net n s')).
  { intros l tail n s' Hl' Et Hn Hlog Ha. destruct (l !! n) as [x|] eqn:Ex; [|apply lookup_ge_None in Ex; lia].
    rewrite Forall_lookup in Hl'. specialize (Hl' n x Ex).
    assert (Hx : tried (c_plan c') !! n = Some x) by (rewrite Et; by apply lookup_app_l_Some).
    apply (reported_committed _ _ (Hres n s' x Hlog Hx)) in Ha. congruence. }
  destruct e as [step|].
  - destruct He as (l & r & Et & Hc & Hu). rewrite Et, map_app in Hl. cbn [map fst] in Hl.
    apply map_eq_app in Hl as (before & [|s tl] & El & Hb & Hs'); [done|]. injection Hs' as Hs' Htl.
    apply map_eq_nil in Htl as ->. assert (Hlen : length before = length l) by (apply (f_equal length) in Hb; by rewrite !length_map in Hb).
    exists before, s. split; [done|]. split; [done|]. split.
    + apply (reported_committed _ r); [|exact Hc]. apply (Hres _ s (step, r)).
      * rewrite El. by apply list_lookup_middle.
      * rewrite Et, Hlen. by apply list_lookup_middle.
    + intros n s' Hn. pose proof (lookup_lt_Some _ _ _ Hn). apply (Hno l _ n s' Hu Et); [lia|].
      rewrite El. by apply lookup_app_l_Some.
  - destruct He as [Hd Hu]. split; [done|]. intros n s' Hn. apply (Hno _ [] n s' Hu); [by rewrite app_nil_r| |done].
    apply (f_equal length) in Hl. rewrite !length_map in Hl. apply lookup_lt_Some in Hn. lia.
Qed.

Definition sample_conn : conn :=
  mk_conn false (mk_addr 4 (repeat 9 16)) [22; 3; 1; 0; 5; 1; 2; 3; 4; 5] (str "example.org")
    plain_plan None 77.

(** DIRECT is reset; the bypass is answered. *)
Definition sample_net (n : nat) (s : sent) : io_outcome :=
  if (n =? 0)%nat then IO_RECV_FAILED else IO_DATA 22 [3; 3].

Lemma run_plan_correct_witness :
  exists c' dns' log,
    run_plan (fun _ _ => TR_TIMEOUT) sample_net (repeat 0 20) 1000 sample_conn (dns_resolver_init 1 0)
      = Ok (COMMITTED (mk_step TP_TARGET_ORIGINAL STRATEGY_TLSREC), (c', dns', log)) /\
    Forall (sent_ok (mk_addr 4 (repeat 9 16)) [22; 3; 1; 0; 5; 1; 2; 3; 4; 5] 20) log /\
    map sent_writes log = [[[22; 3; 1; 0; 5; 1; 2; 3; 4; 5]]; [[22; 3; 1; 0; 1; 1]; [22; 3; 1; 0; 4; 2; 3; 4; 5]]] /\
    exists s, last log = Some s /\ tls_answer (sample_net 1 s).
Proof.
  destruct (run_plan_correct (fun _ _ => TR_TIMEOUT) sample_net (repeat 0 20) 1000 sample_conn
    (dns_resolver_init 1 0)) as (e & c' & dns' & log & E & _ & _ & _ & Hs & _ & He).
  - intros idx q reply H. discriminate H.
  - apply bytes_okb_ok. vm_compute. reflexivity.
  - split; reflexivity.
  - assert (Hv : (run_plan (fun _ _ => TR_TIMEOUT) sample_net (repeat 0 20) 1000 sample_conn
        (dns_resolver_init 1 0) ≫= fun x => Ok (x.1, map sent_writes x.2.2))
        = Ok (COMMITTED (mk_step TP_TARGET_ORIGINAL STRATEGY_TLSREC),
              [[[22; 3; 1; 0; 5; 1; 2; 3; 4; 5]]; [[22; 3; 1; 0; 1; 1]; [22; 3; 1; 0; 4; 2; 3; 4; 5]]]))
      by (vm_compute; reflexivity).
    rewrite E in Hv. cbn [mbind res_bind fst snd] in Hv. injection Hv as -> Hw.
    exists c', dns', log. split; [exact E|]. split; [exact Hs|]. split; [exact Hw|].
    destruct He as (before & s & El & _ & Ha & _). exists s. rewrite El, last_snoc. split; [reflexivity|].
    rewrite El, map_app in Hw. apply (f_equal length) in Hw. rewrite length_app, !length_map in Hw. cbn in Hw.
    replace (length before) with 1%nat in Ha by lia. exact Ha.
Defined.
