(* ===== verification/Daemon.v ===== *)
(** * The transparent daemon's shared state ([src/transparent/conn.c],
    [verify.c], [transparent.c])

    Connections, the verifier and the network watcher run in their own
    threads and meet in [g_tpd] and a few static tables, each under its lock.
    Every critical section is a definition; a handler is their composition,
    and [daemon_step] interleaves the critical sections of all threads in any
    order. *)

From stdpp Require Import base list numbers strings option relations gmap.
From Stdlib Require Import ZArith Lia.
From S2P Require Import Prelude Slots Text Strategy Discovery Policy Decisions Dns Forward Relay Conn.

(** ** Data *)

Inductive verify_kind := TPD_VERIFY_DIRECT | TPD_VERIFY_CONFIRM.

#[global] Instance verify_kind_eq_dec : EqDecision verify_kind.
Proof. solve_decision. Defined.

Record verify_job := mk_job {
  job_kind : verify_kind;
  job_host : list Z;
  job_family : Z;
  job_fp : Z;
  job_step : tp_step;
  job_addr : option dns_addr;
  job_original : dns_addr
}.

Definition QUEUE_MAX : Z := 16.
Definition RECENT_MAX : nat := 128.
Definition RECENT_WINDOW_S : Z := 600.
Definition SUSPICIOUS_MAX_UP_BYTES : Z := 100.
Definition SUSPICIOUS_MAX_SECONDS : Z := 15.

Record recent := mk_recent {
  rec_host : list Z;
  rec_kind : verify_kind;
  rec_family : Z;
  rec_step : tp_step;
  rec_at : Z
}.

(** The counters of [t_tpd_stats]; the two DNS ones are counted by the
    forwarder. *)
Inductive tpd_counter :=
| S_flows_total | S_flows_active | S_passthrough | S_direct | S_bypassed | S_failed
| S_verified_ok | S_verified_bad | S_dns_queries | S_dns_failures.

#[global] Instance tpd_counter_eq_dec : EqDecision tpd_counter.
Proof. solve_decision. Defined.

Definition tpd_stats : Type := tpd_counter -> Z.

(** [stats.k += n] on an unsigned long. *)
Definition add_stat (k : tpd_counter) (n : Z) (s : tpd_stats) : tpd_stats :=
  fun x => if decide (x = k) then u64 (s x + n) else s x.

(** The part of [g_tpd] that connections, the verifier and the watcher share,
    with the static tables of verify.c and quic.c. Options, listener flags and
    the transports' own state are not used by what is modelled here. *)
Record tpd := mk_tpd {
  g_cfg : strategy_config;
  g_dec : tp_decisions;
  g_fp : Z;
  g_preferred : strategy;
  g_stats : tpd_stats;
  g_last_learned : list Z;
  g_dns : dns_resolver;
  g_seen : list quic_seen;
  g_queue : list verify_job;
  g_recent : list recent;
  g_recent_next : nat
}.

Definition set_dec (g : tpd) (d : tp_decisions) : tpd :=
  mk_tpd (g_cfg g) d (g_fp g) (g_preferred g) (g_stats g) (g_last_learned g) (g_dns g) (g_seen g)
    (g_queue g) (g_recent g) (g_recent_next g).
Definition set_stats (g : tpd) (s : tpd_stats) : tpd :=
  mk_tpd (g_cfg g) (g_dec g) (g_fp g) (g_preferred g) s (g_last_learned g) (g_dns g) (g_seen g)
    (g_queue g) (g_recent g) (g_recent_next g).
Definition set_preferred (g : tpd) (s : strategy) : tpd :=
  mk_tpd (g_cfg g) (g_dec g) (g_fp g) s (g_stats g) (g_last_learned g) (g_dns g) (g_seen g)
    (g_queue g) (g_recent g) (g_recent_next g).
Definition set_learned (g : tpd) (s : list Z) : tpd :=
  mk_tpd (g_cfg g) (g_dec g) (g_fp g) (g_preferred g) (g_stats g) s (g_dns g) (g_seen g)
    (g_queue g) (g_recent g) (g_recent_next g).
Definition set_dns (g : tpd) (r : dns_resolver) : tpd :=
  mk_tpd (g_cfg g) (g_dec g) (g_fp g) (g_preferred g) (g_stats g) (g_last_learned g) r (g_seen g)
    (g_queue g) (g_recent g) (g_recent_next g).
Definition set_seen (g : tpd) (l : list quic_seen) : tpd :=
  mk_tpd (g_cfg g) (g_dec g) (g_fp g) (g_preferred g) (g_stats g) (g_last_learned g) (g_dns g) l
    (g_queue g) (g_recent g) (g_recent_next g).
Definition set_verify (g : tpd) (q : list verify_job) (r : list recent) (n : nat) : tpd :=
  mk_tpd (g_cfg g) (g_dec g) (g_fp g) (g_preferred g) (g_stats g) (g_last_learned g) (g_dns g)
    (g_seen g) q r n.
Definition set_cfg (g : tpd) (cfg : strategy_config) : tpd :=
  mk_tpd cfg (g_dec g) (g_fp g) (g_preferred g) (g_stats g) (g_last_learned g) (g_dns g) (g_seen g)
    (g_queue g) (g_recent g) (g_recent_next g).

Definition bump_stat (g : tpd) (k : tpd_counter) : tpd := set_stats g (add_stat k 1 (g_stats g)).

(** ** The verifier's queue *)

Definition seen_recently (g : tpd) (job : verify_job) (now : Z) : bool :=
  existsb (fun r => negb (rec_at r =? 0) && (now - rec_at r <? RECENT_WINDOW_S)
                    && bool_decide (rec_kind r = job_kind job)
                    && (rec_family r =? job_family job)
                    && bool_decide (rec_step r = job_step job)
                    && ieq (rec_host r) (job_host job)) (g_recent g).

Definition tpd_verify_submit (g : tpd) (job : verify_job) (now : Z) : tpd :=
  if negb (seen_recently g job now) && (zlen (g_queue g) <? QUEUE_MAX) then
    set_verify g (g_queue g ++ [job])
      (<[g_recent_next g := mk_recent (job_host job) (job_kind job) (job_family job)
                              (job_step job) now]> (g_recent g))
      ((g_recent_next g + 1) mod RECENT_MAX)%nat
  else g.

(** ** A connection's shared-state steps *)

Definition family_of (c : conn) : Z := if c_v6 c then 6 else 4.

(** [fill_plan]: the plan's inputs, read under the lock. *)
Definition fill_plan (g : tpd) (c : conn) (now : Z) : conn :=
  if zlen (c_host c) =? 0 then set_plan c tp_plan_init else
  let host := c_host c in
  let manual := primary <$> strategy_has_explicit_rule (g_cfg g) host in
  let cached := dec_step <$> tp_decision_lookup (g_dec g) host (g_fp g) (family_of c) now in
  mk_conn (c_v6 c) (c_original c) (c_hello c) host
    (mk_plan true (tp_host_listed host) (g_preferred g) manual cached
       (tp_in_cooldown (g_dec g) host now)
       (tp_direct_bad (g_dec g) host (g_fp g) (family_of c) now) TP_TRUST_UNKNOWN [])
    (c_trusted c) (g_fp g).

Definition is_direct (s : tp_step) : bool := bool_decide (s = DIRECT).

Definition make_job (c : conn) (kind : verify_kind) (step : tp_step) : verify_job :=
  mk_job kind (c_host c) (family_of c) (c_fp c) step
    (match target step with
     | TP_TARGET_TRUSTED => c_trusted c
     | TP_TARGET_ORIGINAL => Some (c_original c)
     end) (c_original c).

(** [tpd_quic_block_sockaddr] *)
Definition quic_block (g : tpd) (a : dns_addr) (now : Z) : tpd :=
  set_seen g (snd (tpd_quic_block_answer (g_seen g) (mk_answer [a] 0) now)).

(** [commit] is four critical sections, with the whole relayed connection
    between the third and the last; each is a definition of its own. *)
Definition commit_locked (grow : bool) (g : tpd) (c : conn) (step : tp_step) (now : Z) : tpd :=
  if is_direct step then
    let g := bump_stat g S_direct in
    if bool_decide (tp_plan_source (c_plan c) = TP_SRC_MANUAL) then g else
    set_dec g (tp_decision_success grow (g_dec g) (c_host c) (c_fp c) (family_of c) now step)
  else set_preferred (bump_stat g S_bypassed) (step_strategy step).

Definition commit_block (g : tpd) (c : conn) (step : tp_step) (now : Z) : tpd :=
  if is_direct step then g else quic_block g (c_original c) now.

Definition commit_confirm (g : tpd) (c : conn) (step : tp_step) (now : Z) : tpd :=
  let src := tp_plan_source (c_plan c) in
  if negb (is_direct step) && negb (bool_decide (src = TP_SRC_MANUAL))
     && negb (bool_decide (src = TP_SRC_CACHED))
  then tpd_verify_submit g (make_job c TPD_VERIFY_CONFIRM step) now else g.

Definition commit_relayed (g : tpd) (c : conn) (step : tp_step) (rs : relay_stats)
    (started now : Z) : tpd :=
  let src := tp_plan_source (c_plan c) in
  if is_direct step && negb (bool_decide (src = TP_SRC_MANUAL)) && client_eof_first rs
     && (up_bytes rs <? SUSPICIOUS_MAX_UP_BYTES) && (now - started <=? SUSPICIOUS_MAX_SECONDS)
  then tpd_verify_submit g (make_job c TPD_VERIFY_DIRECT step) now else g.

(** Undisturbed by other threads: [started] is when the plan began, [ended]
    when the relay was over. *)
Definition commit (grow : bool) (g : tpd) (c : conn) (step : tp_step) (rs : relay_stats)
    (started now ended : Z) : tpd :=
  let g := commit_locked grow g c step now in
  let g := commit_block g c step now in
  let g := commit_confirm g c step now in
  commit_relayed g c step rs started ended.

(** The end of [run_plan] when nothing worked. *)
Definition plan_failed (g : tpd) (c : conn) (now : Z) : tpd :=
  let g := bump_stat g S_failed in
  match manual (c_plan c) with
  | Some _ => g
  | None => set_dec g (tp_decision_failure (g_dec g) (c_host c) (c_fp c) (family_of c) now)
  end.

(** ** The verifier's and the watcher's steps *)

(** [snprintf(last_learned, sizeof(last_learned), "%s %s+%s", ...)] *)
Definition learned_text (job : verify_job) : list Z :=
  bsub (job_host job ++ 32 :: tp_target_name (target (job_step job))
          ++ 43 :: strategy_name (step_strategy (job_step job))) 0 (STRATEGY_DOMAIN_MAX + 64 - 1).

(** The job at the front of the queue, and the rest ([verifier_main]). *)
Definition verifier_take (g : tpd) : option (verify_job * tpd) :=
  match g_queue g with
  | [] => None
  | job :: queue => Some (job, set_verify g queue (g_recent g) (g_recent_next g))
  end.

(** The locked part of [apply_result]. *)
Definition apply_locked (grow : bool) (g : tpd) (job : verify_job) (r : probe_result) (now : Z)
  : tpd :=
  let current := g_fp g =? job_fp job in
  let g := match r with
           | PROBE_SUCCESS => bump_stat g S_verified_ok
           | PROBE_REMOTE_REJECTED => bump_stat g S_verified_bad
           | _ => g
           end in
  match current, job_kind job, r with
  | true, TPD_VERIFY_DIRECT, PROBE_REMOTE_REJECTED =>
      set_dec g (tp_direct_bad_mark (g_dec g) (job_host job) (job_fp job) (job_family job) now)
  | true, TPD_VERIFY_CONFIRM, PROBE_SUCCESS =>
      set_learned (set_dec g (tp_decision_success grow (g_dec g) (job_host job) (job_fp job)
                                (job_family job) now (job_step job))) (learned_text job)
  | _, _, _ => g
  end.

(** What follows it: the QUIC blocks of a confirmed bypass. *)
Definition apply_blocks (current : bool) (g : tpd) (job : verify_job) (r : probe_result) (now : Z)
  : tpd :=
  match current, job_kind job, r with
  | true, TPD_VERIFY_CONFIRM, PROBE_SUCCESS =>
      let g := match job_addr job with Some a => quic_block g a now | None => g end in
      quic_block g (job_original job) now
  | _, _, _ => g
  end.

Definition apply_result (grow : bool) (g : tpd) (job : verify_job) (r : probe_result) (now : Z)
  : tpd :=
  apply_blocks (g_fp g =? job_fp job) (apply_locked grow g job r now) job r now.

(** The locked part of [check_network], and what a change throws away. *)
Definition network_locked (g : tpd) (fp : Z) : tpd :=
  if fp =? g_fp g then g else
  mk_tpd (g_cfg g) (tp_decisions_network_changed (g_dec g)) fp STRATEGY_PASS (g_stats g)
    (g_last_learned g) (g_dns g) (g_seen g) (g_queue g) (g_recent g) (g_recent_next g).

Definition network_forget (g : tpd) : tpd :=
  set_seen (set_dns g (dns_cache_flush (g_dns g))) tpd_quic_forget.

Definition check_network (g : tpd) (fp : Z) : tpd :=
  if fp =? g_fp g then g else network_forget (network_locked g fp).

(** ** Files *)

(** [load_strategy_conf]: [None] is an unreadable file. *)
Definition load_strategy_conf (g : tpd) (text : option (list Z)) : res unit tpd :=
  match text with
  | None => Ok (set_cfg g strategy_config_init)
  | Some text =>
      '(cfg, _) ← strategy_config_parse strategy_config_init text;
      Ok (set_cfg g cfg)
  end.

Definition load_decisions (grow : tp_decisions -> bool) (g : tpd) (text : option (list Z))
  : res unit tpd :=
  match text with
  | None => Ok g
  | Some text => '(d, _) ← tp_decisions_parse grow (g_dec g) text; Ok (set_dec g d)
  end.

(** [save_decisions]: the text to write, if any; [alloc] is [malloc]. *)
Definition save_decisions (alloc : bool) (g : tpd) : tpd * option (list Z) :=
  if negb (dirty (g_dec g)) then (g, None) else
  let size := 128 + zlen (entries (g_dec g)) * (STRATEGY_DOMAIN_MAX + 96) in
  let text := if alloc then tp_decisions_serialize (g_dec g) size else [] in
  if 0 <? zlen text
  then (set_dec g (set_entries (g_dec g) (entries (g_dec g)) false), Some text)
  else (g, None).

(** ** One connection from accept to close *)

Definition conn_begin (g : tpd) : tpd := bump_stat (bump_stat g S_flows_total) S_flows_active.
Definition conn_close (g : tpd) : tpd :=
  set_stats g (add_stat S_flows_active (-1) (g_stats g)).

(** No hostname, host in cooldown (unless known-blocked), manual "pass". *)
Definition goes_through (p : tp_plan) : bool :=
  negb (has_host p) || (in_cooldown p && negb (listed p))
  || bool_decide (manual p = Some STRATEGY_PASS).

(** Is the client's connection reset rather than closed? *)
Definition ends_in_reset (p : tp_plan) : bool :=
  has_host p &&
  match last (tried p) with Some (_, r) => negb (committed r) | None => false end.

Section handle.
Context (transport : dns_transport) (net : nat -> sent -> io_outcome).
(** The arrays on the stack: [out] of the relay, [reply] and [host] of the
    connection. *)
Context (out reply host : list Z).
(** How the relay ends, whether memory is left, and the clock at the plan,
    its start, the lookup, the decision and the end. *)
Context (rs : relay_stats) (grow : bool) (planned started looked_up decided ended : Z).

Definition tpd_handle_connection (g : tpd) (v6 : bool) (original : dns_addr)
    (chunks : list (list Z)) : res unit (tpd * bool * list sent) :=
  let g := conn_begin g in
  '(hello, name) ← read_client_hello chunks reply host;
  let c := fill_plan g (mk_conn v6 original hello name tp_plan_init None 0) planned in
  '(g, c, log) ←
    (if goes_through (c_plan c) then Ok (bump_stat g S_passthrough, c, []) else
     '(e, (c, dns, log)) ← run_plan transport net out looked_up c (g_dns g);
     let g := set_dns g dns in
     Ok (match e with
         | COMMITTED step => commit grow g c step rs started decided ended
         | FAILED => plan_failed g c decided
         end, c, log));
  Ok (conn_close g, ends_in_reset (c_plan c), log).
End handle.

(** ** The daemon as a whole *)

(** The handshakes that verified a certificate: for which host, network and
    family, over which step. *)
Definition verified_log : Type := list ((list Z * Z * Z) * tp_step).

Definition job_key (job : verify_job) : list Z * Z * Z :=
  host_key (job_host job) (job_fp job) (job_family job).

(** The shared state, the job the verifier is working on, and, for the
    statements only, the connections open and the handshakes verified. *)
Record dstate := mk_ds {
  ds_g : tpd;
  ds_job : option verify_job;
  ds_open : nat;
  ds_log : verified_log
}.

Definition verified_now (job : verify_job) (r : probe_result) (h : verified_log) : verified_log :=
  match r with PROBE_SUCCESS => (job_key job, job_step job) :: h | _ => h end.

(** One critical section of some thread. What a connection thread brings along
    ([c], [step], the clock) is arbitrary: it was computed from an older state.
    Only connections with a hostname run a plan. *)
Inductive daemon_step : dstate -> dstate -> Prop :=
| step_begin g job n h :
    daemon_step (mk_ds g job n h) (mk_ds (conn_begin g) job (S n) h)
| step_passthrough g job n h :
    daemon_step (mk_ds g job n h) (mk_ds (bump_stat g S_passthrough) job n h)
| step_commit grow g job n h c step now :
    0 < zlen (c_host c) ->
    daemon_step (mk_ds g job n h) (mk_ds (commit_locked grow g c step now) job n h)
| step_block g job n h a now :
    daemon_step (mk_ds g job n h) (mk_ds (quic_block g a now) job n h)
| step_confirm g job n h c step now :
    0 < zlen (c_host c) ->
    daemon_step (mk_ds g job n h) (mk_ds (commit_confirm g c step now) job n h)
| step_relayed g job n h c step rs started now :
    0 < zlen (c_host c) ->
    daemon_step (mk_ds g job n h) (mk_ds (commit_relayed g c step rs started now) job n h)
| step_failed g job n h c now :
    0 < zlen (c_host c) ->
    daemon_step (mk_ds g job n h) (mk_ds (plan_failed g c now) job n h)
| step_close g job n h :
    daemon_step (mk_ds g job (S n) h) (mk_ds (conn_close g) job n h)
| step_take g job g' n h :
    verifier_take g = Some (job, g') ->
    daemon_step (mk_ds g None n h) (mk_ds g' (Some job) n h)
| step_apply grow g job n h r now :
    daemon_step (mk_ds g (Some job) n h)
      (mk_ds (apply_locked grow g job r now) None n (verified_now job r h))
| step_network g job n h fp :
    daemon_step (mk_ds g job n h) (mk_ds (network_locked g fp) job n h)
| step_forget g job n h :
    daemon_step (mk_ds g job n h) (mk_ds (network_forget g) job n h)
| step_resolver g job n h r :
    daemon_step (mk_ds g job n h) (mk_ds (set_dns g r) job n h)
| step_reload g job n h text g' :
    load_strategy_conf g text = Ok g' -> daemon_step (mk_ds g job n h) (mk_ds g' job n h)
| step_save alloc g job n h :
    daemon_step (mk_ds g job n h) (mk_ds (save_decisions alloc g).1 job n h).

(** *** The handlers are runs of it *)

Lemma commit_steps grow g job n h c step rs started now ended :
  0 < zlen (c_host c) ->
  rtc daemon_step (mk_ds g job n h) (mk_ds (commit grow g c step rs started now ended) job n h).
Proof.
  intros Hh. eapply rtc_l; [by apply (step_commit grow _ _ _ _ c step now)|]. unfold commit, commit_block.
  set (g1 := commit_locked _ _ _ _ _). cbv zeta.
  assert (H2 : rtc daemon_step (mk_ds g1 job n h)
    (mk_ds (if is_direct step then g1 else quic_block g1 (c_original c) now) job n h)).
  { destruct (is_direct step); [done|]. apply rtc_once, step_block. }
  etrans; [exact H2|].
  eapply rtc_l; [by apply (step_confirm _ _ _ _ c step now)|].
  apply rtc_once. by apply step_relayed.
Qed.

Lemma apply_result_steps grow g job n h r now :
  rtc daemon_step (mk_ds g (Some job) n h)
    (mk_ds (apply_result grow g job r now) None n (verified_now job r h)).
Proof.
  eapply rtc_l; [apply (step_apply grow)|]. unfold apply_result, apply_blocks.
  destruct (g_fp g =? job_fp job), (job_kind job), r; try done.
  destruct (job_addr job); [eapply rtc_l; [apply step_block|]|]; apply rtc_once, step_block.
Qed.

Lemma check_network_steps g job n h fp :
  rtc daemon_step (mk_ds g job n h) (mk_ds (check_network g fp) job n h).
Proof.
  unfold check_network. destruct (fp =? g_fp g); [done|].
  eapply rtc_l; [apply step_network|]. apply rtc_once, step_forget.
Qed.

(** ** Every learned decision was verified *)

Lemma stored_inv grow k v m m' k' v' :
  stored grow k v m m' -> m' !! k' = Some v' -> m !! k' = Some v' \/ (k' = k /\ v' = v).
Proof.
  assert (Hins : forall m0 : gmap (list Z * Z * Z) (tp_step * Z), (forall v0, m0 !! k' = Some v0 -> m !! k' = Some v0) ->
    <[k := v]> m0 !! k' = Some v' -> m !! k' = Some v' \/ (k' = k /\ v' = v)).
  { intros m0 H0 [[<- <-]|[_ H]]%lookup_insert_Some; auto. }
  intros [| |k1 v1 _ _ _ _|]; try (by apply Hins; auto); [|by left].
  apply Hins. intros v0 [_ H]%lookup_delete_Some. done.
Qed.

Lemma success_learned grow d h fp family now step k s v :
  decisions_ok d ->
  decision_map (entries (tp_decision_success grow d h fp family now step)) !! k = Some (s, v) ->
  decision_map (entries d) !! k = Some (s, v) \/
  (step <> DIRECT /\ k = host_key h fp family /\ s = step).
Proof.
  intros Hd H. destruct (tp_decision_success_spec grow d h fp family now step Hd) as (_ & _ & _ & Hm).
  destruct (_ || _); [rewrite Hm in H; auto|]. case_bool_decide as Hdir.
  { rewrite Hm, lookup_delete_Some in H. destruct H; auto. }
  destruct Hm as [(v0 & _ & _ & Hm)|Hst]; [rewrite Hm in H; auto|].
  destruct (stored_inv _ _ _ _ _ _ _ Hst H) as [?|[-> [= -> ->]]]; auto.
Qed.

(** A decision is backed by the file it was loaded from or by a handshake. *)
Definition backed (d0 : tp_decisions) (h : verified_log) (k : list Z * Z * Z) (s : tp_step) : Prop :=
  (k, s) ∈ h \/ exists v, decision_map (entries d0) !! k = Some (s, v).

Section learned.
Context (d0 : tp_decisions).

Definition job_ok (job : verify_job) : Prop := 0 < zlen (job_host job).

Record learned_ok (st : dstate) : Prop := {
  lo_dec : decisions_ok (g_dec (ds_g st));
  lo_verified : forall k s v, decision_map (entries (g_dec (ds_g st))) !! k = Some (s, v) ->
    backed d0 (ds_log st) k s;
  lo_queue : Forall job_ok (g_queue (ds_g st));
  lo_job : forall job, ds_job st = Some job -> job_ok job;
  lo_open : g_stats (ds_g st) S_flows_active = u64 (Z.of_nat (ds_open st))
}.

(** Steps that leave the decisions, the queue and the count of connections
    alone. *)
Lemma learned_same g g' job n h :
  g_dec g' = g_dec g -> g_queue g' = g_queue g ->
  g_stats g' S_flows_active = g_stats g S_flows_active ->
  learned_ok (mk_ds g job n h) -> learned_ok (mk_ds g' job n h).
Proof. intros E1 E2 E3 [H1 H2 H3 H4 H5]. split; cbn [ds_g ds_log ds_open] in *; rewrite ?E1, ?E2, ?E3; done. Qed.

Lemma set_dec_success_learned grow g job n h host fp family now step :
  learned_ok (mk_ds g job n h) -> step = DIRECT \/ backed d0 h (host_key host fp family) step ->
  learned_ok (mk_ds (set_dec g (tp_decision_success grow (g_dec g) host fp family now step)) job n h).
Proof.
  intros [Hd Hv Hq Hj Ho] Hs. split; cbn [ds_g ds_log ds_open g_dec set_dec] in *; try done.
  - by destruct (tp_decision_success_spec grow (g_dec g) host fp family now step Hd).
  - intros k s v [H|(Hne & -> & ->)]%success_learned; [by eapply Hv| |done].
    by destruct Hs.
Qed.

Lemma verify_submit_learned g job n h j now :
  job_ok j -> learned_ok (mk_ds g job n h) -> learned_ok (mk_ds (tpd_verify_submit g j now) job n h).
Proof.
  intros Hj Hg. unfold tpd_verify_submit. destruct (_ && _); [|done].
  destruct Hg as [H1 H2 H3 H4 H5]. split; try done. cbn [ds_g g_queue set_verify] in *.
  apply Forall_app_2; [done|by constructor].
Qed.

Lemma commit_locked_learned grow g job n h c step now :
  learned_ok (mk_ds g job n h) -> learned_ok (mk_ds (commit_locked grow g c step now) job n h).
Proof.
  intros Hg. unfold commit_locked, is_direct. case_bool_decide as Hd; [|by apply (learned_same g)].
  assert (Hb : learned_ok (mk_ds (bump_stat g S_direct) job n h)) by (by apply (learned_same g)).
  case_bool_decide; [done|]. apply set_dec_success_learned; [done|by left].
Qed.

Lemma plan_failed_learned g job n h c now :
  0 < zlen (c_host c) ->
  learned_ok (mk_ds g job n h) -> learned_ok (mk_ds (plan_failed g c now) job n h).
Proof.
  intros Hh Hg. assert (Hb : learned_ok (mk_ds (bump_stat g S_failed) job n h)) by (by apply (learned_same g)).
  unfold plan_failed. destruct (manual (c_plan c)); [done|]. destruct Hb as [Hd Hv Hq Hj Ho].
  destruct (tp_decision_failure_map (g_dec g) (c_host c) (c_fp c) (family_of c) now Hd Hh) as [H1 H2].
  split; try done. cbn [ds_g ds_log g_dec set_dec bump_stat set_stats] in *.
  intros k s v. rewrite H2, lookup_delete_Some. intros [_ H]. by eapply Hv.
Qed.

Lemma backed_more h x k s : backed d0 h k s -> backed d0 (x :: h) k s.
Proof. intros [H|H]; [left; by apply list_elem_of_further|by right]. Qed.

Lemma apply_locked_learned grow g job n h r now :
  learned_ok (mk_ds g (Some job) n h) ->
  learned_ok (mk_ds (apply_locked grow g job r now) None n (verified_now job r h)).
Proof.
  intros Hg. pose proof (lo_job _ Hg job eq_refl) as Hj.
  assert (Hlog : learned_ok (mk_ds g None n (verified_now job r h))).
  { destruct Hg as [H1 H2 H3 H4 H5]. split; try done. cbn [ds_g ds_log] in *.
    intros k s v H. apply H2 in H. destruct r; [by apply backed_more|done..]. }
  assert (Hst : forall k, k <> S_flows_active ->
    learned_ok (mk_ds (bump_stat g k) None n (verified_now job r h))).
  { intros k Hk. apply (learned_same g); try done. cbn [g_stats bump_stat set_stats]. unfold add_stat. by rewrite decide_False. }
  unfold apply_locked. destruct r; destruct (g_fp g =? job_fp job), (job_kind job); auto.
  - assert (Hd := set_dec_success_learned grow _ None n _ (job_host job) (job_fp job) (job_family job)
      now (job_step job) (Hst S_verified_ok ltac:(done))).
    eapply learned_same; [..|apply Hd]; try done. right. left. apply list_elem_of_here.
  - destruct (Hst S_verified_bad ltac:(done)) as [H1 H2 H3 H4 H5].
    destruct (tp_direct_bad_mark_ok (g_dec g) (job_host job) (job_fp job) (job_family job) now H1 Hj)
      as [M1 M2].
    split; try done. cbn [ds_g ds_log g_dec set_dec bump_stat set_stats] in *. by rewrite M2.
Qed.

Lemma conn_begin_active g :
  g_stats (conn_begin g) S_flows_active = u64 (g_stats g S_flows_active + 1).
Proof. done. Qed.

Lemma conn_close_active g :
  g_stats (conn_close g) S_flows_active = u64 (g_stats g S_flows_active + -1).
Proof. done. Qed.

Lemma u64_shift x n : u64 (u64 x + n) = u64 (x + n).
Proof. unfold u64. by rewrite Z.add_mod_idemp_l by lia. Qed.

Lemma daemon_step_learned s s' : daemon_step s s' -> learned_ok s -> learned_ok s'.
Proof.
  intros [] Hg; try (by apply (learned_same g)).
  - destruct Hg as [H1 H2 H3 H4 H5]. split; try done. cbn [ds_g ds_open] in *.
    rewrite conn_begin_active, H5, u64_shift. f_equal. lia.
  - by apply commit_locked_learned.
  - unfold commit_confirm. destruct (_ && _); [|done]. by apply verify_submit_learned.
  - unfold commit_relayed. destruct (_ && _ && _ && _ && _); [|done]. by apply verify_submit_learned.
  - by apply plan_failed_learned.
  - destruct Hg as [H1 H2 H3 H4 H5]. split; try done. cbn [ds_g ds_open] in *.
    rewrite conn_close_active, H5, u64_shift. f_equal. lia.
  - destruct Hg as [H1 H2 H3 H4 H5]. cbn [ds_g] in *. unfold verifier_take in H.
    destruct (g_queue g) as [|j q] eqn:E; [done|]. injection H as <- <-.
    inversion H3; subst. split; try done. cbn. by intros ? [= <-].
  - by apply apply_locked_learned.
  - unfold network_locked. destruct (fp =? g_fp g); [done|].
    destruct Hg as [[H1 H2 H3 H4 _ _ _ _] Hv Hq Hj Ho].
    destruct tp_decisions_init_ok as [_ _ _ _ I1 I2 I3 I4]. split; [by split|done..].
  - unfold load_strategy_conf in H. destruct text as [text|].
    + destruct (strategy_config_parse _ text) as [[cfg sk]| |]; [|done|done].
      cbn [mbind res_bind] in H. injection H as <-. by apply (learned_same g).
    + injection H as <-. by apply (learned_same g).
  - unfold save_decisions. destruct (negb _); [done|]. cbv zeta. destruct (0 <? _); [|done].
    destruct Hg as [H1 H2 H3 H4 H5]. split; try done. cbn [ds_g fst g_dec set_dec] in *. by destruct H1.
Qed.
End learned.

(** Start-up: the counters and tables are zero, the decisions are what the
    file held. *)
Definition tpd_init (cfg : strategy_config) (d : tp_decisions) (dns : dns_resolver) (fp : Z) : tpd :=
  mk_tpd cfg d fp STRATEGY_PASS (fun _ => 0) [] dns []
    [] (replicate RECENT_MAX (mk_recent [] TPD_VERIFY_DIRECT 0 DIRECT 0)) 0.

(** C21: a bypass is only learned after verification, in every interleaving
    of the critical sections of connections, verifier, network watcher,
    resolver, reload and save. Starting from whatever text the decisions file
    holds, in every state reached, each decision a connection could be given
    ([tp_decision_lookup]) was in that file or is for a key and a step that an
    independent handshake verified with a valid certificate; it is never
    DIRECT and none is given on an unknown network. The count of active flows
    is the number of connections open. *)
Theorem only_verified_decisions grow cfg text dns fp d0 skipped st host fp' family now e :
  tp_decisions_parse grow tp_decisions_init text = Ok (d0, skipped) ->
  rtc daemon_step (mk_ds (tpd_init cfg d0 dns fp) None 0 []) st ->
  g_stats (ds_g st) S_flows_active = u64 (Z.of_nat (ds_open st)) /\
  (tp_decision_lookup (g_dec (ds_g st)) host fp' family now = Some e ->
   backed d0 (ds_log st) (host_key host fp' family) (dec_step e) /\
   dec_step e <> DIRECT /\ fp' <> NETFP_UNKNOWN).
Proof.
  intros Hp Hr. assert (Hg : learned_ok d0 st).
  { revert st Hr. apply (rtc_ind_r (learned_ok d0)); [|intros; by eapply daemon_step_learned].
    pose proof (tp_decisions_parse_ok grow tp_decisions_init text tp_decisions_init_ok) as W.
    rewrite Hp in W. destruct W as [W _].
    split; [done| |constructor|done|done]. intros k s v H. right. by exists v. }
  split; [apply Hg|]. intros Hl.
  pose proof (tp_decision_lookup_map (g_dec (ds_g st)) host fp' family now (do_keys _ (lo_dec _ _ Hg))) as Hm.
  rewrite Hl in Hm. cbn [fmap option_fmap option_map] in Hm.
  destruct (decision_map _ !! host_key host fp' family) as [[s v]|] eqn:E; [|done].
  destruct (negb (fp' =? NETFP_UNKNOWN) && _ && _) eqn:Hc; [|done]. unfold decision_val in Hm.
  injection Hm as Hs Hv. split; [rewrite Hs; by eapply (lo_verified _ _ Hg)|].
  zbool. split; [|done]. apply decision_map_inv in E as (e' & He' & _ & Hval).
  pose proof (do_stored _ (lo_dec _ _ Hg)) as Hst. rewrite Forall_forall in Hst.
  destruct (Hst e' He') as (_ & Hd & _). unfold decision_val in Hval. congruence.
Qed.

(** A connection is committed over TLSREC, then the verifier confirms it. *)
Definition tlsrec_step : tp_step := mk_step TP_TARGET_ORIGINAL STRATEGY_TLSREC.

Definition first_state : tpd :=
  tpd_init strategy_config_init tp_decisions_init (dns_resolver_init 1 0) 77.
Definition committed_state : tpd :=
  commit true first_state (fill_plan first_state sample_conn 1000) tlsrec_step
    (mk_relay 500 9000 false false) 1000 1001 1030.
Definition confirm_job : verify_job :=
  make_job (fill_plan first_state sample_conn 1000) TPD_VERIFY_CONFIRM tlsrec_step.
Definition waiting_state : tpd :=
  set_verify committed_state [] (g_recent committed_state) (g_recent_next committed_state).
Definition learned_state : tpd := apply_result true waiting_state confirm_job PROBE_SUCCESS 1002.

Lemma only_verified_decisions_witness :
  exists e, tp_decision_lookup (g_dec learned_state) (str "Example.org") 77 4 1003 = Some e /\
    backed tp_decisions_init [(job_key confirm_job, tlsrec_step)]
      (host_key (str "Example.org") 77 4) (dec_step e).
Proof.
  eexists. split; [vm_compute; reflexivity|].
  apply (only_verified_decisions (fun _ => true) strategy_config_init [] (dns_resolver_init 1 0) 77
    tp_decisions_init 0 (mk_ds learned_state None 0 [(job_key confirm_job, tlsrec_step)])
    (str "Example.org") 77 4 1003).
  - vm_compute. reflexivity.
  - etrans.
    { apply (commit_steps true first_state None 0 [] (fill_plan first_state sample_conn 1000)
        tlsrec_step (mk_relay 500 9000 false false) 1000 1001 1030). reflexivity. }
    eapply rtc_l.
    { apply (step_take committed_state confirm_job waiting_state 0 []). vm_compute. reflexivity. }
    apply (apply_result_steps true waiting_state confirm_job 0 [] PROBE_SUCCESS 1002).
  - vm_compute. reflexivity.
Defined.

(** ** One connection from accept to close *)

Lemma tpd_verify_submit_stats g job now : g_stats (tpd_verify_submit g job now) = g_stats g.
Proof. unfold tpd_verify_submit. by destruct (_ && _). Qed.

Lemma commit_stats grow g c step rs started now ended :
  g_stats (commit grow g c step rs started now ended)
    = add_stat (if is_direct step then S_direct else S_bypassed) 1 (g_stats g).
Proof.
  assert (H1 : g_stats (commit_locked grow g c step now)
    = add_stat (if is_direct step then S_direct else S_bypassed) 1 (g_stats g)).
  { unfold commit_locked. destruct (is_direct step); [|done]. by case_bool_decide. }
  rewrite <- H1. unfold commit, commit_relayed, commit_confirm, commit_block. cbv zeta.
  destruct (is_direct step); cbn [negb andb].
  - destruct (_ && _ && _ && _); [by rewrite tpd_verify_submit_stats|done].
  - destruct (_ && _); [by rewrite tpd_verify_submit_stats|done].
Qed.

Lemma plan_failed_stats g c now :
  g_stats (plan_failed g c now) = add_stat S_failed 1 (g_stats g).
Proof. unfold plan_failed. by destruct (manual (c_plan c)). Qed.

(** Opening, counting the outcome and closing. *)
Lemma flow_counted (s : tpd_stats) k x :
  (forall y, is_u64 (s y)) -> k <> S_flows_active ->
  add_stat S_flows_active (-1) (add_stat k 1
    (add_stat S_flows_active 1 (add_stat S_flows_total 1 s))) x
  = add_stat k 1 (add_stat S_flows_total 1 s) x.
Proof.
  intros Hs Hk. unfold add_stat. destruct (decide (x = S_flows_active)) as [->|Hx]; [|done].
  destruct (decide (S_flows_active = k)); [congruence|].
  destruct (decide (S_flows_active = S_flows_total)); [done|].
  specialize (Hs S_flows_active). unfold is_u64, u64 in *.
  rewrite Z.add_mod_idemp_l by lia. replace (_ + 1 + -1) with (s S_flows_active) by lia.
  by apply Z.mod_small.
Qed.

(** What [fill_plan] leaves alone, and that the plan is fresh. *)
Lemma fill_plan_conn g c now :
  let c' := fill_plan g c now in
  c_original c' = c_original c /\ c_hello c' = c_hello c /\ c_host c' = c_host c /\
  plan_fresh (c_plan c').
Proof. cbv zeta. unfold fill_plan. by destruct (_ =? 0). Qed.

Lemma zlen_zero {A} (l : list A) : zlen l = 0 <-> l = [].
Proof. unfold zlen. destruct l; cbn [length]; split; done || lia. Qed.

Lemma goes_through_spec g c now :
  let p := c_plan (fill_plan g c now) in
  goes_through p = true <->
  c_host c = [] \/
  (tp_in_cooldown (g_dec g) (c_host c) now = true /\ tp_host_listed (c_host c) = false) \/
  (primary <$> strategy_has_explicit_rule (g_cfg g) (c_host c)) = Some STRATEGY_PASS.
Proof.
  cbv zeta. unfold fill_plan, goes_through.
  destruct (Z.eqb_spec (zlen (c_host c)) 0) as [E|E]; rewrite zlen_zero in E;
    cbn [c_plan set_plan has_host in_cooldown listed manual negb orb].
  - split; [by left|done].
  - rewrite orb_true_iff, andb_true_iff, negb_true_iff, bool_decide_eq_true. tauto.
Qed.

Lemma goes_through_host g c now :
  goes_through (c_plan (fill_plan g c now)) = false ->
  has_host (c_plan (fill_plan g c now)) = true /\ 0 < zlen (c_host c).
Proof.
  unfold fill_plan. destruct (Z.eqb_spec (zlen (c_host c)) 0) as [E|E]; [done|].
  intros _. split; [done|]. pose proof (zlen_nonneg (c_host c)). lia.
Qed.

(** How a handled connection is accounted for. *)
Inductive handled (log : list sent) (reset : bool) : tpd_counter -> Prop :=
| handled_through : log = [] -> reset = false -> handled log reset S_passthrough
| handled_direct l s : log = l ++ [s] -> sent_step s = DIRECT -> reset = false ->
    handled log reset S_direct
| handled_bypassed l s : log = l ++ [s] -> sent_step s <> DIRECT -> reset = false ->
    handled log reset S_bypassed
| handled_failed : reset = negb (bool_decide (log = [])) -> handled log reset S_failed.

Lemma handled_not_active log reset k : handled log reset k -> k <> S_flows_active.
Proof. by destruct 1. Qed.

Section handle_spec.
Context (transport : dns_transport) (net : nat -> sent -> io_outcome) (out reply host : list Z).
Context (rs : relay_stats) (grow : bool) (planned started looked_up decided ended : Z).
Hypothesis Ht : bytes_transport transport.

(** What the plan's run does to the shared state. *)
Lemma run_handled c (g : tpd) :
  bytes_ok (c_hello c) -> plan_fresh (c_plan c) -> has_host (c_plan c) = true ->
  0 < zlen (c_host c) ->
  wp ('(e, (c, dns, log)) ← run_plan transport net out looked_up c (g_dns g);
      Ok (match e with
          | COMMITTED step => commit grow (set_dns g dns) c step rs started decided ended
          | FAILED => plan_failed (set_dns g dns) c decided
          end, c, log))
    (fun '(g', c', log) => exists k,
       handled log (ends_in_reset (c_plan c')) k /\ g_stats g' = add_stat k 1 (g_stats g) /\
       k <> S_passthrough /\ Forall (sent_ok (c_original c) (c_hello c) (zlen out)) log /\
       zlen log <= TP_MAX_ATTEMPTS /\
       (forall job n h, rtc daemon_step (mk_ds g job n h) (mk_ds g' job n h))) (fun _ => False).
Proof.
  intros Hh Hf Hhost Hname. apply wp_bind.
  eapply wp_mono; [| |by apply run_plan_wp]; [|done]. intros [e [[c' dns] log]] [[(_ & _ & Hn) Hr Hlog Hs _ _] He].
  cbn [fst snd] in *. apply wp_ok. pose proof (plan_reach_inv _ _ Hf Hr) as Hinv.
  assert (Hlen : zlen log <= TP_MAX_ATTEMPTS).
  { pose proof (pi_bound _ Hinv) as Hb. unfold zlen in *.
    rewrite <- (length_map fst), <- Hlog, length_map in Hb. done. }
  assert (Hhost' : has_host (c_plan c') = true) by (by rewrite (plan_reach_host _ _ Hr)).
  destruct e as [step|].
  - destruct He as (l & r & Etr & Hcom & _). rewrite Etr, map_app in Hlog. cbn [map fst] in Hlog.
    apply fmap_app_inv in Hlog as (l1 & l2 & E1 & E2 & ->).
    symmetry in E2. apply fmap_cons_inv in E2 as (s & l3 & Es & E3 & ->). symmetry in E3. apply fmap_nil_inv in E3 as ->.
    assert (Hres : ends_in_reset (c_plan c') = false).
    { unfold ends_in_reset. rewrite Etr, last_snoc, Hcom. by rewrite Hhost'. }
    exists (if is_direct step then S_direct else S_bypassed). rewrite commit_stats.
    split; [|split; [done|split; [by destruct (is_direct step)|split; [done|split; [done|]]]]].
    2: { intros job n h. eapply rtc_l; [apply (step_resolver _ _ _ _ dns)|].
         apply commit_steps. by rewrite Hn. }
    unfold is_direct. case_bool_decide as Hd.
    + apply (handled_direct _ _ l1 s); [done|congruence|done].
    + apply (handled_bypassed _ _ l1 s); [done|congruence|done].
  - exists S_failed. rewrite plan_failed_stats.
    split; [|split; [done|split; [done|split; [done|split; [done|]]]]].
    2: { intros job n h. eapply rtc_l; [apply (step_resolver _ _ _ _ dns)|].
         apply rtc_once. apply step_failed. by rewrite Hn. }
    constructor.
    unfold ends_in_reset. rewrite Hhost'. cbn [andb]. destruct He as [_ Hu].
    destruct (last (tried (c_plan c'))) as [[s r]|] eqn:E.
    + pose proof E as [l El]%last_Some. rewrite El in Hu. apply Forall_app in Hu as [_ Hu]. inversion Hu as [|? ? Hu' _]; subst.
      cbn [snd] in Hu'. rewrite Hu'. apply last_Some in E as [l' E]. rewrite E, map_app in Hlog.
      destruct log; [by destruct (map fst l')|done].
    + apply last_None in E. rewrite E in Hlog. by apply fmap_nil_inv in Hlog as ->.
Qed.
End handle_spec.

(** C27: a redirected connection is handled from accept to close without
    leaving a buffer, whatever the client, the servers and the resolver do.
    It is counted once as a flow and once by its outcome (passed through,
    direct, bypassed, failed), and no other counter moves; in particular the
    active count is back where it was. Without a usable hostname, in cooldown
    (unless known-blocked) or with a manual pass rule nothing is attempted.
    Otherwise at most four attempts are made, each carrying the client's own
    ClientHello to the address its step names, and the client sees a reset
    exactly when attempts were made and none was answered. The handler is a
    run of [daemon_step], so what holds of every run holds of it. *)
Theorem tpd_handle_connection_correct transport net out reply host rs grow
    planned started looked_up decided ended g v6 original chunks :
  bytes_transport transport -> Forall bytes_ok chunks -> bytes_ok host ->
  zlen reply = BUFFER_SIZE -> (forall k, is_u64 (g_stats g k)) ->
  exists g' reset log hello name k,
    tpd_handle_connection transport net out reply host rs grow planned started looked_up decided ended
      g v6 original chunks = Ok (g', reset, log) /\
    hello_read chunks reply host hello name /\ handled log reset k /\
    (forall x, g_stats g' x = add_stat k 1 (add_stat S_flows_total 1 (g_stats g)) x) /\
    (k = S_passthrough <->
     name = [] \/
     (tp_in_cooldown (g_dec g) name planned = true /\ tp_host_listed name = false) \/
     (primary <$> strategy_has_explicit_rule (g_cfg g) name) = Some STRATEGY_PASS) /\
    Forall (sent_ok original hello (zlen out)) log /\ zlen log <= TP_MAX_ATTEMPTS /\
    (forall job n h, rtc daemon_step (mk_ds g job n h) (mk_ds g' job n h)).
Proof.
  intros Ht Hc Ho Hr Hst. pose proof (read_client_hello_wp chunks reply host Hc Ho Hr) as W.
  unfold tpd_handle_connection. destruct (read_client_hello chunks reply host) as [[hello name]| |];
    [|done|done]. pose proof W as [Hhb _ _ _]. cbn [mbind res_bind].
  set (g1 := conn_begin g). set (c := fill_plan g1 _ planned).
  assert (Hthrough : goes_through (c_plan c) = true <-> name = [] \/
     (tp_in_cooldown (g_dec g) name planned = true /\ tp_host_listed name = false) \/
     (primary <$> strategy_has_explicit_rule (g_cfg g) name) = Some STRATEGY_PASS)
    by (apply (goes_through_spec g1 (mk_conn v6 original hello name tp_plan_init None 0))).
  destruct (fill_plan_conn g1 (mk_conn v6 original hello name tp_plan_init None 0) planned)
    as (E1 & E2 & E3 & Hf). fold c in E1, E2, E3, Hf. cbn [c_original c_hello c_host] in E1, E2, E3.
  assert (Hclose : forall g' job n h,
    rtc daemon_step (mk_ds g1 job (S n) h) (mk_ds g' job (S n) h) ->
    rtc daemon_step (mk_ds g job n h) (mk_ds (conn_close g') job n h)).
  { intros g' job n h Hs. eapply rtc_l; [apply step_begin|]. eapply rtc_r; [exact Hs|apply step_close]. }
  destruct (goes_through (c_plan c)) eqn:Hgo.
  - do 3 eexists. exists hello, name, S_passthrough. split; [reflexivity|]. split; [done|].
    split. { constructor; [done|]. unfold ends_in_reset. destruct Hf as [-> _]. apply andb_false_r. }
    split; [intros x; by apply flow_counted|]. split; [by split; [intros _; apply Hthrough|]|].
    split; [constructor|]. split; [done|]. intros job n h. apply Hclose, rtc_once, step_passthrough.
  - destruct (goes_through_host _ _ _ Hgo) as [Hhost Hname].
    pose proof (run_handled transport net out rs grow started looked_up decided ended Ht c g1) as R.
    rewrite E1, E2, E3 in R. specialize (R Hhb Hf Hhost Hname).
    destruct (run_plan transport net out looked_up c (g_dns g1)) as [[e [[c2 dns] log]]| |];
      [|done|done]. cbn [mbind res_bind wp] in R. destruct R as (k & Hk & Hs & Hnk & Hsent & Hlen & Hsteps). cbn [mbind res_bind].
    do 3 eexists. exists hello, name, k. split; [reflexivity|]. split; [done|]. split; [done|].
    split. { intros x. cbn [g_stats conn_close set_stats]. rewrite Hs. apply flow_counted; [done|].
             by eapply handled_not_active. }
    split. { split; [done|]. intros H. by apply Hthrough in H. }
    split; [done|]. split; [done|]. intros job n h. apply Hclose, Hsteps.
Qed.

(** DIRECT is reset, the re-framed ClientHello is answered. *)
Notation sample_handle :=
  (tpd_handle_connection (fun _ _ => TR_TIMEOUT) sample_net zero_buffer zero_buffer (repeat 0 256)
    (mk_relay 500 9000 false false) true 1000 1000 1001 1002 1030 first_state false
    (mk_addr 4 (repeat 9 16)) split_hello).

Lemma tpd_handle_connection_correct_witness :
  exists g' log k, sample_handle = Ok (g', false, log) /\ handled log false k /\
    zlen log = 2 /\ g_stats g' S_bypassed = 1 /\ g_stats g' S_flows_active = 0.
Proof.
  destruct (tpd_handle_connection_correct (fun _ _ => TR_TIMEOUT) sample_net zero_buffer zero_buffer
    (repeat 0 256) (mk_relay 500 9000 false false) true 1000 1000 1001 1002 1030 first_state false
    (mk_addr 4 (repeat 9 16)) split_hello) as (g' & reset & log & hello & name & k & E & _ & Hk & _).
  - intros idx q reply H. discriminate H.
  - do 2 (apply Forall_cons_2; [apply bytes_okb_ok; vm_compute; reflexivity|]). constructor.
  - apply bytes_okb_ok. vm_compute. reflexivity.
  - vm_compute. reflexivity.
  - intros x. cbn. unfold is_u64. lia.
  - assert (Hv : (sample_handle ≫= fun x => Ok (x.1.2, zlen x.2, g_stats x.1.1 S_bypassed,
        g_stats x.1.1 S_flows_active)) = Ok (false, 2, 1, 0)) by (vm_compute; reflexivity).
    rewrite E in Hv. cbn [mbind res_bind fst snd] in Hv.
    injection Hv as -> Hl Hb Ha. exists g', log, k.
    exact (conj E (conj Hk (conj Hl (conj Hb Ha)))).
Defined.
