(* ===== verification/Stream.v ===== *)
(** * The byte streams of a transparent connection ([src/transparent/conn.c])

    [Conn] and [Daemon] take what a socket does as an outcome; here the outcome
    is computed from the system calls: the attempts with their sockets
    ([attempt]), the pass-through, the first answer and the pump after a commit.
    The theorem composes connecting ([Session]), the plan ([Conn]) and the relay
    ([Relay]) into what the client and the server get to see. *)

From stdpp Require Import base list numbers strings option relations.
From Stdlib Require Import ZArith Lia.
From S2P Require Import Prelude Policy Strategy Dns Socket Relay Session Conn Daemon.

(** What the system does during one attempt. *)
Record attempt_env := mk_aenv {
  ae_tries : nat -> conn_try;
  ae_sends : nat -> list tx_event;
  ae_polls : list (option Z);
  ae_recv : list rx_event
}.

(** [do recv while interrupted] into [c->reply]. *)
Fixpoint first_reply (rx : list rx_event) : io_outcome :=
  match rx with
  | RX_INTR :: rx' => first_reply rx'
  | RX_DATA d :: _ => match bsub d 0 BUFFER_SIZE with [] => IO_EOF | f :: rest => IO_DATA f rest end
  | RX_ERROR :: _ => IO_RECV_FAILED
  | [] => IO_EOF
  end.

(** The socket calls of [attempt]: what is done with sockets, the bytes that go
    out, the outcome. The socket stays open only for a TLS answer. *)
Definition attempt_socket (env : attempt_env) (writes : list (list Z)) : list sock_act * list Z * io_outcome :=
  let '(acts, ok) := tpd_connect (ae_tries env) in
  if negb ok then (acts, [], IO_NO_CONNECT) else
  let '(ok, out) := send_writes (ae_sends env) 0 writes in
  if negb ok then (acts ++ [S_CLOSE], out, IO_SEND_FAILED) else
  if compat_wait (ae_polls env) <=? 0 then (acts ++ [S_CLOSE], out, IO_NO_REPLY) else
  let o := first_reply (ae_recv env) in
  (acts ++ (if committed (outcome_result o) then [] else [S_CLOSE]), out, o).

(** One connection as its two peers see it: the sockets, what went out on the
    last one ([w_up]), what the client got ([w_down]), what was read from the
    client after its ClientHello and from the server, and how the pump stands. *)
Record conn_wire := mk_wire {
  w_acts : list sock_act;
  w_up : list Z;
  w_down : list Z;
  w_client : list Z;
  w_server : list Z;
  w_end : pump_end;
  w_stats : relay_stats
}.

Definition no_stats : relay_stats := mk_relay 0 0 false false.

(** The pump after [up] went to the server and [down], of what it sent, to the
    client; the socket is closed when the pump returns. *)
Definition pumped (acts : list sock_act) (up down : list Z) (evs : list poll_event) : conn_wire :=
  let '(e, p) := relay_pump evs in
  mk_wire (acts ++ match e with WAITING => [] | RETURNED _ => [S_CLOSE] end)
    (up ++ up_out p) (down ++ down_out p) (up_in p) (down ++ down_in p) e (p_stats p).

Definition passthrough (tries : nat -> conn_try) (sends : list tx_event) (hello : list Z) (evs : list poll_event) : conn_wire :=
  let '(acts, ok) := tpd_connect tries in
  if negb ok then mk_wire acts [] [] [] [] (RETURNED 0) no_stats else
  let '(ok, out) := relay_send_all sends hello in
  if (zlen hello =? 0) || ok then pumped acts out [] evs
  else mk_wire (acts ++ [S_CLOSE]) out [] [] [] (RETURNED 0) no_stats.

(** The relay of [commit], and [compat_close(upstream_fd)] after it: [reply] is
    what the server answered the ClientHello with. *)
Definition commit_stream (acts : list sock_act) (up reply : list Z) (sends : list tx_event) (evs : list poll_event) : conn_wire :=
  let '(ok, out) := relay_send_all sends reply in
  if (ok : bool) then pumped acts up reply evs
  else mk_wire (acts ++ [S_CLOSE]) up out [] reply (RETURNED 0) no_stats.

Section stream.
Context (transport : dns_transport) (envs : nat -> attempt_env).
(** Sends of the reply (or of the ClientHello that passes through), the pump. *)
Context (sends : list tx_event) (evs : list poll_event) (through : nat -> conn_try).
Context (out reply host : list Z) (planned looked_up : Z).

Definition socket_net (k : nat) (s : sent) : io_outcome := (attempt_socket (envs k) (sent_writes s)).2.

(** The sockets of all attempts and what the last one sent. *)
Definition attempts_acts (log : list sent) : list sock_act :=
  concat (imap (fun k s => (attempt_socket (envs k) (sent_writes s)).1.1) log).
Definition last_sent (log : list sent) : list Z :=
  match last log with
  | Some s => (attempt_socket (envs (length log - 1)) (sent_writes s)).1.2
  | None => []
  end.
Definition last_reply (log : list sent) : list Z :=
  match last log with
  | Some s => match socket_net (length log - 1) s with IO_DATA f rest => f :: rest | _ => [] end
  | None => []
  end.

Definition connection_stream (g : tpd) (v6 : bool) (original : dns_addr) (chunks : list (list Z))
  : res unit (conn_wire * list sent) :=
  '(hello, name) ← read_client_hello chunks reply host;
  let c := fill_plan (conn_begin g) (mk_conn v6 original hello name tp_plan_init None 0) planned in
  if goes_through (c_plan c) then Ok (passthrough through sends (c_hello c) evs, []) else
  '(e, (c, _, log)) ← run_plan transport socket_net out looked_up c (g_dns g);
  Ok (match e with
      | COMMITTED _ => commit_stream (attempts_acts log) (last_sent log) (last_reply log) sends evs
      | FAILED => mk_wire (attempts_acts log) [] [] [] [] (RETURNED 0) no_stats
      end, log).
End stream.

(** ** Sockets *)

Lemma tpd_connect_run tries :
  let '(acts, ok) := tpd_connect tries in
  sock_run None acts = Some (if (ok : bool) then Some true else None) /\ (opens acts <= 8)%nat.
Proof. apply retry_busy_run; [apply (connect_with_run true)|lia]. Qed.

Lemma opens_app a b : opens (a ++ b) = (opens a + opens b)%nat.
Proof. unfold opens. by rewrite List.filter_app, length_app. Qed.

(** An attempt opens at most eight sockets, one at a time, and leaves one open
    exactly for a TLS answer; what goes out is the start of what is to be
    written, all of it when there is an answer. *)
Lemma attempt_socket_run env writes :
  let '(acts, out, o) := attempt_socket env writes in
  sock_run None acts = Some (if committed (outcome_result o) then Some true else None) /\ (opens acts <= 8)%nat /\
  out `prefix_of` concat writes /\ (committed (outcome_result o) = true -> out = concat writes).
Proof.
  unfold attempt_socket. pose proof (tpd_connect_run (ae_tries env)) as Hc.
  destruct (tpd_connect (ae_tries env)) as [acts ok]. destruct Hc as [Hr Ho].
  destruct ok; cbn [negb]; [|split_and!; [exact Hr|exact Ho|apply prefix_nil|done]].
  pose proof (send_writes_spec (ae_sends env) 0 writes) as Hs.
  destruct (send_writes _ _ _) as [ok out]. destruct Hs as [Hp Hall].
  assert (Hclosed : sock_run None (acts ++ [S_CLOSE]) = Some None /\ (opens (acts ++ [S_CLOSE]) <= 8)%nat).
  { rewrite sock_run_app, Hr, opens_app. split; [done|]. cbn. lia. }
  destruct Hclosed as [H1 H2]. destruct ok; cbn [negb]; [|by split_and!].
  destruct (_ <=? 0); [by split_and!|]. cbv zeta.
  destruct (committed _); [rewrite app_nil_r|]; split_and!; auto.
Qed.

(** ** The attempts of a plan *)

Section attempts.
Context (transport : dns_transport) (envs : nat -> attempt_env) (out : list Z) (now : Z).
Notation net := (socket_net envs).

Definition unanswered (log : list sent) : Prop :=
  forall k s, log !! k = Some s -> committed (outcome_result (net k s)) = false.

Lemma unanswered_snoc log s :
  unanswered log -> committed (outcome_result (net (length log) s)) = false -> unanswered (log ++ [s]).
Proof.
  intros H Hs k s' Hk. apply lookup_app_Some in Hk as [Hk|[Hl Hk]]; [by apply H|].
  apply list_lookup_singleton_Some in Hk as [Hk <-]. by replace k with (length log) by lia.
Qed.

Lemma attempts_acts_snoc log s :
  attempts_acts envs (log ++ [s])
  = attempts_acts envs log ++ (attempt_socket (envs (length log)) (sent_writes s)).1.1.
Proof.
  unfold attempts_acts. rewrite imap_app, concat_app. cbn [imap concat]. by rewrite app_nil_r, Nat.add_0_r.
Qed.

(** Attempts that were not answered leave no socket behind. *)
Lemma unanswered_run log :
  unanswered log ->
  sock_run None (attempts_acts envs log) = Some None /\ (opens (attempts_acts envs log) <= 8 * length log)%nat.
Proof.
  induction log as [|s log IH] using rev_ind; intros Hu; [by split; [|cbn; lia]|].
  assert (Hu' : unanswered log) by (intros k x Hk; apply Hu, lookup_app_l_Some, Hk).
  destruct (IH Hu') as [H1 H2]. rewrite attempts_acts_snoc, sock_run_app, opens_app, length_app, H1.
  assert (Hs : committed (outcome_result (net (length log) s)) = false)
    by (apply Hu; by rewrite lookup_app_r, Nat.sub_diag by lia).
  unfold socket_net in Hs. pose proof (attempt_socket_run (envs (length log)) (sent_writes s)) as Ha.
  destruct (attempt_socket _ _) as [[acts o] oc]. cbn [fst snd] in *. rewrite Hs in Ha.
  destruct Ha as (Ha & Ho & _). cbn [mbind option_bind length]. split; [exact Ha|lia].
Qed.

(** How a run of the plan ends, in terms of its sockets. *)
Definition log_end (e : conn_end) (log : list sent) : Prop :=
  match e with
  | COMMITTED step => exists l s, log = l ++ [s] /\ unanswered l /\ sent_step s = step /\
      committed (outcome_result (net (length l) s)) = true
  | FAILED => unanswered log
  end.

Lemma run_plan_loop_log fuel : forall (c : conn) dns log r,
  unanswered log -> length (tried (c_plan c)) = length log ->
  loop fuel (run_plan_step transport net out now) (c, dns, log) = Ok r -> log_end r.1 r.2.2.
Proof.
  induction fuel as [|fuel IH]; intros c dns log r Hu Hl Hr; [done|]. rewrite loop_S in Hr.
  destruct (run_plan_step transport net out now (c, dns, log)) as [[[[c1 dns1] log1]|r1]|e|] eqn:E;
    [| |done|done]; unfold run_plan_step in E; pose proof (tp_plan_next_ok (c_plan c)) as [_ Hlive];
    destruct (tp_plan_next (c_plan c)) as [step timeout| |] eqn:En.
  - unfold attempt in E. cbv zeta in E. destruct (relay_send_first _ _ _) as [ws| |]; [|done|done].
    cbn [mbind res_bind] in E. set (s := mk_sent _ _ _) in E. destruct (committed _) eqn:Hc; [done|].
    injection E as <- <- <-. destruct (record_config (c_plan c) step
      (outcome_result (net (length (tried (c_plan c))) s)) (proj1 (Hlive ltac:(done)))) as (Er & _).
    eapply IH; [| |exact Hr].
    + apply unanswered_snoc; [done|]. by rewrite <- Hl.
    + cbn [c_plan set_plan]. rewrite Er. cbn [tried set_tried]. rewrite !length_app, Hl. done.
  - unfold resolve_trusted in E.
    destruct (dns_resolve _ _ _ _ _) as [[[st ans] dns2]| |]; [|done|done]. cbn [mbind res_bind] in E.
    injection E as <- <- <-. eapply IH; [done| |exact Hr].
    by destruct (trust_answer_step c st ans En) as (_ & _ & _ & _ & _ & ->).
  - done.
  - unfold attempt in E. cbv zeta in E. destruct (relay_send_first _ _ _) as [ws| |]; [|done|done].
    cbn [mbind res_bind] in E. set (s := mk_sent _ _ _) in E. destruct (committed _) eqn:Hc; [|done].
    injection E as <-. injection Hr as <-. cbn [fst snd]. exists log, s. split; [done|]. split; [done|].
    split; [done|]. by rewrite <- Hl.
  - unfold resolve_trusted in E.
    destruct (dns_resolve _ _ _ _ _) as [[[st ans] dns2]| |]; [done|done|done].
  - injection E as <-. injection Hr as <-. done.
Qed.
End attempts.

(** ** What the peers see *)

(** [first] is what the server gets first and [answer] what it sent before the
    pump; what each side sends to the pump is in its events. *)
Record stream_ok (first answer : list Z) (evs : list poll_event) (w : conn_wire) : Prop := {
  so_sockets : sock_run None (w_acts w) = Some (match w_end w with WAITING => Some true | RETURNED _ => None end);
  so_up : w_up w `prefix_of` first ++ w_client w;
  so_down : w_down w `prefix_of` w_server w;
  so_client : w_client w `prefix_of` sent_by client_side evs;
  so_server : exists d, w_server w = answer ++ d /\ d `prefix_of` sent_by upstream_side evs;
  so_waiting : w_end w = WAITING ->
    w_up w = first ++ sent_by client_side evs /\ w_down w = answer ++ sent_by upstream_side evs
}.

Lemma pumped_ok acts first answer evs :
  sock_run None acts = Some (Some true) -> stream_ok first answer evs (pumped acts first answer evs).
Proof.
  intros Ha. pose proof (relay_pump_spec evs pump_init ltac:(by split)) as H.
  unfold pumped, relay_pump. destruct (relay_pump_timeout evs pump_init) as [e p].
  destruct H as [(u & Eu & [Hu _ Hua _]) (d & Ed & [Hd _ Hda _]) _ Hend]. cbn [pump_init up_in down_in app] in Eu, Ed.
  cbn [pump_init up_open down_open] in Hua, Hda. subst u d.
  assert (Hout : up_out p `prefix_of` up_in p /\ down_out p `prefix_of` down_in p /\
    (e = WAITING -> up_out p = up_in p /\ down_out p = down_in p)).
  { destruct e as [|r]; [destruct Hend as [[H1 H2 _ _ _ _ _ _] _]; by rewrite H1, H2|].
    destruct Hend as [[[H1 H2 _ _ _ _ _ _] _]|[_ [H1 H2 _ _ _ _]]]; [by rewrite H1, H2|by split_and!]. }
  destruct Hout as (Ho1 & Ho2 & Hw). split; cbn [w_acts w_up w_down w_client w_server w_end].
  - destruct e; [by rewrite app_nil_r|]. by rewrite sock_run_app, Ha.
  - by apply prefix_app.
  - by apply prefix_app.
  - exact Hu.
  - by exists (down_in p).
  - intros ->. destruct (Hw eq_refl) as [-> ->]. rewrite Hua, Hda by auto. done.
Qed.

(** A connection that is given up. *)
Lemma given_up acts first answer evs up down :
  sock_run None acts = Some None -> up `prefix_of` first -> down `prefix_of` answer ->
  stream_ok first answer evs (mk_wire acts up down [] answer (RETURNED 0) no_stats).
Proof.
  intros Ha Hu Hd. split; cbn [w_acts w_up w_down w_client w_server w_end]; [done|by rewrite app_nil_r|done|apply prefix_nil| |done].
  exists []. rewrite app_nil_r. split; [done|apply prefix_nil].
Qed.

Lemma passthrough_ok tries sends hello evs :
  stream_ok hello [] evs (passthrough tries sends hello evs) /\ (opens (w_acts (passthrough tries sends hello evs)) <= 8)%nat.
Proof.
  unfold passthrough. pose proof (tpd_connect_run tries) as Hc. destruct (tpd_connect tries) as [acts ok].
  destruct Hc as [Hr Ho]. destruct ok; cbn [negb]; [|split; [by apply given_up; [|apply prefix_nil|]|exact Ho]].
  pose proof (relay_send_all_spec sends hello) as Hs. destruct (relay_send_all sends hello) as [ok sent].
  destruct Hs as [Hp Hall]. destruct ((zlen hello =? 0) || ok) eqn:E.
  - assert (sent = hello) as ->.
    { apply orb_prop in E as [E|E]; [|by apply Hall]. apply Z.eqb_eq in E. apply zlen_zero in E. subst hello.
      by apply prefix_nil_inv in Hp. }
    split; [by apply pumped_ok|]. unfold pumped. destruct (relay_pump evs) as [e p]. cbn [w_acts]. rewrite opens_app.
    destruct e; cbn; lia.
  - split; [apply given_up; [by rewrite sock_run_app, Hr|done|done]|]. cbn [w_acts]. rewrite opens_app. cbn. lia.
Qed.

Lemma commit_stream_ok acts first answer sends evs :
  sock_run None acts = Some (Some true) ->
  stream_ok first answer evs (commit_stream acts first answer sends evs) /\
  opens (w_acts (commit_stream acts first answer sends evs)) = opens acts.
Proof.
  intros Ha. unfold commit_stream. pose proof (relay_send_all_spec sends answer) as Hs.
  destruct (relay_send_all sends answer) as [ok sent]. destruct Hs as [Hp _]. destruct ok.
  - split; [by apply pumped_ok|]. unfold pumped. destruct (relay_pump evs) as [e p]. cbn [w_acts]. rewrite opens_app.
    destruct e; cbn; lia.
  - split; [apply given_up; [by rewrite sock_run_app, Ha|done|done]|]. cbn [w_acts]. rewrite opens_app. cbn. lia.
Qed.

(** The last attempt was answered: its socket is open and took everything. *)
Lemma answered_run envs l s :
  unanswered envs l -> committed (outcome_result (socket_net envs (length l) s)) = true ->
  sock_run None (attempts_acts envs (l ++ [s])) = Some (Some true) /\
  (opens (attempts_acts envs (l ++ [s])) <= 8 * length (l ++ [s]))%nat /\
  last_sent envs (l ++ [s]) = concat (sent_writes s).
Proof.
  intros Hl Hs. destruct (unanswered_run envs l Hl) as [H1 H2].
  unfold last_sent. rewrite attempts_acts_snoc, sock_run_app, opens_app, length_app, H1, last_snoc.
  cbn [length]. rewrite Nat.add_sub. unfold socket_net in Hs.
  pose proof (attempt_socket_run (envs (length l)) (sent_writes s)) as Ha.
  destruct (attempt_socket _ _) as [[acts o] oc]. cbn [fst snd] in *. rewrite Hs in Ha.
  destruct Ha as (Ha & Ho & _ & Hall). cbn [mbind option_bind]. split; [exact Ha|]. split; [lia|by apply Hall].
Qed.

(** C28: a redirected connection from end to end, whatever the client, the
    servers, the resolver and the system calls do. It never leaves a buffer, and
    seen from outside it is the connection that [tpd_handle_connection] accounts
    for. Sockets are opened one at a time, at most eight per attempt, none is
    connected before it is exempted from the interception, and all are closed
    again, except the one the pump is still working on. The server that is
    finally used gets the client's ClientHello, unchanged when passed through
    and otherwise in the form of the last step, and then a prefix of what the
    client sends; the client gets a prefix of what that server sends, from its
    first answer on, and nothing of what an attempt that was given up received.
    While the pump is waiting both prefixes are everything sent so far. *)
Theorem connection_stream_correct transport envs sends evs through out reply host planned looked_up g v6 original chunks :
  bytes_transport transport -> Forall bytes_ok chunks -> bytes_ok host -> zlen reply = BUFFER_SIZE ->
  exists w log hello name first answer,
    connection_stream transport envs sends evs through out reply host planned looked_up g v6 original chunks = Ok (w, log) /\
    hello_read chunks reply host hello name /\
    (forall grow started decided ended, exists g' reset,
       tpd_handle_connection transport (socket_net envs) out reply host (w_stats w) grow planned started looked_up decided
         ended g v6 original chunks = Ok (g', reset, log)) /\
    Forall (sent_ok original hello (zlen out)) log /\
    stream_ok first answer evs w /\ (opens (w_acts w) <= 32)%nat /\
    (log = [] -> first = hello /\ answer = []) /\
    (forall l s, log = l ++ [s] -> first = concat (sent_writes s)) /\
    ((unanswered envs log /\ (log <> [] -> w_down w = [] /\ w_client w = [])) \/
     (exists l s, log = l ++ [s] /\ unanswered envs l /\
        committed (outcome_result (socket_net envs (length l) s)) = true /\ answer = last_reply envs log)).
Proof.
  intros Ht Hc Ho Hr. pose proof (read_client_hello_wp chunks reply host Hc Ho Hr) as W.
  unfold connection_stream, tpd_handle_connection.
  destruct (read_client_hello chunks reply host) as [[hello name]| |]; [|done|done]. pose proof W as [Hhb _ _ _].
  cbn [mbind res_bind]. set (g1 := conn_begin g). set (c := fill_plan g1 _ planned).
  destruct (fill_plan_conn g1 (mk_conn v6 original hello name tp_plan_init None 0) planned) as (E1 & E2 & _ & Hf).
  fold c in E1, E2, Hf. cbn [c_original c_hello] in E1, E2.
  destruct (goes_through (c_plan c)).
  { destruct (passthrough_ok through sends hello evs) as [Hs Hn]. rewrite E2.
    exists (passthrough through sends hello evs), [], hello, name, hello, [].
    split; [done|]. split; [done|]. split; [by intros; do 2 eexists|]. split; [constructor|]. split; [done|].
    split; [lia|]. split; [done|]. split; [by intros [|??] ? ?|]. left. by split. }
  assert (Hhb' : bytes_ok (c_hello c)) by (by rewrite E2).
  change (g_dns g1) with (g_dns g).
  pose proof (run_plan_wp transport (socket_net envs) out looked_up Ht c Hhb' Hf (g_dns g)) as Wp.
  destruct (run_plan transport (socket_net envs) out looked_up c (g_dns g)) as [[e [[c' dns] log]]| |] eqn:Ep; [|done|done].
  destruct Wp as [[_ Hreach Hlog Hsent _ _] _]. cbn [fst snd] in *. rewrite E1, E2 in Hsent.
  assert (Hend : log_end envs e log).
  { apply (run_plan_loop_log transport envs out looked_up 6 c (g_dns g) [] _ ltac:(by intros k s Hk) ltac:(by rewrite (proj1 Hf)) Ep). }
  assert (Hlen : (length log <= 4)%nat).
  { pose proof (pi_bound _ (plan_reach_inv _ _ Hf Hreach)) as Hb. unfold zlen, TP_MAX_ATTEMPTS in Hb.
    rewrite <- (length_map fst), <- Hlog, length_map in Hb. lia. }
  cbn [mbind res_bind]. destruct e as [step|].
  - destruct Hend as (l & s & -> & Hl & _ & Hcom). destruct (answered_run envs l s Hl Hcom) as (H1 & H2 & H3). rewrite H3.
    destruct (commit_stream_ok _ (concat (sent_writes s)) (last_reply envs (l ++ [s])) sends evs H1) as [Hs Hn].
    do 2 eexists. exists hello, name, (concat (sent_writes s)), (last_reply envs (l ++ [s])).
    split; [reflexivity|]. split; [done|]. split; [by intros; do 2 eexists|]. split; [done|]. split; [exact Hs|].
    split; [rewrite Hn; lia|]. split; [by destruct l|]. split; [intros l' s' E; apply app_inj_2 in E as [_ [= <-]]; done|].
    right. by exists l, s.
  - destruct (unanswered_run envs log Hend) as [H1 H2].
    do 2 eexists. exists hello, name, (match last log with Some s => concat (sent_writes s) | None => hello end), [].
    split; [reflexivity|]. split; [done|]. split; [by intros; do 2 eexists|]. split; [done|].
    split; [by apply given_up; [|apply prefix_nil|]|]. split; [cbn [w_acts]; lia|]. split; [by intros ->|].
    split; [intros l s ->; by rewrite last_snoc|]. by left.
Qed.

(** The direct attempt is reset; the bypass is answered and the pump runs. *)
Definition quick_try : conn_try := mk_ctry true true CONN_PENDING 0 [None; Some 1] 0.
Definition sample_envs (k : nat) : attempt_env :=
  mk_aenv (fun _ => quick_try) (fun _ => [TX_SENT 16384]) [Some 1]
    (if (k =? 0)%nat then [RX_ERROR] else [RX_INTR; RX_DATA [22; 3; 3; 0]]).
Definition sample_evs : list poll_event :=
  [POLL_READY (Some (X_DATA [1; 2] [TX_SENT 1; TX_SENT 1])) (Some (X_DATA [9] [TX_SENT 1]))].

Lemma connection_stream_correct_witness :
  exists w log,
    connection_stream (fun _ _ => TR_TIMEOUT) sample_envs [TX_SENT 4] sample_evs (fun _ => quick_try) zero_buffer zero_buffer
      (repeat 0 256) 1000 1001 first_state false (mk_addr 4 (repeat 9 16)) split_hello = Ok (w, log) /\
    zlen log = 2 /\ w_down w = [22; 3; 3; 0; 9] /\ sock_run None (w_acts w) = Some (Some true).
Proof.
  destruct (connection_stream_correct (fun _ _ => TR_TIMEOUT) sample_envs [TX_SENT 4] sample_evs (fun _ => quick_try)
    zero_buffer zero_buffer (repeat 0 256) 1000 1001 first_state false (mk_addr 4 (repeat 9 16)) split_hello)
    as (w & log & hello & name & first & answer & E & _ & _ & _ & [Hs _ _ _ _ _] & _).
  - intros idx q reply H. discriminate H.
  - do 2 (apply Forall_cons_2; [apply bytes_okb_ok; vm_compute; reflexivity|]). constructor.
  - apply bytes_okb_ok. vm_compute. reflexivity.
  - vm_compute. reflexivity.
  - assert (Hv : (connection_stream (fun _ _ => TR_TIMEOUT) sample_envs [TX_SENT 4] sample_evs (fun _ => quick_try)
      zero_buffer zero_buffer (repeat 0 256) 1000 1001 first_state false (mk_addr 4 (repeat 9 16)) split_hello
      ≫= fun x => Ok (zlen x.2, w_down x.1, w_end x.1)) = Ok (2, [22; 3; 3; 0; 9], WAITING)) by (vm_compute; reflexivity).
    exists w, log. rewrite E in Hv |- *. cbn [mbind res_bind fst snd] in Hv. injection Hv as H1 H2 H3.
    rewrite H3 in Hs. split_and!; done.
Defined.
