(* ===== verification/Logfile.v ===== *)
(** * The log and the directories ([src/transparent/transparent.c])

    The log file with its rotation, [make_parent_dir] and the paths of Windows,
    which live in a ring of four static buffers. *)

From stdpp Require Import base list numbers strings option.
From Stdlib Require Import ZArith Lia.
From S2P Require Import Prelude Text.

(** ** The log *)

Definition LOG_FILE_MAX : Z := 4 * 1024 * 1024.

(** The file and its predecessor [<file>.1]. *)
Record logs := mk_logs { lg_file : option (list Z); lg_old : option (list Z) }.

(** What the system does: the file opens, how many bytes of the line reach the
    disk, and whether [remove] and [rename] work. *)
Record log_io := mk_lio { li_open : bool; li_kept : nat; li_removed : bool; li_renamed : bool }.

(** [ftell] counts what was printed, also when the disk does not take it. *)
Definition log_to_file (path stamp line : list Z) (io : log_io) (lg : logs) : logs :=
  if negb (li_open io) then lg else
  let before := default [] (lg_file lg) in
  let text := stamp ++ [32] ++ line ++ [10] in
  let size := zlen before + zlen text in
  let lg := mk_logs (Some (before ++ take (li_kept io) text)) (lg_old lg) in
  if (LOG_FILE_MAX <? size) && (zlen (path ++ str ".1") <? 4096) then
    let lg := if li_removed io then mk_logs (lg_file lg) None else lg in
    if li_renamed io then mk_logs None (lg_file lg) else lg
  else lg.

(** [log_file] is the option, [quiet] that this is macOS and stderr is not a
    terminal. The first component is what goes to stderr. *)
Definition vlog (quiet : bool) (log_file : option (list Z)) (stamp text : list Z) (io : log_io) (lg : logs)
  : list Z * logs :=
  let line := bsub text 0 1023 in
  ((match log_file with Some _ => if quiet then [] else line ++ [10] | None => line ++ [10] end),
   (match log_file with Some path => log_to_file path stamp line io lg | None => lg end)).

Definition tpd_debug (debug quiet : bool) (log_file : option (list Z)) (stamp text : list Z) (io : log_io) (lg : logs)
  : list Z * logs :=
  if negb debug then ([], lg) else vlog quiet log_file stamp text io lg.

(** The watchdog's own log ([platform_macos.c]): to stderr, and appended to the
    file it was given, if any; [kept] bytes reach the disk. *)
Definition wd_log (log_file : option (list Z)) (stamp msg : list Z) (opens : bool) (kept : nat) (file : option (list Z))
  : list Z * option (list Z) :=
  (str "[watchdog] " ++ msg ++ [10],
   match log_file with
   | None | Some [] => file
   | Some _ =>
       if negb opens then file
       else Some (default [] file ++ take kept (stamp ++ str " [watchdog] " ++ msg ++ [10]))
   end).

(** ** Directories *)

Definition SLASH : Z := 47.

(** One past the last slash among the first [i] bytes. *)
Fixpoint dir_end (path : list Z) (i : nat) : nat :=
  match i with
  | O => O
  | S j => if default 0 (path !! j) =? SLASH then i else dir_end path j
  end.

(** The directories asked of [mkdir], in order: [pre] is what is before the
    cursor. *)
Fixpoint dir_walk (pre rest : list Z) : list (list Z) :=
  match rest with
  | [] => [pre]
  | c :: rest => (if c =? SLASH then [pre] else []) ++ dir_walk (pre ++ [c]) rest
  end.

Definition make_parent_dir (path : list Z) : list (list Z) :=
  if 1024 <=? zlen path then [] else
  let i := dir_end path (length path) in
  if (i <=? 1)%nat then [] else
  let dir := take (i - 1) path in
  dir_walk (take 1 dir) (drop 1 dir).

(** ** Paths on Windows *)

Definition BSLASH : Z := 92.

(** The four buffers and the counter. *)
Record ring := mk_ring { rg_paths : list (list Z); rg_next : Z }.

(** [base] is [%ProgramData%]. *)
Definition path_text (base : option (list Z)) (name : list Z) : list Z :=
  let base := match base with Some (c :: b) => c :: b | _ => str "C:" ++ [BSLASH] ++ str "ProgramData" end in
  base ++ [BSLASH] ++ str "dpi-proxy" ++ [BSLASH] ++ name.

(** The result is the buffer that holds the path. *)
Definition data_path (base : option (list Z)) (name : list Z) (r : ring) : nat * ring :=
  let k := Z.to_nat (rg_next r mod 4) in
  (k, mk_ring (<[k := bsub (path_text base name) 0 511]> (rg_paths r)) (rg_next r + 1)).

(** The paths of several files, one call after the other. *)
Fixpoint data_paths (base : option (list Z)) (names : list (list Z)) (r : ring) : list nat * ring :=
  match names with
  | [] => ([], r)
  | name :: names =>
      let '(k, r) := data_path base name r in
      let '(ks, r) := data_paths base names r in
      (k :: ks, r)
  end.

(** ** Correctness of the log *)

(** Both files stay bounded: the current one by the limit, the old one by the
    limit and one line. *)
Definition LINE_MAX : Z := 31 + 1 + 1023 + 1.

Record logs_ok (lg : logs) : Prop := {
  lok_file : zlen (default [] (lg_file lg)) <= LOG_FILE_MAX;
  lok_old : zlen (default [] (lg_old lg)) <= LOG_FILE_MAX + LINE_MAX
}.

Definition history (lg : logs) : list Z := default [] (lg_old lg) ++ default [] (lg_file lg).

Lemma zlen_take_le {A} n (l : list A) : zlen (take n l) <= zlen l.
Proof. unfold zlen. rewrite length_take. lia. Qed.

(** A line that is logged is the last thing in the log, what is before it is a
    suffix of what was there, and the files stay bounded. When [rename] fails
    the file keeps growing. *)
Theorem vlog_correct quiet path stamp text io lg :
  logs_ok lg -> zlen stamp <= 31 -> zlen path <= 4093 -> li_open io = true -> li_renamed io = true ->
  let lg' := (vlog quiet (Some path) stamp text io lg).2 in
  logs_ok lg' /\
  exists kept, kept `suffix_of` history lg /\
    history lg' = kept ++ take (li_kept io) (stamp ++ [32] ++ bsub text 0 1023 ++ [10]).
Proof.
  intros [Hf Ho] Hs Hp Hopen Hren. cbv zeta. cbn [vlog snd]. unfold log_to_file. rewrite Hopen, Hren. cbn [negb].
  assert (Hl : zlen (stamp ++ [32] ++ bsub text 0 1023 ++ [10]) <= LINE_MAX).
  { assert (zlen (bsub text 0 1023) <= 1023) by (unfold bsub, zlen; rewrite length_take; lia).
    rewrite !zlen_app. change (zlen [32]) with 1. change (zlen [10]) with 1. unfold LINE_MAX. lia. }
  set (t := stamp ++ _) in *. clearbody t. pose proof (zlen_take_le (li_kept io) t) as Hk.
  assert (Hs1 : (zlen (path ++ str ".1") <? 4096) = true)
    by (apply Z.ltb_lt; rewrite zlen_app; change (zlen (str ".1")) with 2; lia).
  rewrite Hs1, andb_true_r. destruct (Z.ltb_spec LOG_FILE_MAX (zlen (default [] (lg_file lg)) + zlen t)) as [Hb|Hb].
  - split.
    + split; destruct (li_removed io); cbn [lg_file lg_old from_option id]; rewrite ?zlen_app; unfold LOG_FILE_MAX in *; try (change (zlen []) with 0); lia.
    + exists (default [] (lg_file lg)). split; [by eexists|].
      unfold history. destruct (li_removed io); cbn [lg_file lg_old from_option id]; by rewrite app_nil_r.
  - split.
    + split; cbn [lg_file lg_old from_option id]; rewrite ?zlen_app; lia.
    + exists (history lg). split; [done|]. unfold history. cbn [lg_file lg_old from_option id]. by rewrite app_assoc.
Qed.

(** ** Correctness of [make_parent_dir] *)

(** A path is resolved component by component; slashes in a row count once. *)
Definition path_step (st : list (list Z) * list Z) (c : Z) : list (list Z) * list Z :=
  let '(closed, cur) := st in
  if c =? SLASH then (match cur with [] => closed | _ => closed ++ [cur] end, []) else (closed, cur ++ [c]).
Definition walk_path (d : list Z) : list (list Z) * list Z := foldl path_step ([], []) d.
Definition path_resolve (d : list Z) : list (list Z) :=
  let '(closed, cur) := walk_path d in match cur with [] => closed | _ => closed ++ [cur] end.

(** [mkdir] makes a directory whose parent exists; an existing one stays. *)
Definition mkdir (dirs : list (list (list Z))) (d : list Z) : list (list (list Z)) :=
  if decide (removelast (path_resolve d) ∈ dirs) then path_resolve d :: dirs else dirs.

Lemma walk_path_snoc d c : walk_path (d ++ [c]) = path_step (walk_path d) c.
Proof. unfold walk_path. by rewrite foldl_app. Qed.

Lemma mkdir_mono dirs d x : x ∈ dirs -> x ∈ mkdir dirs d.
Proof. intros H. unfold mkdir. case_decide; [by apply list_elem_of_further|done]. Qed.

Lemma mkdir_closed dirs d : (walk_path d).1 ∈ dirs -> path_resolve d ∈ mkdir dirs d.
Proof.
  intros H. unfold mkdir, path_resolve. destruct (walk_path d) as [closed [|x cur]]; cbn [fst] in H.
  - case_decide; [apply list_elem_of_here|done].
  - rewrite removelast_last. rewrite decide_True by done. apply list_elem_of_here.
Qed.

Lemma dir_walk_makes rest : forall pre dirs,
  (walk_path pre).1 ∈ dirs -> path_resolve (pre ++ rest) ∈ foldl mkdir dirs (dir_walk pre rest).
Proof.
  induction rest as [|c rest IH]; intros pre dirs H; cbn [dir_walk].
  - rewrite app_nil_r. cbn [foldl]. by apply mkdir_closed.
  - rewrite (cons_middle c pre rest), app_assoc. destruct (Z.eqb_spec c SLASH) as [->|Hc].
    + cbn [app foldl]. apply IH. rewrite walk_path_snoc. pose proof (mkdir_closed dirs pre H) as Hm. unfold path_resolve in Hm at 1.
      destruct (walk_path pre) as [closed cur]. cbn [path_step fst]. rewrite Z.eqb_refl. by destruct cur.
    + cbn [app]. apply IH. rewrite walk_path_snoc. destruct (walk_path pre) as [closed cur]. cbn [path_step].
      apply Z.eqb_neq in Hc. by rewrite Hc.
Qed.

Lemma dir_end_spec path i : (i <= length path)%nat ->
  (dir_end path i <= i)%nat /\
  (forall j, (dir_end path i <= j < i)%nat -> path !! j <> Some SLASH) /\
  (forall j, dir_end path i = S j -> path !! j = Some SLASH).
Proof.
  induction i as [|i IH]; intros Hi; [split_and!; intros; cbn in *; lia|]. destruct IH as (H1 & H2 & H3); [lia|].
  cbn [dir_end]. destruct (lookup_lt_is_Some_2 path i) as [c Hc]; [lia|]. rewrite Hc. cbn [from_option id].
  destruct (Z.eqb_spec c SLASH) as [->|Hn]; split_and!; try lia.
  - intros j [= <-]. exact Hc.
  - intros j Hj. destruct (decide (j = i)) as [->|]; [rewrite Hc; congruence|apply H2; lia].
  - exact H3.
Qed.

(** [path = parent / name] with no slash in [name]: after the calls the parent
    exists, whatever existed before. *)
Theorem make_parent_dir_correct parent name dirs :
  zlen (parent ++ SLASH :: name) < 1024 -> parent <> [] -> SLASH ∉ name -> [] ∈ dirs ->
  path_resolve parent ∈ foldl mkdir dirs (make_parent_dir (parent ++ SLASH :: name)).
Proof.
  intros Hl Hp Hn Hd. set (path := parent ++ SLASH :: name) in *. unfold make_parent_dir.
  destruct (Z.leb_spec 1024 (zlen path)); [lia|]. destruct (dir_end_spec path (length path) (le_n _)) as (H1 & H2 & H3).
  assert (Hs : path !! length parent = Some SLASH) by (unfold path; rewrite lookup_app_r, Nat.sub_diag; [done|lia]).
  assert (Ei : dir_end path (length path) = S (length parent)).
  { set (i := dir_end path (length path)) in *.
    assert (Hlen : length path = (length parent + S (length name))%nat) by (unfold path; by rewrite length_app).
    destruct (decide (i <= length parent)%nat) as [Hle|Hgt]; [exfalso; apply (H2 (length parent)); [lia|done]|].
    destruct i as [|j]; [lia|]. f_equal. destruct (decide (j = length parent)) as [|Hne]; [done|exfalso].
    specialize (H3 j eq_refl). unfold path in H3. rewrite lookup_app_r in H3 by lia.
    destruct (j - length parent)%nat as [|k] eqn:Ek; [lia|]. cbn [lookup list_lookup] in H3. apply Hn.
    by apply list_elem_of_lookup_2 in H3. }
  rewrite Ei. destruct parent as [|x parent]; [done|]. cbn [length Nat.leb]. rewrite Nat.sub_1_r. cbn [Nat.pred].
  assert (Et : take (S (length parent)) path = x :: parent) by (unfold path; by apply (take_app_length (x :: parent))).
  rewrite Et. cbn [take drop]. rewrite take_0, drop_0. change (x :: parent) with ([x] ++ parent).
  apply dir_walk_makes. unfold walk_path. cbn [foldl path_step]. by destruct (x =? SLASH).
Qed.

(** ** The ring *)

(** The calls that follow leave a buffer alone as long as they are at most
    three. *)
Lemma data_paths_keeps base names : forall r k,
  0 <= rg_next r -> (forall d, 0 <= d < zlen names -> Z.to_nat ((rg_next r + d) mod 4) <> k) ->
  rg_paths (data_paths base names r).2 !! k = rg_paths r !! k.
Proof.
  induction names as [|name names IH]; intros r k Hr Hk; [done|]. cbn [data_paths data_path].
  set (r' := mk_ring _ _). assert (E : rg_paths r' !! k = rg_paths r !! k).
  { unfold r'. cbn [rg_paths]. apply list_lookup_insert_ne. rewrite <- (Z.add_0_r (rg_next r)). apply Hk.
    rewrite zlen_cons. pose proof (zlen_nonneg names). lia. }
  rewrite <- E. specialize (IH r' k). destruct (data_paths base names r') as [ks r2]. apply IH.
  - unfold r'. cbn [rg_next]. lia.
  - intros d Hd. unfold r'. cbn [rg_next]. rewrite <- Z.add_assoc. apply Hk. rewrite zlen_cons. lia.
Qed.

(** The four default paths can be held at the same time: each pointer still
    reads the path it was returned for. *)
Theorem data_paths_correct base names r :
  zlen names <= 4 -> 0 <= rg_next r -> length (rg_paths r) = 4%nat ->
  forall i name, names !! i = Some name ->
    exists k, (data_paths base names r).1 !! i = Some k /\
      rg_paths (data_paths base names r).2 !! k = Some (bsub (path_text base name) 0 511).
Proof.
  revert r. induction names as [|nm names IH]; intros r Hn Hr Hl i name Hi; [done|].
  rewrite zlen_cons in Hn. cbn [data_paths data_path]. set (k := Z.to_nat _). set (r' := mk_ring _ _).
  assert (Hkb : (k < 4)%nat) by (unfold k; pose proof (Z.mod_pos_bound (rg_next r) 4); lia).
  pose proof (data_paths_keeps base names r' k) as Hkeep. pose proof (IH r') as IH'.
  destruct (data_paths base names r') as [ks r2]. cbn [fst snd] in *. destruct i as [|i]; cbn [lookup list_lookup] in *.
  - injection Hi as <-. exists k. split; [done|]. rewrite Hkeep.
    + unfold r'. cbn [rg_paths]. apply list_lookup_insert_eq. lia.
    + unfold r'. cbn [rg_next]. lia.
    + intros d Hd. unfold r', k. cbn [rg_next]. pose proof (zlen_nonneg names).
      pose proof (Z.mod_pos_bound (rg_next r) 4). pose proof (Z.mod_pos_bound (rg_next r + 1 + d) 4).
      rewrite <- Z.add_assoc, Z.add_mod by lia. rewrite (Z.mod_small (1 + d)) by lia.
      intros E. apply Z2Nat.inj in E; [|apply Z.mod_pos_bound; lia|lia]. revert E.
      assert (Hm : 0 <= rg_next r mod 4 < 4) by (apply Z.mod_pos_bound; lia). revert Hm.
      generalize (rg_next r mod 4). intros m Hm E. assert (Hd' : 0 <= d < 3) by lia. clear -Hm E Hd'.
      Z.div_mod_to_equations. lia.
  - apply IH'; [lia|unfold r'; cbn [rg_next]; lia|unfold r'; cbn [rg_paths]; by rewrite length_insert|done].
Qed.
