(* ===== verification/Service.v ===== *)
(** * What surrounds the server ([src/capabilities.c], [src/transparent/svc_windows.c])

    The capabilities of the process, read from [/proc/self/status], and the
    Windows service: the states reported to the service control manager, in
    every interleaving of its control requests with the service's own thread. *)

From stdpp Require Import base list numbers strings option relations.
From Stdlib Require Import ZArith Lia.
From S2P Require Import Prelude Text Netprofile.

(** ** Capabilities *)

Module Capabilities.

Definition CAP_NET_ADMIN_BIT : Z := 12.
Definition CAP_NET_RAW_BIT : Z := 13.

(** [strncmp(line, "CapEff:", 7)] and the number after it. *)
Definition cap_line (line : list Z) : option Z :=
  if bool_decide (bsub line 0 7 = str "CapEff:") then Some (default 0 (fst <$> scan_hex_rest (bfrom line 7))) else None.

(** [None]: the file cannot be opened. *)
Definition read_cap_eff (file : option (list Z)) : Z :=
  match file with
  | None => 0
  | Some text => default 0 (first_line cap_line (file_lines text))
  end.

(** [raw]: a raw socket can be opened; it is closed again. *)
Definition capabilities_probe_linux (file : option (list Z)) (raw : bool) : bool * bool * bool :=
  let cap_eff := read_cap_eff file in
  (negb (Z.land (Z.shiftr cap_eff CAP_NET_ADMIN_BIT) 1 =? 0), negb (Z.land (Z.shiftr cap_eff CAP_NET_RAW_BIT) 1 =? 0), raw).

Definition capabilities_has_nft (access : list Z -> bool) : bool :=
  if access (str "/usr/sbin/nft") then true else
  if access (str "/sbin/nft") then true else
  if access (str "/usr/bin/nft") then true else false.

(** The kernel prints the mask as sixteen digits after a tab. *)
Definition print_cap_eff (mask : Z) : list Z := str "CapEff:" ++ [9] ++ hex_digits 16 mask.

Lemma first_line_app {A} (f : list Z -> option A) l1 l2 :
  Forall (fun l => f l = None) l1 -> first_line f (l1 ++ l2) = first_line f l2.
Proof. induction 1 as [|l l1 H _ IH]; [done|]. cbn [app first_line]. by rewrite H, IH. Qed.

Lemma cap_line_printed mask : 0 <= mask < 2 ^ 64 -> cap_line (print_cap_eff mask ++ [10]) = Some mask.
Proof.
  intros Hm. unfold cap_line, print_cap_eff. rewrite <- !app_assoc.
  assert (E1 : forall r, bsub (str "CapEff:" ++ r) 0 7 = str "CapEff:") by done.
  assert (E2 : forall r, bfrom (str "CapEff:" ++ r) 7 = r) by done.
  rewrite E1, E2, bool_decide_true by done.
  change (scan_hex_rest ([9] ++ hex_digits 16 mask ++ [10])) with (scan_hex_rest (32 :: hex_digits 16 mask ++ [10])).
  by rewrite scan_hex_printed.
Qed.

Lemma land_1_testbit n b : 0 <= b -> negb (Z.land (Z.shiftr n b) 1 =? 0) = Z.testbit n b.
Proof.
  intros Hb. change 1 with (Z.ones 1). rewrite Z.land_ones by lia.
  rewrite Z.testbit_odd, Zmod_odd. by destruct (Z.odd _).
Qed.

Lemma print_cap_eff_line mask : 0 <= mask < 2 ^ 64 -> line_ok (print_cap_eff mask).
Proof.
  intros Hm. destruct (hex_digits_spec 16 mask) as (H1 & H2 & _); [change (16 ^ Z.of_nat 16) with (2 ^ 64); lia|].
  unfold print_cap_eff. split; [|rewrite !length_app, H2; cbn; lia].
  apply Forall_app; split; [apply (bool_decide_unpack _); by vm_compute|]. constructor; [lia|].
  eapply Forall_impl; [exact H1|]. by intros c (_ & _ & ? & ? & _).
Qed.

(** The probe reports the two bits of the mask the kernel printed, whatever the
    other lines of the file say. *)
Theorem capabilities_probe_linux_correct before after mask raw :
  0 <= mask < 2 ^ 64 -> Forall line_ok (before ++ after) ->
  Forall (fun l => bsub (l ++ [10]) 0 7 <> str "CapEff:") before ->
  capabilities_probe_linux (Some (concat (map (fun l => l ++ [10]) (before ++ print_cap_eff mask :: after)))) raw
  = (Z.testbit mask CAP_NET_ADMIN_BIT, Z.testbit mask CAP_NET_RAW_BIT, raw).
Proof.
  intros Hm Hl Hb. apply Forall_app in Hl as [Hl1 Hl2]. unfold capabilities_probe_linux, read_cap_eff.
  assert (Hall : Forall line_ok (before ++ print_cap_eff mask :: after))
    by (apply Forall_app; split; [done|]; constructor; [by apply print_cap_eff_line|done]).
  rewrite file_lines_printed by done. rewrite map_app, first_line_app.
  - cbn [map first_line]. rewrite cap_line_printed by done. cbn [from_option id].
    unfold CAP_NET_ADMIN_BIT, CAP_NET_RAW_BIT. rewrite !land_1_testbit by lia. done.
  - apply List.Forall_map. eapply Forall_impl; [exact Hb|]. intros l H. cbv beta in *. unfold cap_line. by rewrite bool_decide_false.
Qed.

End Capabilities.

(** ** The Windows service *)

Module WinService.

Definition SERVICE_STOPPED : Z := 1.
Definition SERVICE_START_PENDING : Z := 2.
Definition SERVICE_STOP_PENDING : Z := 3.
Definition SERVICE_RUNNING : Z := 4.
Definition SERVICE_ACCEPT_STOP : Z := 1.
Definition SERVICE_ACCEPT_SHUTDOWN : Z := 4.
Definition SERVICE_CONTROL_STOP : Z := 1.
Definition SERVICE_CONTROL_INTERROGATE : Z := 4.
Definition SERVICE_CONTROL_SHUTDOWN : Z := 5.
Definition NO_ERROR : Z := 0.
Definition ERROR_CALL_NOT_IMPLEMENTED : Z := 120.
Definition ERROR_SERVICE_SPECIFIC_ERROR : Z := 1066.

(** [SERVICE_STATUS], less the constant service type. *)
Record svc_status := mk_sst { ss_state : Z; ss_exit : Z; ss_hint : Z; ss_accepts : Z; ss_checkpoint : Z }.

(** The globals: the status, what was sent to the manager (the last first), and
    whether the server was asked to stop. *)
Record svc := mk_svc { sv_status : svc_status; sv_sent : list svc_status; sv_stop : bool }.

Definition svc_report (state exit_code wait_hint : Z) (s : svc) : svc :=
  let st := mk_sst state exit_code wait_hint
    (if state =? SERVICE_RUNNING then Z.lor SERVICE_ACCEPT_STOP SERVICE_ACCEPT_SHUTDOWN else 0)
    (if (state =? SERVICE_RUNNING) || (state =? SERVICE_STOPPED) then 0 else u32 (ss_checkpoint (sv_status s) + 1)) in
  mk_svc st (st :: sv_sent s) (sv_stop s).

Definition control (code : Z) (s : svc) : Z * svc :=
  if (code =? SERVICE_CONTROL_STOP) || (code =? SERVICE_CONTROL_SHUTDOWN) then
    let s := svc_report SERVICE_STOP_PENDING NO_ERROR 10000 s in
    (NO_ERROR, mk_svc (sv_status s) (sv_sent s) true)
  else if code =? SERVICE_CONTROL_INTERROGATE then (NO_ERROR, s)
  else (ERROR_CALL_NOT_IMPLEMENTED, s).

Definition zero_status : svc_status := mk_sst 0 0 0 0 0.

(** [service_main] in the pieces between which a request can come: up to the
    call of the server, and after it returned [rc]. *)
Definition service_pending (s : svc) : svc :=
  svc_report SERVICE_START_PENDING NO_ERROR 10000 (mk_svc zero_status (sv_sent s) (sv_stop s)).
Definition service_running (s : svc) : svc := svc_report SERVICE_RUNNING NO_ERROR 0 s.
Definition service_stopped (rc : Z) (s : svc) : svc :=
  svc_report SERVICE_STOPPED (if rc =? 0 then NO_ERROR else ERROR_SERVICE_SPECIFIC_ERROR) 0 s.

(** [handler]: the control handler was registered, [dispatched]: the dispatcher
    ran the service; [g_rc] starts at zero. *)
Definition tp_windows_service_run (dispatched handler : bool) (rc : Z) : Z :=
  if negb dispatched then -1 else if handler then rc else 0.

Inductive phase := REGISTERED | PENDING | SERVING | ENDED (rc : Z).

(** The manager sends a stop or shutdown only to a service that accepts it. *)
Definition accepted (code : Z) (s : svc) : bool :=
  if code =? SERVICE_CONTROL_STOP then negb (Z.land (ss_accepts (sv_status s)) SERVICE_ACCEPT_STOP =? 0) else
  if code =? SERVICE_CONTROL_SHUTDOWN then negb (Z.land (ss_accepts (sv_status s)) SERVICE_ACCEPT_SHUTDOWN =? 0) else true.

Inductive svc_step : phase * svc -> phase * svc -> Prop :=
| svc_pending s : svc_step (REGISTERED, s) (PENDING, service_pending s)
| svc_running s : svc_step (PENDING, s) (SERVING, service_running s)
| svc_ended rc s : svc_step (SERVING, s) (ENDED rc, service_stopped rc s)
| svc_control ph code s : accepted code s = true -> svc_step (ph, s) (ph, (control code s).2).

Definition svc_init : phase * svc := (REGISTERED, mk_svc zero_status [] false).

(** ** What the manager sees *)

Definition R_PENDING := mk_sst SERVICE_START_PENDING 0 10000 0 1.
Definition R_RUNNING := mk_sst SERVICE_RUNNING 0 0 5 0.
Definition R_STOPPING := mk_sst SERVICE_STOP_PENDING 0 10000 0 1.
Definition R_STOPPED (rc : Z) := mk_sst SERVICE_STOPPED (if rc =? 0 then 0 else 1066) 0 0 0.

(** The reports of a phase, the last first; [stop] says that the server was
    asked to stop. *)
Definition reports (ph : phase) (stop : bool) : list svc_status :=
  match ph with
  | REGISTERED => []
  | PENDING => [R_PENDING]
  | SERVING => (if stop then [R_STOPPING] else []) ++ [R_RUNNING; R_PENDING]
  | ENDED rc => R_STOPPED rc :: (if stop then [R_STOPPING] else []) ++ [R_RUNNING; R_PENDING]
  end.

Record svc_ok (st : phase * svc) : Prop := {
  so_sent : sv_sent st.2 = reports st.1 (sv_stop st.2);
  so_last : sv_status st.2 = default zero_status (head (sv_sent st.2));
  so_early : st.1 = REGISTERED \/ st.1 = PENDING -> sv_stop st.2 = false
}.

Lemma svc_step_ok a b : svc_ok a -> svc_step a b -> svc_ok b.
Proof.
  intros [Hs Hl He] Hstep. destruct Hstep as [s|s|rc s|ph code s Ha]; cbn [fst snd] in *.
  - destruct s as [st sent stop]. cbn [sv_sent sv_stop sv_status] in *.
    assert (stop = false) as -> by auto. subst. by split.
  - destruct s as [st sent stop]. cbn [sv_sent sv_stop sv_status] in *.
    assert (stop = false) as -> by auto. subst. by split.
  - destruct s as [st sent stop]. cbn [sv_sent sv_stop sv_status] in *. subst.
    split; cbn [fst snd sv_sent sv_status sv_stop]; [by destruct stop, (rc =? 0)|done|by intros [?|?]].
  - unfold control, accepted in *. destruct s as [st sent stop]. cbn [sv_sent sv_stop sv_status] in *.
    destruct (Z.eqb_spec code SERVICE_CONTROL_STOP); cbn [orb];
      [|destruct (Z.eqb_spec code SERVICE_CONTROL_SHUTDOWN); [|destruct (_ =? _); by split]];
      destruct ph, stop; try done; subst; try done; (split; [done|done|by intros [?|?]]).
Qed.

Lemma reports_stopping ph stop : R_STOPPING ∈ reports ph stop -> stop = true.
Proof.
  intros Hin. apply (list_elem_of_fmap_2 ss_state) in Hin. destruct stop; [done|exfalso].
  destruct ph; cbn in Hin; apply (bool_decide_pack _) in Hin; by vm_compute in Hin.
Qed.

(** Whenever a request comes, the manager sees START_PENDING, RUNNING, at most
    one STOP_PENDING, which comes exactly when the server is asked to stop, and
    in the end STOPPED with an error exit code exactly when the server failed. *)
Theorem service_reports_correct st : rtc svc_step svc_init st ->
  sv_sent st.2 = reports st.1 (sv_stop st.2) /\
  (forall rc, st.1 = ENDED rc -> exists l, sv_sent st.2 = R_STOPPED rc :: l) /\
  (sv_stop st.2 = true <-> R_STOPPING ∈ sv_sent st.2).
Proof.
  intros H. assert (Hok : svc_ok st).
  { revert H. generalize svc_init (ltac:(by split) : svc_ok svc_init). intros a Ha H.
    induction H as [|a b c Hab _ IH]; [done|]. apply IH. by eapply svc_step_ok. }
  destruct Hok as [Hs _ He]. split; [done|]. rewrite Hs. split; [intros rc ->; by eexists|].
  split; [|by intros Hin%reports_stopping].
  intros Hstop. rewrite Hstop. destruct st.1 as [| | |rc]; [by rewrite He in Hstop by auto|by rewrite He in Hstop by auto| |]; repeat constructor.
Qed.

End WinService.
