(* ===== verification/Server.v ===== *)
(** * The transparent daemon from start to stop ([src/transparent/transparent.c],
    the set-up of [dnsfwd.c], the transport of [dns_doh.c])

    The options and their environment, the files the daemon reads and writes,
    the resolver's set-up, the main loop with its timers, and the server's life
    around it, over any platform layer ([Platform]). A system call is an input: what the
    kernel, the clock and the other threads did is given for each turn of the
    loop and for the start. Log lines are not modelled. *)

From stdpp Require Import base list numbers strings option gmap relations.
From Stdlib Require Import ZArith Lia.
From S2P Require Import Prelude Text Strategy Discovery Policy Decisions Dns Doh Forward Daemon Socket Nft Rules Platform Logfile.

(** ** Options *)

Definition TP_DEFAULT_PORT : Z := 1091.
Definition TP_DEFAULT_DNS_PORT : Z := 1053.
Definition TP_HEARTBEAT_S : Z := 10.
Definition NETCHANGE_SETTLE_MS : Z := 2000.
Definition NETCHECK_INTERVAL_S : Z := 60.

Record tp_options := mk_opt {
  o_port : Z;
  o_debug : bool;
  o_strategy_conf : list Z;
  o_decisions_file : list Z;
  o_status_file : list Z;
  o_log_file : option (list Z);
  o_dns_servers : list Z;
  o_dns_port : Z;
  o_doh : bool
}.

(** The process environment. *)
Notation environ := (gmap (list Z) (list Z)).

(** [atoi]: [strtol] cut to an int. *)
Definition atoi (s : list Z) : Z := i32 (strtol10 s).1.

(** An unset variable and an empty one are the same. *)
Definition env_or (e : environ) (name fallback : list Z) : list Z :=
  match e !! name with Some (c :: v) => c :: v | _ => fallback end.

Definition port_or (v : option (list Z)) (fallback : Z) : Z :=
  match v with
  | Some v => if (0 <? atoi v) && (atoi v <? 65536) then atoi v else fallback
  | None => fallback
  end.

Definition switched_off (v : option (list Z)) : bool :=
  match v with Some v => bool_decide (v = str "off") || bool_decide (v = str "0") | None => false end.

Definition DNS_DEFAULT_SERVERS : list Z := str "1.1.1.1,1.0.0.1,8.8.8.8,8.8.4.4,9.9.9.9".

(** The default files of a system; no log file on Linux, where stderr is the
    journal. *)
Record default_paths := mk_paths {
  dp_strategy : list Z;
  dp_decisions : list Z;
  dp_status : list Z;
  dp_log : option (list Z)
}.

Definition LINUX_PATHS : default_paths :=
  mk_paths (str "/etc/dpi-proxy/strategy.conf") (str "/var/lib/dpi-proxy/tp-decisions.conf")
    (str "/run/dpi-proxy/transparent.status") None.
Definition MACOS_PATHS : default_paths :=
  mk_paths (str "/usr/local/etc/dpi-proxy/strategy.conf") (str "/usr/local/var/dpi-proxy/tp-decisions.conf")
    (str "/var/run/dpi-proxy/transparent.status") (Some (str "/var/log/dpi-proxy.log")).
(** Under [%ProgramData%], each in a buffer of 512 bytes. *)
Definition WINDOWS_PATHS (e : environ) : default_paths :=
  let data name := bsub (path_text (e !! str "ProgramData") (str name)) 0 511 in
  mk_paths (data "strategy.conf") (data "tp-decisions.conf") (data "transparent.status") (Some (data "dpi-proxy.log")).

Definition tp_options_default_on (d : default_paths) (e : environ) : tp_options :=
  mk_opt (port_or (e !! str "DPI_PROXY_TP_PORT") TP_DEFAULT_PORT)
    (bool_decide (e !! str "DPI_PROXY_LOG_LEVEL" = Some (str "debug")))
    (env_or e (str "DPI_PROXY_STRATEGY_CONF") (dp_strategy d))
    (env_or e (str "DPI_PROXY_TP_DECISIONS") (dp_decisions d))
    (env_or e (str "DPI_PROXY_TP_STATUS") (dp_status d))
    (match e !! str "DPI_PROXY_LOG_FILE" with Some (c :: v) => Some (c :: v) | _ => dp_log d end)
    (env_or e (str "DPI_PROXY_DNS_SERVERS") DNS_DEFAULT_SERVERS)
    (let v := e !! str "DPI_PROXY_TP_DNS" in
     if switched_off v then 0 else port_or v TP_DEFAULT_DNS_PORT)
    (negb (switched_off (e !! str "DPI_PROXY_DOH"))).

(** In the Linux build. *)
Definition tp_options_default (e : environ) : tp_options := tp_options_default_on LINUX_PATHS e.

(** ** Files *)

(** What is on the disk: the content of every file. *)
Notation disk := (gmap (list Z) (list Z)).

Definition read_file (fs : disk) (path : list Z) (alloc : bool) : option (list Z) :=
  text ← fs !! path;
  if 4 * 1024 * 1024 <? zlen text then None else if alloc then Some text else None.

(** What the system does for one [write_file_atomic]: whether the temporary
    file opens, how much of the data is in it after each write that reaches the
    disk, what [fwrite] returns, whether [fclose] works, what is in the file if
    one of them failed, and whether renaming and removing work. *)
Record write_run := mk_wr {
  wr_open : bool;
  wr_flushed : list Z;
  wr_count : Z;
  wr_close : bool;
  wr_left : Z;
  wr_rename : bool;
  wr_remove : bool
}.

(** The disk as other processes may see it on the way, the disk after it, and
    the result. *)
Definition write_file_atomic (r : write_run) (fs : disk) (path data : list Z) : list disk * disk * Z :=
  let tmp := path ++ str ".tmp" in
  if 4096 <=? zlen tmp then ([], fs, -1) else
  if negb (wr_open r) then ([], fs, -1) else
  let seen := map (fun n => <[tmp := bsub data 0 n]> fs) (0 :: wr_flushed r) in
  let ok := wr_close r && (wr_count r =? zlen data) in
  let closed := <[tmp := if ok then data else bsub data 0 (wr_left r)]> fs in
  if ok && wr_rename r then
    let fs' := <[path := data]> (delete tmp fs) in (seen ++ [closed; fs'], fs', 0)
  else
    let fs' := if wr_remove r then delete tmp closed else closed in (seen ++ [closed; fs'], fs', -1).

(** [save_decisions] and the file it writes. *)
Definition save_decisions_file (alloc : bool) (r : write_run) (path : list Z) (g : tpd) (fs : disk)
  : tpd * list disk * disk :=
  match save_decisions alloc g with
  | (g, Some text) => let '(seen, fs, _) := write_file_atomic r fs path text in (g, seen, fs)
  | (g, None) => (g, [], fs)
  end.

(** ** The status file *)

(** The fields of [g_tpd] that only the main loop writes. *)
Record frame := mk_frame {
  f_opt : tp_options;
  f_started_at : Z;
  f_ipv6 : bool;
  f_dns_intercept : bool;
  f_doh : bool;
  f_conflict : option (list Z)
}.

Definition status_line (name value : list Z) : list Z := name ++ 58 :: 32 :: value ++ [10].

(** [write_status]'s text; [pid] and [now] are what the system returns, [name]
    and [extra] what the platform layer does. *)
Definition status_text (engine : list Z) (pid now : Z) (name extra : list Z) (f : frame) (g : tpd)
  : list Z :=
  let n k := print_dec (g_stats g k) in
  status_line (str "engine") engine ++ status_line (str "mode") (str "transparent") ++
  status_line (str "pid") (print_dec pid) ++
  status_line (str "started") (print_dec (f_started_at f)) ++
  status_line (str "updated") (print_dec now) ++
  status_line (str "port") (print_dec (o_port (f_opt f))) ++
  status_line (str "dns") (if dns_resolver_healthy (g_dns g) now then str "healthy" else str "degraded") ++
  status_line (str "network") (hex_digits 16 (g_fp g)) ++
  status_line (str "flows") (n S_flows_total) ++ status_line (str "active") (n S_flows_active) ++
  status_line (str "passthrough") (n S_passthrough) ++ status_line (str "direct") (n S_direct) ++
  status_line (str "bypassed") (n S_bypassed) ++ status_line (str "failures") (n S_failed) ++
  status_line (str "verified_ok") (n S_verified_ok) ++ status_line (str "verified_bad") (n S_verified_bad) ++
  status_line (str "decisions") (print_dec (zlen (entries (g_dec g)))) ++
  status_line (str "last_learned") (match g_last_learned g with [] => str "-" | l => l end) ++
  status_line (str "dns_intercept")
    (if f_dns_intercept f then (if f_doh f then str "doh" else str "plain") else str "off") ++
  status_line (str "dns_queries") (n S_dns_queries) ++ status_line (str "dns_failures") (n S_dns_failures) ++
  status_line (str "conflict") (default (str "none") (f_conflict f)) ++
  status_line (str "interception") name ++ extra.

Definition write_status (r : write_run) (engine : list Z) (pid now : Z) (name extra : list Z) (f : frame)
    (g : tpd) (fs : disk) : list disk * disk :=
  let text := status_text engine pid now name extra f g in
  if (0 <? zlen text) && (zlen text <? 3072)
  then (write_file_atomic r fs (o_status_file (f_opt f)) text).1
  else ([], fs).

(** ** The resolver *)

Definition DNS_DOH_DEFAULT_SERVERS : list Z :=
  str "1.1.1.1/cloudflare-dns.com,1.0.0.1/cloudflare-dns.com,8.8.8.8/dns.google,8.8.4.4/dns.google".

Record dns_setup := mk_setup {
  su_udp : list dns_addr;
  su_doh : option (list doh_target);
  su_timeout : Z;
  su_resolver : dns_resolver
}.

(** [dns_doh_new] with the TLS context it needs. *)
Definition dns_doh_new (tls : bool) (l : list Z) : option (list doh_target) :=
  match dns_doh_servers l with
  | [] => None
  | srv => if tls then Some srv else None
  end.

Definition dns_doh_total (srv : list doh_target) (udp : list dns_addr) : nat :=
  (length srv + length udp)%nat.

(** [dns_doh_transport]: [doh] and [plain] are the two exchanges with one
    server, [None] no fallback. *)
Definition dns_doh_transport (srv : list doh_target) (doh : doh_target -> list Z -> transport_result)
    (plain : option dns_transport) : dns_transport :=
  fun i query =>
    match srv !! i with
    | Some s => doh s query
    | None => match plain with Some p => p (i - length srv)%nat query | None => TR_ERROR end
    end.

(** [dns_udp_transport] likewise. *)
Definition dns_udp_transport (udp : list dns_addr) (ask : dns_addr -> list Z -> transport_result)
  : dns_transport :=
  fun i query => match udp !! i with Some a => ask a query | None => TR_ERROR end.

(** [tls] and [alloc]: the TLS context and [calloc]; [seed] is
    [getpid() ^ tpd_now()]. *)
Definition init_dns (e : environ) (opt : tp_options) (tls alloc : bool) (seed : Z) : option dns_setup :=
  let udp := dns_udp_servers_parse (o_dns_servers opt) in
  let doh := if o_doh opt
             then dns_doh_new tls (env_or e (str "DPI_PROXY_DOH_SERVERS") DNS_DOH_DEFAULT_SERVERS)
             else None in
  match doh, udp with
  | None, [] => None
  | _, _ =>
      if negb alloc then None else
      Some (mk_setup udp doh (if doh is Some _ then 2500 else 1500)
              (match doh with
               | Some srv => dns_resolver_init (dns_doh_total srv udp) (u16 seed)
               | None => dns_resolver_init (length udp) (u16 seed)
               end))
  end.

(** The transport the resolver is given. *)
Definition setup_transport (s : dns_setup) (doh : doh_target -> list Z -> transport_result)
    (ask : dns_addr -> list Z -> transport_result) : dns_transport :=
  match su_doh s with
  | Some srv => dns_doh_transport srv doh
                  (match su_udp s with [] => None | udp => Some (dns_udp_transport udp ask) end)
  | None => dns_udp_transport (su_udp s) ask
  end.

(** ** Listeners *)

Inductive sock_type := SOCK_STREAM | SOCK_DGRAM.

(** A bound socket, listening if it is a stream; families are 4 and 6. *)
Record socket := mk_socket { so_family : Z; so_type : sock_type; so_port : Z }.

#[global] Instance sock_type_eq_dec : EqDecision sock_type.
Proof. solve_decision. Defined.
#[global] Instance socket_eq_dec : EqDecision socket.
Proof. solve_decision. Defined.

(** What the main loop does, apart from its timers; a heartbeat with the rules
    it is for, what [tpp_refresh] returned and when. *)
Inductive action :=
| A_CONN (family : Z)
| A_REFUSED (family : Z)
| A_NETEVENT
| A_CHECK
| A_RELOAD
| A_HEARTBEAT (port : Z) (ipv6 : bool) (dns_port : Z) (rc done : Z).

(** What the server does to the world, in order; a removal with whether the
    rules were still there after it. *)
Inductive event :=
| E_OPEN (s : socket)
| E_CLOSE (s : socket)
| E_SERVE (s : socket)
| E_INSTALL (port : Z) (ipv6 : bool) (dns_port : Z)
| E_REMOVE (kept : bool)
| E_LOOP (now : Z) (a : action).

(** Whether [socket], [bind] and [listen] work. *)
Record listen_run := mk_listen { ls_socket : bool; ls_bind : bool; ls_listen : bool }.

Definition tpd_listen (r : listen_run) (type : sock_type) : bool :=
  if negb (ls_socket r) then false else
  if negb (ls_bind r) || (bool_decide (type = SOCK_STREAM) && negb (ls_listen r)) then false else true.

Definition opened (ok : bool) (s : socket) : list event := if ok then [E_OPEN s] else [].
Definition closed (ok : bool) (s : socket) : list event := if ok then [E_CLOSE s] else [].

(** The two sockets and the two threads of one family. *)
Record family_run := mk_family {
  fr_udp : listen_run; fr_tcp : listen_run; fr_udp_thread : bool; fr_tcp_thread : bool
}.

Definition start_family (r : family_run) (family port : Z) : bool * list event :=
  let usock := mk_socket family SOCK_DGRAM port in
  let tsock := mk_socket family SOCK_STREAM port in
  let ufd := tpd_listen (fr_udp r) SOCK_DGRAM in
  let tfd := tpd_listen (fr_tcp r) SOCK_STREAM in
  let tr := opened ufd usock ++ opened tfd tsock in
  if negb ufd || negb tfd || negb (fr_udp_thread r)
  then (false, tr ++ closed ufd usock ++ closed tfd tsock)
  else if negb (fr_tcp_thread r) then (false, tr ++ [E_SERVE usock; E_CLOSE tsock])
  else (true, tr ++ [E_SERVE usock; E_SERVE tsock]).

(** Success, [*ipv6] afterwards, and the trace. *)
Definition tpd_dnsfwd_start (r4 r6 : family_run) (port : Z) (ipv6 : bool) : bool * bool * list event :=
  let '(ok, tr) := start_family r4 4 port in
  if negb ok then (false, ipv6, tr) else
  if ipv6 then
    let '(ok6, tr6) := start_family r6 6 port in (true, ok6, tr ++ tr6)
  else (true, false, tr).

(** [accept], [malloc] and [pthread_create]. *)
Record accept_run := mk_accept { ac_fd : bool; ac_alloc : bool; ac_thread : bool }.

Definition accept_one (r : accept_run) (family : Z) : list action :=
  if negb (ac_fd r) then [] else
  if negb (ac_alloc r) then [A_REFUSED family] else
  if ac_thread r then [A_CONN family] else [A_REFUSED family].

(** ** The main loop *)

Record timers := mk_timers { next_beat : Z; net_due : Z; next_netcheck : Z }.

Definition timers_init (now : Z) : timers :=
  mk_timers (now + TP_HEARTBEAT_S * 1000) 0 (now + NETCHECK_INTERVAL_S * 1000).

Inductive poll_result :=
| POLL_FAILED
| POLL_DONE (on4 on6 on_netlink : bool).

(** What happens around one turn of the loop: the signals, [poll] (an
    interrupted one reports nothing), the clocks, what [accept] does, what the
    other threads did to the shared state meanwhile, the network, the
    configuration file, how the platform layer's calls and writing files go,
    and when [tpp_refresh] returns. *)
Record turn {P : platform_layer} := mk_turn {
  tn_stop : bool;
  tn_poll : poll_result;
  tn_now : Z;
  tn_clock : Z;
  tn_reload : bool;
  tn_accept4 : accept_run;
  tn_accept6 : accept_run;
  tn_threads : tpd -> tpd;
  tn_fp : Z;
  tn_conf : option (list Z);
  tn_flush : op_run;
  tn_conflict : op_run;
  tn_refresh : op_run;
  tn_refreshed : Z;
  tn_alloc : bool;
  tn_save : write_run;
  tn_status : write_run
}.

Arguments turn P : clear implicits.

(** The timers after the network events of a turn, and whether the network is
    checked in it. *)
Definition net_timers (tm : timers) (now : Z) (event : bool) : timers * bool :=
  let due := if event then now + NETCHANGE_SETTLE_MS else net_due tm in
  if (negb (due =? 0) && (due <=? now)) || (next_netcheck tm <=? now)
  then (mk_timers (next_beat tm) 0 (now + NETCHECK_INTERVAL_S * 1000), true)
  else (mk_timers (next_beat tm) due (next_netcheck tm), false).

Definition beat_timers (tm : timers) (now : Z) : timers * bool :=
  if next_beat tm <=? now
  then (mk_timers (now + TP_HEARTBEAT_S * 1000) (net_due tm) (next_netcheck tm), true)
  else (tm, false).

Section server.
Context {P : platform_layer} (pid : Z).

Record server := mk_server {
  sv_g : tpd;
  sv_frame : frame;
  sv_disk : disk;
  sv_platform : pl_state
}.

(** [check_network], with what it asks of the platform layer. *)
Definition check_network_platform (r : op_run) (fp : Z) (sv : server) : server :=
  mk_server (check_network (sv_g sv) fp) (sv_frame sv) (sv_disk sv)
    (if fp =? g_fp (sv_g sv) then sv_platform sv
     else op_quic_flush r (sv_platform sv)).

Definition set_conflict (f : frame) (c : option (list Z)) : frame :=
  mk_frame (f_opt f) (f_started_at f) (f_ipv6 f) (f_dns_intercept f) (f_doh f) c.

Definition check_conflicts (r : op_run) (sv : server) : server :=
  let '(seen, pl) := op_conflict r (sv_platform sv) in
  mk_server (sv_g sv) (set_conflict (sv_frame sv) seen) (sv_disk sv) pl.

(** [save_decisions] and [write_status], on the server's disk. *)
Definition save_and_report (alloc : bool) (rs rw : write_run) (engine : list Z) (now : Z)
    (sv : server) : server :=
  let opt := f_opt (sv_frame sv) in
  let '(g, _, fs) := save_decisions_file alloc rs (o_decisions_file opt) (sv_g sv) (sv_disk sv) in
  let '(_, fs) := write_status rw engine pid now op_name (op_status_extra (sv_platform sv))
                    (sv_frame sv) g fs in
  mk_server g (sv_frame sv) fs (sv_platform sv).

(** What [tpp_refresh] returns only goes to the log. *)
Definition heartbeat (t : turn P) (sv : server) : server * Z :=
  let '(pl, rc) := op_refresh (tn_refresh t) (sv_platform sv) in
  (save_and_report (tn_alloc t) (tn_save t) (tn_status t) (str "running") (tn_clock t)
     (mk_server (sv_g sv) (sv_frame sv) (sv_disk sv) pl), rc).

(** One turn of the loop after [poll]: [v6] and [nl] say whether there are an
    IPv6 listener and a netlink socket. *)
Definition main_turn (v6 nl : bool) (on4 on6 on_netlink : bool) (tm : timers) (sv : server) (t : turn P)
  : res unit (timers * server * list action) :=
  let now := tn_now t in
  let sv := mk_server (tn_threads t (sv_g sv)) (sv_frame sv) (sv_disk sv) (sv_platform sv) in
  let conns := (if on4 then accept_one (tn_accept4 t) 4 else []) ++
               (if v6 && on6 then accept_one (tn_accept6 t) 6 else []) in
  let changed := nl && on_netlink in
  let '(tm, check) := net_timers tm now changed in
  let sv := if (check : bool)
            then check_conflicts (tn_conflict t) (check_network_platform (tn_flush t) (tn_fp t) sv)
            else sv in
  g ← (if tn_reload t then load_strategy_conf (sv_g sv) (tn_conf t) else Ok (sv_g sv));
  let sv := mk_server g (sv_frame sv) (sv_disk sv) (sv_platform sv) in
  let '(tm, beat) := beat_timers tm now in
  let '(port, ipv6, dns_port) := installed (sv_platform sv) in
  let '(sv, rc) := if (beat : bool) then heartbeat t sv else (sv, 0) in
  Ok (tm, sv,
      conns ++ (if changed then [A_NETEVENT] else []) ++ (if check then [A_CHECK] else []) ++
      (if tn_reload t then [A_RELOAD] else []) ++
      (if beat then [A_HEARTBEAT port ipv6 dns_port rc (tn_refreshed t)] else [])).

(** The loop over the turns given: is it over, and what it did when. *)
Fixpoint main_loop (v6 nl : bool) (tm : timers) (sv : server) (ts : list (turn P))
  : res unit (bool * timers * server * list (Z * action)) :=
  match ts with
  | [] => Ok (false, tm, sv, [])
  | t :: ts =>
      if tn_stop t then Ok (true, tm, sv, []) else
      match tn_poll t with
      | POLL_FAILED => Ok (true, tm, sv, [])
      | POLL_DONE on4 on6 on_netlink =>
          '(tm, sv, acts) ← main_turn v6 nl on4 on6 on_netlink tm sv t;
          '(over, tm, sv, log) ← main_loop v6 nl tm sv ts;
          Ok (over, tm, sv, map (pair (tn_now t)) acts ++ log)
      end
  end.

(** ** The server's life *)

(** What the system does while the server starts. *)
Record boot := mk_boot {
  bt_env : environ;
  bt_disk : disk;
  bt_platform : pl_state;
  bt_clock : Z;
  bt_now : Z;
  bt_init : bool;
  bt_tls : bool;
  bt_resolver_alloc : bool;
  bt_conf_alloc : bool;
  bt_dec_alloc : bool;
  bt_grow : tp_decisions -> bool;
  bt_fp : Z;
  bt_listen4 : listen_run;
  bt_listen6 : listen_run;
  bt_dns4 : family_run;
  bt_dns6 : family_run;
  bt_verify : bool;
  bt_netlink : bool;
  bt_conflict : op_run;
  bt_install : op_run;
  bt_status : write_run
}.

(** And while it stops. *)
Record stop_run := mk_stop {
  st_clock : Z; st_remove : op_run; st_alloc : bool; st_save : write_run; st_status : write_run
}.

Inductive outcome := STARTUP_FAILED | RUNNING | STOPPED.

Definition listener (family port : Z) : socket := mk_socket family SOCK_STREAM port.

(** From the options to the shared state: resolver, rules, decisions. *)
Definition init_state (b : boot) (opt : tp_options) : option (dns_setup * res unit tpd) :=
  setup ← init_dns (bt_env b) opt (bt_tls b) (bt_resolver_alloc b) (Z.lxor pid (bt_clock b));
  Some (setup,
    (let g := tpd_init strategy_config_init tp_decisions_init (su_resolver setup) (bt_fp b) in
     g ← load_strategy_conf g (read_file (bt_disk b) (o_strategy_conf opt) (bt_conf_alloc b));
     load_decisions (bt_grow b) g (read_file (bt_disk b) (o_decisions_file opt) (bt_dec_alloc b)))).

(** The listeners: is the first one up, the IPv6 one, IPv6 for the rules, DNS
    interception, and the trace. *)
Definition start_listeners (b : boot) (opt : tp_options) : option (bool * bool * bool * list event) :=
  let port := o_port opt in
  if negb (tpd_listen (bt_listen4 b) SOCK_STREAM) then None else
  let lfd6 := tpd_listen (bt_listen6 b) SOCK_STREAM in
  let tr := E_OPEN (listener 4 port) :: opened lfd6 (listener 6 port) in
  if 0 <? o_dns_port opt then
    let '(ok, ipv6, tr_dns) := tpd_dnsfwd_start (bt_dns4 b) (bt_dns6 b) (o_dns_port opt) lfd6 in
    Some (lfd6, ipv6, ok, tr ++ tr_dns)
  else Some (lfd6, lfd6, false, tr).

(** [tpd_verify_start] and [tpp_install]. *)
Definition start_interception (b : boot) (sv : server) (dns_port : Z) : server * bool * list event :=
  let opt := f_opt (sv_frame sv) in
  let ipv6 := f_ipv6 (sv_frame sv) in
  if negb (bt_verify b) then (sv, false, []) else
  let '(pl, rc) := op_install (bt_install b) (sv_platform sv) (o_port opt) ipv6 dns_port in
  (mk_server (sv_g sv) (sv_frame sv) (sv_disk sv) pl, rc =? 0, [E_INSTALL (o_port opt) ipv6 dns_port]).

Definition with_platform (sv : server) (pl : pl_state) : server :=
  mk_server (sv_g sv) (sv_frame sv) (sv_disk sv) pl.

Definition run_transparent_server (b : boot) (opt : tp_options) (ts : list (turn P)) (s : stop_run)
  : res unit (outcome * option server * list event) :=
  if negb (bt_init b) then Ok (STARTUP_FAILED, None, []) else
  match init_state b opt with
  | None => Ok (STARTUP_FAILED, None, [])
  | Some (setup, g) =>
      g ← g;
      match start_listeners b opt with
      | None => Ok (STARTUP_FAILED, None, [])
      | Some (lfd6, ipv6, dns, tr) =>
          let f := mk_frame opt (bt_clock b) ipv6 dns (bool_decide (is_Some (su_doh setup))) None in
          let sv := check_conflicts (bt_conflict b) (mk_server g f (bt_disk b) (bt_platform b)) in
          let '(sv, ok, tr_i) := start_interception b sv (if dns then o_dns_port opt else 0) in
          let tr := tr ++ tr_i in
          if negb ok then
            let pl := op_remove (st_remove s) (sv_platform sv) in
            Ok (STARTUP_FAILED, Some (with_platform sv pl),
                tr ++ E_REMOVE (intercepts pl) :: E_CLOSE (listener 4 (o_port opt)) :: closed lfd6 (listener 6 (o_port opt)))
          else
            let '(_, fs) := write_status (bt_status b) (str "running") pid (bt_clock b) op_name
                              (op_status_extra (sv_platform sv)) (sv_frame sv) (sv_g sv) (sv_disk sv) in
            let sv := mk_server (sv_g sv) (sv_frame sv) fs (sv_platform sv) in
            '(over, _, sv, log) ← main_loop lfd6 (bt_netlink b) (timers_init (bt_now b)) sv ts;
            let tr := tr ++ map (fun x => E_LOOP x.1 x.2) log in
            if negb over then Ok (RUNNING, Some sv, tr) else
            let pl := op_remove (st_remove s) (sv_platform sv) in
            Ok (STOPPED,
                Some (save_and_report (st_alloc s) (st_save s) (st_status s) (str "stopped") (st_clock s)
                        (with_platform sv pl)),
                tr ++ [E_REMOVE (intercepts pl)])
      end
  end.
End server.

Arguments mk_server {_} _ _ _ _.
Arguments sv_g {_} _.
Arguments sv_frame {_} _.
Arguments sv_disk {_} _.
Arguments sv_platform {_} _.

(** ** Files: nobody sees half a file *)

Lemma tmp_other (path : list Z) : path ++ str ".tmp" <> path.
Proof. intros H. apply (f_equal length) in H. rewrite length_app in H. cbn in H. lia. Qed.

(** What one of the disks seen during a write holds at [path] and elsewhere. *)
Record untorn (fs : disk) (path data : list Z) (fs' : disk) : Prop := {
  ut_path : fs' !! path = fs !! path \/ fs' !! path = Some data;
  ut_other : forall p, p <> path -> p <> path ++ str ".tmp" -> fs' !! p = fs !! p
}.

Lemma untorn_tmp fs path data x : untorn fs path data (<[path ++ str ".tmp" := x]> fs).
Proof.
  split.
  - left. apply lookup_insert_ne, tmp_other.
  - intros p _ Hp. by apply lookup_insert_ne.
Qed.

Lemma write_file_atomic_spec r fs path data :
  let '(seen, fs', rc) := write_file_atomic r fs path data in
  Forall (untorn fs path data) seen /\
  ((rc = 0 /\ fs' = <[path := data]> (delete (path ++ str ".tmp") fs)) \/
   (rc = -1 /\ fs' !! path = fs !! path /\ untorn fs path data fs')).
Proof.
  assert (H0 : untorn fs path data fs) by (split; [by left|done]).
  unfold write_file_atomic. cbv zeta. destruct (4096 <=? _); [by split; [constructor|right]|].
  destruct (wr_open r); cbn [negb]; [|by split; [constructor|right]].
  set (ok := wr_close r && _). clearbody ok.
  assert (Hseen : Forall (untorn fs path data)
    (map (fun n => <[path ++ str ".tmp" := bsub data 0 n]> fs) (0 :: wr_flushed r))).
  { apply Forall_map, Forall_forall. intros n _. apply untorn_tmp. }
  assert (Hdel : forall fs2, untorn fs path data fs2 -> fs2 !! path = fs !! path ->
    untorn fs path data (delete (path ++ str ".tmp") fs2) /\ delete (path ++ str ".tmp") fs2 !! path = fs !! path).
  { intros fs2 Hu Hp. split; [split|].
    - left. rewrite lookup_delete_ne by apply tmp_other. done.
    - intros p ??. rewrite lookup_delete_ne by done. by apply (ut_other _ _ _ _ Hu).
    - by rewrite lookup_delete_ne by apply tmp_other. }
  destruct (ok && wr_rename r) eqn:E.
  - apply andb_prop in E as [-> _]. split; [|by left].
    apply Forall_app_2; [done|]. repeat apply Forall_cons_2; [apply untorn_tmp| |constructor].
    split; [right; apply lookup_insert_eq|]. intros p ??. rewrite lookup_insert_ne by done.
    by apply lookup_delete_ne.
  - set (cl := <[_ := _]> fs).
    assert (Hcl : untorn fs path data cl) by apply untorn_tmp.
    assert (Hp : cl !! path = fs !! path) by (apply lookup_insert_ne, tmp_other).
    destruct (wr_remove r); (split; [apply Forall_app_2; [done|]; repeat apply Forall_cons_2; try done|right; split; [done|]]);
      try (by destruct (Hdel cl)); constructor.
Qed.

(** ** The decisions survive a restart *)

(** [save_decisions] has room for every table. *)
Lemma decision_line_fits e :
  decision_printable e -> stored_ok e -> zlen (decision_line e) <= STRATEGY_DOMAIN_MAX + 96.
Proof.
  intros He (_ & _ & Hh). unfold decision_line. rewrite !zlen_app, !zlen_cons, !zlen_app, !zlen_cons, !zlen_app.
  rewrite !zlen_cons, !zlen_app, !zlen_cons, !zlen_app, !zlen_cons, !zlen_app.
  pose proof (print_dec_word (dec_validated_at e) (dp_time _ He)) as (_ & Hv & _).
  assert (Hfam : zlen (print_dec (dec_family e)) = 1) by (destruct (dp_family _ He) as [-> | ->]; reflexivity).
  assert (Hhex : zlen (hex_digits 16 (dec_fingerprint e)) = 16)
    by (apply (print_hex_word (dec_fingerprint e)), (dp_fp _ He)).
  assert (Hs : zlen (strategy_name (step_strategy (dec_step e))) <= 24)
    by (destruct (step_strategy (dec_step e)); vm_compute; discriminate).
  assert (Ht : zlen (tp_target_name (target (dec_step e))) <= 8)
    by (destruct (target (dec_step e)); vm_compute; discriminate).
  rewrite Hfam, Hhex. change (zlen [10]) with 1. unfold STRATEGY_DOMAIN_MAX in *. lia.
Qed.

Lemma zlen_concat_le {A} (f : A -> list Z) (n : Z) (l : list A) :
  Forall (fun x => zlen (f x) <= n) l -> zlen (concat (map f l)) <= zlen l * n.
Proof.
  induction 1 as [|x l Hx _ IH]; [done|]. cbn [map concat]. rewrite zlen_app, zlen_cons. lia.
Qed.

Lemma decisions_text_fits d :
  decisions_ok d -> Forall decision_printable (entries d) ->
  zlen decisions_header + zlen (concat (map decision_line (entries d)))
    < 128 + zlen (entries d) * (STRATEGY_DOMAIN_MAX + 96) <= 4 * 1024 * 1024.
Proof.
  intros Hd Hp.
  assert (H : zlen (concat (map decision_line (entries d))) <= zlen (entries d) * (STRATEGY_DOMAIN_MAX + 96)).
  { apply zlen_concat_le. pose proof (do_stored d Hd) as Hs. rewrite Forall_forall in *.
    intros e He. apply decision_line_fits; auto. }
  pose proof (do_count d Hd). pose proof (do_cap d Hd). change (zlen decisions_header) with 77.
  unfold STRATEGY_DOMAIN_MAX, TP_DECISIONS_MAX in *. lia.
Qed.

Lemma serialize_whole d :
  decisions_ok d -> Forall decision_printable (entries d) ->
  tp_decisions_serialize d (128 + zlen (entries d) * (STRATEGY_DOMAIN_MAX + 96))
    = decisions_header ++ concat (map decision_line (entries d)).
Proof.
  intros Hd Hp. pose proof (decisions_text_fits d Hd Hp).
  pose proof (zlen_nonneg (concat (map decision_line (entries d)))).
  unfold tp_decisions_serialize. rewrite (proj2 (Z.leb_gt _ _)) by lia.
  rewrite serialize_entries_spec by lia. by rewrite (proj2 (Z.leb_gt _ _)) by lia.
Qed.

Definition decisions_text (d : tp_decisions) : list Z :=
  decisions_header ++ concat (map decision_line (entries d)).

(** The whole of [write_file_atomic] works. *)
Definition wr_works (r : write_run) (path data : list Z) : bool :=
  (zlen path + 4 <? 4096) && wr_open r && wr_close r && (wr_count r =? zlen data) && wr_rename r.

Lemma write_file_atomic_works r fs path data :
  wr_works r path data = true ->
  (write_file_atomic r fs path data).1.2 = <[path := data]> (delete (path ++ str ".tmp") fs).
Proof.
  unfold wr_works, write_file_atomic. rewrite !andb_true_iff. intros [[[[Hp ->] ->] Hc] ->].
  cbv zeta. rewrite zlen_app. change (zlen (str ".tmp")) with 4.
  rewrite (proj2 (Z.leb_gt _ _)) by lia. rewrite Hc. done.
Qed.

Lemma write_file_atomic_fails r fs path data :
  wr_works r path data = false -> (write_file_atomic r fs path data).1.2 !! path = fs !! path.
Proof.
  intros Hw. pose proof (write_file_atomic_spec r fs path data) as H.
  assert (Hrc : (write_file_atomic r fs path data).2 = -1).
  { revert Hw. unfold wr_works, write_file_atomic. cbv zeta. rewrite zlen_app.
    change (zlen (str ".tmp")) with 4.
    destruct (Z.leb_spec 4096 (zlen path + 4)) as [Hl|Hl]; [done|].
    rewrite (proj2 (Z.ltb_lt _ _)) by done. destruct (wr_open r); [|done]. cbn [negb andb].
    intros ->. done. }
  destruct (write_file_atomic r fs path data) as [[seen fs'] rc]. cbn in *. subst rc.
  destruct H as [_ [[? _]|[_ [? _]]]]; done.
Qed.

(** What a daemon that starts with the disk [fs] knows of the decisions of
    [d]: each connection is offered exactly what it was offered before. *)
Definition knows_again (d : tp_decisions) (path : list Z) (fs : disk) : Prop :=
  forall cfg dns net, exists g,
    load_decisions (fun _ => true) (tpd_init cfg tp_decisions_init dns net) (read_file fs path true) = Ok g /\
    decisions_ok (g_dec g) /\ entries (g_dec g) = map persisted (entries d) /\
    forall host fp family now,
      decision_val <$> tp_decision_lookup (g_dec g) host fp family now
      = decision_val <$> tp_decision_lookup d host fp family now.

Lemma lookup_persisted d d' host fp family now :
  NoDup (map dec_key (entries d)) -> entries d' = map persisted (entries d) ->
  decision_val <$> tp_decision_lookup d' host fp family now
  = decision_val <$> tp_decision_lookup d host fp family now.
Proof.
  intros Hn E. assert (Hk : map dec_key (entries d') = map dec_key (entries d)) by (rewrite E, map_map; done).
  rewrite !tp_decision_lookup_map by (by rewrite ?Hk). rewrite E. unfold decision_map. by rewrite map_map.
Qed.

Lemma written_known d path fs :
  decisions_ok d -> Forall decision_printable (entries d) ->
  fs !! path = Some (decisions_text d) -> knows_again d path fs.
Proof.
  intros Hd Hp Hf cfg dns net. pose proof (decisions_text_fits d Hd Hp) as [Hl Hb].
  destruct (tp_decisions_roundtrip d (128 + zlen (entries d) * (STRATEGY_DOMAIN_MAX + 96)) Hd Hp) as [_ H]. destruct (H Hl) as (d' & E & Hd' & He & _).
  rewrite serialize_whole in E by done. unfold read_file. rewrite Hf. cbn [mbind option_bind].
  unfold decisions_text. rewrite zlen_app, (proj2 (Z.ltb_ge _ _)) by lia.
  unfold load_decisions. cbn [g_dec tpd_init]. rewrite E. cbn [mbind res_bind].
  eexists. split; [reflexivity|]. cbn [g_dec set_dec]. split; [done|]. split; [done|].
  intros. apply lookup_persisted; [apply Hd|done].
Qed.

(** C: the decisions outlive the daemon. For any table the invariant allows
    whose entries can stand in the file, [save_decisions] finds room for the
    whole table in the buffer it sizes and never produces a file the loader's
    4 MB limit refuses. Every moment another process could look, the file is
    the old one or the complete new one. When the write works, a daemon that
    starts from that disk offers every connection exactly what it was offered
    before. When the write fails the old file is still there, but the table is
    already marked clean: the next call writes nothing. *)
Theorem decisions_survive_restart r path g fs :
  decisions_ok (g_dec g) -> Forall decision_printable (entries (g_dec g)) -> dirty (g_dec g) = true ->
  exists g' seen fs',
    save_decisions_file true r path g fs = (g', seen, fs') /\ entries (g_dec g') = entries (g_dec g) /\
    Forall (fun fs2 => fs2 !! path = fs !! path \/ knows_again (g_dec g) path fs2) seen /\
    (if wr_works r path (decisions_text (g_dec g)) then knows_again (g_dec g) path fs'
     else fs' !! path = fs !! path /\
          forall alloc r2, save_decisions_file alloc r2 path g' fs' = (g', [], fs')).
Proof.
  intros Hd Hp Hdirty. unfold save_decisions_file, save_decisions. rewrite Hdirty. cbn [negb].
  rewrite serialize_whole by done. fold (decisions_text (g_dec g)).
  rewrite (proj2 (Z.ltb_lt _ _))
    by (unfold decisions_text; rewrite zlen_app; pose proof (zlen_nonneg (concat (map decision_line (entries (g_dec g)))));
        change (zlen decisions_header) with 77; lia).
  pose proof (write_file_atomic_spec r fs path (decisions_text (g_dec g))) as H.
  pose proof (write_file_atomic_works r fs path (decisions_text (g_dec g))) as Hok.
  pose proof (write_file_atomic_fails r fs path (decisions_text (g_dec g))) as Hbad.
  destruct (write_file_atomic _ _ _ _) as [[seen fs'] rc]. destruct H as [Hseen _]. cbn [fst snd] in *.
  do 3 eexists. split; [reflexivity|]. split; [done|]. split.
  - eapply Forall_impl; [exact Hseen|]. intros fs2 [[E|E] _]; [by left|right]. by apply written_known.
  - destruct (wr_works _ _ _).
    + rewrite Hok by done. apply written_known; [done..|apply lookup_insert_eq].
    + split; [by apply Hbad|]. done.
Qed.

(** Two decisions to save; the second write of the data does not come
    through. *)
Definition dirty_state : tpd :=
  set_dec (tpd_init strategy_config_init tp_decisions_init (dns_resolver_init 1 0) 77)
    (set_entries sample_decisions (entries sample_decisions) true).
Definition sample_path : list Z := str "/var/lib/dpi-proxy/tp-decisions.conf".
Definition good_write : write_run :=
  mk_wr true [40; 100] (zlen (decisions_text (g_dec dirty_state))) true 0 true true.
Definition bad_write : write_run := mk_wr true [40] 40 true 40 true true.

Lemma sample_printable : Forall decision_printable (entries (g_dec dirty_state)).
Proof.
  repeat apply Forall_cons_2; [..|apply Forall_nil_2];
    (split; [repeat constructor; discriminate|reflexivity|discriminate|by vm_compute| | |by vm_compute]);
    unfold is_stream; auto.
Qed.

Lemma dirty_state_ok : decisions_ok (g_dec dirty_state).
Proof. destruct sample_decisions_ok. by split. Qed.

Lemma decisions_survive_restart_witness :
  (exists g' seen fs', save_decisions_file true good_write sample_path dirty_state ∅ = (g', seen, fs') /\
     zlen seen = 5 /\ knows_again (g_dec dirty_state) sample_path fs') /\
  (exists g' seen fs', save_decisions_file true bad_write sample_path dirty_state ∅ = (g', seen, fs') /\
     save_decisions_file true good_write sample_path g' fs' = (g', [], fs')).
Proof.
  split.
  - destruct (decisions_survive_restart good_write sample_path dirty_state ∅
      dirty_state_ok sample_printable eq_refl) as (g' & seen & fs' & E & _ & _ & H).
    assert (Hw : wr_works good_write sample_path (decisions_text (g_dec dirty_state)) = true)
      by (vm_compute; reflexivity). rewrite Hw in H.
    exists g', seen, fs'. split; [exact E|]. split; [|exact H].
    assert (Hv : zlen (save_decisions_file true good_write sample_path dirty_state ∅).1.2 = 5)
      by (vm_compute; reflexivity). rewrite E in Hv. exact Hv.
  - destruct (decisions_survive_restart bad_write sample_path dirty_state ∅
      dirty_state_ok sample_printable eq_refl) as (g' & seen & fs' & E & _ & _ & H).
    assert (Hw : wr_works bad_write sample_path (decisions_text (g_dec dirty_state)) = false)
      by (vm_compute; reflexivity). rewrite Hw in H. destruct H as [_ H].
    exists g', seen, fs'. split; [exact E|apply H].
Defined.

(** ** The timers of the main loop *)

Definition is_beat (a : action) : bool := match a with A_HEARTBEAT _ _ _ _ _ => true | _ => false end.
Definition is_check (a : action) : bool := match a with A_CHECK => true | _ => false end.
Definition is_reload (a : action) : bool := match a with A_RELOAD => true | _ => false end.

(** When the actions of a kind happened. *)
Definition times (f : action -> bool) (log : list (Z * action)) : list Z :=
  map fst (List.filter (fun x => f x.2) log).

(** When each call of [tpp_refresh] returned, and what. *)
Definition refreshes (log : list (Z * action)) : list (Z * Z) :=
  omap (fun x => match x.2 with A_HEARTBEAT _ _ _ rc done => Some (done, rc) | _ => None end) log.

(** The last network event that no check has followed. *)
Definition unchecked (pend : option Z) (log : list (Z * action)) : option Z :=
  foldl (fun p x => match x.2 with A_NETEVENT => Some x.1 | A_CHECK => None | _ => p end) pend log.

(** Each time is between [lo] and [hi] after the one before. *)
Fixpoint gaps (lo hi prev : Z) (l : list Z) : Prop :=
  match l with [] => True | t :: l => lo <= t - prev <= hi /\ gaps lo hi t l end.

(** A turn starts at most [d] after the one before it, and is done with
    refreshing at most [d] after its start. *)
Definition steady {P} (d prev : Z) (ts : list (turn P)) : Prop :=
  gaps 0 d prev (map tn_now ts) /\ Forall (fun t => tn_now t <= tn_refreshed t <= tn_now t + d) ts.
Definition goes_on {P} (t : turn P) : Prop := tn_stop t = false /\ tn_poll t <> POLL_FAILED.

Definition last_of (t0 : Z) (l : list Z) : Z := default t0 (last l).

Lemma last_of_cons t0 x l : last_of t0 (x :: l) = last_of x l.
Proof. unfold last_of. destruct l as [|y l]; [done|]. cbn [last]. by destruct (last (y :: l)) eqn:E; [|apply last_None in E]. Qed.

Lemma times_app f l l' : times f (l ++ l') = times f l ++ times f l'.
Proof. unfold times. by rewrite List.filter_app, map_app. Qed.

Lemma refreshes_app l l' : refreshes (l ++ l') = refreshes l ++ refreshes l'.
Proof. apply omap_app. Qed.

Lemma unchecked_app p l l' : unchecked p (l ++ l') = unchecked (unchecked p l) l'.
Proof. apply foldl_app. Qed.

(** What the timers say about the past: the last heartbeat, the last check and
    the event waiting for one. *)
Record timers_ok (tm : timers) (now beat check : Z) (pend : option Z) : Prop := {
  to_beat : next_beat tm = beat + TP_HEARTBEAT_S * 1000;
  to_beat_now : now < next_beat tm;
  to_check : next_netcheck tm = check + NETCHECK_INTERVAL_S * 1000;
  to_check_now : now < next_netcheck tm;
  to_pos : 0 <= now;
  to_pend : match pend with
            | Some e => net_due tm = e + NETCHANGE_SETTLE_MS /\ now < net_due tm
            | None => net_due tm = 0
            end
}.

Section turns.
Context {P : platform_layer} (pid : Z) (v6 nl : bool).

Lemma load_strategy_conf_ok g text : exists g', load_strategy_conf g text = Ok g'.
Proof.
  unfold load_strategy_conf. destruct text as [text|]; [|by eexists].
  pose proof (strategy_config_parse_wp _ text strategy_config_init_ok) as W.
  destruct (strategy_config_parse _ text) as [[cfg n]| |]; [|done|done]. by eexists.
Qed.

(** The actions of a turn, in order. *)
Definition turn_log (now : Z) (conns : list action) (changed check reload beat : bool) (port : Z)
    (ipv6 : bool) (dns_port rc done : Z) : list (Z * action) :=
  map (pair now)
    (conns ++ (if changed then [A_NETEVENT] else []) ++ (if check then [A_CHECK] else []) ++
     (if reload then [A_RELOAD] else []) ++
     (if beat then [A_HEARTBEAT port ipv6 dns_port rc done] else [])).

(** Accepting logs nothing of the other kinds. *)
Record quiet (now : Z) (conns : list action) : Prop := {
  qt_beat : times is_beat (map (pair now) conns) = [];
  qt_check : times is_check (map (pair now) conns) = [];
  qt_reload : times is_reload (map (pair now) conns) = [];
  qt_refresh : refreshes (map (pair now) conns) = [];
  qt_event : forall p, unchecked p (map (pair now) conns) = p
}.

Lemma accept_quiet now r family : quiet now (accept_one r family).
Proof. unfold accept_one. by destruct (ac_fd r), (ac_alloc r), (ac_thread r). Qed.

Lemma quiet_app now l l' : quiet now l -> quiet now l' -> quiet now (l ++ l').
Proof.
  intros [B1 C1 R1 F1 E1] [B2 C2 R2 F2 E2].
  split; rewrite ?map_app, ?times_app, ?refreshes_app, ?B1, ?B2, ?C1, ?C2, ?R1, ?R2, ?F1, ?F2; try done.
  intros p. by rewrite unchecked_app, E1, E2.
Qed.

Lemma quiet_if now (b : bool) l : quiet now l -> quiet now (if b then l else []).
Proof. by destruct b. Qed.

Lemma turn_log_spec now conns changed check reload beat port ipv6 dns_port rc done :
  quiet now conns ->
  let log := turn_log now conns changed check reload beat port ipv6 dns_port rc done in
  times is_beat log = (if beat then [now] else []) /\
  times is_check log = (if check then [now] else []) /\
  times is_reload log = (if reload then [now] else []) /\
  refreshes log = (if beat then [(done, rc)] else []) /\
  forall p, unchecked p log = if check then None else if changed then Some now else p.
Proof.
  intros [B C R F E]. cbv zeta. unfold turn_log. rewrite map_app, !times_app, refreshes_app, B, C, R, F. cbn [app].
  setoid_rewrite unchecked_app. setoid_rewrite E. by destruct changed, check, reload, beat.
Qed.

(** The two timer steps of a turn keep the timers right. *)
Lemma turn_timers tm now (changed : bool) prev beat check pend :
  timers_ok tm prev beat check pend -> prev <= now ->
  let '(tm1, ck) := net_timers tm now changed in
  let '(tm2, bt) := beat_timers tm1 now in
  timers_ok tm2 now (if bt then now else beat) (if ck then now else check)
    (if ck then None else if changed then Some now else pend) /\ bt = (next_beat tm <=? now).
Proof.
  intros [Hb Hbn Hc Hcn Hp Hd] Hnow. unfold net_timers, beat_timers. cbv zeta.
  unfold TP_HEARTBEAT_S, NETCHECK_INTERVAL_S, NETCHANGE_SETTLE_MS in *.
  destruct (Z.leb_spec (next_netcheck tm) now); [rewrite orb_true_r|rewrite orb_false_r].
  - cbn [next_beat net_due next_netcheck]. destruct (Z.leb_spec (next_beat tm) now);
      (split; [|done]); split; cbn [next_beat net_due next_netcheck]; done || lia.
  - destruct changed.
    + rewrite (proj2 (Z.leb_gt (now + 2000) now)), andb_false_r by lia. cbn [next_beat net_due next_netcheck].
      destruct (Z.leb_spec (next_beat tm) now); (split; [|done]); split; cbn [next_beat net_due next_netcheck];
        unfold NETCHANGE_SETTLE_MS; done || lia.
    + destruct (negb (net_due tm =? 0) && (net_due tm <=? now)) eqn:E; cbn [next_beat net_due next_netcheck].
      * destruct (Z.leb_spec (next_beat tm) now); (split; [|done]); split; cbn [next_beat net_due next_netcheck]; done || lia.
      * assert (Hd' : match pend with Some e => net_due tm = e + 2000 /\ now < net_due tm
                      | None => net_due tm = 0 end).
        { destruct pend as [e|]; [|done]. split; [apply Hd|].
          apply andb_false_iff in E as [E%negb_false_iff%Z.eqb_eq|E%Z.leb_gt]; lia. }
        destruct (Z.leb_spec (next_beat tm) now); (split; [|done]); split; cbn [next_beat net_due next_netcheck];
          done || lia.
Qed.

(** One turn never faults, and what it does to the timers is what it logs. *)
Lemma main_turn_timers on4 on6 on_netlink tm (sv : @server P) t prev beat check pend :
  timers_ok tm prev beat check pend -> prev <= tn_now t ->
  exists tm' sv' acts,
    main_turn pid v6 nl on4 on6 on_netlink tm sv t = Ok (tm', sv', acts) /\
    let log := map (pair (tn_now t)) acts in
    timers_ok tm' (tn_now t) (last_of beat (times is_beat log)) (last_of check (times is_check log))
      (unchecked pend log) /\
    times is_beat log = (if next_beat tm <=? tn_now t then [tn_now t] else []) /\
    times is_reload log = (if tn_reload t then [tn_now t] else []) /\
    exists pl, refreshes log = if next_beat tm <=? tn_now t
                               then [(tn_refreshed t, (op_refresh (tn_refresh t) pl).2)] else [].
Proof.
  intros Ht Hnow. unfold main_turn. cbv zeta.
  pose proof (turn_timers tm (tn_now t) (nl && on_netlink) prev beat check pend Ht Hnow) as H.
  destruct (net_timers tm (tn_now t) (nl && on_netlink)) as [tm1 ck].
  set (sv1 := if ck then _ else _). clearbody sv1.
  assert (Hg : exists g, (if tn_reload t then load_strategy_conf (sv_g sv1) (tn_conf t) else Ok (sv_g sv1)) = Ok g).
  { destruct (tn_reload t); [apply load_strategy_conf_ok|by eexists]. }
  destruct Hg as [g ->]. cbn [mbind res_bind].
  destruct (beat_timers tm1 (tn_now t)) as [tm2 bt]. destruct H as [H ->].
  cbn [sv_platform]. destruct (installed (sv_platform sv1)) as [[port ipv6] dns_port].
  match goal with |- context [let '(_, _) := ?x in _] => destruct x as [sv2 rc] eqn:Ex end.
  do 3 eexists. split; [reflexivity|].
  set (conns := (if on4 then _ else _) ++ _).
  assert (Hq : quiet (tn_now t) conns).
  { apply quiet_app; apply quiet_if, accept_quiet. }
  destruct (turn_log_spec (tn_now t) conns (nl && on_netlink) ck (tn_reload t) (next_beat tm <=? tn_now t)
    port ipv6 dns_port rc (tn_refreshed t) Hq)
    as (EB & EC & ER & EF & EU).
  unfold turn_log in EB, EC, ER, EF, EU. rewrite EB, EC, ER, EF, EU.
  split; [|split; [done|split; [done|]]].
  2: { exists (sv_platform sv1). destruct (next_beat tm <=? tn_now t); [|done]. unfold heartbeat in Ex. cbn [sv_platform] in Ex.
       destruct (op_refresh _ _) as [pl rc']. by injection Ex as _ <-. }
  replace (last_of beat _) with (if next_beat tm <=? tn_now t then tn_now t else beat)
    by (by destruct (next_beat tm <=? tn_now t)).
  replace (last_of check _) with (if ck then tn_now t else check) by (by destruct ck). exact H.
Qed.

Lemma last_of_app t0 l l' : last_of t0 (l ++ l') = last_of (last_of t0 l) l'.
Proof.
  unfold last_of. destruct l' as [|x l']; [by rewrite app_nil_r|]. rewrite last_app_cons.
  destruct (last (x :: l')) eqn:E; [done|]. by apply last_None in E.
Qed.

(** A call of [tpp_refresh] in one of the turns. *)
Definition refresh_of (ts : list (turn P)) (r : Z * Z) : Prop :=
  exists t pl, t ∈ ts /\ r = (tn_refreshed t, (op_refresh (tn_refresh t) pl).2).

Lemma main_loop_timers d ts tm (sv : @server P) prev beat check pend :
  timers_ok tm prev beat check pend -> steady d prev ts -> Forall goes_on ts ->
  exists tm' sv' log, main_loop pid v6 nl tm sv ts = Ok (false, tm', sv', log) /\
    timers_ok tm' (last_of prev (map tn_now ts)) (last_of beat (times is_beat log))
      (last_of check (times is_check log)) (unchecked pend log) /\
    gaps (TP_HEARTBEAT_S * 1000) (TP_HEARTBEAT_S * 1000 + d) beat (times is_beat log) /\
    times is_reload log = map tn_now (List.filter tn_reload ts) /\
    Forall2 (fun b r => b <= r.1 <= b + d) (times is_beat log) (refreshes log) /\
    Forall (refresh_of ts) (refreshes log).
Proof.
  revert tm sv prev beat check pend.
  induction ts as [|t ts IH]; intros tm sv prev beat check pend Ht Hs Hg.
  { do 3 eexists. split; [reflexivity|]. split; [exact Ht|]. split; [done|]. split; [done|]. split; constructor. }
  destruct Hs as [[[Hlo Hhi] Hs1] Hs2]. inversion Hs2 as [|? ? Hr Hs3]; subst. pose proof (conj Hs1 Hs3 : steady d (tn_now t) ts) as Hs.
  inversion Hg as [|? ? [Hst Hpoll] Hg']; subst.
  cbn [main_loop]. rewrite Hst. destruct (tn_poll t) as [|on4 on6 on_netlink]; [done|].
  destruct (main_turn_timers on4 on6 on_netlink tm sv t prev beat check pend Ht ltac:(lia))
    as (tm1 & sv1 & acts & -> & H1 & EB & ER & pl & EF). cbn [mbind res_bind].
  destruct (IH tm1 sv1 _ _ _ _ H1 Hs Hg') as (tm2 & sv2 & log & -> & H2 & HB & HR & HF & HO). cbn [mbind res_bind].
  do 3 eexists. split; [reflexivity|]. cbn [map]. rewrite last_of_cons, !times_app, !last_of_app, unchecked_app, refreshes_app.
  split; [exact H2|]. rewrite EB, ER, EF. rewrite EB in HB. split; [|split; [|split]].
  - destruct (Z.leb_spec (next_beat tm) (tn_now t)); cbn [app]; [|exact HB].
    split; [|exact HB]. destruct Ht. lia.
  - rewrite HR. cbn [List.filter]. by destruct (tn_reload t).
  - destruct (next_beat tm <=? tn_now t); [|exact HF]. by constructor.
  - apply Forall_app_2.
    + destruct (next_beat tm <=? tn_now t); [|constructor]. repeat constructor. exists t, pl. split; [left|done].
    + eapply Forall_impl; [exact HO|]. intros x (t' & pl' & Ht' & E). exists t', pl'. split; [by right|done].
Qed.
End turns.

(** Refreshes that follow beats: each moment has one shortly before it. *)
Lemma gaps_cover d hi w p l (r0 : Z * Z) rs x :
  gaps 0 hi p l -> Forall2 (fun b r => b <= r.1 <= b + d) l rs -> hi + 2 * d <= w ->
  p - d <= r0.1 <= p + d -> r0.1 <= x < last_of p l + w - d ->
  exists r, r ∈ r0 :: rs /\ r.1 <= x < r.1 + w.
Proof.
  intros Hg H Hw. revert p r0 Hg. induction H as [|t r l rs Hr _ IH]; intros p r0 Hg H0 Hx.
  - exists r0. split; [left|]. change (last_of p []) with p in Hx. lia.
  - destruct Hg as [Hp Hg]. rewrite last_of_cons in Hx. destruct (Z.lt_ge_cases x r.1).
    + exists r0. split; [left|lia].
    + destruct (IH t r Hg ltac:(lia) ltac:(lia)) as (b & Hb & ?). exists b. split; [by right|done].
Qed.

Lemma gaps_weaken lo lo' hi p l : gaps lo hi p l -> lo' <= lo -> gaps lo' hi p l.
Proof. intros H Hl. revert p H. induction l as [|t l IH]; intros p H; [done|]. destruct H as [Hp H]. split; [lia|auto]. Qed.

(** C19: the main loop keeps its times, whatever connections, network events,
    signals, failing platform calls and failing writes come in between. In every run
    of turns that start at most [d] ms apart, the loop never leaves a buffer;
    heartbeats are at least 10 s and at most 10 s + [d] apart and the last one
    is less than 10 s old; the last network check is less than a minute old and
    the last network event is less than 2 s old or has been followed by a
    check; every reload signal is served in its turn. Every heartbeat calls
    [tpp_refresh] once; the log has what the platform layer returned and when.
    If no call returns later than [d] after its turn started and [d] is at most
    a third of 20 s, at every moment from the arming of the rules at [armed] on
    there is a call that returned less than [TP_ALIVE_TIMEOUT_S] ago: the
    interception's own time-out can strike only when such a call failed to
    renew the rules, never because the loop forgot or was late. *)
Theorem main_loop_timely (P : platform_layer) pid v6 nl (sv : @server P) t0 d ts :
  0 <= t0 -> steady d t0 ts -> Forall goes_on ts ->
  exists tm sv' log, main_loop pid v6 nl (timers_init t0) sv ts = Ok (false, tm, sv', log) /\
    let now := last_of t0 (map tn_now ts) in
    gaps (TP_HEARTBEAT_S * 1000) (TP_HEARTBEAT_S * 1000 + d) t0 (times is_beat log) /\
    now < last_of t0 (times is_beat log) + TP_HEARTBEAT_S * 1000 /\
    now < last_of t0 (times is_check log) + NETCHECK_INTERVAL_S * 1000 /\
    (forall e, unchecked None log = Some e -> now < e + NETCHANGE_SETTLE_MS) /\
    times is_reload log = map tn_now (List.filter tn_reload ts) /\
    Forall2 (fun b r => b <= r.1 <= b + d) (times is_beat log) (refreshes log) /\
    Forall (refresh_of ts) (refreshes log) /\
    forall armed x, 3 * d <= 20000 -> t0 - d <= armed <= t0 -> armed <= x <= now + d ->
      exists r, r ∈ (armed, 0) :: refreshes log /\ r.1 <= x < r.1 + TP_ALIVE_TIMEOUT_S * 1000.
Proof.
  intros H0 Hs Hg.
  assert (Ht : timers_ok (timers_init t0) t0 t0 t0 None).
  { unfold timers_init. split; cbn [next_beat next_netcheck net_due]; unfold TP_HEARTBEAT_S, NETCHECK_INTERVAL_S; done || lia. }
  destruct (main_loop_timers pid v6 nl d ts _ sv _ _ _ _ Ht Hs Hg) as (tm & sv' & log & E & H & HB & HR & HF & HO).
  exists tm, sv', log. split; [exact E|]. cbv zeta. destruct H as [B1 B2 C1 C2 _ Hp].
  split; [exact HB|]. split; [lia|]. split; [lia|]. split.
  { intros e He. rewrite He in Hp. lia. }
  split; [exact HR|]. split; [exact HF|]. split; [exact HO|]. intros armed x Hd Ha Hx.
  unfold TP_HEARTBEAT_S, TP_ALIVE_TIMEOUT_S in *.
  eapply (gaps_cover d (10 * 1000 + d) _ t0 _ (armed, 0)); [eapply gaps_weaken; [exact HB|lia]|exact HF|lia|cbn [fst]; lia|].
  cbn [fst]. lia.
Qed.

(** ** The redirect never points at nothing *)

(** The sockets that redirected traffic is sent to. *)
Definition points_at (port : Z) (ipv6 : bool) (dns_port : Z) : list socket :=
  let forwarder family := [mk_socket family SOCK_DGRAM dns_port; mk_socket family SOCK_STREAM dns_port] in
  listener 4 port :: (if ipv6 then [listener 6 port] else []) ++
  (if 0 <? dns_port then forwarder 4 ++ (if ipv6 then forwarder 6 else []) else []).

(** What is intercepted at most, and the sockets that are open. An attempt to
    install, and a heartbeat, may both have installed the rules; only removing
    them ends the interception, when it works. *)
Definition world : Type := option (Z * bool * Z) * list socket.
Definition world_step (w : world) (e : event) : world :=
  match e with
  | E_OPEN s => (w.1, s :: w.2)
  | E_CLOSE s => (w.1, remove_one s w.2)
  | E_SERVE _ => w
  | E_INSTALL port ipv6 dns_port => (Some (port, ipv6, dns_port), w.2)
  | E_REMOVE kept => (if kept then w.1 else None, w.2)
  | E_LOOP _ (A_HEARTBEAT port ipv6 dns_port _ _) => (Some (port, ipv6, dns_port), w.2)
  | E_LOOP _ _ => w
  end.
Definition world_after (w : world) (tr : list event) : world := foldl world_step w tr.

Definition world_ok (opt : tp_options) (w : world) : Prop :=
  match w.1 with
  | Some (port, ipv6, dns_port) => port = o_port opt /\ points_at port ipv6 dns_port ⊆ w.2
  | None => True
  end.

(** At every moment of the trace before a removal that failed. *)
Fixpoint always_ok (opt : tp_options) (w : world) (tr : list event) : Prop :=
  world_ok opt w /\
  match tr with [] | E_REMOVE true :: _ => True | e :: tr => always_ok opt (world_step w e) tr end.

Lemma always_ok_cons opt w e tr :
  world_ok opt w -> (e <> E_REMOVE true -> always_ok opt (world_step w e) tr) -> always_ok opt w (e :: tr).
Proof. intros Hw H. split; [exact Hw|]. destruct e as [| | | |[]|]; auto. Qed.

Lemma always_ok_prefix opt w tr tr' :
  always_ok opt w (tr ++ tr') -> E_REMOVE true ∉ tr -> world_ok opt (world_after w tr).
Proof.
  revert w. induction tr as [|e tr IH]; intros w H Hr; [by destruct tr', H|]. destruct H as [_ H].
  apply not_elem_of_cons in Hr as [He Hr]. apply IH; [|done]. by destruct e as [| | | |[]|].
Qed.

Lemma always_ok_app opt w tr tr' :
  always_ok opt w tr -> always_ok opt (world_after w tr) tr' -> always_ok opt w (tr ++ tr').
Proof.
  revert w. induction tr as [|e tr IH]; intros w H H'; [done|]. destruct H as [H0 H].
  apply always_ok_cons; [exact H0|]. intros He. apply IH; [|exact H']. by destruct e as [| | | |[]|].
Qed.

(** Before the removal there is none, after it only sockets are closed. *)
Definition no_removal (e : event) : Prop := match e with E_REMOVE _ => False | _ => True end.

Lemma world_after_app w tr tr' : world_after w (tr ++ tr') = world_after (world_after w tr) tr'.
Proof. apply foldl_app. Qed.

(** Opening, closing and serving sockets while nothing is intercepted. *)
Definition socket_event (e : event) : Prop :=
  match e with E_OPEN _ | E_CLOSE _ | E_SERVE _ => True | _ => False end.

Lemma removed_once tr0 kept0 post0 :
  Forall no_removal tr0 -> Forall socket_event post0 ->
  forall pre kept post, tr0 ++ E_REMOVE kept0 :: post0 = pre ++ E_REMOVE kept :: post -> Forall socket_event post.
Proof.
  intros H Hp. assert (Hn : forall e l, Forall socket_event (l : list event) -> ~ no_removal e -> e ∉ l).
  { intros e l Hl He Hin. rewrite Forall_forall in Hl. apply Hl in Hin. by destruct e. }
  induction H as [|e tr0 He _ IH]; intros [|e' pre] kept post E.
  - injection E as _ <-. exact Hp.
  - injection E as _ ->. exfalso. apply (Hn (E_REMOVE kept) _ Hp); [by intros []|]. apply elem_of_app. right. left.
  - injection E as -> _. done.
  - injection E as _ E. by eapply IH.
Qed.

Lemma never_removed tr0 :
  Forall no_removal tr0 ->
  forall pre kept post, tr0 = pre ++ E_REMOVE kept :: post -> Forall socket_event post.
Proof. intros H pre kept post ->. apply Forall_app in H as [_ H]. by inversion H. Qed.

Lemma sockets_only opt tr l :
  Forall socket_event tr ->
  always_ok opt (None, l) tr /\ (world_after (None, l) tr).1 = None.
Proof.
  intros H. revert l. induction H as [|e tr He _ IH]; intros l; [by repeat split|].
  destruct e; try done; cbn [always_ok world_step world_after foldl fst snd];
    (split; [split; [done|]|]; apply IH).
Qed.

Lemma start_family_spec r family port l :
  let '(ok, tr) := start_family r family port in
  Forall socket_event tr /\
  exists l', (world_after (None, l) tr).2 = l' ++ l /\
    (ok = true -> l' = [mk_socket family SOCK_STREAM port; mk_socket family SOCK_DGRAM port]).
Proof.
  assert (Hn : forall l0, remove_one (mk_socket family SOCK_DGRAM port)
      (mk_socket family SOCK_STREAM port :: mk_socket family SOCK_DGRAM port :: l0)
      = mk_socket family SOCK_STREAM port :: l0).
  { intros l0. cbn [remove_one]. rewrite decide_False by done. by rewrite decide_True. }
  unfold start_family. cbv zeta. unfold opened, closed.
  destruct (tpd_listen (fr_udp r) SOCK_DGRAM), (tpd_listen (fr_tcp r) SOCK_STREAM), (fr_udp_thread r), (fr_tcp_thread r);
    cbn [negb orb app world_after foldl world_step fst snd]; rewrite ?Hn, ?remove_one_head;
    (split; [repeat apply Forall_cons_2; done || constructor|]).
  all: first [by exists [] | by eexists [_] | by eexists [_; _]].
Qed.

Lemma world_after_sockets l tr :
  Forall socket_event tr -> world_after (None, l) tr = (None, (world_after (None, l) tr).2).
Proof.
  intros H. destruct (sockets_only (tp_options_default ∅) tr l H) as [_ E].
  destruct (world_after (None, l) tr) as [w1 w2]. cbn in E. by subst w1.
Qed.

(** What is up when the interception is about to start. *)
Lemma start_listeners_spec {P} (b : @boot P) opt lfd6 ipv6 dns tr :
  start_listeners b opt = Some (lfd6, ipv6, dns, tr) ->
  Forall socket_event tr /\
  points_at (o_port opt) ipv6 (if dns then o_dns_port opt else 0) ⊆ (world_after (None, []) tr).2.
Proof.
  unfold start_listeners. destruct (tpd_listen (bt_listen4 b) SOCK_STREAM); [|done]. cbn [negb].
  set (up := tpd_listen (bt_listen6 b) SOCK_STREAM). clearbody up.
  set (base := (if up then [listener 6 (o_port opt)] else []) ++ [listener 4 (o_port opt)]).
  set (tr0 := E_OPEN (listener 4 (o_port opt)) :: opened up (listener 6 (o_port opt))).
  assert (Hbase : Forall socket_event tr0 /\ world_after (None, []) tr0 = (None, base)).
  { unfold tr0, base, opened. destruct up; split; repeat apply Forall_cons_2; done || constructor. }
  destruct Hbase as [He Hw]. clearbody tr0. unfold points_at.
  destruct (0 <? o_dns_port opt) eqn:Hdp; cbv zeta.
  - unfold tpd_dnsfwd_start.
    pose proof (start_family_spec (bt_dns4 b) 4 (o_dns_port opt) base) as H4.
    destruct (start_family (bt_dns4 b) 4 (o_dns_port opt)) as [ok4 tr4]. destruct H4 as (He4 & l4 & E4 & Hl4).
    destruct ok4; cbn [negb].
    + rewrite Hl4 in E4 by done. destruct up.
      * pose proof (start_family_spec (bt_dns6 b) 6 (o_dns_port opt) (world_after (None, base) tr4).2) as H6.
        destruct (start_family (bt_dns6 b) 6 (o_dns_port opt)) as [ok6 tr6]. destruct H6 as (He6 & l6 & E6 & Hl6).
        injection 1 as <- <- <- <-. split; [apply Forall_app_2; [exact He|by apply Forall_app_2]|].
        rewrite !world_after_app, Hw, (world_after_sockets base tr4 He4), E6, E4, Hdp. cbn [snd].
        destruct ok6; [rewrite Hl6 by done|]; unfold base; set_solver.
      * injection 1 as <- <- <- <-. split; [by apply Forall_app_2|].
        rewrite world_after_app, Hw, E4, Hdp. unfold base. set_solver.
    + injection 1 as <- <- <- <-. split; [by apply Forall_app_2|].
      rewrite world_after_app, Hw, E4. change (0 <? 0) with false. unfold base. destruct up; set_solver.
  - injection 1 as <- <- <- <-. split; [done|]. rewrite Hw. change (0 <? 0) with false.
    unfold base. destruct up; set_solver.
Qed.

(** *** The platform layer keeps the ports it was given *)

Section platform.
Context {P : platform_layer} {L : platform_laws P} (pid : Z).

(** Heartbeats reinstall what was installed. *)
Definition same_rules (port : Z) (ipv6 : bool) (dns_port : Z) (x : Z * action) : Prop :=
  match x.2 with A_HEARTBEAT p v d _ _ => p = port /\ v = ipv6 /\ d = dns_port | _ => True end.

Lemma accept_same_rules r family now port ipv6 dns_port :
  Forall (same_rules port ipv6 dns_port) (map (pair now) (accept_one r family)).
Proof.
  unfold accept_one. destruct (ac_fd r), (ac_alloc r), (ac_thread r); repeat apply Forall_cons_2; done || constructor.
Qed.

Lemma save_and_report_platform alloc rs rw engine now (sv : @server P) :
  sv_platform (save_and_report pid alloc rs rw engine now sv) = sv_platform sv.
Proof.
  unfold save_and_report. cbv zeta. destruct (save_decisions_file _ _ _ _ _) as [[g ?] fs].
  by destruct (write_status _ _ _ _ _ _ _ _ _).
Qed.

Lemma main_turn_platform v6 nl on4 on6 on_netlink tm (sv : @server P) t port ipv6 dns_port :
  installed (sv_platform sv) = (port, ipv6, dns_port) ->
  exists tm' sv' acts, main_turn pid v6 nl on4 on6 on_netlink tm sv t = Ok (tm', sv', acts) /\
    installed (sv_platform sv') = (port, ipv6, dns_port) /\
    Forall (same_rules port ipv6 dns_port) (map (pair (tn_now t)) acts).
Proof.
  intros H. unfold main_turn. cbv zeta. destruct (net_timers _ _ _) as [tm1 ck].
  set (sv1 := if ck then _ else _).
  assert (H1 : installed (sv_platform sv1) = (port, ipv6, dns_port)).
  { unfold sv1. destruct ck; [|exact H]. unfold check_conflicts, check_network_platform. cbn [sv_platform sv_g].
    rewrite <- H. match goal with |- context [op_conflict ?r ?s] => pose proof (law_conflict r s) as Hc end.
    destruct (op_conflict _ _) as [c pl]. cbn [sv_platform snd] in *. rewrite Hc.
    destruct (_ =? _); [done|apply law_quic_flush]. }
  clearbody sv1.
  assert (Hg : exists g, (if tn_reload t then load_strategy_conf (sv_g sv1) (tn_conf t) else Ok (sv_g sv1)) = Ok g).
  { destruct (tn_reload t); [apply load_strategy_conf_ok|by eexists]. }
  destruct Hg as [g ->]. cbn [mbind res_bind]. destruct (beat_timers _ _) as [tm2 bt]. cbn [sv_platform].
  rewrite H1. match goal with |- context [let '(_, _) := ?x in _] => destruct x as [sv2 rc] eqn:Ex end.
  do 3 eexists. split; [reflexivity|]. split.
  - destruct bt; [|by injection Ex as <- _]. unfold heartbeat in Ex. cbn [sv_platform] in Ex.
    pose proof (law_refresh (tn_refresh t) (sv_platform sv1)) as H2.
    destruct (op_refresh _ _). injection Ex as <- _. rewrite save_and_report_platform. cbn [sv_platform fst] in *. congruence.
  - rewrite !map_app.
    repeat apply Forall_app_2; repeat case_match; try apply accept_same_rules; try constructor; done || constructor.
Qed.

Lemma main_loop_platform v6 nl ts tm (sv : @server P) port ipv6 dns_port :
  installed (sv_platform sv) = (port, ipv6, dns_port) ->
  exists over tm' sv' log, main_loop pid v6 nl tm sv ts = Ok (over, tm', sv', log) /\
    Forall (same_rules port ipv6 dns_port) log /\ (over = false <-> Forall goes_on ts).
Proof.
  revert tm sv. induction ts as [|t ts IH]; intros tm sv H; cbn [main_loop].
  { do 4 eexists. split; [reflexivity|]. split; [constructor|]. split; [intros _; constructor|done]. }
  destruct (tn_stop t) eqn:Hst.
  { do 4 eexists. split; [reflexivity|]. split; [constructor|]. split; [done|].
    intros Hg. inversion Hg as [|? ? [H1 _] _]; subst. congruence. }
  destruct (tn_poll t) as [|on4 on6 on_netlink] eqn:Hp.
  { do 4 eexists. split; [reflexivity|]. split; [constructor|]. split; [done|].
    intros Hg. inversion Hg as [|? ? [_ H1] _]; subst. congruence. }
  destruct (main_turn_platform v6 nl on4 on6 on_netlink tm sv t port ipv6 dns_port H)
    as (tm1 & sv1 & acts & -> & H1 & Ha). cbn [mbind res_bind].
  destruct (IH tm1 sv1 H1) as (over & tm2 & sv2 & log & -> & Hl & Ho). cbn [mbind res_bind].
  do 4 eexists. split; [reflexivity|]. split; [by apply Forall_app_2|]. rewrite Ho. split.
  - intros Hg. constructor; [split; [done|]; by rewrite Hp|done].
  - by inversion 1.
Qed.
End platform.

Lemma init_state_ok {P} pid (b : @boot P) opt setup g :
  init_state pid b opt = Some (setup, g) -> exists g', g = Ok g'.
Proof.
  unfold init_state. destruct (init_dns _ _ _ _ _) as [su|]; [|done]. cbn [mbind option_bind].
  injection 1 as <- <-. set (g0 := tpd_init _ _ _ _).
  destruct (load_strategy_conf_ok g0 (read_file (bt_disk b) (o_strategy_conf opt) (bt_conf_alloc b))) as [g1 E].
  rewrite E. cbn [mbind res_bind].
  assert (Hd : g_dec g1 = tp_decisions_init).
  { revert E. unfold load_strategy_conf. destruct (read_file _ _ _) as [text|]; [|by injection 1 as <-].
    destruct (strategy_config_parse _ _) as [[cfg n]| |]; [|done|done]. by injection 1 as <-. }
  unfold load_decisions. destruct (read_file _ (o_decisions_file opt) _) as [text|]; [|by eexists].
  rewrite Hd. pose proof (tp_decisions_parse_ok (bt_grow b) tp_decisions_init text tp_decisions_init_ok) as W.
  destruct (tp_decisions_parse _ _ _) as [[d n]| |]; [|done|done]. by eexists.
Qed.

Lemma loop_world opt port ipv6 dns_port l log :
  world_ok opt (Some (port, ipv6, dns_port), l) -> Forall (same_rules port ipv6 dns_port) log ->
  always_ok opt (Some (port, ipv6, dns_port), l) (map (fun x => E_LOOP x.1 x.2) log) /\
  world_after (Some (port, ipv6, dns_port), l) (map (fun x => E_LOOP x.1 x.2) log) = (Some (port, ipv6, dns_port), l).
Proof.
  intros Hw H. induction H as [|[now a] log Ha _ [IH1 IH2]]; [done|].
  cbn [map always_ok world_after foldl fst snd].
  assert (E : world_step (Some (port, ipv6, dns_port), l) (E_LOOP now a) = (Some (port, ipv6, dns_port), l)).
  { destruct a; try done. destruct Ha as (-> & -> & ->). done. }
  rewrite E. exact (conj (conj Hw IH1) IH2).
Qed.

(** The traces of a start that fails and of one that works, given what the
    listeners left open. *)
Section traces.
Context (opt : tp_options) (ipv6 : bool) (dp : Z) (tr : list event) (l : list socket).
Hypothesis Htr : always_ok opt (None, []) tr.
Hypothesis Hw : world_after (None, []) tr = (None, l).
Hypothesis Hin : world_ok opt (Some (o_port opt, ipv6, dp), l).
Hypothesis Hnr : Forall no_removal tr.

Lemma failed_trace lfd6 tr_i kept :
  tr_i = [] \/ tr_i = [E_INSTALL (o_port opt) ipv6 dp] ->
  let tr' := (tr ++ tr_i) ++ E_REMOVE kept :: E_CLOSE (listener 4 (o_port opt)) :: closed lfd6 (listener 6 (o_port opt)) in
  always_ok opt (None, []) tr' /\ ((world_after (None, []) tr').1 <> None -> kept = true) /\
  forall pre kept' post, tr' = pre ++ E_REMOVE kept' :: post -> Forall socket_event post.
Proof.
  intros Hi. cbv zeta. pose proof Hin as [_ Hsub]. cbn [snd] in Hsub. split; [|split].
  - rewrite <- app_assoc. apply always_ok_app; [done|]. rewrite Hw.
    destruct Hi as [-> | ->]; unfold closed; destruct lfd6, kept; cbn [app always_ok world_step fst snd]; by repeat split.
  - rewrite <- app_assoc, world_after_app, Hw.
    destruct Hi as [-> | ->]; unfold closed; destruct lfd6, kept; cbn [app world_after foldl world_step fst snd]; done.
  - apply removed_once.
    + apply Forall_app_2; [exact Hnr|]. destruct Hi as [-> | ->]; repeat constructor.
    + unfold closed. destruct lfd6; repeat constructor.
Qed.

Lemma running_trace log :
  Forall (same_rules (o_port opt) ipv6 dp) log ->
  let tr' := (tr ++ [E_INSTALL (o_port opt) ipv6 dp]) ++ map (fun x => E_LOOP x.1 x.2) log in
  always_ok opt (None, []) tr' /\ world_after (None, []) tr' = (Some (o_port opt, ipv6, dp), l) /\
  Forall no_removal tr'.
Proof.
  intros Hlog. destruct (loop_world opt (o_port opt) ipv6 dp l log Hin Hlog) as [Hl1 Hl2].
  cbv zeta. rewrite <- app_assoc. split; [|split].
  - apply always_ok_app; [done|]. rewrite Hw. by split.
  - rewrite world_after_app, Hw. exact Hl2.
  - apply Forall_app_2; [exact Hnr|]. apply Forall_cons_2; [done|]. apply Forall_map, Forall_forall. done.
Qed.
End traces.

(** How a server that is not running any more leaves the system. One that never
    got to the interception installed nothing; otherwise the removal was asked
    for, and either it was carried out and nothing of what was installed is
    left, or the packet filter still has the rules. *)
Definition ended {P : platform_layer} (s : @stop_run P) (sv : option (@server P)) (w : world) : Prop :=
  match sv with
  | None => w.1 = None
  | Some sv => exists pl, sv_platform sv = op_remove (st_remove s) pl /\
      (op_removes (st_remove s) pl = true -> w.1 = None) /\
      (w.1 <> None -> intercepts (sv_platform sv) = true)
  end.

Lemma ended_removed {P : platform_layer} {L : platform_laws P} (s : @stop_run P) sv pl w :
  sv_platform sv = op_remove (st_remove s) pl ->
  (w.1 <> None -> intercepts (op_remove (st_remove s) pl) = true) -> ended s (Some sv) w.
Proof.
  intros E H. exists pl. split; [exact E|]. split; [|by rewrite E].
  intros Hr. apply law_remove in Hr. destruct w.1; [|done]. rewrite H in Hr; done.
Qed.

(** C17: the interception lives as long as what it points at. For every
    start (whatever of the options, the files, the listeners, the threads and
    the packet filter fails), every run of the main loop and every stop, the server ends
    without leaving a buffer, and at every moment of its trace at which traffic
    may be redirected, up to a removal that failed, the TCP listener, the IPv6 one if
    IPv6 is redirected, and the forwarder's UDP and TCP sockets if DNS is (for
    both families then), are open; heartbeats reinstall exactly these rules. A
    server that failed to start after trying to intercept, or was stopped, has
    asked the platform layer to remove the interception, before closing its
    listeners, and does nothing to the rules afterwards: if the system carries
    the removal out nothing is redirected, and only if it does not the rules
    stay, to their own time-out. A server that started intercepts until it is
    asked to stop or [poll] fails. *)
Theorem run_transparent_server_correct (P : platform_layer) pid (b : @boot P) opt ts s :
  platform_laws P ->
  exists out sv tr, run_transparent_server pid b opt ts s = Ok (out, sv, tr) /\
    (forall pre post, tr = pre ++ post -> E_REMOVE true ∉ pre -> world_ok opt (world_after (None, []) pre)) /\
    (forall pre kept post, tr = pre ++ E_REMOVE kept :: post -> Forall socket_event post) /\
    match out with
    | STARTUP_FAILED => ended s sv (world_after (None, []) tr)
    | RUNNING => (exists ipv6 dns_port, (world_after (None, []) tr).1 = Some (o_port opt, ipv6, dns_port)) /\
                 Forall goes_on ts
    | STOPPED => sv <> None /\ ended s sv (world_after (None, []) tr) /\ ~ Forall goes_on ts
    end.
Proof.
  intros L.
  assert (Hpre : forall tr, always_ok opt (None, []) tr ->
    forall pre post, tr = pre ++ post -> E_REMOVE true ∉ pre -> world_ok opt (world_after (None, []) pre)).
  { intros tr H pre post ->. by eapply always_ok_prefix. }
  assert (Hnil : forall pre post, [] = pre ++ post -> E_REMOVE true ∉ pre -> world_ok opt (world_after (None, []) pre)).
  { apply Hpre. by repeat split. }
  assert (Hnil' : forall pre kept post, [] = pre ++ E_REMOVE kept :: post -> Forall socket_event post) by (by intros []).
  unfold run_transparent_server. destruct (bt_init b); cbn [negb];
    [|do 3 eexists; split; [reflexivity|]; by repeat split].
  destruct (init_state pid b opt) as [[setup g]|] eqn:Ei; [|do 3 eexists; split; [reflexivity|]; by repeat split].
  apply init_state_ok in Ei as [g' ->]. cbn [mbind res_bind].
  destruct (start_listeners b opt) as [[[[lfd6 ipv6] dns] tr]|] eqn:El;
    [|do 3 eexists; split; [reflexivity|]; by repeat split].
  apply start_listeners_spec in El as [Hev Hopen].
  assert (Hnr : Forall no_removal tr) by (eapply Forall_impl; [exact Hev|]; by intros []).
  destruct (sockets_only opt tr [] Hev) as [Htr _]. pose proof (world_after_sockets [] tr Hev) as Hw.
  set (l := (world_after (None, []) tr).2) in *. clearbody l. cbv zeta.
  set (dp := if dns then o_dns_port opt else 0) in *.
  set (sv0 := check_conflicts (bt_conflict b) _).
  assert (Hf : f_opt (sv_frame sv0) = opt /\ f_ipv6 (sv_frame sv0) = ipv6).
  { unfold sv0, check_conflicts. by destruct (op_conflict _ _). }
  destruct Hf as [Hf1 Hf2]. clearbody sv0. unfold start_interception. rewrite Hf1, Hf2.
  assert (Hin : world_ok opt (Some (o_port opt, ipv6, dp), l)) by done.
  assert (Hfailed : forall sv tr_i, tr_i = [] \/ tr_i = [E_INSTALL (o_port opt) ipv6 dp] ->
    let pl := op_remove (st_remove s) (sv_platform sv) in
    let tr' := (tr ++ tr_i) ++ E_REMOVE (intercepts pl) :: E_CLOSE (listener 4 (o_port opt)) :: closed lfd6 (listener 6 (o_port opt)) in
    (forall pre post, tr' = pre ++ post -> E_REMOVE true ∉ pre -> world_ok opt (world_after (None, []) pre)) /\
    (forall pre kept post, tr' = pre ++ E_REMOVE kept :: post -> Forall socket_event post) /\
    ended s (Some (with_platform sv pl)) (world_after (None, []) tr')).
  { intros sv tr_i Hi. cbv zeta. destruct (failed_trace opt ipv6 dp tr l Htr Hw Hin Hnr lfd6 tr_i
      (intercepts (op_remove (st_remove s) (sv_platform sv))) Hi) as (H1 & H2 & H3).
    split; [by apply Hpre|]. split; [exact H3|]. by eapply ended_removed. }
  destruct (bt_verify b); cbn [negb].
  2: { do 3 eexists. split; [reflexivity|]. apply Hfailed. by left. }
  pose proof (law_install (bt_install b) (sv_platform sv0) (o_port opt) ipv6 dp) as Hs.
  destruct (op_install _ _ _ _ _) as [pl rc]. cbn [fst snd] in Hs.
  destruct (Z.eqb_spec rc 0) as [->|Hrc]; cbn [negb].
  2: { do 3 eexists. split; [reflexivity|]. apply Hfailed. by right. }
  destruct (write_status _ _ _ _ _ _ _ _ _) as [seen fs]. cbn [sv_g sv_frame sv_platform].
  destruct (main_loop_platform pid lfd6 (bt_netlink b) ts (timers_init (bt_now b))
    (mk_server (sv_g sv0) (sv_frame sv0) fs pl) (o_port opt) ipv6 dp (Hs eq_refl))
    as (over & tm & sv1 & log & -> & Hlog & Hover). cbn [mbind res_bind].
  destruct (running_trace opt ipv6 dp tr l Htr Hw Hin Hnr log Hlog) as (H1 & E1 & N1).
  set (tr1 := (tr ++ _) ++ map _ log) in *. clearbody tr1.
  destruct over; cbn [negb]; do 3 eexists; (split; [reflexivity|]).
  - split; [|split; [by apply removed_once|split; [done|split]]].
    + apply Hpre, always_ok_app; [done|]. rewrite E1. apply always_ok_cons; [done|]. intros _. split; [|done].
      cbn [world_step]. by destruct (intercepts _).
    + eapply ended_removed; [rewrite save_and_report_platform; reflexivity|].
      rewrite world_after_app, E1. cbn [world_after foldl world_step fst]. by destruct (intercepts _).
    + intros Hg. by apply Hover in Hg.
  - split; [by apply Hpre|]. split; [by apply never_removed|]. rewrite E1. split; [by eexists _, _|by apply Hover].
Qed.

(** A machine on which everything works: the server starts, accepts, beats and
    stops; and the same one with an nft that does not run at the stop. The
    tables are whether the program's is there. *)
Definition ok_nft (_ : nat) : nft_run := mk_nft_run true true [TX_SENT 8192] true.
Definition no_nft (_ : nat) : nft_run := mk_nft_run true false [] true.
Definition ok_write : write_run := mk_wr true [] 0 true 0 true true.
Definition ok_listen : listen_run := mk_listen true true true.
Definition ok_family : family_run := mk_family ok_listen ok_listen true true.
Definition any_nft (script : list Z) (t : bool) : bool * option Z :=
  (negb (bool_decide (script = tpp_remove_text)), Some 0).
Definition sample_layer : platform_layer := linux_layer any_nft (fun t => t).
Definition sample_laws : platform_laws sample_layer.
Proof. apply linux_laws. intros t _. unfold any_nft. cbn [fst]. by rewrite bool_decide_true. Qed.
Definition sample_boot (verify : bool) : @boot sample_layer :=
  @mk_boot sample_layer ∅ ∅ (mk_platform 0 false 0 false) 1700000000 5000 true true true true true (fun _ => true) 77
    ok_listen ok_listen ok_family (mk_family ok_listen ok_listen true false) verify true ok_nft ok_nft ok_write.
Definition sample_turn (stop : bool) (now : Z) (event : bool) : turn sample_layer :=
  @mk_turn sample_layer stop (POLL_DONE true false event) now 1700000010 true (mk_accept true true true)
    (mk_accept true true true) (fun g => g) 77 None ok_nft ok_nft ok_nft (now + 40) true ok_write ok_write.
Definition sample_stop (nft : nat -> nft_run) : @stop_run sample_layer :=
  @mk_stop sample_layer 1700000030 nft true ok_write ok_write.
Definition sample_run (verify : bool) (nft : nat -> nft_run) : res unit (outcome * option (@server sample_layer) * list event) :=
  run_transparent_server 99 (sample_boot verify) (tp_options_default ∅)
    [sample_turn false 10000 true; sample_turn false 15500 false; sample_turn true 16000 false] (sample_stop nft).

Definition still (sv : option (@server sample_layer)) : bool :=
  match sv with Some v => intercepts (sv_platform v) | None => true end.

Lemma sample_lives :
  let l4 := listener 4 1091 in
  let u4 := mk_socket 4 SOCK_DGRAM 1053 in
  let t4 := listener 4 1053 in
  let u6 := mk_socket 6 SOCK_DGRAM 1053 in
  let t6 := listener 6 1053 in
  (sample_run true ok_nft ≫= fun x => Ok (x.1.1, x.2))
  = Ok (STOPPED,
      [E_OPEN l4; E_OPEN (listener 6 1091); E_OPEN u4; E_OPEN t4; E_SERVE u4; E_SERVE t4;
       E_OPEN u6; E_OPEN t6; E_SERVE u6; E_CLOSE t6; E_INSTALL 1091 false 1053;
       E_LOOP 10000 (A_CONN 4); E_LOOP 10000 A_NETEVENT; E_LOOP 10000 A_RELOAD;
       E_LOOP 15500 (A_CONN 4); E_LOOP 15500 A_CHECK; E_LOOP 15500 A_RELOAD;
       E_LOOP 15500 (A_HEARTBEAT 1091 false 1053 0 15540); E_REMOVE false]) /\
  (sample_run true no_nft ≫= fun x => Ok (x.1.1, last x.2)) = Ok (STOPPED, Some (E_REMOVE true)) /\
  (sample_run false ok_nft ≫= fun x => Ok (x.1.1, zlen x.2)) = Ok (STARTUP_FAILED, 13).
Proof. vm_compute. done. Qed.

Lemma run_transparent_server_correct_witness :
  exists sv tr, sample_run true ok_nft = Ok (STOPPED, Some sv, tr) /\ zlen tr = 19 /\
    (forall pre post, tr = pre ++ post -> E_REMOVE true ∉ pre -> world_ok (tp_options_default ∅) (world_after (None, []) pre)) /\
    intercepts (sv_platform sv) = false /\ (world_after (None, []) tr).1 = None.
Proof.
  destruct (run_transparent_server_correct sample_layer 99 (sample_boot true) (tp_options_default ∅)
    [sample_turn false 10000 true; sample_turn false 15500 false; sample_turn true 16000 false] (sample_stop ok_nft)
    sample_laws) as (out & sv & tr & E & Hok & _ & Hend).
  fold (sample_run true ok_nft) in E.
  assert (Hv : (sample_run true ok_nft ≫= fun x => Ok (x.1.1, zlen x.2, still x.1.2)) = Ok (STOPPED, 19, false))
    by (vm_compute; reflexivity).
  rewrite E in Hv. cbn [mbind res_bind fst snd still] in Hv. destruct sv as [sv|]; [|done].
  injection Hv as -> Hl Hi. destruct Hend as (_ & (pl & _ & _ & Hend) & _).
  exists sv, tr. split; [exact E|]. split; [exact Hl|]. split; [exact Hok|].
  change (intercepts (sv_platform sv) = false) in Hi. split; [exact Hi|].
  rewrite Hi in Hend. destruct (world_after (None, []) tr).1; [|done]. discriminate Hend. discriminate.
Defined.

Notation sample_loop :=
  (main_loop 99 true true (timers_init 5000)
     (@mk_server sample_layer (tpd_init strategy_config_init tp_decisions_init (dns_resolver_init 1 0) 77)
        (mk_frame (tp_options_default ∅) 0 true true true None) ∅ (mk_platform 1091 true 1053 true))
     [sample_turn false 10000 true; sample_turn false 15500 false]).

Lemma main_loop_timely_witness :
  exists tm sv' log, sample_loop = Ok (false, tm, sv', log) /\
    times is_beat log = [15500] /\ times is_check log = [15500] /\ refreshes log = [(15540, 0)] /\
    exists r, r ∈ (4990, 0) :: refreshes log /\ r.1 <= 21000 < r.1 + TP_ALIVE_TIMEOUT_S * 1000.
Proof.
  edestruct (main_loop_timely sample_layer 99 true true) with (t0 := 5000) (d := 5500)
    (ts := [sample_turn false 10000 true; sample_turn false 15500 false])
    as (tm & sv' & log & E & H); [lia| | |exists tm, sv', log; split; [exact E|]].
  - split; [vm_compute; intuition discriminate|]. repeat apply Forall_cons_2; [cbn; lia|cbn; lia|constructor].
  - by repeat apply Forall_cons_2; [split|split|constructor].
  - assert (Hv : (sample_loop ≫= fun x => Ok (times is_beat x.2, times is_check x.2, refreshes x.2)) = Ok ([15500], [15500], [(15540, 0)]))
      by (vm_compute; reflexivity).
    rewrite E in Hv. cbn [mbind res_bind snd] in Hv. injection Hv as Hb Hc Hf.
    split; [exact Hb|]. split; [exact Hc|]. split; [exact Hf|]. destruct H as (_ & _ & _ & _ & _ & _ & _ & H).
    apply H; [lia|lia|]. split; [lia|]. vm_compute. discriminate.
Defined.

(** ** The status file is always written *)

Lemma print_dec_length n : zlen (print_dec n) <= 21.
Proof.
  unfold print_dec, zlen. destruct (n <? 0); cbn [length].
  - pose proof (dec_digits_length 20 (- n)). lia.
  - pose proof (dec_digits_length 20 n). lia.
Qed.

Lemma status_line_length name value : zlen (status_line name value) = zlen name + zlen value + 3.
Proof. unfold status_line. rewrite zlen_app, !zlen_cons, zlen_app. change (zlen [10]) with 1. lia. Qed.

(** Whatever the counters are, the text fits the 3072 bytes of [write_status]
    as long as the engine's name, the learned host and the conflict are as long
    as they can be ([last_learned] is 320 bytes, the platform layer's laws bound the rest). *)
Theorem status_fits engine pid now name extra f g :
  zlen engine <= 16 -> zlen name <= 16 -> zlen (g_last_learned g) < STRATEGY_DOMAIN_MAX + 64 -> zlen extra < 512 ->
  zlen (default (str "none") (f_conflict f)) <= 128 ->
  0 < zlen (status_text engine pid now name extra f g) < 3072.
Proof.
  intros He Hnm Hl Hx Hc. unfold status_text. cbv zeta. rewrite !zlen_app, !status_line_length.
  assert (Hl' : 0 <= zlen (match g_last_learned g with [] => str "-" | l => l end) < 321).
  { split; [apply zlen_nonneg|]. unfold STRATEGY_DOMAIN_MAX in Hl. destruct (g_last_learned g); [done|lia]. }
  assert (Hd : forall n, 0 <= zlen (print_dec n) <= 21).
  { intros n. split; [apply zlen_nonneg|apply print_dec_length]. }
  assert (Hs : forall b : bool, 0 <= zlen (if b then str "healthy" else str "degraded") <= 8) by (by intros []).
  assert (Hi : forall a b : bool, 0 <= zlen (if a then (if b then str "doh" else str "plain") else str "off") <= 5)
    by (by intros [] []).
  specialize (Hs (dns_resolver_healthy (g_dns g) now)).
  specialize (Hi (f_dns_intercept f) (f_doh f)).
  assert (Hh : zlen (hex_digits 16 (g_fp g)) = 16) by reflexivity.
  rewrite Hh.
  repeat match goal with |- context [zlen (str ?x)] =>
    let v := eval vm_compute in (zlen (str x)) in change (zlen (str x)) with v end.
  pose proof (Hd pid). pose proof (Hd (f_started_at f)). pose proof (Hd now).
  pose proof (Hd (o_port (f_opt f))). pose proof (Hd (zlen (entries (g_dec g)))).
  pose proof (fun k => Hd (g_stats g k)) as Hk.
  pose proof (Hk S_flows_total). pose proof (Hk S_flows_active). pose proof (Hk S_passthrough).
  pose proof (Hk S_direct). pose proof (Hk S_bypassed). pose proof (Hk S_failed).
  pose proof (Hk S_verified_ok). pose proof (Hk S_verified_bad). pose proof (Hk S_dns_queries).
  pose proof (Hk S_dns_failures).
  pose proof (zlen_nonneg engine). pose proof (zlen_nonneg name). pose proof (zlen_nonneg extra).
  pose proof (zlen_nonneg (default (str "none") (f_conflict f))).
  lia.
Qed.

(** ** The order of the resolvers *)

(** Whatever lists are configured, there is at least one server, the resolver
    asks at most twelve, and its [i]-th server is the [i]-th DNS-over-HTTPS
    server, after the last of them a plain one. *)
Theorem init_dns_order e opt tls alloc seed s doh ask i query :
  init_dns e opt tls alloc seed = Some s ->
  (0 < length (health (su_resolver s)) <= DNS_MAX_SERVERS)%nat /\
  setup_transport s doh ask i query =
    match default [] (su_doh s) !! i with
    | Some t => doh t query
    | None => match su_udp s !! (i - length (default [] (su_doh s)))%nat with
              | Some a => ask a query
              | None => TR_ERROR
              end
    end.
Proof.
  unfold init_dns. cbv zeta. set (udp := dns_udp_servers_parse _). clearbody udp.
  set (dh := if o_doh opt then _ else _).
  assert (Hdh : dh <> Some []).
  { unfold dh, dns_doh_new. destruct (o_doh opt); [|done]. destruct (dns_doh_servers _); [done|]. by destruct tls. }
  clearbody dh. destruct dh as [srv|].
  - destruct alloc; [|done]. injection 1 as <-. cbn [su_resolver su_doh su_udp].
    unfold setup_transport, dns_doh_transport, dns_doh_total, dns_resolver_init.
    cbn [su_doh su_udp health]. rewrite length_replicate. split.
    + destruct srv; [done|]. unfold DNS_MAX_SERVERS. cbn [length]. lia.
    + change (default [] (Some srv)) with srv. destruct (srv !! i); [done|]. destruct udp; [by rewrite lookup_nil|done].
  - destruct udp as [|a udp]; [done|]. destruct alloc; [|done]. injection 1 as <-.
    unfold setup_transport, dns_resolver_init. cbn [su_resolver su_doh su_udp health from_option].
    rewrite length_replicate. split; [unfold DNS_MAX_SERVERS; cbn [length]; lia|].
    unfold dns_udp_transport. cbn [length]. by rewrite lookup_nil, Nat.sub_0_r.
Qed.

(** The default: four DNS-over-HTTPS servers, Quad9 not among them, then five
    plain ones. *)
Lemma default_servers :
  (s ← init_dns ∅ (tp_options_default ∅) true true 0;
   Some (map (fun t => (addr_bytes (t_addr t), t_host t)) (default [] (su_doh s)),
         map addr_bytes (su_udp s), length (health (su_resolver s))))
  = Some ([([1; 1; 1; 1], str "cloudflare-dns.com"); ([1; 0; 0; 1], str "cloudflare-dns.com");
           ([8; 8; 8; 8], str "dns.google"); ([8; 8; 4; 4], str "dns.google")],
          [[1; 1; 1; 1]; [1; 0; 0; 1]; [8; 8; 8; 8]; [8; 8; 4; 4]; [9; 9; 9; 9]], 9%nat).
Proof. vm_compute. reflexivity. Qed.
