(* ===== verification/Main.v ===== *)
(** * The command line of dpi-proxy ([src/main.c])

    Parsing the arguments and choosing between the SOCKS5 proxy and the
    transparent daemon, as the Linux build with transparent mode does. The usage
    and capability texts are in [Usage]. *)

From stdpp Require Import base list numbers strings option gmap relations.
From Stdlib Require Import ZArith Lia.
From S2P Require Import Prelude Text Rules Server.

Definition DPI_PROXY_PORT : Z := 1080.

(** [strrchr(arg, ':')]: what is before the last colon and after it. *)
Fixpoint cut_colon (arg : list Z) : option (list Z * list Z) :=
  match arg with
  | [] => None
  | c :: arg' =>
      match cut_colon arg' with
      | Some (a, b) => Some (c :: a, b)
      | None => if c =? 58 then Some ([], arg') else None
      end
  end.

(** The host and the port; [room] is the size of [host_out]. *)
Definition parse_listen (arg : list Z) (room : Z) : option (list Z * Z) :=
  match cut_colon arg with
  | None => None
  | Some (host, rest) =>
      if zlen host =? 0 then None else
      if room <=? zlen host then None else
      let port := atoi rest in
      if (port <=? 0) || (65535 <? port) then None else Some (host, port)
  end.

Record args := mk_args {
  m_host : option (list Z);
  m_port : Z;
  m_transparent : bool;
  m_tp_port : Z;
  m_debug : bool;
  m_service : bool;
  m_verbose : bool
}.
Definition args_init : args := mk_args None DPI_PROXY_PORT false 0 false false true.

(** What ends the program before anything runs. *)
Inductive early :=
| HELP | VERSION | CAPABILITIES
| BAD_LISTEN (arg : list Z) | BAD_MODE (arg : list Z) | BAD_PORT (arg : list Z)
| BAD_LOG_LEVEL (arg : list Z) | UNKNOWN_OPTION (arg : list Z).

Definition early_status (e : early) : Z :=
  match e with HELP | VERSION | CAPABILITIES => 0 | _ => 1 end.

Definition is_opt (a : list Z) (name : string) : bool := bool_decide (a = str name).

Fixpoint parse_args (argv : list (list Z)) (m : args) : early + args :=
  match argv with
  | [] => inr m
  | a :: argv =>
      if is_opt a "--help" || is_opt a "-h" then inl HELP else
      if is_opt a "--version" then inl VERSION else
      if is_opt a "--capabilities" then inl CAPABILITIES else
      if is_opt a "--debug" then
        parse_args argv (mk_args (m_host m) (m_port m) (m_transparent m) (m_tp_port m) true (m_service m) (m_verbose m))
      else if is_opt a "--service" then
        parse_args argv (mk_args (m_host m) (m_port m) (m_transparent m) (m_tp_port m) (m_debug m) true (m_verbose m))
      else
      match argv with
      | [] => inl (UNKNOWN_OPTION a)
      | v :: argv' =>
          if is_opt a "--listen" then
            match parse_listen v 256 with
            | None => inl (BAD_LISTEN v)
            | Some (host, port) =>
                parse_args argv' (mk_args (Some host) port (m_transparent m) (m_tp_port m) (m_debug m) (m_service m) (m_verbose m))
            end
          else if is_opt a "--mode" then
            if is_opt v "transparent" then
              parse_args argv' (mk_args (m_host m) (m_port m) true (m_tp_port m) (m_debug m) (m_service m) (m_verbose m))
            else if is_opt v "proxy" then parse_args argv' m else inl (BAD_MODE v)
          else if is_opt a "--port" then
            let p := atoi v in
            if (p <=? 0) || (65535 <? p) then inl (BAD_PORT v) else
            parse_args argv' (mk_args (m_host m) (m_port m) (m_transparent m) p (m_debug m) (m_service m) (m_verbose m))
          else if is_opt a "--log-level" then
            if is_opt v "error" then
              parse_args argv' (mk_args (m_host m) (m_port m) (m_transparent m) (m_tp_port m) (m_debug m) (m_service m) false)
            else if is_opt v "info" then parse_args argv' m else inl (BAD_LOG_LEVEL v)
          else inl (UNKNOWN_OPTION a)
      end
  end.

(** What [main] starts; the two servers' results are not looked into here. *)
Inductive started :=
| EXITS (e : early)
| INIT_FAILED
| RUNS_TRANSPARENT (opt : tp_options)
| RUNS_SOCKS (host : option (list Z)) (port : Z) (verbose : bool).

Definition override (opt : tp_options) (m : args) : tp_options :=
  mk_opt (if negb (m_tp_port m =? 0) then m_tp_port m else o_port opt) (m_debug m || o_debug opt)
    (o_strategy_conf opt) (o_decisions_file opt) (o_status_file opt) (o_log_file opt) (o_dns_servers opt)
    (o_dns_port opt) (o_doh opt).

Definition main (e : environ) (platform_init : bool) (argv : list (list Z)) : started :=
  match parse_args argv args_init with
  | inl x => EXITS x
  | inr m =>
      if negb platform_init then INIT_FAILED else
      if m_transparent m || m_service m then RUNS_TRANSPARENT (override (tp_options_default e) m)
      else RUNS_SOCKS (m_host m) (m_port m) (m_verbose m)
  end.

(** The exit status; [rc] is the server's result. *)
Definition exit_status (s : started) (rc : Z) : Z :=
  match s with
  | EXITS x => early_status x
  | INIT_FAILED => 1
  | RUNS_TRANSPARENT _ | RUNS_SOCKS _ _ _ => if rc <? 0 then 1 else 0
  end.

(** ** Ports *)

Definition is_port (p : Z) : Prop := 1 <= p <= 65535.

Lemma atoi_digits l v c l' :
  l = c :: l' -> isdigit c = true -> read_digits 0 l = (v, []) -> 0 <= v < 2 ^ 31 -> atoi l = v.
Proof.
  intros -> Hc Hr Hv. unfold atoi, strtol10. destruct (digit_word c Hc) as [Hs _].
  cbn [skip_space]. rewrite Hs. unfold isdigit in Hc.
  assert (H45 : (c =? 45) = false) by lia. assert (H43 : (c =? 43) = false) by lia.
  rewrite H45, H43. fold (isdigit c) in Hc. rewrite Hc, Hr. cbn [fst].
  unfold i32, LONG_MIN, LONG_MAX. rewrite Z.min_r, Z.max_r by lia.
  rewrite Z.mod_small by lia. lia.
Qed.

Lemma atoi_print p : is_port p -> atoi (print_dec p) = p.
Proof.
  intros Hp. unfold is_port in Hp. unfold print_dec. rewrite (proj2 (Z.ltb_ge _ _)) by lia.
  destruct (dec_digits_spec 20 p) as (H1 & H2 & H3 & _).
  { change (10 ^ Z.of_nat 20) with 100000000000000000000. lia. }
  destruct H2 as (c & l' & E); [done|]. apply (atoi_digits _ _ c l'); [done| |done|lia].
  rewrite E in H1. by inversion H1.
Qed.

Lemma cut_colon_none l : Forall (fun c => c <> 58) l -> cut_colon l = None.
Proof.
  induction 1 as [|c l Hc _ IH]; [done|]. cbn [cut_colon]. rewrite IH.
  by rewrite (proj2 (Z.eqb_neq _ _)).
Qed.

Lemma cut_colon_app host rest :
  Forall (fun c => c <> 58) rest -> cut_colon (host ++ 58 :: rest) = Some (host, rest).
Proof.
  intros Hr. induction host as [|c host IH]; cbn [app cut_colon].
  - by rewrite cut_colon_none.
  - by rewrite IH.
Qed.

Lemma print_port_digits p : is_port p -> Forall (fun c => c <> 58) (print_dec p).
Proof.
  intros Hp. unfold is_port in Hp. unfold print_dec. rewrite (proj2 (Z.ltb_ge _ _)) by lia.
  destruct (dec_digits_spec 20 p) as (H1 & _).
  { change (10 ^ Z.of_nat 20) with 100000000000000000000. lia. }
  eapply Forall_impl; [exact H1|]. intros c Hc. unfold isdigit in Hc. cbv beta. lia.
Qed.

(** [HOST:PORT] is read back, IPv6 literals with their colons included. *)
Theorem parse_listen_printed host p :
  0 < zlen host < 256 -> is_port p -> parse_listen (host ++ 58 :: print_dec p) 256 = Some (host, p).
Proof.
  intros Hh Hp. unfold parse_listen. rewrite cut_colon_app by (by apply print_port_digits).
  rewrite (proj2 (Z.eqb_neq (zlen host) 0)), (proj2 (Z.leb_gt 256 (zlen host))) by lia. cbv zeta. rewrite atoi_print by done.
  unfold is_port in Hp. by rewrite (proj2 (Z.leb_gt p 0)), (proj2 (Z.ltb_ge 65535 p)) by lia.
Qed.

Lemma port_or_range v p : is_port p -> is_port (port_or v p).
Proof.
  intros Hp. unfold port_or, is_port in *. destruct v as [v|]; [|done].
  destruct ((0 <? atoi v) && (atoi v <? 65536)) eqn:E; [|done]. lia.
Qed.

(** The defaults are usable whatever the environment says. *)
Lemma default_ports e : is_port (o_port (tp_options_default e)) /\ 0 <= o_dns_port (tp_options_default e) <= 65535.
Proof.
  cbn [tp_options_default tp_options_default_on o_port o_dns_port]. split; [by apply port_or_range|].
  destruct (switched_off _); [lia|].
  pose proof (port_or_range (e !! str "DPI_PROXY_TP_DNS") TP_DEFAULT_DNS_PORT) as H. unfold is_port in H.
  assert (Hd : 1 <= TP_DEFAULT_DNS_PORT <= 65535) by (unfold TP_DEFAULT_DNS_PORT; lia). specialize (H Hd). lia.
Qed.

(** Arguments the loop has accepted. *)
Record args_ok (m : args) : Prop := {
  ao_port : is_port (m_port m);
  ao_host : forall h, m_host m = Some h -> 0 < zlen h < 256;
  ao_tp_port : m_tp_port m = 0 \/ is_port (m_tp_port m)
}.

Lemma parse_listen_ok arg host p :
  parse_listen arg 256 = Some (host, p) -> 0 < zlen host < 256 /\ is_port p.
Proof.
  unfold parse_listen. destruct (cut_colon arg) as [[h r]|]; [|done]. cbv zeta.
  destruct (Z.eqb_spec (zlen h) 0); [done|]. destruct (Z.leb_spec 256 (zlen h)); [done|].
  destruct ((atoi r <=? 0) || (65535 <? atoi r)) eqn:E; [done|]. injection 1 as <- <-.
  pose proof (zlen_nonneg h). unfold is_port. lia.
Qed.

Lemma parse_args_ok argv m m' : args_ok m -> parse_args argv m = inr m' -> args_ok m'.
Proof.
  revert m. induction argv as [argv IH] using (induction_ltof1 _ (@length (list Z))). unfold ltof in IH.
  intros m Hm. destruct argv as [|a argv]; cbn [parse_args]; [by injection 1 as <-|].
  destruct (is_opt a "--help" || is_opt a "-h"); [done|].
  destruct (is_opt a "--version"); [done|]. destruct (is_opt a "--capabilities"); [done|].
  destruct (is_opt a "--debug"); [apply IH; [cbn; lia|by destruct Hm]|].
  destruct (is_opt a "--service"); [apply IH; [cbn; lia|by destruct Hm]|].
  destruct argv as [|v argv]; [done|].
  assert (IH' : forall m1, args_ok m1 -> parse_args argv m1 = inr m' -> args_ok m').
  { intros m1. apply IH. cbn [length]. lia. }
  destruct (is_opt a "--listen").
  { destruct (parse_listen v 256) as [[h p]|] eqn:E; [|done]. apply parse_listen_ok in E as [Hh Hp].
    apply IH'. destruct Hm. split; cbn; try done. by injection 1 as <-. }
  destruct (is_opt a "--mode").
  { destruct (is_opt v "transparent"); [apply IH'; by destruct Hm|]. destruct (is_opt v "proxy"); [by apply IH'|done]. }
  destruct (is_opt a "--port").
  { cbv zeta. destruct ((atoi v <=? 0) || (65535 <? atoi v)) eqn:E; [done|]. apply IH'. destruct Hm.
    split; cbn; try done. right. unfold is_port. lia. }
  destruct (is_opt a "--log-level"); [|done].
  destruct (is_opt v "error"); [apply IH'; by destruct Hm|]. destruct (is_opt v "info"); [by apply IH'|done].
Qed.

(** Whatever the command line and the environment are, what is started has
    usable ports, and the ruleset of the transparent daemon is complete in the
    buffer [tpp_install] gives it. *)
Theorem main_ports e init argv :
  match main e init argv with
  | RUNS_SOCKS host p _ => is_port p /\ (forall h, host = Some h -> 0 < zlen h < 256)
  | RUNS_TRANSPARENT opt =>
      is_port (o_port opt) /\ 0 <= o_dns_port opt <= 65535 /\
      forall ipv6, tp_nft_ruleset 3072 (o_port opt) ipv6 (o_dns_port opt)
                   = nft_ruleset_text (o_port opt) ipv6 (o_dns_port opt)
  | EXITS _ | INIT_FAILED => True
  end.
Proof.
  unfold main. destruct (parse_args argv args_init) as [x|m] eqn:E; [done|].
  assert (Hm : args_ok m).
  { eapply parse_args_ok; [|exact E]. split; cbn; [unfold is_port, DPI_PROXY_PORT; lia|done|by left]. }
  destruct Hm as [Hp Hh Ht]. destruct init; [|done]. cbn [negb].
  destruct (m_transparent m || m_service m); [|done].
  destruct (default_ports e) as [H1 H2].
  assert (Hport : is_port (o_port (override (tp_options_default e) m))).
  { unfold override. cbn [o_port]. destruct (Z.eqb_spec (m_tp_port m) 0); [done|]. by destruct Ht. }
  split; [exact Hport|]. split; [exact H2|]. intros ipv6.
  unfold is_port in Hport.
  change (o_dns_port (override (tp_options_default e) m)) with (o_dns_port (tp_options_default e)).
  revert Hport H2. generalize (o_port (override (tp_options_default e) m)) (o_dns_port (tp_options_default e)).
  intros p dp Hport H2.
  pose proof (nft_ruleset_fits p ipv6 dp) as Hf. unfold is_int in Hf. specialize (Hf ltac:(lia) ltac:(lia)).
  pose proof (nft_dns_rules_fit dp) as Hd. unfold is_int in Hd. specialize (Hd ltac:(lia)).
  unfold tp_nft_ruleset, fits. by rewrite !(proj2 (Z.leb_gt _ _)).
Qed.

(** The environment, then the command line. *)
Lemma main_examples :
  main {[ str "DPI_PROXY_TP_PORT" := str "2000" ]} true
    [str "--mode"; str "transparent"; str "--port"; str "3000"; str "--debug"]
  = RUNS_TRANSPARENT (mk_opt 3000 true (str "/etc/dpi-proxy/strategy.conf")
      (str "/var/lib/dpi-proxy/tp-decisions.conf") (str "/run/dpi-proxy/transparent.status") None
      DNS_DEFAULT_SERVERS 1053 true) /\
  main ∅ true [str "--listen"; str "::1:1081"; str "--log-level"; str "error"]
  = RUNS_SOCKS (Some (str "::1")) 1081 false /\
  main ∅ true [str "--listen"] = EXITS (UNKNOWN_OPTION (str "--listen")) /\
  exit_status (main ∅ true [str "--port"; str "65536"]) 0 = 1.
Proof. vm_compute. done. Qed.
