(* ===== verification/Usage.v ===== *)
(** * What the programs print about themselves ([src/main.c], [src/main_packet.c])

    The usage messages, the capability reports and the log level of packet mode.
    The usage message is a promise about the parser: the theorem says that the
    options it describes are exactly those that are accepted. *)

From stdpp Require Import base list numbers strings option gmap.
From Stdlib Require Import ZArith Lia.
From S2P Require Import Prelude Text Policy Queue Service Cli Main.

(** A text of lines. *)
Definition lines (ls : list (list Z)) : list Z := concat (map (fun l => l ++ [10]) ls).

(** The options a usage message describes: the first word of every line that
    is indented by two blanks. *)
Fixpoint first_word (s : list Z) : list Z :=
  match s with c :: s' => if c =? 32 then [] else c :: first_word s' | [] => [] end.
Definition described (ls : list (list Z)) : list (list Z) :=
  omap (fun l => if bool_decide (bsub l 0 4 = str "  --") then Some (first_word (bfrom l 2)) else None) ls.

(** ** dpi-proxy *)

Definition proxy_usage_head (argv0 : list Z) : list (list Z) :=
  [str "Usage: " ++ argv0 ++ str " [options]";
   [];
   str "A general-purpose local SOCKS5 proxy. With no options, listens";
   str "on 127.0.0.1:" ++ print_dec DPI_PROXY_PORT ++ str ".";
   [];
   str "Options:"].

Definition proxy_usage_options : list (list Z) :=
  [str "  --listen HOST:PORT   bind address (default 127.0.0.1:" ++ print_dec DPI_PROXY_PORT ++ str ")";
   str "  --mode proxy         SOCKS5 proxy (default)";
   str "  --mode transparent   Linux / macOS (root), Windows";
   str "                       (administrator): intercept outgoing";
   str "                       HTTPS and DNS system-wide (nftables /";
   str "                       PF / WinDivert) and bypass DPI";
   str "                       automatically (normally run by the";
   str "                       installed service)";
   str "                       — see docs/transparent-mode.md";
   str "  --service            Windows: run as the " ++ [34] ++ str "dpi-proxy" ++ [34] ++ str " service";
   str "  --port PORT          transparent listener port (default " ++ print_dec 1091 ++ str ")";
   str "  --debug              transparent mode: log every connection";
   str "  --log-level LEVEL    error|info (default: info) — " ++ [34] ++ str "error" ++ [34];
   str "                       suppresses the per-connection " ++ [34] ++ str "request:";
   str "                       host:port" ++ [34] ++ str " line";
   str "  --capabilities       print a platform/capability report and exit";
   str "  --version            print the version and exit";
   str "  --help               print this message and exit"].

Definition proxy_usage_tail (argv0 : list Z) : list (list Z) :=
  [[];
   str "Example:";
   str "  " ++ argv0 ++ str " --listen 127.0.0.1:1081"].

Definition proxy_print_usage (argv0 : list Z) : list Z :=
  lines (proxy_usage_head argv0 ++ proxy_usage_options ++ proxy_usage_tail argv0).

(** The report of [--capabilities] in the Linux build with transparent mode. *)
Definition yes_no (b : bool) : list Z := if b then str "yes" else str "no".

Definition proxy_print_capabilities (raw_socket : bool) : list Z :=
  lines
    [str "platform: linux";
     str "proxy_mode: supported";
     str "transparent_mode: supported (--mode transparent)";
     str "packet_mode: not built into this binary (see dpi-proxy-packet, Linux only)";
     str "ipv4: yes";
     str "ipv6: yes (SOCKS5 ATYP 0x04)";
     str "tls_split: yes (DPI_PROXY_SPLIT_TLS=1 or =record in proxy mode; automatic in transparent mode)";
     str "raw_socket: " ++ yes_no raw_socket ++ str " (irrelevant to this binary; shown for reference)"].

(** ** dpi-proxy-packet *)

Definition packet_usage_head (argv0 : list Z) : list (list Z) :=
  [str "Usage: " ++ argv0 ++ str " [options]";
   [];
   str "Linux transparent packet-mode DPI engine (nftables + NFQUEUE).";
   str "Requires CAP_NET_ADMIN/CAP_NET_RAW (or root) to actually run —";
   str "see --capabilities to check what this process currently has.";
   [];
   str "Options:"].

Definition packet_usage_options : list (list Z) :=
  [str "  --mode packet        this binary only ever runs packet mode;";
   str "                       for the portable proxy see dpi-proxy";
   str "  --config PATH        strategy config file (default: ./strategy.conf,";
   str "                       same as DPI_PROXY_STRATEGY_CONF; missing file";
   str "                       just means everything defaults to PASS)";
   str "  --discovery-cache PATH   discovery cache file (default: ./discovery-cache.conf,";
   str "                       same as DPI_PROXY_DISCOVERY_CACHE)";
   str "  --log-level LEVEL    error|warn|info|debug (default: warn)";
   str "  --probe DOMAIN       auto-discover a working strategy for DOMAIN";
   str "                       (skips if a fresh cached result exists for this";
   str "                       network); needs the same CAP_NET_ADMIN/CAP_NET_RAW";
   str "                       as running the engine";
   str "  --reprobe DOMAIN     like --probe, but always runs a new probe";
   str "  --show-strategy DOMAIN   print which strategy would apply to DOMAIN";
   str "                       right now and why (manual/cached/default) —";
   str "                       read-only, no privilege needed";
   str "  --status             print current network profile, manual overrides,";
   str "                       and fresh auto-discovered strategies — read-only";
   str "  --export-profile PATH    save the discovery cache to PATH";
   str "  --import-profile PATH    merge PATH into the discovery cache";
   str "  --json               make --show-strategy/--status print JSON";
   str "                       instead of human text (for scripting)";
   str "  --capabilities       print a platform/capability report and exit";
   str "  --version            print the version and exit";
   str "  --help               print this message and exit"].

Definition packet_usage_tail (argv0 : list Z) : list (list Z) :=
  [[];
   str "Example:";
   str "  sudo setcap cap_net_admin,cap_net_raw+eip " ++ argv0;
   str "  " ++ argv0 ++ str " --config strategy.conf --log-level info"].

Definition packet_print_usage (argv0 : list Z) : list Z :=
  lines (packet_usage_head argv0 ++ packet_usage_options ++ packet_usage_tail argv0).

(** [built]: linked with libnetfilter_queue. *)
Definition packet_capabilities (built net_admin net_raw raw_socket has_nft : bool) : list (list Z) :=
  [str "platform: linux";
   str "proxy_mode: not built into this binary (see dpi-proxy)";
   str "packet_mode: " ++ (if built then str "built (libnetfilter_queue linked)"
                          else str "NOT built — rebuild with `make packet-mode`");
   str "cap_net_admin: " ++ yes_no net_admin;
   str "cap_net_raw: " ++ yes_no net_raw;
   str "raw_socket: " ++ yes_no raw_socket;
   str "nft_binary_found: " ++ yes_no has_nft;
   str "ipv4: yes (PASS, SPLIT, DISORDER, FAKE, FRAGMENT, and the fake+split/split+fake chains)";
   str "ipv6: yes (PASS/classification only — no wire-modifying strategy is wired to IPv6 yet)";
   str "tls_strategies: " ++ (if built then str "yes (IPv4, single-packet ClientHello only — see docs/packet-mode.md)"
                             else str "no (not built)")]
  ++ (if built && (negb net_admin || negb net_raw) then
        [[]; str "Note: missing capabilities above will make startup fail at nftables/NFQUEUE setup. See README "
             ++ [34] ++ str "Packet mode" ++ [34] ++ str " for the setcap/sudo commands."]
      else [])
  ++ (if negb has_nft then [[]; str "Note: no `nft` binary found — install the `nftables` package."] else []).

(** What [--capabilities] prints: [file] is [/proc/self/status], [raw] whether a
    raw socket opens, [access] which files can be executed. *)
Definition packet_print_capabilities (built : bool) (file : option (list Z)) (raw : bool) (access : list Z -> bool) : list Z :=
  let '(net_admin, net_raw, raw_socket) := Capabilities.capabilities_probe_linux file raw in
  lines (packet_capabilities built net_admin net_raw raw_socket (Capabilities.capabilities_has_nft access)).

(** ** Log levels of packet mode *)

Definition level_value (l : log_level) : Z :=
  match l with LOG_ERROR => 0 | LOG_WARN => 1 | LOG_INFO => 2 | LOG_DEBUG => 3 end.

(** Is a message of this level printed? *)
Definition log_msg (level configured : log_level) : bool := negb (level_value configured <? level_value level).

(** ** Names in the log of transparent mode *)

Definition tp_result_name (r : tp_result) : list Z :=
  match r with
  | TP_RES_OK => str "ok" | TP_RES_ALERT => str "alert" | TP_RES_CONNECT_FAIL => str "connect-fail"
  | TP_RES_RESET => str "reset" | TP_RES_CLOSED => str "closed" | TP_RES_TIMEOUT => str "timeout"
  | TP_RES_NOT_TLS => str "not-tls" | TP_RES_SKIPPED => str "skipped"
  end.
Definition tp_source_name (s : tp_source) : list Z :=
  match s with
  | TP_SRC_MANUAL => str "manual" | TP_SRC_CACHED => str "cached" | TP_SRC_LADDER => str "auto"
  | TP_SRC_COOLDOWN => str "cooldown" | TP_SRC_NONE => str "none"
  end.

(** The names tell results and sources apart. *)
#[export] Instance tp_result_name_inj : Inj (=) (=) tp_result_name.
Proof. intros [] []; done. Qed.
#[export] Instance tp_source_name_inj : Inj (=) (=) tp_source_name.
Proof. intros [] []; done. Qed.

(** ** What is described is what is accepted *)

(** [a] is one of the names. *)
Ltac not_named H :=
  repeat match goal with
    | |- context [bool_decide (?a = str ?n)] =>
        rewrite (bool_decide_false (a = str n))
          by (intros ->; apply H; apply (bool_decide_unpack _); vm_compute; exact I)
    end.

Definition proxy_unknown (a : list Z) (r : early + args) : bool :=
  match r with inl (UNKNOWN_OPTION b) => bool_decide (b = a) | _ => false end.
Definition packet_unknown (a : list Z) (r : early_exit + options) : bool :=
  match r with inl (EXIT_UNKNOWN_OPTION b) => bool_decide (b = a) | _ => false end.

(** An option is accepted when some command line can start with it. *)
Theorem proxy_usage_complete a :
  a ∈ str "-h" :: described proxy_usage_options <->
  exists rest, proxy_unknown a (Main.parse_args (a :: rest) args_init) = false.
Proof.
  split.
  - intros Ha. exists [str "x"]. revert a Ha. apply Forall_forall. apply (bool_decide_unpack _). vm_compute. exact I.
  - intros [rest Hr]. apply dec_stable. intros Hn. cbn [Main.parse_args] in Hr. unfold is_opt in Hr. revert Hr.
    not_named Hn. cbn [orb]. destruct rest as [|v rest]; not_named Hn; cbn [proxy_unknown]; by rewrite bool_decide_true.
Qed.

Theorem packet_usage_complete a o :
  a ∈ str "-h" :: described packet_usage_options <->
  exists rest, packet_unknown a (Cli.parse_args (a :: rest) o) = false.
Proof.
  split.
  - intros Ha. exists [str "x"]. revert a Ha. apply Forall_forall. apply (bool_decide_unpack _). vm_compute. exact I.
  - intros [rest Hr]. apply dec_stable. intros Hn. cbn [Cli.parse_args] in Hr. unfold is_arg in Hr. revert Hr.
    not_named Hn. cbn [orb]. destruct rest as [|v rest]; not_named Hn; cbn [packet_unknown]; by rewrite bool_decide_true.
Qed.

(** ** The report and the log level *)

(** [--log-level] is what the engine logs at, unless [DPI_PROXY_DEBUG] is set;
    a message is printed exactly up to that level. *)
Theorem log_level_option v o l :
  Cli.parse_args [str "--log-level"; v] o = inr l -> o_env o !! str "DPI_PROXY_DEBUG" = None ->
  let configured := log_level_from_env (o_env l !! str "DPI_PROXY_DEBUG") (o_env l !! str "DPI_PROXY_LOG_LEVEL") in
  v = match configured with
      | LOG_ERROR => str "error" | LOG_WARN => str "warn" | LOG_INFO => str "info" | LOG_DEBUG => str "debug"
      end /\
  forall level, log_msg level configured = (level_value level <=? level_value configured).
Proof.
  intros Hp Hd. cbn in Hp. destruct (log_level_ok v) eqn:Hv; [|done]. injection Hp as <-. cbn [setenv o_env].
  rewrite lookup_insert_ne, Hd by done. unfold ENV_LOG. rewrite lookup_insert_eq. cbv zeta. split.
  - unfold log_level_ok, is_arg in Hv. cbn [log_level_from_env].
    repeat (case_bool_decide; [done|]). done.
  - intros level. unfold log_msg. by rewrite Z.ltb_antisym, negb_involutive.
Qed.

Definition is_note (l : list Z) : bool := bool_decide (bsub l 0 26 = str "Note: missing capabilities").

(** With the status file as the kernel prints it, the report gives the two
    capabilities as they are and warns exactly when one is missing. *)
Theorem packet_capabilities_correct built before after mask raw access :
  0 <= mask < 2 ^ 64 -> Forall Netprofile.line_ok (before ++ after) ->
  Forall (fun l => bsub (l ++ [10]) 0 7 <> str "CapEff:") before ->
  let admin := Z.testbit mask 12 in
  let net_raw := Z.testbit mask 13 in
  exists ls,
    packet_print_capabilities built (Some (lines (before ++ Capabilities.print_cap_eff mask :: after))) raw access = lines ls /\
    ls !! 3%nat = Some (str "cap_net_admin: " ++ yes_no admin) /\ ls !! 4%nat = Some (str "cap_net_raw: " ++ yes_no net_raw) /\
    existsb is_note ls = built && negb (admin && net_raw).
Proof.
  intros Hm Hl Hb. cbv zeta. unfold packet_print_capabilities, lines.
  rewrite Capabilities.capabilities_probe_linux_correct by done. cbv iota beta.
  unfold Capabilities.CAP_NET_ADMIN_BIT, Capabilities.CAP_NET_RAW_BIT. eexists. split; [reflexivity|].
  generalize (Z.testbit mask 12), (Z.testbit mask 13), (Capabilities.capabilities_has_nft access). intros a r n.
  by destruct built, a, r, raw, n; vm_compute.
Qed.
